(* ===== verification/_CoqProject ===== *)
-Q . S2P
Prelude.v
SystemEI.v
Eei.v
SystemVM.v
EeiSpec.v
StakingData.v
StakingNodes.v
WaitingList.v
StakingQueue.v
StakingSC.v
QueueSpec.v
QueueWalk.v
StakingSpec.v
StakingInvariant.v
StakingHandlers.v
StakingQueueHandlers.v
Concrete.v
EeiTheorems.v
QueueTheorems.v
StakingTheorems.v
Shuffler.v
ShufflerSpec.v
ShufflerOrder.v
ShufflerBalance.v
ShufflerUpdate.v
ShufflerConcrete.v
ShufflerTheorems.v
Sums.v
DelegationData.v
Contract.v
DelegationFunds.v
DelegationNodes.v
DelegationSC.v
DelegationSpec.v
DelegationInvariant.v
DelegationRewards.v
DelegationSteps.v
DelegationDelegate.v
DelegationWithdraw.v
DelegationManage.v
DelegationExecute.v
DelegationFlaws.v
DelegationConcrete.v
DelegationTheorems.v
ValidatorData.v
ValidatorNodes.v
ValidatorTokens.v
ValidatorSC.v
ValidatorSpec.v
ValidatorInvariant.v
ValidatorSteps.v
ValidatorHandlers.v
ValidatorExecute.v
ValidatorConcrete.v
ValidatorTheorems.v
DelegationManager.v
ManagerExecute.v
ManagerTheorems.v
EsdtData.v
EsdtTokens.v
EsdtRoles.v
EsdtSC.v
EsdtSpec.v
EsdtHandlers.v
EsdtRoleHandlers.v
EsdtTheorems.v
TrieNode.v
TrieOps.v
Trie.v
TrieWalk.v
TriePure.v
TrieSpec.v
TrieRefine.v
TrieDelete.v
TrieCommit.v
TrieMap.v
TrieProofs.v
TrieLeaves.v
TrieConcrete.v
TrieTheorems.v
