(* ===== verification/Prelude.v ===== *)
(** * System smart contracts, validators shuffler and state trie of a MultiversX node

    ** The program and the part that is verified

    The repository is the node of a sharded proof-of-stake chain.  Verified are
    the system contracts that hold its stake, the subsystem that decides from
    data on the chain who validates it, and the one that stores the state that
    all nodes have to agree on:

    - the staking system smart contract (src/vm/systemSmartContracts/staking.go,
      stakingWaitingList.go, stakingSaveLoad.go) keeps the registration of every
      validator node, the counters of staked and jailed nodes and a queue of
      waiting nodes.  It runs inside the system VM (src/vm/process/systemVM.go)
      on the environment interface (src/vm/systemSmartContracts/eei.go), which
      gives contracts storage, balances, gas, transfers and nested calls;
    - the delegation system smart contract (src/vm/systemSmartContracts/
      delegation.go, logs.go) pools the stake of many users behind an owner's
      nodes: it keeps the funds and rewards of every delegator and calls the
      validator contract.  It runs on the same environment;
    - the validator system smart contract (src/vm/systemSmartContracts/
      validator.go, validatorSaveLoad.go) holds the stake: it keeps a registration
      for every owner of nodes, with the staked tokens, the unstaked tokens that
      wait for the end of the unbonding period, and the keys of the nodes, which
      it registers, stakes and unstakes by calls of the staking contract;
    - the delegation manager (src/vm/systemSmartContracts/delegationManager.go)
      deploys the delegation contracts, and keeps their list, an index of their
      owners and the minimums that all of them read;
    - the ESDT contract (src/vm/systemSmartContracts/esdt.go) issues the chain's
      tokens and keeps for every one of them its owner, properties, supply and
      the roles that accounts have on it;
    - the validators shuffler (src/sharding/nodesCoordinator/
      hashValidatorShuffler.go) computes the eligible and waiting lists of all
      shards at every epoch change;
    - the state trie (src/trie) keeps accounts and their data as a Merkle
      Patricia tree, whose root hash is part of every block.

    All run identically on every node, so a panic, a result that depends on
    the order of a map iteration, or a counter that disagrees with the lists it
    counts would halt or fork the chain: these are the properties proved here.

    ** Files

    - [Prelude.v]: bytes, machine integers (the Z of their value, reduced by
      [u32], [u64], [i64]), the monad [M S X A] of state [S] whose outcome is a
      value, an early return of [X] or a Go panic, and its weakest
      preconditions [wp] with the tactics that apply them.
    - [SystemEI.v]: the interface [vm.SystemEI] as the class [SystemEI] with the
      laws [SystemEILaws] the contracts rely on.
    - [Eei.v], [SystemVM.v]: the implementation [vmContext] of the interface and
      the VM; [EeiSpec.v] discharges the laws and proves the lemmas behind
      [EeiTheorems.v].
    - [StakingData.v], [StakingNodes.v]: the stored records, their loading and
      saving, the node counters; [WaitingList.v]: the doubly linked queue;
      [StakingQueue.v], [StakingSC.v]: the entry points and the dispatcher
      [Execute].  All are parametric in the [SystemEI] instance, and every
      definition has the name of the Go function it translates.
    - [QueueSpec.v], [QueueWalk.v]: the queue refines a list of keys with a
      marked prefix; [StakingSpec.v]: the abstract state of the contract
      ([Rep]); [StakingInvariant.v], [StakingHandlers.v],
      [StakingQueueHandlers.v]: every handler keeps it consistent.
      [QueueTheorems.v], [StakingTheorems.v] state the properties;
      [Concrete.v] is an executable instance of all parameters.
    - [Shuffler.v]: hashValidatorShuffler.go and validatorDistributor.go;
      [ShufflerSpec.v]: what each step does to the lists;
      [ShufflerOrder.v]: independence of the order of map iteration;
      [ShufflerBalance.v]: how evenly a distribution fills the shards;
      [ShufflerUpdate.v]: what precedes the shuffle; [ShufflerConcrete.v]: a
      small network; [ShufflerTheorems.v]: the properties.
    - [Sums.v]: sums over lists and maps, and the bytes of a [big.Int].
    - [DelegationData.v], [DelegationFunds.v], [DelegationNodes.v],
      [DelegationSC.v]: the delegation contract, its records, funds and
      rewards, nodes, and the rest with the dispatcher [Execute].
      [DelegationSpec.v]: the storage as one record [Store] ([Heap]), and what
      every load and save does to it; [DelegationInvariant.v]: the users with
      their funds, the invariant [Inv] and [Books], and what is [owed];
      [DelegationRewards.v]: the reward loops; [DelegationSteps.v]: what the
      handlers have in common, and what is assumed of the validator contract;
      [DelegationDelegate.v], [DelegationWithdraw.v], [DelegationManage.v]: every
      handler keeps the books; [DelegationExecute.v]: the deployment, the dispatcher
      and the reachable states;
      [DelegationFlaws.v]: two loops that leave something out;
      [DelegationConcrete.v]: an executable host and validator contract;
      [DelegationTheorems.v]: the properties.
    - [Contract.v]: what the verifications of the contracts that hold value share: the
      weakest preconditions of handlers ([run], [handled]), stored records
      ([holds]), and the host ([ContractHost]) with the money that is observed.  The
      laws of transfers ([TransferLaws], for one recipient) are apart from those of all
      other instructions ([HostLaws]): a lemma about a handler that only pays its caller
      holds for every observation that behaves like a balance when the caller is paid.
      [assets] adds to the balance what another contract holds for this one;
      [payments] is what is left when an account is paid, so that the same lemma shows
      who received what ([paidTo]).
    - [ValidatorData.v], [ValidatorNodes.v], [ValidatorTokens.v],
      [ValidatorSC.v]: the validator contract, its records and configuration,
      the nodes, unstaking and unbonding, and the rest with the dispatcher
      [Execute].  [ValidatorSpec.v]: the storage as a map of registrations
      ([VHeap]) and what is assumed of the staking contract;
      [ValidatorInvariant.v]: good registrations, what is owed, and the unbonding
      loops against their reference [unBondRef]; [ValidatorSteps.v],
      [ValidatorHandlers.v]: every handler keeps the books;
      [ValidatorExecute.v]: the hand-over, the views, the dispatcher and the
      reachable states; [ValidatorConcrete.v]: an executable instance;
      [ValidatorTheorems.v]: the properties.
    - [EsdtData.v], [EsdtTokens.v], [EsdtRoles.v], [EsdtSC.v]: the ESDT contract, its
      records, issuing and supply, special roles, and dynamic tokens, views and the
      dispatcher.  [EsdtSpec.v]: well-formed roles, well-formed tokens in the storage
      and what one call may do to them ([tokenStep]); [EsdtHandlers.v],
      [EsdtRoleHandlers.v]: every handler keeps to that;
      [EsdtTheorems.v]: the dispatcher, the reachable states, the properties and a
      concrete host.
    - [DelegationManager.v]: the delegation manager; [ManagerExecute.v]: the addresses
      it gives, its storage as a [Directory], what is assumed of the contracts it
      deploys and calls ([ManagerPromise]), and that every handler keeps the
      directory; [ManagerTheorems.v]: the reachable states, a
      concrete host, the properties.
    - [TrieNode.v]: the nodes of the trie (node.go and what branchNode.go,
      extensionNode.go and leafNode.go have in common: versions, encoding,
      hashing, collapsing, loading, committing); [TrieOps.v]: tryGet, insert and
      delete; [Trie.v]: patriciaMerkleTrie.go; [TrieWalk.v]: the iteration over
      its leaves, with the Go slices that its key builders share.  [TriePure.v]: the
      canonical trie of a set of keys; [TrieSpec.v]: the relation [Rep] between
      nodes, storage and canonical trie; [TrieRefine.v], [TrieDelete.v],
      [TrieCommit.v]: loading, reading and inserting, deleting, hashing and
      committing refine it; [TrieMap.v]: a trie is a map; [TrieLeaves.v]:
      what an iteration sends; [TrieProofs.v]: Merkle proofs;
      [TrieConcrete.v]: an executable trie; [TrieTheorems.v]: the properties.

    ** How the code is translated

    A method that mutates its receiver is a computation in [M]; an error that a
    Go function returns is [Throw]; dereferencing nil, dividing by zero and
    slicing out of range are [Panic], which no handler catches.  A pointer that
    may be nil is an option.  The storage cache of [vmContext] is shared between
    the contexts of nested calls, so it is a location of a heap; the nodes of a
    trie have one owner, so a child is part of its parent and a call on it
    leaves the changed child there.  Maps are
    [gmap]; where the code ranges over a map in Go's unspecified order the
    order is a parameter.

    Code outside the repository is a parameter: the protobuf marshaller
    ([Marshaller], with the law that a record reads back), the blockchain hook
    and the argument parser ([Host]), the hash function ([Hasher]), the storage of
    the trie ([TrieEnvironment]), the enable epochs handler.  The theorems
    that take two tries with the same root hash to be equal, or read back what
    was committed, assume that the hash function does not collide
    ([CollisionFree]).  A theorem that needs a law of a parameter names it, and
    its witness instantiates it.

    ** What the theorems show

    - staking contract: [Execute] never panics and keeps the state consistent
      (C1, C2) ([init_establishes]: from its deployment on);
      the end of the queue ([unStakeAllNodesFromQueue_empties], where nested calls keep
      the contract's storage), the queue as a refinement of an abstract one (C17, C18), its repair ([fixQueueLoop_finds_head]), the
      replacement of jailed nodes (C19) and the minimum number of nodes
      ([tryUnStake_keeps_minimum], for the unstakings that are checked);
    - validator contract: it is solvent in every reachable state (C5), no
      call of it panics (C6), unbonding pays exactly what is due to
      the caller and nobody else (C8), the two versions of the unbonding loop compared
      (C31); two flaws: a failed registration of nodes is taken for a
      success ([registerBLSKeys_loses_error]), and [reStakeUnStakedNodes] keeps what it
      is paid ([reStakeUnStakedNodes_keeps_value]);
    - delegation contract: a contract is solvent in every reachable state (C3),
      no call of it panics (C4), a claim pays what is owed, to the caller and nobody else (C7), the
      computation of rewards ends and is exact (C12); two flaws: a withdrawal
      that is paid in part loses funds (C37), and with automatic activation
      refused nodes count as staked (C38);
    - delegation manager: the list of contracts and the index of their owners are
      consistent in every reachable state (C9), no call of it panics and
      it passes on the value of its calls, but for a flaw in those that call many
      contracts (C10), and a deployment creates one contract at a new
      address (C11);
    - ESDT contract: the tokens are well-formed in every reachable state
      (C13), no call of it panics and a call changes a token only as its owner
      may or as a burn does (C14), what an issuer promises holds forever
      (C15), a new identifier is not in use (C16); a flaw: the role to create NFTs
      cannot be handed over when two addresses have it ([transferNFTCreateRole_one_creator]);
    - environment: conservation of value by nested calls (C20), isolation of storages (C21), the writes of failed nested calls
      (C22), the output of a transaction (C23, C24); without a number, in the
      same file: transfers, lost messages, two panics, gas;
    - shuffler: no validator is lost or duplicated (C25), every shard keeps its
      minimum (C26) and most of its nodes (C27), all nodes agree (C28), success
      is decided by the input (C29), distributions are even (C30);
    - trie: any sequence of operations behaves as on a map (C32), the root hash
      identifies the contents (C33), what is committed can be recreated from
      its hash (C34), an iteration sends every key once (C35), proofs are
      complete (C36) but not sound: they are accepted for absent keys (C39) and
      can crash the verifier (C40).

    The delegation theorems take the chain's parameters to be sane ([Setting]:
    positive minimums, an epoch below 2^32 - 1, rewards checkpoints enabled) and
    callers to be addresses of 32 bytes other than the contract's own.  A contract's
    money is its balance and the unstaked tokens that the validator contract holds for
    it ([assets]).  The validator contract keeps [ValidatorPromise]: in the states that it
    reaches ([othersReady]) its functions do not panic, leave the delegation contract's
    storage alone and lead to such states again; [unStakeTokens] sets aside what it is
    asked for; [unBondTokens] pays out of what is set aside, and nothing is assumed
    about how much of what it is asked for it pays, since the repository's own pays only
    what is due and does not say how much.  The delegation manager lets a contract
    write its entries ([ManagerShared]).  They cover all functions but
    [initFromValidatorData] when the manager calls it for a contract that is already
    deployed (the function has no test of its own; the manager calls it for contracts
    that it has just deployed) and, of the views of a delegator, the calls whose
    argument is not an address ([coveredCall]): such a view would decode another record
    as a delegator.  C7 and C12 assume nothing of other contracts, which they do
    not call.  C37 is what a withdrawal that is paid in part does to the user's funds.

    The validator theorems take the chain to be past staking v2 (the first
    version saves registrations without their unstaked tokens), the base
    configuration to have positive prices, callers to be addresses other than the
    contract's own, and the staking contract to keep [StakingPromise]: it ends,
    and touches neither the storage nor the balance of its caller.  They cover
    all functions, with arguments that are addresses where the code reads them
    as such and, for [setConfig], a key of an epoch, which the owner of the
    contract gives.  Go's [int] bounds the number of arguments by 2^63, without
    which the overflow of [2*maxNodesToRun+1] in [isNumArgsCorrectToStake]
    would not be caught by the length test of [registerBLSKeys].

    The ESDT theorems take the constants of the protocol's libraries to be different
    where the code relies on it ([CoreLaws]), a stored configuration not to decode as a
    token ([EsdtLaws]; the fields of the two messages have different wire types, unless the
    maximal length of names is 0), messages to other shards to change nothing that the
    contract reads ([TokenHostLaws]), callers to be other accounts, and a call of [claim] to
    find a balance of the contract's own account ([goodEsdtCall]), which
    [reading_own_balance_panics] shows to be a condition; the flags on the creation of NFTs
    on several shards and on its end are on.  There are fewer than 2^31 calls: the
    number of role entries of a token grows by at most two per call, and
    [checkRolesAreCompatibleToChangeToDynamic] counts them in a uint32.

    The manager's theorems take the constructor's checks of the minimums, callers
    to be addresses of 32 bytes, fewer than 2^32 calls (the number of contracts
    is a uint32), and the contracts that it deploys and calls to leave its storage
    alone when they answer [Ok] ([ManagerPromise]).  A change of a delegation
    contract's owner, which writes the manager's index, may happen between two of
    its calls ([changeOwner_between]).

    ** Bounds and fuel

    The walks over the queue take [Length + 1] steps of fuel, the bound of the
    loops in the code; [fixQueueLoop_finds_head] proves that this reaches the end of a
    well-formed queue.  The descent into a trie takes one step of fuel per
    nibble of the key and one more: every node but an extension with an empty
    key uses up a nibble, and C32 and C36 prove that the fuel is enough.  An
    iteration takes as many steps as its longest key has nibbles, and two more
    (C35).  The reward loops of the delegation contract go through the epochs
    and take one step for each, which C12 proves enough; the Go loop does not end
    at the last epoch of 32 bits, which [Setting] excludes.  All other recursion is structural.  Go's int is taken as
    unbounded where it counts the elements of a slice in memory; every other
    integer is reduced to its width.

    ** Not modelled

    Constructors' nil checks, logging, setters of configuration, and the
    other components: the governance contract, the selection of consensus groups, the trie's
    synchronisation, snapshots, migration and statistics, the interruption of an
    iteration over it, accounts, block and transaction
    processing, consensus, epoch start, storage, and everything that is
    input/output. *)
From Stdlib Require Export Strings.Byte.
From stdpp Require Export ssreflect base tactics gmap strings pretty numbers.
From stdpp Require Export list.

#[export] Set Warnings "-rewrite-rw".

(** ** Go byte slices

    A [[]byte] that is never compared with [nil] is a list of bytes; where the
    code distinguishes [nil] from the empty slice the model uses
    [option bytes] ([None] is [nil]). *)
Abbreviation bytes := (list byte).

#[global] Instance byte_eq_dec : EqDecision byte := Byte.byte_eq_dec.
#[global] Instance byte_countable : Countable byte.
Proof.
  apply (inj_countable Byte.to_N Byte.of_N). exact Byte.of_to_N.
Defined.

(** [nil] slices read as empty ones *)
Definition orEmpty (o : option bytes) : bytes := default [] o.

(** Go's [copy(dst, src)]: the bytes of [dst] after the call. *)
Definition goCopy (dst src : bytes) : bytes :=
  take (length dst) src ++ drop (length src) dst.

Lemma goCopy_same dst src : length dst = length src → goCopy dst src = src.
Proof.
  intros Hl. unfold goCopy. rewrite take_ge; [|lia]. rewrite drop_ge; [|lia]. apply app_nil_r.
Qed.

(** [[]byte("...")] and [string(b)] *)
Definition toBytes (s : string) : bytes := String.list_byte_of_string s.
Definition ofBytes (b : bytes) : string := String.string_of_list_byte b.

(** [encoding/hex.EncodeToString] *)
Definition hexDigit (n : N) : byte :=
  default x00 (Byte.of_N (if (n <? 10)%N then 48 + n else 87 + n)%N).
Definition hexByte (b : byte) : bytes :=
  let n := Byte.to_N b in [hexDigit (n / 16)%N; hexDigit (n mod 16)%N].
Definition hexEncode (b : bytes) : bytes := concat (map hexByte b).
Definition hexString (b : bytes) : string := ofBytes (hexEncode b).

(** ** Machine integers and [math/big] *)
Definition u8 (z : Z) : Z := (z mod 2 ^ 8)%Z.
Definition u32 (z : Z) : Z := (z mod 2 ^ 32)%Z.
Definition u64 (z : Z) : Z := (z mod 2 ^ 64)%Z.
Definition i64 (z : Z) : Z := ((z + 2 ^ 63) mod 2 ^ 64 - 2 ^ 63)%Z.
Definition maxUint32 : Z := (2 ^ 32 - 1)%Z.
Definition maxUint64 : Z := (2 ^ 64 - 1)%Z.

(** core.MetachainShardId, a constant of mx-chain-core-go whose value
    src/process/identifiers_test.go spells out *)
Definition MetachainShardId : Z := 4294967295.

(** the order of Go strings: lexicographic by unsigned bytes *)
Fixpoint bytesLeb (a b : bytes) : bool :=
  match a, b with
  | [], _ => true
  | _ :: _, [] => false
  | x :: a', y :: b' =>
    if (Byte.to_N x =? Byte.to_N y)%N then bytesLeb a' b'
    else (Byte.to_N x <? Byte.to_N y)%N
  end.
Definition bytesLe (a b : bytes) : Prop := bytesLeb a b = true.
#[global] Instance bytesLe_dec : RelDecision bytesLe := λ a b, decide (bytesLeb a b = true).

Lemma to_N_inj x y : Byte.to_N x = Byte.to_N y → x = y.
Proof. intros Hxy. apply (f_equal Byte.of_N) in Hxy. rewrite !Byte.of_to_N in Hxy. congruence. Qed.
#[global] Instance bytesLe_total : Total bytesLe.
Proof.
  intros a. induction a as [|x a IH]; intros [|y b]; rewrite /bytesLe /=; [by left..|by right|].
  rewrite (N.eqb_sym (Byte.to_N y)). destruct (N.eqb_spec (Byte.to_N x) (Byte.to_N y)); [apply IH|].
  rewrite !N.ltb_lt. lia.
Qed.
#[global] Instance bytesLe_trans : Transitive bytesLe.
Proof.
  intros a. induction a as [|x a IH]; intros [|y b] [|z c]; rewrite /bytesLe /=; try done.
  destruct (N.eqb_spec (Byte.to_N x) (Byte.to_N y)), (N.eqb_spec (Byte.to_N y) (Byte.to_N z)),
    (N.eqb_spec (Byte.to_N x) (Byte.to_N z)); rewrite ?N.ltb_lt; try lia; [apply IH|congruence..].
Qed.
#[global] Instance bytesLe_antisymm : AntiSymm (=) bytesLe.
Proof.
  intros a. induction a as [|x a IH]; intros [|y b]; rewrite /bytesLe /=; try done.
  rewrite (N.eqb_sym (Byte.to_N y)).
  destruct (N.eqb_spec (Byte.to_N x) (Byte.to_N y)) as [Hxy%to_N_inj|]; rewrite ?N.ltb_lt; [|lia].
  intros. f_equal; [done|by apply IH].
Qed.

(** [big.Int.SetBytes]: big-endian, unsigned. *)
Definition setBytes (b : bytes) : Z :=
  foldl (λ acc x, acc * 256 + Z.of_N (Byte.to_N x))%Z 0%Z b.

(** [big.Int.Bytes]: the absolute value, big-endian, no leading zero. *)
Fixpoint bytesAux (fuel : nat) (n : N) (acc : bytes) : bytes :=
  match fuel with
  | O => acc
  | S f =>
    if (n =? 0)%N then acc
    else bytesAux f (n / 256)%N (default x00 (Byte.of_N (n mod 256)%N) :: acc)
  end.
Definition bigBytes (z : Z) : bytes :=
  let n := Z.abs_N z in bytesAux (S (N.to_nat (N.log2 n))) n [].

(** [big.Int.Uint64] and [big.Int.Int64] of a value *)
Definition bigUint64 (z : Z) : Z := u64 (Z.abs z).
Definition bigInt64 (z : Z) : Z := i64 z.
(** [big.Int.Div] (Euclidean division); the caller guards the zero divisor,
    on which Go panics. *)
Definition bigDiv (x y : Z) : Z := (Z.sgn y * (x / Z.abs y))%Z.

(** removing an absent element *)
Lemma filter_ne_notin {A} `{EqDecision A} (k : A) (l : list A) :
  k ∉ l → filter (λ x, x ≠ k) l = l.
Proof.
  induction l as [|x l IH]; intros Hk; [done|].
  apply not_elem_of_cons in Hk as [? ?]. rewrite filter_cons_True; [by rewrite IH|congruence].
Qed.

Lemma zip_map_self {A B} (f : A → B) (l : list A) : zip l (map f l) = map (λ x, (x, f x)) l.
Proof. induction l as [|x l IH]; [done|]. simpl. by rewrite IH. Qed.

Lemma foldl_perm {A B} (f : A → B → A) (l l' : list B) (a : A) :
  (∀ a x y, f (f a x) y = f (f a y) x) → l ≡ₚ l' → foldl f a l = foldl f a l'.
Proof.
  intros Hf Hp. revert a. induction Hp as [|x l l' _ IH|x y l|l l1 l' _ IH1 _ IH2]; intros a; simpl.
  - done.
  - apply IH.
  - by rewrite Hf.
  - by rewrite IH1.
Qed.
Lemma concat_perm {A} (l l' : list (list A)) : l ≡ₚ l' → concat l ≡ₚ concat l'.
Proof.
  induction 1; simpl; [done|by apply Permutation_app_head| |by etrans].
  rewrite !app_assoc. apply Permutation_app_tail, Permutation_app_comm.
Qed.

(** a list cut around two neighbours *)
Lemma split_two {A} (l : list A) (j : nat) :
  S j < length l → ∃ l1 a b l2, l = l1 ++ a :: b :: l2 ∧ length l1 = j.
Proof.
  intros Hj. destruct (lookup_lt_is_Some_2 l j) as [a Ha]; [lia|].
  destruct (lookup_lt_is_Some_2 l (S j)) as [b Hb]; [lia|].
  exists (take j l), a, b, (drop (S (S j)) l). split.
  - rewrite -(drop_S _ _ _ Hb). symmetry. by apply take_drop_middle.
  - rewrite length_take. lia.
Qed.

(** ** Effects: state, early exit, panic

    A Go method that mutates its receiver and may leave early is a function
    from the state to an outcome and the state it leaves behind.  Nothing is
    rolled back on an error: the state of a [Throw] is the state in which the
    [return] was executed. *)
Inductive outcome (X A : Type) : Type :=
  | Ret (a : A)
  | Throw (x : X)
  | Panic.
Arguments Ret {X A} a.
Arguments Throw {X A} x.
Arguments Panic {X A}.

Definition M (S X A : Type) : Type := S → outcome X A * S.

Section monad.
Context {S X : Type}.

Definition ret {A} (a : A) : M S X A := λ s, (Ret a, s).
Definition throw {A} (x : X) : M S X A := λ s, (Throw x, s).
Definition panic {A} : M S X A := λ s, (Panic, s).
Definition bind {A B} (m : M S X A) (k : A → M S X B) : M S X B := λ s,
  match m s with
  | (Ret a, s') => k a s'
  | (Throw x, s') => (Throw x, s')
  | (Panic, s') => (Panic, s')
  end.
Definition gets {A} (f : S → A) : M S X A := λ s, (Ret (f s), s).
Definition modify (f : S → S) : M S X unit := λ s, (Ret tt, f s).
Definition fromSum {A} (r : X + A) : M S X A :=
  match r with inl x => throw x | inr a => ret a end.
(** [for _, x := range l { body }] where the body may only leave early by
    [return] *)
Fixpoint forEach {A} (l : list A) (body : A → M S X unit) : M S X unit :=
  match l with
  | [] => ret tt
  | x :: t => bind (body x) (λ _, forEach t body)
  end.
(** the same with a local variable carried from one iteration to the next *)
Fixpoint foldEach {A B} (l : list A) (b : B) (body : B → A → M S X B) : M S X B :=
  match l with
  | [] => ret b
  | x :: t => bind (body b x) (λ b', foldEach t b' body)
  end.
End monad.

(** [if err != nil { h(err) }] *)
Definition catch {S X Y A} (m : M S X A) (h : X → M S Y A) : M S Y A := λ s,
  match m s with
  | (Ret a, s') => (Ret a, s')
  | (Throw x, s') => h x s'
  | (Panic, s') => (Panic, s')
  end.
(** [v, err := m()] with the error kept as a value *)
Definition attempt {S X Y A} (m : M S X A) : M S Y (X + A) := λ s,
  match m s with
  | (Ret a, s') => (Ret (inr a), s')
  | (Throw x, s') => (Ret (inl x), s')
  | (Panic, s') => (Panic, s')
  end.

(** errors are values that are only ever printed: their message *)
Abbreviation error := string (only parsing).

(** ** Third-party interfaces

    [marshal.Marshalizer] is third-party code: its two functions are
    parameters, one pair per type that is stored.  [Unmarshal] gets the value
    of the object it fills. *)
Class Marshaller (T : Type) : Type := {
  Marshal : T → error + bytes;
  Unmarshal : T → bytes → error + T;
}.

(** The documented behaviour of the protobuf marshaller: a value whose integer
    fields are in range is written, reading back what was written gives the
    value whatever the object held (the object is reset first), and only the
    zero value is written as no bytes at all. *)
Class MarshallerLaws (T : Type) `{Marshaller T} (inRange : T → Prop) (zeroValue : T) : Prop := {
  marshal_total x : inRange x → ∃ b, Marshal x = inr b;
  unmarshal_marshal x x0 b : inRange x → Marshal x = inr b → Unmarshal x0 b = inr x;
  marshal_nil x : inRange x → Marshal x = inr [] → x = zeroValue;
}.

(** hashing.Hasher *)
Class Hasher : Type := { Compute : bytes → bytes }.

(** functions without state: [a, err := f(); if err != nil { return err }] *)
Definition bindO {X A B} (o : outcome X A) (k : A → outcome X B) : outcome X B :=
  match o with
  | Ret a => k a
  | Throw x => Throw x
  | Panic => Panic
  end.
Definition liftO {S X A} (o : outcome X A) : M S X A := λ s, (o, s).
Definition ofSum {X A} (r : X + A) : outcome X A :=
  match r with inl x => Throw x | inr a => Ret a end.
(** indexing a slice *)
Definition at_index {X A} (l : list A) (i : nat) : outcome X A :=
  match l !! i with Some a => Ret a | None => Panic end.

Declare Scope go_scope.
Delimit Scope go_scope with go.
Notation "'let!' x ':=' m 'in' k" := (bind m (λ x, k))
  (at level 10, x name, m at level 200, k at level 200,
   format "'[v' 'let!'  x  ':='  m  'in' '/' k ']'") : go_scope.
Notation "'let!' ' p ':=' m 'in' k" := (bind m (λ p, k))
  (at level 10, p pattern, m at level 200, k at level 200) : go_scope.
Notation "'let?' x ':=' o 'in' k" := (bindO o (λ x, k))
  (at level 10, x name, o at level 200, k at level 200,
   format "'[v' 'let?'  x  ':='  o  'in' '/' k ']'") : go_scope.
Notation "'let?' ' p ':=' o 'in' k" := (bindO o (λ p, k))
  (at level 10, p pattern, o at level 200, k at level 200) : go_scope.
Notation "m ';;;' k" := (bind m (λ _, k))
  (at level 100, k at level 200, right associativity) : go_scope.

(** ** Weakest preconditions

    [wp m Q s]: run from [s], the computation ends in an outcome and a state
    that satisfy [Q]. *)
Definition wp {S X A} (m : M S X A) (Q : outcome X A → S → Prop) (s : S) : Prop :=
  Q (m s).1 (m s).2.

Section wp_lemmas.
Context {S X : Type}.

Lemma wp_ret {A} (a : A) Q (s : S) : Q (Ret a) s → wp (X:=X) (ret a) Q s.
Proof. done. Qed.
Lemma wp_throw {A} x Q (s : S) : Q (Throw x) s → wp (X:=X) (A:=A) (throw x) Q s.
Proof. done. Qed.
Lemma wp_gets {A} (f : S → A) Q s : Q (Ret (f s)) s → wp (X:=X) (gets f) Q s.
Proof. done. Qed.
Lemma wp_modify (f : S → S) Q s : Q (Ret tt) (f s) → wp (X:=X) (modify f) Q s.
Proof. done. Qed.
Lemma wp_bind {A B} (m : M S X A) (k : A → M S X B) Q s :
  wp m (λ o s', match o with
                | Ret a => wp (k a) Q s'
                | Throw x => Q (Throw x) s'
                | Panic => Q Panic s'
                end) s →
  wp (bind m k) Q s.
Proof. rewrite /wp /bind. destruct (m s) as [[a|x|] s']; done. Qed.
Lemma wp_mono {A} (m : M S X A) (P Q : outcome X A → S → Prop) s :
  wp m P s → (∀ o s', P o s' → Q o s') → wp m Q s.
Proof. rewrite /wp. auto. Qed.
Lemma wp_and {A} (m : M S X A) (P Q : outcome X A → S → Prop) s :
  wp m P s → wp m Q s → wp m (λ o s', P o s' ∧ Q o s') s.
Proof. by rewrite /wp. Qed.
Lemma wp_eq {A} (m : M S X A) o s' (Q : outcome X A → S → Prop) s :
  m s = (o, s') → Q o s' → wp m Q s.
Proof. rewrite /wp. by intros ->. Qed.
(** a loop keeps an invariant over the elements still to come *)
Lemma wp_foldEach {A B} (I : list A → B → S → Prop) (l : list A) b
    (body : B → A → M S X B) (Q : outcome X B → S → Prop) s :
  I l b s →
  (∀ x t b s, I (x :: t) b s →
     wp (body b x) (λ o s', match o with
                            | Ret b' => I t b' s'
                            | o => Q o s'
                            end) s) →
  (∀ b s, I [] b s → Q (Ret b) s) →
  wp (foldEach l b body) Q s.
Proof.
  intros HI Hstep Hend. revert b s HI.
  induction l as [|x t IH]; intros b s HI; simpl.
  - apply wp_ret. auto.
  - apply wp_bind. eapply wp_mono; [by apply (Hstep x t)|].
    intros [b'|y|] s' Hs'; auto.
Qed.
Lemma wp_forEach {A} (I : list A → S → Prop) (l : list A)
    (body : A → M S X unit) (Q : outcome X unit → S → Prop) s :
  I l s →
  (∀ x t s, I (x :: t) s →
     wp (body x) (λ o s', match o with
                          | Ret _ => I t s'
                          | o => Q (match o with Ret _ => Panic | Throw x => Throw x
                                            | Panic => Panic end) s'
                          end) s) →
  (∀ s, I [] s → Q (Ret tt) s) →
  wp (forEach l body) Q s.
Proof.
  intros HI Hstep Hend. revert s HI.
  induction l as [|x t IH]; intros s HI; simpl.
  - apply wp_ret. auto.
  - apply wp_bind. eapply wp_mono; [by apply (Hstep x t)|].
    intros [[]|y|] s' Hs'; auto.
Qed.
End wp_lemmas.

Lemma wp_catch {S X Y A} (m : M S X A) (h : X → M S Y A) Q s :
  wp m (λ o s', match o with
                | Ret a => Q (Ret a) s'
                | Throw x => wp (h x) Q s'
                | Panic => Q Panic s'
                end) s →
  wp (catch m h) Q s.
Proof. rewrite /wp /catch. destruct (m s) as [[a|x|] s']; done. Qed.
Lemma wp_attempt {S X Y A} (m : M S X A) (Q : outcome Y (X + A) → S → Prop) s :
  wp m (λ o s', match o with
                | Ret a => Q (Ret (inr a)) s'
                | Throw x => Q (Ret (inl x)) s'
                | Panic => Q Panic s'
                end) s →
  wp (attempt m) Q s.
Proof. rewrite /wp /attempt. destruct (m s) as [[a|x|] s']; done. Qed.

Lemma wp_run {S X A} (m : M S X A) o s s' :
  wp m (λ o1 s1, o1 = o ∧ s1 = s') s → m s = (o, s').
Proof. rewrite /wp. destruct (m s); simpl. by intros [-> ->]. Qed.
Lemma bind_Ret {S X A B} (m : M S X A) (k : A → M S X B) a s s' :
  m s = (Ret a, s') → bind m k s = k a s'.
Proof. rewrite /bind. by intros ->. Qed.
Lemma bind_gets {S X A B} (f : S → A) (k : A → M S X B) s : bind (gets f) k s = k (f s) s.
Proof. done. Qed.
Lemma bind_modify {S X B} (f : S → S) (k : unit → M S X B) s :
  bind (modify f) k s = k tt (f s).
Proof. done. Qed.
Lemma bind_fromSum {S X A B} (r : X + A) (k : A → M S X B) s :
  bind (fromSum r) k s = match r with inl x => (Throw x, s) | inr a => k a s end.
Proof. by destruct r. Qed.
Lemma bind_ret {S X A B} (a : A) (k : A → M S X B) s : bind (ret a) k s = k a s.
Proof. done. Qed.
Lemma bind_same {S X A B} (m : M S X A) (k : A → M S X B) s s' :
  m s = m s' → bind m k s = bind m k s'.
Proof. rewrite /bind. by intros ->. Qed.
Lemma wp_exists {S X A} (m : M S X A) a (P : S → Prop) s :
  wp m (λ o s', o = Ret a ∧ P s') s → ∃ s', m s = (Ret a, s') ∧ P s'.
Proof. rewrite /wp. destruct (m s) as [o s'] eqn:Hm; simpl. intros [-> ?]. eauto. Qed.

(** computations that leave the state as it is *)
Definition readOnly {S X A} (m : M S X A) : Prop := ∀ s, (m s).2 = s.

Section read_only.
Context {S X : Type}.
Lemma readOnly_ret {A} (a : A) : readOnly (S:=S) (X:=X) (ret a).
Proof. done. Qed.
Lemma readOnly_throw {A} x : readOnly (S:=S) (X:=X) (A:=A) (throw x).
Proof. done. Qed.
Lemma readOnly_panic {A} : readOnly (S:=S) (X:=X) (A:=A) panic.
Proof. done. Qed.
Lemma readOnly_gets {A} (f : S → A) : readOnly (X:=X) (gets f).
Proof. done. Qed.
Lemma readOnly_fromSum {A} (r : X + A) : readOnly (S:=S) (fromSum r).
Proof. by destruct r. Qed.
Lemma readOnly_bind {A B} (m : M S X A) (k : A → M S X B) :
  readOnly m → (∀ a, readOnly (k a)) → readOnly (bind m k).
Proof.
  intros Hm Hk s. specialize (Hm s). unfold bind.
  destruct (m s) as [[a|x|] s']; simpl in *; subst; [apply Hk|done..].
Qed.
Lemma readOnly_foldEach {A B} (l : list A) (b : B) (body : B → A → M S X B) :
  (∀ b x, readOnly (body b x)) → readOnly (foldEach l b body).
Proof.
  intros Hb. revert b. induction l as [|x l IH]; intros b; [done|].
  by apply readOnly_bind.
Qed.
Lemma wp_readOnly {A} (m : M S X A) (Q : outcome X A → S → Prop) s :
  readOnly m → (∀ o, Q o s) → wp m Q s.
Proof. intros Hm HQ. unfold wp. rewrite (Hm s). apply HQ. Qed.
End read_only.

Create HintDb go discriminated.
#[export] Hint Resolve readOnly_ret readOnly_throw readOnly_panic readOnly_gets
  readOnly_fromSum : go.
#[export] Hint Resolve wp_ret wp_throw wp_gets wp_modify : go.

(** [wpstep] runs the next instruction of a computation symbolically. *)
Ltac wpstep :=
  lazymatch goal with
  | |- wp (bind _ _) _ _ => apply wp_bind
  | |- wp (ret _) _ _ => apply wp_ret
  | |- wp (throw _) _ _ => apply wp_throw
  | |- wp (gets _) _ _ => apply wp_gets
  | |- wp (modify _) _ _ => apply wp_modify
  | |- wp (catch _ _) _ _ => apply wp_catch
  | |- wp (attempt _) _ _ => apply wp_attempt
  | |- wp (if ?b then _ else _) _ _ => destruct b eqn:?
  | |- wp (match ?x with _ => _ end) _ _ => destruct x eqn:?
  end.
