(* ===== verification/SystemEI.v ===== *)
(** * SystemEI: what a system smart contract sees of its host

    The interface [vm.SystemEI] (src/vm/interface.go) as a type class over the
    type of host states, with the laws the contracts rely on in a second
    class.  [Eei.v] discharges both for [vmContext]; the contracts' theorems
    are proved against the interface only.  The file also holds the calls'
    data: [ReturnCode] and [ContractCallInput]. *)
From S2P Require Import Prelude.

(** the return codes of vmcommon that the contracts produce or test *)
Inductive ReturnCode : Type :=
  | Ok
  | FunctionNotFound
  | FunctionWrongSignature
  | UserError
  | OutOfGas
  | OutOfFunds
  | ExecutionFailed.
#[global] Instance ReturnCode_eq_dec : EqDecision ReturnCode.
Proof. solve_decision. Defined.

(** vmcommon.ContractCallInput: a field that the code compares with [nil] is
    an option; [ESDTTransfers] is only measured. *)
Record ContractCallInput : Type := {
  CallerAddr : option bytes;
  Arguments : list bytes;
  CallValue : option Z;
  ESDTTransfers : nat;
  GasProvided : Z;
  RecipientAddr : option bytes;
  Function : string;
}.

Definition callerOf (args : ContractCallInput) : bytes := orEmpty (CallerAddr args).
Definition recipientOf (args : ContractCallInput) : bytes := orEmpty (RecipientAddr args).
Definition valueOf (args : ContractCallInput) : Z := default 0%Z (CallValue args).
(** [args.Arguments[i]], every use of which is guarded by a length test *)
Definition arg (args : ContractCallInput) (i : nat) : bytes := nth i (Arguments args) [].

(** the part of a vmcommon.VMOutput the calling contract looks at;
    [outTransfers] are the values of the transfers to all its accounts *)
Record CallOutput : Type := {
  outReturnCode : ReturnCode;
  outReturnMessage : string;
  outReturnData : list bytes;
  outTransfers : list Z;
}.

(** vmcommon.LogEntry *)
Record LogEntry : Type := mkLog {
  Identifier : bytes;
  logAddress : bytes;
  Topics : list bytes;
  logData : list bytes;
}.

(** vm.BlockchainHook: the chain as the contracts read it *)
Record BlockchainHook : Type := {
  CurrentNonce : Z;
  CurrentRound : Z;
  CurrentEpoch : Z;
  GetShardOfAddress : bytes → Z;
}.

(** [CheckIfNil] of common.go; a nil [args] is a nil [option] *)
Definition CheckIfNil (args : option ContractCallInput) : error + ContractCallInput :=
  match args with
  | None => inl "input system smart contract arguments are nil"
  | Some args =>
    match CallValue args with
    | None => inl "input value for system smart contract is nil"
    | Some _ =>
      if bool_decide (Function args = "") then inl "input function for system smart contract is nil"
      else match CallerAddr args with
           | None => inl "input called address for system smart contract is nil"
           | Some _ =>
             match RecipientAddr args with
             | None => inl "input recipient address for system smart contract is nil"
             | Some _ => inr args
             end
           end
    end
  end.

(** core.SCDeployInitFunctionName, a constant of mx-chain-core-go whose value is the one
    src/vm/systemSmartContracts/esdt_test.go calls the function by *)
Definition SCDeployInitFunctionName : string := "_init".

(** ** The interface *)
Class SystemEI (E : Type) : Type := {
  hookOf : E → BlockchainHook;
  GetStorage : bytes → E → option bytes;
  GetStorageFromAddress : bytes → bytes → E → option bytes;
  SetStorage : bytes → bytes → E → E;
  SetStorageForAddress : bytes → bytes → bytes → E → E;
  AddReturnMessage : string → E → E;
  Finish : bytes → E → E;
  AddLogEntry : LogEntry → E → E;
  GetLogs : E → list LogEntry;
  (** [None] is [vm.ErrNotEnoughGas] *)
  UseGas : Z → E → option E;
  GasLeft : E → Z;
  (** destination, sender, value, input, gas limit; [None] is a panic *)
  Transfer : bytes → bytes → Z → bytes → Z → E → option E;
  SetOwnerOperatingOnAccount : bytes → E → error + E;
  IsValidator : bytes → E → bool;
  CanUnJail : bytes → E → bool;
  IsBadRating : bytes → E → bool;
  ExecuteOnDestContext : bytes → bytes → Z → bytes → M E error CallOutput;
}.

(** What the contracts rely on: the storage is a map, and the operations that
    do not write it leave it alone. *)
Class SystemEILaws (E : Type) `{SystemEI E} : Prop := {
  get_set_eq k v (e : E) : GetStorage k (SetStorage k v e) = Some v;
  get_set_ne k k' v (e : E) :
    k ≠ k' → GetStorage k' (SetStorage k v e) = GetStorage k' e;
  get_msg k m (e : E) : GetStorage k (AddReturnMessage m e) = GetStorage k e;
  get_finish k v (e : E) : GetStorage k (Finish v e) = GetStorage k e;
  get_gas k g (e e' : E) : UseGas g e = Some e' → GetStorage k e' = GetStorage k e;
  hook_set k v (e : E) : hookOf (SetStorage k v e) = hookOf e;
  hook_msg m (e : E) : hookOf (AddReturnMessage m e) = hookOf e;
  hook_finish v (e : E) : hookOf (Finish v e) = hookOf e;
  hook_gas g (e e' : E) : UseGas g e = Some e' → hookOf e' = hookOf e;
}.

Create Rewrite HintDb eei.
#[export] Hint Rewrite @get_set_eq @get_msg @get_finish @hook_set @hook_msg
  @hook_finish using typeclasses eauto : eei.

(** ** Calls of the host from a contract *)
Section calls.
Context {E : Type} {EI : SystemEI E} {X : Type}.

Definition addReturnMessage (m : string) : M E X unit := modify (AddReturnMessage m).
Definition finish (v : bytes) : M E X unit := modify (Finish v).
Definition setStorage (k v : bytes) : M E X unit := modify (SetStorage k v).
(** [if cond { AddReturnMessage(msg); return x }] *)
Definition returnIf (cond : bool) (msg : string) (x : X) : M E X unit :=
  if cond then bind (addReturnMessage msg) (λ _, throw x) else ret tt.
(** [if cond { return x }] *)
Definition returnQuietIf (cond : bool) (x : X) : M E X unit :=
  if cond then throw x else ret tt.
End calls.

(** [if err != nil { AddReturnMessage(prefix + err.Error()); return code }] *)
Definition orReturn {E A} `{SystemEI E} (m : M E error A) (prefix : string)
    (code : ReturnCode) : M E ReturnCode A :=
  catch m (λ err, bind (addReturnMessage (prefix ++ err)) (λ _, throw code)).

Section early_exits.
Context {E : Type} {EI : SystemEI E}.

Lemma wp_returnIf {X} (c : bool) m (x : X) (Q : outcome X unit → E → Prop) e :
  (c = true → Q (Throw x) (AddReturnMessage m e)) → (c = false → Q (Ret tt) e) →
  wp (returnIf c m x) Q e.
Proof. destruct c; intros H1 H2; [by apply H1|by apply H2]. Qed.
Lemma wp_returnQuietIf {X} (c : bool) (x : X) (Q : outcome X unit → E → Prop) e :
  (c = true → Q (Throw x) e) → (c = false → Q (Ret tt) e) →
  wp (returnQuietIf c x) Q e.
Proof. destruct c; intros H1 H2; [by apply H1|by apply H2]. Qed.
Lemma wp_orReturn {A} (m : M E error A) prefix code (Q : outcome ReturnCode A → E → Prop) e :
  wp m (λ o e', match o with
                | Ret a => Q (Ret a) e'
                | Throw x => Q (Throw code) (AddReturnMessage (prefix ++ x) e')
                | Panic => Q Panic e'
                end) e →
  wp (orReturn m prefix code) Q e.
Proof.
  intros Hm. unfold orReturn. apply wp_catch. eapply wp_mono; [exact Hm|].
  intros [a|x|] e'; done.
Qed.
End early_exits.

(** A handler of a contract: the returned code, and early returns. *)
Abbreviation handler E := (M E ReturnCode ReturnCode).

(** what the caller of a handler sees: the code it answered, if it did *)
Definition answer (o : outcome ReturnCode ReturnCode) : option ReturnCode :=
  match o with
  | Ret c | Throw c => Some c
  | Panic => None
  end.
