(* ===== verification/Eei.v ===== *)
(** * Eei: the environment of the system smart contracts (eei.go)

    [vmContext] is the host all system contracts of one transaction run in.
    Its [storageUpdate] is a Go map, which [copyToNewContext] shares between
    the context of a call and the one of the nested call: it is modelled as a
    location of a heap of storages.  The pointers of [outputAccounts] are never
    shared between two entries that are both live, so the accounts are values;
    a [*big.Int] that may be nil is an option, and its use is a [Panic]. *)
From S2P Require Import Prelude SystemEI.
#[local] Open Scope go_scope.

(** ** Data of vmcommon *)
Record OutputTransfer : Type := mkTransfer {
  Index : Z;
  Value : Z;
  GasLimit : Z;
  Data : bytes;
  SenderAddress : option bytes;
}.

Record OutputAccount : Type := mkAccount {
  Address : bytes;
  Nonce : Z;
  Balance : option Z;
  BalanceDelta : option Z;
  StorageUpdates : gmap bytes bytes;
  Code : bytes;
  CodeMetadata : bytes;
  CodeDeployerAddress : option bytes;
  GasUsed : Z;
  BytesAddedToStorage : Z;
  BytesDeletedFromStorage : Z;
  OutputTransfers : list OutputTransfer;
}.
(** [&vmcommon.OutputAccount{}] *)
Definition emptyAccount : OutputAccount := mkAccount [] 0 None None ∅ [] [] None 0 0 0 [].
(** [&vmcommon.OutputAccount{Address, BalanceDelta: 0, Balance: 0}] *)
Definition freshAccount (address : bytes) : OutputAccount :=
  mkAccount address 0 (Some 0%Z) (Some 0%Z) ∅ [] [] None 0 0 0 [].

Definition withAddress v (a : OutputAccount) :=
  let 'mkAccount ad n b d s c m dp g ba bd t := a in mkAccount v n b d s c m dp g ba bd t.
Definition withNonce v (a : OutputAccount) :=
  let 'mkAccount ad n b d s c m dp g ba bd t := a in mkAccount ad v b d s c m dp g ba bd t.
Definition withBalance v (a : OutputAccount) :=
  let 'mkAccount ad n b d s c m dp g ba bd t := a in mkAccount ad n v d s c m dp g ba bd t.
Definition withBalanceDelta v (a : OutputAccount) :=
  let 'mkAccount ad n b d s c m dp g ba bd t := a in mkAccount ad n b v s c m dp g ba bd t.
Definition withCode v (a : OutputAccount) :=
  let 'mkAccount ad n b d s c m dp g ba bd t := a in mkAccount ad n b d s v m dp g ba bd t.
Definition withCodeMetadata v (a : OutputAccount) :=
  let 'mkAccount ad n b d s c m dp g ba bd t := a in mkAccount ad n b d s c v dp g ba bd t.
Definition withCodeDeployerAddress v (a : OutputAccount) :=
  let 'mkAccount ad n b d s c m dp g ba bd t := a in mkAccount ad n b d s c m v g ba bd t.
Definition withOutputTransfers v (a : OutputAccount) :=
  let 'mkAccount ad n b d s c m dp g ba bd t := a in mkAccount ad n b d s c m dp g ba bd v.

Record VMOutput : Type := {
  ReturnData : list bytes;
  vmReturnCode : ReturnCode;
  ReturnMessage : string;
  GasRemaining : Z;
  OutputAccounts : gmap bytes OutputAccount;
  Logs : list LogEntry;
}.

(** ** The context *)
Abbreviation storages := (gmap bytes (gmap bytes bytes)).

Record vmContext : Type := mkContext {
  heap : gmap nat storages;
  storageUpdate : nat;
  outputAccounts : gmap bytes OutputAccount;
  gasRemaining : Z;
  returnMessage : string;
  output : list bytes;
  logs : list LogEntry;
  scAddress : bytes;
  crtTransferIndex : Z;
}.

Definition setHeap v (c : vmContext) :=
  let 'mkContext hp st oa g m o l a i := c in mkContext v st oa g m o l a i.
Definition setStorageUpdate v (c : vmContext) :=
  let 'mkContext hp st oa g m o l a i := c in mkContext hp v oa g m o l a i.
Definition setOutputAccounts v (c : vmContext) :=
  let 'mkContext hp st oa g m o l a i := c in mkContext hp st v g m o l a i.
Definition setGasRemaining v (c : vmContext) :=
  let 'mkContext hp st oa g m o l a i := c in mkContext hp st oa v m o l a i.
Definition setReturnMessage v (c : vmContext) :=
  let 'mkContext hp st oa g m o l a i := c in mkContext hp st oa g v o l a i.
Definition setOutput v (c : vmContext) :=
  let 'mkContext hp st oa g m o l a i := c in mkContext hp st oa g m v l a i.
Definition setLogs v (c : vmContext) :=
  let 'mkContext hp st oa g m o l a i := c in mkContext hp st oa g m o v a i.
Definition SetSCAddress v (c : vmContext) :=
  let 'mkContext hp st oa g m o l a i := c in mkContext hp st oa g m o l v i.
Definition setTransferIndex v (c : vmContext) :=
  let 'mkContext hp st oa g m o l a i := c in mkContext hp st oa g m o l a v.

(** the map [host.storageUpdate] refers to *)
Definition storageMap (c : vmContext) : storages := default ∅ (heap c !! storageUpdate c).
(** [host.storageUpdate = make(map[string]map[string][]byte)] *)
Definition CleanStorageUpdates (c : vmContext) : vmContext :=
  let l := fresh (dom (heap c)) in
  setStorageUpdate l (setHeap (<[l := ∅]> (heap c)) c).

Definition ErrUnknownSystemSmartContract : error := "missing system smart contract on selected address".
Definition ErrInternalErrorWhileSettingNewOwner : error := "internal error when setting new contract owner".
Definition ErrWrongNewOwnerAddress : error := "wrong new owner address".

(** ** What the context calls *)
Inductive HostFlag : Type :=
  | MultiClaimOnDelegationFlag
  | SetSenderInEeiOutputTransferFlag
  | AlwaysMergeContextsInEEIFlag.

Record PeerAccount : Type := {
  GetList : string;
  GetTempRating : Z;
}.

(** a contract of the container, run in the context *)
Record SystemContract : Type := {
  CanUseContract : bool;
  contractExecute : ContractCallInput → M vmContext ReturnCode ReturnCode;
}.

Class Host : Type := {
  hook : BlockchainHook;
  userAccount : Type;
  GetUserAccount : bytes → error + userAccount;
  GetCode : userAccount → bytes;
  GetAccountBalance : userAccount → Z;
  GetStorageData : bytes → bytes → error + option bytes;
  NumberOfShards : Z;
  BuiltInFunction : ContractCallInput → error + VMOutput;
  (** [nil] before [SetSystemSCContainer] *)
  systemContracts : option (bytes → error + SystemContract);
  ParseData : bytes → error + (string * list bytes);
  (** [None]: no such account, or not a peer account *)
  GetPeerAccount : bytes → option PeerAccount;
  GetChance : Z → Z;
  hostFlag : HostFlag → bool;
  (** third-party code: vmcommon and core *)
  MergeOutputAccounts : OutputAccount → OutputAccount → OutputAccount;
  FormatLogDataForCall : string → string → list bytes → list bytes;
  codeMetaDataBytes : bytes;
  SystemAccountAddress : bytes;
  (** the accounts database: load the account of a contract; save it with another owner *)
  LoadSCAccount : bytes → error + unit;
  SaveAccountOwner : bytes → bytes → error + unit;
}.

Section eei.
Context {HO : Host}.

(** ** Storage *)
Definition eeiGetStorageFromAddress (address key : bytes) (host : vmContext) : option bytes :=
  match storageMap host !! address ≫= lookup key with
  | Some value => Some value
  | None =>
    match GetStorageData address key with
    | inl _ => None
    | inr data => data
    end
  end.

Definition eeiGetStorage (key : bytes) (host : vmContext) : option bytes :=
  eeiGetStorageFromAddress (scAddress host) key host.

Definition eeiSetStorageForAddress (address key value : bytes) (host : vmContext) : vmContext :=
  let m := storageMap host in
  let inner := default ∅ (m !! address) in
  setHeap (<[storageUpdate host := <[address := <[key := value]> inner]> m]> (heap host)) host.

Definition eeiSetStorage (key value : bytes) (host : vmContext) : vmContext :=
  eeiSetStorageForAddress (scAddress host) key value host.

(** ** Messages, results, logs, gas *)
Definition eeiFinish (value : bytes) (host : vmContext) : vmContext :=
  setOutput (output host ++ [value]) host.

Definition eeiAddReturnMessage (message : string) (host : vmContext) : vmContext :=
  if bool_decide (message = "") then host
  else if bool_decide (returnMessage host = "") then setReturnMessage message host
  else setReturnMessage (returnMessage host ++ ("@" ++ message)) host.

Definition eeiAddLogEntry (entry : LogEntry) (host : vmContext) : vmContext :=
  setLogs (logs host ++ [entry]) host.

(** [None] is [vm.ErrNotEnoughGas] *)
Definition eeiUseGas (gasToConsume : Z) (host : vmContext) : option vmContext :=
  if (gasRemaining host <? gasToConsume)%Z then None
  else Some (setGasRemaining (u64 (gasRemaining host - gasToConsume)) host).

Definition CleanCache (host : vmContext) : vmContext :=
  setTransferIndex 1 (setLogs [] (setGasRemaining 0 (setReturnMessage "" (setOutput []
    (setOutputAccounts ∅ (CleanStorageUpdates host)))))).

Definition softCleanCache (host : vmContext) : vmContext :=
  setReturnMessage "" (setOutput [] (setOutputAccounts ∅ host)).

(** [index := crtTransferIndex; crtTransferIndex++] *)
Definition NextOutputTransferIndex {X} : M vmContext X Z := λ host,
  (Ret (crtTransferIndex host), setTransferIndex (u32 (crtTransferIndex host + 1)) host).

(** ** Accounts and balances *)
Definition putAccount (key : bytes) (a : OutputAccount) (host : vmContext) : vmContext :=
  setOutputAccounts (<[key := a]> (outputAccounts host)) host.

Definition GetBalance {X} (addr : bytes) : M vmContext X Z :=
  let! accounts := gets outputAccounts in
  match accounts !! addr with
  | Some outAcc =>
    match Balance outAcc, BalanceDelta outAcc with
    | Some b, Some d => ret (b + d)%Z
    | _, _ => panic
    end
  | None =>
    match GetUserAccount addr with
    | inl _ => ret 0%Z
    | inr account => ret (GetAccountBalance account)
    end
  end.

Definition GetTotalSentToUser (dest : bytes) (host : vmContext) : option Z :=
  match outputAccounts host !! dest with
  | None => Some 0%Z
  | Some destination => BalanceDelta destination
  end.

(** creates the missing accounts *)
Definition getSenderDestination (sender destination : bytes) (host : vmContext) : vmContext :=
  let host := match outputAccounts host !! sender with
              | Some _ => host
              | None => putAccount sender (freshAccount sender) host
              end in
  match outputAccounts host !! destination with
  | Some _ => host
  | None => putAccount destination (freshAccount destination) host
  end.

(** [acc.BalanceDelta.Add(acc.BalanceDelta, v)] on the entry of [key] *)
Definition addDelta {X} (key : bytes) (v : Z) : M vmContext X unit := λ host,
  match outputAccounts host !! key with
  | Some a =>
    match BalanceDelta a with
    | Some d => (Ret tt, putAccount key (withBalanceDelta (Some (d + v)%Z) a) host)
    | None => (Panic, host)
    end
  | None => (Panic, host)
  end.

Definition transferValueOnly {X} (destination sender : bytes) (value : Z) : M vmContext X unit :=
  modify (getSenderDestination sender destination) ;;;
  addDelta sender (- value) ;;;
  addDelta destination value.

Definition appendTransfer (key : bytes) (t : OutputTransfer) (host : vmContext) : vmContext :=
  match outputAccounts host !! key with
  | Some a => putAccount key (withOutputTransfers (OutputTransfers a ++ [t]) a) host
  | None => host
  end.

Definition eeiTransfer {X} (destination sender : bytes) (value : Z) (input : bytes)
    (gasLimit : Z) : M vmContext X unit :=
  transferValueOnly destination sender value ;;;
  modify (getSenderDestination sender destination) ;;;
  let! senderAddress := gets (λ host,
    match outputAccounts host !! sender with Some a => Address a | None => [] end) in
  let! index := NextOutputTransferIndex in
  modify (appendTransfer destination
    (mkTransfer index value gasLimit input
      (if hostFlag SetSenderInEeiOutputTransferFlag then Some senderAddress else None))).

Definition AddTxValueToSmartContract {X} (value : Z) (scAddr : bytes) : M vmContext X unit :=
  modify (λ host,
    match outputAccounts host !! scAddr with
    | Some _ => host
    | None => putAccount scAddr (withBalance None (freshAccount scAddr)) host
    end) ;;;
  addDelta scAddr value.

Definition AddCode (address code : bytes) (host : vmContext) : vmContext :=
  match outputAccounts host !! address with
  | None => putAccount address (withCode code (withBalance None (freshAccount address))) host
  | Some newSCAcc => putAccount address (withCode code newSCAcc) host
  end.

Definition UpdateCodeDeployerAddress (scAddr newOwner : bytes) (host : vmContext) :
    error + vmContext :=
  match outputAccounts host !! scAddr with
  | None => inl ErrInternalErrorWhileSettingNewOwner
  | Some outAcc => inr (putAccount scAddr (withCodeDeployerAddress (Some newOwner) outAcc) host)
  end.

(** the accounts database is not part of the context *)
Definition eeiSetOwnerOperatingOnAccount (newOwner : bytes) (host : vmContext) : error + vmContext :=
  match LoadSCAccount (scAddress host) with
  | inl err => inl err
  | inr _ =>
    if negb (length newOwner =? length (scAddress host)) then inl ErrWrongNewOwnerAddress
    else match SaveAccountOwner (scAddress host) newOwner with
         | inl err => inl err
         | inr _ => inr host
         end
  end.

(** the last byte of the system account's address is the shard *)
Definition shardSystemAddress (i : Z) : bytes :=
  take (length SystemAccountAddress - 1) SystemAccountAddress
    ++ [default x00 (Byte.of_N (Z.to_N i))].

Definition SendGlobalSettingToAll {X} (input : bytes) : M vmContext X unit :=
  forEach (seqZ 0 (u8 NumberOfShards)) (λ i,
    let systemAddress := shardSystemAddress i in
    let! accounts := gets outputAccounts in
    let globalOutAcc := default (freshAccount systemAddress) (accounts !! systemAddress) in
    let! index := NextOutputTransferIndex in
    modify (putAccount systemAddress
      (withOutputTransfers (OutputTransfers globalOutAcc ++ [mkTransfer index 0 0 input None])
         globalOutAcc))).

(** ** Contexts of nested calls *)
Definition copyToNewContext (host : vmContext) : vmContext :=
  mkContext (heap host) (storageUpdate host) (outputAccounts host) 0 "" (output host) []
    (scAddress host) 0.

(** the merge of the storages reads both maps from the heap of [host] *)
Definition mergeStorage (left right : storages) : storages :=
  union_with (λ l r, Some (r ∪ l)) left right.

Definition mergeContext (currContext host : vmContext) : vmContext :=
  let host := setOutput (output host ++ output currContext) host in
  let host := eeiAddReturnMessage (returnMessage currContext) host in
  let right := default ∅ (heap host !! storageUpdate currContext) in
  let host := setHeap
    (<[storageUpdate host := mergeStorage (storageMap host) right]> (heap host)) host in
  let host := setOutputAccounts
    (map_fold (λ _ rightAccount accounts,
       let leftAccount := default emptyAccount (accounts !! Address rightAccount) in
       <[Address rightAccount := MergeOutputAccounts leftAccount rightAccount]> accounts)
     (outputAccounts host) (outputAccounts currContext)) host in
  SetSCAddress (scAddress currContext) host.

(** the assignments to [destination], field by field *)
Definition addOutputAccounts (destination rightAccount : OutputAccount) : OutputAccount := {|
  Address := if length (Address rightAccount) =? 0 then Address destination
             else Address rightAccount;
  Nonce := if (Nonce destination <? Nonce rightAccount)%Z then Nonce rightAccount
           else Nonce destination;
  Balance := match Balance rightAccount with
             | Some b => Some b
             | None => Balance destination
             end;
  BalanceDelta :=
    let delta := default 0%Z (BalanceDelta destination) in
    match BalanceDelta rightAccount with
    | Some v => Some (delta + v)%Z
    | None => Some delta
    end;
  StorageUpdates := StorageUpdates destination;
  Code := if length (Code rightAccount) =? 0 then Code destination else Code rightAccount;
  CodeMetadata := if length (CodeMetadata rightAccount) =? 0 then CodeMetadata destination
                  else CodeMetadata rightAccount;
  CodeDeployerAddress := match CodeDeployerAddress rightAccount with
                         | Some a => Some a
                         | None => CodeDeployerAddress destination
                         end;
  GasUsed := u64 (GasUsed destination + GasUsed rightAccount);
  BytesAddedToStorage :=
    u64 (BytesAddedToStorage destination + BytesAddedToStorage rightAccount);
  BytesDeletedFromStorage :=
    u64 (BytesDeletedFromStorage destination + BytesDeletedFromStorage rightAccount);
  OutputTransfers := OutputTransfers destination ++ OutputTransfers rightAccount;
|}.

Definition addAccounts (left right : gmap bytes OutputAccount) : gmap bytes OutputAccount :=
  map_fold (λ _ rightAccount accounts,
    let leftAccount := default (freshAccount (Address rightAccount))
                         (accounts !! Address rightAccount) in
    <[Address rightAccount := addOutputAccounts leftAccount rightAccount]> accounts)
  left right.

Definition properMergeContexts (parentContext : vmContext) (returnCode : ReturnCode)
    (host : vmContext) : vmContext :=
  if negb (hostFlag MultiClaimOnDelegationFlag) then mergeContext parentContext host
  else
    let host := SetSCAddress (scAddress parentContext) host in
    let host := eeiAddReturnMessage (returnMessage parentContext) host in
    if negb (bool_decide (returnCode = Ok) || hostFlag AlwaysMergeContextsInEEIFlag) then host
    else
      let host := setOutput (output host ++ output parentContext) host in
      setOutputAccounts (addAccounts (outputAccounts host) (outputAccounts parentContext)) host.

(** ** Contracts *)
Definition getCodeFromAddress (address : bytes) : bytes :=
  match GetUserAccount address with
  | inl _ => address
  | inr userAcc => match GetCode userAcc with [] => address | code => code end
  end.

Definition GetContract (get : bytes → error + SystemContract) (address : bytes) :
    error + SystemContract :=
  match get (getCodeFromAddress address) with
  | inl err => inl err
  | inr contract =>
    if CanUseContract contract then inr contract else inl ErrUnknownSystemSmartContract
  end.

(** the code a contract answers, whichever [return] it left by *)
Definition runContract {X} (contract : SystemContract) (input : ContractCallInput) :
    M vmContext X ReturnCode := catch (contractExecute contract input) ret.

Definition createDirectCallInput (destination sender : bytes) (value : Z) (function : string)
    (arguments : list bytes) : ContractCallInput := {|
  CallerAddr := Some sender;
  Arguments := arguments;
  CallValue := Some value;
  ESDTTransfers := 0;
  GasProvided := 0;
  RecipientAddr := Some destination;
  Function := function;
|}.

Definition createContractCallInput (destination sender : bytes) (value : Z) (data : bytes) :
    error + ContractCallInput :=
  match ParseData data with
  | inl err => inl err
  | inr (function, arguments) =>
    inr (createDirectCallInput destination sender value function arguments)
  end.

Definition transferBeforeInternalExec {X} (callInput : ContractCallInput) (sender : bytes)
    (callType : string) : M vmContext X unit :=
  let destination := recipientOf callInput in
  let value := valueOf callInput in
  if negb (hostFlag MultiClaimOnDelegationFlag) then eeiTransfer destination sender value [] 0
  else
    transferValueOnly destination sender value ;;;
    modify (eeiAddLogEntry {|
      Identifier := toBytes "transferValueOnly";
      logAddress := sender;
      Topics := [bigBytes value; destination];
      logData := FormatLogDataForCall callType (Function callInput) (Arguments callInput) |}).

Definition addContractDeployToOutput (contractAddress ownerAddress code : bytes)
    (host : vmContext) : vmContext :=
  let outAcc := default (freshAccount contractAddress) (outputAccounts host !! contractAddress) in
  let outAcc := withCodeDeployerAddress (Some ownerAddress)
                  (withCode code (withCodeMetadata codeMetaDataBytes outAcc)) in
  putAccount (Address outAcc) outAcc (putAccount contractAddress outAcc host).

(** an error comes with the code ExecutionFailed *)
Definition DeploySystemSC (baseContract newAddress ownerAddress : bytes) (initFunction : string)
    (value : Z) (input : list bytes) : M vmContext error ReturnCode :=
  match systemContracts with
  | None => throw ErrUnknownSystemSmartContract
  | Some get =>
    let callInput := createDirectCallInput newAddress ownerAddress value initFunction input in
    let! oldSCAddress := gets scAddress in
    transferBeforeInternalExec callInput oldSCAddress "DeploySmartContract" ;;;
    let! contract := fromSum (get baseContract) in
    modify (SetSCAddress (recipientOf callInput)) ;;;
    let! returnCode := runContract contract callInput in
    modify (SetSCAddress oldSCAddress) ;;;
    modify (addContractDeployToOutput newAddress ownerAddress baseContract) ;;;
    ret returnCode
  end.

(** ** The output of a transaction *)
Definition outputOfAccount (outAcc base : OutputAccount) : OutputAccount :=
  let a := withBalanceDelta (BalanceDelta outAcc) (withAddress (Address outAcc) base) in
  let a := if length (Code outAcc) =? 0 then a else withCode (Code outAcc) a in
  let a := if (0 <? Nonce outAcc)%Z then withNonce (Nonce outAcc) a else a in
  let a := if (0 <? CurrentNonce hook)%Z then
             let a := match CodeDeployerAddress outAcc with
                      | None | Some [] => a
                      | Some d => withCodeDeployerAddress (Some d) a
                      end in
             if length (CodeMetadata outAcc) =? 0 then a
             else withCodeMetadata (CodeMetadata outAcc) a
           else a in
  withOutputTransfers (OutputTransfers outAcc) a.

Definition storageAccount (addr : bytes) (updates : gmap bytes bytes) : OutputAccount :=
  mkAccount addr 0 None None updates [] [] None 0 0 0 [].

Definition createOutputAccounts (host : vmContext) : gmap bytes OutputAccount :=
  let outAccs := map_imap (λ addr updates, Some (storageAccount addr updates))
                   (storageMap host) in
  map_fold (λ addr outAcc accs,
    let base := default emptyAccount (accs !! addr) in
    <[addr := outputOfAccount outAcc base]> accs)
  outAccs (outputAccounts host).

Definition CreateVMOutput (host : vmContext) : VMOutput := {|
  ReturnData := output host;
  vmReturnCode := Ok;
  ReturnMessage := returnMessage host;
  GasRemaining := gasRemaining host;
  OutputAccounts := createOutputAccounts host;
  Logs := logs host;
|}.

(** ** Nested calls *)
Definition userErrorOutput (message : string) : VMOutput := {|
  ReturnData := []; vmReturnCode := UserError; ReturnMessage := message;
  GasRemaining := 0; OutputAccounts := ∅; Logs := [] |}.

Definition withReturnCode (c : ReturnCode) (message : string) (v : VMOutput) : VMOutput := {|
  ReturnData := ReturnData v; vmReturnCode := c; ReturnMessage := message;
  GasRemaining := GasRemaining v; OutputAccounts := OutputAccounts v; Logs := Logs v |}.

(** the body of [ExecuteOnDestContext] between the copy of the context and the
    deferred merge: the result, and the [ReturnCode] of the variable
    [vmOutput] when the deferred function reads it *)
Definition executeNested (get : bytes → error + SystemContract) (callInput : ContractCallInput)
    (currContext : vmContext) : M vmContext error ((error + VMOutput) * ReturnCode) :=
  modify softCleanCache ;;;
  modify (SetSCAddress (recipientOf callInput)) ;;;
  match GetContract get (recipientOf callInput) with
  | inl err => ret (inl err, UserError)
  | inr contract =>
    if bool_decide (Function callInput = SCDeployInitFunctionName) then
      ret (inr (userErrorOutput "cannot call smart contract init function"), UserError)
    else
      let! returnCode := runContract contract callInput in
      let! vmOutput :=
        if bool_decide (returnCode = Ok) then gets CreateVMOutput
        else
          (* all changes must be deleted *)
          modify (setOutputAccounts ∅) ;;;
          modify (setStorageUpdate (storageUpdate currContext)) ;;;
          ret (userErrorOutput "") in
      let! message := gets returnMessage in
      ret (inr (withReturnCode returnCode message vmOutput), returnCode)
  end.

Definition eeiExecuteOnDestContext (destination sender : bytes) (value : Z) (input : bytes) :
    M vmContext error VMOutput :=
  match systemContracts with
  | None => throw ErrUnknownSystemSmartContract
  | Some get =>
    let! callInput := fromSum (createContractCallInput destination sender value input) in
    transferBeforeInternalExec callInput sender "ExecuteOnDestContext" ;;;
    let! currContext := gets copyToNewContext in
    let! ' (result, returnCode) := executeNested get callInput currContext in
    (* deferred *)
    modify (setOutput []) ;;;
    modify (properMergeContexts currContext returnCode) ;;;
    fromSum result
  end.

Definition mergeTransfers (address : bytes) (outAcc : OutputAccount)
    (accounts : gmap bytes OutputAccount) : gmap bytes OutputAccount :=
  match OutputTransfers outAcc with
  | [] => accounts
  | transfers =>
    let leftAccount := default (withAddress address emptyAccount) (accounts !! address) in
    <[address := withOutputTransfers (OutputTransfers leftAccount ++ transfers) leftAccount]>
      accounts
  end.

(** the hook's error is returned; [errors.New(vmOutput.ReturnMessage)] *)
Definition ProcessBuiltInFunction (sender destination : bytes) (function : string)
    (arguments : list bytes) : M vmContext error VMOutput :=
  let! gas := gets gasRemaining in
  let d := createDirectCallInput destination sender 0 function arguments in
  let vmInput := {|
    CallerAddr := CallerAddr d; Arguments := SystemEI.Arguments d; CallValue := CallValue d;
    ESDTTransfers := ESDTTransfers d; GasProvided := gas; RecipientAddr := RecipientAddr d;
    Function := Function d |} in
  let! vmOutput := fromSum (BuiltInFunction vmInput) in
  if negb (bool_decide (vmReturnCode vmOutput = Ok)) then throw (ReturnMessage vmOutput)
  else
    modify (λ host, setOutputAccounts
      (map_fold mergeTransfers (outputAccounts host) (OutputAccounts vmOutput)) host) ;;;
    forEach (Logs vmOutput) (λ logEntry, modify (eeiAddLogEntry logEntry)) ;;;
    ret vmOutput.

(** ** Validator statistics *)
(** common.EligibleList, WaitingList, LeavingList, JailedList, InactiveList *)
Definition inValidatorList (l : string) : bool :=
  bool_decide (l = "eligible") || bool_decide (l = "waiting") || bool_decide (l = "leaving").

Definition eeiIsValidator (blsKey : bytes) : bool :=
  match GetPeerAccount blsKey with
  | None => false
  | Some acc => inValidatorList (GetList acc)
  end.
Definition StatusFromValidatorStatistics (blsKey : bytes) : string :=
  match GetPeerAccount blsKey with None => "inactive" | Some acc => GetList acc end.
Definition eeiCanUnJail (blsKey : bytes) : bool :=
  match GetPeerAccount blsKey with
  | None => false
  | Some acc => bool_decide (GetList acc = "jailed")
  end.
Definition eeiIsBadRating (blsKey : bytes) : bool :=
  match GetPeerAccount blsKey with
  | None => false
  | Some acc => (GetChance (GetTempRating acc) <? GetChance 0)%Z
  end.

(** ** The interface of the contracts *)
#[export] Instance vmContext_SystemEI : SystemEI vmContext := {
  hookOf _ := hook;
  GetStorage := eeiGetStorage;
  GetStorageFromAddress := eeiGetStorageFromAddress;
  SetStorage := eeiSetStorage;
  AddReturnMessage := eeiAddReturnMessage;
  Finish := eeiFinish;
  UseGas := eeiUseGas;
  IsValidator k _ := eeiIsValidator k;
  CanUnJail k _ := eeiCanUnJail k;
  IsBadRating k _ := eeiIsBadRating k;
  SetStorageForAddress := eeiSetStorageForAddress;
  AddLogEntry := eeiAddLogEntry;
  GetLogs := logs;
  GasLeft := gasRemaining;
  Transfer d s v i g host := match eeiTransfer (X:=error) d s v i g host with
                             | (Ret _, host') => Some host'
                             | _ => None
                             end;
  SetOwnerOperatingOnAccount := eeiSetOwnerOperatingOnAccount;
  ExecuteOnDestContext d s v i :=
    let! out := eeiExecuteOnDestContext d s v i in
    ret {| outReturnCode := vmReturnCode out; outReturnMessage := ReturnMessage out;
           outReturnData := ReturnData out;
           outTransfers := concat (map (λ entry, map Value (OutputTransfers entry.2))
                                       (map_to_list (OutputAccounts out))) |};
}.
End eei.
