(* ===== verification/SystemVM.v ===== *)
(** * SystemVM: running one transaction (src/vm/process/systemVM.go)

    [RunSmartContractCall] prepares the context, runs the contract the address
    stands for and turns what it left in the context into the output of the
    transaction.  The mutex of [systemVM] serialises the transactions, so one
    call is one step. *)
From S2P Require Import Prelude SystemEI Eei.
#[local] Open Scope go_scope.

Definition ErrInputCallerAddrIsNil : error := "input called address for system smart contract is nil".
Definition ErrInputArgsIsNil : error := "input system smart contract arguments are nil".

Section systemVM.
Context {HO : Host}.

(** the output of a call that was not answered by [Ok]: no account changes *)
Definition failedOutput (code : ReturnCode) (message : string) : VMOutput := {|
  ReturnData := []; vmReturnCode := code; ReturnMessage := message;
  GasRemaining := 0; OutputAccounts := ∅; Logs := [] |}.

(** the container is the one of the context: [systemVM] holds the same object *)
Definition RunSmartContractCall (input : ContractCallInput) : M vmContext error VMOutput :=
  modify CleanCache ;;;
  modify (SetSCAddress (recipientOf input)) ;;;
  AddTxValueToSmartContract (valueOf input) (recipientOf input) ;;;
  modify (setGasRemaining (GasProvided input)) ;;;
  match systemContracts with
  | None => panic
  | Some get =>
    match GetContract get (recipientOf input) with
    | inl _ => throw ErrUnknownSystemSmartContract
    | inr contract =>
      if bool_decide (Function input = SCDeployInitFunctionName) then
        ret (userErrorOutput "cannot call smart contract init function")
      else
        let! returnCode := runContract contract input in
        let! host := gets id in
        ret (if bool_decide (returnCode = Ok)
             then withReturnCode returnCode (returnMessage host) (CreateVMOutput host)
             else failedOutput returnCode (returnMessage host))
    end
  end.

Definition RunSmartContractCreate (input : option ContractCallInput) (contractCode : bytes) :
    M vmContext error VMOutput :=
  match input with
  | None => throw ErrInputArgsIsNil
  | Some input =>
    match CallerAddr input with
    | None => throw ErrInputCallerAddrIsNil
    | Some caller =>
      modify CleanCache ;;;
      modify (SetSCAddress caller) ;;;
      match systemContracts with
      | None => panic
      | Some get =>
        match get caller with
        | inl _ => throw ErrUnknownSystemSmartContract
        | inr contract =>
          let deployInput := {|
            CallerAddr := CallerAddr input; Arguments := Arguments input;
            CallValue := CallValue input; ESDTTransfers := ESDTTransfers input;
            GasProvided := GasProvided input; RecipientAddr := Some caller;
            Function := SCDeployInitFunctionName |} in
          let! returnCode := runContract contract deployInput in
          modify (AddCode caller contractCode) ;;;
          let! host := gets id in
          ret (withReturnCode returnCode (returnMessage host) (CreateVMOutput host))
        end
      end
    end
  end.
End systemVM.
