(* ===== verification/EeiSpec.v ===== *)
(** * EeiSpec: what the context guarantees the contracts and the chain

    The laws of the interface, and the lemmas behind the properties of
    [EeiTheorems.v]: the storages behind references, the conservation of value
    by transfers and merges, the numbering of transfers. *)
From S2P Require Import Prelude SystemEI Eei.
#[local] Open Scope go_scope.

Section laws.
Context {HO : Host}.

Lemma storageMap_set m (host : vmContext) :
  storageMap (setHeap (<[storageUpdate host := m]> (heap host)) host) = m.
Proof. destruct host. unfold storageMap. simpl. by rewrite lookup_insert_eq. Qed.

Lemma get_set_address a k v a' k' (host : vmContext) :
  eeiGetStorageFromAddress a' k' (eeiSetStorageForAddress a k v host) =
  if decide (a' = a ∧ k' = k) then Some v else eeiGetStorageFromAddress a' k' host.
Proof.
  unfold eeiGetStorageFromAddress, eeiSetStorageForAddress. rewrite storageMap_set.
  destruct (decide (a' = a)) as [->|Ha].
  - rewrite lookup_insert_eq /=. destruct (decide (k' = k)) as [->|Hk].
    + by rewrite lookup_insert_eq decide_True.
    + rewrite lookup_insert_ne // decide_False; [|tauto].
      by destruct (storageMap host !! a).
  - rewrite lookup_insert_ne // decide_False; [done|tauto].
Qed.

Lemma scAddress_setHeap h (host : vmContext) : scAddress (setHeap h host) = scAddress host.
Proof. by destruct host. Qed.

#[export] Instance vmContext_laws : SystemEILaws vmContext.
Proof.
  split; simpl; unfold eeiGetStorage, eeiSetStorage; try done.
  - intros k v e. rewrite scAddress_setHeap get_set_address decide_True //.
  - intros k k' v e Hk. rewrite scAddress_setHeap get_set_address decide_False //.
    intros [_ ?]. congruence.
  - intros k m e. unfold eeiAddReturnMessage. destruct e; simpl.
    by repeat case_bool_decide.
  - intros k v e. by destruct e.
  - intros k g e e'. unfold eeiUseGas. destruct e; simpl. case_match; [done|]. by intros [= <-].
Qed.
End laws.

(** ** Value: the sum of the balance deltas *)
Definition deltaOf (o : option OutputAccount) : Z :=
  match o with Some a => default 0%Z (BalanceDelta a) | None => 0%Z end.
Definition totalDelta (accounts : gmap bytes OutputAccount) : Z :=
  map_fold (λ _ a t, (default 0 (BalanceDelta a) + t)%Z) 0%Z accounts.
(** no account has a nil delta *)
Definition noNil (accounts : gmap bytes OutputAccount) : Prop :=
  map_Forall (λ _ a, BalanceDelta a ≠ None) accounts.

Lemma totalDelta_empty : totalDelta ∅ = 0%Z.
Proof. apply map_fold_empty. Qed.
Lemma totalDelta_new k a m :
  m !! k = None → totalDelta (<[k := a]> m) = (deltaOf (Some a) + totalDelta m)%Z.
Proof.
  intros Hk. unfold totalDelta. rewrite map_fold_insert_L //. intros; lia.
Qed.
Lemma totalDelta_insert k a m :
  totalDelta (<[k := a]> m) = (totalDelta m - deltaOf (m !! k) + deltaOf (Some a))%Z.
Proof.
  destruct (m !! k) as [a0|] eqn:Hk.
  - rewrite -(insert_delete_eq m) totalDelta_new ?lookup_delete_eq //.
    rewrite -{2}(insert_delete_id m k a0) // totalDelta_new ?lookup_delete_eq //. simpl. lia.
  - rewrite totalDelta_new //. simpl. lia.
Qed.

Lemma BalanceDelta_with v a : BalanceDelta (withBalanceDelta v a) = v.
Proof. by destruct a. Qed.
Lemma outputAccounts_put k a host :
  outputAccounts (putAccount k a host) = <[k := a]> (outputAccounts host).
Proof. by destruct host. Qed.
Lemma outputAccounts_set m host : outputAccounts (setOutputAccounts m host) = m.
Proof. by destruct host. Qed.
Lemma noNil_insert k a m : noNil m → BalanceDelta a ≠ None → noNil (<[k := a]> m).
Proof. intros Hm Ha. by apply map_Forall_insert_2. Qed.
Lemma noNil_lookup k a m : noNil m → m !! k = Some a → ∃ d, BalanceDelta a = Some d.
Proof. intros Hm Hk. apply Hm in Hk. destruct (BalanceDelta a); eauto; done. Qed.

(** two contexts differ in their accounts only *)
Definition sameButAccounts (c c' : vmContext) : Prop :=
  c' = setOutputAccounts (outputAccounts c') c.
Lemma sameButAccounts_refl c : sameButAccounts c c.
Proof. by destruct c. Qed.
Lemma sameButAccounts_trans c1 c2 c3 :
  sameButAccounts c1 c2 → sameButAccounts c2 c3 → sameButAccounts c1 c3.
Proof. destruct c1, c2, c3; unfold sameButAccounts; simpl; intros [=] [=]; by subst. Qed.
Lemma sameButAccounts_put k a c : sameButAccounts c (putAccount k a c).
Proof. by destruct c. Qed.

Section value.
Context {HO : Host}.

(** what a transfer does to the accounts *)
Definition moved (destination sender : bytes) (value : Z)
    (m m' : gmap bytes OutputAccount) : Prop :=
  noNil m' ∧ totalDelta m' = totalDelta m ∧
  ∀ k, deltaOf (m' !! k) =
    (deltaOf (m !! k) + (if decide (k = destination) then value else 0)
                      - (if decide (k = sender) then value else 0))%Z.

Lemma getSenderDestination_spec sender destination host :
  noNil (outputAccounts host) →
  let host' := getSenderDestination sender destination host in
  noNil (outputAccounts host') ∧
  (∀ k, deltaOf (outputAccounts host' !! k) = deltaOf (outputAccounts host !! k)) ∧
  totalDelta (outputAccounts host') = totalDelta (outputAccounts host) ∧
  is_Some (outputAccounts host' !! sender) ∧ is_Some (outputAccounts host' !! destination) ∧
  sameButAccounts host host'.
Proof.
  intros Hn. unfold getSenderDestination.
  assert (∀ k c, noNil (outputAccounts c) →
    let c' := match outputAccounts c !! k with
              | Some _ => c | None => putAccount k (freshAccount k) c end in
    noNil (outputAccounts c') ∧
    (∀ x, deltaOf (outputAccounts c' !! x) = deltaOf (outputAccounts c !! x)) ∧
    totalDelta (outputAccounts c') = totalDelta (outputAccounts c) ∧
    is_Some (outputAccounts c' !! k) ∧
    (∀ x, is_Some (outputAccounts c !! x) → is_Some (outputAccounts c' !! x)) ∧
    sameButAccounts c c') as Hone.
  { intros k c Hc. destruct (outputAccounts c !! k) eqn:Hk; simpl.
    - split_and!; try done. apply sameButAccounts_refl.
    - rewrite outputAccounts_put. split_and!.
      + by apply noNil_insert.
      + intros x. destruct (decide (x = k)) as [->|Hx].
        * by rewrite lookup_insert_eq Hk.
        * by rewrite lookup_insert_ne.
      + rewrite totalDelta_new //.
      + rewrite lookup_insert_eq. eauto.
      + intros x Hx. rewrite lookup_insert. case_decide; eauto.
      + apply sameButAccounts_put. }
  destruct (Hone sender host Hn) as (H1 & H2 & H3 & H4 & _ & H6).
  set (host1 := match outputAccounts host !! sender with Some _ => _ | None => _ end) in *.
  destruct (Hone destination host1 H1) as (G1 & G2 & G3 & G4 & G5 & G6).
  simpl. split_and!; [done| |congruence|auto|done|by eapply sameButAccounts_trans].
  intros k. by rewrite G2 H2.
Qed.

Lemma wp_addDelta {X} key v host (Q : outcome X unit → vmContext → Prop) :
  noNil (outputAccounts host) → is_Some (outputAccounts host !! key) →
  (∀ host', noNil (outputAccounts host') →
     (∀ k, deltaOf (outputAccounts host' !! k) =
        (deltaOf (outputAccounts host !! k) + if decide (k = key) then v else 0)%Z) →
     totalDelta (outputAccounts host') = (totalDelta (outputAccounts host) + v)%Z →
     (∀ k, is_Some (outputAccounts host !! k) → is_Some (outputAccounts host' !! k)) →
     sameButAccounts host host' → Q (Ret tt) host') →
  wp (addDelta key v) Q host.
Proof.
  intros Hn [a Ha] HQ. destruct (noNil_lookup _ _ _ Hn Ha) as [d Hd].
  unfold addDelta, wp. rewrite Ha Hd /=. apply HQ; rewrite ?outputAccounts_put.
  - apply noNil_insert; [done|]. by rewrite BalanceDelta_with.
  - intros k. rewrite lookup_insert. case_decide as Hk; case_decide; try congruence; [|lia].
    subst. rewrite Ha /= BalanceDelta_with Hd /=. lia.
  - rewrite totalDelta_insert Ha /= BalanceDelta_with Hd /=. lia.
  - intros k Hk. rewrite lookup_insert. case_decide; eauto.
  - apply sameButAccounts_put.
Qed.

Lemma wp_transferValueOnly {X} destination sender value host
    (Q : outcome X unit → vmContext → Prop) :
  noNil (outputAccounts host) →
  (∀ host', moved destination sender value (outputAccounts host) (outputAccounts host') →
     is_Some (outputAccounts host' !! sender) → is_Some (outputAccounts host' !! destination) →
     sameButAccounts host host' → Q (Ret tt) host') →
  wp (transferValueOnly destination sender value) Q host.
Proof.
  intros Hn HQ. unfold transferValueOnly. apply wp_bind, wp_modify.
  destruct (getSenderDestination_spec sender destination host Hn)
    as (N1 & D1 & T1 & S1 & S1' & B1).
  set (h1 := getSenderDestination sender destination host) in *.
  apply wp_bind, wp_addDelta; [done|done|]. intros h2 N2 D2 T2 S2 B2.
  apply wp_addDelta; [done|by apply S2|]. intros h3 N3 D3 T3 S3 B3.
  apply HQ; [|by apply S3, S2|by apply S3, S2|].
  - split_and!; [done|lia|]. intros k. rewrite D3 D2 D1. repeat case_decide; lia.
  - by do 2 (eapply sameButAccounts_trans; [eassumption|]).
Qed.
End value.

(** ** Merging contexts *)
Lemma deltaOf_addOutputAccounts l r :
  deltaOf (Some (addOutputAccounts l r)) = (deltaOf (Some l) + deltaOf (Some r))%Z
  ∧ BalanceDelta (addOutputAccounts l r) ≠ None.
Proof.
  simpl. split; [|by destruct (BalanceDelta r)]. destruct (BalanceDelta r); simpl; lia.
Qed.

Section merging.
Context {HO : Host}.

Lemma addAccounts_total left right :
  noNil left →
  noNil (addAccounts left right) ∧
  totalDelta (addAccounts left right) = (totalDelta left + totalDelta right)%Z.
Proof.
  intros Hn. unfold addAccounts.
  apply (map_fold_weak_ind (λ acc r, noNil acc ∧ totalDelta acc = totalDelta left + totalDelta r)%Z).
  - split; [done|]. rewrite totalDelta_empty. lia.
  - intros k a r acc Hk [Hna Ht].
    destruct (deltaOf_addOutputAccounts (default (freshAccount (Address a)) (acc !! Address a)) a)
      as [Hd Hne]. split; [by apply noNil_insert|].
    rewrite totalDelta_insert Hd Ht totalDelta_new //.
    destruct (acc !! Address a); simpl; lia.
Qed.

Lemma wp_transferBefore {X} callInput sender callType host
    (Q : outcome X unit → vmContext → Prop) :
  hostFlag MultiClaimOnDelegationFlag = true → noNil (outputAccounts host) →
  (∀ host',
     moved (recipientOf callInput) sender (valueOf callInput)
       (outputAccounts host) (outputAccounts host') →
     (∃ l, host' = setLogs l (setOutputAccounts (outputAccounts host') host)) →
     Q (Ret tt) host') →
  wp (transferBeforeInternalExec callInput sender callType) Q host.
Proof.
  intros Hf Hn HQ. unfold transferBeforeInternalExec. rewrite Hf. cbn [negb].
  apply wp_bind, wp_transferValueOnly; [done|]. intros h1 Hm _ _ Hs. apply wp_modify, HQ.
  - by destruct h1.
  - unfold sameButAccounts in Hs. destruct host, h1. simpl in *. injection Hs as -> -> -> -> -> -> -> ->.
    eexists. reflexivity.
Qed.
End merging.

(** ** Nested calls *)
Section nested.
Context {HO : Host}.

Lemma runContract_answers {X} c input host (o : outcome X ReturnCode) host' :
  runContract c input host = (o, host') → o ≠ Panic → ∃ code, o = Ret code.
Proof.
  unfold runContract, catch. destruct (contractExecute c input host) as [[a|x|] h1];
    intros [= <- <-]; eauto; done.
Qed.

(** the contract creates no value out of nothing *)
Definition keepsValue (c : SystemContract) : Prop :=
  ∀ input host, noNil (outputAccounts host) →
    (runContract (X:=error) c input host).1 ≠ Panic ∧
    noNil (outputAccounts (runContract (X:=error) c input host).2) ∧
    totalDelta (outputAccounts (runContract (X:=error) c input host).2)
      = totalDelta (outputAccounts host).

Lemma outputAccounts_misc host :
  (∀ v, outputAccounts (setOutput v host) = outputAccounts host) ∧
  (∀ v, outputAccounts (SetSCAddress v host) = outputAccounts host) ∧
  (∀ v, outputAccounts (setStorageUpdate v host) = outputAccounts host) ∧
  outputAccounts (softCleanCache host) = ∅ ∧
  (∀ m, outputAccounts (eeiAddReturnMessage m host) = outputAccounts host).
Proof.
  destruct host; split_and!; try done. intros m. unfold eeiAddReturnMessage.
  by repeat case_bool_decide.
Qed.

Lemma wp_executeNested get callInput curr host Q :
  (∀ a c, get a = inr c → keepsValue c) →
  (∀ r host', noNil (outputAccounts host') → totalDelta (outputAccounts host') = 0%Z →
     Q (Ret r) host') →
  wp (executeNested get callInput curr) Q host.
Proof.
  intros Hget HQ. unfold executeNested. apply wp_bind, wp_modify, wp_bind, wp_modify.
  set (h1 := SetSCAddress _ _).
  assert (outputAccounts h1 = ∅) as Hh1.
  { subst h1. destruct (outputAccounts_misc (softCleanCache host)) as (_ & -> & _).
    apply outputAccounts_misc. }
  assert (noNil (outputAccounts h1) ∧ totalDelta (outputAccounts h1) = 0%Z) as [Hn1 Ht1]
    by (rewrite Hh1; split; [by apply map_Forall_empty|done]).
  unfold GetContract. destruct (get _) as [err|c] eqn:Hc; [by apply wp_ret, HQ|].
  destruct (CanUseContract c); [|by apply wp_ret, HQ].
  destruct (bool_decide _); [by apply wp_ret, HQ|].
  destruct (Hget _ _ Hc callInput h1 Hn1) as (Hp & Hn2 & Ht2).
  apply wp_bind. destruct (runContract c callInput h1) as [o h2] eqn:Hrun; simpl in *.
  destruct (runContract_answers _ _ _ _ _ Hrun Hp) as [code ->].
  eapply wp_eq; [exact Hrun|]. cbn beta iota. apply wp_bind.
  destruct (bool_decide (code = Ok)).
  - apply wp_gets. cbn beta iota. apply wp_bind, wp_gets, wp_ret, HQ; [done|lia].
  - apply wp_bind, wp_modify, wp_bind, wp_modify, wp_ret. cbn beta iota.
    apply wp_bind, wp_gets, wp_ret, HQ;
      destruct (outputAccounts_misc (setOutputAccounts ∅ h2)) as (_ & _ & -> & _);
      rewrite outputAccounts_set; [by apply map_Forall_empty|done].
Qed.

Lemma properMerge_spec curr code host :
  hostFlag MultiClaimOnDelegationFlag = true → hostFlag AlwaysMergeContextsInEEIFlag = true →
  outputAccounts (properMergeContexts curr code host)
    = addAccounts (outputAccounts host) (outputAccounts curr) ∧
  scAddress (properMergeContexts curr code host) = scAddress curr ∧
  heap (properMergeContexts curr code host) = heap host ∧
  storageUpdate (properMergeContexts curr code host) = storageUpdate host.
Proof.
  intros Hm Ha. unfold properMergeContexts. rewrite Hm Ha orb_true_r. cbn [negb].
  destruct host, curr. unfold eeiAddReturnMessage; simpl. by repeat case_bool_decide.
Qed.

Lemma wp_executeOnDest dest sender value input host Q :
  hostFlag MultiClaimOnDelegationFlag = true → hostFlag AlwaysMergeContextsInEEIFlag = true →
  (∀ get a c, systemContracts = Some get → get a = inr c → keepsValue c) →
  noNil (outputAccounts host) →
  (∀ o host', o ≠ Panic → noNil (outputAccounts host') →
     totalDelta (outputAccounts host') = totalDelta (outputAccounts host) →
     scAddress host' = scAddress host → Q o host') →
  wp (eeiExecuteOnDestContext dest sender value input) Q host.
Proof.
  intros Hm Ha Hc Hn HQ. unfold eeiExecuteOnDestContext.
  destruct systemContracts as [get|]; [|by apply wp_throw, HQ].
  apply wp_bind. destruct (createContractCallInput dest sender value input) as [err|callInput];
    [by apply HQ|]. apply wp_ret. cbn beta iota.
  apply wp_bind, wp_transferBefore; [done|done|]. intros h1 (Hn1 & Ht1 & _) [l Hl].
  apply wp_bind, wp_gets, wp_bind. apply wp_executeNested; [by eauto|].
  intros [result code] h2 Hn2 Ht2. cbn beta iota.
  apply wp_bind, wp_modify, wp_bind, wp_modify.
  destruct (properMerge_spec (copyToNewContext h1) code (setOutput [] h2) Hm Ha)
    as (Hacc & Hsc & _).
  destruct (outputAccounts_misc h2) as (Hso & _). rewrite Hso in Hacc.
  destruct (addAccounts_total (outputAccounts h2) (outputAccounts h1) Hn2) as [Hn3 Ht3].
  destruct result as [err|out]; simpl; (apply wp_throw || apply wp_ret); apply HQ; try done;
    rewrite ?Hacc ?Hsc /=; try done; try lia; rewrite Hl; by destruct host.
Qed.

(** *** Storage behind the shared reference *)

(** the contract writes the storage of its own address only, and does not
    replace the map *)
Definition writesOwnStorage (c : SystemContract) : Prop :=
  ∀ input host, let host' := (runContract (X:=error) c input host).2 in
    storageUpdate host' = storageUpdate host ∧
    ∀ a, a ≠ scAddress host → storageMap host' !! a = storageMap host !! a.

Definition sameStorage (c c' : vmContext) : Prop :=
  heap c' = heap c ∧ storageUpdate c' = storageUpdate c.
Lemma sameStorage_map c c' : sameStorage c c' → storageMap c' = storageMap c.
Proof. intros [H1 H2]. unfold storageMap. by rewrite H1 H2. Qed.

Lemma nestedStart_storage callInput host :
  let h1 := SetSCAddress (recipientOf callInput) (softCleanCache host) in
  sameStorage host h1 ∧ scAddress h1 = recipientOf callInput.
Proof. by destruct host. Qed.

Lemma wp_executeNested_storage get callInput curr host
    (Q : outcome error ((error + VMOutput) * ReturnCode) → vmContext → Prop) :
  (∀ a c, get a = inr c → writesOwnStorage c) → storageUpdate curr = storageUpdate host →
  (∀ o host', storageUpdate host' = storageUpdate host →
     (∀ a, a ≠ recipientOf callInput → storageMap host' !! a = storageMap host !! a) →
     Q o host') →
  wp (executeNested get callInput curr) Q host.
Proof.
  intros Hget Hcurr HQ. unfold executeNested. apply wp_bind, wp_modify, wp_bind, wp_modify.
  destruct (nestedStart_storage callInput host) as [[Hh1 Hl1] Hsc].
  set (h1 := SetSCAddress _ _) in *.
  pose proof (sameStorage_map host h1 (conj Hh1 Hl1)) as Hm1.
  unfold GetContract. destruct (get _) as [err|c] eqn:Hc; [by apply wp_ret, HQ; intros; rewrite ?Hm1|].
  destruct (CanUseContract c); [|by apply wp_ret, HQ; intros; rewrite ?Hm1].
  destruct (bool_decide _); [by apply wp_ret, HQ; intros; rewrite ?Hm1|].
  apply wp_bind. destruct (Hget _ _ Hc callInput h1) as [Hl2 Hm2].
  destruct (runContract c callInput h1) as [o h2] eqn:Hrun; simpl in *.
  eapply wp_eq; [exact Hrun|].
  assert (∀ a, a ≠ recipientOf callInput → storageMap h2 !! a = storageMap host !! a) as Hm
    by (intros a Ha; rewrite Hm2 ?Hm1 //; congruence).
  destruct o as [code|x|]; cbn beta iota; [|apply HQ; [congruence|done]..].
  apply wp_bind. destruct (bool_decide (code = Ok)).
  - apply wp_gets. cbn beta iota. apply wp_bind, wp_gets, wp_ret, HQ; [congruence|done].
  - apply wp_bind, wp_modify, wp_bind, wp_modify, wp_ret. cbn beta iota.
    apply wp_bind, wp_gets, wp_ret, HQ; destruct h2; simpl in *; [congruence|].
    intros a Ha. rewrite -Hm // /storageMap /=. congruence.
Qed.

Lemma wp_executeOnDest_storage dest sender value input host Q :
  hostFlag MultiClaimOnDelegationFlag = true →
  (∀ get a c, systemContracts = Some get → get a = inr c → writesOwnStorage c) →
  noNil (outputAccounts host) →
  (∀ o host', storageUpdate host' = storageUpdate host →
     (∀ a, a ≠ dest → storageMap host' !! a = storageMap host !! a) → Q o host') →
  wp (eeiExecuteOnDestContext dest sender value input) Q host.
Proof.
  intros Hm Hc Hn HQ. unfold eeiExecuteOnDestContext.
  destruct systemContracts as [get|]; [|by apply wp_throw, HQ].
  apply wp_bind. unfold createContractCallInput.
  destruct (ParseData input) as [err|[function arguments]]; [by apply HQ|].
  apply wp_ret. cbn beta iota.
  set (callInput := createDirectCallInput dest sender value function arguments).
  apply wp_bind, wp_transferBefore; [done|done|]. intros h1 _ [l Hl].
  assert (sameStorage host h1) as [Hh1 Hs1] by (rewrite Hl; by destruct host).
  pose proof (sameStorage_map host h1 (conj Hh1 Hs1)) as Hm1.
  apply wp_bind, wp_gets, wp_bind. apply wp_executeNested_storage; [by eauto|done|].
  intros o h2 Hs2 Hm2.
  assert (∀ a, a ≠ dest → storageMap h2 !! a = storageMap host !! a) as Hm3
    by (intros a Ha; rewrite Hm2 ?Hm1 //).
  destruct o as [[result code]|x|]; cbn beta iota; [|apply HQ; [congruence|done]..].
  apply wp_bind, wp_modify, wp_bind, wp_modify.
  set (h3 := properMergeContexts _ _ _).
  assert (sameStorage h2 h3) as [Hh3 Hs3].
  { subst h3. unfold properMergeContexts. rewrite Hm. cbn [negb].
    destruct h2, h1. unfold eeiAddReturnMessage; simpl. by repeat case_match. }
  pose proof (sameStorage_map h2 h3 (conj Hh3 Hs3)) as Hm4.
  destruct result as [err|out]; simpl; (apply wp_throw || apply wp_ret); apply HQ;
    try congruence; intros a Ha; rewrite Hm4; auto.
Qed.

(** *** A failed nested call *)
Lemma executeNested_failed get callInput curr host c code h2 :
  GetContract get (recipientOf callInput) = inr c →
  Function callInput ≠ SCDeployInitFunctionName →
  runContract (X:=error) c callInput (SetSCAddress (recipientOf callInput) (softCleanCache host))
    = (Ret code, h2) →
  code ≠ Ok →
  executeNested get callInput curr host =
    (Ret (inr (withReturnCode code (returnMessage h2) (userErrorOutput "")), code),
     setStorageUpdate (storageUpdate curr) (setOutputAccounts ∅ h2)).
Proof.
  intros Hc Hf Hrun Hcode. unfold executeNested, modify.
  unfold bind at 1. unfold bind at 1. rewrite Hc bool_decide_false //.
  unfold bind at 1. rewrite Hrun bool_decide_false //. by destruct h2.
Qed.

(** *** Messages *)
Lemma addDelta_message {X} m key v host :
  addDelta (X:=X) key v (setReturnMessage m host) =
    ((addDelta (X:=X) key v host).1, setReturnMessage m (addDelta (X:=X) key v host).2).
Proof. unfold addDelta. destruct host; simpl. by repeat case_match. Qed.
Lemma getSenderDestination_message m s d host :
  getSenderDestination s d (setReturnMessage m host) =
    setReturnMessage m (getSenderDestination s d host).
Proof.
  unfold getSenderDestination. destruct host as [hp st oa g ms o l a i]; simpl.
  destruct (oa !! s); simpl; [by destruct (oa !! d)|]. by destruct (<[_ := _]> oa !! d).
Qed.

Lemma transferBefore_message {X} m callInput sender t host :
  hostFlag MultiClaimOnDelegationFlag = true →
  transferBeforeInternalExec (X:=X) callInput sender t (setReturnMessage m host) =
    let r := transferBeforeInternalExec (X:=X) callInput sender t host in
    (r.1, setReturnMessage m r.2).
Proof.
  intros Hf. unfold transferBeforeInternalExec. rewrite Hf. cbn [negb].
  unfold transferValueOnly, bind, modify. rewrite getSenderDestination_message addDelta_message.
  destruct (addDelta sender _ _) as [[[]|x|] h1]; simpl; [|done..].
  rewrite addDelta_message. destruct (addDelta _ _ h1) as [[[]|x|] h2]; simpl; [|done..].
  by destruct h2.
Qed.

Lemma executeOnDest_message m dest sender value input host get p :
  hostFlag MultiClaimOnDelegationFlag = true → systemContracts = Some get →
  ParseData input = inr p → noNil (outputAccounts host) →
  eeiExecuteOnDestContext dest sender value input (setReturnMessage m host) =
  eeiExecuteOnDestContext dest sender value input host.
Proof.
  intros Hf Hsys Hp Hn. unfold eeiExecuteOnDestContext, createContractCallInput.
  rewrite Hsys Hp. destruct p as [function arguments]. simpl.
  set (callInput := createDirectCallInput dest sender value function arguments).
  assert (∃ h1, transferBeforeInternalExec (X:=error) callInput sender "ExecuteOnDestContext" host
                = (Ret tt, h1)) as [h1 Hh1].
  { assert (wp (transferBeforeInternalExec (X:=error) callInput sender "ExecuteOnDestContext")
      (λ o _, o = Ret tt) host) as Hwp by (by apply wp_transferBefore).
    unfold wp in Hwp. destruct (transferBeforeInternalExec _ _ _ _) as [o h1]; simpl in Hwp.
    subst. eauto. }
  assert (∀ {A B} (x : A) (k : A → M vmContext error B) s, bind (ret x) k s = k x s) as Hret
    by done.
  rewrite !Hret.
  rewrite (bind_Ret _ _ _ _ _ Hh1) (bind_Ret _ _ tt _ (setReturnMessage m h1));
    [|by rewrite transferBefore_message // Hh1].
  rewrite !bind_gets.
  assert (copyToNewContext (setReturnMessage m h1) = copyToNewContext h1) as -> by (by destruct h1).
  apply bind_same. unfold executeNested. rewrite !bind_modify.
  by assert (softCleanCache (setReturnMessage m h1) = softCleanCache h1) as -> by (by destruct h1).
Qed.
End nested.

(** ** The output of a transaction *)
Section vm_output.
Context {HO : Host}.

Lemma createOutputAccounts_lookup host addr :
  createOutputAccounts host !! addr =
  match outputAccounts host !! addr with
  | Some a => Some (outputOfAccount a
                (default emptyAccount (storageAccount addr <$> storageMap host !! addr)))
  | None => storageAccount addr <$> storageMap host !! addr
  end.
Proof.
  unfold createOutputAccounts. set (outAccs := map_imap _ _).
  assert (outAccs !! addr = storageAccount addr <$> storageMap host !! addr) as <-.
  { subst outAccs. rewrite map_lookup_imap. by destruct (storageMap host !! addr). }
  apply (map_fold_weak_ind (λ accs m, accs !! addr =
    match m !! addr with
    | Some a => Some (outputOfAccount a (default emptyAccount (outAccs !! addr)))
    | None => outAccs !! addr
    end)); [by rewrite lookup_empty|].
  intros k a m accs Hk Hacc. destruct (decide (k = addr)) as [->|Hne].
  - rewrite Hk in Hacc. by rewrite !lookup_insert_eq Hacc.
  - by rewrite !lookup_insert_ne.
Qed.

Lemma outputOfAccount_kept a base :
  BalanceDelta (outputOfAccount a base) = BalanceDelta a ∧
  StorageUpdates (outputOfAccount a base) = StorageUpdates base ∧
  Address (outputOfAccount a base) = Address a ∧
  OutputTransfers (outputOfAccount a base) = OutputTransfers a.
Proof.
  destruct a, base. unfold outputOfAccount. simpl.
  destruct (length _ =? 0); simpl; destruct (0 <? _)%Z; simpl; destruct (0 <? CurrentNonce hook)%Z;
    simpl; repeat (case_match; simpl); done.
Qed.
End vm_output.

(** ** Transfers and their numbers *)
Definition accountIndexes (a : OutputAccount) : list Z := Index <$> OutputTransfers a.
(** the numbers of all transfers of a context *)
Definition allIndexes (m : gmap bytes OutputAccount) : list Z :=
  map_fold (λ _ a l, accountIndexes a ++ l) [] m.
(** every transfer has its own number, below the next one *)
Definition numbered (host : vmContext) : Prop :=
  NoDup (allIndexes (outputAccounts host)) ∧
  Forall (λ i, (0 ≤ i < crtTransferIndex host)%Z) (allIndexes (outputAccounts host)).

Lemma allIndexes_new k a m :
  m !! k = None → allIndexes (<[k := a]> m) ≡ₚ accountIndexes a ++ allIndexes m.
Proof.
  intros Hk. unfold allIndexes.
  apply (map_fold_insert (≡ₚ) (λ _ a l, accountIndexes a ++ l)); [| |done].
  - intros j z l l' Hl. by rewrite Hl.
  - intros. apply Permutation_app_swap_app.
Qed.
Lemma allIndexes_insert k a m :
  allIndexes (<[k := a]> m) ≡ₚ accountIndexes a ++ allIndexes (delete k m).
Proof. rewrite -(insert_delete_eq m) allIndexes_new ?lookup_delete_eq //. Qed.
Lemma allIndexes_lookup k a m :
  m !! k = Some a → allIndexes m ≡ₚ accountIndexes a ++ allIndexes (delete k m).
Proof.
  intros Hk. rewrite -{1}(insert_delete_id m k a) // allIndexes_new ?lookup_delete_eq //.
Qed.

(** one more transfer, numbered with the next index *)
Lemma allIndexes_append k a a' i m :
  m !! k = Some a ∨ (m !! k = None ∧ accountIndexes a = []) →
  accountIndexes a' = accountIndexes a ++ [i] →
  allIndexes (<[k := a']> m) ≡ₚ i :: allIndexes m.
Proof.
  intros Hk Ha. rewrite allIndexes_insert Ha. destruct Hk as [Hk|[Hk Hnil]].
  - rewrite (allIndexes_lookup _ _ _ Hk) -app_assoc. simpl. by rewrite -Permutation_middle.
  - rewrite Hnil delete_id //.
Qed.

Lemma numbered_append host m i :
  numbered host → i = crtTransferIndex host → (0 ≤ i < 2 ^ 32 - 1)%Z →
  allIndexes m ≡ₚ i :: allIndexes (outputAccounts host) →
  numbered (setTransferIndex (u32 (i + 1)) (setOutputAccounts m host)).
Proof.
  intros [Hn Hf] Hi Hr Hp. unfold numbered. destruct host; simpl in *.
  replace (u32 (i + 1)) with (i + 1)%Z by (unfold u32; rewrite Z.mod_small; lia).
  rewrite !Hp. split.
  - apply NoDup_cons. split; [|done]. intros Hin. rewrite Forall_forall in Hf.
    apply Hf in Hin. lia.
  - constructor; [lia|]. eapply Forall_impl; [exact Hf|]. intros x Hx. simpl in Hx. lia.
Qed.

Section transfers.
Context {HO : Host}.

Lemma allIndexes_same k a m :
  accountIndexes a = default [] (accountIndexes <$> m !! k) →
  allIndexes (<[k := a]> m) ≡ₚ allIndexes m.
Proof.
  intros Ha. rewrite allIndexes_insert Ha. destruct (m !! k) as [a0|] eqn:Hk; simpl.
  - by rewrite (allIndexes_lookup _ _ _ Hk).
  - by rewrite delete_id.
Qed.

Definition sameTransfers (m m' : gmap bytes OutputAccount) : Prop :=
  allIndexes m' ≡ₚ allIndexes m.
Lemma sameTransfers_refl m : sameTransfers m m.
Proof. unfold sameTransfers. reflexivity. Qed.
Hint Resolve sameTransfers_refl : core.

Lemma getSenderDestination_transfers s d host :
  sameTransfers (outputAccounts host) (outputAccounts (getSenderDestination s d host)).
Proof.
  assert (∀ k c, sameTransfers (outputAccounts c) (outputAccounts
    match outputAccounts c !! k with Some _ => c | None => putAccount k (freshAccount k) c end))
    as Hone.
  { intros k c. destruct (outputAccounts c !! k) eqn:Hk; [done|].
    rewrite outputAccounts_put. apply allIndexes_same. by rewrite Hk. }
  unfold getSenderDestination. cbv zeta. unfold sameTransfers in *.
  etrans; [apply Hone|apply Hone].
Qed.

Lemma addDelta_transfers {X} key v host :
  sameTransfers (outputAccounts host) (outputAccounts (addDelta (X:=X) key v host).2).
Proof.
  unfold addDelta. destruct (outputAccounts host !! key) as [a|] eqn:Hk; [|done].
  destruct (BalanceDelta a); [|done]. cbn [snd]. rewrite outputAccounts_put.
  apply allIndexes_same. rewrite Hk. by destruct a.
Qed.

Lemma transferValueOnly_transfers {X} d s v host :
  sameTransfers (outputAccounts host) (outputAccounts (transferValueOnly (X:=X) d s v host).2).
Proof.
  unfold transferValueOnly. rewrite bind_modify.
  pose proof (getSenderDestination_transfers s d host) as H1.
  pose proof (addDelta_transfers (X:=X) s (- v) (getSenderDestination s d host)) as H2.
  unfold bind. destruct (addDelta s (- v) _) as [[[]|x|] h1]; simpl in H2;
    unfold sameTransfers in *; [|by rewrite H2..].
  by rewrite (addDelta_transfers d v h1) H2.
Qed.

(** [Transfer] moves the value and appends one transfer to the destination *)
Lemma wp_Transfer {X} destination sender value input gasLimit host
    (Q : outcome X unit → vmContext → Prop) :
  noNil (outputAccounts host) → numbered host → (0 ≤ crtTransferIndex host < 2 ^ 32 - 1)%Z →
  (∀ host' before,
     moved destination sender value (outputAccounts host) (outputAccounts host') →
     numbered host' → crtTransferIndex host' = (crtTransferIndex host + 1)%Z →
     storageMap host' = storageMap host →
     (∃ a t, outputAccounts host' !! destination = Some a ∧
             OutputTransfers a = before ++ [t] ∧ Index t = crtTransferIndex host ∧
             Value t = value ∧ GasLimit t = gasLimit ∧ Data t = input) →
     Q (Ret tt) host') →
  wp (eeiTransfer destination sender value input gasLimit) Q host.
Proof.
  intros Hn Hnum Hr HQ. unfold eeiTransfer. apply wp_bind.
  eapply wp_mono; [apply wp_and; [apply wp_transferValueOnly|]|].
  { exact Hn. }
  { intros h1 Hm Hs Hd Hb. exact (conj Hm (conj Hs (conj Hd Hb)) : (λ o h1,
      match o with Ret _ => _ | _ => False end) (Ret tt) h1). }
  { exact (transferValueOnly_transfers destination sender value host :
      wp _ (λ _ h1, sameTransfers (outputAccounts host) (outputAccounts h1)) host). }
  intros [[]|x|] h1 [H1 Htr]; [|done..]. destruct H1 as (Hm & [as1 Hs] & [ad1 Hd] & Hb).
  apply wp_bind, wp_modify.
  assert (getSenderDestination sender destination h1 = h1) as ->
    by (unfold getSenderDestination; by rewrite Hs Hd).
  apply wp_bind, wp_gets, wp_bind. unfold NextOutputTransferIndex at 1.
  apply wp_eq with (o := Ret (crtTransferIndex h1))
    (s' := setTransferIndex (u32 (crtTransferIndex h1 + 1)) h1); [done|]. apply wp_modify.
  set (t := mkTransfer _ _ _ _ _).
  set (a' := withOutputTransfers (OutputTransfers ad1 ++ [t]) ad1).
  assert (crtTransferIndex h1 = crtTransferIndex host
    ∧ heap h1 = heap host ∧ storageUpdate h1 = storageUpdate host) as (Hcrt & Hhp & Hst)
    by (unfold sameButAccounts in Hb; rewrite Hb; by destruct host).
  assert (appendTransfer destination t (setTransferIndex (u32 (crtTransferIndex h1 + 1)) h1) =
    setTransferIndex (u32 (crtTransferIndex host + 1))
      (setOutputAccounts (<[destination := a']> (outputAccounts h1)) h1)) as ->.
  { unfold appendTransfer. rewrite -Hcrt. destruct h1; simpl in *. by rewrite Hd. }
  assert (allIndexes (<[destination:=a']> (outputAccounts h1)) ≡ₚ
          crtTransferIndex h1 :: allIndexes (outputAccounts h1)) as Hperm.
  { apply (allIndexes_append _ ad1); [by left|]. unfold accountIndexes, a'.
    destruct ad1; simpl. by rewrite fmap_app. }
  assert (numbered h1) as Hnum1.
  { destruct Hnum. unfold numbered. rewrite Hcrt Htr. done. }
  apply (HQ _ (OutputTransfers ad1)).
  - destruct Hm as (Hm1 & Hm2 & Hm3).
    assert (deltaOf (Some a') = deltaOf (Some ad1)) as Hda by (by destruct ad1).
    assert (∀ i m, outputAccounts (setTransferIndex i (setOutputAccounts m h1)) = m) as ->
      by (by destruct h1). split_and!.
    + apply noNil_insert; [done|]. destruct (noNil_lookup _ _ _ Hm1 Hd) as [? Hdd].
      subst a'. destruct ad1; simpl in *. congruence.
    + rewrite totalDelta_insert Hd Hda Hm2. lia.
    + intros k. rewrite -Hm3 lookup_insert. case_decide; [|done]. subst. by rewrite Hda Hd.
  - rewrite -Hcrt. eapply numbered_append; [done|done|lia|done].
  - destruct h1; simpl in *. unfold u32. rewrite Z.mod_small; lia.
  - unfold storageMap. destruct h1; simpl in *. congruence.
  - exists a', t. destruct h1; simpl in *. rewrite lookup_insert_eq. split; [done|].
    subst a'. by destruct ad1.
Qed.
End transfers.
