(* ===== verification/StakingData.v ===== *)
(** * StakingData: the staking contract's stored data

    The messages of staking.proto and validator.proto, the fields of
    [stakingSC] and the load/save methods of stakingSaveLoad.go. *)
From S2P Require Import Prelude SystemEI.
#[local] Open Scope go_scope.

(** ** Messages (staking.proto); a [*big.Int] may be nil *)
Record StakedDataV2_0 : Type := mkStakedData {
  RegisterNonce : Z;
  StakedNonce : Z;
  Staked : bool;
  UnStakedNonce : Z;
  UnStakedEpoch : Z;
  RewardAddress : bytes;
  StakeValue : option Z;
  JailedRound : Z;
  JailedNonce : Z;
  UnJailedNonce : Z;
  Jailed : bool;
  Waiting : bool;
  NumJailed : Z;
  SlashValue : option Z;
  OwnerAddress : bytes;
}.

Record StakedDataV1_1 : Type := {
  v11_RegisterNonce : Z;
  v11_StakedNonce : Z;
  v11_Staked : bool;
  v11_UnStakedNonce : Z;
  v11_UnStakedEpoch : Z;
  v11_RewardAddress : bytes;
  v11_StakeValue : option Z;
  v11_JailedRound : Z;
  v11_JailedNonce : Z;
  v11_UnJailedNonce : Z;
  v11_Jailed : bool;
  v11_Waiting : bool;
  v11_NumJailed : Z;
  v11_SlashValue : option Z;
}.

Record StakedDataV1_0 : Type := {
  v10_RegisterNonce : Z;
  v10_StakedNonce : Z;
  v10_Staked : bool;
  v10_UnStakedNonce : Z;
  v10_UnStakedEpoch : Z;
  v10_RewardAddress : bytes;
  v10_StakeValue : option Z;
  v10_JailedRound : Z;
  v10_JailedNonce : Z;
  v10_UnJailedNonce : Z;
  v10_Jailed : bool;
  v10_Waiting : bool;
}.

Record StakingNodesConfig : Type := mkConfig {
  MinNumNodes : Z;
  MaxNumNodes : Z;
  StakedNodes : Z;
  JailedNodes : Z;
}.

Record ElementInList : Type := mkElement {
  BLSPublicKey : bytes;
  PreviousKey : bytes;
  NextKey : bytes;
}.

Record WaitingList : Type := mkWaitingList {
  FirstKey : bytes;
  LastKey : bytes;
  Length : Z;
  LastJailedKey : bytes;
}.

(** validator.proto *)
Record UnstakedValue : Type := mkUnstaked {
  UnstakedEpoch : Z;
  UnstakedAmount : option Z;
}.
Record ValidatorDataV2 : Type := mkValidatorData {
  valRegisterNonce : Z;
  valEpoch : Z;
  valRewardAddress : bytes;
  TotalStakeValue : option Z;
  LockedStake : option Z;
  MaxStakePerNode : option Z;
  BlsPubKeys : list bytes;
  NumRegistered : Z;
  UnstakedInfo : list UnstakedValue;
  TotalUnstaked : option Z;
  TotalSlashed : option Z;
}.
Definition zeroValidatorData : ValidatorDataV2 :=
  mkValidatorData 0 0 [] None None None [] 0 [] None None.

(** ** Field updates: the assignments [d.F = v] of the code *)
Definition withRegisterNonce (v : Z) (d : StakedDataV2_0) :=
  let 'mkStakedData rn sn st un ue ra sv jr jn uj ja wa nj sl ow := d in
  mkStakedData v sn st un ue ra sv jr jn uj ja wa nj sl ow.
Definition withStakedNonce (v : Z) (d : StakedDataV2_0) :=
  let 'mkStakedData rn sn st un ue ra sv jr jn uj ja wa nj sl ow := d in
  mkStakedData rn v st un ue ra sv jr jn uj ja wa nj sl ow.
Definition withStaked (v : bool) (d : StakedDataV2_0) :=
  let 'mkStakedData rn sn st un ue ra sv jr jn uj ja wa nj sl ow := d in
  mkStakedData rn sn v un ue ra sv jr jn uj ja wa nj sl ow.
Definition withUnStakedNonce (v : Z) (d : StakedDataV2_0) :=
  let 'mkStakedData rn sn st un ue ra sv jr jn uj ja wa nj sl ow := d in
  mkStakedData rn sn st v ue ra sv jr jn uj ja wa nj sl ow.
Definition withUnStakedEpoch (v : Z) (d : StakedDataV2_0) :=
  let 'mkStakedData rn sn st un ue ra sv jr jn uj ja wa nj sl ow := d in
  mkStakedData rn sn st un v ra sv jr jn uj ja wa nj sl ow.
Definition withRewardAddress (v : bytes) (d : StakedDataV2_0) :=
  let 'mkStakedData rn sn st un ue ra sv jr jn uj ja wa nj sl ow := d in
  mkStakedData rn sn st un ue v sv jr jn uj ja wa nj sl ow.
Definition withStakeValue (v : option Z) (d : StakedDataV2_0) :=
  let 'mkStakedData rn sn st un ue ra sv jr jn uj ja wa nj sl ow := d in
  mkStakedData rn sn st un ue ra v jr jn uj ja wa nj sl ow.
Definition withJailedRound (v : Z) (d : StakedDataV2_0) :=
  let 'mkStakedData rn sn st un ue ra sv jr jn uj ja wa nj sl ow := d in
  mkStakedData rn sn st un ue ra sv v jn uj ja wa nj sl ow.
Definition withJailedNonce (v : Z) (d : StakedDataV2_0) :=
  let 'mkStakedData rn sn st un ue ra sv jr jn uj ja wa nj sl ow := d in
  mkStakedData rn sn st un ue ra sv jr v uj ja wa nj sl ow.
Definition withUnJailedNonce (v : Z) (d : StakedDataV2_0) :=
  let 'mkStakedData rn sn st un ue ra sv jr jn uj ja wa nj sl ow := d in
  mkStakedData rn sn st un ue ra sv jr jn v ja wa nj sl ow.
Definition withJailed (v : bool) (d : StakedDataV2_0) :=
  let 'mkStakedData rn sn st un ue ra sv jr jn uj ja wa nj sl ow := d in
  mkStakedData rn sn st un ue ra sv jr jn uj v wa nj sl ow.
Definition withWaiting (v : bool) (d : StakedDataV2_0) :=
  let 'mkStakedData rn sn st un ue ra sv jr jn uj ja wa nj sl ow := d in
  mkStakedData rn sn st un ue ra sv jr jn uj ja v nj sl ow.
Definition withNumJailed (v : Z) (d : StakedDataV2_0) :=
  let 'mkStakedData rn sn st un ue ra sv jr jn uj ja wa nj sl ow := d in
  mkStakedData rn sn st un ue ra sv jr jn uj ja wa v sl ow.
Definition withSlashValue (v : option Z) (d : StakedDataV2_0) :=
  let 'mkStakedData rn sn st un ue ra sv jr jn uj ja wa nj sl ow := d in
  mkStakedData rn sn st un ue ra sv jr jn uj ja wa nj v ow.
Definition withOwnerAddress (v : bytes) (d : StakedDataV2_0) :=
  let 'mkStakedData rn sn st un ue ra sv jr jn uj ja wa nj sl ow := d in
  mkStakedData rn sn st un ue ra sv jr jn uj ja wa nj sl v.

Definition withMinNumNodes (v : Z) (c : StakingNodesConfig) :=
  let 'mkConfig mi ma st ja := c in mkConfig v ma st ja.
Definition withMaxNumNodes (v : Z) (c : StakingNodesConfig) :=
  let 'mkConfig mi ma st ja := c in mkConfig mi v st ja.
Definition withStakedNodes (v : Z) (c : StakingNodesConfig) :=
  let 'mkConfig mi ma st ja := c in mkConfig mi ma v ja.
Definition withJailedNodes (v : Z) (c : StakingNodesConfig) :=
  let 'mkConfig mi ma st ja := c in mkConfig mi ma st v.

(** validator.go: the codes of a BLS key in the return data *)
Definition ok : byte := x00.
Definition invalidKey : byte := x01.
Definition failed : byte := x02.
Definition waiting : byte := x03.

(** ** The contract's parameters *)

(** the epoch flags the contract tests *)
Inductive EnableEpochFlag : Type :=
  | CorrectFirstQueuedFlag
  | ValidatorToDelegationFlag
  | StakingV2Flag
  | CorrectLastUnJailedFlag
  | CorrectJailedNotUnStakedEmptyQueueFlag
  | StakeFlag
  | StakingV4Step1Flag
  | StakingV4StartedFlag.

(** The fields of [stakingSC] its methods read; the flags are those of the
    epoch the call runs in, the marshaller and the address test of
    mx-chain-core-go are third-party. *)
Class StakingContract : Type := {
  unBondPeriod : Z;
  stakeAccessAddr : bytes;
  jailAccessAddr : bytes;
  endOfEpochAccessAddr : bytes;
  gasCostGet : Z;
  gasCostFixWaitingListSize : Z;
  minNumNodes : Z;
  maxNumNodes : Z;
  stakeValue : Z;
  walletAddressLen : nat;
  minNodePrice : Z;
  IsFlagEnabled : EnableEpochFlag → bool;
  IsSmartContractAddress : bytes → bool;
  stakedDataV2_marshaller :: Marshaller StakedDataV2_0;
  stakedDataV11_marshaller :: Marshaller StakedDataV1_1;
  stakedDataV10_marshaller :: Marshaller StakedDataV1_0;
  config_marshaller :: Marshaller StakingNodesConfig;
  element_marshaller :: Marshaller ElementInList;
  waitingList_marshaller :: Marshaller WaitingList;
  validatorData_marshaller :: Marshaller ValidatorDataV2;
}.

Definition ownerKey : bytes := toBytes "owner".
Definition nodesConfigKey : bytes := toBytes "nodesConfig".
Definition DefaultUnstakedEpoch : Z := maxUint32.

Section save_load.
Context {E : Type} {EI : SystemEI E} {SCP : StakingContract}.

Definition baseConfig : StakingNodesConfig :=
  mkConfig (i64 minNumNodes) (i64 maxNumNodes) 0 0.

Definition getConfig (e : E) : StakingNodesConfig :=
  match orEmpty (GetStorage nodesConfigKey e) with
  | [] => baseConfig
  | configData =>
    match Unmarshal baseConfig configData with
    | inl _ => baseConfig
    | inr stakeConfig => stakeConfig
    end
  end.

Definition setConfig (config : StakingNodesConfig) (e : E) : E :=
  match Marshal config with
  | inl _ => e
  | inr configData => SetStorage nodesConfigKey configData e
  end.

Definition emptyRegistration : StakedDataV2_0 :=
  mkStakedData 0 maxUint64 false 0 DefaultUnstakedEpoch [] (Some 0%Z)
    maxUint64 0 0 false false 0 (Some 0%Z) [].

Definition fixSlashValue (d : StakedDataV2_0) : StakedDataV2_0 :=
  match SlashValue d with
  | None => withSlashValue (Some 0%Z) d
  | Some _ => d
  end.

Definition getOrCreateRegisteredData (key : bytes) : M E error StakedDataV2_0 :=
  let! data := gets (λ e, orEmpty (GetStorage key e)) in
  let! registrationData :=
    match data with
    | [] => ret emptyRegistration
    | _ => fromSum (Unmarshal emptyRegistration data)
    end in
  ret (fixSlashValue registrationData).

Definition saveAsStakingDataV1P0 (key : bytes) (d : StakedDataV2_0) : M E error unit :=
  let stakedDataV1 := {|
    v10_RegisterNonce := RegisterNonce d;
    v10_StakedNonce := StakedNonce d;
    v10_Staked := Staked d;
    v10_UnStakedNonce := UnStakedNonce d;
    v10_UnStakedEpoch := UnStakedEpoch d;
    v10_RewardAddress := RewardAddress d;
    v10_StakeValue := StakeValue d;
    v10_JailedRound := JailedRound d;
    v10_JailedNonce := JailedNonce d;
    v10_UnJailedNonce := UnJailedNonce d;
    v10_Jailed := Jailed d;
    v10_Waiting := Waiting d |} in
  let! data := fromSum (Marshal stakedDataV1) in
  setStorage key data.

Definition saveAsStakingDataV1P1 (key : bytes) (d : StakedDataV2_0) : M E error unit :=
  let stakedDataV1 := {|
    v11_RegisterNonce := RegisterNonce d;
    v11_StakedNonce := StakedNonce d;
    v11_Staked := Staked d;
    v11_UnStakedNonce := UnStakedNonce d;
    v11_UnStakedEpoch := UnStakedEpoch d;
    v11_RewardAddress := RewardAddress d;
    v11_StakeValue := StakeValue d;
    v11_JailedRound := JailedRound d;
    v11_JailedNonce := JailedNonce d;
    v11_UnJailedNonce := UnJailedNonce d;
    v11_Jailed := Jailed d;
    v11_Waiting := Waiting d;
    v11_NumJailed := NumJailed d;
    v11_SlashValue := SlashValue d |} in
  let! data := fromSum (Marshal stakedDataV1) in
  setStorage key data.

Definition saveStakingData (key : bytes) (stakedData : StakedDataV2_0) : M E error unit :=
  if negb (IsFlagEnabled StakeFlag) then saveAsStakingDataV1P0 key stakedData
  else if negb (IsFlagEnabled StakingV2Flag) then saveAsStakingDataV1P1 key stakedData
  else
    let! data := fromSum (Marshal stakedData) in
    setStorage key data.
End save_load.
