(* ===== verification/StakingNodes.v ===== *)
(** * StakingNodes: the registrations and the node counters

    The methods of staking.go that work on one registration or on the
    [StakingNodesConfig] counters, used by the queue and by the handlers. *)
From S2P Require Import Prelude SystemEI StakingData.
#[local] Open Scope go_scope.

Definition ErrWaitingListDisabled : error :=
  "waiting list is disabled since staking v4 activation".
Definition TransactionValueMustBeZero : string := "transaction value must be zero".

Section nodes.
Context {E : Type} {EI : SystemEI E} {SCP : StakingContract}.

Definition addToStakedNodes {X} (value : Z) : M E X unit :=
  modify (λ e, let stakeConfig := getConfig e in
               setConfig (withStakedNodes (i64 (StakedNodes stakeConfig + value)) stakeConfig) e).

Definition removeFromStakedNodes {X} : M E X unit :=
  modify (λ e, let stakeConfig := getConfig e in
               setConfig (if (0 <? StakedNodes stakeConfig)%Z
                          then withStakedNodes (i64 (StakedNodes stakeConfig - 1)) stakeConfig
                          else stakeConfig) e).

Definition removeFromJailedNodes {X} : M E X unit :=
  modify (λ e, let stakeConfig := getConfig e in
               setConfig (if (0 <? JailedNodes stakeConfig)%Z
                          then withJailedNodes (i64 (JailedNodes stakeConfig - 1)) stakeConfig
                          else stakeConfig) e).

Definition numSpareNodes (e : E) : Z :=
  let stakeConfig := getConfig e in
  i64 (i64 (StakedNodes stakeConfig - JailedNodes stakeConfig) - MinNumNodes stakeConfig).

Definition canStake (e : E) : bool :=
  if IsFlagEnabled StakingV4StartedFlag then true
  else let stakeConfig := getConfig e in
       (StakedNodes stakeConfig <? MaxNumNodes stakeConfig)%Z.

Definition canStakeIfOneRemoved (e : E) : bool :=
  let stakeConfig := getConfig e in
  (StakedNodes stakeConfig <=? MaxNumNodes stakeConfig)%Z.

Definition canUnStake (e : E) : bool := (0 <? numSpareNodes e)%Z.
Definition canUnBond (e : E) : bool := (0 <=? numSpareNodes e)%Z.

Definition activeStakingFor (d : StakedDataV2_0) (e : E) : StakedDataV2_0 :=
  let nonce := CurrentNonce (hookOf e) in
  withWaiting false (withUnStakedNonce 0 (withUnStakedEpoch DefaultUnstakedEpoch
    (withStakedNonce nonce (withStaked true (withRegisterNonce nonce d))))).

Definition processStakeV2 (registrationData : StakedDataV2_0) : M E error StakedDataV2_0 :=
  if Staked registrationData then ret registrationData
  else
    let! nonce := gets (λ e, CurrentNonce (hookOf e)) in
    addToStakedNodes 1 ;;;
    gets (activeStakingFor (withRegisterNonce nonce registrationData)).

Definition isNodeJailedOrWithBadRating (d : StakedDataV2_0) (blsKey : bytes) (e : E) : bool :=
  Jailed d || CanUnJail blsKey e || IsBadRating blsKey e.

(** [(data, Ok)] is the returned value; another code is an early exit *)
Definition checkUnStakeArgs (args : ContractCallInput) : M E ReturnCode StakedDataV2_0 :=
  returnIf (negb (bool_decide (callerOf args = stakeAccessAddr)))
    ("unStake function not allowed to be called by address " ++ ofBytes (callerOf args))
    UserError ;;;
  returnIf (length (Arguments args) <? 2)
    "not enough arguments, needed BLS key and reward address" UserError ;;;
  let! registrationData := orReturn (getOrCreateRegisteredData (arg args 0))
    "cannot get or create registered data: error " UserError in
  returnIf (length (RewardAddress registrationData) =? 0)
    "cannot unStake a key that is not registered" UserError ;;;
  returnIf (negb (bool_decide (arg args 1 = RewardAddress registrationData)))
    "unStake possible only from staker caller" UserError ;;;
  let! bad := gets (isNodeJailedOrWithBadRating registrationData (arg args 0)) in
  returnIf bad "cannot unStake node which is jailed or with bad rating" UserError ;;;
  returnIf (negb (Staked registrationData) && negb (Waiting registrationData))
    "cannot unStake node which was already unStaked" UserError ;;;
  ret registrationData.

(** the four assignments shared by the ways a node leaves the staked state *)
Definition setUnStaked (d : StakedDataV2_0) (e : E) : StakedDataV2_0 :=
  withWaiting false (withUnStakedNonce (CurrentNonce (hookOf e))
    (withUnStakedEpoch (CurrentEpoch (hookOf e)) (withStaked false d))).

Definition doUnStake (key : bytes) (registrationData : StakedDataV2_0) : handler E :=
  let! d := gets (setUnStaked registrationData) in
  orReturn (saveStakingData key d) "cannot save staking data: error " UserError ;;;
  ret Ok.

Definition tryUnStake (key : bytes) (registrationData : StakedDataV2_0) : handler E :=
  let! can := gets canUnStake in
  returnIf (negb can) "unStake is not possible as too many left" UserError ;;;
  removeFromStakedNodes ;;;
  doUnStake key registrationData.

Definition removeAndSetUnstaked {X} (d : StakedDataV2_0) : M E X StakedDataV2_0 :=
  removeFromStakedNodes ;;;
  gets (λ e, withStakedNonce maxUint64
    (withUnStakedNonce (CurrentNonce (hookOf e))
      (withUnStakedEpoch (CurrentEpoch (hookOf e)) (withStaked false d)))).

Definition tryRemoveJailedNodeFromStaked {X} (d : StakedDataV2_0) : M E X StakedDataV2_0 :=
  if negb (IsFlagEnabled CorrectJailedNotUnStakedEmptyQueueFlag)
  then removeAndSetUnstaked d
  else
    let! can := gets canUnStake in
    if can then removeAndSetUnstaked d
    else addReturnMessage "did not switch as not enough validators remaining" ;;;
         ret d.

(** ** Owners' funds

    [mapCheckedOwners] holds pointers, so a decrement of the returned
    counter is a write to the map: the map is threaded and the callers write
    the new value back. *)
Abbreviation checkedOwners := (gmap bytes Z).

Definition isRegisteredWithMinStake (d : StakedDataV2_0) : bool :=
  Staked d || Waiting d || Jailed d.

Definition countRegisteredNodes (keys : list bytes) : M E error Z :=
  foldEach keys 0%Z (λ n blsKey,
    let! stakedData := getOrCreateRegisteredData blsKey in
    ret (if isRegisteredWithMinStake stakedData then i64 (n + 1) else n)).

Definition checkValidatorFunds (mapCheckedOwners : checkedOwners) (owner : bytes)
    (nodePrice : Z) : M E error (Z * checkedOwners) :=
  let remember n := ret (n, <[owner := n]> mapCheckedOwners) in
  match mapCheckedOwners !! owner with
  | Some numNodesToUnstake => ret (numNodesToUnstake, mapCheckedOwners)
  | None =>
    let! marshaledData := gets (λ e, orEmpty (GetStorageFromAddress stakeAccessAddr owner e)) in
    match marshaledData with
    | [] => remember maxUint32
    | _ =>
      let! validatorData := fromSum (Unmarshal zeroValidatorData marshaledData) in
      match TotalStakeValue validatorData with
      | None => panic
      | Some total =>
        if (nodePrice =? 0)%Z then panic else
        let numRegisteredKeys := Z.of_nat (length (BlsPubKeys validatorData)) in
        let numQualified := bigInt64 (bigDiv total nodePrice) in
        if (numRegisteredKeys <=? numQualified)%Z then remember 0%Z
        else
          let! n := countRegisteredNodes (BlsPubKeys validatorData) in
          remember (if (numQualified <? n)%Z then u32 (n - numQualified) else 0%Z)
      end
    end
  end.
End nodes.
