(* ===== verification/WaitingList.v ===== *)
(** * WaitingList: the staking queue as a doubly linked list in storage

    The methods of stakingWaitingList.go that walk and update the list.  The
    head is one [WaitingList] record under the key "waitingList"; each queued
    BLS key [k] has an [ElementInList] under "w_" ++ [k].  Loops carry a fuel
    of [Length + 1] iterations: the loop test [index <= Length] ends them
    earlier, except for [Length] = MaxUint32 where the uint32 index wraps and
    nothing but the end of the list stops the code's loop; running out of fuel
    there is a [Panic]. *)
From S2P Require Import Prelude SystemEI StakingData StakingNodes.
#[local] Open Scope go_scope.

Definition waitingListHeadKey : bytes := toBytes "waitingList".
Definition waitingElementPrefix : bytes := toBytes "w_".
Definition createWaitingListKey (blsKey : bytes) : bytes := waitingElementPrefix ++ blsKey.

Definition ErrInvalidWaitingList : error := "invalid waiting list".
Definition ErrElementNotFound : error := "element was not found".

Definition withPreviousKey (v : bytes) (el : ElementInList) : ElementInList :=
  mkElement (BLSPublicKey el) v (NextKey el).
Definition withNextKey (v : bytes) (el : ElementInList) : ElementInList :=
  mkElement (BLSPublicKey el) (PreviousKey el) v.
Definition withFirstKey (v : bytes) (w : WaitingList) : WaitingList :=
  mkWaitingList v (LastKey w) (Length w) (LastJailedKey w).
Definition withLastKey (v : bytes) (w : WaitingList) : WaitingList :=
  mkWaitingList (FirstKey w) v (Length w) (LastJailedKey w).
Definition withLength (v : Z) (w : WaitingList) : WaitingList :=
  mkWaitingList (FirstKey w) (LastKey w) v (LastJailedKey w).
Definition withLastJailedKey (v : bytes) (w : WaitingList) : WaitingList :=
  mkWaitingList (FirstKey w) (LastKey w) (Length w) v.

Record waitingListReturnData : Type := {
  blsKeys : list bytes;
  stakedDataList : list StakedDataV2_0;
  lastKey : bytes;
  afterLastJailed : bool;
}.

Section queue.
Context {E : Type} {EI : SystemEI E} {SCP : StakingContract}.

Definition getWaitingListElement (key : bytes) : M E error ElementInList :=
  let! marshaledData := gets (λ e, orEmpty (GetStorage key e)) in
  match marshaledData with
  | [] => throw ErrElementNotFound
  | _ => fromSum (Unmarshal (mkElement [] [] []) marshaledData)
  end.

Definition saveWaitingListElement (key : bytes) (element : ElementInList) : M E error unit :=
  let! marshaledData := fromSum (Marshal element) in
  setStorage key marshaledData.

Definition emptyWaitingList : WaitingList := mkWaitingList [] [] 0 [].

Definition getWaitingListHead : M E error WaitingList :=
  let! marshaledData := gets (λ e, orEmpty (GetStorage waitingListHeadKey e)) in
  match marshaledData with
  | [] => ret emptyWaitingList
  | _ => fromSum (Unmarshal emptyWaitingList marshaledData)
  end.

Definition saveWaitingListHead (waitingList : WaitingList) : M E error unit :=
  let! marshaledData := fromSum (Marshal waitingList) in
  setStorage waitingListHeadKey marshaledData.

Definition saveElementAndList (key : bytes) (element : ElementInList)
    (waitingList : WaitingList) : M E error unit :=
  saveWaitingListElement key element ;;;
  saveWaitingListHead waitingList.

(** ** Insertion *)
Definition startWaitingList (waitingList : WaitingList) (addJailed : bool)
    (blsKey : bytes) : M E error unit :=
  let inWaitingListKey := createWaitingListKey blsKey in
  let waitingList := withLastKey inWaitingListKey (withFirstKey inWaitingListKey waitingList) in
  let waitingList := if addJailed then withLastJailedKey inWaitingListKey waitingList
                     else waitingList in
  saveElementAndList inWaitingListKey
    (mkElement blsKey (LastKey waitingList) []) waitingList.

Definition addToEndOfTheList (waitingList : WaitingList) (blsKey : bytes) : M E error unit :=
  let inWaitingListKey := createWaitingListKey blsKey in
  let oldLastKey := LastKey waitingList in
  let! lastElement := getWaitingListElement (LastKey waitingList) in
  saveWaitingListElement oldLastKey (withNextKey inWaitingListKey lastElement) ;;;
  saveElementAndList inWaitingListKey (mkElement blsKey oldLastKey [])
    (withLastKey inWaitingListKey waitingList).

Definition insertAfterLastJailed (waitingList : WaitingList) (blsKey : bytes) :
    M E error unit :=
  let inWaitingListKey := createWaitingListKey blsKey in
  if length (LastJailedKey waitingList) =? 0 then
    let previousFirstKey := FirstKey waitingList in
    let waitingList := withLastJailedKey inWaitingListKey
                         (withFirstKey inWaitingListKey waitingList) in
    (if IsFlagEnabled CorrectFirstQueuedFlag && (0 <? length previousFirstKey) then
       let! previousFirstElement := getWaitingListElement previousFirstKey in
       saveWaitingListElement previousFirstKey
         (withPreviousKey inWaitingListKey previousFirstElement)
     else ret tt) ;;;
    saveElementAndList inWaitingListKey
      (mkElement blsKey inWaitingListKey previousFirstKey) waitingList
  else
    let! lastJailedElement := getWaitingListElement (LastJailedKey waitingList) in
    if bool_decide (LastKey waitingList = LastJailedKey waitingList) then
      addToEndOfTheList (withLastJailedKey inWaitingListKey waitingList) blsKey
    else
      let! firstNonJailedElement := getWaitingListElement (NextKey lastJailedElement) in
      let blank := replicate (length inWaitingListKey) x00 in
      let elementInWaiting := mkElement blsKey
        (goCopy blank (LastJailedKey waitingList))
        (goCopy blank (NextKey lastJailedElement)) in
      saveWaitingListElement (PreviousKey elementInWaiting)
        (withNextKey inWaitingListKey lastJailedElement) ;;;
      saveWaitingListElement (NextKey elementInWaiting)
        (withPreviousKey inWaitingListKey firstNonJailedElement) ;;;
      saveWaitingListElement inWaitingListKey elementInWaiting ;;;
      saveWaitingListHead (withLastJailedKey inWaitingListKey waitingList).

Definition addToWaitingList (blsKey : bytes) (addJailed : bool) : M E error unit :=
  let inWaitingListKey := createWaitingListKey blsKey in
  let! marshaledData := gets (λ e, orEmpty (GetStorage inWaitingListKey e)) in
  if negb (length marshaledData =? 0) then ret tt
  else
    let! waitingList := getWaitingListHead in
    let waitingList := withLength (u32 (Length waitingList + 1)) waitingList in
    if (Length waitingList =? 1)%Z then startWaitingList waitingList addJailed blsKey
    else if addJailed then insertAfterLastJailed waitingList blsKey
    else addToEndOfTheList waitingList blsKey.

(** ** Removal *)
Fixpoint searchPreviousLoop (fuel : nat) (waitingList : WaitingList)
    (inWaitingListKey nextKey : bytes) (index : Z) (elementToRemove : ElementInList) :
    M E error (ElementInList * ElementInList) :=
  match fuel with
  | O => panic
  | S fuel' =>
    if negb (length nextKey =? 0) && (index <=? Length waitingList)%Z then
      let! element := getWaitingListElement nextKey in
      if bool_decide (inWaitingListKey = NextKey element) then
        ret (element,
             withPreviousKey (createWaitingListKey (BLSPublicKey element)) elementToRemove)
      else if length (NextKey element) =? 0 then throw ErrElementNotFound
      else searchPreviousLoop fuel' waitingList inWaitingListKey (NextKey element)
             (u32 (index + 1)) elementToRemove
    else throw ErrElementNotFound
  end.

(** returns the found element and the element to remove, whose previous key
    was corrected *)
Definition searchPreviousFromHead (waitingList : WaitingList) (inWaitingListKey : bytes)
    (elementToRemove : ElementInList) : M E error (ElementInList * ElementInList) :=
  searchPreviousLoop (S (Z.to_nat (Length waitingList))) waitingList inWaitingListKey
    (FirstKey waitingList) 1 elementToRemove.

Definition removeFirst (waitingList : WaitingList) (elementToRemove : ElementInList)
    (inWaitingListKey : bytes) : M E error unit :=
  let waitingList := if bool_decide (inWaitingListKey = LastJailedKey waitingList)
                     then withLastJailedKey [] waitingList else waitingList in
  let! nextElement := getWaitingListElement (NextKey elementToRemove) in
  saveElementAndList (NextKey elementToRemove)
    (withPreviousKey (NextKey elementToRemove) nextElement)
    (withFirstKey (NextKey elementToRemove) waitingList).

Definition removeInner (waitingList : WaitingList) (elementToRemove : ElementInList)
    (inWaitingListKey : bytes) : M E error unit :=
  let waitingList :=
    if negb (IsFlagEnabled CorrectLastUnJailedFlag)
       || bool_decide (inWaitingListKey = LastJailedKey waitingList)
    then withLastJailedKey (PreviousKey elementToRemove) waitingList else waitingList in
  let! previous := attempt (X:=error) (getWaitingListElement (PreviousKey elementToRemove)) in
  let! found :=
    match previous with
    | inr previousElement => ret (previousElement, elementToRemove)
    | inl _ =>
      if IsFlagEnabled CorrectFirstQueuedFlag
      then searchPreviousFromHead waitingList inWaitingListKey elementToRemove
      else let! previousElement := getWaitingListElement (PreviousKey elementToRemove) in
           ret (previousElement, elementToRemove)
    end in
  let '(previousElement, elementToRemove) := found in
  if length (NextKey elementToRemove) =? 0 then
    saveElementAndList (PreviousKey elementToRemove) (withNextKey [] previousElement)
      (withLastKey (PreviousKey elementToRemove) waitingList)
  else
    let! nextElement := getWaitingListElement (NextKey elementToRemove) in
    saveWaitingListElement (NextKey elementToRemove)
      (withPreviousKey (PreviousKey elementToRemove) nextElement) ;;;
    saveElementAndList (PreviousKey elementToRemove)
      (withNextKey (NextKey elementToRemove) previousElement) waitingList.

Definition removeFromWaitingList (blsKey : bytes) : M E error unit :=
  let inWaitingListKey := createWaitingListKey blsKey in
  let! marshaledData := gets (λ e, orEmpty (GetStorage inWaitingListKey e)) in
  if length marshaledData =? 0 then ret tt
  else
    setStorage inWaitingListKey [] ;;;
    let! elementToRemove := fromSum (Unmarshal (mkElement [] [] []) marshaledData) in
    let! waitingList := getWaitingListHead in
    if (Length waitingList =? 0)%Z then throw ErrInvalidWaitingList
    else
      let waitingList := withLength (u32 (Length waitingList - 1)) waitingList in
      if (Length waitingList =? 0)%Z then setStorage waitingListHeadKey []
      else
        let isFirstElementBeforeFix := negb (IsFlagEnabled CorrectFirstQueuedFlag)
          && bool_decide (PreviousKey elementToRemove = inWaitingListKey) in
        let isFirstElementAfterFix := IsFlagEnabled CorrectFirstQueuedFlag
          && bool_decide (FirstKey waitingList = inWaitingListKey) in
        if isFirstElementBeforeFix || isFirstElementAfterFix
        then removeFirst waitingList elementToRemove inWaitingListKey
        else removeInner waitingList elementToRemove inWaitingListKey.

(** ** Traversal *)
Fixpoint firstElementsLoop (fuel : nat) (head : WaitingList) (numNodes : Z)
    (nextKey : bytes) (index : Z) (acc : waitingListReturnData) :
    M E error waitingListReturnData :=
  match fuel with
  | O => panic
  | S fuel' =>
    let done_ acc := {| blsKeys := blsKeys acc; stakedDataList := stakedDataList acc;
                        lastKey := nextKey; afterLastJailed := afterLastJailed acc |} in
    if negb (length nextKey =? 0) && (index <=? Length head)%Z && (index <=? numNodes)%Z then
      let! element := getWaitingListElement nextKey in
      let! stakedData := getOrCreateRegisteredData (BLSPublicKey element) in
      let acc := {| blsKeys := blsKeys acc ++ [BLSPublicKey element];
                    stakedDataList := stakedDataList acc ++ [stakedData];
                    lastKey := lastKey acc;
                    afterLastJailed := afterLastJailed acc
                      || bool_decide (nextKey = LastJailedKey head) |} in
      if length (NextKey element) =? 0 then ret (done_ acc)
      else firstElementsLoop fuel' head numNodes (goCopy nextKey (NextKey element))
             (u32 (index + 1)) acc
    else ret (done_ acc)
  end.

Definition noElements : waitingListReturnData :=
  {| blsKeys := []; stakedDataList := []; lastKey := []; afterLastJailed := false |}.

Definition getFirstElementsFromWaitingList (numNodes : Z) : M E error waitingListReturnData :=
  let! waitingListHead := getWaitingListHead in
  if (Length waitingListHead =? 0)%Z then ret noElements
  else firstElementsLoop (S (Z.to_nat (Length waitingListHead))) waitingListHead numNodes
         (FirstKey waitingListHead) 1 noElements.

(** ** From the queue to the staked nodes *)
Definition moveFirstFromWaitingToStaked : M E error bool :=
  let! waitingList := getWaitingListHead in
  if (Length waitingList =? 0)%Z then ret false
  else
    let! elementInList := getWaitingListElement (FirstKey waitingList) in
    removeFromWaitingList (BLSPublicKey elementInList) ;;;
    let! nodeData := getOrCreateRegisteredData (BLSPublicKey elementInList) in
    if (length (RewardAddress nodeData) =? 0) || Staked nodeData
    then throw ErrInvalidWaitingList
    else
      let! nonce := gets (λ e, CurrentNonce (hookOf e)) in
      addToStakedNodes 1 ;;;
      saveStakingData (BLSPublicKey elementInList)
        (withUnStakedEpoch DefaultUnstakedEpoch (withUnStakedNonce 0
          (withStakedNonce nonce (withRegisterNonce nonce
            (withStaked true (withWaiting false nodeData)))))) ;;;
      ret true.

Definition moveFirstFromWaitingToStakedIfNeeded (blsKey : bytes) : M E error bool :=
  let! element := attempt (X:=error) (getWaitingListElement (createWaitingListKey blsKey)) in
  match element with
  | inr _ => removeFromWaitingList blsKey ;;; ret false
  | inl _ => moveFirstFromWaitingToStaked
  end.
End queue.
