(* ===== verification/StakingQueue.v ===== *)
(** * StakingQueue: the entry points of stakingWaitingList.go *)
From S2P Require Import Prelude SystemEI StakingData StakingNodes WaitingList.
#[local] Open Scope go_scope.

Definition ErrBLSPublicKeyAlreadyJailed : error := "bls public key already jailed".

Section handlers.
Context {E : Type} {EI : SystemEI E} {SCP : StakingContract}.

Definition processStakeV1 (blsKey : bytes) (registrationData : StakedDataV2_0)
    (addFirst : bool) : M E error StakedDataV2_0 :=
  if Staked registrationData then ret registrationData
  else
    let! nonce := gets (λ e, CurrentNonce (hookOf e)) in
    let registrationData := withRegisterNonce nonce registrationData in
    let! can := gets canStake in
    if negb can then
      addReturnMessage ("staking is full key put into waiting list " ++ hexString blsKey) ;;;
      catch (addToWaitingList blsKey addFirst)
        (λ err, addReturnMessage "error while adding to waiting" ;;; throw err) ;;;
      finish [waiting] ;;;
      ret (withWaiting true registrationData)
    else
      catch (removeFromWaitingList blsKey)
        (λ err, addReturnMessage "error while removing from waiting" ;;; throw err) ;;;
      addToStakedNodes 1 ;;;
      gets (activeStakingFor registrationData).

Definition unStakeV1 (args : ContractCallInput) : handler E :=
  let! registrationData := checkUnStakeArgs args in
  if negb (Staked registrationData) then
    let registrationData := withWaiting false registrationData in
    orReturn (removeFromWaitingList (arg args 0)) "" UserError ;;;
    orReturn (saveStakingData (arg args 0) registrationData)
      "cannot save staking data: error " UserError ;;;
    ret Ok
  else
    let! addOneFromQueue := gets (λ e, negb (IsFlagEnabled CorrectLastUnJailedFlag)
                                       || canStakeIfOneRemoved e) in
    (if addOneFromQueue : bool then
       orReturn moveFirstFromWaitingToStaked "" UserError ;;; ret tt
     else ret tt) ;;;
    tryUnStake (arg args 0) registrationData.

Definition inStakingV4NotStep1 : bool :=
  IsFlagEnabled StakingV4StartedFlag && negb (IsFlagEnabled StakingV4Step1Flag).

Definition switchJailedWithWaiting (args : ContractCallInput) : handler E :=
  returnIf inStakingV4NotStep1 ErrWaitingListDisabled UserError ;;;
  returnIf (negb (bool_decide (callerOf args = endOfEpochAccessAddr)))
    ("switchJailedWithWaiting function not allowed to be called by address "
       ++ ofBytes (callerOf args)) UserError ;;;
  returnQuietIf (negb (length (Arguments args) =? 1)) UserError ;;;
  let blsKey := arg args 0 in
  let! registrationData := orReturn (getOrCreateRegisteredData blsKey) "" UserError in
  returnIf (length (RewardAddress registrationData) =? 0)
    "no need to jail as not a validator" UserError ;;;
  returnIf (negb (Staked registrationData)) "no need to jail as not a validator" UserError ;;;
  returnIf (Jailed registrationData) ErrBLSPublicKeyAlreadyJailed UserError ;;;
  let! switched := orReturn (moveFirstFromWaitingToStakedIfNeeded blsKey) "" UserError in
  let! nonce := gets (λ e, CurrentNonce (hookOf e)) in
  let registrationData := withJailedNonce nonce (withJailed true
    (withNumJailed (u32 (NumJailed registrationData + 1)) registrationData)) in
  let! registrationData :=
    if negb switched && negb (IsFlagEnabled CorrectJailedNotUnStakedEmptyQueueFlag)
    then addReturnMessage "did not switch as nobody in waiting, but jailed" ;;;
         ret registrationData
    else tryRemoveJailedNodeFromStaked registrationData in
  orReturn (saveStakingData blsKey registrationData)
    "cannot save staking data: error " UserError ;;;
  ret Ok.

(** the walk of [getWaitingListIndex]: [Some i] is the found position *)
Fixpoint waitingListIndexLoop (fuel : nat) (head : WaitingList)
    (waitingElementKey nextKey : bytes) (index : Z) : M E error (option Z) :=
  match fuel with
  | O => panic
  | S fuel' =>
    if negb (length nextKey =? 0) && (index <=? Length head)%Z then
      if bool_decide (nextKey = waitingElementKey) then ret (Some index)
      else
        let! prevElement := getWaitingListElement nextKey in
        if length (NextKey prevElement) =? 0 then ret None
        else waitingListIndexLoop fuel' head waitingElementKey
               (goCopy nextKey (NextKey prevElement)) (u32 (index + 1))
    else ret None
  end.

Definition itoa (z : Z) : bytes := toBytes (pretty z).

Definition getWaitingListIndex (args : ContractCallInput) : handler E :=
  returnIf (IsFlagEnabled StakingV4StartedFlag) ErrWaitingListDisabled UserError ;;;
  returnIf (negb (bool_decide (callerOf args = stakeAccessAddr)))
    "this is only a view function" UserError ;;;
  returnIf (negb (length (Arguments args) =? 1))
    "number of arguments must be equal to 1" UserError ;;;
  let waitingElementKey := createWaitingListKey (arg args 0) in
  orReturn (getWaitingListElement waitingElementKey) "" UserError ;;;
  let! waitingListHead := orReturn getWaitingListHead "" UserError in
  if bool_decide (waitingElementKey = FirstKey waitingListHead) then
    finish (itoa 1) ;;; ret Ok
  else if bool_decide (waitingElementKey = LastKey waitingListHead) then
    finish (itoa (Length waitingListHead)) ;;; ret Ok
  else
    let! prevElement := orReturn (getWaitingListElement (FirstKey waitingListHead)) "" UserError in
    let nextKey := goCopy (replicate (length waitingElementKey) x00) (NextKey prevElement) in
    let! found := orReturn
      (waitingListIndexLoop (S (Z.to_nat (Length waitingListHead))) waitingListHead
         waitingElementKey nextKey 2) "" UserError in
    match found with
    | Some index => finish (itoa index) ;;; ret Ok
    | None => addReturnMessage "element in waiting list not found" ;;; ret UserError
    end.

(** [UseGas] and its failure *)
Definition useGas (gas : Z) (msg : string) : M E ReturnCode unit := λ e,
  match UseGas gas e with
  | Some e' => (Ret tt, e')
  | None => (Throw OutOfGas, AddReturnMessage msg e)
  end.

Definition getWaitingListSize (args : ContractCallInput) : handler E :=
  returnIf (IsFlagEnabled StakingV4StartedFlag) ErrWaitingListDisabled UserError ;;;
  returnIf (negb (valueOf args =? 0)%Z) TransactionValueMustBeZero UserError ;;;
  useGas gasCostGet "insufficient gas" ;;;
  let! waitingListHead := orReturn getWaitingListHead "" UserError in
  finish (itoa (Length waitingListHead)) ;;;
  ret Ok.

Definition getWaitingListRegisterNonceAndRewardAddress (args : ContractCallInput) : handler E :=
  returnIf (negb (bool_decide (callerOf args = stakeAccessAddr)))
    "this is only a view function" UserError ;;;
  returnIf (negb (length (Arguments args) =? 0))
    "number of arguments must be equal to 0" UserError ;;;
  let! waitingListData := orReturn (getFirstElementsFromWaitingList maxUint32) "" UserError in
  returnIf (length (stakedDataList waitingListData) =? 0) "no one in waitingList" UserError ;;;
  forEach (zip (blsKeys waitingListData) (stakedDataList waitingListData)) (λ '(key, stakedData),
    finish key ;;;
    finish (RewardAddress stakedData) ;;;
    finish (bigBytes (i64 (RegisterNonce stakedData)))) ;;;
  ret Ok.

Definition resetLastUnJailedFromQueue (args : ContractCallInput) : handler E :=
  returnQuietIf (negb (IsFlagEnabled CorrectLastUnJailedFlag)) UserError ;;;
  returnIf inStakingV4NotStep1 ErrWaitingListDisabled UserError ;;;
  returnIf (negb (bool_decide (callerOf args = endOfEpochAccessAddr)))
    "stake nodes from waiting list can be called by endOfEpochAccess address only" UserError ;;;
  returnIf (negb (length (Arguments args) =? 0))
    "number of arguments must be equal to 0" UserError ;;;
  let! waitingList := orReturn getWaitingListHead "" UserError in
  if length (LastJailedKey waitingList) =? 0 then ret Ok
  else
    orReturn (saveWaitingListHead (withLastJailedKey [] waitingList)) "" UserError ;;;
    ret Ok.

(** ** The queue and the owners' funds *)
Record cleanAcc : Type := {
  listOfOwners : list bytes;
  mapOwnersUnStakedNodes : gmap bytes (list bytes);
  mapCheckedOwners : gmap bytes Z;
}.

(** [m[k] = append(m[k], v)] *)
Definition appendAt (k v : bytes) (m : gmap bytes (list bytes)) : gmap bytes (list bytes) :=
  <[k := default [] (m !! k) ++ [v]]> m.

Definition cleanOne (acc : cleanAcc) (node : bytes * StakedDataV2_0) : M E error cleanAcc :=
  let '(blsKey, stakedData) := node in
  let owner := OwnerAddress stakedData in
  let! ' (numNodesToUnstake, checked) :=
    checkValidatorFunds (mapCheckedOwners acc) owner stakeValue in
  if (numNodesToUnstake =? 0)%Z then
    ret {| listOfOwners := listOfOwners acc;
           mapOwnersUnStakedNodes := mapOwnersUnStakedNodes acc;
           mapCheckedOwners := checked |}
  else
    let checked := <[owner := u32 (numNodesToUnstake - 1)]> checked in
    removeFromWaitingList blsKey ;;;
    let! registrationData := getOrCreateRegisteredData blsKey in
    let! d := gets (setUnStaked registrationData) in
    saveStakingData blsKey d ;;;
    ret {| listOfOwners := match mapOwnersUnStakedNodes acc !! owner with
                           | Some _ => listOfOwners acc
                           | None => listOfOwners acc ++ [owner]
                           end;
           mapOwnersUnStakedNodes := appendAt owner blsKey (mapOwnersUnStakedNodes acc);
           mapCheckedOwners := checked |}.

Definition queueNodes (waitingListData : waitingListReturnData) :
    list (bytes * StakedDataV2_0) :=
  zip (blsKeys waitingListData) (stakedDataList waitingListData).

Definition cleanAdditionalQueueNotEnoughFunds (waitingListData : waitingListReturnData) :
    M E error cleanAcc :=
  foldEach (rev (queueNodes waitingListData))
    {| listOfOwners := []; mapOwnersUnStakedNodes := ∅; mapCheckedOwners := ∅ |} cleanOne.

Definition cleanAdditionalQueue (args : ContractCallInput) : handler E :=
  returnIf (negb (IsFlagEnabled CorrectLastUnJailedFlag)) "invalid method to call" UserError ;;;
  returnIf inStakingV4NotStep1 ErrWaitingListDisabled UserError ;;;
  returnIf (negb (bool_decide (callerOf args = endOfEpochAccessAddr)))
    "stake nodes from waiting list can be called by endOfEpochAccess address only" UserError ;;;
  returnIf (negb (length (Arguments args) =? 0)) "number of arguments must be 0" UserError ;;;
  let! waitingListData := orReturn (getFirstElementsFromWaitingList maxUint32) "" UserError in
  if length (blsKeys waitingListData) =? 0 then
    addReturnMessage "no nodes in queue" ;;; ret Ok
  else
    let! acc := orReturn (cleanAdditionalQueueNotEnoughFunds waitingListData) "" UserError in
    forEach (listOfOwners acc) (λ owner,
      finish owner ;;;
      forEach (default [] (mapOwnersUnStakedNodes acc !! owner)) finish) ;;;
    ret Ok.

(** the loop of [stakeNodesFromQueue]: the number of nodes staked so far and
    the checked owners are its local variables *)
Fixpoint stakeNodesLoop (nodes : list (bytes * StakedDataV2_0)) (numNodesToStake nodePriceToUse : Z)
    (stakedNodes : Z) (checked : gmap bytes Z) : M E ReturnCode Z :=
  match nodes with
  | [] => ret stakedNodes
  | (blsKey, stakedData) :: rest =>
    if (numNodesToStake <=? stakedNodes)%Z then ret stakedNodes
    else
      let! ' (numNodesToUnstake, checked) := orReturn
        (checkValidatorFunds checked (OwnerAddress stakedData) nodePriceToUse) "" UserError in
      if (0 <? numNodesToUnstake)%Z
      then stakeNodesLoop rest numNodesToStake nodePriceToUse stakedNodes checked
      else
        let! stakedData := gets (activeStakingFor stakedData) in
        orReturn (saveStakingData blsKey stakedData) "" UserError ;;;
        orReturn (removeFromWaitingList blsKey) "" UserError ;;;
        finish blsKey ;;;
        finish (RewardAddress stakedData) ;;;
        stakeNodesLoop rest numNodesToStake nodePriceToUse (u64 (stakedNodes + 1)) checked
  end.

Definition stakeNodesFromQueue (args : ContractCallInput) : handler E :=
  returnIf (negb (IsFlagEnabled StakingV2Flag)) "invalid method to call" UserError ;;;
  returnIf inStakingV4NotStep1 ErrWaitingListDisabled UserError ;;;
  returnIf (negb (bool_decide (callerOf args = endOfEpochAccessAddr)))
    "stake nodes from waiting list can be called by endOfEpochAccess address only" UserError ;;;
  returnIf (negb (length (Arguments args) =? 1))
    "number of arguments must be equal to 1" UserError ;;;
  let numNodesToStake := bigUint64 (setBytes (arg args 0)) in
  let! waitingListData := orReturn (getFirstElementsFromWaitingList maxUint32) "" UserError in
  if length (blsKeys waitingListData) =? 0 then
    addReturnMessage "no nodes in queue" ;;; ret Ok
  else
    let nodePriceToUse := if IsFlagEnabled CorrectLastUnJailedFlag
                          then stakeValue else minNodePrice in
    let! stakedNodes := stakeNodesLoop (queueNodes waitingListData)
      numNodesToStake nodePriceToUse 0 ∅ in
    addToStakedNodes (i64 stakedNodes) ;;;
    ret Ok.

Definition executeOnStakeAtEndOfEpoch (destinationAddress : bytes) (listOfKeys : list bytes)
    (senderAddress : bytes) : handler E :=
  let unStakeCall := foldl (λ call key, call ++ toBytes "@" ++ hexEncode key)
                       (toBytes "unStakeAtEndOfEpoch") listOfKeys in
  let! vmOutput := orReturn
    (ExecuteOnDestContext destinationAddress senderAddress 0 unStakeCall)
    "" UserError in
  ret (outReturnCode vmOutput).

(** the registrations are unstaked and grouped by owner, in queue order *)
Definition unStakeQueued (acc : list bytes * gmap bytes (list bytes))
    (node : bytes * StakedDataV2_0) : M E ReturnCode (list bytes * gmap bytes (list bytes)) :=
  let '(orderedListOwners, mapOwnerKeys) := acc in
  let '(blsKey, registrationData) := node in
  let! result := doUnStake blsKey registrationData in
  returnQuietIf (negb (bool_decide (result = Ok))) result ;;;
  setStorage (createWaitingListKey blsKey) [] ;;;
  let ownerAddr := OwnerAddress registrationData in
  ret (match mapOwnerKeys !! ownerAddr with
       | Some _ => orderedListOwners
       | None => orderedListOwners ++ [ownerAddr]
       end,
       appendAt ownerAddr blsKey mapOwnerKeys).

Definition unStakeAllNodesFromQueue (args : ContractCallInput) : handler E :=
  returnIf (negb (IsFlagEnabled StakingV4Step1Flag)) "invalid method to call" UserError ;;;
  returnIf (negb (bool_decide (callerOf args = endOfEpochAccessAddr)))
    "stake nodes from waiting list can be called by endOfEpochAccess address only" UserError ;;;
  returnIf (negb (length (Arguments args) =? 0))
    "number of arguments must be equal to 0" UserError ;;;
  let! waitingListData := orReturn (getFirstElementsFromWaitingList maxUint32) "" UserError in
  if length (blsKeys waitingListData) =? 0 then ret Ok
  else
    let! ' (orderedListOwners, mapOwnerKeys) :=
      foldEach (queueNodes waitingListData) ([], ∅) unStakeQueued in
    setStorage waitingListHeadKey [] ;;;
    forEach orderedListOwners (λ owner,
      let listOfKeys := default [] (mapOwnerKeys !! owner) in
      let! shard := gets (λ e, GetShardOfAddress (hookOf e) owner) in
      if negb (shard =? MetachainShardId)%Z then ret tt
      else
        let! returnCode := executeOnStakeAtEndOfEpoch owner listOfKeys (recipientOf args) in
        returnQuietIf (negb (bool_decide (returnCode = Ok))) returnCode) ;;;
    ret Ok.

(** ** Repair of the queue *)

(** the walk of [fixWaitingListQueueSize]: the reached index and key, and
    whether the last jailed key was met *)
Fixpoint fixQueueLoop (fuel : nat) (head : WaitingList) (nextKey : bytes) (index : Z)
    (foundLastJailedKey : bool) : M E error (Z * bytes * bool) :=
  match fuel with
  | O => panic
  | S fuel' =>
    if negb (length nextKey =? 0) && (index <=? Length head)%Z then
      let! element := getWaitingListElement nextKey in
      let foundLastJailedKey := foundLastJailedKey || bool_decide (LastJailedKey head = nextKey) in
      getOrCreateRegisteredData (BLSPublicKey element) ;;;
      if length (NextKey element) =? 0 then ret (index, nextKey, foundLastJailedKey)
      else fixQueueLoop fuel' head (goCopy nextKey (NextKey element)) (u32 (index + 1))
             foundLastJailedKey
    else ret (index, nextKey, foundLastJailedKey)
  end.

Definition fixWaitingListQueueSize (args : ContractCallInput) : handler E :=
  returnIf (negb (IsFlagEnabled CorrectFirstQueuedFlag)) "invalid method to call" UserError ;;;
  returnIf (IsFlagEnabled StakingV4StartedFlag) ErrWaitingListDisabled UserError ;;;
  returnIf (negb (valueOf args =? 0)%Z) TransactionValueMustBeZero UserError ;;;
  useGas gasCostFixWaitingListSize "insufficient gas" ;;;
  let! waitingListHead := orReturn getWaitingListHead "" UserError in
  if (Length waitingListHead <=? 1)%Z then ret Ok
  else
    let! ' (index, nextKey, foundLastJailedKey) := orReturn
      (fixQueueLoop (S (Z.to_nat (Length waitingListHead))) waitingListHead
         (FirstKey waitingListHead) 1 (length (LastJailedKey waitingListHead) =? 0))
      "" UserError in
    let waitingListHead := withLastKey nextKey (withLength index waitingListHead) in
    let waitingListHead := if foundLastJailedKey : bool then waitingListHead
                           else withLastJailedKey [] waitingListHead in
    orReturn (saveWaitingListHead waitingListHead) "" UserError ;;;
    ret Ok.

Definition addMissingNodeToQueue (args : ContractCallInput) : handler E :=
  returnIf (negb (IsFlagEnabled CorrectFirstQueuedFlag)) "invalid method to call" UserError ;;;
  returnIf (IsFlagEnabled StakingV4StartedFlag) ErrWaitingListDisabled UserError ;;;
  returnIf (negb (valueOf args =? 0)%Z) TransactionValueMustBeZero UserError ;;;
  useGas gasCostFixWaitingListSize "insufficient gas" ;;;
  returnIf (negb (length (Arguments args) =? 1)) "invalid number of arguments" UserError ;;;
  let blsKey := arg args 0 in
  orReturn (getWaitingListElement (createWaitingListKey blsKey)) "" UserError ;;;
  let! waitingListData := orReturn (getFirstElementsFromWaitingList maxUint32) "" UserError in
  returnIf (existsb (λ keyInList, bool_decide (keyInList = blsKey)) (blsKeys waitingListData))
    "key is in queue, not missing" UserError ;;;
  let! waitingList := orReturn getWaitingListHead "" UserError in
  let waitingList := withLength (u32 (Length waitingList + 1)) waitingList in
  (if (Length waitingList =? 1)%Z
   then orReturn (startWaitingList waitingList false blsKey) "" UserError
   else orReturn (addToEndOfTheList waitingList blsKey) "" UserError) ;;;
  ret Ok.
End handlers.
