(* ===== verification/StakingSC.v ===== *)
(** * StakingSC: the staking system smart contract (staking.go)

    One definition per exported function of the contract and [Execute], the
    dispatcher. *)
From S2P Require Import Prelude SystemEI StakingData StakingNodes WaitingList.
From S2P Require Import StakingQueue.
#[local] Open Scope go_scope.

Section contract.
Context {E : Type} {EI : SystemEI E} {SCP : StakingContract}.

Definition cannotGet : string := "cannot get or created registered data: error ".
Definition cannotGetOrCreate : string := "cannot get or create registered data: error ".
Definition cannotSave : string := "cannot save staking data: error ".

Definition changeValidatorKey (args : ContractCallInput) : handler E :=
  returnIf (negb (bool_decide (callerOf args = stakeAccessAddr)))
    ("changeValidatorKey function not allowed to be called by address "
       ++ ofBytes (callerOf args)) UserError ;;;
  addReturnMessage "function is deprecated" ;;;
  ret UserError.

Definition changeRewardAddress (args : ContractCallInput) : handler E :=
  returnIf (negb (bool_decide (callerOf args = stakeAccessAddr)))
    ("stake function not allowed to be called by address " ++ ofBytes (callerOf args))
    UserError ;;;
  returnIf (length (Arguments args) <? 2)
    ("invalid number of arguments: expected min 2, got " ++ pretty (length (Arguments args)))
    UserError ;;;
  let newRewardAddress := arg args 0 in
  returnIf (negb (length newRewardAddress =? walletAddressLen)) "invalid reward address"
    UserError ;;;
  forEach (tail (Arguments args)) (λ blsKey,
    let! stakedData := orReturn (getOrCreateRegisteredData blsKey) cannotGetOrCreate UserError in
    if length (RewardAddress stakedData) =? 0 then ret tt
    else orReturn (saveStakingData blsKey (withRewardAddress newRewardAddress stakedData))
           cannotSave UserError) ;;;
  ret Ok.

Definition unJailV1 (args : ContractCallInput) : handler E :=
  returnIf (negb (bool_decide (callerOf args = stakeAccessAddr)))
    ("unJail function not allowed to be called by address " ++ ofBytes (callerOf args))
    UserError ;;;
  forEach (Arguments args) (λ argument,
    let! stakedData := orReturn (getOrCreateRegisteredData argument) cannotGet UserError in
    returnIf (length (RewardAddress stakedData) =? 0)
      "cannot unJail a key that is not registered" UserError ;;;
    (if (UnJailedNonce stakedData <=? JailedNonce stakedData)%Z
     then removeFromJailedNodes else ret tt) ;;;
    let! nonce := gets (λ e, CurrentNonce (hookOf e)) in
    orReturn (saveStakingData argument
      (withUnJailedNonce nonce (withJailedRound maxUint64 stakedData))) cannotSave UserError) ;;;
  ret Ok.

Definition processStake (blsKey : bytes) (registrationData : StakedDataV2_0)
    (addFirst : bool) : M E error StakedDataV2_0 :=
  if IsFlagEnabled StakingV4StartedFlag then processStakeV2 registrationData
  else processStakeV1 blsKey registrationData addFirst.

Definition unJail (args : ContractCallInput) : handler E :=
  if negb (IsFlagEnabled StakeFlag) then unJailV1 args
  else
    returnIf (negb (bool_decide (callerOf args = stakeAccessAddr)))
      ("unJail function not allowed to be called by address " ++ ofBytes (callerOf args))
      UserError ;;;
    returnIf (negb (length (Arguments args) =? 1)) "wrong number of arguments, wanted 1"
      UserError ;;;
    let! stakedData := orReturn (getOrCreateRegisteredData (arg args 0)) cannotGet UserError in
    returnIf (length (RewardAddress stakedData) =? 0)
      "cannot unJail a key that is not registered" UserError ;;;
    let! can := gets (CanUnJail (arg args 0)) in
    returnIf (negb (Jailed stakedData) && negb can)
      "cannot unJail a node which is not jailed" UserError ;;;
    let! nonce := gets (λ e, CurrentNonce (hookOf e)) in
    let stakedData := withJailed false (withUnJailedNonce nonce
                        (withJailedRound maxUint64 stakedData)) in
    let! stakedData := catch (processStake (arg args 0) stakedData (NumJailed stakedData =? 1)%Z)
      (λ _, throw UserError) in
    orReturn (saveStakingData (arg args 0) stakedData) cannotSave UserError ;;;
    ret Ok.

Definition jail (args : ContractCallInput) : handler E :=
  returnQuietIf (negb (bool_decide (callerOf args = jailAccessAddr))) UserError ;;;
  forEach (Arguments args) (λ argument,
    let! stakedData := orReturn (getOrCreateRegisteredData argument) cannotGetOrCreate UserError in
    returnIf (length (RewardAddress stakedData) =? 0)
      "cannot jail a key that is not registered" UserError ;;;
    let! hook := gets hookOf in
    orReturn (saveStakingData argument
      (withNumJailed (u32 (NumJailed stakedData + 1)) (withJailed true
        (withJailedNonce (CurrentNonce hook) (withJailedRound (CurrentRound hook) stakedData)))))
      cannotSave UserError) ;;;
  ret Ok.

Definition get (args : ContractCallInput) : handler E :=
  returnIf (IsFlagEnabled StakingV2Flag) "function deprecated" UserError ;;;
  returnIf (length (Arguments args) <? 1)
    "invalid number of arguments: expected min 1, got 0" UserError ;;;
  let! value := gets (λ e, orEmpty (GetStorage (arg args 0) e)) in
  finish value ;;;
  ret Ok.

Definition init (args : ContractCallInput) : handler E :=
  let! ownerAddress := gets (GetStorage ownerKey) in
  match ownerAddress with
  | Some _ => addReturnMessage "smart contract was already initialized" ;;; ret UserError
  | None =>
    setStorage ownerKey (callerOf args) ;;;
    setStorage (callerOf args) (bigBytes 0) ;;;
    modify (setConfig baseConfig) ;;;
    let! epoch := gets (λ e, CurrentEpoch (hookOf e)) in
    setStorage (toBytes ("epoch_" ++ pretty epoch)) (bigBytes stakeValue) ;;;
    ret Ok
  end.

Definition stake (args : ContractCallInput) (onlyRegister : bool) : handler E :=
  returnIf (negb (bool_decide (callerOf args = stakeAccessAddr)))
    ("stake function not allowed to be called by address " ++ ofBytes (callerOf args))
    UserError ;;;
  returnIf (length (Arguments args) <? 3)
    "not enough arguments, needed BLS key, reward address and owner address" UserError ;;;
  let! registrationData := orReturn (getOrCreateRegisteredData (arg args 0))
    cannotGetOrCreate UserError in
  let! bad := gets (isNodeJailedOrWithBadRating registrationData (arg args 0)) in
  returnIf bad "cannot stake node which is jailed or with bad rating" UserError ;;;
  (* StakeValue.Set on a nil pointer panics *)
  (match StakeValue registrationData with None => panic | Some _ => ret tt end) ;;;
  let registrationData := withStakeValue (Some stakeValue)
    (withOwnerAddress (arg args 2) (withRewardAddress (arg args 1) registrationData)) in
  let! registrationData :=
    if onlyRegister then ret registrationData
    else catch (processStake (arg args 0) registrationData false) (λ _, throw UserError) in
  orReturn (saveStakingData (arg args 0) registrationData)
    "cannot save staking registered data: error " UserError ;;;
  ret Ok.

Definition unStakeAtEndOfEpoch (args : ContractCallInput) : handler E :=
  returnQuietIf (negb (bool_decide (callerOf args = endOfEpochAccessAddr))) UserError ;;;
  returnIf (negb (length (Arguments args) =? 1)) "not enough arguments, needed the BLS key"
    UserError ;;;
  let! registrationData := orReturn (getOrCreateRegisteredData (arg args 0))
    cannotGetOrCreate UserError in
  returnIf (length (RewardAddress registrationData) =? 0)
    "cannot unStake a key that is not registered" UserError ;;;
  returnIf (Jailed registrationData && negb (Staked registrationData))
    "already unStaked at switchJailedToWaiting" Ok ;;;
  if negb (Staked registrationData) && negb (Waiting registrationData) then ret Ok
  else
    (if Staked registrationData then removeFromStakedNodes else ret tt) ;;;
    (if Waiting registrationData
     then orReturn (removeFromWaitingList (arg args 0)) "" UserError else ret tt) ;;;
    let! d := gets (setUnStaked registrationData) in
    orReturn (saveStakingData (arg args 0) d) cannotSave UserError ;;;
    ret Ok.

Definition unStakeV2 (args : ContractCallInput) : handler E :=
  let! registrationData := checkUnStakeArgs args in
  returnIf (negb (Staked registrationData)) ErrWaitingListDisabled ExecutionFailed ;;;
  tryUnStake (arg args 0) registrationData.

Definition unStake (args : ContractCallInput) : handler E :=
  if IsFlagEnabled StakingV4StartedFlag then unStakeV2 args else unStakeV1 args.

Definition unBond (args : ContractCallInput) : handler E :=
  returnIf (negb (bool_decide (callerOf args = stakeAccessAddr)))
    ("unBond function not allowed to be called by address " ++ ofBytes (callerOf args))
    UserError ;;;
  returnIf (length (Arguments args) <? 1) "not enough arguments, needed BLS key" UserError ;;;
  let! registrationData := orReturn (getOrCreateRegisteredData (arg args 0))
    cannotGetOrCreate UserError in
  let encodedBlsKey := hexString (arg args 0) in
  returnIf (length (RewardAddress registrationData) =? 0)
    ("cannot unBond key " ++ encodedBlsKey ++ " that is not registered") UserError ;;;
  returnIf (Staked registrationData)
    ("unBond is not possible for key " ++ encodedBlsKey ++ " which is staked") UserError ;;;
  let! bad := gets (isNodeJailedOrWithBadRating registrationData (arg args 0)) in
  returnIf bad ("cannot unBond node which is jailed or with bad rating " ++ encodedBlsKey)
    UserError ;;;
  returnIf (Waiting registrationData)
    ("unBond in not possible for key " ++ encodedBlsKey ++ " which is in waiting list")
    UserError ;;;
  let! currentNonce := gets (λ e, CurrentNonce (hookOf e)) in
  returnIf ((0 <? UnStakedNonce registrationData)%Z
            && (u64 (currentNonce - UnStakedNonce registrationData) <? unBondPeriod)%Z)
    ("unBond is not possible for key " ++ encodedBlsKey ++ " because unBond period did not pass")
    UserError ;;;
  let! can := gets canUnBond in
  returnIf (negb can)
    "unBond is currently unavailable: number of total validators in the network is at minimum"
    UserError ;;;
  let! isValidator := gets (IsValidator (arg args 0)) in
  returnIf isValidator
    ("unBond is not possible: the node with key " ++ encodedBlsKey ++ " is still a validator")
    UserError ;;;
  setStorage (arg args 0) [] ;;;
  ret Ok.

Definition slash (args : ContractCallInput) : handler E :=
  addReturnMessage "slash function called by not the owners address" ;;;
  ret UserError.

Definition isStaked (args : ContractCallInput) : handler E :=
  returnIf (length (Arguments args) <? 1)
    "invalid number of arguments: expected min 1, got 0" UserError ;;;
  returnIf (negb (valueOf args =? 0)%Z) TransactionValueMustBeZero UserError ;;;
  let! registrationData := orReturn (getOrCreateRegisteredData (arg args 0))
    cannotGetOrCreate UserError in
  returnIf (length (RewardAddress registrationData) =? 0) "key is not registered" UserError ;;;
  if Staked registrationData then ret Ok
  else addReturnMessage "account not staked" ;;; ret UserError.

Definition updateConfigMinNodes (args : ContractCallInput) : handler E :=
  returnIf (negb (bool_decide (callerOf args = endOfEpochAccessAddr)))
    ("updateConfigMinNodes function not allowed to be called by address "
       ++ ofBytes (callerOf args)) UserError ;;;
  let! stakeConfig := gets getConfig in
  returnIf (negb (length (Arguments args) =? 1)) "number of arguments must be 1" UserError ;;;
  let newMinNodes := bigInt64 (setBytes (arg args 0)) in
  returnIf (newMinNodes <=? 0)%Z "new minimum number of nodes zero or negative" UserError ;;;
  returnIf (i64 maxNumNodes <? newMinNodes)%Z
    "new minimum number of nodes greater than maximum number of nodes" UserError ;;;
  modify (setConfig (withMinNumNodes newMinNodes stakeConfig)) ;;;
  ret Ok.

Definition updateConfigMaxNodes (args : ContractCallInput) : handler E :=
  returnIf (negb (IsFlagEnabled StakingV2Flag)) "invalid method to call" UserError ;;;
  returnIf (negb (bool_decide (callerOf args = endOfEpochAccessAddr)))
    ("updateConfigMaxNodes function not allowed to be called by address "
       ++ ofBytes (callerOf args)) UserError ;;;
  let! stakeConfig := gets getConfig in
  returnIf (negb (length (Arguments args) =? 1)) "number of arguments must be 1" UserError ;;;
  let newMaxNodes := bigInt64 (setBytes (arg args 0)) in
  returnIf (newMaxNodes <=? 0)%Z "new max number of nodes zero or negative" UserError ;;;
  returnIf (newMaxNodes <? i64 minNumNodes)%Z
    "new max number of nodes less than min number of nodes" UserError ;;;
  finish (bigBytes (MaxNumNodes stakeConfig)) ;;;
  modify (setConfig (withMaxNumNodes newMaxNodes stakeConfig)) ;;;
  ret Ok.

Definition getStakedDataIfExists (args : ContractCallInput) : M E ReturnCode StakedDataV2_0 :=
  useGas gasCostGet "insufficient gas" ;;;
  returnIf (negb (length (Arguments args) =? 1)) "number of arguments must be equal to 1"
    UserError ;;;
  let! stakedData := orReturn (getOrCreateRegisteredData (arg args 0)) "" UserError in
  returnIf (length (RewardAddress stakedData) =? 0) "blsKey not registered in staking sc"
    UserError ;;;
  ret stakedData.

Definition getRewardAddress (args : ContractCallInput) : handler E :=
  returnIf (negb (valueOf args =? 0)%Z) TransactionValueMustBeZero UserError ;;;
  let! stakedData := getStakedDataIfExists args in
  finish (hexEncode (RewardAddress stakedData)) ;;;
  ret Ok.

Definition getBLSKeyStatus (args : ContractCallInput) : handler E :=
  returnIf (negb (valueOf args =? 0)%Z) TransactionValueMustBeZero UserError ;;;
  let! stakedData := getStakedDataIfExists args in
  let! can := gets (CanUnJail (arg args 0)) in
  finish (toBytes (if Jailed stakedData || can then "jailed"
                   else if Waiting stakedData then "queued"
                   else if Staked stakedData then "staked"
                   else "unStaked")) ;;;
  ret Ok.

Definition getTotalNumberOfRegisteredNodes (args : ContractCallInput) : handler E :=
  returnIf (negb (IsFlagEnabled StakingV2Flag)) "invalid method to call" UserError ;;;
  returnIf (negb (valueOf args =? 0)%Z) TransactionValueMustBeZero UserError ;;;
  let! waitingListHead := orReturn getWaitingListHead "" UserError in
  let! stakeConfig := gets getConfig in
  let totalRegistered := i64 (i64 (StakedNodes stakeConfig + JailedNodes stakeConfig)
                              + Length waitingListHead) in
  finish (bigBytes totalRegistered) ;;;
  ret Ok.

Definition getRemainingUnbondPeriod (args : ContractCallInput) : handler E :=
  returnIf (negb (valueOf args =? 0)%Z) TransactionValueMustBeZero UserError ;;;
  let! stakedData := getStakedDataIfExists args in
  returnIf (UnStakedNonce stakedData =? 0)%Z "not in unbond period" UserError ;;;
  let! currentNonce := gets (λ e, CurrentNonce (hookOf e)) in
  let passedNonce := u64 (currentNonce - UnStakedNonce stakedData) in
  (if (unBondPeriod <=? passedNonce)%Z then
     finish (if IsFlagEnabled StakingV2Flag then bigBytes 0 else toBytes "0")
   else
     let remaining := u64 (unBondPeriod - passedNonce) in
     finish (if IsFlagEnabled StakingV2Flag then bigBytes remaining
             else itoa (i64 remaining))) ;;;
  ret Ok.

Definition processStopped {A} (i : nat) (blsKey : bytes) (err : error) : M E ReturnCode A :=
  addReturnMessage err ;;;
  addReturnMessage ("process stopped at index " ++ pretty i ++ ", bls key "
                      ++ hexString blsKey) ;;;
  throw UserError.

Fixpoint setOwnersLoop (i : nat) (arguments : list bytes) : M E ReturnCode unit :=
  match arguments with
  | blsKey :: owner :: rest =>
    let! stakedData := catch (getOrCreateRegisteredData blsKey) (processStopped i blsKey) in
    (if length (RewardAddress stakedData) =? 0 then ret tt
     else catch (saveStakingData blsKey (withOwnerAddress owner stakedData))
                 (processStopped i blsKey)) ;;;
    setOwnersLoop (i + 2) rest
  | _ => ret tt
  end.

Definition setOwnersOnAddresses (args : ContractCallInput) : handler E :=
  returnIf (negb (IsFlagEnabled StakingV2Flag)) "invalid method to call" UserError ;;;
  returnIf (negb (bool_decide (callerOf args = endOfEpochAccessAddr)))
    ("setOwnersOnAddresses function not allowed to be called by address "
       ++ ofBytes (callerOf args)) UserError ;;;
  returnIf (negb (Nat.even (length (Arguments args))))
    "invalid number of arguments: expected an even number of arguments" UserError ;;;
  setOwnersLoop 0 (Arguments args) ;;;
  ret Ok.

Definition getOwner (args : ContractCallInput) : handler E :=
  returnIf (negb (IsFlagEnabled StakingV2Flag)) "invalid method to call" UserError ;;;
  returnIf (negb (bool_decide (callerOf args = stakeAccessAddr)))
    "this is only a view function" UserError ;;;
  returnIf (length (Arguments args) <? 1)
    ("invalid number of arguments: expected min 1, got " ++ pretty (length (Arguments args)))
    UserError ;;;
  let! stakedData := orReturn (getOrCreateRegisteredData (arg args 0)) "" UserError in
  returnIf (length (OwnerAddress stakedData) =? 0) "owner address is nil" UserError ;;;
  finish (OwnerAddress stakedData) ;;;
  ret Ok.

Definition changeOwnerAndRewardAddress (args : ContractCallInput) : handler E :=
  returnQuietIf (negb (IsFlagEnabled ValidatorToDelegationFlag)) UserError ;;;
  returnIf (negb (bool_decide (callerOf args = stakeAccessAddr)))
    "change owner and reward address can be called by validator SC only" UserError ;;;
  returnIf (negb (valueOf args =? 0)%Z) "callValue must be 0" UserError ;;;
  returnIf (length (Arguments args) <? 2) "number of arguments is 2 at minimum" UserError ;;;
  let newOwnerAddress := arg args 0 in
  returnIf (negb (IsSmartContractAddress newOwnerAddress))
    "new address must be a smart contract address" UserError ;;;
  forEach (tail (Arguments args)) (λ blsKey,
    let! registrationData := orReturn (getOrCreateRegisteredData blsKey) "" UserError in
    returnIf (length (RewardAddress registrationData) =? 0)
      "cannot change owner and reward address for a key which is not registered" UserError ;;;
    let! can := gets (CanUnJail blsKey) in
    returnIf (Jailed registrationData || can)
      "can not migrate nodes while jailed nodes exists" UserError ;;;
    orReturn (saveStakingData blsKey
      (withRewardAddress newOwnerAddress (withOwnerAddress newOwnerAddress registrationData)))
      "" UserError) ;;;
  ret Ok.

(** ** The dispatcher *)
Definition dispatch (function : string) : option (ContractCallInput → handler E) :=
  let table : list (string * (ContractCallInput → handler E)) :=
    [ (SCDeployInitFunctionName, init);
      ("stake", λ args, stake args false);
      ("register", λ args, stake args true);
      ("unStake", unStake);
      ("unBond", unBond);
      ("get", get);
      ("isStaked", isStaked);
      ("slash", slash);
      ("jail", jail);
      ("unJail", unJail);
      ("changeRewardAddress", changeRewardAddress);
      ("changeValidatorKeys", changeValidatorKey);
      ("switchJailedWithWaiting", switchJailedWithWaiting);
      ("getQueueIndex", getWaitingListIndex);
      ("getQueueSize", getWaitingListSize);
      ("getRewardAddress", getRewardAddress);
      ("getBLSKeyStatus", getBLSKeyStatus);
      ("getRemainingUnBondPeriod", getRemainingUnbondPeriod);
      ("getQueueRegisterNonceAndRewardAddress", getWaitingListRegisterNonceAndRewardAddress);
      ("updateConfigMinNodes", updateConfigMinNodes);
      ("setOwnersOnAddresses", setOwnersOnAddresses);
      ("getOwner", getOwner);
      ("updateConfigMaxNodes", updateConfigMaxNodes);
      ("stakeNodesFromQueue", stakeNodesFromQueue);
      ("unStakeAtEndOfEpoch", unStakeAtEndOfEpoch);
      ("getTotalNumberOfRegisteredNodes", getTotalNumberOfRegisteredNodes);
      ("resetLastUnJailedFromQueue", resetLastUnJailedFromQueue);
      ("cleanAdditionalQueue", cleanAdditionalQueue);
      ("changeOwnerAndRewardAddress", changeOwnerAndRewardAddress);
      ("fixWaitingListQueueSize", fixWaitingListQueueSize);
      ("addMissingNodeToQueue", addMissingNodeToQueue);
      ("unStakeAllNodesFromQueue", unStakeAllNodesFromQueue) ] in
  snd <$> List.find (λ entry, bool_decide (fst entry = function)) table.

Definition Execute (input : option ContractCallInput) : handler E :=
  match CheckIfNil input with
  | inl _ => ret UserError
  | inr args =>
    returnIf (0 <? ESDTTransfers args) "cannot transfer ESDT to system SCs" UserError ;;;
    match dispatch (Function args) with
    | Some run => run args
    | None => ret UserError
    end
  end.
End contract.
