(* ===== verification/QueueSpec.v ===== *)
(** * QueueSpec: the queue in storage implements a list with a marked prefix

    The abstract queue is a list of BLS keys without duplicates and the length
    [j] of its prefix of unjailed nodes, which are served first.  [QueueRep]
    relates it to the storage; the theorems show that every operation of
    [WaitingList.v] maps a representation of a queue to one of the queue the
    abstract operation gives, and touches no other key. *)
From S2P Require Import Prelude SystemEI StakingData StakingNodes WaitingList.
#[local] Open Scope go_scope.

(** BLS public keys have 96 bytes (ValidatorPubkeyConverter in the node's
    configuration). *)
Definition validKey (k : bytes) : Prop := length k = 96.

Abbreviation wk := createWaitingListKey.
#[export] Set Warnings "-clear-no-such-hyp,-level-tolerance".
#[global] Arguments createWaitingListKey : simpl never.

Definition isQueueKey (key : bytes) : Prop :=
  key = waitingListHeadKey ∨ ∃ k, validKey k ∧ key = wk k.

(** ** The abstract operations *)
Definition addQ (k : bytes) (jailed : bool) (q : list bytes) (j : nat) : list bytes * nat :=
  if decide (k ∈ q) then (q, j)
  else if jailed then (take j q ++ k :: drop j q, S j)
  else (q ++ [k], j).

Definition removeQ (k : bytes) (q : list bytes) (j : nat) : list bytes * nat :=
  (filter (λ x, x ≠ k) q, if decide (k ∈ take j q) then pred j else j).

(** ** Representation *)
Definition hdKey (q : list bytes) (n : bytes) : bytes :=
  match q with [] => n | k :: _ => wk k end.
Definition lastKeyOf (p : bytes) (q : list bytes) : bytes :=
  match last q with Some k => wk k | None => p end.

Definition headInRange (w : WaitingList) : Prop := (0 ≤ Length w < 2 ^ 32)%Z.
Definition zeroElement : ElementInList := mkElement [] [] [].

Lemma wk_inj k k' : wk k = wk k' → k = k'.
Proof. unfold wk. apply app_inv_head. Qed.
#[export] Instance wk_Inj : Inj (=) (=) createWaitingListKey.
Proof. exact wk_inj. Qed.
Lemma wk_not_head k : wk k ≠ waitingListHeadKey.
Proof. by unfold wk. Qed.
Lemma wk_not_nil k : wk k ≠ [].
Proof. by unfold wk. Qed.
Lemma length_wk k : length (wk k) = 2 + length k.
Proof. done. Qed.
#[export] Hint Resolve wk_not_head wk_not_nil : go.

Lemma lastKeyOf_app p q1 q2 : lastKeyOf p (q1 ++ q2) = lastKeyOf (lastKeyOf p q1) q2.
Proof.
  unfold lastKeyOf. rewrite last_app. by destruct (last q2).
Qed.
Lemma lastKeyOf_snoc p q k : lastKeyOf p (q ++ [k]) = wk k.
Proof. by rewrite lastKeyOf_app. Qed.
Lemma lastKeyOf_cons p k q : lastKeyOf p (k :: q) = lastKeyOf (wk k) q.
Proof. by rewrite (lastKeyOf_app p [k] q). Qed.
Lemma lastKeyOf_in p q : q ≠ [] → ∃ k, k ∈ q ∧ lastKeyOf p q = wk k.
Proof.
  destruct q as [|k q _] using rev_ind; [done|]. intros _.
  exists k. rewrite lastKeyOf_snoc. set_solver.
Qed.
Lemma lastKeyOf_indep p p' q : q ≠ [] → lastKeyOf p q = lastKeyOf p' q.
Proof.
  destruct q as [|k q _] using rev_ind; [done|]. by rewrite !lastKeyOf_snoc.
Qed.
Lemma hdKey_app q1 q2 n : hdKey (q1 ++ q2) n = hdKey q1 (hdKey q2 n).
Proof. by destruct q1. Qed.

Section rep.
Context {E : Type} {EI : SystemEI E} {EIL : SystemEILaws E} {SCP : StakingContract}.

(** the value stored under a key is the encoding of [x] *)
Definition stored {T} `{Marshaller T} (e : E) (key : bytes) (x : T) : Prop :=
  Marshal x = inr (orEmpty (GetStorage key e)).

(** [q] laid out as a doubly linked segment between the keys [p] and [n] *)
Fixpoint dllseg (e : E) (p : bytes) (q : list bytes) (n : bytes) : Prop :=
  match q with
  | [] => True
  | k :: t => stored e (wk k) (mkElement k p (hdKey t n)) ∧ dllseg e (wk k) t n
  end.

Definition headOf (q : list bytes) (j : nat) : WaitingList :=
  mkWaitingList (hdKey q []) (lastKeyOf [] q) (Z.of_nat (length q)) (lastKeyOf [] (take j q)).

Record QueueRep (e : E) (q : list bytes) (j : nat) : Prop := {
  qr_head : match q with
            | [] => orEmpty (GetStorage waitingListHeadKey e) = []
            | _ => stored e waitingListHeadKey (headOf q j)
            end;
  qr_seg : dllseg e (hdKey q []) q [];
  qr_absent k : validKey k → k ∉ q → orEmpty (GetStorage (wk k) e) = [];
  qr_valid : Forall validKey q;
  qr_nodup : NoDup q;
  qr_prefix : j ≤ length q;
  qr_length : (Z.of_nat (length q) < 2 ^ 32)%Z;
}.

(** the step from [e] to [e'] wrote queue keys only *)
Definition queueOnly (e e' : E) : Prop :=
  (∀ key, ¬ isQueueKey key → GetStorage key e' = GetStorage key e) ∧ hookOf e' = hookOf e.

Lemma queueOnly_refl e : queueOnly e e.
Proof. by split. Qed.
Lemma queueOnly_trans e1 e2 e3 : queueOnly e1 e2 → queueOnly e2 e3 → queueOnly e1 e3.
Proof.
  intros [H1 H1'] [H2 H2']. split; [|congruence].
  intros key Hk. by rewrite H2 // H1.
Qed.

Lemma stored_frame {T} `{Marshaller T} e e' key (x : T) :
  GetStorage key e' = GetStorage key e → stored e key x → stored e' key x.
Proof. unfold stored. by intros ->. Qed.

Lemma dllseg_app e p q1 q2 n :
  dllseg e p (q1 ++ q2) n ↔ dllseg e p q1 (hdKey q2 n) ∧ dllseg e (lastKeyOf p q1) q2 n.
Proof.
  revert p. induction q1 as [|k q1 IH]; intros p; simpl; [done||tauto|].
  rewrite IH hdKey_app lastKeyOf_cons. tauto.
Qed.
Lemma dllseg_frame e e' p q n :
  (∀ k, k ∈ q → GetStorage (wk k) e' = GetStorage (wk k) e) →
  dllseg e p q n → dllseg e' p q n.
Proof.
  revert p. induction q as [|k q IH]; intros p Hk; simpl; [done|].
  intros [Hs Hd]. split; [eapply stored_frame; [apply Hk|done]; set_solver|].
  apply IH; [|done]. intros; apply Hk; set_solver.
Qed.

(** A state that agrees on the queue keys represents the same queue. *)
Lemma QueueRep_frame e e' q j :
  (∀ key, isQueueKey key → GetStorage key e' = GetStorage key e) →
  QueueRep e q j → QueueRep e' q j.
Proof.
  intros Hf [Hh Hs Ha Hv Hn Hp Hl]. split; try done.
  - assert (GetStorage waitingListHeadKey e' = GetStorage waitingListHeadKey e) as Heq
      by (apply Hf; by left).
    destruct q; [by rewrite Heq|by eapply stored_frame].
  - eapply dllseg_frame; [|done]. intros k Hk. apply Hf. right.
    exists k. split; [|done]. rewrite Forall_forall in Hv. auto.
  - intros k Hk Hnot. rewrite Hf; [by auto|]. right. eauto.
Qed.
End rep.

Lemma wk_ne a b : a ≠ b → wk a ≠ wk b.
Proof. by intros ? ?%wk_inj. Qed.
Lemma head_not_wk k : waitingListHeadKey ≠ wk k.
Proof. apply not_eq_sym, wk_not_head. Qed.
#[export] Hint Resolve wk_ne head_not_wk : go.

(** ** The operations against the representation *)
Section operations.
Context {E : Type} {EI : SystemEI E} {EIL : SystemEILaws E} {SCP : StakingContract}.
Context {MLe : MarshallerLaws ElementInList (λ _, True) zeroElement}.
Context {MLh : MarshallerLaws WaitingList headInRange emptyWaitingList}.

(** [e'] is [e] with [x] saved under [key] *)
Record written {T} `{Marshaller T} (e : E) (key : bytes) (x : T) (e' : E) : Prop := {
  written_stored : stored e' key x;
  written_frame k : k ≠ key → GetStorage k e' = GetStorage k e;
  written_hook : hookOf e' = hookOf e;
}.

Lemma written_queueOnly {T} `{Marshaller T} e key (x : T) e' :
  written e key x e' → isQueueKey key → queueOnly e e'.
Proof.
  intros [_ Hf Hh] Hk. split; [|done]. intros key' Hk'. apply Hf. by intros ->.
Qed.

Lemma wp_save {T} `{MarshallerLaws T inRange zero} (key : bytes) (x : T) Q e :
  inRange x →
  (∀ e', written e key x e' → Q (Ret tt) e') →
  wp (bind (fromSum (X:=error) (Marshal x)) (setStorage key)) Q e.
Proof.
  intros Hr HQ. destruct (marshal_total x Hr) as [b Hb].
  rewrite Hb. apply HQ. split.
  - unfold stored. by rewrite Hb get_set_eq.
  - intros k Hk. by apply get_set_ne.
  - apply hook_set.
Qed.

Lemma wp_saveElement key el Q e :
  (∀ e', written e key el e' → Q (Ret tt) e') →
  wp (saveWaitingListElement key el) Q e.
Proof. by apply wp_save. Qed.

Lemma wp_saveHead w Q e :
  headInRange w → (∀ e', written e waitingListHeadKey w e' → Q (Ret tt) e') →
  wp (saveWaitingListHead w) Q e.
Proof. apply wp_save. Qed.

Lemma wp_erase {X} key Q e :
  (∀ e', (∀ k, k ≠ key → GetStorage k e' = GetStorage k e) →
         GetStorage key e' = Some [] → hookOf e' = hookOf e → Q (Ret tt) e') →
  wp (X:=X) (setStorage key []) Q e.
Proof.
  intros HQ. apply HQ; [|apply get_set_eq|apply hook_set].
  intros k Hk. by apply get_set_ne.
Qed.

Lemma wp_getElement key k p n Q e :
  stored e key (mkElement k p n) → p ≠ [] → Q (Ret (mkElement k p n)) e →
  wp (getWaitingListElement key) Q e.
Proof.
  unfold stored. intros Hs Hp HQ. unfold getWaitingListElement.
  apply wp_bind, wp_gets.
  destruct (orEmpty (GetStorage key e)) as [|b bs] eqn:Hb.
  - apply marshal_nil in Hs; [|done]. unfold zeroElement in Hs. by simplify_eq.
  - erewrite (unmarshal_marshal _ _ _ I Hs). by apply wp_ret.
Qed.

Lemma headOf_range e q j : QueueRep e q j → headInRange (headOf q j).
Proof. intros Hr. unfold headInRange; simpl. pose proof (qr_length _ _ _ Hr). lia. Qed.

Lemma wp_getHead q j Q e :
  QueueRep e q j → Q (Ret (headOf q j)) e → wp getWaitingListHead Q e.
Proof.
  intros Hr HQ. pose proof (headOf_range _ _ _ Hr) as Hrange.
  destruct Hr as [Hh _ _ _ _ Hp _]. unfold getWaitingListHead.
  apply wp_bind, wp_gets. destruct q as [|k q].
  - rewrite Hh. simpl in Hp. assert (j = 0) as -> by lia. by apply wp_ret.
  - unfold stored in Hh.
    destruct (orEmpty (GetStorage waitingListHeadKey e)) as [|b bs] eqn:Hb.
    + by apply marshal_nil in Hh.
    + erewrite (unmarshal_marshal _ _ _ Hrange Hh). by apply wp_ret.
Qed.

(** the stored element of a queued key *)
Lemma QueueRep_element e q1 k q2 j :
  QueueRep e (q1 ++ k :: q2) j →
  stored e (wk k) (mkElement k (lastKeyOf (hdKey (q1 ++ k :: q2) []) q1) (hdKey q2 [])).
Proof. intros [_ Hs _ _ _ _ _]. apply dllseg_app in Hs as [_ [? _]]. done. Qed.

Lemma prev_not_nil q1 k q2 : lastKeyOf (hdKey (q1 ++ k :: q2) []) q1 ≠ [].
Proof.
  destruct q1 as [|k1 q1]; simpl; [auto with go|].
  destruct (lastKeyOf_in (wk k1) (k1 :: q1)) as (? & ? & ->); [done|]. auto with go.
Qed.

Lemma QueueRep_queued e q k j :
  QueueRep e q j → k ∈ q → orEmpty (GetStorage (wk k) e) ≠ [].
Proof.
  intros Hr (q1 & q2 & ->)%list_elem_of_split Hnil.
  pose proof (QueueRep_element _ _ _ _ _ Hr) as Hs. unfold stored in Hs.
  rewrite Hnil in Hs. apply marshal_nil in Hs; [|done].
  injection Hs as _ Hp _. by apply prev_not_nil in Hp.
Qed.

Lemma queueKey_wk k : validKey k → isQueueKey (wk k).
Proof. right. eauto. Qed.
Lemma queueKey_head : isQueueKey waitingListHeadKey.
Proof. by left. Qed.
End operations.
#[export] Hint Resolve queueKey_wk queueKey_head : go.

(** [framed] follows a key through the writes that did not touch it *)
Ltac key_ne :=
  first [ by auto with go | apply wk_ne; congruence | apply wk_ne; set_solver ].
Ltac framed :=
  repeat match goal with
  | |- ?x = ?x => reflexivity
  | W : @written _ _ _ _ _ _ _ ?e |- GetStorage _ ?e = _ =>
    rewrite (written_frame _ _ _ _ W _); [|key_ne]
  | F : (∀ k, k ≠ _ → GetStorage k ?e = _) |- GetStorage _ ?e = _ =>
    rewrite F; [|key_ne]
  end; try done.
Ltac queue_only :=
  repeat match goal with
  | W : @written _ _ _ _ ?e0 _ _ ?e |- queueOnly ?e0 ?e =>
    apply (written_queueOnly _ _ _ _ W); auto with go
  | W : @written _ _ _ _ ?e1 _ _ ?e |- queueOnly _ ?e =>
    eapply queueOnly_trans; [|apply (written_queueOnly _ _ _ _ W); auto with go]
  end; auto with go.

Section insertion.
Context {E : Type} {EI : SystemEI E} {EIL : SystemEILaws E} {SCP : StakingContract}.
Context {MLe : MarshallerLaws ElementInList (λ _, True) zeroElement}.
Context {MLh : MarshallerLaws WaitingList headInRange emptyWaitingList}.

Lemma mkQueueRep e q j :
  q ≠ [] → stored e waitingListHeadKey (headOf q j) → dllseg e (hdKey q []) q [] →
  (∀ k, validKey k → k ∉ q → orEmpty (GetStorage (wk k) e) = []) →
  Forall validKey q → NoDup q → j ≤ length q → (Z.of_nat (length q) < 2 ^ 32)%Z →
  QueueRep e q j.
Proof. intros Hq **. split; try done. by destruct q. Qed.

Lemma QueueRep_valid e q j k : QueueRep e q j → k ∈ q → validKey k.
Proof. intros Hr. pose proof (qr_valid _ _ _ Hr) as Hv. rewrite Forall_forall in Hv. auto. Qed.

Lemma wp_startWaitingList e k (jailed : bool) Q :
  QueueRep e [] 0 → validKey k →
  (∀ e', QueueRep e' [k] (if jailed then 1 else 0) → queueOnly e e' → Q (Ret tt) e') →
  wp (startWaitingList (mkWaitingList [] [] 1 []) jailed k) Q e.
Proof.
  intros Hr Hk HQ. unfold startWaitingList, saveElementAndList.
  apply wp_bind, wp_saveElement. intros e1 W1.
  apply wp_saveHead; [destruct jailed; unfold headInRange; simpl; lia|]. intros e2 W2.
  apply HQ; [|queue_only].
  apply mkQueueRep; try done.
  - destruct jailed; exact (written_stored _ _ _ _ W2).
  - split; [|done]. apply (stored_frame e1); [framed|].
    destruct jailed; exact (written_stored _ _ _ _ W1).
  - intros k' Hk' Hnot. transitivity (orEmpty (GetStorage (wk k') e)).
    + f_equal. framed.
    + apply (qr_absent _ _ _ Hr); set_solver.
  - by constructor.
  - apply NoDup_singleton.
  - destruct jailed; simpl; lia.
Qed.

Lemma wp_addToEnd e q l j k j' w Q :
  QueueRep e (q ++ [l]) j → validKey k → k ∉ q ++ [l] →
  (Z.of_nat (length (q ++ [l])) + 1 < 2 ^ 32)%Z → j' ≤ S (length (q ++ [l])) →
  LastKey w = wk l → withLastKey (wk k) w = headOf ((q ++ [l]) ++ [k]) j' →
  (∀ e', QueueRep e' ((q ++ [l]) ++ [k]) j' → queueOnly e e' → Q (Ret tt) e') →
  wp (addToEndOfTheList w k) Q e.
Proof.
  intros Hr Hk Hnew Hlen Hj Hlast Hw HQ.
  assert (validKey l) as Hl by (eapply QueueRep_valid; [done|set_solver]).
  pose proof (qr_nodup _ _ _ Hr) as Hnd.
  unfold addToEndOfTheList, saveElementAndList. rewrite Hlast Hw.
  apply wp_bind. eapply wp_getElement;
    [exact (QueueRep_element _ _ _ [] _ Hr)|apply prev_not_nil|].
  apply wp_bind, wp_saveElement. intros e1 W1.
  apply wp_bind, wp_saveElement. intros e2 W2.
  apply wp_saveHead.
  { unfold headInRange; simpl. rewrite !length_app /= in Hlen; rewrite !length_app /=. lia. }
  intros e3 W3. apply HQ; [|queue_only].
  assert (l ∉ q ∧ k ≠ l ∧ k ∉ q) as (Hlq & Hkl & Hkq).
  { apply NoDup_app in Hnd as (_ & Hd & _). set_solver. }
  apply mkQueueRep.
  - by destruct q.
  - apply (written_stored _ _ _ _ W3).
  - rewrite hdKey_app (hdKey_app q [l]). apply dllseg_app. split.
    + pose proof (qr_seg _ _ _ Hr) as Hseg. rewrite hdKey_app in Hseg.
      apply dllseg_app in Hseg as [Hseg _]. apply dllseg_app. split; [|split; [|done]].
      * apply (dllseg_frame e); [|by destruct q]. intros x Hx. framed.
      * apply (stored_frame e1); [framed|].
        pose proof (written_stored _ _ _ _ W1) as Hs. by destruct q.
    + split; [|done]. apply (stored_frame e2); [framed|]. rewrite lastKeyOf_snoc.
      exact (written_stored _ _ _ _ W2).
  - intros x Hx Hnot. transitivity (orEmpty (GetStorage (wk x) e)).
    + f_equal. framed.
    + apply (qr_absent _ _ _ Hr); set_solver.
  - apply Forall_app. split; [apply (qr_valid _ _ _ Hr)|by constructor].
  - apply NoDup_app. split; [done|]. split; [set_solver|apply NoDup_singleton].
  - rewrite (length_app _ [k]) /=. lia.
  - rewrite (length_app _ [k]) /=. lia.
Qed.

Lemma lastKeyOf_ne q1 l f q2 :
  NoDup (q1 ++ l :: f :: q2) → lastKeyOf [] (q1 ++ l :: f :: q2) ≠ wk l.
Proof.
  intros Hnd. rewrite (cons_middle l) lastKeyOf_app lastKeyOf_app.
  destruct (lastKeyOf_in (lastKeyOf (lastKeyOf [] q1) [l]) (f :: q2)) as (x & Hx & ->); [done|].
  intros ->%wk_inj. apply NoDup_app in Hnd as (_ & _ & Hnd).
  by apply NoDup_cons in Hnd as [? _].
Qed.

Lemma goCopy_wk k k' :
  validKey k → validKey k' → goCopy (replicate (length (wk k)) x00) (wk k') = wk k'.
Proof.
  unfold validKey. intros Hk Hk'. apply goCopy_same.
  rewrite length_replicate !length_wk. congruence.
Qed.

(** the elements around the end of the prefix of unjailed nodes *)
Lemma QueueRep_boundary e q1 l f q2 j :
  QueueRep e (q1 ++ l :: f :: q2) j →
  let p := hdKey (q1 ++ [l]) [] in
  hdKey (q1 ++ l :: f :: q2) [] = p ∧
  dllseg e p q1 (wk l) ∧ stored e (wk l) (mkElement l (lastKeyOf p q1) (wk f)) ∧
  stored e (wk f) (mkElement f (wk l) (hdKey q2 [])) ∧ dllseg e (wk f) q2 [] ∧
  lastKeyOf p q1 ≠ [] ∧ validKey l ∧ validKey f.
Proof.
  intros Hr p. assert (hdKey (q1 ++ l :: f :: q2) [] = p) as Hp by (by destruct q1).
  pose proof (qr_seg _ _ _ Hr) as Hseg. rewrite Hp in Hseg.
  apply dllseg_app in Hseg as (? & ? & ? & ?).
  split_and!; try done; [apply (prev_not_nil q1 l [])|..];
    (eapply QueueRep_valid; [done|set_solver]).
Qed.

Lemma headOf_insert q1 l f q2 k :
  withLastJailedKey (wk k) (withLength (Z.of_nat (length (q1 ++ l :: f :: q2)) + 1)
    (headOf (q1 ++ l :: f :: q2) (S (length q1))))
  = headOf (q1 ++ l :: k :: f :: q2) (S (S (length q1))).
Proof.
  unfold headOf, withLastJailedKey, withLength. simpl. f_equal.
  - by destruct q1.
  - by rewrite (lastKeyOf_app _ q1) (lastKeyOf_app _ q1 (l :: k :: _)) !lastKeyOf_cons.
  - rewrite !length_app /=. lia.
  - rewrite (cons_middle l) (cons_middle k) !app_assoc.
    rewrite take_app_length'; [|rewrite !length_app /=; lia]. by rewrite lastKeyOf_snoc.
Qed.
Lemma NoDup_insert k (q1 q2 : list bytes) l f :
  k ∉ q1 ++ l :: f :: q2 → NoDup (q1 ++ l :: f :: q2) → NoDup (q1 ++ l :: k :: f :: q2).
Proof.
  intros Hk Hnd. rewrite !NoDup_app !NoDup_cons in Hnd |- *. set_solver.
Qed.
Lemma headOf_snoc q l k j :
  j ≤ length (q ++ [l]) →
  withLastKey (wk k) (withLength (Z.of_nat (length (q ++ [l])) + 1) (headOf (q ++ [l]) j))
  = headOf ((q ++ [l]) ++ [k]) j.
Proof.
  intros Hj. unfold headOf, withLastKey, withLength. simpl. f_equal.
  - by destruct q.
  - by rewrite lastKeyOf_snoc.
  - rewrite !length_app /=. lia.
  - by rewrite (take_app_le (q ++ [l])).
Qed.
Lemma headOf_snoc_jailed q l k j :
  j = length (q ++ [l]) →
  withLastKey (wk k) (withLastJailedKey (wk k)
    (withLength (Z.of_nat (length (q ++ [l])) + 1) (headOf (q ++ [l]) j)))
  = headOf ((q ++ [l]) ++ [k]) (S j).
Proof.
  intros ->. unfold headOf, withLastKey, withLastJailedKey, withLength. simpl. f_equal.
  - by destruct q.
  - by rewrite lastKeyOf_snoc.
  - rewrite !length_app /=. lia.
  - rewrite take_ge ?lastKeyOf_snoc //. rewrite !length_app /=. lia.
Qed.

Context (HfirstFix : IsFlagEnabled CorrectFirstQueuedFlag = true).

Lemma wp_insertFront e f q k Q :
  QueueRep e (f :: q) 0 → validKey k → k ∉ f :: q →
  (Z.of_nat (length (f :: q)) + 1 < 2 ^ 32)%Z →
  (∀ e', QueueRep e' (k :: f :: q) 1 → queueOnly e e' → Q (Ret tt) e') →
  wp (insertAfterLastJailed
        (withLength (Z.of_nat (length (f :: q)) + 1) (headOf (f :: q) 0)) k) Q e.
Proof.
  intros Hr Hk Hnew Hlen HQ.
  assert (validKey f) as Hf by (eapply QueueRep_valid; [done|set_solver]).
  pose proof (qr_nodup _ _ _ Hr) as Hnd. apply NoDup_cons in Hnd as [Hfq Hnd].
  assert (k ≠ f ∧ k ∉ q) as [Hkf Hkq] by set_solver.
  unfold insertAfterLastJailed, saveElementAndList. rewrite HfirstFix /=.
  apply wp_bind, wp_bind. eapply wp_getElement;
    [exact (QueueRep_element _ [] _ _ _ Hr)|auto with go|]. simpl.
  apply wp_saveElement. intros e1 W1. apply wp_bind, wp_saveElement. intros e2 W2.
  apply wp_saveHead; [unfold headInRange; simpl in *; lia|]. intros e3 W3.
  apply HQ; [|queue_only]. apply mkQueueRep; try done.
  - pose proof (written_stored _ _ _ _ W3) as Hs.
    unfold headOf. rewrite /= lastKeyOf_cons (lastKeyOf_indep _ []) //.
    replace (Z.of_nat (S (S (length q)))) with (Z.of_nat (S (length q)) + 1)%Z by lia. done.
  - destruct (qr_seg _ _ _ Hr) as [_ Hseg]. split; [|split].
    + apply (stored_frame e2); [framed|]. apply (written_stored _ _ _ _ W2).
    + apply (stored_frame e1); [framed|]. apply (written_stored _ _ _ _ W1).
    + apply (dllseg_frame e); [|done]. intros x Hx. framed.
  - intros x Hx Hnot. transitivity (orEmpty (GetStorage (wk x) e)).
    + f_equal. framed.
    + apply (qr_absent _ _ _ Hr); set_solver.
  - constructor; [done|apply (qr_valid _ _ _ Hr)].
  - apply NoDup_cons. split; [done|]. by apply NoDup_cons.
  - simpl. lia.
  - simpl in *. lia.
Qed.

Lemma wp_insertInner e q1 l f q2 k Q :
  QueueRep e (q1 ++ l :: f :: q2) (S (length q1)) → validKey k →
  k ∉ q1 ++ l :: f :: q2 →
  (Z.of_nat (length (q1 ++ l :: f :: q2)) + 1 < 2 ^ 32)%Z →
  (∀ e', QueueRep e' (q1 ++ l :: k :: f :: q2) (S (S (length q1))) → queueOnly e e' →
         Q (Ret tt) e') →
  wp (insertAfterLastJailed
        (withLength (Z.of_nat (length (q1 ++ l :: f :: q2)) + 1)
           (headOf (q1 ++ l :: f :: q2) (S (length q1)))) k) Q e.
Proof.
  intros Hr Hk Hnew Hlen HQ.
  destruct (QueueRep_boundary _ _ _ _ _ _ Hr) as (Hp & Hs1 & Hel & Hef & Hs2 & Hne & Hl & Hf).
  set (p := hdKey (q1 ++ [l]) []) in *.
  pose proof (qr_nodup _ _ _ Hr) as Hnd. pose proof (lastKeyOf_ne _ _ _ _ Hnd) as Hlast.
  assert (lastKeyOf [] (take (S (length q1)) (q1 ++ l :: f :: q2)) = wk l) as Hlj.
  { rewrite (cons_middle l) app_assoc take_app_length' ?lastKeyOf_snoc //.
    rewrite length_app /=. lia. }
  apply NoDup_app in Hnd as (Hnd1 & Hdis & Hnd2). rewrite !NoDup_cons in Hnd2.
  assert (k ≠ l ∧ k ≠ f ∧ l ≠ f ∧ k ∉ q1 ∧ k ∉ q2 ∧ l ∉ q1 ∧ l ∉ q2 ∧ f ∉ q1 ∧ f ∉ q2)
    as (Hkl & Hkf & Hlf & Hkq1 & Hkq2 & Hlq1 & Hlq2 & Hfq1 & Hfq2) by set_solver.
  unfold insertAfterLastJailed. cbn [LastJailedKey LastKey withLength headOf].
  rewrite Hlj bool_decide_false //. rewrite length_wk. cbn match.
  apply wp_bind. eapply wp_getElement; [done|done|].
  apply wp_bind. eapply wp_getElement; [done|auto with go|].
  cbn [PreviousKey NextKey BLSPublicKey]. rewrite !goCopy_wk //.
  apply wp_bind, wp_saveElement. intros e1 W1. apply wp_bind, wp_saveElement. intros e2 W2.
  apply wp_bind, wp_saveElement. intros e3 W3. clear Hlast Hdis.
  rewrite length_app /= in Hlen.
  apply wp_saveHead; [unfold headInRange; rewrite /= length_app /=; lia|]. intros e4 W4.
  apply HQ; [|queue_only]. apply mkQueueRep.
  - by destruct q1.
  - pose proof (written_stored _ _ _ _ W4) as Hs. by rewrite headOf_insert in Hs.
  - assert (hdKey (q1 ++ l :: k :: f :: q2) [] = p) as -> by (by destruct q1).
    apply dllseg_app. split; [|split; [|split; [|split]]].
    + apply (dllseg_frame e); [|done]. intros x Hx. framed.
    + apply (stored_frame e1); [framed|]. apply (written_stored _ _ _ _ W1).
    + apply (stored_frame e3); [framed|]. apply (written_stored _ _ _ _ W3).
    + apply (stored_frame e2); [framed|]. apply (written_stored _ _ _ _ W2).
    + apply (dllseg_frame e); [|done]. intros x Hx. framed.
  - intros x Hx Hnot. transitivity (orEmpty (GetStorage (wk x) e)).
    + f_equal. framed.
    + apply (qr_absent _ _ _ Hr); set_solver.
  - pose proof (qr_valid _ _ _ Hr) as Hv. rewrite !Forall_app !Forall_cons in Hv |- *. tauto.
  - eapply (NoDup_insert k), (qr_nodup _ _ _ Hr). done.
  - rewrite length_app /=. lia.
  - rewrite length_app /=. lia.
Qed.

(** [addToWaitingList] implements [addQ]. *)
Lemma wp_addToWaitingList e q j k jailed Q :
  QueueRep e q j → validKey k → (Z.of_nat (length q) + 1 < 2 ^ 32)%Z →
  (∀ e', QueueRep e' (addQ k jailed q j).1 (addQ k jailed q j).2 → queueOnly e e' →
         Q (Ret tt) e') →
  wp (addToWaitingList k jailed) Q e.
Proof.
  intros Hr Hk Hlen HQ. unfold addQ in HQ. unfold addToWaitingList.
  apply wp_bind, wp_gets. case_decide as Hin.
  { pose proof (QueueRep_queued _ _ _ _ Hr Hin) as Hne.
    destruct (orEmpty (GetStorage (wk k) e)); [done|]. apply HQ; [done|apply queueOnly_refl]. }
  rewrite (qr_absent _ _ _ Hr) //. cbn [length Nat.eqb negb].
  apply wp_bind. apply (wp_getHead q j); [done|].
  cbv zeta. cbn [Length withLength headOf].
  replace (u32 (Z.of_nat (length q) + 1)) with (Z.of_nat (length q) + 1)%Z
    by (unfold u32; rewrite Z.mod_small; lia).
  pose proof (qr_prefix _ _ _ Hr) as Hj.
  destruct q as [|l q _] using rev_ind.
  { simpl in Hj. assert (j = 0) as -> by lia.
    eapply wp_startWaitingList; [done|done|]. intros e' Hr' Ho. apply HQ; [|done].
    by destruct jailed. }
  rewrite (proj2 (Z.eqb_neq _ _)); [|rewrite length_app /=; lia].
  destruct jailed; simpl in HQ.
  2: { eapply (wp_addToEnd e q l j k j); try done; [lia|apply lastKeyOf_snoc|].
       rewrite headOf_snoc //. }
  destruct j as [|j].
  { destruct (q ++ [l]) as [|f q'] eqn:Hq; [by destruct q|].
    by apply wp_insertFront. }
  destruct (decide (S j = length (q ++ [l]))) as [Hend|Hend].
  { assert (lastKeyOf [] (take (S j) (q ++ [l])) = wk l) as Hlj.
    { rewrite take_ge; [apply lastKeyOf_snoc|lia]. }
    unfold insertAfterLastJailed. cbn [LastJailedKey LastKey withLength headOf].
    rewrite Hlj lastKeyOf_snoc length_wk. cbn match.
    apply wp_bind. eapply wp_getElement;
      [exact (QueueRep_element _ _ _ [] _ Hr)|apply prev_not_nil|].
    rewrite bool_decide_true //.
    eapply (wp_addToEnd e q l (S j) k (S (S j))); try done.
    - lia.
    - apply lastKeyOf_snoc.
    - by rewrite headOf_snoc_jailed.
    - intros e' Hr' Ho. apply HQ; [|done].
      rewrite take_ge in Hr' |- *; [|lia..]. rewrite drop_ge; [done|lia]. }
  destruct (split_two (q ++ [l]) j) as (q1 & a & b & q2 & Hq & <-); [lia|].
  rewrite Hq in Hr, Hlen, HQ, Hin |- *. clear Hq Hj Hend.
  assert (q1 ++ a :: b :: q2 = (q1 ++ [a]) ++ b :: q2) as Hq by (by rewrite -app_assoc).
  apply wp_insertInner; try done. intros e' Hr' Ho. apply HQ; [|done].
  rewrite Hq take_app_length' ?drop_app_length' ?length_app /=; [|lia..].
  by rewrite -app_assoc.
Qed.
End insertion.

(** ** Removal: the abstract side *)
Section removal_pure.
Implicit Types (k l : bytes) (q : list bytes) (j : nat).

Lemma removeQ_split q1 k q2 j :
  NoDup (q1 ++ k :: q2) →
  removeQ k (q1 ++ k :: q2) j = (q1 ++ q2, if length q1 <? j then pred j else j).
Proof.
  intros Hnd. pose proof Hnd as (Hnd1 & Hdis & Hnd2)%NoDup_app.
  apply NoDup_cons in Hnd2 as [Hkq2 Hnd2].
  assert (k ∉ q1) as Hkq1 by (intros Hk; apply (Hdis k Hk); set_solver).
  unfold removeQ. f_equal.
  - rewrite filter_app filter_cons_False; [|tauto].
    by rewrite !filter_ne_notin.
  - destruct (Nat.ltb_spec (length q1) j) as [Hj|Hj].
    + rewrite decide_True //. rewrite take_app_ge; [|lia].
      replace (j - length q1) with (S (j - length q1 - 1)) by lia. set_solver.
    + rewrite decide_False //. rewrite take_app_le; [|lia].
      intros Hk. apply Hkq1. eapply subseteq_take; done.
Qed.

Lemma lastJailed_remove q1 k q2 j :
  NoDup (q1 ++ k :: q2) → j ≤ length (q1 ++ k :: q2) →
  lastKeyOf [] (take (if length q1 <? j then pred j else j) (q1 ++ q2)) =
  if bool_decide (wk k = lastKeyOf [] (take j (q1 ++ k :: q2))) then lastKeyOf [] q1
  else lastKeyOf [] (take j (q1 ++ k :: q2)).
Proof.
  intros (Hnd1 & Hdis & Hnd2)%NoDup_app Hlen. rewrite length_app /= in Hlen.
  apply NoDup_cons in Hnd2 as [Hkq2 Hnd2].
  assert (k ∉ q1) as Hkq1 by (intros Hk; apply (Hdis k Hk); set_solver).
  destruct (Nat.ltb_spec (length q1) j) as [Hj|Hj].
  - rewrite !take_app_ge; [|lia..].
    replace (j - length q1) with (S (j - length q1 - 1)) by lia.
    replace (pred j - length q1) with (j - length q1 - 1) by lia. simpl.
    rewrite !lastKeyOf_app lastKeyOf_cons.
    destruct (take (j - length q1 - 1) q2) as [|x t] eqn:Ht.
    + by rewrite bool_decide_true.
    + rewrite (lastKeyOf_indep (wk k) (lastKeyOf [] q1)); [|done].
      destruct (lastKeyOf_in (lastKeyOf [] q1) (x :: t)) as (y & Hy & ->); [done|].
      rewrite bool_decide_false //. intros ->%wk_inj.
      rewrite -Ht in Hy. apply Hkq2. eapply subseteq_take; done.
  - rewrite !take_app_le; [|lia..]. rewrite bool_decide_false //. intros Heq.
    destruct (take j q1) as [|x t] eqn:Ht; [by apply wk_not_nil in Heq|].
    destruct (lastKeyOf_in [] (x :: t)) as (y & Hy & Hy'); [done|].
    rewrite Hy' in Heq. apply wk_inj in Heq as ->.
    rewrite -Ht in Hy. apply Hkq1. eapply subseteq_take; done.
Qed.

Lemma removeQ_notin k q j : k ∉ q → removeQ k q j = (q, j).
Proof.
  intros Hk. unfold removeQ. rewrite decide_False.
  - by rewrite filter_ne_notin.
  - intros Hin. apply Hk. eapply subseteq_take; done.
Qed.
Lemma removeQ_prefix q1 k q2 j :
  j ≤ length (q1 ++ k :: q2) → (if length q1 <? j then pred j else j) ≤ length (q1 ++ q2).
Proof. rewrite !length_app /=. destruct (Nat.ltb_spec (length q1) j); lia. Qed.
End removal_pure.

(** ** Removal from the storage *)
Ltac head_range :=
  unfold headInRange;
  cbn [Length withLength withFirstKey withLastKey withLastJailedKey headOf];
  rewrite ?length_app; cbn [length] in *; lia.

Section removal.
Context {E : Type} {EI : SystemEI E} {EIL : SystemEILaws E} {SCP : StakingContract}.
Context {MLe : MarshallerLaws ElementInList (λ _, True) zeroElement}.
Context {MLh : MarshallerLaws WaitingList headInRange emptyWaitingList}.
Context (HfirstFix : IsFlagEnabled CorrectFirstQueuedFlag = true).
Context (HunJailedFix : IsFlagEnabled CorrectLastUnJailedFlag = true).

(** [e0] is [e] after the element of [k] was erased *)
Record erased (e : E) (k : bytes) (e0 : E) : Prop := {
  erased_frame x : x ≠ wk k → GetStorage x e0 = GetStorage x e;
  erased_nil : GetStorage (wk k) e0 = Some [];
  erased_hook : hookOf e0 = hookOf e;
}.

Lemma erased_queueOnly e k e0 : validKey k → erased e k e0 → queueOnly e e0.
Proof.
  intros Hk [Hf _ Hh]. split; [|done]. intros key Hkey. apply Hf. intros ->. auto with go.
Qed.

Lemma erased_stored {T} `{Marshaller T} e k e0 key (x : T) :
  erased e k e0 → key ≠ wk k → stored e key x → stored e0 key x.
Proof. intros He Hk. apply stored_frame. by apply (erased_frame _ _ _ He). Qed.

(** the parts of the representation that do not depend on the links *)
Lemma QueueRep_removed e e0 e' q1 k q2 j :
  QueueRep e (q1 ++ k :: q2) j → erased e k e0 →
  (∀ x, x ∉ q1 ++ k :: q2 → GetStorage (wk x) e' = GetStorage (wk x) e0) →
  GetStorage (wk k) e' = GetStorage (wk k) e0 →
  let j' := if length q1 <? j then pred j else j in
  q1 ++ q2 ≠ [] →
  stored e' waitingListHeadKey (headOf (q1 ++ q2) j') →
  dllseg e' (hdKey (q1 ++ q2) []) (q1 ++ q2) [] →
  QueueRep e' (q1 ++ q2) j'.
Proof.
  intros Hr He Hf Hfk j' Hne Hh Hd.
  pose proof (qr_nodup _ _ _ Hr) as Hnd. pose proof (qr_valid _ _ _ Hr) as Hv.
  pose proof (qr_length _ _ _ Hr) as Hl.
  apply mkQueueRep; try done.
  - intros x Hx Hnot. destruct (decide (x = k)) as [->|Hxk].
    + by rewrite Hfk (erased_nil _ _ _ He).
    + assert (x ∉ q1 ++ k :: q2) as Hx' by set_solver.
      rewrite Hf // (erased_frame _ _ _ He); [|auto with go].
      by apply (qr_absent _ _ _ Hr).
  - rewrite !Forall_app Forall_cons in Hv |- *. tauto.
  - rewrite !NoDup_app NoDup_cons in Hnd |- *. set_solver.
  - apply (removeQ_prefix _ k), (qr_prefix _ _ _ Hr).
  - rewrite !length_app /= in Hl |- *. lia.
Qed.

Lemma wp_removeFirst e e0 k f q j Q :
  QueueRep e (k :: f :: q) j → erased e k e0 →
  (∀ e', QueueRep e' (f :: q) (pred j) → queueOnly e e' → Q (Ret tt) e') →
  wp (removeFirst (withLength (Z.of_nat (length (f :: q))) (headOf (k :: f :: q) j))
        (mkElement k (wk k) (wk f)) (wk k)) Q e0.
Proof.
  intros Hr He HQ.
  assert (validKey k ∧ validKey f) as [Hk Hf]
    by (split; (eapply QueueRep_valid; [done|set_solver])).
  pose proof (qr_nodup _ _ _ Hr) as Hnd. pose proof (qr_length _ _ _ Hr) as Hl.
  pose proof (lastJailed_remove [] k (f :: q) j Hnd (qr_prefix _ _ _ Hr)) as Hlj.
  rewrite !NoDup_cons in Hnd. destruct Hnd as (Hkq & Hfq & Hnd).
  assert (k ≠ f ∧ k ∉ q) as [Hkf Hkq'] by set_solver.
  destruct (qr_seg _ _ _ Hr) as (_ & Hef & Hseg).
  unfold removeFirst, saveElementAndList. cbn [NextKey].
  apply wp_bind. eapply wp_getElement;
    [eapply erased_stored; [done|auto with go|exact Hef]|auto with go|].
  apply wp_bind, wp_saveElement. intros e1 W1.
  apply wp_saveHead.
  { destruct (bool_decide _); head_range. }
  intros e2 W2. apply HQ.
  2: { apply (queueOnly_trans _ e0); [by apply (erased_queueOnly _ k)|queue_only]. }
  assert ((if 0 <? j then pred j else j) = pred j) as Hj by (by destruct j).
  pose proof (QueueRep_removed e e0 e2 [] k (f :: q) j Hr He) as Hrem.
  cbn [app length] in Hrem, Hlj. rewrite !Hj in Hrem, Hlj.
  apply Hrem; try done.
  - intros x Hx. framed.
  - framed.
  - pose proof (written_stored _ _ _ _ W2) as Hs. unfold headOf. rewrite Hlj.
    cbn [LastJailedKey withLength headOf] in Hs.
    by destruct (bool_decide _).
  - split.
    + apply (stored_frame e1); [framed|]. apply (written_stored _ _ _ _ W1).
    + apply (dllseg_frame e); [|done]. intros x Hx.
      rewrite -(erased_frame _ _ _ He); [framed|]. apply wk_ne. set_solver.
Qed.

Lemma cons_middle_app {A} (q1 : list A) l q2 : q1 ++ l :: q2 = (q1 ++ [l]) ++ q2.
Proof. by rewrite -app_assoc. Qed.

(** the head after an inner removal *)
Lemma headOf_remove q1 l k q2 j :
  NoDup (q1 ++ l :: k :: q2) → j ≤ length (q1 ++ l :: k :: q2) →
  let j' := if S (length q1) <? j then pred j else j in
  let w := withLength (Z.of_nat (length (q1 ++ l :: q2))) (headOf (q1 ++ l :: k :: q2) j) in
  let w' := if bool_decide (wk k = LastJailedKey w) then withLastJailedKey (wk l) w else w in
  (q2 ≠ [] → w' = headOf (q1 ++ l :: q2) j') ∧
  (q2 = [] → withLastKey (wk l) w' = headOf (q1 ++ l :: q2) j').
Proof.
  intros Hnd Hj j' w w'.
  pose proof (lastJailed_remove (q1 ++ [l]) k q2 j) as Hlj.
  rewrite -!app_assoc /= (length_app q1 [l]) /= Nat.add_1_r lastKeyOf_snoc in Hlj.
  specialize (Hlj Hnd Hj).
  assert (hdKey (q1 ++ l :: k :: q2) [] = hdKey (q1 ++ l :: q2) []) as Hh by (by destruct q1).
  assert (w' = mkWaitingList (hdKey (q1 ++ l :: q2) []) (lastKeyOf [] (q1 ++ l :: k :: q2))
            (Z.of_nat (length (q1 ++ l :: q2))) (lastKeyOf [] (take j' (q1 ++ l :: q2)))) as ->.
  { subst j'. rewrite Hlj. subst w' w. cbn [LastJailedKey withLength headOf].
    destruct (bool_decide _); unfold headOf, withLength, withLastJailedKey; simpl; by rewrite Hh. }
  unfold headOf, withLastKey. split; intros Hq2; simpl.
  - f_equal. rewrite !lastKeyOf_app !lastKeyOf_cons. by apply lastKeyOf_indep.
  - subst q2. by rewrite lastKeyOf_snoc.
Qed.

Lemma QueueRep_inner e q1 l k q2 j :
  QueueRep e (q1 ++ l :: k :: q2) j →
  stored e (wk k) (mkElement k (wk l) (hdKey q2 [])).
Proof.
  intros Hr. rewrite cons_middle_app in Hr.
  pose proof (QueueRep_element _ _ _ _ _ Hr) as Hs. by rewrite lastKeyOf_snoc in Hs.
Qed.

Lemma wp_removeInner e e0 q1 l k q2 j Q :
  QueueRep e (q1 ++ l :: k :: q2) j → erased e k e0 →
  (∀ e', QueueRep e' (q1 ++ l :: q2) (if S (length q1) <? j then pred j else j) →
         queueOnly e e' → Q (Ret tt) e') →
  wp (removeInner (withLength (Z.of_nat (length (q1 ++ l :: q2)))
                     (headOf (q1 ++ l :: k :: q2) j))
        (mkElement k (wk l) (hdKey q2 [])) (wk k)) Q e0.
Proof.
  intros Hr He HQ.
  assert (validKey k ∧ validKey l) as [Hk Hl]
    by (split; (eapply QueueRep_valid; [done|set_solver])).
  destruct (QueueRep_boundary _ _ _ _ _ _ Hr) as (Hp & Hs1 & Hel & _ & Hs2 & Hne & _ & _).
  set (p := hdKey (q1 ++ [l]) []) in *.
  pose proof (qr_nodup _ _ _ Hr) as Hnd. pose proof (qr_length _ _ _ Hr) as Hlen.
  pose proof (headOf_remove q1 l k q2 j Hnd (qr_prefix _ _ _ Hr)) as [Hw1 Hw2].
  apply NoDup_app in Hnd as (Hnd1 & Hdis & Hnd2). rewrite !NoDup_cons in Hnd2.
  assert (k ≠ l ∧ k ∉ q1 ∧ k ∉ q2 ∧ l ∉ q1 ∧ l ∉ q2) as (Hkl & Hkq1 & Hkq2 & Hlq1 & Hlq2)
    by set_solver.
  pose proof (QueueRep_removed e e0) as Hrem.
  specialize (λ e', Hrem e' (q1 ++ [l]) k q2 j). rewrite -!app_assoc /= in Hrem.
  rewrite (length_app q1 [l]) /= Nat.add_1_r in Hrem.
  unfold removeInner, saveElementAndList. rewrite HunJailedFix.
  cbn [negb orb PreviousKey NextKey].
  apply wp_bind, wp_attempt. eapply wp_getElement;
    [eapply erased_stored; [done|auto with go|exact Hel]|done|].
  apply wp_bind, wp_ret. cbn [NextKey PreviousKey].
  destruct q2 as [|f q2]; cbn [hdKey length Nat.eqb].
  - apply wp_bind, wp_saveElement. intros e1 W1. rewrite Hw2 //.
    apply wp_saveHead; [rewrite !length_app /= in Hlen; head_range|]. intros e2 W2.
    apply HQ.
    2: { apply (queueOnly_trans _ e0); [by apply (erased_queueOnly _ k)|queue_only]. }
    apply Hrem; try done; [intros x Hx; framed|framed|by destruct q1|..].
    + apply (written_stored _ _ _ _ W2).
    + apply dllseg_app. split; [|split; [|done]].
      * apply (dllseg_frame e); [|done]. intros x Hx.
        rewrite -(erased_frame _ _ _ He); [framed|]. apply wk_ne. set_solver.
      * apply (stored_frame e1); [framed|]. apply (written_stored _ _ _ _ W1).
  - destruct Hs2 as [Hef Hs2].
    assert (f ≠ k ∧ f ≠ l ∧ f ∉ q1 ∧ f ∉ q2 ∧ l ∉ q2 ∧ k ∉ q2)
      as (Hfk & Hfl & Hfq1 & Hfq2 & Hlq2' & Hkq2')
      by (rewrite !NoDup_cons in Hnd2; set_solver).
    assert (validKey f) as Hf by (eapply QueueRep_valid; [exact Hr|set_solver]).
    apply wp_bind. eapply wp_getElement;
      [eapply erased_stored; [done|auto with go|exact Hef]|auto with go|].
    apply wp_bind, wp_saveElement. intros e1 W1.
    apply wp_bind, wp_saveElement. intros e2 W2. rewrite Hw1 //.
    apply wp_saveHead; [rewrite !length_app /= in Hlen; head_range|]. intros e3 W3.
    apply HQ.
    2: { apply (queueOnly_trans _ e0); [by apply (erased_queueOnly _ k)|queue_only]. }
    apply Hrem; try done; [intros x Hx; framed|framed|by destruct q1|..].
    + apply (written_stored _ _ _ _ W3).
    + assert (hdKey (q1 ++ l :: f :: q2) [] = p) as -> by (by destruct q1).
      apply dllseg_app. split; [|split; [|split]].
      * apply (dllseg_frame e); [|done]. intros x Hx.
        rewrite -(erased_frame _ _ _ He); [framed|]. apply wk_ne. set_solver.
      * apply (stored_frame e2); [framed|]. apply (written_stored _ _ _ _ W2).
      * apply (stored_frame e1); [framed|]. apply (written_stored _ _ _ _ W1).
      * apply (dllseg_frame e); [|done]. intros x Hx.
        rewrite -(erased_frame _ _ _ He); [framed|]. apply wk_ne. set_solver.
Qed.

(** the first step of the removal: the element is found and its entry erased *)
Lemma wp_takeElement e q1 k q2 j Q :
  QueueRep e (q1 ++ k :: q2) j →
  (∀ e0, erased e k e0 →
     wp (let! elementToRemove := ret (mkElement k (lastKeyOf (hdKey (q1 ++ k :: q2) []) q1)
                                       (hdKey q2 [])) in
         let! waitingList := ret (headOf (q1 ++ k :: q2) j) in
         let waitingList := withLength (Z.of_nat (length (q1 ++ q2))) waitingList in
         if (Length waitingList =? 0)%Z then setStorage waitingListHeadKey []
         else if bool_decide (FirstKey waitingList = wk k)
         then removeFirst waitingList elementToRemove (wk k)
         else removeInner waitingList elementToRemove (wk k)) Q e0) →
  wp (removeFromWaitingList k) Q e.
Proof.
  intros Hr HQ. pose proof (QueueRep_element _ _ _ _ _ Hr) as Hs.
  pose proof (QueueRep_queued e _ k j Hr ltac:(set_solver)) as Hne.
  pose proof (qr_nodup _ _ _ Hr) as Hnd.
  unfold removeFromWaitingList. apply wp_bind, wp_gets.
  destruct (orEmpty (GetStorage (wk k) e)) as [|b bs] eqn:Hb; [done|]. cbn [length Nat.eqb].
  apply wp_bind, wp_erase. intros e0 Hf Hnil Hh.
  assert (erased e k e0) as He by (by split).
  unfold stored in Hs. rewrite Hb in Hs.
  erewrite (unmarshal_marshal _ _ _ I Hs).
  specialize (HQ e0 He). apply wp_bind, wp_ret. apply wp_bind.
  (* the head is untouched by the erasure *)
  assert (wp getWaitingListHead (λ o s', o = Ret (headOf (q1 ++ k :: q2) j) ∧ s' = e0) e0)
    as Hhead.
  { pose proof (headOf_range _ _ _ Hr) as Hrange. pose proof (qr_head _ _ _ Hr) as Hh0.
    unfold getWaitingListHead. apply wp_bind, wp_gets.
    rewrite Hf; [|auto with go].
    assert (stored e waitingListHeadKey (headOf (q1 ++ k :: q2) j)) as Hh1
      by (by destruct q1). unfold stored in Hh1.
    destruct (orEmpty (GetStorage waitingListHeadKey e)) as [|b' bs'] eqn:Hb'.
    - apply marshal_nil in Hh1; [|done]. by destruct q1.
    - by erewrite (unmarshal_marshal _ _ _ Hrange Hh1). }
  eapply wp_mono; [exact Hhead|]. intros o s' [-> ->].
  cbv zeta. cbn [Length headOf withLength FirstKey].
  pose proof (qr_length _ _ _ Hr) as Hl. rewrite length_app /= in Hl.
  assert (Z.of_nat (length (q1 ++ k :: q2)) = Z.of_nat (length (q1 ++ q2)) + 1)%Z as Hlen
    by (rewrite !length_app /=; lia).
  rewrite Hlen.
  rewrite (proj2 (Z.eqb_neq _ 0)); [|lia].
  replace (u32 (Z.of_nat (length (q1 ++ q2)) + 1 - 1)) with (Z.of_nat (length (q1 ++ q2)))
    by (unfold u32; rewrite Z.mod_small; rewrite !length_app; lia).
  rewrite HfirstFix /=.
  unfold wp, bind, ret in HQ. cbv zeta in HQ. cbn [Length headOf withLength FirstKey] in HQ.
  exact HQ.
Qed.

(** [removeFromWaitingList] implements [removeQ]. *)
Lemma wp_removeFromWaitingList e q j k Q :
  QueueRep e q j → validKey k →
  (∀ e', QueueRep e' (removeQ k q j).1 (removeQ k q j).2 → queueOnly e e' → Q (Ret tt) e') →
  wp (removeFromWaitingList k) Q e.
Proof.
  intros Hr Hk HQ. destruct (decide (k ∈ q)) as [Hin|Hin].
  2: { rewrite removeQ_notin // in HQ. unfold removeFromWaitingList.
       apply wp_bind, wp_gets. rewrite (qr_absent _ _ _ Hr) //. simpl.
       apply HQ; [done|apply queueOnly_refl]. }
  apply list_elem_of_split in Hin as (q1 & q2 & ->).
  pose proof (qr_nodup _ _ _ Hr) as Hnd. rewrite removeQ_split // /= in HQ.
  apply (wp_takeElement _ _ _ _ _ _ Hr). intros e0 He.
  apply wp_bind, wp_ret, wp_bind, wp_ret. cbv zeta. cbn [Length withLength FirstKey headOf].
  destruct q1 as [|f q1]; [destruct q2 as [|f q2]|]; cbn [app hdKey length] in *.
  - apply wp_erase. intros e1 Hf Hnil Hh. apply HQ.
    + assert ((if 0 <? j then pred j else j) = 0) as ->.
      { pose proof (qr_prefix _ _ _ Hr) as Hp. simpl in Hp. by destruct j as [|[|]]; [..|lia]. }
      split; [by rewrite Hnil|done| |constructor|constructor|simpl; lia|simpl; lia].
      intros x Hx _. rewrite Hf; [|auto with go]. destruct (decide (x = k)) as [->|Hxk].
      * by rewrite (erased_nil _ _ _ He).
      * rewrite (erased_frame _ _ _ He); [|auto with go]. apply (qr_absent _ _ _ Hr); set_solver.
    + apply (queueOnly_trans _ e0); [by apply (erased_queueOnly _ k)|].
      split; [|done]. intros key Hkey. apply Hf. intros ->. auto with go.
  - rewrite (proj2 (Z.eqb_neq _ 0)); [|lia]. rewrite bool_decide_true //.
    eapply (wp_removeFirst e e0 k f q2 j); [done|done|].
    intros e' Hr' Ho. apply HQ; [|done]. by destruct j.
  - rewrite (proj2 (Z.eqb_neq _ 0)); [|lia].
    rewrite bool_decide_false.
    2: { intros <-%wk_inj. apply NoDup_cons in Hnd. set_solver. }
    destruct (exists_last (l := f :: q1)) as (q1' & l & Hq); [done|].
    assert (f :: q1 ++ k :: q2 = q1' ++ l :: k :: q2) as Hqs.
    { change (f :: q1 ++ k :: q2) with ((f :: q1) ++ k :: q2). rewrite Hq. by rewrite -app_assoc. }
    assert (f :: q1 ++ q2 = q1' ++ l :: q2) as Hqs'.
    { change (f :: q1 ++ q2) with ((f :: q1) ++ q2). rewrite Hq. by rewrite -app_assoc. }
    assert (S (length q1) = S (length q1')) as Hlq.
    { change (S (length q1)) with (length (f :: q1)). rewrite Hq length_app /=. lia. }
    rewrite Hqs in Hr. rewrite Hqs' Hlq in HQ.
    assert (lastKeyOf (wk f) (f :: q1) = wk l) as -> by (by rewrite Hq lastKeyOf_snoc).
    replace (S (length (q1 ++ q2))) with (length (q1' ++ l :: q2))
      by (rewrite -Hqs'; done).
    rewrite Hqs. by apply (wp_removeInner e).
Qed.
End removal.
