(* ===== verification/QueueWalk.v ===== *)
(** * QueueWalk: the traversals of the queue

    The loops that follow the [NextKey] links, from a state that represents a
    queue: they end, read the whole queue in order and leave the state as it
    is.  They copy each key into a buffer of the first key's length, which is
    the identity on keys of one length. *)
From S2P Require Import Prelude SystemEI StakingData StakingNodes WaitingList.
From S2P Require Import StakingQueue QueueSpec.
#[local] Open Scope go_scope.

(** membership with a property *)
Lemma list_member_cons {A} (P : A → Prop) x l :
  (∃ y, y ∈ x :: l ∧ P y) ↔ P x ∨ ∃ y, y ∈ l ∧ P y.
Proof.
  split.
  - intros (y & Hy & HP). apply elem_of_cons in Hy as [->|Hy]; eauto.
  - intros [HP|(y & Hy & HP)]; eexists; (split; [|done]); [left|by right].
Qed.
Lemma list_member_nil {A} (P : A → Prop) : (∃ y, y ∈ [] ∧ P y) ↔ False.
Proof. split; [|done]. by intros (y & ?%elem_of_nil & _). Qed.

Section walk.
Context {E : Type} {EI : SystemEI E} {EIL : SystemEILaws E} {SCP : StakingContract}.
Context {MLe : MarshallerLaws ElementInList (λ _, True) zeroElement}.
Context {MLh : MarshallerLaws WaitingList headInRange emptyWaitingList}.

Lemma getElement_eq e key k p n :
  stored e key (mkElement k p n) → p ≠ [] →
  getWaitingListElement key e = (Ret (mkElement k p n), e).
Proof. intros Hs Hp. apply wp_run. by eapply wp_getElement. Qed.

Lemma getHead_eq e q j : QueueRep e q j → getWaitingListHead e = (Ret (headOf q j), e).
Proof. intros Hr. apply wp_run. by eapply wp_getHead. Qed.

Lemma queued_element e q1 k q2 j :
  QueueRep e (q1 ++ k :: q2) j →
  getWaitingListElement (wk k) e =
    (Ret (mkElement k (lastKeyOf (hdKey (q1 ++ k :: q2) []) q1) (hdKey q2 [])), e).
Proof.
  intros Hr. apply getElement_eq; [by eapply QueueRep_element|apply prev_not_nil].
Qed.

Lemma absent_element e q j k :
  QueueRep e q j → validKey k → k ∉ q →
  getWaitingListElement (wk k) e = (Throw ErrElementNotFound, e).
Proof.
  intros Hr Hk Hq. unfold getWaitingListElement, bind, gets.
  by rewrite (qr_absent _ _ _ Hr).
Qed.

(** the buffer copy of the loops *)
Lemma goCopy_queue k q1 f q2 e j :
  QueueRep e (q1 ++ k :: f :: q2) j → goCopy (wk k) (hdKey (f :: q2) []) = wk f.
Proof.
  intros Hr. apply goCopy_same. cbn [hdKey]. rewrite !length_wk.
  assert (validKey k ∧ validKey f) as [Hk Hf]; [|by rewrite Hk Hf].
  split; (eapply QueueRep_valid; [done|set_solver]).
Qed.

Definition walkIndex (q1 : list bytes) : Z := (Z.of_nat (length q1) + 1)%Z.

Lemma walkIndex_next e q1 k q2 j :
  QueueRep e (q1 ++ k :: q2) j → q2 ≠ [] → u32 (walkIndex q1 + 1) = walkIndex (q1 ++ [k]).
Proof.
  intros Hr Hq. pose proof (qr_length _ _ _ Hr) as Hl.
  rewrite length_app /= in Hl. unfold u32, walkIndex. rewrite length_app /=.
  destruct q2; [done|]. simpl in Hl. rewrite Z.mod_small; lia.
Qed.

Lemma walk_guard e q1 k q2 j :
  QueueRep e (q1 ++ k :: q2) j →
  negb (length (wk k) =? 0) && (walkIndex q1 <=? Length (headOf (q1 ++ k :: q2) j))%Z = true.
Proof.
  intros Hr. rewrite length_wk. simpl. apply Z.leb_le.
  unfold walkIndex. rewrite length_app /=. lia.
Qed.

(** ** getWaitingListIndex *)
Lemma waitingListIndexLoop_eq e j k q3 q2 q1 fuel :
  QueueRep e (q1 ++ q2 ++ k :: q3) j → length q2 < fuel →
  waitingListIndexLoop fuel (headOf (q1 ++ q2 ++ k :: q3) j) (wk k)
    (hdKey (q2 ++ k :: q3) []) (walkIndex q1) e = (Ret (Some (walkIndex (q1 ++ q2))), e).
Proof.
  revert q1 fuel. induction q2 as [|x q2 IH]; intros q1 fuel Hr Hf;
    (destruct fuel as [|fuel]; [lia|]); cbn [app] in Hr; cbn [waitingListIndexLoop app hdKey].
  - rewrite (walk_guard _ _ _ _ _ Hr) bool_decide_true // app_nil_r. done.
  - rewrite (walk_guard _ _ _ _ _ Hr). rewrite bool_decide_false.
    2: { intros ->%wk_inj. pose proof (qr_nodup _ _ _ Hr) as Hnd.
         apply NoDup_app in Hnd as (_ & _ & Hnd). apply NoDup_cons in Hnd. set_solver. }
    erewrite bind_Ret; [|by eapply queued_element]. cbn [NextKey].
    destruct (q2 ++ k :: q3) as [|f t] eqn:Ht; [by destruct q2|].
    replace (length (hdKey (f :: t) []) =? 0) with false by done.
    rewrite (goCopy_queue _ _ _ _ _ _ Hr) (walkIndex_next _ _ _ _ _ Hr) //.
    rewrite (cons_middle_app q1 x) in Hr |- *. rewrite (cons_middle_app q1 x q2).
    apply (IH (q1 ++ [x])); [done|]. simpl in Hf. lia.
Qed.

Context (areg : bytes → StakedDataV2_0).
Definition readable (e : E) (q : list bytes) : Prop :=
  ∀ k, k ∈ q → getOrCreateRegisteredData k e = (Ret (areg k), e).

(** ** fixWaitingListQueueSize *)
Lemma fixQueueLoop_eq e j q2 q1 k fuel found :
  QueueRep e (q1 ++ q2 ++ [k]) j → readable e (q2 ++ [k]) → length q2 < fuel →
  ∃ b, fixQueueLoop fuel (headOf (q1 ++ q2 ++ [k]) j) (hdKey (q2 ++ [k]) []) (walkIndex q1)
         found e = (Ret (walkIndex (q1 ++ q2), wk k, b), e)
       ∧ (b = true ↔ found = true
            ∨ ∃ x, x ∈ q2 ++ [k] ∧ LastJailedKey (headOf (q1 ++ q2 ++ [k]) j) = wk x).
Proof.
  revert q1 fuel found. induction q2 as [|x q2 IH]; intros q1 fuel found Hr Ha Hf;
    (destruct fuel as [|fuel]; [lia|]); cbn [app] in Hr, Ha; cbn [fixQueueLoop app hdKey].
  - rewrite (walk_guard _ _ _ _ _ Hr).
    erewrite bind_Ret; [|by eapply queued_element]. cbn [NextKey BLSPublicKey hdKey length Nat.eqb].
    erewrite bind_Ret; [|apply Ha; set_solver]. rewrite app_nil_r. eexists. split; [done|].
    rewrite orb_true_iff bool_decide_eq_true. cbn [app].
    rewrite list_member_cons list_member_nil. tauto.
  - rewrite (walk_guard _ _ _ _ _ Hr).
    erewrite bind_Ret; [|by eapply queued_element]. cbn [NextKey BLSPublicKey].
    erewrite bind_Ret; [|apply Ha; set_solver].
    destruct (q2 ++ [k]) as [|f t] eqn:Ht; [by destruct q2|].
    replace (length (hdKey (f :: t) []) =? 0) with false by done.
    rewrite (goCopy_queue _ _ _ _ _ _ Hr) (walkIndex_next _ _ _ _ _ Hr) //.
    rewrite (cons_middle_app q1 x) in Hr |- *. rewrite (cons_middle_app q1 x q2).
    edestruct (IH (q1 ++ [x]) fuel
                 (found || bool_decide (LastJailedKey (headOf ((q1 ++ [x]) ++ f :: t) j) = wk x)))
      as (b & He & Hb); [done|intros y Hy; apply Ha; set_solver|simpl in Hf; lia|].
    exists b. split; [exact He|]. rewrite Hb orb_true_iff bool_decide_eq_true.
    rewrite (list_member_cons _ x). tauto.
Qed.

(** ** getFirstElementsFromWaitingList *)
Lemma firstElementsLoop_eq e j n q2 q1 fuel acc :
  QueueRep e (q1 ++ q2) j → readable e q2 → (0 ≤ n < 2 ^ 32)%Z → length q2 < fuel →
  ∃ r, firstElementsLoop fuel (headOf (q1 ++ q2) j) n (hdKey q2 []) (walkIndex q1) acc e
         = (Ret r, e)
       ∧ blsKeys r = blsKeys acc ++ take (Z.to_nat n - length q1) q2
       ∧ stakedDataList r = stakedDataList acc ++ map areg (take (Z.to_nat n - length q1) q2).
Proof.
  intros Hr Ha Hn. revert q1 fuel acc Hr Ha.
  induction q2 as [|k q2 IH]; intros q1 fuel acc Hr Ha Hf; (destruct fuel as [|fuel]; [lia|]).
  { eexists. split; [reflexivity|]. rewrite take_nil /= !app_nil_r. done. }
  cbn [firstElementsLoop hdKey]. rewrite (walk_guard _ _ _ _ _ Hr) andb_true_l.
  destruct (Z.leb_spec (walkIndex q1) n) as [Hle|Hgt]; unfold walkIndex in *.
  2: { eexists. split; [reflexivity|].
       replace (Z.to_nat n - length q1) with 0 by lia. by rewrite /= !app_nil_r. }
  erewrite bind_Ret; [|by eapply queued_element].
  erewrite bind_Ret; [|apply Ha; set_solver]. cbn [NextKey BLSPublicKey].
  replace (Z.to_nat n - length q1) with (S (Z.to_nat n - length (q1 ++ [k])))
    by (rewrite length_app /=; lia). cbn [take map].
  destruct q2 as [|f q2].
  { eexists. split; [reflexivity|]. by rewrite /= !take_nil. }
  replace (length (hdKey (f :: q2) []) =? 0) with false by done.
  rewrite (goCopy_queue _ _ _ _ _ _ Hr).
  rewrite (walkIndex_next _ _ _ _ _ Hr) //. rewrite (cons_middle_app q1) in Hr |- *.
  edestruct (IH (q1 ++ [k]) fuel) as (r & He & Hk & Hd);
    [exact Hr|intros x Hx; apply Ha; set_solver|simpl in *; lia|].
  cbn [hdKey] in He. unfold walkIndex in He. exists r. split; [exact He|]. rewrite Hk Hd. cbn [blsKeys stakedDataList]. by rewrite -!app_assoc.
Qed.

Lemma getFirstElements_eq e q j n :
  QueueRep e q j → readable e q → (0 ≤ n < 2 ^ 32)%Z →
  ∃ r, getFirstElementsFromWaitingList n e = (Ret r, e)
       ∧ blsKeys r = take (Z.to_nat n) q
       ∧ stakedDataList r = map areg (take (Z.to_nat n) q).
Proof.
  intros Hr Ha Hn. unfold getFirstElementsFromWaitingList.
  erewrite bind_Ret; [|by eapply getHead_eq]. destruct q as [|k q].
  { eexists. split; [reflexivity|]. by rewrite take_nil. }
  destruct (firstElementsLoop_eq e j n (k :: q) [] (S (Z.to_nat (Length (headOf (k :: q) j))))
              noElements Hr Ha Hn) as (r & He & Hk & Hd); [simpl; lia|].
  rewrite Nat.sub_0_r in Hk, Hd. exists r. done.
Qed.
End walk.
