(* ===== verification/StakingSpec.v ===== *)
(** * StakingSpec: the abstract state of the staking contract

    [Rep e s] says that the storage of [e] holds the abstract state [s]: the
    registration of every BLS key, the node counters and the queue.  The
    lemmas give the effect of the storage operations of staking.go and
    stakingWaitingList.go on the abstract state; the handlers are verified
    against them and never look at the storage again. *)
From stdpp Require Import functions.
From S2P Require Import Prelude SystemEI StakingData StakingNodes WaitingList.
From S2P Require Import StakingQueue QueueSpec QueueWalk.
#[local] Open Scope go_scope.

Definition isU64 (z : Z) : Prop := (0 ≤ z < 2 ^ 64)%Z.
Definition isU32 (z : Z) : Prop := (0 ≤ z < 2 ^ 32)%Z.
Definition isI64 (z : Z) : Prop := (- 2 ^ 63 ≤ z < 2 ^ 63)%Z.

Record stakedInRange (d : StakedDataV2_0) : Prop := {
  sd_RegisterNonce : isU64 (RegisterNonce d);
  sd_StakedNonce : isU64 (StakedNonce d);
  sd_UnStakedNonce : isU64 (UnStakedNonce d);
  sd_UnStakedEpoch : isU32 (UnStakedEpoch d);
  sd_JailedRound : isU64 (JailedRound d);
  sd_JailedNonce : isU64 (JailedNonce d);
  sd_UnJailedNonce : isU64 (UnJailedNonce d);
  sd_NumJailed : isU32 (NumJailed d);
}.
Definition zeroStakedData : StakedDataV2_0 :=
  mkStakedData 0 0 false 0 0 [] None 0 0 0 false false 0 None [].

Record configInRange (c : StakingNodesConfig) : Prop := {
  sc_Min : isI64 (MinNumNodes c);
  sc_Max : isI64 (MaxNumNodes c);
  sc_Staked : isI64 (StakedNodes c);
  sc_Jailed : isI64 (JailedNodes c);
}.
Definition zeroConfig : StakingNodesConfig := mkConfig 0 0 0 0.

(** a registration the contract can store: its big integers are not nil *)
Record dataOk (d : StakedDataV2_0) : Prop := {
  do_range : stakedInRange d;
  do_stake : StakeValue d ≠ None;
  do_slash : SlashValue d ≠ None;
}.
(** The all-zero configuration would be written as no bytes and read back as
    the configuration of the genesis. *)
Record configOk (c : StakingNodesConfig) : Prop := {
  co_range : configInRange c;
  co_max : (0 < MaxNumNodes c)%Z;
}.
Record hookInRange (h : BlockchainHook) : Prop := {
  hr_nonce : isU64 (CurrentNonce h);
  hr_round : isU64 (CurrentRound h);
  hr_epoch : isU32 (CurrentEpoch h);
}.

Lemma i64_range z : isI64 (i64 z).
Proof. unfold isI64, i64. pose proof (Z.mod_pos_bound (z + 2 ^ 63) (2 ^ 64)). lia. Qed.
Lemma i64_small z : isI64 z → i64 z = z.
Proof. unfold isI64, i64. intros. rewrite Z.mod_small; lia. Qed.
Lemma u32_range z : isU32 (u32 z).
Proof. apply Z.mod_pos_bound. lia. Qed.
#[export] Hint Resolve i64_range u32_range : go.

(** ** The abstract state *)
Record State : Type := mkState {
  regOf : bytes → StakedDataV2_0;
  cfgOf : StakingNodesConfig;
  queueOf : list bytes;
  prefixOf : nat;
}.
Definition setReg (k : bytes) (d : StakedDataV2_0) (s : State) : State :=
  mkState (<[k := d]> (regOf s)) (cfgOf s) (queueOf s) (prefixOf s).
Definition setCfg (c : StakingNodesConfig) (s : State) : State :=
  mkState (regOf s) c (queueOf s) (prefixOf s).
Definition setQueue (qj : list bytes * nat) (s : State) : State :=
  mkState (regOf s) (cfgOf s) qj.1 qj.2.

Lemma validKey_not_queue k : validKey k → ¬ isQueueKey k.
Proof.
  unfold validKey. intros Hk [->|(k' & Hk' & ->)]; [done|].
  rewrite length_wk in Hk. unfold validKey in Hk'. lia.
Qed.
Lemma nodesConfigKey_not_queue : ¬ isQueueKey nodesConfigKey.
Proof. by intros [?|(k & Hk & ?)]. Qed.
Lemma ownerKey_not_queue : ¬ isQueueKey ownerKey.
Proof. by intros [?|(k & Hk & ?)]. Qed.
#[export] Hint Resolve validKey_not_queue nodesConfigKey_not_queue ownerKey_not_queue : go.

Section spec.
Context {E : Type} {EI : SystemEI E} {EIL : SystemEILaws E} {SCP : StakingContract}.
Context {MLe : MarshallerLaws ElementInList (λ _, True) zeroElement}.
Context {MLh : MarshallerLaws WaitingList headInRange emptyWaitingList}.
Context {MLd : MarshallerLaws StakedDataV2_0 stakedInRange zeroStakedData}.
Context {MLc : MarshallerLaws StakingNodesConfig configInRange zeroConfig}.
Context (h : BlockchainHook).

Record Rep (e : E) (s : State) : Prop := {
  rep_reg k : validKey k → getOrCreateRegisteredData k e = (Ret (regOf s k), e);
  rep_data k : validKey k → dataOk (regOf s k);
  rep_cfg : getConfig e = cfgOf s;
  rep_cfgOk : configOk (cfgOf s);
  rep_queue : QueueRep e (queueOf s) (prefixOf s);
  rep_owner : GetStorage ownerKey e ≠ None;
  rep_hook : hookOf e = h;
}.

(** the same without the queue, for the one handler that takes it apart *)
Record RepBase (e : E) (s : State) : Prop := {
  rb_reg k : validKey k → getOrCreateRegisteredData k e = (Ret (regOf s k), e);
  rb_data k : validKey k → dataOk (regOf s k);
  rb_cfg : getConfig e = cfgOf s;
  rb_cfgOk : configOk (cfgOf s);
  rb_owner : GetStorage ownerKey e ≠ None;
  rb_hook : hookOf e = h;
}.
Lemma Rep_base e s : Rep e s → RepBase e s.
Proof. intros []. by split. Qed.
Lemma Rep_of_base e s : RepBase e s → QueueRep e (queueOf s) (prefixOf s) → Rep e s.
Proof. intros [] ?. by split. Qed.

Lemma getReg_frame k e e' d :
  GetStorage k e' = GetStorage k e →
  getOrCreateRegisteredData k e = (Ret d, e) → getOrCreateRegisteredData k e' = (Ret d, e').
Proof.
  intros Hf. unfold getOrCreateRegisteredData, bind, gets, ret, fromSum, throw. rewrite Hf.
  destruct (orEmpty _); [by intros [= <-]|]. destruct (Unmarshal _ _); [done|].
  by intros [= <-].
Qed.
Lemma getConfig_frame e e' :
  GetStorage nodesConfigKey e' = GetStorage nodesConfigKey e → getConfig e' = getConfig e.
Proof. unfold getConfig. by intros ->. Qed.

Lemma Rep_frame e e' s :
  (∀ k, GetStorage k e' = GetStorage k e) → hookOf e' = hookOf e → Rep e s → Rep e' s.
Proof.
  intros Hf Hh [Hr Hd Hc Hco Hq Ho Hk]. split; try done.
  - intros k Hk'. eapply getReg_frame; [apply Hf|by apply Hr].
  - rewrite (getConfig_frame e) //.
  - eapply QueueRep_frame; [|exact Hq]. intros; apply Hf.
  - by rewrite Hf.
  - by rewrite Hh.
Qed.

(** *** Queue operations *)
Lemma Rep_queueOnly e e' s qj :
  queueOnly e e' → QueueRep e' qj.1 qj.2 → Rep e s → Rep e' (setQueue qj s).
Proof.
  intros [Hf Hh] Hq' [Hr Hd Hc Hco Hq Ho Hk]. split; try done; simpl.
  - intros k Hk'. eapply getReg_frame; [apply Hf; auto with go|by apply Hr].
  - rewrite (getConfig_frame e) //. auto with go.
  - rewrite Hf //. auto with go.
  - by rewrite Hh.
Qed.

Lemma Rep_add e s k jailed Q :
  IsFlagEnabled CorrectFirstQueuedFlag = true →
  Rep e s → validKey k → (Z.of_nat (length (queueOf s)) + 1 < 2 ^ 32)%Z →
  (∀ e', Rep e' (setQueue (addQ k jailed (queueOf s) (prefixOf s)) s) → Q (Ret tt) e') →
  wp (addToWaitingList k jailed) Q e.
Proof.
  intros Hfix HR Hk Hl HQ.
  eapply wp_addToWaitingList; [done|apply (rep_queue _ _ HR)|done|done|].
  intros e' Hq Ho. apply HQ. by eapply Rep_queueOnly.
Qed.

Lemma Rep_remove e s k Q :
  IsFlagEnabled CorrectFirstQueuedFlag = true →
  IsFlagEnabled CorrectLastUnJailedFlag = true →
  Rep e s → validKey k →
  (∀ e', Rep e' (setQueue (removeQ k (queueOf s) (prefixOf s)) s) → Q (Ret tt) e') →
  wp (removeFromWaitingList k) Q e.
Proof.
  intros Hfix Hfix' HR Hk HQ.
  eapply wp_removeFromWaitingList; [done|done|apply (rep_queue _ _ HR)|done|].
  intros e' Hq Ho. apply HQ. by eapply Rep_queueOnly.
Qed.

(** *** Registrations *)
Lemma Rep_get e s k Q :
  Rep e s → validKey k → Q (Ret (regOf s k)) e → wp (getOrCreateRegisteredData k) Q e.
Proof. intros HR Hk HQ. eapply wp_eq; [by apply (rep_reg _ _ HR)|done]. Qed.

Lemma RepBase_writeKey e e' s k d :
  RepBase e s → validKey k → dataOk d → getOrCreateRegisteredData k e' = (Ret d, e') →
  (∀ key, key ≠ k → GetStorage key e' = GetStorage key e) → hookOf e' = hookOf e →
  RepBase e' (setReg k d s).
Proof.
  intros [Hr Hd Hc Hco Ho Hk] Hk' Hok Hget Hf Hh.
  assert (∀ x, length x ≠ 96 → GetStorage x e' = GetStorage x e) as Hlen
    by (intros x Hx; apply Hf; by intros ->).
  split; simpl; try done.
  - intros x Hx. destruct (decide (x = k)) as [->|Hne].
    + by rewrite fn_lookup_insert.
    + rewrite fn_lookup_insert_ne //. eapply getReg_frame; [by apply Hf|by apply Hr].
  - intros x Hx. destruct (decide (x = k)) as [->|Hne].
    + by rewrite fn_lookup_insert.
    + rewrite fn_lookup_insert_ne //. by apply Hd.
  - rewrite (getConfig_frame e) //. by apply Hlen.
  - rewrite Hlen //.
  - by rewrite Hh.
Qed.

Lemma Rep_writeKey e e' s k d :
  Rep e s → validKey k → dataOk d → getOrCreateRegisteredData k e' = (Ret d, e') →
  (∀ key, key ≠ k → GetStorage key e' = GetStorage key e) → hookOf e' = hookOf e →
  Rep e' (setReg k d s).
Proof.
  intros HR Hk Hok Hget Hf Hh. apply Rep_of_base.
  - eapply RepBase_writeKey; [apply Rep_base, HR|done..].
  - eapply QueueRep_frame; [|apply (rep_queue _ _ HR)]. intros key Hkey. apply Hf. intros ->.
    by eapply validKey_not_queue.
Qed.

Lemma getReg_stored e k d :
  dataOk d → stored e k d → getOrCreateRegisteredData k e = (Ret d, e).
Proof.
  intros [Hr _ Hsl] Hs. unfold stored in Hs.
  unfold getOrCreateRegisteredData, bind, gets, ret.
  destruct (orEmpty (GetStorage k e)) as [|b bs] eqn:Hb.
  - apply marshal_nil in Hs; [|done]. by subst.
  - erewrite (unmarshal_marshal _ _ _ Hr Hs). simpl. unfold ret, fixSlashValue.
    by destruct (SlashValue d).
Qed.

Lemma RepBase_save e s k d Q :
  IsFlagEnabled StakeFlag = true → IsFlagEnabled StakingV2Flag = true →
  RepBase e s → validKey k → dataOk d →
  (∀ e', RepBase e' (setReg k d s) → (∀ key, key ≠ k → GetStorage key e' = GetStorage key e) →
         Q (Ret tt) e') →
  wp (saveStakingData k d) Q e.
Proof.
  intros Hf1 Hf2 HR Hk Hd HQ. unfold saveStakingData. rewrite Hf1 Hf2 /=.
  apply wp_save; [apply Hd|]. intros e' [Hs Hf Hh]. apply HQ; [|done].
  eapply RepBase_writeKey; try done. by apply getReg_stored.
Qed.

Lemma Rep_save e s k d Q :
  IsFlagEnabled StakeFlag = true → IsFlagEnabled StakingV2Flag = true →
  Rep e s → validKey k → dataOk d →
  (∀ e', Rep e' (setReg k d s) → Q (Ret tt) e') →
  wp (saveStakingData k d) Q e.
Proof.
  intros Hf1 Hf2 HR Hk Hd HQ. unfold saveStakingData. rewrite Hf1 Hf2 /=.
  apply wp_save; [apply Hd|]. intros e' [Hs Hf Hh]. apply HQ.
  eapply Rep_writeKey; try done. by apply getReg_stored.
Qed.

Lemma emptyRegistration_ok : dataOk emptyRegistration.
Proof.
  split; [|done..]. split; unfold isU64, isU32; simpl; unfold DefaultUnstakedEpoch, maxUint32, maxUint64; lia.
Qed.

Lemma Rep_erase e s k Q :
  Rep e s → validKey k →
  (∀ e', Rep e' (setReg k emptyRegistration s) → Q (Ret tt) e') →
  wp (setStorage k [] : M E ReturnCode unit) Q e.
Proof.
  intros HR Hk HQ. apply wp_erase. intros e' Hf Hn Hh. apply HQ.
  eapply Rep_writeKey; [exact HR|done|apply emptyRegistration_ok| |exact Hf|exact Hh].
  unfold getOrCreateRegisteredData, bind, gets, ret. by rewrite Hn.
Qed.

(** *** Counters *)
Lemma Rep_setConfig {X} e s c Q :
  Rep e s → configOk c → (∀ e', Rep e' (setCfg c s) → Q (Ret tt) e') →
  wp (X:=X) (modify (setConfig c)) Q e.
Proof.
  intros HR Hc HQ. apply wp_modify, HQ. clear HQ.
  destruct (marshal_total c) as [b Hb]; [apply Hc|].
  unfold setConfig. rewrite Hb.
  destruct HR as [Hr Hd Hcf Hco Hq Ho Hk].
  assert (∀ x, x ≠ nodesConfigKey → GetStorage x (SetStorage nodesConfigKey b e) = GetStorage x e)
    as Hf by (intros x Hx; by apply get_set_ne).
  split; simpl; try done.
  - intros k Hk'. eapply getReg_frame; [apply Hf; by intros ->|by apply Hr].
  - unfold getConfig. rewrite get_set_eq /=. destruct b as [|x b].
    + apply marshal_nil in Hb; [|apply Hc]. subst c. destruct Hc as [_ Hm]. done.
    + by erewrite (unmarshal_marshal _ _ _ (co_range _ Hc) Hb).
  - eapply QueueRep_frame; [|done]. intros key Hkey. apply Hf. intros ->.
    by apply nodesConfigKey_not_queue.
  - by rewrite Hf.
  - by rewrite hook_set.
Qed.

Lemma configOk_staked c v : configOk c → configOk (withStakedNodes (i64 v) c).
Proof. intros [[]]. destruct c. split; [split|]; simpl in *; auto with go. Qed.
Lemma configOk_jailed c v : configOk c → configOk (withJailedNodes (i64 v) c).
Proof. intros [[]]. destruct c. split; [split|]; simpl in *; auto with go. Qed.

Lemma Rep_addToStakedNodes {X} e s v Q :
  Rep e s →
  (∀ e', Rep e' (setCfg (withStakedNodes (i64 (StakedNodes (cfgOf s) + v)) (cfgOf s)) s) →
         Q (Ret tt) e') →
  wp (X:=X) (addToStakedNodes v) Q e.
Proof.
  intros HR HQ. pose proof (rep_cfgOk _ _ HR) as Hc.
  unfold addToStakedNodes, wp, modify; simpl. rewrite (rep_cfg _ _ HR).
  exact (Rep_setConfig (X:=X) e s _ Q HR (configOk_staked _ _ Hc) HQ).
Qed.

Definition oneLessStaked (c : StakingNodesConfig) : StakingNodesConfig :=
  if (0 <? StakedNodes c)%Z then withStakedNodes (i64 (StakedNodes c - 1)) c else c.

Lemma Rep_removeFromStakedNodes {X} e s Q :
  Rep e s → (∀ e', Rep e' (setCfg (oneLessStaked (cfgOf s)) s) → Q (Ret tt) e') →
  wp (X:=X) removeFromStakedNodes Q e.
Proof.
  intros HR HQ. pose proof (rep_cfgOk _ _ HR) as Hc.
  unfold removeFromStakedNodes, wp, modify; simpl. rewrite (rep_cfg _ _ HR).
  apply (Rep_setConfig (X:=X) e s _ Q HR); [|exact HQ].
  destruct (_ <? _)%Z; [by apply configOk_staked|done].
Qed.

(** *** Messages, results and gas *)
Lemma Rep_message {X} e s m Q :
  Rep e s → (∀ e', Rep e' s → Q (Ret tt) e') → wp (X:=X) (addReturnMessage m) Q e.
Proof.
  intros HR HQ. apply wp_modify, HQ. eapply Rep_frame; [..|done]; intros; by autorewrite with eei.
Qed.
Lemma Rep_finish {X} e s v Q :
  Rep e s → (∀ e', Rep e' s → Q (Ret tt) e') → wp (X:=X) (finish v) Q e.
Proof.
  intros HR HQ. apply wp_modify, HQ. eapply Rep_frame; [..|done]; intros; by autorewrite with eei.
Qed.
Lemma Rep_useGas e s g m Q :
  Rep e s → (∀ e', Rep e' s → Q (Ret tt) e') → (∀ e', Q (Throw OutOfGas) e') →
  wp (useGas g m) Q e.
Proof.
  intros HR HQ HQ'. unfold useGas, wp. destruct (UseGas g e) as [e'|] eqn:Hg; simpl; [|apply HQ'].
  apply HQ. eapply Rep_frame; [..|done]; intros; [by eapply get_gas|by eapply hook_gas].
Qed.
End spec.
