(* ===== verification/StakingInvariant.v ===== *)
(** * StakingInvariant: every successful call keeps the staking state consistent

    The invariant ties the three parts of the state together: a node is marked
    waiting iff it is in the queue, no waiting node is staked, and the counter
    of staked nodes is the number of keys whose registration is staked. *)
From stdpp Require Import functions.
From S2P Require Import Prelude SystemEI StakingData StakingNodes WaitingList.
From S2P Require Import StakingQueue StakingSC QueueSpec QueueWalk StakingSpec.
#[local] Open Scope go_scope.

(** ** Counting the staked nodes *)

(** [n] is the number of keys whose registration is staked *)
Definition counted (reg : bytes → StakedDataV2_0) (n : Z) : Prop :=
  ∃ S : gset bytes,
    (∀ k, k ∈ S ↔ validKey k ∧ Staked (reg k) = true) ∧ n = Z.of_nat (size S).

Lemma counted_nonneg reg n : counted reg n → (0 ≤ n)%Z.
Proof. intros (S & _ & ->). lia. Qed.

Lemma counted_pos reg n k :
  counted reg n → validKey k → Staked (reg k) = true → (0 < n)%Z.
Proof.
  intros (S & HS & ->) Hk Hst. assert (k ∈ S) as Hin by (by apply HS).
  destruct (decide (size S = 0)) as [H0|]; [|lia].
  apply size_empty_inv in H0. set_solver.
Qed.

Lemma counted_at k reg reg' n :
  validKey k → (∀ x, x ≠ k → reg' x = reg x) → counted reg n →
  counted reg' (n + Z.b2z (Staked (reg' k)) - Z.b2z (Staked (reg k))).
Proof.
  intros Hk Hne (S & HS & ->).
  exists (if Staked (reg' k) then S ∪ {[k]} else S ∖ {[k]}). split.
  - intros x. destruct (decide (x = k)) as [->|Hx].
    + destruct (Staked (reg' k)) eqn:Hst; set_solver.
    + rewrite (Hne _ Hx) -HS. destruct (Staked (reg' k)); set_solver.
  - specialize (HS k). destruct (Staked (reg' k)), (Staked (reg k)) eqn:Hst; simpl.
    + assert (k ∈ S) by (by apply HS). replace (S ∪ {[k]}) with S by set_solver. lia.
    + assert (k ∉ S) by (intros ?%HS; naive_solver).
      rewrite size_union; [|set_solver]. rewrite size_singleton. lia.
    + assert (k ∈ S) as Hin by (by apply HS).
      rewrite size_difference; [|set_solver]. rewrite size_singleton.
      assert (size S ≠ 0) by (intros H0%size_empty_inv; set_solver). lia.
    + assert (k ∉ S) by (intros ?%HS; naive_solver). replace (S ∖ {[k]}) with S by set_solver. lia.
Qed.

Lemma counted_ext reg reg' n :
  (∀ k, validKey k → Staked (reg' k) = Staked (reg k)) → counted reg n → counted reg' n.
Proof.
  intros Heq (S & HS & ->). exists S. split; [|done]. intros k. rewrite HS.
  split; intros [Hk Hs]; (split; [done|]); by rewrite Heq in Hs |- *.
Qed.

(** ** Membership in the updated queue *)
Lemma elem_of_removeQ x k q j : x ∈ (removeQ k q j).1 ↔ x ∈ q ∧ x ≠ k.
Proof. simpl. rewrite list_elem_of_filter. tauto. Qed.
Lemma elem_of_addQ x k b q j : x ∈ (addQ k b q j).1 ↔ x = k ∨ x ∈ q.
Proof.
  unfold addQ. destruct (decide (k ∈ q)); [naive_solver|].
  destruct b; simpl; [|set_solver].
  assert (x ∈ q ↔ x ∈ take j q ∨ x ∈ drop j q) as -> by (by rewrite -elem_of_app take_drop).
  rewrite elem_of_app elem_of_cons. tauto.
Qed.
Lemma removeQ_nil k j : (removeQ k [] j).1 = [].
Proof. done. Qed.

Section invariant.
Context {E : Type} {EI : SystemEI E} {EIL : SystemEILaws E} {SCP : StakingContract}.
Context {MLe : MarshallerLaws ElementInList (λ _, True) zeroElement}.
Context {MLh : MarshallerLaws WaitingList headInRange emptyWaitingList}.
Context {MLd : MarshallerLaws StakedDataV2_0 stakedInRange zeroStakedData}.
Context {MLc : MarshallerLaws StakingNodesConfig configInRange zeroConfig}.

Record InvCore (s : State) : Prop := {
  inv_waiting k : validKey k → Waiting (regOf s k) = true ↔ k ∈ queueOf s;
  inv_exclusive k : validKey k → Waiting (regOf s k) = true → Staked (regOf s k) = false;
  inv_counted : counted (regOf s) (StakedNodes (cfgOf s));
}.
Record Inv (s : State) : Prop := {
  inv_core :> InvCore s;
  (** the queue is not used any more once staking v4 has started *)
  inv_v4 : IsFlagEnabled StakingV4StartedFlag = true → queueOf s = [];
}.

(** A change at one key keeps the invariant if the key's own flags, the queue
    and the counter agree. *)
Lemma Inv_at k s s' :
  validKey k → Inv s →
  (∀ x, x ≠ k → regOf s' x = regOf s x) →
  (∀ x, x ≠ k → x ∈ queueOf s' ↔ x ∈ queueOf s) →
  (Waiting (regOf s' k) = true ↔ k ∈ queueOf s') →
  (Waiting (regOf s' k) = true → Staked (regOf s' k) = false) →
  StakedNodes (cfgOf s') =
    (StakedNodes (cfgOf s) + Z.b2z (Staked (regOf s' k)) - Z.b2z (Staked (regOf s k)))%Z →
  (IsFlagEnabled StakingV4StartedFlag = true → queueOf s' = []) →
  Inv s'.
Proof.
  intros Hk [[Hw He Hc] _] Hreg Hq Hwk Hek Hn Hv4. split; [split|done].
  - intros x Hx. destruct (decide (x = k)) as [->|Hne]; [done|].
    rewrite Hreg // Hq //. auto.
  - intros x Hx. destruct (decide (x = k)) as [->|Hne]; [done|]. rewrite Hreg //. auto.
  - rewrite Hn. by apply counted_at.
Qed.

(** fields other than the flags *)
Lemma Inv_same k d s :
  validKey k → Inv s → Staked d = Staked (regOf s k) → Waiting d = Waiting (regOf s k) →
  Inv (setReg k d s).
Proof.
  intros Hk HI Hs Hw. apply (Inv_at k s); simpl; try done.
  - intros x Hx. by rewrite fn_lookup_insert_ne.
  - rewrite fn_lookup_insert Hw. by apply (inv_waiting _ HI).
  - rewrite fn_lookup_insert Hw Hs. by apply (inv_exclusive _ HI).
  - rewrite fn_lookup_insert Hs. lia.
  - apply (inv_v4 _ HI).
Qed.

(** a node leaves the queue, if it was there *)
Lemma Inv_leave k d s :
  validKey k → Inv s → Waiting d = false → Staked d = Staked (regOf s k) →
  Inv (setReg k d (setQueue (removeQ k (queueOf s) (prefixOf s)) s)).
Proof.
  intros Hk HI Hw Hs. apply (Inv_at k s); simpl; try done.
  - intros x Hx. by rewrite fn_lookup_insert_ne.
  - intros x Hx. rewrite (elem_of_removeQ x k _ (prefixOf s)). tauto.
  - rewrite fn_lookup_insert Hw (elem_of_removeQ k k _ (prefixOf s)). naive_solver.
  - by rewrite fn_lookup_insert Hw.
  - rewrite fn_lookup_insert Hs. lia.
  - intros Hv4. by rewrite (inv_v4 _ HI Hv4).
Qed.

(** a node enters the queue *)
Lemma Inv_enqueue k b d s :
  IsFlagEnabled StakingV4StartedFlag = false →
  validKey k → Inv s → Waiting d = true → Staked d = false → Staked (regOf s k) = false →
  Inv (setReg k d (setQueue (addQ k b (queueOf s) (prefixOf s)) s)).
Proof.
  intros Hv4 Hk HI Hw Hs Hs'. apply (Inv_at k s); simpl; try done.
  - intros x Hx. by rewrite fn_lookup_insert_ne.
  - intros x Hx. rewrite elem_of_addQ. naive_solver.
  - rewrite fn_lookup_insert Hw elem_of_addQ. naive_solver.
  - by rewrite fn_lookup_insert.
  - rewrite fn_lookup_insert Hs Hs'. lia.
  - by rewrite Hv4.
Qed.

(** a node becomes staked: it leaves the queue and is counted *)
Lemma Inv_activate k d s qj c :
  validKey k → Inv s → Waiting d = false → Staked d = true → Staked (regOf s k) = false →
  (∀ x, x ∈ qj.1 ↔ x ∈ queueOf s ∧ x ≠ k) →
  StakedNodes c = (StakedNodes (cfgOf s) + 1)%Z →
  Inv (setReg k d (setCfg c (setQueue qj s))).
Proof.
  intros Hk HI Hw Hs Hs' Hq Hc. apply (Inv_at k s); simpl; try done.
  - intros x Hx. by rewrite fn_lookup_insert_ne.
  - intros x Hx. rewrite Hq. tauto.
  - rewrite fn_lookup_insert Hw Hq. naive_solver.
  - by rewrite fn_lookup_insert Hw.
  - rewrite fn_lookup_insert Hs Hs' Hc. simpl. lia.
  - intros Hv4. destruct qj.1 as [|y l] eqn:Hl; [done|].
    assert (y ∈ queueOf s) as Hy by (apply Hq; left). rewrite (inv_v4 _ HI Hv4) in Hy.
    by apply elem_of_nil in Hy.
Qed.

(** a staked node leaves the staked nodes *)
Lemma Inv_unstake k d s :
  validKey k → Inv s → Waiting d = false → Staked d = false → Staked (regOf s k) = true →
  isI64 (StakedNodes (cfgOf s)) →
  Inv (setReg k d (setCfg (oneLessStaked (cfgOf s)) s)).
Proof.
  intros Hk HI Hw Hs Hs' Hr.
  pose proof (counted_pos _ _ _ (inv_counted _ HI) Hk Hs') as Hpos.
  assert (k ∉ queueOf s) as Hq.
  { rewrite -(inv_waiting _ HI) //. intros Hwk. by rewrite (inv_exclusive _ HI) in Hs'. }
  apply (Inv_at k s); simpl; try done.
  - intros x Hx. by rewrite fn_lookup_insert_ne.
  - rewrite fn_lookup_insert Hw. naive_solver.
  - by rewrite fn_lookup_insert Hw.
  - rewrite fn_lookup_insert Hs Hs'. unfold oneLessStaked.
    rewrite (proj2 (Z.ltb_lt _ _)) //. destruct (cfgOf s); simpl in *.
    rewrite i64_small; [simpl; lia|]. unfold isI64 in *. lia.
  - apply (inv_v4 _ HI).
Qed.

(** the registration is erased *)
Lemma Inv_erase k s :
  validKey k → Inv s → Waiting (regOf s k) = false → Staked (regOf s k) = false →
  Inv (setReg k emptyRegistration s).
Proof. intros Hk HI Hw Hs. by apply Inv_same; [..|rewrite Hs|rewrite Hw]. Qed.

Lemma Inv_setCfg c s : StakedNodes c = StakedNodes (cfgOf s) → Inv s → Inv (setCfg c s).
Proof. intros Hc [[Hw He Hn] Hv]. split; [split|]; simpl; try done. by rewrite Hc. Qed.
End invariant.
