(* ===== verification/StakingHandlers.v ===== *)
(** * StakingHandlers: the handlers of the staking contract keep the invariant

    One lemma per handler of staking.go and stakingWaitingList.go, in the form
    of a weakest precondition: from a consistent state the handler does not
    panic, and if it answers [Ok] it leaves a consistent state.  The property
    of the whole contract is in [StakingTheorems.v]. *)
From stdpp Require Import functions.
From S2P Require Import Prelude SystemEI StakingData StakingNodes WaitingList.
From S2P Require Import StakingQueue StakingSC QueueSpec QueueWalk StakingSpec.
From S2P Require Import StakingInvariant.
#[local] Open Scope go_scope.

(** ** Field updates keep a registration storable *)
Create HintDb data discriminated.
Ltac data_ok :=
  intros [[] ? ?] **;
  match goal with d : StakedDataV2_0 |- _ => destruct d end;
  (split; [split|..]); simpl in *; try assumption; try congruence; try done.

Lemma dataOk_RegisterNonce v d : dataOk d → isU64 v → dataOk (withRegisterNonce v d).
Proof. data_ok. Qed.
Lemma dataOk_StakedNonce v d : dataOk d → isU64 v → dataOk (withStakedNonce v d).
Proof. data_ok. Qed.
Lemma dataOk_Staked v d : dataOk d → dataOk (withStaked v d).
Proof. data_ok. Qed.
Lemma dataOk_UnStakedNonce v d : dataOk d → isU64 v → dataOk (withUnStakedNonce v d).
Proof. data_ok. Qed.
Lemma dataOk_UnStakedEpoch v d : dataOk d → isU32 v → dataOk (withUnStakedEpoch v d).
Proof. data_ok. Qed.
Lemma dataOk_RewardAddress v d : dataOk d → dataOk (withRewardAddress v d).
Proof. data_ok. Qed.
Lemma dataOk_StakeValue v d : dataOk d → dataOk (withStakeValue (Some v) d).
Proof. data_ok. Qed.
Lemma dataOk_JailedRound v d : dataOk d → isU64 v → dataOk (withJailedRound v d).
Proof. data_ok. Qed.
Lemma dataOk_JailedNonce v d : dataOk d → isU64 v → dataOk (withJailedNonce v d).
Proof. data_ok. Qed.
Lemma dataOk_UnJailedNonce v d : dataOk d → isU64 v → dataOk (withUnJailedNonce v d).
Proof. data_ok. Qed.
Lemma dataOk_Jailed v d : dataOk d → dataOk (withJailed v d).
Proof. data_ok. Qed.
Lemma dataOk_Waiting v d : dataOk d → dataOk (withWaiting v d).
Proof. data_ok. Qed.
Lemma dataOk_NumJailed v d : dataOk d → isU32 v → dataOk (withNumJailed v d).
Proof. data_ok. Qed.
Lemma dataOk_OwnerAddress v d : dataOk d → dataOk (withOwnerAddress v d).
Proof. data_ok. Qed.
Lemma isU64_max : isU64 maxUint64.
Proof. done. Qed.
Lemma isU64_0 : isU64 0.
Proof. done. Qed.
Lemma isU32_default : isU32 DefaultUnstakedEpoch.
Proof. done. Qed.
#[export] Hint Resolve dataOk_RegisterNonce dataOk_StakedNonce dataOk_Staked
  dataOk_UnStakedNonce dataOk_UnStakedEpoch dataOk_RewardAddress dataOk_StakeValue
  dataOk_JailedRound dataOk_JailedNonce dataOk_UnJailedNonce dataOk_Jailed dataOk_Waiting
  dataOk_NumJailed dataOk_OwnerAddress isU64_max isU64_0 isU32_default u32_range : data.

(** a projection of a chain of updates *)
Ltac fields := match goal with |- context [regOf ?s ?k] => destruct (regOf s k) end; done.

(** the epochs in which the contract runs with all its fixes *)
Record currentFlags `{StakingContract} : Prop := {
  cf_stake : IsFlagEnabled StakeFlag = true;
  cf_v2 : IsFlagEnabled StakingV2Flag = true;
  cf_firstQueued : IsFlagEnabled CorrectFirstQueuedFlag = true;
  cf_unJailed : IsFlagEnabled CorrectLastUnJailedFlag = true;
}.

(** One step of a handler: the early exits with an error code are closed, the
    rest is left to the caller. *)
Ltac exits :=
  cbn beta iota; try (intros ?; discriminate); try (simpl; intros ?; discriminate).
Ltac hstep :=
  lazymatch goal with
  | |- wp (bind _ _) _ _ => apply wp_bind
  | |- wp (returnIf _ _ _) _ _ => apply wp_returnIf; intros ?; cbn beta iota; [exits|]
  | |- wp (returnQuietIf _ _) _ _ => apply wp_returnQuietIf; intros ?; cbn beta iota; [exits|]
  | |- wp (gets _) _ _ =>
    apply wp_gets; cbn beta iota;
    repeat match goal with
    | HR : Rep _ ?e _ |- context [hookOf ?e] => rewrite (rep_hook _ _ _ HR)
    end
  | |- wp (ret _) _ _ => apply wp_ret; cbn beta iota
  | |- wp (orReturn _ _ _) _ _ => apply wp_orReturn
  | |- wp (catch _ _) _ _ => apply wp_catch
  | |- wp (getOrCreateRegisteredData _) _ _ => eapply Rep_get; [eassumption| |cbn beta iota]
  | |- wp (addReturnMessage _) _ _ =>
    eapply Rep_message; [eassumption|]; intros ? ?; cbn beta iota
  | |- wp (finish _) _ _ => eapply Rep_finish; [eassumption|]; intros ? ?; cbn beta iota
  | |- wp (useGas _ _) _ _ =>
    eapply Rep_useGas; [eassumption|intros ? ?; cbn beta iota|intros ?; exits]
  | |- wp (saveStakingData _ _) _ _ =>
    eapply Rep_save; [by apply cf_stake|by apply cf_v2|eassumption|eassumption
                     |try by auto 10 with data|intros ? ?; cbn beta iota]
  | |- wp (let _ := _ in _) _ _ => cbv zeta
  | |- wp ((let _ := _ in _) ;;; _) _ _ => cbv zeta
  end.
Ltac hsteps := repeat hstep.

Section handlers.
Context {E : Type} {EI : SystemEI E} {EIL : SystemEILaws E} {SCP : StakingContract}.
Context {MLe : MarshallerLaws ElementInList (λ _, True) zeroElement}.
Context {MLh : MarshallerLaws WaitingList headInRange emptyWaitingList}.
Context {MLd : MarshallerLaws StakedDataV2_0 stakedInRange zeroStakedData}.
Context {MLc : MarshallerLaws StakingNodesConfig configInRange zeroConfig}.
Context (h : BlockchainHook) (Hh : hookInRange h).

Context (CF : currentFlags).

Record capacity (s : State) : Prop := {
  cap_queue : (Z.of_nat (length (queueOf s)) + 1 < 2 ^ 32)%Z;
  cap_staked : (StakedNodes (cfgOf s) < 2 ^ 62)%Z;
}.

Definition consistent (e : E) : Prop := ∃ s, Rep h e s ∧ Inv s.
Definition post (mayPanic : Prop) (o : outcome ReturnCode ReturnCode) (e' : E) : Prop :=
  match o with
  | Ret c | Throw c => c = Ok → consistent e'
  | Panic => mayPanic
  end.

Lemma hook_e e s : Rep h e s → hookOf e = h.
Proof. apply rep_hook. Qed.
Lemma isU64_nonce : isU64 (CurrentNonce h).
Proof. apply Hh. Qed.
Lemma isU64_round : isU64 (CurrentRound h).
Proof. apply Hh. Qed.
Lemma isU32_epoch : isU32 (CurrentEpoch h).
Proof. apply Hh. Qed.
Hint Resolve isU64_nonce isU64_round isU32_epoch : data.

Lemma cfg_i64 e s : Rep h e s → isI64 (StakedNodes (cfgOf s)).
Proof. intros HR. apply (co_range _ (rep_cfgOk _ _ _ HR)). Qed.

Lemma activeStakingFor_ok d e s :
  Rep h e s → dataOk d →
  let d' := activeStakingFor d e in
  dataOk d' ∧ Staked d' = true ∧ Waiting d' = false.
Proof.
  intros HR Hd. unfold activeStakingFor. rewrite (hook_e _ _ HR).
  split; [eauto 20 with data|]. by destruct d.
Qed.
Lemma setUnStaked_ok d e s :
  Rep h e s → dataOk d →
  let d' := setUnStaked d e in
  dataOk d' ∧ Staked d' = false ∧ Waiting d' = false.
Proof.
  intros HR Hd. unfold setUnStaked. rewrite (hook_e _ _ HR).
  split; [eauto 20 with data|]. by destruct d.
Qed.

Lemma StakedNodes_plus c v : StakedNodes (withStakedNodes v c) = v.
Proof. by destruct c. Qed.

(** one more staked node *)
Lemma staked_plus1 e s :
  Rep h e s → Inv s → (StakedNodes (cfgOf s) < 2 ^ 63 - 1)%Z →
  StakedNodes (withStakedNodes (i64 (StakedNodes (cfgOf s) + 1)) (cfgOf s))
    = (StakedNodes (cfgOf s) + 1)%Z.
Proof.
  intros HR HI Hc. rewrite StakedNodes_plus. apply i64_small.
  pose proof (counted_nonneg _ _ (inv_counted _ HI)). unfold isI64. lia.
Qed.

(** *** processStake *)

(** what [processStake] promises for the key [k]: the returned registration
    completes a consistent state, and has to be saved by the caller *)
Definition staking (k : bytes) (d' : StakedDataV2_0) (e' : E) : Prop :=
  ∃ s', Rep h e' s' ∧ dataOk d' ∧ Inv (setReg k d' s').

Lemma wp_processStakeV1 e s k d b Q :
  Rep h e s → Inv s → capacity s → validKey k → IsFlagEnabled StakingV4StartedFlag = false →
  dataOk d → Staked d = Staked (regOf s k) → Waiting d = Waiting (regOf s k) →
  (∀ d' e', staking k d' e' → Q (Ret d') e') → (∀ err e', Q (Throw err) e') →
  wp (processStakeV1 k d b) Q e.
Proof.
  intros HR HI [Hcq Hcs] Hk Hv4 Hd Hs Hw HQ HQ'. unfold processStakeV1.
  destruct (Staked d) eqn:Hst.
  { apply wp_ret, HQ. exists s. split_and!; [done..|]. by apply Inv_same; [..|congruence|]. }
  apply wp_bind, wp_gets. rewrite (hook_e _ _ HR).
  apply wp_bind, wp_gets. destruct (canStake e) eqn:Hcan; simpl.
  - apply wp_bind, wp_catch.
    eapply Rep_remove; [apply CF|apply CF|exact HR|done|]. intros e1 HR1.
    apply wp_bind. eapply Rep_addToStakedNodes; [exact HR1|]. intros e2 HR2. apply wp_gets.
    destruct (activeStakingFor_ok (withRegisterNonce (CurrentNonce h) d) e2 _ HR2)
      as (Hd' & Hst' & Hwt'); [auto with data|].
    apply HQ. eexists. split_and!; [exact HR2|done|].
    apply Inv_activate; [done|done|done|done|done|intros x; apply elem_of_removeQ|].
    exact (staked_plus1 e s HR HI ltac:(lia)).
  - apply wp_bind. eapply Rep_message; [exact HR|]. intros e1 HR1.
    apply wp_bind, wp_catch. eapply Rep_add; [apply CF|exact HR1|done|done|]. intros e2 HR2.
    apply wp_bind. eapply Rep_finish; [exact HR2|]. intros e3 HR3. apply wp_ret, HQ.
    eexists. split_and!; [exact HR3|auto with data|].
    apply Inv_enqueue; try done; by destruct d.
Qed.

Lemma wp_processStakeV2 e s k d Q :
  Rep h e s → Inv s → capacity s → validKey k → IsFlagEnabled StakingV4StartedFlag = true →
  dataOk d → Staked d = Staked (regOf s k) → Waiting d = Waiting (regOf s k) →
  (∀ d' e', staking k d' e' → Q (Ret d') e') →
  wp (processStakeV2 d) Q e.
Proof.
  intros HR HI [Hcq Hcs] Hk Hv4 Hd Hs Hw HQ. unfold processStakeV2.
  destruct (Staked d) eqn:Hst.
  { apply wp_ret, HQ. exists s. split_and!; [done..|]. by apply Inv_same; [..|congruence|]. }
  apply wp_bind, wp_gets. rewrite (hook_e _ _ HR).
  apply wp_bind. eapply Rep_addToStakedNodes; [exact HR|]. intros e2 HR2. apply wp_gets.
  destruct (activeStakingFor_ok (withRegisterNonce (CurrentNonce h) d) e2 _ HR2)
    as (Hd' & Hst' & Hwt'); [auto with data|].
  apply HQ. eexists. split_and!; [exact HR2|done|].
  pose proof (Inv_activate k (activeStakingFor (withRegisterNonce (CurrentNonce h) d) e2) s
    (queueOf s, prefixOf s)) as Hact.
  destruct s. apply Hact; try done.
  - intros x. pose proof (inv_v4 _ HI Hv4) as Hq. simpl in *. rewrite Hq. set_solver.
  - exact (staked_plus1 e _ HR HI ltac:(lia)).
Qed.

Lemma wp_processStake e s k d b Q :
  Rep h e s → Inv s → capacity s → validKey k →
  dataOk d → Staked d = Staked (regOf s k) → Waiting d = Waiting (regOf s k) →
  (∀ d' e', staking k d' e' → Q (Ret d') e') → (∀ err e', Q (Throw err) e') →
  wp (processStake k d b) Q e.
Proof.
  intros. unfold processStake. destruct (IsFlagEnabled StakingV4StartedFlag) eqn:Hv4.
  - by eapply wp_processStakeV2.
  - by eapply wp_processStakeV1.
Qed.

Lemma consistent_of e s : Rep h e s → Inv s → consistent e.
Proof. by exists s. Qed.

Lemma post_ok mp e s : Rep h e s → Inv s → post mp (Ret Ok) e.
Proof. intros HR HI _. by exists s. Qed.

Lemma wp_stake e s args b :
  Rep h e s → Inv s → capacity s → validKey (arg args 0) →
  wp (stake args b) (post False) e.
Proof.
  intros HR HI Hc Hk. unfold stake. hsteps; [done|].
  pose proof (rep_data _ _ _ HR _ Hk) as Hd.
  destruct (StakeValue (regOf s (arg args 0))) eqn:Hsv; [|by apply do_stake in Hd].
  hsteps.
  set (d := withStakeValue _ _).
  assert (dataOk d) as Hd' by (subst d; auto with data).
  assert (Staked d = Staked (regOf s (arg args 0))
          ∧ Waiting d = Waiting (regOf s (arg args 0))) as [Hs Hw]
    by (subst d; destruct (regOf s (arg args 0)); done).
  destruct b; hsteps.
  - eapply post_ok; [eassumption|by apply Inv_same].
  - eapply wp_processStake; [exact HR|done|done|exact Hk|done|done|done|..].
    + intros d' e' (s' & HR' & Hd'' & HI'). cbn beta iota. hsteps.
      by eapply post_ok.
    + intros err e'. exits.
Qed.

Lemma wp_doUnStake e s k d :
  Rep h e s → validKey k → dataOk d →
  (∀ d', dataOk d' → Staked d' = false → Waiting d' = false → Inv (setReg k d' s)) →
  wp (doUnStake k d) (post False) e.
Proof.
  intros HR Hk Hd HI. unfold doUnStake. hstep. hstep.
  destruct (setUnStaked_ok _ _ _ HR Hd) as (Hd' & Hs' & Hw').
  hsteps. eapply post_ok; [eassumption|auto].
Qed.

Lemma wp_tryUnStake e s k d :
  Rep h e s → Inv s → validKey k → dataOk d → Staked (regOf s k) = true →
  wp (tryUnStake k d) (post False) e.
Proof.
  intros HR HI Hk Hd Hs. unfold tryUnStake. hsteps.
  eapply Rep_removeFromStakedNodes; [exact HR|]. intros e1 HR1. cbn beta iota.
  eapply wp_doUnStake; [exact HR1|done|done|]. intros d' _ Hs' Hw'.
  apply Inv_unstake; try done. by eapply cfg_i64.
Qed.

Lemma wp_checkUnStakeArgs e s args Q :
  Rep h e s → validKey (arg args 0) →
  (Staked (regOf s (arg args 0)) = true ∨ Waiting (regOf s (arg args 0)) = true →
   Q (Ret (regOf s (arg args 0))) e) →
  (∀ e', Q (Throw UserError) e') →
  wp (checkUnStakeArgs args) Q e.
Proof.
  intros HR Hk HQ HQ'. unfold checkUnStakeArgs. hsteps; try apply HQ'; [done|].
  apply HQ. destruct (Staked _), (Waiting _); auto.
Qed.

(** *** Promotion of the first queued node *)
Lemma wp_moveFirst e s Q :
  Rep h e s → Inv s → capacity s →
  (∀ b e' s', Rep h e' s' → Inv s' →
     (∀ k, Staked (regOf s k) = true → validKey k → regOf s' k = regOf s k) → Q (Ret b) e') →
  (∀ err e', Q (Throw err) e') →
  wp moveFirstFromWaitingToStaked Q e.
Proof.
  intros HR HI [Hcq Hcs] HQ HQ'. unfold moveFirstFromWaitingToStaked.
  pose proof (rep_queue _ _ _ HR) as Hqr.
  apply wp_bind. eapply wp_getHead; [exact Hqr|]. cbn [Length headOf].
  destruct (queueOf s) as [|f q] eqn:Hq; cbn [length Z.of_nat Z.eqb].
  { apply wp_ret. by eapply HQ. }
  assert (validKey f) as Hf by (eapply QueueRep_valid; [exact Hqr|left]).
  cbn [FirstKey hdKey].
  apply wp_bind. eapply wp_eq; [exact (queued_element e [] f q _ Hqr)|]. cbn [BLSPublicKey].
  hsteps. eapply Rep_remove; [apply CF|apply CF|exact HR|done|]. intros e1 HR1. cbn beta iota.
  hstep. hstep; [done|].
  destruct ((_ =? 0) || _) eqn:Hcond; [apply HQ'|].
  apply orb_false_iff in Hcond as [_ Hst]. cbn [regOf setQueue] in Hst |- *.
  hsteps. eapply Rep_addToStakedNodes; [exact HR1|].
  intros e2 HR2. cbn beta iota. hstep.
  pose proof (rep_data _ _ _ HR _ Hf) as Hd.
  set (d := withUnStakedEpoch _ _).
  assert (Staked d = true ∧ Waiting d = false) as [Hs' Hw']
    by (subst d; by destruct (regOf s f)).
  assert (dataOk d) as Hd' by (subst d; auto 10 with data).
  hsteps. eapply HQ; [eassumption| |].
  - apply Inv_activate; [done|done|done|done|done|intros x; apply elem_of_removeQ|].
    apply (staked_plus1 e s HR HI). lia.
  - intros k Hk _. simpl. rewrite fn_lookup_insert_ne //. intros ->. congruence.
Qed.

Lemma wp_unStakeV1 e s args :
  Rep h e s → Inv s → capacity s → validKey (arg args 0) →
  wp (unStakeV1 args) (post False) e.
Proof.
  intros HR HI Hc Hk. unfold unStakeV1. hstep.
  eapply wp_checkUnStakeArgs; [exact HR|done| |intros e'; exits].
  intros Hsw. cbn beta iota. pose proof (rep_data _ _ _ HR _ Hk) as Hd.
  destruct (Staked (regOf s (arg args 0))) eqn:Hst; cbn [negb].
  - hstep. hstep. destruct (_ || _).
    + hsteps. eapply wp_moveFirst; [exact HR|done|done| |].
      2: { intros err e'. exits. }
      intros b e1 s1 HR1 HI1 Hsame. cbn beta iota. hsteps.
      eapply wp_tryUnStake; [exact HR1|done|done|done|]. by rewrite Hsame.
    + hsteps. by eapply wp_tryUnStake.
  - cbv zeta. hsteps. eapply Rep_remove; [apply CF|apply CF|exact HR|done|].
    intros e1 HR1. cbn beta iota. hsteps.
    eapply post_ok; [eassumption|].
    apply Inv_leave; [done|done|by fields|]. by destruct (regOf s (arg args 0)).
Qed.

Lemma wp_unStakeV2 e s args :
  Rep h e s → Inv s → validKey (arg args 0) →
  wp (unStakeV2 args) (post False) e.
Proof.
  intros HR HI Hk. unfold unStakeV2. hstep.
  eapply wp_checkUnStakeArgs; [exact HR|done| |intros e'; exits].
  intros Hsw. cbn beta iota. hsteps. eapply wp_tryUnStake; [exact HR|done|done|..].
  - by eapply rep_data.
  - by destruct (Staked _).
Qed.

Lemma wp_unStake e s args :
  Rep h e s → Inv s → capacity s → validKey (arg args 0) →
  wp (unStake args) (post False) e.
Proof.
  intros. unfold unStake. destruct (IsFlagEnabled _);
    [by eapply wp_unStakeV2|by eapply wp_unStakeV1].
Qed.

(** *** Jailing *)
Lemma removeAndSetUnstaked_ok d e s :
  Rep h e s → dataOk d →
  let d' := withStakedNonce maxUint64 (withUnStakedNonce (CurrentNonce (hookOf e))
              (withUnStakedEpoch (CurrentEpoch (hookOf e)) (withStaked false d))) in
  dataOk d' ∧ Staked d' = false ∧ Waiting d' = Waiting d.
Proof.
  intros HR Hd. rewrite (hook_e _ _ HR). split; [eauto 20 with data|]. by destruct d.
Qed.

Lemma wp_removeAndSetUnstaked e s k d (Q : outcome ReturnCode StakedDataV2_0 → E → Prop) :
  Rep h e s → Inv s → validKey k → dataOk d →
  Staked (regOf s k) = true → Waiting d = Waiting (regOf s k) →
  (∀ d' e', staking k d' e' → Q (Ret d') e') →
  wp (removeAndSetUnstaked d) Q e.
Proof.
  intros HR HI Hk Hd Hs Hw HQ. unfold removeAndSetUnstaked. hstep.
  eapply Rep_removeFromStakedNodes; [exact HR|]. intros e1 HR1. cbn beta iota.
  apply wp_gets, HQ. destruct (removeAndSetUnstaked_ok d _ _ HR1 Hd) as (Hd' & Hs' & Hw').
  eexists. split_and!; [exact HR1|exact Hd'|].
  apply Inv_unstake; try done; [|by eapply cfg_i64].
  rewrite Hw' Hw. destruct (Waiting (regOf s k)) eqn:Hwt; [|done].
  rewrite (inv_exclusive _ HI _ Hk Hwt) in Hs. done.
Qed.

Lemma wp_tryRemoveJailed e s k d (Q : outcome ReturnCode StakedDataV2_0 → E → Prop) :
  Rep h e s → Inv s → validKey k → dataOk d →
  Staked (regOf s k) = true → Staked d = Staked (regOf s k) →
  Waiting d = Waiting (regOf s k) →
  (∀ d' e', staking k d' e' → Q (Ret d') e') →
  wp (tryRemoveJailedNodeFromStaked d) Q e.
Proof.
  intros HR HI Hk Hd Hs Hs' Hw HQ. unfold tryRemoveJailedNodeFromStaked.
  destruct (negb _); [by eapply wp_removeAndSetUnstaked|].
  hsteps. destruct (canUnStake e); [by eapply wp_removeAndSetUnstaked|].
  hsteps. apply HQ. eexists. split_and!; [eassumption|done|by apply Inv_same].
Qed.

Lemma wp_moveFirstIfNeeded e s k Q :
  Rep h e s → Inv s → capacity s → validKey k → Staked (regOf s k) = true →
  (∀ b e' s', Rep h e' s' → Inv s' → regOf s' k = regOf s k → Q (Ret b) e') →
  (∀ err e', Q (Throw err) e') →
  wp (moveFirstFromWaitingToStakedIfNeeded k) Q e.
Proof.
  intros HR HI Hc Hk Hs HQ HQ'. unfold moveFirstFromWaitingToStakedIfNeeded.
  assert (k ∉ queueOf s) as Hq.
  { rewrite -(inv_waiting _ HI) //. intros Hw. by rewrite (inv_exclusive _ HI) in Hs. }
  apply wp_bind, wp_attempt.
  eapply wp_eq; [exact (absent_element _ _ _ _ (rep_queue _ _ _ HR) Hk Hq)|]. cbn beta iota.
  eapply wp_moveFirst; [exact HR|done|done| |done].
  intros b e' s' HR' HI' Hsame. eapply HQ; [done|done|by apply Hsame].
Qed.

Lemma wp_switchJailedWithWaiting e s args :
  Rep h e s → Inv s → capacity s → validKey (arg args 0) →
  wp (switchJailedWithWaiting args) (post False) e.
Proof.
  intros HR HI Hc Hk. unfold switchJailedWithWaiting. hsteps; [done|].
  pose proof (rep_data _ _ _ HR _ Hk) as Hd.
  destruct (Staked (regOf s (arg args 0))) eqn:Hst; [|done].
  eapply wp_moveFirstIfNeeded; [exact HR|done|done|done|done| |intros err e'; exits].
  intros b e1 s1 HR1 HI1 Hsame. cbn beta iota. hsteps.
  set (d := withJailedNonce _ _).
  assert (dataOk d) as Hd' by (subst d; auto 10 with data).
  rewrite -Hsame in Hst.
  assert (Staked d = Staked (regOf s1 (arg args 0))
          ∧ Waiting d = Waiting (regOf s1 (arg args 0))) as [Hs Hw]
    by (subst d; rewrite Hsame; by destruct (regOf s (arg args 0))).
  destruct (negb b && _).
  - hsteps. eapply post_ok; [eassumption|by apply Inv_same].
  - eapply wp_tryRemoveJailed; [exact HR1|done|exact Hk|done..|].
    intros d' e' (s' & HR' & Hd'' & HI'). cbn beta iota. hsteps. by eapply post_ok.
Qed.

Lemma wp_unJail e s args :
  Rep h e s → Inv s → capacity s → validKey (arg args 0) →
  wp (unJail args) (post False) e.
Proof.
  intros HR HI Hc Hk. unfold unJail. rewrite (cf_stake CF). cbn [negb].
  hsteps; [done|]. pose proof (rep_data _ _ _ HR _ Hk) as Hd.
  set (d := withJailed _ _).
  assert (dataOk d) as Hd' by (subst d; auto 10 with data).
  assert (Staked d = Staked (regOf s (arg args 0))
          ∧ Waiting d = Waiting (regOf s (arg args 0))) as [Hs Hw]
    by (subst d; by destruct (regOf s (arg args 0))).
  eapply wp_processStake; [exact HR|done|done|exact Hk|done|done|done|..].
  - intros d' e' (s' & HR' & Hd'' & HI'). cbn beta iota. hsteps. by eapply post_ok.
  - intros err e'. exits.
Qed.

(** a loop that updates the registration of each of its keys *)
Lemma wp_eachKey (keys : list bytes) (body : bytes → M E ReturnCode unit)
    (Q : outcome ReturnCode unit → E → Prop) e :
  Forall validKey keys → consistent e →
  (∀ k s e (Q : outcome ReturnCode unit → E → Prop), validKey k → Rep h e s → Inv s →
     (∀ e', consistent e' → Q (Ret tt) e') → (∀ e', Q (Throw UserError) e') →
     wp (body k) Q e) →
  (∀ e', consistent e' → Q (Ret tt) e') → (∀ e', Q (Throw UserError) e') →
  wp (forEach keys body) Q e.
Proof.
  intros Hk He Hbody HQ HQ'.
  apply (wp_forEach (λ l e, Forall validKey l ∧ consistent e)); [done|..].
  - intros k t e1 [Hkt (s & HR & HI)]. apply Forall_cons in Hkt as [Hk1 Hkt].
    apply (Hbody k s); try done.
  - intros e1 [_ He1]. auto.
Qed.

Lemma wp_jail e s args :
  Rep h e s → Inv s → Forall validKey (Arguments args) →
  wp (jail args) (post False) e.
Proof.
  intros HR HI Hk. unfold jail. hsteps.
  apply wp_eachKey; [done|by eapply consistent_of| |..].
  - intros k s' e' Q Hk' HR' HI' HQ HQ'. do 3 hstep; [done|].
    pose proof (rep_data _ _ _ HR' _ Hk') as Hd. hsteps; try apply HQ'. apply HQ.
    eapply consistent_of; [eassumption|]. apply Inv_same; [done|done|fields..].
  - intros e' (s' & HR' & HI'). cbn beta iota. hsteps. by eapply post_ok.
  - intros e'. exits.
Qed.

Lemma wp_changeRewardAddress e s args :
  Rep h e s → Inv s → Forall validKey (tail (Arguments args)) →
  wp (changeRewardAddress args) (post False) e.
Proof.
  intros HR HI Hk. unfold changeRewardAddress. hsteps.
  apply wp_eachKey; [done|by eapply consistent_of| |..].
  - intros k s' e' Q Hk' HR' HI' HQ HQ'. do 3 hstep; [done|].
    pose proof (rep_data _ _ _ HR' _ Hk') as Hd. destruct (length (RewardAddress _) =? 0).
    + apply wp_ret, HQ. by eapply consistent_of.
    + hsteps. apply HQ.
      eapply consistent_of; [eassumption|]. apply Inv_same; [done|done|fields..].
  - intros e' (s' & HR' & HI'). cbn beta iota. hsteps. by eapply post_ok.
  - intros e'. exits.
Qed.

Lemma wp_changeOwnerAndRewardAddress e s args :
  Rep h e s → Inv s → Forall validKey (tail (Arguments args)) →
  wp (changeOwnerAndRewardAddress args) (post False) e.
Proof.
  intros HR HI Hk. unfold changeOwnerAndRewardAddress. hsteps.
  apply wp_eachKey; [done|by eapply consistent_of| |..].
  - intros k s' e' Q Hk' HR' HI' HQ HQ'. do 3 hstep; [done|].
    pose proof (rep_data _ _ _ HR' _ Hk') as Hd. hsteps; try apply HQ'. apply HQ.
    eapply consistent_of; [eassumption|]. apply Inv_same; [done|done|fields..].
  - intros e' (s' & HR' & HI'). cbn beta iota. hsteps. by eapply post_ok.
  - intros e'. exits.
Qed.

(** the keys among the arguments [key1 owner1 key2 owner2 ...] *)
Fixpoint evenArguments (l : list bytes) : list bytes :=
  match l with
  | k :: _ :: t => k :: evenArguments t
  | _ => []
  end.

Lemma wp_setOwnersLoop i l (Q : outcome ReturnCode unit → E → Prop) e :
  consistent e → Forall validKey (evenArguments l) →
  (∀ e', consistent e' → Q (Ret tt) e') → (∀ e', Q (Throw UserError) e') →
  wp (setOwnersLoop i l) Q e.
Proof.
  intros He Hk HQ HQ'. revert i e He Hk.
  induction l as [l IH] using (induction_ltof1 _ length). unfold ltof in IH.
  intros i e (s & HR & HI) Hk.
  destruct l as [|k [|owner rest]]; [by apply wp_ret, HQ; exists s|by apply wp_ret, HQ; exists s|].
  apply Forall_cons in Hk as [Hk Hrest]. cbn [setOwnersLoop].
  do 3 hstep; [done|]. pose proof (rep_data _ _ _ HR _ Hk) as Hd. hstep.
  destruct (length (RewardAddress _) =? 0).
  - hstep. apply IH; [simpl; lia|by exists s|done].
  - hsteps. apply IH; [simpl; lia| |done].
    eapply consistent_of; [eassumption|]. apply Inv_same; [done|done|fields..].
Qed.

Lemma wp_setOwnersOnAddresses e s args :
  Rep h e s → Inv s → Forall validKey (evenArguments (Arguments args)) →
  wp (setOwnersOnAddresses args) (post False) e.
Proof.
  intros HR HI Hk. unfold setOwnersOnAddresses. hsteps.
  apply wp_setOwnersLoop; [by eapply consistent_of|done|..].
  - intros e' (s' & HR' & HI'). cbn beta iota. hsteps. by eapply post_ok.
  - intros e'. exits.
Qed.

(** *** Leaving *)
Lemma wp_unStakeAtEndOfEpoch e s args :
  Rep h e s → Inv s → validKey (arg args 0) →
  wp (unStakeAtEndOfEpoch args) (post False) e.
Proof.
  intros HR HI Hk. unfold unStakeAtEndOfEpoch. hsteps; [done|..].
  { intros _. exists s. split; [|done].
    eapply Rep_frame; [..|exact HR]; intros; by autorewrite with eei. }
  pose proof (rep_data _ _ _ HR _ Hk) as Hd.
  destruct (Staked (regOf s (arg args 0))) eqn:Hst,
    (Waiting (regOf s (arg args 0))) eqn:Hwt; cbn [negb andb].
  - by rewrite (inv_exclusive _ HI _ Hk Hwt) in Hst.
  - hstep. eapply Rep_removeFromStakedNodes; [exact HR|]. intros e1 HR1. cbn beta iota.
    do 4 hstep.
    destruct (setUnStaked_ok _ _ _ HR1 Hd) as (Hd' & Hs' & Hw').
    hsteps. eapply post_ok; [eassumption|].
    apply Inv_unstake; try done. by eapply cfg_i64.
  - do 4 hstep. eapply Rep_remove; [apply CF|apply CF|exact HR|done|].
    intros e1 HR1. cbn beta iota. do 2 hstep.
    destruct (setUnStaked_ok _ _ _ HR1 Hd) as (Hd' & Hs' & Hw').
    hsteps. eapply post_ok; [eassumption|]. by apply Inv_leave; [..|congruence].
  - hstep. by eapply post_ok.
Qed.

Lemma wp_unBond e s args :
  Rep h e s → Inv s → validKey (arg args 0) → wp (unBond args) (post False) e.
Proof.
  intros HR HI Hk. unfold unBond. hsteps; [done|].
  eapply Rep_erase; [eassumption|done|]. intros e1 HR1. cbn beta iota. hsteps.
  eapply post_ok; [eassumption|]. by apply Inv_erase.
Qed.

(** *** Configuration *)
Lemma wp_updateConfigMinNodes e s args :
  Rep h e s → Inv s → wp (updateConfigMinNodes args) (post False) e.
Proof.
  intros HR HI. unfold updateConfigMinNodes. hsteps.
  rewrite (rep_cfg _ _ _ HR). pose proof (rep_cfgOk _ _ _ HR) as Hc.
  eapply Rep_setConfig; [exact HR| |].
  - destruct (cfgOf s), Hc as [[]]. split; [split|]; simpl in *; try done. apply i64_range.
  - intros e1 HR1. cbn beta iota. hsteps. eapply post_ok; [exact HR1|].
    apply Inv_setCfg; [by destruct (cfgOf s)|done].
Qed.

Lemma wp_updateConfigMaxNodes e s args :
  Rep h e s → Inv s → wp (updateConfigMaxNodes args) (post False) e.
Proof.
  intros HR HI. unfold updateConfigMaxNodes. hsteps.
  rewrite (rep_cfg _ _ _ HR). pose proof (rep_cfgOk _ _ _ HR) as Hc.
  eapply Rep_setConfig; [eassumption| |].
  - destruct (cfgOf s), Hc as [[]]. split; [split|]; simpl in *; try done; [apply i64_range|].
    match goal with H : (_ <=? 0)%Z = false |- _ => apply Z.leb_gt in H; lia end.
  - intros e1 HR1. cbn beta iota. hsteps. eapply post_ok; [exact HR1|].
    apply Inv_setCfg; [by destruct (cfgOf s)|done].
Qed.

(** *** Exact effects *)

(** the registration of a node that is promoted from the queue *)
Definition promoted (d : StakedDataV2_0) : StakedDataV2_0 :=
  withUnStakedEpoch DefaultUnstakedEpoch (withUnStakedNonce 0
    (withStakedNonce (CurrentNonce h) (withRegisterNonce (CurrentNonce h)
      (withStaked true (withWaiting false d))))).

Lemma wp_promote e s f q Q :
  Rep h e s → Inv s → capacity s → queueOf s = f :: q → RewardAddress (regOf s f) ≠ [] →
  (∀ e', Rep h e' (setReg f (promoted (regOf s f))
           (setCfg (withStakedNodes (i64 (StakedNodes (cfgOf s) + 1)) (cfgOf s))
              (setQueue (q, (removeQ f (f :: q) (prefixOf s)).2) s))) → Q (Ret true) e') →
  wp moveFirstFromWaitingToStaked Q e.
Proof.
  intros HR HI _ Hq Hrew HQ. unfold moveFirstFromWaitingToStaked.
  pose proof (rep_queue _ _ _ HR) as Hqr. rewrite Hq in Hqr.
  assert (validKey f) as Hf by (eapply QueueRep_valid; [exact Hqr|left]).
  assert (removeQ f (queueOf s) (prefixOf s) = (q, (removeQ f (f :: q) (prefixOf s)).2)) as Hrm.
  { rewrite Hq. unfold removeQ. f_equal. rewrite filter_cons_False; [|tauto].
    apply filter_ne_notin. pose proof (qr_nodup _ _ _ Hqr) as Hnd.
    by apply NoDup_cons in Hnd as [? _]. }
  assert (Staked (regOf s f) = false) as Hst.
  { apply (inv_exclusive _ HI _ Hf). apply (inv_waiting _ HI _ Hf). rewrite Hq. left. }
  apply wp_bind. eapply wp_getHead; [exact Hqr|]. cbn [Length headOf length Z.of_nat Z.eqb].
  cbn [FirstKey hdKey].
  apply wp_bind. eapply wp_eq; [exact (queued_element e [] f q _ Hqr)|]. cbn [BLSPublicKey].
  hsteps. eapply Rep_remove; [apply CF|apply CF|exact HR|done|]. intros e1 HR1. cbn beta iota.
  hstep. hstep; [done|]. rewrite Hrm in HR1. cbn [regOf setQueue] in *. rewrite Hst.
  destruct (RewardAddress (regOf s f)) eqn:Hr; [done|]. cbn [length Nat.eqb orb].
  hsteps. eapply Rep_addToStakedNodes; [exact HR1|].
  intros e2 HR2. cbn beta iota. hstep.
  pose proof (rep_data _ _ _ HR _ Hf) as Hd.
  eapply Rep_save; [apply CF|apply CF|exact HR2|done|by auto 10 with data|].
  intros e3 HR3. cbn beta iota. hstep. apply HQ. exact HR3.
Qed.

(** a registration that is jailed now, before a possible unstaking *)
Definition jailedNow (d : StakedDataV2_0) : StakedDataV2_0 :=
  withJailedNonce (CurrentNonce h) (withJailed true (withNumJailed (u32 (NumJailed d + 1)) d)).

(** the jailed node leaves the staked nodes *)
Definition jailedOut (d : StakedDataV2_0) : StakedDataV2_0 :=
  withStakedNonce maxUint64 (withUnStakedNonce (CurrentNonce h)
    (withUnStakedEpoch (CurrentEpoch h) (withStaked false (jailedNow d)))).
(** with one node more staked, there are more than the minimum *)
Definition canLeave (c : StakingNodesConfig) : bool :=
  (0 <? i64 (i64 (StakedNodes c + 1 - JailedNodes c) - MinNumNodes c))%Z.

(** what switching the jailed [k] with the first queued [f] does: the jailed node
    makes room, unless too few nodes would remain *)
Record switched (s s' : State) (k f : bytes) (q : list bytes) : Prop := {
  sw_queue : queueOf s' = q;
  sw_first : regOf s' f = promoted (regOf s f);
  sw_jailed : regOf s' k = if canLeave (cfgOf s) then jailedOut (regOf s k) else jailedNow (regOf s k);
  sw_other x : validKey x → x ≠ k → x ≠ f → regOf s' x = regOf s x;
  sw_count : StakedNodes (cfgOf s') =
    (StakedNodes (cfgOf s) + if canLeave (cfgOf s) then 0 else 1)%Z;
}.

Lemma wp_switchJailed_exact e s args k f q (Q : outcome ReturnCode ReturnCode → E → Prop) :
  Rep h e s → Inv s → capacity s → IsFlagEnabled StakingV4StartedFlag = false →
  IsFlagEnabled CorrectJailedNotUnStakedEmptyQueueFlag = true →
  callerOf args = endOfEpochAccessAddr → Arguments args = [k] → validKey k →
  Staked (regOf s k) = true → Jailed (regOf s k) = false → RewardAddress (regOf s k) ≠ [] →
  queueOf s = f :: q → RewardAddress (regOf s f) ≠ [] →
  (∀ e' s', Rep h e' s' → switched s s' k f q → Q (Ret Ok) e') →
  wp (switchJailedWithWaiting args) Q e.
Proof.
  intros HR HI Hc Hv4 Hcj Hcaller Hargs Hk Hst Hja Hrew Hq Hrf HQ.
  unfold switchJailedWithWaiting, inStakingV4NotStep1, arg.
  rewrite Hv4 Hcaller Hargs bool_decide_true //. cbn [negb andb length Nat.eqb nth].
  unfold returnIf at 1 2, returnQuietIf at 1. do 7 hstep. hstep. hstep; [done|].
  assert (length (RewardAddress (regOf s k)) =? 0 = false) as Hrk by (by destruct (RewardAddress _)).
  rewrite Hrk Hst Hja. unfold returnIf. cbn [negb]. do 6 hstep.
  do 2 hstep. unfold moveFirstFromWaitingToStakedIfNeeded.
  assert (k ∉ queueOf s) as Hkq.
  { rewrite -(inv_waiting _ HI) //. intros Hw. by rewrite (inv_exclusive _ HI) in Hst. }
  assert (k ≠ f) as Hkf by (intros ->; apply Hkq; rewrite Hq; left).
  apply wp_bind, wp_attempt.
  eapply wp_eq; [exact (absent_element _ _ _ _ (rep_queue _ _ _ HR) Hk Hkq)|]. cbn beta iota.
  eapply wp_promote; [exact HR|done|done|done|done|]. intros e1 HR1. cbn beta iota.
  pose proof (staked_plus1 e s HR HI ltac:(destruct Hc; lia)) as Hplus.
  assert (validKey f) as Hf
    by (eapply QueueRep_valid; [apply (rep_queue _ _ _ HR)|rewrite Hq; left]).
  pose proof (rep_data _ _ _ HR _ Hk) as Hd.
  hstep. hstep. cbv zeta. cbn [negb andb]. fold (jailedNow (regOf s k)).
  assert (dataOk (jailedNow (regOf s k))) as Hd' by (unfold jailedNow; auto 10 with data).
  unfold tryRemoveJailedNodeFromStaked. rewrite Hcj. cbn [negb].
  assert (canUnStake e1 = canLeave (cfgOf s)) as Hcan.
  { unfold canUnStake, numSpareNodes, canLeave. rewrite (rep_cfg _ _ _ HR1). simpl.
    rewrite Hplus. by destruct (cfgOf s). }
  hstep. hstep. hstep. rewrite Hcan. destruct (canLeave (cfgOf s)) eqn:Hleave.
  - unfold removeAndSetUnstaked. hstep. eapply Rep_removeFromStakedNodes; [exact HR1|].
    intros e2 HR2. cbn beta iota. apply wp_gets. cbn beta iota.
    destruct (removeAndSetUnstaked_ok _ _ _ HR2 Hd') as (Hd2 & Hs2 & _). rewrite (hook_e _ _ HR2) in Hd2 |- *.
    hsteps. eapply HQ; [eassumption|]. split; simpl; rewrite ?fn_lookup_insert ?Hleave.
    + done.
    + rewrite fn_lookup_insert_ne // fn_lookup_insert //.
    + done.
    + intros x Hx Hxk Hxf. rewrite !fn_lookup_insert_ne //.
    + unfold oneLessStaked. rewrite Hplus.
      pose proof (counted_nonneg _ _ (inv_counted _ HI)). pose proof (cap_staked _ Hc).
      rewrite (proj2 (Z.ltb_lt _ _)); [|lia]. rewrite StakedNodes_plus.
      replace (StakedNodes (cfgOf s) + 1 - 1)%Z with (StakedNodes (cfgOf s) + 0)%Z by lia.
      apply i64_small. unfold isI64. lia.
  - hsteps. eapply HQ; [eassumption|]. split; simpl; rewrite ?fn_lookup_insert ?Hleave.
    + done.
    + rewrite fn_lookup_insert_ne // fn_lookup_insert //.
    + done.
    + intros x Hx Hxk Hxf. rewrite !fn_lookup_insert_ne //.
    + exact Hplus.
Qed.
End handlers.
