(* ===== verification/StakingQueueHandlers.v ===== *)
(** * StakingQueueHandlers: the handlers that process the whole queue

    The end-of-epoch operations of stakingWaitingList.go and its views. *)
From stdpp Require Import functions.
From S2P Require Import Prelude SystemEI StakingData StakingNodes WaitingList.
From S2P Require Import StakingQueue StakingSC QueueSpec QueueWalk StakingSpec.
From S2P Require Import StakingInvariant StakingHandlers.
#[local] Open Scope go_scope.

Section queue_handlers.
Context {E : Type} {EI : SystemEI E} {EIL : SystemEILaws E} {SCP : StakingContract}.
Context {MLe : MarshallerLaws ElementInList (λ _, True) zeroElement}.
Context {MLh : MarshallerLaws WaitingList headInRange emptyWaitingList}.
Context {MLd : MarshallerLaws StakedDataV2_0 stakedInRange zeroStakedData}.
Context {MLc : MarshallerLaws StakingNodesConfig configInRange zeroConfig}.
Context (h : BlockchainHook) (Hh : hookInRange h) (CF : currentFlags).

Lemma Rep_readable e s : Rep h e s → readable (regOf s) e (queueOf s).
Proof.
  intros HR k Hk. apply (rep_reg _ _ _ HR). by eapply QueueRep_valid; [apply (rep_queue _ _ _ HR)|].
Qed.

(** all of the queue is read: its length is below MaxUint32 *)
Lemma Rep_getElements e s Q :
  Rep h e s →
  (∀ r, queueNodes r = map (λ k, (k, regOf s k)) (queueOf s) → blsKeys r = queueOf s →
        stakedDataList r = map (regOf s) (queueOf s) → Q (Ret r) e) →
  wp (getFirstElementsFromWaitingList maxUint32) Q e.
Proof.
  intros HR HQ. pose proof (rep_queue _ _ _ HR) as Hq.
  destruct (getFirstElements_eq (regOf s) e _ _ maxUint32 Hq (Rep_readable _ _ HR))
    as (r & He & Hk & Hd); [done|].
  eapply wp_eq; [exact He|]. pose proof (qr_length _ _ _ Hq).
  rewrite take_ge in Hk, Hd; [|unfold maxUint32; lia..]. apply HQ; [|done..].
  unfold queueNodes. rewrite Hk Hd. apply zip_map_self.
Qed.

(** *** Repairs: on a well-formed queue they only reset the marked prefix *)
Lemma Rep_saveHead e s j Q :
  Rep h e s → queueOf s ≠ [] → j ≤ length (queueOf s) →
  (∀ e', Rep h e' (setQueue (queueOf s, j) s) → Q (Ret tt) e') →
  wp (saveWaitingListHead (headOf (queueOf s) j)) Q e.
Proof.
  intros HR Hne Hj HQ. pose proof (rep_queue _ _ _ HR) as Hq.
  apply wp_saveHead.
  { unfold headInRange; simpl. pose proof (qr_length _ _ _ Hq). lia. }
  intros e' W. apply HQ. apply (Rep_queueOnly h e); [queue_only| |exact HR]. simpl.
  apply mkQueueRep; try apply Hq; try done.
  - apply (written_stored _ _ _ _ W).
  - eapply dllseg_frame; [|apply Hq]. intros k Hk. framed.
  - intros k Hk Hnot. transitivity (orEmpty (GetStorage (wk k) e)); [f_equal; framed|].
    by apply (qr_absent _ _ _ Hq).
Qed.

Lemma Inv_prefix j s : Inv s → Inv (setQueue (queueOf s, j) s).
Proof. intros [[] ?]. by split; [split|]. Qed.

Lemma wp_resetLastUnJailedFromQueue e s args :
  Rep h e s → Inv s → wp (resetLastUnJailedFromQueue args) (post h False) e.
Proof.
  intros HR HI. unfold resetLastUnJailedFromQueue. hsteps.
  eapply wp_getHead; [apply (rep_queue _ _ _ HR)|]. cbn beta iota. cbn [LastJailedKey headOf].
  destruct (length (lastKeyOf _ _) =? 0) eqn:Hl; [hsteps; by eapply post_ok|].
  assert (queueOf s ≠ []) as Hne.
  { intros Hq. rewrite Hq take_nil in Hl. done. }
  hsteps. change (withLastJailedKey [] _) with (headOf (queueOf s) 0).
  eapply Rep_saveHead; [exact HR|done|lia|]. intros e' HR'. cbn beta iota. hsteps.
  eapply post_ok; [exact HR'|by apply Inv_prefix].
Qed.

Lemma wp_fixWaitingListQueueSize e s args :
  Rep h e s → Inv s → wp (fixWaitingListQueueSize args) (post h False) e.
Proof.
  intros HR HI. unfold fixWaitingListQueueSize. hsteps.
  pose proof (rep_queue _ _ _ ltac:(eassumption)) as Hq.
  eapply wp_getHead; [exact Hq|]. cbn beta iota.
  destruct (Length _ <=? 1)%Z eqn:Hlen; [hsteps; by eapply post_ok|].
  destruct s as [reg cfg q j]; simpl in *.
  destruct q as [|k q _] using rev_ind; [done|].
  hsteps. match goal with HR : Rep h ?e _ |- wp _ _ ?e => rename HR into HR1 end.
  match goal with |- wp _ _ ?e0 =>
    destruct (fixQueueLoop_eq reg e0 j q [] k (S (Z.to_nat (Length (headOf (q ++ [k]) j))))
      (length (LastJailedKey (headOf (q ++ [k]) j)) =? 0) Hq (Rep_readable _ _ HR1))
      as (b & Heq & Hb) end.
  { simpl. rewrite length_app /=. lia. }
  eapply wp_eq; [exact Heq|]. cbn beta iota. hsteps.
  set (w := if b then _ else _).
  assert (w = headOf (q ++ [k]) j) as ->.
  { subst w. replace b with true.
    - unfold headOf, withLastKey, withLength. simpl. rewrite lastKeyOf_snoc.
      f_equal. unfold walkIndex. rewrite length_app /=. lia.
    - symmetry. apply Hb. destruct (take j (q ++ [k])) as [|x t] eqn:Ht; simpl.
      + left. by rewrite Ht.
      + right. rewrite Ht.
        destruct (lastKeyOf_in [] (x :: t)) as (y & Hy & ->); [done|].
        exists y. split; [|done]. rewrite -Ht in Hy. eapply subseteq_take; done. }
  eapply (Rep_saveHead _ _ j _ HR1); simpl; [by destruct q|apply (qr_prefix _ _ _ Hq)|].
  intros e1 HR'. cbn beta iota. hsteps. eapply post_ok; [exact HR'|].
  by apply (Inv_prefix j).
Qed.

Lemma wp_addMissingNodeToQueue e s args :
  Rep h e s → Inv s → validKey (arg args 0) →
  wp (addMissingNodeToQueue args) (post h False) e.
Proof.
  intros HR HI Hk. unfold addMissingNodeToQueue. hsteps.
  match goal with HR : Rep h ?e _ |- wp _ _ ?e => rename HR into HR1 end.
  pose proof (rep_queue _ _ _ HR1) as Hq.
  destruct (decide (arg args 0 ∈ queueOf s)) as [Hin|Hin].
  2: { eapply wp_eq; [by eapply absent_element|]. exits. }
  pose proof Hin as (q1 & q2 & Hq12)%list_elem_of_split. rewrite Hq12 in Hq.
  eapply wp_eq; [by eapply queued_element|]. cbn beta iota. hsteps.
  eapply Rep_getElements; [exact HR1|]. intros r _ Hr _. cbn beta iota.
  hstep. rewrite Hr. apply wp_returnIf; intros Hex; [exits|].
  exfalso. apply not_true_iff_false in Hex. apply Hex, existsb_exists.
  exists (arg args 0). split; [by apply list_elem_of_In|by apply bool_decide_eq_true].
Qed.

(** *** The owners' funds are only read *)
Lemma readOnly_getReg k : readOnly (getOrCreateRegisteredData (E:=E) k).
Proof.
  apply readOnly_bind; [auto with go|]. intros data.
  apply readOnly_bind; [destruct data|]; auto with go.
Qed.
Lemma readOnly_checkValidatorFunds m owner price :
  readOnly (checkValidatorFunds (E:=E) m owner price).
Proof.
  unfold checkValidatorFunds. destruct (m !! owner); [auto with go|].
  apply readOnly_bind; [auto with go|]. intros [|b bs]; [auto with go|].
  apply readOnly_bind; [auto with go|]. intros v. destruct (TotalStakeValue v); [|auto with go].
  destruct (_ =? 0)%Z; [auto with go|]. destruct (_ <=? _)%Z; [auto with go|].
  apply readOnly_bind; [|auto with go]. apply readOnly_foldEach. intros n x.
  apply readOnly_bind; [apply readOnly_getReg|auto with go].
Qed.

(** *** cleanAdditionalQueue *)

(** the nodes still to be looked at are queued *)
Definition pendingNodes (l : list (bytes * StakedDataV2_0)) (s : State) : Prop :=
  NoDup (fst <$> l) ∧ Forall (λ n, validKey (fst n) ∧ fst n ∈ queueOf s) l.

Lemma pendingNodes_queue e s :
  Rep h e s → pendingNodes (map (λ k, (k, regOf s k)) (queueOf s)) s.
Proof.
  intros HR. pose proof (rep_queue _ _ _ HR) as Hq. split.
  - rewrite -list_fmap_compose /compose /= list_fmap_id. apply Hq.
  - apply Forall_map, Forall_forall. intros k Hk. split; [|done].
    by eapply QueueRep_valid.
Qed.
Lemma pendingNodes_rev l s : pendingNodes l s → pendingNodes (rev l) s.
Proof.
  change (rev l) with (List.rev l). rewrite List.rev_alt. change (rev_append l []) with (reverse l).
  intros [Hn Hf]. split; [|by apply Forall_reverse].
  by rewrite (reverse_Permutation l).
Qed.
(** they still are after the first one has left *)
Lemma pendingNodes_tail n l s d c :
  pendingNodes (n :: l) s →
  pendingNodes l (setReg n.1 d (setCfg c (setQueue (removeQ n.1 (queueOf s) (prefixOf s)) s))).
Proof.
  intros [Hn Hf]. rewrite fmap_cons NoDup_cons in Hn. destruct Hn as [Hn1 Hn].
  apply Forall_cons in Hf as [_ Hf]. split; [done|].
  rewrite !Forall_forall in Hf |- *. intros x Hx. destruct (Hf x Hx) as [Hv Hq].
  split; [done|]. apply (elem_of_removeQ _ _ _ (prefixOf s)). split; [done|].
  intros Heq. apply Hn1. rewrite -Heq. by apply list_elem_of_fmap_2.
Qed.

Lemma wp_cleanOne acc n l s e (Q : outcome error cleanAcc → E → Prop) :
  Rep h e s → Inv s → pendingNodes (n :: l) s →
  (∀ acc' e' s', Rep h e' s' → Inv s' → pendingNodes l s' → Q (Ret acc') e') →
  (∀ err e', Q (Throw err) e') → (∀ e', Q Panic e') →
  wp (cleanOne acc n) Q e.
Proof.
  intros HR HI Hp HQ HQ' HQ''. destruct n as [k sd]. unfold cleanOne.
  pose proof Hp as [Hn [[Hk Hkq] Hf]%Forall_cons]. simpl in Hk, Hkq.
  apply wp_bind, wp_readOnly; [apply readOnly_checkValidatorFunds|].
  intros [[num checked]|err|]; [|apply HQ'|apply HQ'']. destruct (num =? 0)%Z.
  { apply wp_ret. eapply HQ; [exact HR|done|]. split; [|done].
    by apply NoDup_cons in Hn as [_ ?]. }
  hsteps. eapply Rep_remove; [apply CF|apply CF|exact HR|done|].
  intros e1 HR1. cbn beta iota. do 2 hstep; [done|]. do 2 hstep.
  destruct (setUnStaked_ok h Hh (regOf s k) e1 _ HR1) as (Hd' & Hs' & Hw');
    [by eapply rep_data|].
  cbn [regOf setQueue]. hsteps. eapply HQ; [eassumption| |].
  - apply Inv_leave; [done|done|done|]. rewrite Hs'. symmetry.
    apply (inv_exclusive _ HI _ Hk). by apply (inv_waiting _ HI).
  - destruct s as [reg cfg q j]. by apply (pendingNodes_tail (k, sd) l _ _ cfg).
Qed.

Lemma wp_finishAll (l : list bytes) e s (Q : outcome ReturnCode unit → E → Prop) :
  Rep h e s → (∀ e', Rep h e' s → Q (Ret tt) e') → wp (forEach l finish) Q e.
Proof.
  intros HR HQ. apply (wp_forEach (λ _ e, Rep h e s)); [done| |done].
  intros x t e1 HR1. hsteps. done.
Qed.

Lemma wp_cleanAdditionalQueue e s args :
  Rep h e s → Inv s → wp (cleanAdditionalQueue args) (post h True) e.
Proof.
  intros HR HI. unfold cleanAdditionalQueue. hsteps.
  eapply Rep_getElements; [exact HR|]. intros r Hr Hk _. cbn beta iota.
  destruct (length (blsKeys r) =? 0); [hsteps; by eapply post_ok|].
  hsteps. unfold cleanAdditionalQueueNotEnoughFunds. rewrite Hr.
  apply (wp_foldEach (λ l _ e, ∃ s, Rep h e s ∧ Inv s ∧ pendingNodes l s)).
  - exists s. split_and!; [done..|]. by eapply pendingNodes_rev, pendingNodes_queue.
  - intros n t acc e1 (s1 & HR1 & HI1 & Hp1).
    eapply wp_cleanOne; [done|done|done|by eauto|intros; exits|intros; done].
  - intros acc e1 (s1 & HR1 & HI1 & _). cbn beta iota. hsteps.
    apply (wp_forEach (λ _ e, Rep h e s1)); [done|..].
    + intros o t e2 HR2. hsteps. eapply wp_finishAll; [eassumption|done].
    + intros e2 HR2. cbn beta iota. hsteps. by eapply post_ok.
Qed.

(** *** stakeNodesFromQueue *)

(** the state once the [n] nodes staked by the loop have been counted *)
Definition countLater (n : Z) (s : State) : State :=
  setCfg (withStakedNodes (StakedNodes (cfgOf s) + n) (cfgOf s)) s.

(** the registrations read before the loop are still those of the storage *)
Definition freshNodes (l : list (bytes * StakedDataV2_0)) (s : State) : Prop :=
  pendingNodes l s ∧ Forall (λ n, snd n = regOf s (fst n)) l.

Lemma freshNodes_tail n l s d :
  freshNodes (n :: l) s →
  freshNodes l (setReg n.1 d (setQueue (removeQ n.1 (queueOf s) (prefixOf s)) s)).
Proof.
  intros [Hp Hf]. split.
  - destruct s as [reg cfg q j]. by apply (pendingNodes_tail n l _ d cfg).
  - destruct Hp as [Hn _]. rewrite fmap_cons NoDup_cons in Hn. destruct Hn as [Hn1 _].
    apply Forall_cons in Hf as [_ Hf]. rewrite !Forall_forall in Hf |- *. intros x Hx.
    rewrite (Hf x Hx) /= fn_lookup_insert_ne //. intros Heq. apply Hn1. rewrite Heq.
    by apply list_elem_of_fmap_2.
Qed.

Lemma wp_stakeNodesLoop nodes numNodes price n checked s e
    (Q : outcome ReturnCode Z → E → Prop) :
  Rep h e s → Inv (countLater n s) → freshNodes nodes s →
  (0 ≤ n)%Z → (n + Z.of_nat (length nodes) < 2 ^ 32)%Z →
  (∀ n' e' s', Rep h e' s' → Inv (countLater n' s') → cfgOf s' = cfgOf s →
     (0 ≤ n' < 2 ^ 32)%Z → Q (Ret n') e') →
  (∀ e', Q (Throw UserError) e') → (∀ e', Q Panic e') →
  wp (stakeNodesLoop nodes numNodes price n checked) Q e.
Proof.
  intros HR HI Hf Hn0 Hlen HQ HQ' HQ''. revert n checked s e HR HI Hf Hn0 Hlen HQ.
  induction nodes as [|[k sd] nodes IH]; intros n checked s e HR HI Hf Hn0 Hlen HQ;
    cbn [stakeNodesLoop].
  { apply wp_ret. eapply HQ; try done. simpl in Hlen. lia. }
  pose proof Hf as [[Hnd [[Hk Hkq] Hpf]%Forall_cons] [Hsd Hff]%Forall_cons].
  simpl in Hk, Hkq, Hsd, Hlen.
  assert (freshNodes nodes s) as Hft.
  { split; [split|]; [by apply NoDup_cons in Hnd as [_ ?]|done..]. }
  destruct (numNodes <=? n)%Z.
  { apply wp_ret. eapply HQ; try done. lia. }
  hsteps. apply wp_readOnly; [apply readOnly_checkValidatorFunds|].
  intros [[num checked']|err|]; cbn beta iota; [|apply HQ'|apply HQ'']. destruct (0 <? num)%Z.
  { eapply IH; try done. lia. }
  hstep. hstep. subst sd.
  destruct (activeStakingFor_ok h Hh (regOf s k) e _ HR) as (Hd' & Hs' & Hw');
    [by eapply rep_data|].
  do 3 hstep. hstep. hstep. eapply Rep_remove; [apply CF|apply CF|eassumption|done|].
  intros e2 HR2. cbn beta iota. hsteps.
  assert (Staked (regOf s k) = false) as Hst.
  { apply (inv_exclusive _ HI _ Hk). by apply (inv_waiting _ HI). }
  assert (u64 (n + 1) = n + 1)%Z as -> by (unfold u64; rewrite Z.mod_small; lia).
  eapply IH; [eassumption| | |lia|lia|].
  - pose proof (Inv_activate k (activeStakingFor (regOf s k) e) (countLater n s)
      (removeQ k (queueOf s) (prefixOf s))
      (withStakedNodes (StakedNodes (cfgOf s) + (n + 1)) (cfgOf s))) as Hact.
    apply Hact; try done; [intros x; apply elem_of_removeQ|].
    unfold countLater. destruct (cfgOf s); simpl. lia.
  - apply (freshNodes_tail (k, regOf s k)); done.
  - intros n' e3 s3 HR3 HI3 Hc. by eapply HQ.
Qed.

Lemma wp_stakeNodesFromQueue e s args :
  Rep h e s → Inv s → capacity s → wp (stakeNodesFromQueue args) (post h True) e.
Proof.
  intros HR HI [Hcq Hcs]. unfold stakeNodesFromQueue. hsteps.
  eapply Rep_getElements; [exact HR|]. intros r Hr Hk _. cbn beta iota.
  destruct (length (blsKeys r) =? 0); [hsteps; by eapply post_ok|].
  cbv zeta. hstep. rewrite Hr.
  eapply wp_stakeNodesLoop; [exact HR| | |done| | |intros; exits|done].
  - unfold countLater. rewrite Z.add_0_r. apply Inv_setCfg; [by destruct (cfgOf s)|done].
  - split; [by eapply pendingNodes_queue|]. by apply Forall_map, Forall_true.
  - rewrite length_map. lia.
  - intros n e1 s1 HR1 HI1 Hc Hn. cbn beta iota. hstep.
    eapply Rep_addToStakedNodes; [exact HR1|]. intros e2 HR2. cbn beta iota. hsteps.
    eapply post_ok; [exact HR2|].
    pose proof (counted_nonneg _ _ (inv_counted _ HI)).
    rewrite Hc !(i64_small n) in HR2 |- *; [|unfold isI64; lia..].
    rewrite i64_small; [|unfold isI64; lia]. by rewrite -Hc.
Qed.

(** *** Views *)
Lemma wp_getAny k e (Q : outcome error StakedDataV2_0 → E → Prop) :
  (∀ d, Q (Ret d) e) → (∀ err, Q (Throw err) e) → wp (getOrCreateRegisteredData k) Q e.
Proof.
  intros HQ HQ'. unfold wp, getOrCreateRegisteredData, bind, gets, ret.
  destruct (orEmpty _); [apply HQ|]. by destruct (Unmarshal _ _); simpl.
Qed.

(** the position is reported, and nothing else happens *)
Lemma waitingListIndex_eq e s args k i :
  Rep h e s → IsFlagEnabled StakingV4StartedFlag = false →
  callerOf args = stakeAccessAddr → Arguments args = [k] → queueOf s !! i = Some k →
  getWaitingListIndex args e = (Ret Ok, Finish (itoa (Z.of_nat i + 1)) e).
Proof.
  clear MLd MLc Hh CF.
  intros HR Hv4 Hcaller Hargs Hi. pose proof (rep_queue _ _ _ HR) as Hq.
  pose proof (qr_nodup _ _ _ Hq) as Hnd.
  apply list_elem_of_split_length in Hi as (q1 & q2 & Hqs & ->).
  rewrite Hqs in Hq, Hnd.
  pose proof (queued_element _ _ _ _ _ Hq) as Hel.
  apply wp_run. unfold getWaitingListIndex, arg.
  rewrite Hv4 Hcaller Hargs bool_decide_true //. cbn [negb length Nat.eqb nth].
  unfold returnIf. do 8 hstep.
  eapply wp_eq; [exact Hel|]. cbn beta iota. do 2 hstep.
  eapply wp_eq; [exact (getHead_eq _ _ _ Hq)|]. cbn beta iota.
  cbn [FirstKey LastKey Length headOf].
  destruct q1 as [|f q1]; [by rewrite /= bool_decide_true|]. cbn [app hdKey] in *.
  rewrite bool_decide_false.
  2: { intros ->%wk_inj. apply NoDup_cons in Hnd. set_solver. }
  destruct q2 as [|x q2].
  { rewrite (lastKeyOf_app _ (f :: q1)) bool_decide_true //.
    cbn [length]. rewrite length_app /=.
    assert (Z.of_nat (S (length q1 + 1)) = Z.of_nat (S (length q1)) + 1)%Z as -> by lia.
    done. }
  rewrite bool_decide_false.
  2: { intros Heq. symmetry in Heq. revert Heq. by apply (lastKeyOf_ne (f :: q1)). }
  do 2 hstep. eapply wp_eq; [exact (queued_element e [] f (q1 ++ k :: x :: q2) _ Hq)|].
  cbn beta iota. cbn [NextKey].
  set (nk := hdKey (q1 ++ k :: x :: q2) []).
  assert (goCopy (replicate (length (wk k)) x00) nk = nk) as ->.
  { assert (∃ y, y ∈ f :: q1 ++ k :: x :: q2 ∧ nk = wk y) as (y & Hy & ->).
    { subst nk. destruct q1 as [|y q1]; [exists k|exists y]; set_solver. }
    apply goCopy_wk; (eapply QueueRep_valid; [exact Hq|]); set_solver. }
  cbv zeta. do 2 hstep. eapply wp_eq.
  { apply (waitingListIndexLoop_eq e (prefixOf s) k (x :: q2) q1 [f]); [exact Hq|].
    simpl. rewrite length_app. lia. }
  cbn beta iota. done.
Qed.

Lemma wp_getWaitingListIndex e s args :
  Rep h e s → Inv s → validKey (arg args 0) → wp (getWaitingListIndex args) (post h False) e.
Proof.
  intros HR HI Hk. destruct (IsFlagEnabled StakingV4StartedFlag) eqn:Hv4;
    [by unfold getWaitingListIndex; rewrite Hv4|].
  destruct (decide (callerOf args = stakeAccessAddr)) as [Hc|Hc].
  2: { unfold getWaitingListIndex. rewrite Hv4 /= bool_decide_false //. }
  destruct (Arguments args) as [|k [|? ?]] eqn:Hargs;
    try by (unfold getWaitingListIndex; rewrite Hv4 Hc Hargs /= bool_decide_true).
  unfold arg in Hk. rewrite Hargs /= in Hk.
  destruct (decide (k ∈ queueOf s)) as [Hin|Hin].
  - apply list_elem_of_lookup in Hin as [i Hi].
    eapply wp_eq; [by eapply waitingListIndex_eq|].
    eapply post_ok; [|exact HI].
    eapply Rep_frame; [..|exact HR]; intros; by autorewrite with eei.
  - unfold getWaitingListIndex. hsteps. unfold arg. rewrite Hargs /=.
    eapply wp_eq; [by eapply absent_element; [apply (rep_queue _ _ _ HR)|..]|]. exits.
Qed.

Lemma wp_getWaitingListSize e s args :
  Rep h e s → Inv s → wp (getWaitingListSize args) (post h False) e.
Proof.
  intros HR HI. unfold getWaitingListSize. hsteps.
  eapply wp_getHead; [apply (rep_queue _ _ _ ltac:(eassumption))|]. cbn beta iota.
  hsteps. by eapply post_ok.
Qed.

Lemma wp_getTotalNumberOfRegisteredNodes e s args :
  Rep h e s → Inv s → wp (getTotalNumberOfRegisteredNodes args) (post h False) e.
Proof.
  intros HR HI. unfold getTotalNumberOfRegisteredNodes. hsteps.
  eapply wp_getHead; [apply (rep_queue _ _ _ HR)|]. cbn beta iota.
  hsteps. by eapply post_ok.
Qed.

Lemma wp_getQueueRegisterNonceAndRewardAddress e s args :
  Rep h e s → Inv s →
  wp (getWaitingListRegisterNonceAndRewardAddress args) (post h False) e.
Proof.
  intros HR HI. unfold getWaitingListRegisterNonceAndRewardAddress. hsteps.
  eapply Rep_getElements; [exact HR|]. intros r Hr Hk _. cbn beta iota. hsteps.
  apply (wp_forEach (λ _ e, Rep h e s)); [done|..].
  - intros [k d] t e1 HR1. hsteps. done.
  - intros e1 HR1. cbn beta iota. hsteps. by eapply post_ok.
Qed.

Lemma wp_isStaked e s args :
  Rep h e s → Inv s → wp (isStaked args) (post h False) e.
Proof.
  intros HR HI. unfold isStaked. do 6 hstep.
  apply wp_getAny; [intros d|intros err]; cbn beta iota; [|exits].
  hsteps. destruct (Staked d); hsteps; [by eapply post_ok|done].
Qed.

Lemma wp_getStakedDataIfExists e s args (Q : outcome ReturnCode StakedDataV2_0 → E → Prop) :
  Rep h e s → (∀ d e', Rep h e' s → Q (Ret d) e') →
  (∀ c e', c ≠ Ok → Q (Throw c) e') →
  wp (getStakedDataIfExists args) Q e.
Proof.
  intros HR HQ HQ'. unfold getStakedDataIfExists. hstep.
  eapply Rep_useGas; [exact HR|intros e1 HR1|intros; by apply HQ'].
  hstep. apply wp_returnIf; intros ?; cbn beta iota; [by apply HQ'|]. do 2 hstep.
  apply wp_getAny; [intros d|intros err]; cbn beta iota; [|by apply HQ'].
  hsteps; [by apply HQ'|by apply HQ].
Qed.

Lemma wp_getRewardAddress e s args :
  Rep h e s → Inv s → wp (getRewardAddress args) (post h False) e.
Proof.
  intros HR HI. unfold getRewardAddress. hsteps.
  eapply wp_getStakedDataIfExists; [exact HR| |by intros c e' Hc ?].
  intros d e1 HR1. cbn beta iota. hsteps. by eapply post_ok.
Qed.

Lemma wp_getBLSKeyStatus e s args :
  Rep h e s → Inv s → wp (getBLSKeyStatus args) (post h False) e.
Proof.
  intros HR HI. unfold getBLSKeyStatus. hsteps.
  eapply wp_getStakedDataIfExists; [exact HR| |by intros c e' Hc ?].
  intros d e1 HR1. cbn beta iota. hsteps. by eapply post_ok.
Qed.

Lemma wp_getRemainingUnbondPeriod e s args :
  Rep h e s → Inv s → wp (getRemainingUnbondPeriod args) (post h False) e.
Proof.
  intros HR HI. unfold getRemainingUnbondPeriod. hsteps.
  eapply wp_getStakedDataIfExists; [exact HR| |by intros c e' Hc ?].
  intros d e1 HR1. cbn beta iota. hsteps. destruct (_ <=? _)%Z; hsteps; by eapply post_ok.
Qed.

Lemma wp_getOwner e s args :
  Rep h e s → Inv s → wp (getOwner args) (post h False) e.
Proof.
  intros HR HI. unfold getOwner. do 8 hstep.
  apply wp_getAny; [intros d|intros err]; cbn beta iota; [|exits].
  hsteps. by eapply post_ok.
Qed.

(** *** unStakeAllNodesFromQueue: the start of staking v4 *)

(** the delegation contracts that are told about their unstaked nodes return,
    and do not write the storage of the staking contract *)
Definition nestedCallsKeepStorage : Prop :=
  ∀ dst snd v input (e : E),
    (ExecuteOnDestContext dst snd v input e).1 ≠ Panic
    ∧ (∀ key, GetStorage key (ExecuteOnDestContext dst snd v input e).2 = GetStorage key e)
    ∧ hookOf (ExecuteOnDestContext dst snd v input e).2 = hookOf e.

Definition unStakedNow (d : StakedDataV2_0) : StakedDataV2_0 :=
  withWaiting false (withUnStakedNonce (CurrentNonce h)
    (withUnStakedEpoch (CurrentEpoch h) (withStaked false d))).

(** [q1] of the nodes of [s] have been unstaked, in a state whose queue is
    half taken apart *)
Record halfUnStaked (s : State) (q1 q2 : list bytes) (e : E)
    (reg' : bytes → StakedDataV2_0) : Prop := {
  hu_base : RepBase h e (mkState reg' (cfgOf s) [] 0);
  hu_done k : k ∈ q1 → reg' k = unStakedNow (regOf s k);
  hu_rest k : validKey k → k ∉ q1 → reg' k = regOf s k;
  hu_absent k : validKey k → k ∉ q2 → orEmpty (GetStorage (wk k) e) = [];
}.

Lemma RepBase_state e reg cfg q j q' j' :
  RepBase h e (mkState reg cfg q j) → RepBase h e (mkState reg cfg q' j').
Proof. intros []. by split. Qed.

Lemma setUnStaked_now e s d : RepBase h e s → setUnStaked d e = unStakedNow d.
Proof. intros HR. unfold setUnStaked. by rewrite (rb_hook _ _ _ HR). Qed.

Lemma wp_unStakeQueued s q1 k q2 acc e reg' (Q : outcome ReturnCode _ → E → Prop) :
  halfUnStaked s q1 (k :: q2) e reg' → NoDup (q1 ++ k :: q2) → validKey k → dataOk (regOf s k) →
  (∀ acc' e' reg'', halfUnStaked s (q1 ++ [k]) q2 e' reg'' → Q (Ret acc') e') →
  wp (unStakeQueued acc (k, regOf s k)) Q e.
Proof.
  intros [Hb Hd Hr Ha] Hnd Hk Hok HQ. destruct acc as [owners keys].
  unfold unStakeQueued, doUnStake. do 3 hstep. rewrite (setUnStaked_now _ _ _ Hb). do 2 hstep.
  eapply RepBase_save; [apply CF|apply CF|exact Hb|done| |].
  { eapply dataOk_Waiting, dataOk_UnStakedNonce, Hh; eauto with data.
    apply dataOk_UnStakedEpoch, Hh. auto with data. }
  intros e1 Hb1 Hf1. cbn beta iota. hstep. hstep.
  rewrite bool_decide_true //. unfold returnQuietIf. cbn [negb]. do 2 hstep.
  apply wp_erase. intros e2 Hf2 Hn2 Hh2. cbn beta iota. hstep.
  apply (HQ _ _ (<[k := unStakedNow (regOf s k)]> reg')).
  apply NoDup_app in Hnd as (_ & Hdis & [Hkq2 _]%NoDup_cons). split.
  - eapply (RepBase_state _ _ _ [] 0). destruct Hb1 as [Hr1 Hd1 Hc1 Hco1 Ho1 Hk1].
    split; simpl in *; try done.
    + intros x Hx. eapply getReg_frame; [apply Hf2|by apply Hr1].
      intros ->. by apply (validKey_not_queue (wk k)), queueKey_wk.
    + rewrite (getConfig_frame e1) //. by apply Hf2.
    + by rewrite Hf2.
    + by rewrite Hh2.
  - intros x [Hx| ->%list_elem_of_singleton]%elem_of_app.
    + rewrite fn_lookup_insert_ne; [by apply Hd|]. intros ->. by apply (Hdis x Hx); left.
    + by rewrite fn_lookup_insert.
  - intros x Hx Hnot. rewrite not_elem_of_app list_elem_of_singleton in Hnot.
    rewrite fn_lookup_insert_ne; [|by intros ->; tauto]. apply Hr; tauto.
  - intros x Hx Hnot. destruct (decide (x = k)) as [->|Hne]; [by rewrite Hn2|].
    rewrite Hf2; [|auto with go]. rewrite Hf1.
    + apply Ha; [done|]. set_solver.
    + intros Heq. apply (validKey_not_queue k Hk). rewrite -Heq. auto with go.
Qed.

Lemma wp_executeOnOwners (owners : list bytes) (keys : gmap bytes (list bytes)) rcv e s
    (Q : outcome ReturnCode unit → E → Prop) :
  nestedCallsKeepStorage → Rep h e s →
  (∀ e', Rep h e' s → Q (Ret tt) e') → (∀ c e', c ≠ Ok → Q (Throw c) e') →
  wp (forEach owners (λ owner,
        let listOfKeys := default [] (keys !! owner) in
        let! shard := gets (λ e, GetShardOfAddress (hookOf e) owner) in
        if negb (shard =? MetachainShardId)%Z then ret tt
        else
          let! returnCode := executeOnStakeAtEndOfEpoch owner listOfKeys rcv in
          returnQuietIf (negb (bool_decide (returnCode = Ok))) returnCode)) Q e.
Proof.
  intros Hnest HR HQ HQ'. apply (wp_forEach (λ _ e, Rep h e s)); [done| |done].
  intros o t e1 HR1. cbv zeta. hsteps. destruct (negb _); [by hstep|].
  hstep. unfold executeOnStakeAtEndOfEpoch. cbv zeta. do 2 hstep.
  set (call := foldl _ _ _). destruct (Hnest o rcv 0%Z call e1) as (Hp & Hf & Hk).
  unfold wp at 1. destruct (ExecuteOnDestContext o rcv 0 call e1) as [[out|err|] e2];
    cbn in Hp, Hf, Hk |- *; [|by apply HQ'|done].
  assert (Rep h e2 s) as HR2 by (by eapply Rep_frame).
  apply wp_returnQuietIf; intros Hc; cbn beta iota; [|done].
  apply HQ'. intros Hok. rewrite Hok in Hc. done.
Qed.

(** what the end of the queue means for the registrations *)
Definition queueUnStaked (s s' : State) : Prop :=
  queueOf s' = [] ∧ cfgOf s' = cfgOf s ∧
  (∀ k, k ∈ queueOf s → regOf s' k = unStakedNow (regOf s k)) ∧
  (∀ k, validKey k → k ∉ queueOf s → regOf s' k = regOf s k).

Lemma halfUnStaked_end s e reg' :
  InvCore s → halfUnStaked s (queueOf s) [] e reg' →
  let s' := mkState reg' (cfgOf s) [] 0 in
  orEmpty (GetStorage waitingListHeadKey e) = [] →
  Rep h e s' ∧ Inv s' ∧ queueUnStaked s s'.
Proof.
  intros [Hw He Hc] [Hb Hd Hr Ha] s' Hhead. split_and!.
  - apply Rep_of_base; [done|]. split; try done; simpl; try constructor; try lia.
  - assert (∀ k, validKey k → Waiting (reg' k) = false ∧ Staked (reg' k) = Staked (regOf s k))
      as Hreg.
    { intros k Hk. destruct (decide (k ∈ queueOf s)) as [Hin|Hin].
      - rewrite Hd //. apply Hw in Hin as Hwk; [|done]. rewrite (He k Hk Hwk).
        unfold unStakedNow. by destruct (regOf s k).
      - rewrite Hr //. split; [|done]. apply not_true_iff_false. by rewrite Hw. }
    split; [split|]; simpl; try done.
    + intros k Hk. rewrite (proj1 (Hreg k Hk)). set_solver.
    + intros k Hk. by rewrite (proj1 (Hreg k Hk)).
    + eapply counted_ext; [|exact Hc]. intros k Hk. by apply Hreg.
  - by split_and!.
Qed.

Lemma wp_unStakeAllNodesFromQueue e s args :
  nestedCallsKeepStorage → Rep h e s → InvCore s →
  wp (unStakeAllNodesFromQueue args)
    (λ o e', match o with
             | Ret c | Throw c => c = Ok → ∃ s', Rep h e' s' ∧ Inv s' ∧ queueUnStaked s s'
             | Panic => False
             end) e.
Proof.
  intros Hnest HR HI. unfold unStakeAllNodesFromQueue. hsteps.
  pose proof (rep_queue _ _ _ HR) as Hq.
  eapply Rep_getElements; [exact HR|]. intros r Hr Hk _. cbn beta iota. rewrite Hk.
  destruct (length (queueOf s) =? 0) eqn:Hlen.
  { hsteps. intros _. apply Nat.eqb_eq, length_zero_iff_nil in Hlen. exists s. split; [done|].
    split; [by split|]. split_and!; try done. intros k. rewrite Hlen. set_solver. }
  hstep. rewrite Hr.
  apply (wp_foldEach (λ l _ e, ∃ q1 q2 reg',
    queueOf s = q1 ++ q2 ∧ l = map (λ k, (k, regOf s k)) q2 ∧ halfUnStaked s q1 q2 e reg')).
  - exists [], (queueOf s), (regOf s). split_and!; [done..|]. destruct s as [reg cfg q j]. split.
    + by eapply RepBase_state, Rep_base.
    + intros k. set_solver.
    + done.
    + apply (qr_absent _ _ _ Hq).
  - intros n t acc e1 (q1 & q2 & reg' & Hqs & Hl & Hhalf).
    destruct q2 as [|k q2]; [done|]. injection Hl as -> ->.
    assert (validKey k) as Hkv by (eapply QueueRep_valid; [exact Hq|rewrite Hqs; set_solver]).
    eapply wp_unStakeQueued; [exact Hhalf|rewrite -Hqs; apply Hq|done|by eapply rep_data|].
    intros acc' e2 reg2 Hhalf2. cbn beta iota. exists (q1 ++ [k]), q2, reg2.
    by rewrite -app_assoc.
  - intros [owners keys] e1 (q1 & q2 & reg' & Hqs & Hl & Hhalf). cbn beta iota.
    destruct q2; [|done]. rewrite app_nil_r in Hqs. subst q1.
    hstep. apply wp_erase. intros e2 Hf2 Hn2 Hh2. cbn beta iota.
    destruct (halfUnStaked_end s e2 reg') as (HR2 & HI2 & Hu); [done| |by rewrite Hn2|].
    { destruct Hhalf as [Hb Hd Hrest Ha]. split; try done.
      - destruct Hb as [Hr1 Hd1 Hc1 Hco1 Ho1 Hk1]. split; simpl in *; try done.
        + intros x Hx. eapply getReg_frame; [apply Hf2|by apply Hr1]. by intros ->.
        + rewrite (getConfig_frame e1) //. by apply Hf2.
        + by rewrite Hf2.
        + by rewrite Hh2.
      - intros k Hkv Hnot. rewrite Hf2; [|auto with go]. by apply Ha. }
    hstep. eapply wp_executeOnOwners; [done|exact HR2| |].
    + intros e3 HR3. cbn beta iota. hstep. intros _. eauto.
    + intros c e3 Hc. by intros ?.
Qed.
End queue_handlers.
