(* ===== verification/Concrete.v ===== *)
(** * Concrete: an executable instance of the parameters

    A marshaller that satisfies the laws, a chain with empty storage and the
    staking contract's configuration, on which the theorems' hypotheses can be
    met and the operations evaluated. *)
From S2P Require Import Prelude SystemEI StakingData StakingNodes WaitingList.
From S2P Require Import StakingQueue StakingSC QueueSpec StakingSpec Eei.
#[local] Open Scope go_scope.

(** ** Fields and records as bytes *)
Fixpoint encField (b : bytes) : bytes :=
  match b with [] => [x00] | x :: t => x01 :: x :: encField t end.
Definition encFields (l : list bytes) : bytes := concat (map encField l).
Fixpoint decFields (b : bytes) (acc : bytes) : list bytes :=
  match b with
  | x00 :: t => rev acc :: decFields t []
  | _ :: x :: t => decFields t (x :: acc)
  | _ => []
  end.

Lemma decFields_enc l : decFields (encFields l) [] = l.
Proof.
  assert (∀ f acc t, decFields (encField f ++ t) acc = (rev acc ++ f) :: decFields t []) as Hf.
  { induction f as [|x f IH]; intros acc t; simpl; [by rewrite app_nil_r|].
    by rewrite IH /= -app_assoc. }
  induction l as [|f l IH]; [done|]. unfold encFields. simpl. by rewrite Hf IH.
Qed.
Lemma encFields_nil l : encFields l = [] → l = [].
Proof. destruct l as [|[|x f] l]; done. Qed.

Fixpoint encPos (p : positive) : bytes :=
  match p with xH => [] | xO p => x00 :: encPos p | xI p => x01 :: encPos p end.
Fixpoint decPos (b : bytes) : positive :=
  match b with [] => xH | x00 :: t => xO (decPos t) | _ :: t => xI (decPos t) end.
Lemma decPos_enc p : decPos (encPos p) = p.
Proof. induction p; simpl; congruence. Qed.
Definition encZ (z : Z) : bytes :=
  match z with Z0 => [] | Zpos p => x00 :: encPos p | Zneg p => x01 :: encPos p end.
Definition decZ (b : bytes) : Z :=
  match b with [] => 0 | x00 :: t => Zpos (decPos t) | _ :: t => Zneg (decPos t) end%Z.
Lemma decZ_enc z : decZ (encZ z) = z.
Proof. destruct z; simpl; rewrite ?decPos_enc; done. Qed.
Definition encOZ (o : option Z) : bytes :=
  match o with None => [] | Some z => x00 :: encZ z end.
Definition decOZ (b : bytes) : option Z :=
  match b with [] => None | _ :: t => Some (decZ t) end.
Lemma decOZ_enc o : decOZ (encOZ o) = o.
Proof. destruct o; simpl; rewrite ?decZ_enc; done. Qed.
Definition encB (b : bool) : bytes := if b then [x01] else [].
Definition decB (b : bytes) : bool := match b with [] => false | _ => true end.
Lemma decB_enc b : decB (encB b) = b.
Proof. by destruct b. Qed.

(** a type given by its fields *)
Class Fields (T : Type) : Type := {
  fieldsOf : T → list bytes;
  ofFields : list bytes → option T;
  of_fieldsOf x : ofFields (fieldsOf x) = Some x;
  fieldsOf_nonempty x : fieldsOf x ≠ [];
}.
Definition fieldsMarshaller {T} `{Fields T} : Marshaller T := {|
  Marshal x := inr (encFields (fieldsOf x));
  Unmarshal _ b := match ofFields (decFields b []) with
                   | Some x => inr x
                   | None => inl "cannot unmarshal"%string
                   end;
|}.
Lemma fieldsMarshaller_laws {T} `{Fields T} (inRange : T → Prop) (zero : T) :
  @MarshallerLaws T fieldsMarshaller inRange zero.
Proof.
  split; simpl.
  - eauto.
  - intros x x0 b _ [= <-]. by rewrite decFields_enc of_fieldsOf.
  - intros x _ [= Hb]. apply encFields_nil in Hb. by apply fieldsOf_nonempty in Hb.
Qed.

#[export, refine] Instance stakedData_fields : Fields StakedDataV2_0 := {
  fieldsOf d := [ encZ (RegisterNonce d); encZ (StakedNonce d); encB (Staked d);
    encZ (UnStakedNonce d); encZ (UnStakedEpoch d); RewardAddress d; encOZ (StakeValue d);
    encZ (JailedRound d); encZ (JailedNonce d); encZ (UnJailedNonce d); encB (Jailed d);
    encB (Waiting d); encZ (NumJailed d); encOZ (SlashValue d); OwnerAddress d ];
  ofFields l := match l with
    | [a; b; c; d; e; f; g; h; i; j; k; l; m; n; o] => Some (mkStakedData (decZ a) (decZ b) (decB c)
        (decZ d) (decZ e) f (decOZ g) (decZ h) (decZ i) (decZ j) (decB k) (decB l) (decZ m)
        (decOZ n) o)
    | _ => None
    end;
}.
Proof. - intros []; simpl. by rewrite !decZ_enc !decB_enc !decOZ_enc. - by intros []. Defined.

#[export, refine] Instance config_fields : Fields StakingNodesConfig := {
  fieldsOf c := [ encZ (MinNumNodes c); encZ (MaxNumNodes c); encZ (StakedNodes c);
                  encZ (JailedNodes c) ];
  ofFields l := match l with
    | [a; b; c; d] => Some (mkConfig (decZ a) (decZ b) (decZ c) (decZ d))
    | _ => None
    end;
}.
Proof. - intros []; simpl. by rewrite !decZ_enc. - by intros []. Defined.

#[export, refine] Instance element_fields : Fields ElementInList := {
  fieldsOf x := [ BLSPublicKey x; PreviousKey x; NextKey x ];
  ofFields l := match l with [a; b; c] => Some (mkElement a b c) | _ => None end;
}.
Proof. all: by intros []. Defined.

#[export, refine] Instance waitingList_fields : Fields WaitingList := {
  fieldsOf w := [ FirstKey w; LastKey w; encZ (Length w); LastJailedKey w ];
  ofFields l := match l with
    | [a; b; c; d] => Some (mkWaitingList a b (decZ c) d)
    | _ => None
    end;
}.
Proof. - intros []; simpl. by rewrite !decZ_enc. - by intros []. Defined.

(** the types whose bytes the examples never read *)
Definition opaqueMarshaller {T} : Marshaller T := {|
  Marshal _ := inl "not stored"%string;
  Unmarshal _ _ := inl "not stored"%string;
|}.

(** ** The staking contract *)
Definition validatorSC : bytes := replicate 32 x01.
Definition endOfEpochSC : bytes := replicate 32 x02.
Definition stakingSCAddress : bytes := replicate 32 x03.
Definition ownerAddress : bytes := replicate 32 x04.

(** the flags of an epoch: the queue in use, or staking v4 *)
Inductive epochFlags : Type := QueueEpoch | V4Step1Epoch | V4Epoch.
Definition flagsOf (f : epochFlags) (flag : EnableEpochFlag) : bool :=
  match flag, f with
  | StakingV4Step1Flag, V4Step1Epoch => true
  | StakingV4Step1Flag, _ => false
  | StakingV4StartedFlag, QueueEpoch => false
  | _, _ => true
  end.

Definition exampleContract (flags : EnableEpochFlag → bool) : StakingContract := {|
  unBondPeriod := 10;
  stakeAccessAddr := validatorSC;
  jailAccessAddr := endOfEpochSC;
  endOfEpochAccessAddr := endOfEpochSC;
  gasCostGet := 1;
  gasCostFixWaitingListSize := 1;
  minNumNodes := 1;
  maxNumNodes := 2;
  stakeValue := 2500;
  walletAddressLen := 32;
  minNodePrice := 2500;
  IsFlagEnabled := flags;
  IsSmartContractAddress _ := true;
  stakedDataV2_marshaller := fieldsMarshaller;
  stakedDataV11_marshaller := opaqueMarshaller;
  stakedDataV10_marshaller := opaqueMarshaller;
  config_marshaller := fieldsMarshaller;
  element_marshaller := fieldsMarshaller;
  waitingList_marshaller := fieldsMarshaller;
  validatorData_marshaller := opaqueMarshaller;
|}.

(** ** The chain *)
Definition exampleHook : BlockchainHook := {|
  CurrentNonce := 7; CurrentRound := 8; CurrentEpoch := 0; GetShardOfAddress _ := 0%Z |}.

Definition exampleHostWith (contracts : option (bytes → error + SystemContract))
    (builtIn : ContractCallInput → error + VMOutput) : Host := {|
  hook := exampleHook;
  userAccount := unit;
  GetUserAccount _ := inl "no account"%string;
  GetCode _ := [];
  GetAccountBalance _ := 0%Z;
  GetStorageData _ _ := inr None;
  NumberOfShards := 3%Z;
  BuiltInFunction := builtIn;
  systemContracts := contracts;
  ParseData data := inr ("call"%string, [data]);
  GetPeerAccount _ := None;
  GetChance _ := 1%Z;
  hostFlag _ := true;
  MergeOutputAccounts l r := addOutputAccounts l r;
  FormatLogDataForCall _ _ _ := [];
  codeMetaDataBytes := [];
  SystemAccountAddress := replicate 32 xff;
  LoadSCAccount _ := inr tt;
  SaveAccountOwner _ _ := inr tt;
|}.

Definition exampleHost (contracts : option (bytes → error + SystemContract)) : Host :=
  exampleHostWith contracts (λ _, inl "no such function"%string).

Definition exampleContext : vmContext :=
  mkContext {[0%nat := ∅]} 0 ∅ 1000 "" [] [] stakingSCAddress 1.

(** BLS keys *)
Definition key1 : bytes := replicate 96 x11.
Definition key2 : bytes := replicate 96 x22.
Definition key3 : bytes := replicate 96 x33.

Definition callOf (caller : bytes) (function : string) (arguments : list bytes) :
    ContractCallInput := {|
  CallerAddr := Some caller; Arguments := arguments; CallValue := Some 0%Z;
  ESDTTransfers := 0; GasProvided := 100; RecipientAddr := Some stakingSCAddress;
  Function := function |}.
