(* ===== verification/EeiTheorems.v ===== *)
(** * EeiTheorems: the properties of the contracts' environment *)
From S2P Require Import Prelude SystemEI Eei SystemVM EeiSpec StakingData Concrete.
#[local] Open Scope go_scope.

Section eei_properties.
Context {HO : Host}.

(** C20: a nested call creates and destroys no value, where the two flags on the
    merging of contexts, MultiClaimOnDelegationFlag and
    AlwaysMergeContextsInEEIFlag, are on (without the second one the changes of a
    failed call are lost, the transfer of the value with them).  If no output
    account has a nil delta, and every contract of the container is such that from
    such accounts it does not panic, leaves no nil delta and keeps the sum of the
    deltas (keepsValue), then a nested call, whatever its input and whether the
    contract answers Ok or not, does not panic, keeps the sum of the balance
    deltas, and gives the control back to the calling contract's address. *)
Theorem executeOnDest_conserves_value dest sender value input host :
  hostFlag MultiClaimOnDelegationFlag = true → hostFlag AlwaysMergeContextsInEEIFlag = true →
  (∀ get a c, systemContracts = Some get → get a = inr c → keepsValue c) →
  noNil (outputAccounts host) →
  let r := eeiExecuteOnDestContext dest sender value input host in
  r.1 ≠ Panic ∧ totalDelta (outputAccounts r.2) = totalDelta (outputAccounts host) ∧
  scAddress r.2 = scAddress host.
Proof.
  intros Hm Ha Hc Hn.
  apply (wp_executeOnDest dest sender value input host (λ o h', o ≠ Panic ∧
    totalDelta (outputAccounts h') = totalDelta (outputAccounts host) ∧
    scAddress h' = scAddress host)); done.
Qed.

(** A transfer does not panic, subtracts the value from the sender's delta
    and adds it to the destination's (nothing at all if they are one account),
    appends one transfer with the value, the data and the next free number to
    the destination, and keeps the numbers of all transfers distinct. *)
Lemma Transfer_moves_value destination sender value input gasLimit host :
  noNil (outputAccounts host) → numbered host → (0 ≤ crtTransferIndex host < 2 ^ 32 - 1)%Z →
  ∃ host', eeiTransfer (X:=error) destination sender value input gasLimit host = (Ret tt, host') ∧
    moved destination sender value (outputAccounts host) (outputAccounts host') ∧
    numbered host' ∧ storageMap host' = storageMap host ∧
    ∃ a t before, outputAccounts host' !! destination = Some a ∧
      OutputTransfers a = before ++ [t] ∧ Index t = crtTransferIndex host ∧
      Value t = value ∧ GasLimit t = gasLimit ∧ Data t = input.
Proof.
  intros Hn Hnum Hr. apply wp_exists, wp_Transfer; [done..|].
  intros host' before Hm Hnum' _ Hst (a & t & ?). split; [done|]. split; [done|].
  split; [done|]. split; [done|]. by exists a, t, before.
Qed.

(** C21: a nested call of another address does not change what the calling
    contract reads, if contracts write their own storage only. *)
Theorem executeOnDest_isolates_storage dest sender value input host key :
  hostFlag MultiClaimOnDelegationFlag = true →
  (∀ get a c, systemContracts = Some get → get a = inr c → writesOwnStorage c) →
  noNil (outputAccounts host) → dest ≠ scAddress host →
  let host' := (eeiExecuteOnDestContext dest sender value input host).2 in
  eeiGetStorageFromAddress (scAddress host) key host' = eeiGetStorage key host.
Proof.
  intros Hm Hc Hn Hd.
  apply (wp_executeOnDest_storage dest sender value input host (λ o h',
    eeiGetStorageFromAddress (scAddress host) key h' = eeiGetStorage key host)); [done..|].
  intros o h' _ Hst. unfold eeiGetStorage, eeiGetStorageFromAddress. rewrite Hst //.
Qed.

(** C22: a nested call that fails keeps its writes.  The context of the call
    shares the storage map with the context of the caller, so the assignment that
    is commented "all changes must be deleted" assigns the map to itself: after
    the nested part every storage reads as the failed contract left it. *)
Theorem failed_nested_call_keeps_writes get callInput host c code h2 a key :
  GetContract get (recipientOf callInput) = inr c →
  Function callInput ≠ SCDeployInitFunctionName →
  runContract (X:=error) c callInput (SetSCAddress (recipientOf callInput) (softCleanCache host))
    = (Ret code, h2) →
  code ≠ Ok → storageUpdate h2 = storageUpdate host →
  let r := executeNested get callInput (copyToNewContext host) host in
  eeiGetStorageFromAddress a key r.2 = eeiGetStorageFromAddress a key h2 ∧
  outputAccounts r.2 = ∅.
Proof.
  intros Hc Hf Hrun Hcode Hst r. unfold r.
  rewrite (executeNested_failed _ _ (copyToNewContext host) _ _ _ _ Hc Hf Hrun Hcode) /=.
  destruct h2, host. simpl in *. by subst.
Qed.

(** the return messages that were added before a nested call are lost: the
    result of the call and the whole context after it do not depend on them,
    since the copy of the context that is merged back does not hold them. *)
Lemma executeOnDest_forgets_messages m dest sender value input host get p :
  hostFlag MultiClaimOnDelegationFlag = true → systemContracts = Some get →
  ParseData input = inr p → noNil (outputAccounts host) →
  eeiExecuteOnDestContext dest sender value input (eeiAddReturnMessage m host) =
  eeiExecuteOnDestContext dest sender value input host.
Proof.
  intros Hf Hsys Hp Hn. unfold eeiAddReturnMessage. case_bool_decide; [done|].
  case_bool_decide; by eapply executeOnDest_message.
Qed.

Lemma AddTx_nilBalance {X} v a host :
  outputAccounts host = ∅ →
  ∃ h', AddTxValueToSmartContract (X:=X) v a host = (Ret tt, h') ∧
        ∃ acc, outputAccounts h' !! a = Some acc ∧ Balance acc = None.
Proof.
  intros Hempty. unfold AddTxValueToSmartContract. rewrite bind_modify Hempty lookup_empty.
  unfold addDelta. rewrite outputAccounts_put Hempty lookup_insert_eq /=.
  eexists. split; [reflexivity|]. rewrite outputAccounts_put lookup_insert_eq. eauto.
Qed.

(** a contract that starts by reading the balance of its own address panics:
    the transaction value is added to an account whose balance is nil. *)
Lemma reading_own_balance_panics get c input host k :
  systemContracts = Some get → GetContract get (recipientOf input) = inr c →
  Function input ≠ SCDeployInitFunctionName →
  contractExecute c input = (let! b := GetBalance (recipientOf input) in k b) →
  (RunSmartContractCall input host).1 = Panic.
Proof.
  intros Hsys Hc Hf Hk. unfold RunSmartContractCall. rewrite Hsys Hc bool_decide_false //.
  rewrite !bind_modify.
  destruct (AddTx_nilBalance (X:=error) (valueOf input) (recipientOf input)
    (SetSCAddress (recipientOf input) (CleanCache host))) as (h1 & Hadd & acc & Hacc & Hnil);
    [by destruct host|].
  rewrite (bind_Ret _ _ _ _ _ Hadd) bind_modify.
  unfold bind, runContract, catch. rewrite Hk. unfold GetBalance, bind, gets.
  assert (outputAccounts (setGasRemaining (GasProvided input) h1) = outputAccounts h1) as ->
    by (by destruct h1).
  by rewrite Hacc Hnil.
Qed.

Lemma mergeTransfers_lookup m out k :
  map_fold mergeTransfers m out !! k =
  match out !! k with
  | Some o => match OutputTransfers o with
              | [] => m !! k
              | t => let l := default (withAddress k emptyAccount) (m !! k) in
                     Some (withOutputTransfers (OutputTransfers l ++ t) l)
              end
  | None => m !! k
  end.
Proof.
  apply (map_fold_weak_ind (λ acc o, acc !! k = match o !! k with
    | Some o => match OutputTransfers o with
                | [] => m !! k
                | t => let l := default (withAddress k emptyAccount) (m !! k) in
                       Some (withOutputTransfers (OutputTransfers l ++ t) l)
                end
    | None => m !! k
    end)); [by rewrite lookup_empty|].
  intros i x o acc Hi Hacc. unfold mergeTransfers at 1.
  destruct (decide (i = k)) as [->|Hne].
  - rewrite Hi in Hacc. rewrite lookup_insert_eq.
    destruct (OutputTransfers x); [done|]. by rewrite lookup_insert_eq Hacc.
  - rewrite lookup_insert_ne //. destruct (OutputTransfers x); [done|].
    by rewrite lookup_insert_ne.
Qed.

Lemma addDelta_nil {X} k v host a :
  outputAccounts host !! k = Some a → BalanceDelta a = None →
  (addDelta (X:=X) k v host).1 = Panic.
Proof. intros Hk Ha. unfold addDelta. by rewrite Hk Ha. Qed.

(** an account that only received transfers of a built-in function has no
    balance delta, and a later transfer of value to it panics. *)
Lemma builtin_account_panics_on_transfer sender destination function arguments host out
    host' k o sender' value :
  ProcessBuiltInFunction sender destination function arguments host = (Ret out, host') →
  Logs out = [] → outputAccounts host !! k = None →
  OutputAccounts out !! k = Some o → OutputTransfers o ≠ [] →
  (transferValueOnly (X:=error) k sender' value host').1 = Panic.
Proof.
  intros Hrun Hlogs Hk Ho Ht.
  assert (∃ a, outputAccounts host' !! k = Some a ∧ BalanceDelta a = None) as (a & Ha & Hnil).
  { unfold ProcessBuiltInFunction in Hrun. rewrite bind_gets in Hrun.
    destruct (BuiltInFunction _) as [err|out'] eqn:Hb; [done|]. simpl in Hrun.
    unfold bind at 1 in Hrun. simpl in Hrun.
    destruct (negb _); [done|]. rewrite bind_modify in Hrun.
    set (h1 := setOutputAccounts _ host) in Hrun.
    assert (out' = out ∧ host' = h1) as [-> ->].
    { destruct (Logs out') as [|l ls] eqn:Hl.
      - injection Hrun as <- <-. done.
      - exfalso. assert (∀ (es : list LogEntry) h r,
          (forEach (X:=error) es (λ logEntry, modify (eeiAddLogEntry logEntry)) ;;; ret out') h
            = (Ret out, r) → out' = out) as Hsame.
        { clear. induction es as [|y t IH]; intros h r Heq;
            [|exact (IH (eeiAddLogEntry y h) r Heq)].
          change ((Ret out', h) = (Ret (X:=error) out, r)) in Heq. congruence. }
        apply Hsame in Hrun. congruence. }
    subst h1. rewrite outputAccounts_set mergeTransfers_lookup Ho Hk.
    destruct (OutputTransfers o); [done|]. simpl. eauto. }
  unfold transferValueOnly. rewrite bind_modify. set (h1 := getSenderDestination _ _ _).
  assert (outputAccounts h1 !! k = Some a) as Ha1.
  { subst h1. unfold getSenderDestination.
    destruct (outputAccounts host' !! sender') eqn:Hs; rewrite ?Ha //.
    assert (sender' ≠ k) by congruence.
    by rewrite !outputAccounts_put !lookup_insert_ne // Ha /= ?outputAccounts_put lookup_insert_ne. }
  unfold bind at 1. destruct (addDelta (X:=error) sender' (- value) h1) as [[[]|x|] h2] eqn:Hd;
    [|by (unfold addDelta in Hd; repeat case_match; simplify_eq)|done].
  apply (addDelta_nil (X:=error) _ _ _ a); [|done].
  unfold addDelta in Hd. destruct (decide (sender' = k)) as [->|Hne].
  - by rewrite Ha1 Hnil in Hd.
  - repeat case_match; simplify_eq. by rewrite outputAccounts_put lookup_insert_ne.
Qed.

(** the uses of gas of a transaction, one after the other *)
Fixpoint useAllGas (gs : list Z) (host : vmContext) : option vmContext :=
  match gs with
  | [] => Some host
  | g :: t => eeiUseGas g host ≫= useAllGas t
  end.

(** a transaction never uses more gas than it was given: a sequence of uses
    succeeds iff the sum is within the remaining gas, and then exactly the
    difference remains (the 64-bit subtraction never wraps). *)
Lemma useGas_within_bounds gs host :
  Forall (λ g, 0 ≤ g)%Z gs → (0 ≤ gasRemaining host < 2 ^ 64)%Z →
  useAllGas gs host =
    (if (foldr Z.add 0%Z gs <=? gasRemaining host)%Z
     then Some (setGasRemaining (gasRemaining host - foldr Z.add 0%Z gs) host) else None).
Proof.
  intros Hgs. revert host. induction Hgs as [|g gs Hg Hgs IH]; intros host Hr; simpl.
  - rewrite (proj2 (Z.leb_le _ _)); [|lia]. rewrite Z.sub_0_r. by destruct host.
  - assert (0 ≤ foldr Z.add 0%Z gs)%Z as Hsum by (clear -Hgs; induction Hgs; simpl; lia).
    unfold eeiUseGas. destruct (Z.ltb_spec (gasRemaining host) g) as [Hlt|Hge]; simpl.
    + rewrite (proj2 (Z.leb_gt _ _)); [done|lia].
    + replace (u64 (gasRemaining host - g)) with (gasRemaining host - g)%Z
        by (unfold u64; rewrite Z.mod_small; lia).
      rewrite IH; [|destruct host; simpl in *; lia].
      destruct host as [hp st oa gr m o l a i]; simpl in *.
      destruct (Z.leb_spec (foldr Z.add 0%Z gs) (gr - g)), (Z.leb_spec (g + foldr Z.add 0%Z gs) gr);
        try lia; [|done]. do 2 f_equal. lia.
Qed.

(** C23: the output of a transaction is faithful: for every address and key the
    storage update in the output is the value last written in the context (and
    there is none if nothing was written), and every account carries the balance
    delta and the transfers of the context. *)
Theorem createVMOutput_faithful host addr key :
  (OutputAccounts (CreateVMOutput host) !! addr ≫= (λ a, StorageUpdates a !! key))
    = storageMap host !! addr ≫= lookup key ∧
  (outputAccounts host !! addr ≠ None →
   (BalanceDelta <$> OutputAccounts (CreateVMOutput host) !! addr)
     = (BalanceDelta <$> outputAccounts host !! addr) ∧
   (OutputTransfers <$> OutputAccounts (CreateVMOutput host) !! addr)
     = (OutputTransfers <$> outputAccounts host !! addr)).
Proof.
  simpl. rewrite createOutputAccounts_lookup.
  destruct (outputAccounts host !! addr) as [a|].
  - destruct (outputOfAccount_kept a
      (default emptyAccount (storageAccount addr <$> storageMap host !! addr)))
      as (Hb & Hs & _ & Ht). simpl. rewrite Hs Hb Ht. split; [|done].
    by destruct (storageMap host !! addr).
  - split; [|done]. by destruct (storageMap host !! addr).
Qed.

(** C24: a transaction whose call is not answered Ok changes nothing: its output
    has no accounts and no data; if it is answered Ok its storage updates are
    those of the context. *)
Theorem RunSmartContractCall_output input host out host' :
  RunSmartContractCall input host = (Ret out, host') →
  (vmReturnCode out ≠ Ok → OutputAccounts out = ∅ ∧ ReturnData out = []) ∧
  (vmReturnCode out = Ok → OutputAccounts out = createOutputAccounts host' ∧
     ReturnData out = output host' ∧ GasRemaining out = gasRemaining host').
Proof.
  unfold RunSmartContractCall. rewrite !bind_modify. unfold bind at 1.
  destruct (AddTxValueToSmartContract _ _ _) as [[[]|x|] h1]; [|done..].
  rewrite bind_modify. destruct systemContracts as [get|]; [|done].
  destruct (GetContract get _) as [err|c]; [done|].
  case_bool_decide; [by intros [= <- <-]|]. unfold bind at 1.
  destruct (runContract c input _) as [[code|x|] h2]; [|done..].
  rewrite bind_gets. unfold id. case_bool_decide as Hcode; intros [= <- <-]; simpl.
  - by split.
  - by split.
Qed.
End eei_properties.

(** ** The hypotheses can be met *)
Section eei_witnesses.
(** a contract that pays 5 to the owner, writes its storage and answers [code] *)
Definition noted : bytes := toBytes "noted".
Definition payer (HO : Host) (code : ReturnCode) : SystemContract := {|
  CanUseContract := true;
  contractExecute input :=
    transferValueOnly ownerAddress (recipientOf input) 5 ;;;
    modify (eeiSetStorage noted [x01]) ;;;
    ret code
|}.
(** the operations it uses do not read the container *)
Definition bareHost : Host := exampleHost None.
Definition paying (code : ReturnCode) : Host :=
  exampleHost (Some (λ _, inr (payer bareHost code))).

Lemma noNil_example : noNil (outputAccounts exampleContext).
Proof. apply map_Forall_empty. Qed.

Lemma payer_run (HO : Host) code input host :
  noNil (outputAccounts host) →
  ∃ host', runContract (X:=error) (payer HO code) input host = (Ret code, host') ∧
    moved ownerAddress (recipientOf input) 5 (outputAccounts host) (outputAccounts host') ∧
    storageUpdate host' = storageUpdate host ∧
    ∀ a, a ≠ scAddress host → storageMap host' !! a = storageMap host !! a.
Proof.
  intros Hn.
  assert (∃ h1, transferValueOnly (X:=ReturnCode) ownerAddress (recipientOf input) 5 host
    = (Ret tt, h1) ∧ moved ownerAddress (recipientOf input) 5 (outputAccounts host)
        (outputAccounts h1) ∧ sameButAccounts host h1) as (h1 & Hrun & Hm & Hs).
  { apply wp_exists, wp_transferValueOnly; [done|]. auto. }
  unfold runContract, catch. cbn [contractExecute payer].
  rewrite (bind_Ret _ _ _ _ _ Hrun) bind_modify.
  eexists. split; [reflexivity|]. unfold sameButAccounts in Hs.
  destruct host, h1; simpl in *. injection Hs as -> -> -> -> -> -> -> ->.
  split; [done|]. split; [done|]. intros a Ha. unfold storageMap. simpl.
  by rewrite lookup_insert_eq /= lookup_insert_ne.
Qed.
Lemma payer_keepsValue (HO : Host) code : keepsValue (payer HO code).
Proof.
  intros input host Hn. destruct (payer_run HO code input host Hn) as (h' & -> & (H1 & H2 & _) & _).
  done.
Qed.

Lemma executeOnDest_conserves_value_witness :
  let r := eeiExecuteOnDestContext (HO:=paying Ok) (replicate 32 x07) stakingSCAddress 9
             (toBytes "call") exampleContext in
  r.1 ≠ Panic ∧ totalDelta (outputAccounts r.2) = totalDelta (outputAccounts exampleContext) ∧
  scAddress r.2 = stakingSCAddress.
Proof.
  apply (executeOnDest_conserves_value (HO:=paying Ok) (replicate 32 x07) stakingSCAddress 9
    (toBytes "call") exampleContext eq_refl eq_refl).
  - intros get a c [= <-] [= <-]. apply payer_keepsValue.
  - exact noNil_example.
Defined.

Lemma Transfer_moves_value_witness :
  ∃ host', eeiTransfer (HO:=bareHost) (X:=error) key1 key2 5 [x01] 100 exampleContext
             = (Ret tt, host') ∧
    moved key1 key2 5 ∅ (outputAccounts host') ∧ numbered host' ∧
    storageMap host' = storageMap exampleContext ∧
    ∃ a t before, outputAccounts host' !! key1 = Some a ∧
      OutputTransfers a = before ++ [t] ∧ Index t = 1%Z ∧
      Value t = 5%Z ∧ GasLimit t = 100%Z ∧ Data t = [x01].
Proof.
  apply (Transfer_moves_value (HO:=bareHost) key1 key2 5 [x01] 100 exampleContext noNil_example).
  - split; [apply NoDup_nil_2|apply Forall_nil_2].
  - simpl. lia.
Defined.

(** a contract that writes its storage and answers [code] *)
Definition writer (code : ReturnCode) : SystemContract := {|
  CanUseContract := true;
  contractExecute _ := modify (eeiSetStorage noted [x01]) ;;; ret code
|}.
Definition writing (code : ReturnCode) : Host := exampleHost (Some (λ _, inr (writer code))).

Lemma writer_own code : writesOwnStorage (writer code).
Proof.
  intros input host. destruct host; simpl. split; [done|]. intros a Ha.
  unfold storageMap. simpl. by rewrite lookup_insert_eq /= lookup_insert_ne.
Qed.

Lemma executeOnDest_isolates_storage_witness :
  let host' := (eeiExecuteOnDestContext (HO:=writing Ok) (replicate 32 x07) stakingSCAddress 9
                  (toBytes "call") exampleContext).2 in
  eeiGetStorageFromAddress (HO:=writing Ok) stakingSCAddress noted host' = None.
Proof.
  apply (executeOnDest_isolates_storage (HO:=writing Ok) (replicate 32 x07) stakingSCAddress 9
    (toBytes "call") exampleContext noted eq_refl).
  - intros get a c [= <-] [= <-]. apply writer_own.
  - exact noNil_example.
  - discriminate.
Defined.

(** the nested call of the failing writer *)
Definition nestedInput : ContractCallInput :=
  createDirectCallInput (replicate 32 x07) stakingSCAddress 0 "call" [].

Lemma failed_nested_call_keeps_writes_witness :
  let r := executeNested (HO:=writing UserError) (λ _, inr (writer UserError)) nestedInput
             (copyToNewContext exampleContext) exampleContext in
  eeiGetStorageFromAddress (HO:=writing UserError) (replicate 32 x07) noted r.2 = Some [x01] ∧
  outputAccounts r.2 = ∅.
Proof.
  set (h2 := (runContract (X:=error) (writer UserError) nestedInput
    (SetSCAddress (recipientOf nestedInput) (softCleanCache exampleContext))).2).
  apply (failed_nested_call_keeps_writes (HO:=writing UserError)
    (λ _, inr (writer UserError)) nestedInput exampleContext (writer UserError) UserError h2
    (replicate 32 x07) noted); [reflexivity|discriminate|reflexivity|discriminate|reflexivity].
Defined.

Lemma executeOnDest_forgets_messages_witness :
  eeiExecuteOnDestContext (HO:=writing Ok) (replicate 32 x07) stakingSCAddress 9
    (toBytes "call") (eeiAddReturnMessage "a warning" exampleContext) =
  eeiExecuteOnDestContext (HO:=writing Ok) (replicate 32 x07) stakingSCAddress 9
    (toBytes "call") exampleContext.
Proof.
  exact (executeOnDest_forgets_messages (HO:=writing Ok) "a warning" (replicate 32 x07)
    stakingSCAddress 9 (toBytes "call") exampleContext _ _ eq_refl eq_refl eq_refl
    noNil_example).
Defined.

(** a contract that pays out its balance *)
Definition claimer : SystemContract := {|
  CanUseContract := true;
  contractExecute input :=
    let! balance := GetBalance (HO:=bareHost) (recipientOf input) in
    eeiTransfer (HO:=bareHost) (callerOf input) (recipientOf input) balance [] 0 ;;;
    ret Ok
|}.
Lemma reading_own_balance_panics_witness :
  (RunSmartContractCall (HO:=exampleHost (Some (λ _, inr claimer)))
     (callOf ownerAddress "claim" []) exampleContext).1 = Panic.
Proof.
  exact (reading_own_balance_panics (HO:=exampleHost (Some (λ _, inr claimer)))
    (λ _, inr claimer) claimer (callOf ownerAddress "claim" []) exampleContext
    (λ b, eeiTransfer (HO:=bareHost) ownerAddress stakingSCAddress b [] 0 ;;; ret Ok)
    eq_refl eq_refl ltac:(discriminate) eq_refl).
Defined.

(** a built-in function that sends tokens to [key1] *)
Definition tokenOutput : VMOutput := {|
  ReturnData := []; vmReturnCode := Ok; ReturnMessage := ""; GasRemaining := 0;
  OutputAccounts := {[key1 := withOutputTransfers [mkTransfer 1 0 0 (toBytes "ESDTTransfer") None]
                                (withAddress key1 emptyAccount)]};
  Logs := [] |}.
Definition tokenHost : Host := exampleHostWith None (λ _, inr tokenOutput).
Lemma builtin_account_panics_on_transfer_witness :
  (transferValueOnly (X:=error) key1 stakingSCAddress 5
     (ProcessBuiltInFunction (HO:=tokenHost) stakingSCAddress key1 "ESDTTransfer" []
        exampleContext).2).1 = Panic.
Proof.
  apply (builtin_account_panics_on_transfer (HO:=tokenHost) stakingSCAddress key1 "ESDTTransfer" []
    exampleContext tokenOutput _ key1
    (withOutputTransfers [mkTransfer 1 0 0 (toBytes "ESDTTransfer") None]
       (withAddress key1 emptyAccount)));
    [reflexivity|reflexivity|reflexivity|reflexivity|discriminate].
Defined.


(** [key1] was sent 5 and wrote one entry *)
Definition paidContext : vmContext :=
  eeiSetStorageForAddress key1 ownerKey [x07]
    (putAccount key1 (withBalanceDelta (Some 5%Z) (freshAccount key1)) exampleContext).
Lemma createVMOutput_faithful_witness :
  BalanceDelta <$> OutputAccounts (CreateVMOutput (HO:=bareHost) paidContext) !! key1
    = Some (Some 5%Z).
Proof.
  assert (outputAccounts paidContext !! key1
          = Some (withBalanceDelta (Some 5%Z) (freshAccount key1))) as H by (vm_compute; reflexivity).
  destruct (proj2 (createVMOutput_faithful (HO:=bareHost) paidContext key1 ownerKey)
    ltac:(rewrite H; discriminate)) as [Hb _].
  rewrite Hb H. reflexivity.
Defined.

Lemma RunSmartContractCall_output_witness :
  ∃ out, (RunSmartContractCall (HO:=writing UserError) (callOf ownerAddress "call" [])
            exampleContext).1 = Ret out ∧ OutputAccounts out = ∅ ∧ ReturnData out = [].
Proof.
  set (r := RunSmartContractCall (HO:=writing UserError) (callOf ownerAddress "call" [])
              exampleContext).
  assert (r = (Ret (failedOutput UserError ""), r.2)) as Hr by (vm_compute; reflexivity).
  exists (failedOutput UserError ""). split; [exact (f_equal fst Hr)|].
  exact (proj1 (RunSmartContractCall_output (HO:=writing UserError)
    (callOf ownerAddress "call" []) exampleContext _ _ Hr) ltac:(discriminate)).
Defined.
End eei_witnesses.
