(* ===== verification/QueueTheorems.v ===== *)
(** * QueueTheorems: the properties of the staking queue *)
From S2P Require Import Prelude SystemEI Eei EeiSpec StakingData StakingNodes.
From S2P Require Import WaitingList StakingQueue StakingSC QueueSpec QueueWalk.
From S2P Require Import StakingSpec Concrete.
#[local] Open Scope go_scope.

(** ** The queue operations implement the abstract ones *)
Section queue_properties.
Context {E : Type} {EI : SystemEI E} {EIL : SystemEILaws E} {SCP : StakingContract}.
Context {MLe : MarshallerLaws ElementInList (λ _, True) zeroElement}.
Context {MLh : MarshallerLaws WaitingList headInRange emptyWaitingList}.



Lemma removeQ_addQ k jailed q j :
  k ∉ q → NoDup q → j ≤ length q →
  removeQ k (addQ k jailed q j).1 (addQ k jailed q j).2 = (q, j).
Proof.
  intros Hk Hnd Hj. unfold addQ. rewrite decide_False //. destruct jailed; simpl.
  - rewrite removeQ_split.
    + rewrite take_drop length_take.
      destruct (Nat.ltb_spec (j `min` length q) (S j)); [done|lia].
    + apply NoDup_Permutation_proper with (k :: q); [|by apply NoDup_cons].
      by rewrite -Permutation_middle take_drop.
  - rewrite removeQ_split ?app_nil_r.
    + destruct (Nat.ltb_spec (length q) j); [lia|done].
    + apply NoDup_app. split; [done|]. split; [set_solver|apply NoDup_singleton].
Qed.

(** a node that is added and removed again leaves the queue, its order and
    its prefix as they were. *)
Lemma remove_after_add e q j k jailed :
  IsFlagEnabled CorrectFirstQueuedFlag = true →
  IsFlagEnabled CorrectLastUnJailedFlag = true →
  QueueRep e q j → validKey k → k ∉ q → (Z.of_nat (length q) + 1 < 2 ^ 32)%Z →
  ∃ e', (addToWaitingList k jailed ;;; removeFromWaitingList k) e = (Ret tt, e') ∧
        QueueRep e' q j ∧ queueOnly e e'.
Proof.
  intros Hf Hf' Hr Hk Hq Hl. apply wp_exists, wp_bind.
  eapply wp_addToWaitingList; [done|done|done|done|]. intros e1 Hr1 Ho1.
  eapply wp_removeFromWaitingList; [done|done|done|done|]. intros e2 Hr2 Ho2.
  rewrite removeQ_addQ in Hr2; [|done|apply (qr_nodup _ _ _ Hr)|apply (qr_prefix _ _ _ Hr)].
  split; [done|]. split; [done|]. by eapply queueOnly_trans.
Qed.

(** reading the first [n] elements ends, leaves the state alone and returns
    the first [n] keys of the abstract queue in order, with the registration of
    each. *)
Lemma getFirstElements_reads_queue e q j n areg :
  QueueRep e q j → (0 ≤ n < 2 ^ 32)%Z →
  (∀ k, k ∈ q → getOrCreateRegisteredData k e = (Ret (areg k), e)) →
  ∃ r, getFirstElementsFromWaitingList n e = (Ret r, e) ∧
       blsKeys r = take (Z.to_nat n) q ∧
       stakedDataList r = map areg (take (Z.to_nat n) q).
Proof. intros Hr Hn Ha. by eapply getFirstElements_eq. Qed.

(** On a well-formed queue the repair walk ends and finds exactly the
    length, the last key and (when one is marked) the last unjailed key that
    the head already holds. *)
Lemma fixQueueLoop_finds_head e q k j areg :
  QueueRep e (q ++ [k]) j →
  (∀ x, x ∈ q ++ [k] → getOrCreateRegisteredData x e = (Ret (areg x), e)) →
  let w := headOf (q ++ [k]) j in
  fixQueueLoop (S (Z.to_nat (Length w))) w (FirstKey w) 1 (length (LastJailedKey w) =? 0) e
    = (Ret (Length w, LastKey w, true), e).
Proof.
  intros Hr Ha w.
  destruct (fixQueueLoop_eq areg e j q [] k (S (Z.to_nat (Length w)))
    (length (LastJailedKey w) =? 0) Hr Ha) as (b & Heq & Hb).
  { simpl. rewrite length_app /=. lia. }
  assert (b = true) as ->.
  { apply Hb. subst w. simpl. destruct (take j (q ++ [k])) as [|x t] eqn:Ht; [by left|].
    right. destruct (lastKeyOf_in [] (x :: t)) as (y & Hy & ->); [done|].
    exists y. split; [|done]. rewrite -Ht in Hy. eapply subseteq_take; done. }
  etrans; [exact Heq|]. subst w. cbn [Length LastKey headOf].
  rewrite lastKeyOf_snoc. unfold walkIndex. simpl.
  assert (Z.of_nat (length q) + 1 = Z.of_nat (length q + 1))%Z as -> by lia. by rewrite length_app.
Qed.
End queue_properties.

(** ** The hypotheses can be met *)
Section queue_witnesses.
#[local] Instance queueEpoch : StakingContract := exampleContract (flagsOf QueueEpoch).
#[local] Instance quietHost : Host := exampleHost None.
#[local] Instance elementLaws : MarshallerLaws ElementInList (λ _, True) zeroElement :=
  fieldsMarshaller_laws _ _.
#[local] Instance headLaws : MarshallerLaws WaitingList headInRange emptyWaitingList :=
  fieldsMarshaller_laws _ _.

Lemma QueueRep_empty : QueueRep exampleContext [] 0.
Proof. split; try done; constructor. Qed.

(** key1 and key2 wait, key1 is unjailed *)
Definition twoQueued : vmContext :=
  ((addToWaitingList key2 false ;;; addToWaitingList key1 true) exampleContext).2.
Lemma twoQueued_spec : QueueRep twoQueued [key1; key2] 1 ∧ queueOnly exampleContext twoQueued.
Proof.
  assert (wp (addToWaitingList key2 false ;;; addToWaitingList key1 true)
    (λ _ e, QueueRep e [key1; key2] 1 ∧ queueOnly exampleContext e) exampleContext)
    as Hwp; [|exact Hwp].
  apply wp_bind.
  eapply wp_addToWaitingList; [done|apply QueueRep_empty|done|done|]. intros e1 Hr1 Ho1.
  eapply wp_addToWaitingList; [done|exact Hr1|done|done|]. intros e2 Hr2 Ho2.
  split; [exact Hr2|by eapply queueOnly_trans].
Qed.
Lemma QueueRep_two : QueueRep twoQueued [key1; key2] 1.
Proof. apply twoQueued_spec. Qed.

Lemma key3_new : key3 ∉ [key1; key2].
Proof. apply (bool_decide_unpack _). by vm_compute. Qed.




Lemma unregistered k : k ∈ [key1; key2] →
  getOrCreateRegisteredData k twoQueued = (Ret emptyRegistration, twoQueued).
Proof.
  intros Hk. destruct twoQueued_spec as [Hr [Hf _]].
  apply (getReg_frame _ exampleContext); [|done]. apply Hf, validKey_not_queue.
  by eapply QueueRep_valid.
Qed.

Lemma fixQueueLoop_finds_head_witness :
  fixQueueLoop 3 (headOf [key1; key2] 1) (wk key1) 1 false twoQueued
    = (Ret (2%Z, wk key2, true), twoQueued).
Proof.
  exact (fixQueueLoop_finds_head twoQueued [key1] key2 1 (λ _, emptyRegistration)
           QueueRep_two unregistered).
Defined.
End queue_witnesses.
