(* ===== verification/StakingTheorems.v ===== *)
(** * StakingTheorems: the properties of the staking contract *)
From stdpp Require Import functions.
From S2P Require Import Prelude SystemEI StakingData StakingNodes WaitingList.
From S2P Require Import StakingQueue StakingSC QueueSpec QueueWalk StakingSpec.
From S2P Require Import StakingInvariant StakingHandlers StakingQueueHandlers Eei.
From S2P Require Import EeiSpec Concrete.
#[local] Open Scope go_scope.

(** The arguments that are used as BLS keys.  The validator contract, the only
    caller allowed to register keys, has checked their signatures. *)
Definition named (args : ContractCallInput) (l : list string) : bool :=
  existsb (String.eqb (Function args)) l.
Definition keyArguments (args : ContractCallInput) : list bytes :=
  if named args ["stake"; "register"; "unStake"; "unBond"; "unJail"; "switchJailedWithWaiting";
       "unStakeAtEndOfEpoch"; "getQueueIndex"; "addMissingNodeToQueue"] then [arg args 0]
  else if named args ["jail"] then Arguments args
  else if named args ["changeRewardAddress"; "changeOwnerAndRewardAddress"]
  then tail (Arguments args)
  else if named args ["setOwnersOnAddresses"] then evenArguments (Arguments args)
  else [].

(** the functions that divide by a node price or trust the validator contract's
    data, see [checkValidatorFunds] *)
Definition checksFunds (input : option ContractCallInput) : Prop :=
  match input with
  | Some args => named args ["cleanAdditionalQueue"; "stakeNodesFromQueue"] = true
  | None => False
  end.

Section dispatcher.
Context {E : Type} {EI : SystemEI E} {EIL : SystemEILaws E} {SCP : StakingContract}.
Context {MLe : MarshallerLaws ElementInList (λ _, True) zeroElement}.
Context {MLh : MarshallerLaws WaitingList headInRange emptyWaitingList}.
Context {MLd : MarshallerLaws StakedDataV2_0 stakedInRange zeroStakedData}.
Context {MLc : MarshallerLaws StakingNodesConfig configInRange zeroConfig}.
Context (h : BlockchainHook) (Hh : hookInRange h) (CF : currentFlags).
Context (Hstep1 : IsFlagEnabled StakingV4Step1Flag = true →
                  IsFlagEnabled StakingV4StartedFlag = true).

Lemma post_mono (P Q : Prop) o e : (P → Q) → post h P o e → post h Q o e.
Proof. destruct o; simpl; auto. Qed.

Lemma wp_unStakeAll_v4 e s args :
  Rep h e s → Inv s → wp (unStakeAllNodesFromQueue args) (post h False) e.
Proof using EIL MLe MLh Hstep1.
  intros HR HI. unfold unStakeAllNodesFromQueue. hsteps.
  eapply Rep_getElements; [exact HR|]. intros r _ Hk _. cbn beta iota. rewrite Hk.
  rewrite (inv_v4 _ HI); [hsteps; by eapply post_ok|].
  apply Hstep1. by destruct (IsFlagEnabled StakingV4Step1Flag).
Qed.

Lemma wp_init e s args : Rep h e s → wp (init args) (post h False) e.
Proof.
  intros HR. unfold init. hstep. apply wp_gets. cbn beta iota.
  destruct (GetStorage ownerKey e) eqn:Ho; [hsteps; exits|].
  by apply (rep_owner _ _ _ HR) in Ho.
Qed.

Lemma wp_get e args : wp (get args) (post h False) e.
Proof using CF. unfold get. rewrite (cf_v2 CF). by intros ?. Qed.
Lemma wp_slash e args : wp (slash args) (post h False) e.
Proof. by intros ?. Qed.
Lemma wp_changeValidatorKey e args : wp (changeValidatorKey args) (post h False) e.
Proof. unfold changeValidatorKey. hstep. by apply wp_returnIf; intros ? ?. Qed.

Create HintDb handlers discriminated.
#[local] Hint Constants Opaque : handlers.
#[local] Hint Resolve wp_init wp_stake wp_unStake wp_unBond wp_get wp_isStaked wp_slash wp_jail
  wp_unJail wp_changeRewardAddress wp_changeValidatorKey wp_switchJailedWithWaiting
  wp_getWaitingListIndex wp_getWaitingListSize wp_getRewardAddress wp_getBLSKeyStatus
  wp_getRemainingUnbondPeriod wp_getQueueRegisterNonceAndRewardAddress
  wp_updateConfigMinNodes wp_setOwnersOnAddresses wp_getOwner wp_updateConfigMaxNodes
  wp_stakeNodesFromQueue wp_unStakeAtEndOfEpoch wp_getTotalNumberOfRegisteredNodes
  wp_resetLastUnJailedFromQueue wp_cleanAdditionalQueue wp_changeOwnerAndRewardAddress
  wp_fixWaitingListQueueSize wp_addMissingNodeToQueue wp_unStakeAll_v4 : handlers.

(** each function of the table *)
Lemma wp_dispatch e s args run :
  Rep h e s → Inv s → capacity s → Forall validKey (keyArguments args) →
  dispatch (Function args) = Some run →
  wp (run args) (post h (checksFunds (Some args))) e.
Proof.
  intros HR HI Hc Hk Hrun. unfold dispatch in Hrun.
  destruct (List.find _ _) as [[f run']|] eqn:Hfind; [|done]. injection Hrun as ->.
  apply List.find_some in Hfind as [Hin Hf]. apply bool_decide_eq_true in Hf. simpl in Hf.
  unfold keyArguments, checksFunds, named in *. rewrite -Hf in Hk |- *. clear Hf.
  simpl in Hin. repeat (destruct Hin as [Heq|Hin]; [injection Heq as <- <-; cbn in Hk|]); [..|done].
  all: try (apply Forall_cons in Hk as [Hk _]).
  all: try (eapply wp_mono; [by eauto 4 with handlers|intros o e'; by apply post_mono]).
Qed.

Lemma wp_Execute e s input :
  Rep h e s → Inv s → capacity s →
  (∀ args, input = Some args → Forall validKey (keyArguments args)) →
  wp (Execute input) (post h (checksFunds input)) e.
Proof.
  intros HR HI Hc Hk. unfold Execute.
  destruct (CheckIfNil input) as [err|args] eqn:Hnil; [hstep; exits|].
  assert (input = Some args) as ->.
  { unfold CheckIfNil in Hnil. destruct input as [a|]; [|done].
    by repeat (case_match; try done); simplify_eq. }
  hsteps. destruct (dispatch (Function args)) as [run|] eqn:Hrun; [|hstep; exits].
  eapply wp_dispatch; eauto.
Qed.

(** a transaction that is not answered by [Ok] is reverted *)
Definition runCall (input : option ContractCallInput) (e : E) : E :=
  if bool_decide (answer (Execute input e).1 = Some Ok) then (Execute input e).2 else e.

(** the state has room for the nodes the next call may add *)
Definition hasRoom (e : E) : Prop :=
  (StakedNodes (getConfig e) < 2 ^ 62)%Z ∧
  match (getWaitingListHead e).1 with
  | Ret w => (Length w + 1 < 2 ^ 32)%Z
  | _ => False
  end.


Lemma hasRoom_capacity e s : Rep h e s → hasRoom e → capacity s.
Proof.
  intros HR [Hs Hq]. rewrite (rep_cfg _ _ _ HR) in Hs.
  rewrite (getHead_eq _ _ _ (rep_queue _ _ _ HR)) in Hq. by split.
Qed.

Lemma runCall_consistent e input :
  consistent h e → hasRoom e →
  (∀ args, input = Some args → Forall validKey (keyArguments args)) →
  consistent h (runCall input e).
Proof.
  intros (s & HR & HI) Hroom Hk.
  pose proof (wp_Execute e s input HR HI (hasRoom_capacity _ _ HR Hroom) Hk) as Hwp.
  unfold runCall, wp in *. destruct (bool_decide _) eqn:Hok; [|by exists s].
  apply bool_decide_eq_true in Hok.
  destruct (Execute input e).1; simpl in *; [| |done]; injection Hok as ->; by apply Hwp.
Qed.
End dispatcher.

Section genesis.
Context {E : Type} {EI : SystemEI E} {EIL : SystemEILaws E} {SCP : StakingContract}.
Context {MLe : MarshallerLaws ElementInList (λ _, True) zeroElement}.
Context {MLh : MarshallerLaws WaitingList headInRange emptyWaitingList}.
Context {MLd : MarshallerLaws StakedDataV2_0 stakedInRange zeroStakedData}.
Context {MLc : MarshallerLaws StakingNodesConfig configInRange zeroConfig}.

Definition genesisState : State := mkState (λ _, emptyRegistration) baseConfig [] 0.

Lemma counted_none reg : (∀ k, validKey k → Staked (reg k) = false) → counted reg 0.
Proof.
  intros Hreg. exists ∅. split; [|by rewrite size_empty]. intros k. split; [set_solver|].
  intros [Hk Hs]. by rewrite Hreg in Hs.
Qed.
Lemma Inv_genesis : Inv genesisState.
Proof. split; [split|]; simpl; try done; [set_solver|by apply counted_none]. Qed.

Lemma wp_init_genesis h e args Q :
  (∀ key, GetStorage key e = None) → hookOf e = h → CurrentEpoch h = 0%Z →
  length (callerOf args) = 32 → configOk baseConfig →
  (∀ e', Rep h e' genesisState → Q (Ret Ok) e') →
  wp (init args) Q e.
Proof.
  intros Hempty Hhook Hep Hcaller Hcfg HQ. unfold init. hstep. apply wp_gets. cbn beta iota.
  rewrite Hempty. unfold setStorage. do 2 (hstep; apply wp_modify; cbn beta iota).
  hstep. apply wp_modify. cbn beta iota. hstep. apply wp_gets. cbn beta iota.
  destruct (marshal_total _ (co_range _ Hcfg)) as [b Hb].
  unfold setConfig. rewrite Hb. autorewrite with eei. rewrite Hhook Hep.
  hstep. apply wp_modify. cbn beta iota. hstep. apply HQ.
  set (ek := toBytes _).
  assert (∀ x v e', x ≠ ek → GetStorage x (SetStorage ek v e') = GetStorage x e') as He
    by (intros; by apply get_set_ne).
  assert (∀ x, x ≠ ownerKey → x ≠ callerOf args → x ≠ nodesConfigKey → x ≠ ek →
    GetStorage x (SetStorage ek (bigBytes stakeValue) (SetStorage nodesConfigKey b
      (SetStorage (callerOf args) (bigBytes 0) (SetStorage ownerKey (callerOf args) e)))) = None)
    as Hnone by (intros; rewrite !get_set_ne //).
  assert (∀ x, length x ≠ 5 → length x ≠ 32 → length x ≠ 11 → length x ≠ 7 →
    GetStorage x (SetStorage ek (bigBytes stakeValue) (SetStorage nodesConfigKey b
      (SetStorage (callerOf args) (bigBytes 0) (SetStorage ownerKey (callerOf args) e)))) = None)
    as Hlen by (intros x H5 H32 H11 H7; apply Hnone; intros ->; done).
  split; simpl.
  - intros k Hk. unfold getOrCreateRegisteredData, bind, gets, ret.
    by rewrite Hlen; rewrite ?Hk.
  - intros _ _. apply emptyRegistration_ok.
  - unfold getConfig. rewrite He // get_set_eq /=. destruct b as [|x b].
    + apply marshal_nil in Hb; [|apply Hcfg]. destruct Hcfg as [_ Hm]. by rewrite Hb in Hm.
    + by erewrite (unmarshal_marshal _ _ _ (co_range _ Hcfg) Hb).
  - done.
  - split; try done; try constructor.
    + rewrite He // get_set_ne // get_set_ne.
      * by rewrite get_set_ne // Hempty.
      * intros Heq. by rewrite Heq in Hcaller.
    + intros k Hk _. rewrite Hlen // length_wk Hk; lia.
  - rewrite He // get_set_ne // get_set_ne; [by rewrite get_set_eq|].
    intros Heq. by rewrite Heq in Hcaller.
  - by autorewrite with eei.
Qed.
End genesis.

(** ** The properties *)
Section staking_properties.
Context {E : Type} {EI : SystemEI E} {EIL : SystemEILaws E} {SCP : StakingContract}.
Context {MLe : MarshallerLaws ElementInList (λ _, True) zeroElement}.
Context {MLh : MarshallerLaws WaitingList headInRange emptyWaitingList}.
Context {MLd : MarshallerLaws StakedDataV2_0 stakedInRange zeroStakedData}.
Context {MLc : MarshallerLaws StakingNodesConfig configInRange zeroConfig}.



(** The deployment of the contract on empty storage at genesis answers Ok and
    leaves a consistent state with no registered node. *)
Lemma init_establishes h e args :
  (∀ key, GetStorage key e = None) → hookOf e = h → CurrentEpoch h = 0%Z →
  length (callerOf args) = 32 → configOk baseConfig →
  ∃ e', init args e = (Ret Ok, e') ∧ Rep h e' genesisState ∧ consistent h e'.
Proof.
  intros He Hh Hep Hc Hcfg. apply wp_exists. eapply (wp_init_genesis h); try done.
  intros e' HR. split; [done|]. split; [done|]. exists genesisState. split; [done|].
  apply Inv_genesis.
Qed.

(** At the start of staking v4 the queue is emptied.  If the call of
    unStakeAllNodesFromQueue is answered Ok the new state is consistent, its
    queue is empty, every node that was queued is unstaked as of the current
    block and epoch, every other registration and the counters are unchanged; it
    never panics. *)
Lemma unStakeAllNodesFromQueue_empties h e s args :
  hookInRange h → currentFlags → nestedCallsKeepStorage (E:=E) → Rep h e s → InvCore s →
  answer (unStakeAllNodesFromQueue args e).1 ≠ None ∧
  (answer (unStakeAllNodesFromQueue args e).1 = Some Ok →
   ∃ s', Rep h (unStakeAllNodesFromQueue args e).2 s' ∧ Inv s' ∧ queueUnStaked h s s').
Proof.
  intros Hh CF Hn HR HI.
  pose proof (wp_unStakeAllNodesFromQueue h Hh CF e s args Hn HR HI) as Hwp. unfold wp in Hwp.
  destruct (unStakeAllNodesFromQueue args e) as [[c|c|] e']; simpl in *; [| |done];
    (split; [done|]; intros [= ->]; by apply Hwp).
Qed.

(** getQueueIndex answers the position of the node in the queue (counted
    from 1), whatever its place, and does nothing else. *)
Lemma getWaitingListIndex_position h e s args k i :
  Rep h e s → IsFlagEnabled StakingV4StartedFlag = false →
  callerOf args = stakeAccessAddr → Arguments args = [k] → queueOf s !! i = Some k →
  getWaitingListIndex args e = (Ret Ok, Finish (itoa (Z.of_nat i + 1)) e).
Proof. intros. by eapply waitingListIndex_eq. Qed.


(** what is saved under a key is what is read back, and nothing else
    changes. *)
Lemma saveStakingData_roundtrip e k d :
  currentFlags → dataOk d →
  ∃ e', saveStakingData k d e = (Ret tt, e') ∧
        getOrCreateRegisteredData k e' = (Ret d, e') ∧
        ∀ key, key ≠ k → GetStorage key e' = GetStorage key e.
Proof.
  intros CF Hd. apply wp_exists. unfold saveStakingData.
  rewrite (cf_stake CF) (cf_v2 CF) /=. apply wp_save; [apply Hd|].
  intros e' [Hs Hf Hh]. split; [done|]. split; [by apply getReg_stored|done].
Qed.

(** an unstaking of a staked node that is checked by tryUnStake leaves at least
    the minimum number of active nodes. *)
Lemma tryUnStake_keeps_minimum h e s k d :
  hookInRange h → currentFlags → Rep h e s → Inv s → validKey k → dataOk d →
  Staked (regOf s k) = true →
  (StakedNodes (cfgOf s) < 2 ^ 62)%Z → (0 ≤ JailedNodes (cfgOf s) < 2 ^ 62)%Z →
  (0 ≤ MinNumNodes (cfgOf s) < 2 ^ 62)%Z →
  answer (tryUnStake k d e).1 = Some Ok →
  let c := getConfig (tryUnStake k d e).2 in
  (StakedNodes c = StakedNodes (cfgOf s) - 1 ∧
   MinNumNodes c ≤ StakedNodes c - JailedNodes c)%Z.
Proof.
  intros Hh CF HR HI Hk Hd Hst Hs Hj Hm.
  pose proof (counted_pos _ _ _ (inv_counted _ HI) Hk Hst) as Hpos.
  assert (wp (tryUnStake k d) (λ o e', answer o = Some Ok → let c := getConfig e' in
    (StakedNodes c = StakedNodes (cfgOf s) - 1 ∧
     MinNumNodes c ≤ StakedNodes c - JailedNodes c)%Z) e) as Hwp; [|exact Hwp].
  unfold tryUnStake. hstep. hstep. hstep.
  apply wp_returnIf; intros Hcan; cbn beta iota; [done|]. hstep.
  eapply Rep_removeFromStakedNodes; [exact HR|]. intros e1 HR1. cbn beta iota.
  unfold doUnStake. do 2 hstep. destruct (setUnStaked_ok h Hh _ _ _ HR1 Hd) as (Hd' & _).
  do 3 hstep. apply wp_ret. intros _.
  match goal with HR' : Rep _ ?e' (setReg _ _ _) |- context [getConfig ?e'] =>
    rewrite (rep_cfg _ _ _ HR') end. cbn [cfgOf setReg setCfg].
  apply negb_false_iff in Hcan. unfold canUnStake, numSpareNodes in Hcan.
  rewrite (rep_cfg _ _ _ HR) in Hcan. unfold oneLessStaked.
  rewrite (proj2 (Z.ltb_lt _ _)) //. destruct (cfgOf s) as [mi ma st ja]; simpl in *.
  rewrite !i64_small in Hcan |- *; unfold isI64; [|lia..]. apply Z.ltb_lt in Hcan. lia.
Qed.
End staking_properties.

(** ** The hypotheses can be met: a contract with two places and three nodes *)
Section staking_witnesses.
#[local] Instance queueEpochSC : StakingContract := exampleContract (flagsOf QueueEpoch).
#[local] Instance quietHostSC : Host := exampleHost None.
#[local] Instance elementLawsSC : MarshallerLaws ElementInList (λ _, True) zeroElement :=
  fieldsMarshaller_laws _ _.
#[local] Instance headLawsSC : MarshallerLaws WaitingList headInRange emptyWaitingList :=
  fieldsMarshaller_laws _ _.
#[local] Instance dataLawsSC : MarshallerLaws StakedDataV2_0 stakedInRange zeroStakedData :=
  fieldsMarshaller_laws _ _.
#[local] Instance configLawsSC : MarshallerLaws StakingNodesConfig configInRange zeroConfig :=
  fieldsMarshaller_laws _ _.

Definition deployed : vmContext := (init (callOf ownerAddress "_init" []) exampleContext).2.
Definition stakeCall (k : bytes) : ContractCallInput :=
  callOf validatorSC "stake" [k; replicate 32 x05; ownerAddress].
Definition stakedOne : vmContext := runCall (Some (stakeCall key1)) deployed.
Definition stakedTwo : vmContext := runCall (Some (stakeCall key2)) stakedOne.
Definition stakedThree : vmContext := runCall (Some (stakeCall key3)) stakedTwo.

Lemma exampleHook_range : hookInRange exampleHook.
Proof. done. Qed.
Lemma exampleFlags : currentFlags.
Proof. done. Qed.
Lemma noStep1 : IsFlagEnabled StakingV4Step1Flag = true → IsFlagEnabled StakingV4StartedFlag = true.
Proof. done. Qed.
Lemma baseConfig_ok : configOk baseConfig.
Proof. done. Qed.

Lemma stakeCall_keys k (args : ContractCallInput) :
  validKey k → Some (stakeCall k) = Some args → Forall validKey (keyArguments args).
Proof. intros Hk [= <-]. by repeat constructor. Qed.

Lemma Rep_deployed : Rep exampleHook deployed genesisState.
Proof.
  assert (wp (init (callOf ownerAddress "_init" [])) (λ _ e, Rep exampleHook e genesisState)
    exampleContext) as Hwp; [|exact Hwp].
  by apply (wp_init_genesis exampleHook).
Qed.
Lemma deployed_consistent : consistent exampleHook deployed.
Proof. exists genesisState. split; [apply Rep_deployed|apply Inv_genesis]. Qed.

Lemma roomDeployed : hasRoom deployed.
Proof. split; by vm_compute. Qed.
Lemma roomOne : hasRoom stakedOne.
Proof. split; by vm_compute. Qed.
Lemma roomTwo : hasRoom stakedTwo.
Proof. split; by vm_compute. Qed.

Lemma stakedThree_consistent : consistent exampleHook stakedThree.
Proof.
  assert (∀ k e, validKey k → consistent exampleHook e → hasRoom e →
    consistent exampleHook (runCall (Some (stakeCall k)) e)) as Hstep.
  { intros k e Hk He Hr. exact (runCall_consistent exampleHook exampleHook_range exampleFlags
      noStep1 e (Some (stakeCall k)) He Hr (λ args, stakeCall_keys k args Hk)). }
  exact (Hstep key3 _ eq_refl (Hstep key2 _ eq_refl
           (Hstep key1 _ eq_refl deployed_consistent roomDeployed) roomOne) roomTwo).
Qed.



#[local] Opaque deployed stakedOne stakedTwo stakedThree.

Lemma init_establishes_witness :
  ∃ e', init (callOf ownerAddress "_init" []) exampleContext = (Ret Ok, e') ∧
        Rep exampleHook e' genesisState ∧ consistent exampleHook e'.
Proof.
  exact (init_establishes exampleHook exampleContext (callOf ownerAddress "_init" [])
           (λ key, eq_refl) eq_refl eq_refl eq_refl baseConfig_ok).
Defined.

(** the state of the three nodes: two staked, the third waits *)
Definition readReg (k : bytes) (e : vmContext) : option StakedDataV2_0 :=
  match (getOrCreateRegisteredData k e).1 with Ret d => Some d | _ => None end.
Lemma readReg_Rep k e s : Rep exampleHook e s → validKey k → readReg k e = Some (regOf s k).
Proof. intros HR Hk. unfold readReg. by rewrite (rep_reg _ _ _ HR). Qed.

Record threeNodes (s : State) : Prop := {
  tn_rep : Rep exampleHook stakedThree s;
  tn_inv : Inv s;
  tn_queue : queueOf s = [key3];
  tn_staked : Staked (regOf s key1) = true;
  tn_jailed : Jailed (regOf s key1) = false;
  tn_reward1 : RewardAddress (regOf s key1) ≠ [];
  tn_reward3 : RewardAddress (regOf s key3) ≠ [];
  tn_capacity : capacity s;
}.
Lemma threeNodes_exist : ∃ s, threeNodes s.
Proof.
  destruct stakedThree_consistent as (s & HR & HI). exists s.
  assert (∀ {A} (f : StakedDataV2_0 → A) k, validKey k →
    f <$> readReg k stakedThree = Some (f (regOf s k))) as Hread
    by (intros A f k Hk; by rewrite (readReg_Rep _ _ _ HR)).
  assert (∀ {A} (f : StakedDataV2_0 → A) k v, validKey k →
    f <$> readReg k stakedThree = Some v → f (regOf s k) = v) as Hget
    by (intros A f k v Hk Hv; rewrite Hread // in Hv; by injection Hv).
  assert (hasRoom stakedThree) as Hroom by (split; by vm_compute).
  split; [done|done| | | | | |by eapply hasRoom_capacity].
  - pose proof (f_equal fst (getHead_eq _ _ _ (rep_queue _ _ _ HR))) as Hh. cbn [fst] in Hh.
    assert (match (getWaitingListHead stakedThree).1 with
            | Ret w => FirstKey w = wk key3 ∧ Length w = 1%Z
            | _ => False
            end) as Hw by (vm_compute; split; reflexivity).
    rewrite Hh in Hw. destruct Hw as [Hf Hl]. cbn [FirstKey Length headOf] in Hf, Hl.
    destruct (queueOf s) as [|f [|? ?]]; [done| |simpl in Hl; lia].
    cbn [hdKey] in Hf. by apply wk_inj in Hf as ->.
  - apply (Hget _ Staked); [done|]. by vm_compute.
  - apply (Hget _ Jailed); [done|]. by vm_compute.
  - intros Hnil. pose proof (Hget _ (λ d, length (RewardAddress d)) key1 32 eq_refl) as Hlen.
    simpl in Hlen. rewrite Hnil in Hlen. specialize (Hlen ltac:(by vm_compute)). done.
  - intros Hnil. pose proof (Hget _ (λ d, length (RewardAddress d)) key3 32 eq_refl) as Hlen.
    simpl in Hlen. rewrite Hnil in Hlen. specialize (Hlen ltac:(by vm_compute)). done.
Qed.


Lemma tryUnStake_keeps_minimum_example :
  ∃ s, answer (tryUnStake key1 (regOf s key1) stakedThree).1 = Some Ok ∧
    let c := getConfig (tryUnStake key1 (regOf s key1) stakedThree).2 in
    (StakedNodes c = StakedNodes (cfgOf s) - 1 ∧
     MinNumNodes c ≤ StakedNodes c - JailedNodes c)%Z.
Proof.
  destruct threeNodes_exist as (s & [HR HI Hq Hs Hj H1 H3 Hc]). exists s.
  assert (readReg key1 stakedThree = Some (regOf s key1)) as Hreg by (by apply readReg_Rep).
  assert (match readReg key1 stakedThree with
          | Some d => answer (tryUnStake key1 d stakedThree).1 = Some Ok
          | None => False
          end) as Hok by (vm_compute; reflexivity).
  rewrite Hreg in Hok. split; [exact Hok|].
  assert (getConfig stakedThree = mkConfig 1 2 2 0) as Hcfg by (vm_compute; reflexivity).
  rewrite (rep_cfg _ _ _ HR) in Hcfg.
  apply (tryUnStake_keeps_minimum exampleHook stakedThree s key1 (regOf s key1)
    exampleHook_range exampleFlags HR HI eq_refl (rep_data _ _ _ HR key1 eq_refl) Hs);
    [rewrite Hcfg; simpl; lia..|exact Hok].
Defined.
End staking_witnesses.

(** the same storage in the first epoch of staking v4 *)
Section v4_witness.
#[local] Instance v4SC : StakingContract := exampleContract (flagsOf V4Step1Epoch).
#[local] Instance quietHostV4 : Host := exampleHost None.
#[local] Instance elementLawsV4 : MarshallerLaws ElementInList (λ _, True) zeroElement :=
  fieldsMarshaller_laws _ _.
#[local] Instance headLawsV4 : MarshallerLaws WaitingList headInRange emptyWaitingList :=
  fieldsMarshaller_laws _ _.
#[local] Instance dataLawsV4 : MarshallerLaws StakedDataV2_0 stakedInRange zeroStakedData :=
  fieldsMarshaller_laws _ _.
#[local] Instance configLawsV4 : MarshallerLaws StakingNodesConfig configInRange zeroConfig :=
  fieldsMarshaller_laws _ _.

(** the representation does not depend on the flags of the epoch *)
Lemma Rep_flags s e :
  Rep (SCP:=queueEpochSC) (EI:=vmContext_SystemEI (HO:=quietHostSC)) exampleHook e s →
  Rep (SCP:=v4SC) (EI:=vmContext_SystemEI (HO:=quietHostV4)) exampleHook e s.
Proof.
  intros [Hr Hd Hc Hco [Hh Hs Ha Hv Hn Hp Hl] Ho Hk].
  split; [exact Hr|exact Hd|exact Hc|exact Hco| |exact Ho|exact Hk].
  split; [exact Hh| |exact Ha|exact Hv|exact Hn|exact Hp|exact Hl].
  clear -Hs. revert Hs. generalize (hdKey (queueOf s) []). induction (queueOf s) as [|k q IH];
    intros p; [done|]. intros [Hs Hq]. split; [exact Hs|by apply IH].
Qed.

Lemma v4Flags : currentFlags.
Proof. by split. Qed.

Lemma unStakeAllNodesFromQueue_empties_example :
  ∃ s s', queueOf s = [key3] ∧
    Rep exampleHook
      (unStakeAllNodesFromQueue (callOf endOfEpochSC "unStakeAllNodesFromQueue" [])
         stakedThree).2 s' ∧
    Inv s' ∧ queueUnStaked exampleHook s s'.
Proof.
  destruct threeNodes_exist as (s & [HR HI Hq _ _ _ _ _]). exists s.
  assert (nestedCallsKeepStorage (E:=vmContext)) as Hn by (intros dst snd v input e; done).
  assert (answer (unStakeAllNodesFromQueue
    (callOf endOfEpochSC "unStakeAllNodesFromQueue" []) stakedThree).1 = Some Ok) as Hok
    by (vm_compute; reflexivity).
  pose proof (unStakeAllNodesFromQueue_empties exampleHook stakedThree s
    (callOf endOfEpochSC "unStakeAllNodesFromQueue" []) exampleHook_range
    v4Flags Hn (Rep_flags _ _ HR) (inv_core _ HI)) as [_ Hall].
  destruct (Hall Hok) as (s' & HR' & HI' & Hu).
  exists s'. exact (conj Hq (conj HR' (conj HI' Hu))).
Defined.
End v4_witness.
