(* ===== verification/Shuffler.v ===== *)
(** * Shuffler: the validators shuffler (sharding/nodesCoordinator/hashValidatorShuffler.go)

    At every epoch change the shuffler computes the next eligible and waiting
    lists of all shards from the current ones.  A Go map from shards to lists is
    a [gmap]; reading an absent shard gives the nil slice, here [].  The maps
    and slices the shuffler writes are its own copies ([copyValidatorMap],
    [removeValidatorsFromList]), so they are values here, and a function that
    writes a map it was given returns it.  The order in which Go ranges over a
    map is a parameter ([MapOrder]), as is the hash function ([Hasher], here sha256).
    Logging is left out, as are the nil checks of the constructor. *)
From S2P Require Import Prelude.
From stdpp Require Import sorting.
#[local] Open Scope go_scope.

(** ** Data *)
Record Validator : Type := mkValidator {
  PubKey : bytes;
  Chances : Z;
  Index : Z;
}.
#[global] Instance Validator_eq_dec : EqDecision Validator.
Proof. solve_decision. Defined.

Abbreviation validatorMap := (gmap Z (list Validator)).
(** [m[shardId]] *)
Definition listOf (m : validatorMap) (shardId : Z) : list Validator := default [] (m !! shardId).

(** the order of one [for k, v := range m] *)
Class MapOrder : Type := {
  rangeOf : ∀ {A : Type}, gmap Z A → list (Z * A);
  rangeOf_perm : ∀ {A : Type} (m : gmap Z A), rangeOf m ≡ₚ map_to_list m;
}.

Record MaxNodesChangeConfig : Type := {
  EpochEnable : Z;
  MaxNumNodes : Z;
  NodesToShufflePerShard : Z;
}.

(** the fields of ChainParametersByEpochConfig the shuffler reads; the product
    of the float32 hysteresis and a number of nodes, truncated, is a function *)
Record ChainParameters : Type := {
  hysteresisOf : Z → Z;
  ShardMinNumNodes : Z;
  MetachainMinNumNodes : Z;
  Adaptivity : bool;
}.

Record ArgsUpdateNodes : Type := {
  argChainParameters : ChainParameters;
  argEligible : validatorMap;
  argWaiting : validatorMap;
  argNewNodes : list Validator;
  argUnStakeLeaving : list Validator;
  argAdditionalLeaving : list Validator;
  argAuction : list Validator;
  argRand : bytes;
  argNbShards : Z;
  argEpoch : Z;
}.

Record ResUpdateNodes : Type := {
  Eligible : validatorMap;
  Waiting : validatorMap;
  ShuffledOut : validatorMap;
  Leaving : list Validator;
  StillRemaining : list Validator;
  LowWaitingList : bool;
}.

(** the two implementations of ValidatorsDistributor *)
Inductive ValidatorsDistributor : Type :=
  | IntraShardValidatorDistributor
  | CrossShardValidatorDistributor.

Record shuffleNodesArg : Type := {
  eligible : validatorMap;
  waiting : validatorMap;
  unstakeLeaving : list Validator;
  additionalLeaving : list Validator;
  newNodes : list Validator;
  auction : list Validator;
  randomness : bytes;
  distributor : ValidatorsDistributor;
  nodesMeta : Z;
  nodesPerShard : Z;
  nbShards : Z;
  maxNodesToSwapPerShard : Z;
  maxNumNodes : Z;
  flagBalanceWaitingLists : bool;
  flagStakingV4Step2 : bool;
  flagStakingV4Step3 : bool;
  flagCleanupAuctionOnLowWaitingList : bool;
}.

Record shuffledNodesConfig : Type := {
  numShuffled : Z;
  numNewEligible : Z;
  numNewWaiting : Z;
  numSelectedAuction : Z;
  cfgMaxNumNodes : Z;
  cfgStakingV4Step2 : bool;
}.

Definition ErrSmallShardEligibleListSize : string := "small shard eligible list size".
Definition ErrNilOrEmptyDestinationForDistribute : string :=
  "nil or empty destination list for distributeNodes".
Definition ErrReceivedNewListNodeInStakingV4 : string :=
  "new node has been assigned in common.NewList instead of common.AuctionList after staking v4".

(** ** Lists of validators *)
Definition sortKeys {A} (nodes : gmap Z A) : list Z := merge_sort Z.le (fst <$> map_to_list nodes).

Definition removeValidatorFromList (validatorList : list Validator) (index : Z) : list Validator :=
  if (Z.of_nat (length validatorList) - 1 <? index)%Z || (index <? 0)%Z then validatorList
  else match last validatorList with
       | Some x => take (length validatorList - 1) (<[Z.to_nat index := x]> validatorList)
       | None => validatorList
       end.

(** [for i := n - 1; i >= 0; i--] until an element has the key *)
Fixpoint indexFromEnd (n : nat) (l : list Validator) (key : bytes) : option nat :=
  match n with
  | O => None
  | S i =>
    match l !! i with
    | Some val => if bool_decide (PubKey val = key) then Some i else indexFromEnd i l key
    | None => indexFromEnd i l key
    end
  end.

Fixpoint removeLoop (validatorsToRemove resultedList removed : list Validator)
    (maxToRemove : Z) : list Validator * list Validator :=
  match validatorsToRemove with
  | [] => (resultedList, removed)
  | valToRemove :: rest =>
    if (Z.of_nat (length removed) =? maxToRemove)%Z then (resultedList, removed)
    else
      match indexFromEnd (length resultedList) resultedList (PubKey valToRemove) with
      | None => removeLoop rest resultedList removed maxToRemove
      | Some i =>
        removeLoop rest (removeValidatorFromList resultedList (Z.of_nat i))
          (removed ++ option_list (resultedList !! i)) maxToRemove
      end
  end.

(** the remaining list and the removed validators *)
Definition removeValidatorsFromList (validatorList validatorsToRemove : list Validator)
    (maxToRemove : Z) : list Validator * list Validator :=
  removeLoop validatorsToRemove validatorList [] maxToRemove.

(** the inner loop of [removeDuplicates] *)
Fixpoint removeKeyFrom (n : nat) (additionalCopy : list Validator) (key : bytes) :
    list Validator :=
  match n with
  | O => additionalCopy
  | S i =>
    match additionalCopy !! i with
    | Some v =>
      removeKeyFrom i (if bool_decide (key = PubKey v)
                       then removeValidatorFromList additionalCopy (Z.of_nat i)
                       else additionalCopy) key
    | None => removeKeyFrom i additionalCopy key
    end
  end.

Definition removeDuplicates (unstake additionalLeaving : list Validator) : list Validator :=
  foldl (λ additionalCopy unstakeValidator,
    removeKeyFrom (length additionalCopy) additionalCopy (PubKey unstakeValidator))
  additionalLeaving unstake.

(** ** Leaving nodes *)
Definition removeNodesFromShard (existingNodes : validatorMap) (leavingNodes : list Validator)
    (shard nbToRemove : Z) : validatorMap * list Validator * Z :=
  let nbToRemove := if (Z.of_nat (length leavingNodes) <? nbToRemove)%Z
                    then Z.of_nat (length leavingNodes) else nbToRemove in
  let '(vList, removedNodes) :=
    removeValidatorsFromList (listOf existingNodes shard) leavingNodes nbToRemove in
  let '(leavingNodes, _) :=
    removeValidatorsFromList leavingNodes removedNodes (Z.of_nat (length removedNodes)) in
  (<[shard := vList]> existingNodes, leavingNodes, Z.of_nat (length removedNodes)).

(** the nodes, the leaving nodes and the numbers to remove after one shard *)
Definition removeOnShard (st : validatorMap * list Validator * gmap Z Z) (shardId : Z) :
    validatorMap * list Validator * gmap Z Z :=
  let '(existingNodes, leavingNodes, numToRemove) := st in
  let numToRemoveOnShard := default 0%Z (numToRemove !! shardId) in
  let '(existingNodes, leavingNodes, numRemoved) :=
    removeNodesFromShard existingNodes leavingNodes shardId numToRemoveOnShard in
  (existingNodes, leavingNodes,
   <[shardId := (default 0 (numToRemove !! shardId) - numRemoved)%Z]> numToRemove).

Definition removeNodesFromMap (existingNodes : validatorMap) (leavingNodes : list Validator)
    (numToRemove : gmap Z Z) : validatorMap * list Validator * gmap Z Z :=
  foldl removeOnShard (existingNodes, leavingNodes, numToRemove) (sortKeys existingNodes).

Definition removeLeavingNodesFromValidatorMaps (eligible waiting : validatorMap)
    (numToRemove : gmap Z Z) (leaving : list Validator) :
    validatorMap * validatorMap * list Validator * gmap Z Z :=
  let '(newWaiting, stillRemaining, numToRemove) :=
    removeNodesFromMap waiting leaving numToRemove in
  let '(newEligible, stillRemaining, numToRemove) :=
    removeNodesFromMap eligible stillRemaining numToRemove in
  (newEligible, newWaiting, stillRemaining, numToRemove).

(** ** Numbers *)
Definition computeNumToRemovePerShard (numEligible numWaiting nodesPerShard : Z) : string + Z :=
  if (numEligible + numWaiting <? nodesPerShard)%Z then inl ErrSmallShardEligibleListSize
  else inr (numEligible + numWaiting - nodesPerShard)%Z.

Definition numToRemoveOn (arg : shuffleNodesArg) (nodes shardId : Z) : string + Z :=
  match computeNumToRemovePerShard (Z.of_nat (length (listOf (eligible arg) shardId)))
          (Z.of_nat (length (listOf (waiting arg) shardId))) nodes with
  | inl err => inl (err ++ " shard=" ++ pretty shardId)%string
  | inr maxToRemove => inr maxToRemove
  end.

Fixpoint numToRemoveLoop (arg : shuffleNodesArg) (shards : list Z) (numToRemove : gmap Z Z) :
    string + gmap Z Z :=
  match shards with
  | [] => inr numToRemove
  | shardId :: rest =>
    match numToRemoveOn arg (nodesPerShard arg) shardId with
    | inl err => inl err
    | inr maxToRemove => numToRemoveLoop arg rest (<[shardId := maxToRemove]> numToRemove)
    end
  end.

Definition computeNumToRemove (arg : shuffleNodesArg) : string + gmap Z Z :=
  if (nbShards arg =? 0)%Z then inr ∅
  else
    match numToRemoveLoop arg (seqZ 0 (nbShards arg)) ∅ with
    | inl err => inl err
    | inr numToRemove =>
      match numToRemoveOn arg (nodesMeta arg) MetachainShardId with
      | inl err => inl err
      | inr maxToRemove => inr (<[MetachainShardId := maxToRemove]> numToRemove)
      end
    end.

(** the shards whose list is nil get an empty one *)
Definition createList (shardMap : validatorMap) (shardId : Z) : validatorMap :=
  <[shardId := listOf shardMap shardId]> shardMap.
Definition createListsForAllShards (shardMap : validatorMap) (shards : Z) : validatorMap :=
  createList (foldl createList shardMap (seqZ 0 shards)) MetachainShardId.

Definition computeNeededNodes (destination source : list Validator) (maxNumNodes : Z) : Z :=
  let numCurrentNodes := u32 (Z.of_nat (length destination)) in
  let numSourceNodes := u32 (Z.of_nat (length source)) in
  let numNeededNodes := if (numCurrentNodes <? maxNumNodes)%Z
                        then u32 (maxNumNodes - numCurrentNodes) else 0%Z in
  if (numSourceNodes <? numNeededNodes)%Z then numSourceNodes else numNeededNodes.

Definition shouldDistributeShuffledToWaitingInStakingV4 (cfg : shuffledNodesConfig) : bool :=
  if negb (cfgStakingV4Step2 cfg) then false
  else
    let totalNewWaiting := u32 (numNewWaiting cfg + numSelectedAuction cfg) in
    let totalNodes := u32 (u32 (totalNewWaiting + numNewEligible cfg) + numShuffled cfg) in
    (totalNodes <=? cfgMaxNumNodes cfg)%Z.

Section shuffler.
Context {HA : Hasher} {MO : MapOrder}.

(** ** Shuffling *)
Definition hashOf (randomness : bytes) (v : Validator) : bytes := Compute (PubKey v ++ randomness).

Definition shuffleList (validators : list Validator) (randomness : bytes) : list Validator :=
  let keys := hashOf randomness <$> validators in
  let mapValidators := foldl (λ (m : gmap bytes Validator) v, <[hashOf randomness v := v]> m)
                         ∅ validators in
  omap (λ key, mapValidators !! key) (merge_sort bytesLe keys).

(** the shuffled out and the remaining validators *)
Definition shuffleOutShard (validators : list Validator) (validatorsToSelect : Z)
    (randomness : bytes) : list Validator * list Validator :=
  let validatorsToSelect := if (Z.of_nat (length validators) <? validatorsToSelect)%Z
                            then length validators else Z.to_nat validatorsToSelect in
  let shardShuffledEligible := shuffleList validators randomness in
  (take validatorsToSelect shardShuffledEligible, drop validatorsToSelect shardShuffledEligible).

Definition shuffleOutOne (numToShuffle : gmap Z Z) (randomness : bytes) (eligible : validatorMap)
    (st : validatorMap * validatorMap) (shardId : Z) : validatorMap * validatorMap :=
  let '(shuffledOutMap, newEligible) := st in
  let '(shardShuffledOut, validators) :=
    shuffleOutShard (listOf eligible shardId) (default 0%Z (numToShuffle !! shardId)) randomness in
  (<[shardId := shardShuffledOut]> shuffledOutMap,
   <[shardId := (removeValidatorsFromList validators shardShuffledOut
                   (Z.of_nat (length shardShuffledOut))).1]> newEligible).

Definition shuffleOutNodes (eligible : validatorMap) (numToShuffle : gmap Z Z)
    (randomness : bytes) : validatorMap * validatorMap :=
  foldl (shuffleOutOne numToShuffle randomness eligible) (∅, ∅) (sortKeys eligible).

(** ** Moving and distributing *)
Definition searchInMap (m : validatorMap) (pk : bytes) : bool :=
  existsb (λ '(_, validatorsInShard),
    existsb (λ val, bool_decide (PubKey val = pk)) validatorsInShard) (rangeOf m).

Definition removeLeavingNodesNotExistingInEligibleOrWaiting (leavingValidators : list Validator)
    (waiting eligible : validatorMap) : list Validator * list Validator :=
  let notFoundValidators :=
    List.filter (λ v, negb (searchInMap waiting (PubKey v)) && negb (searchInMap eligible (PubKey v)))
      leavingValidators in
  removeValidatorsFromList leavingValidators notFoundValidators
    (Z.of_nat (length notFoundValidators)).

Definition getNumPubKeys (shardValidatorsMap : validatorMap) : Z :=
  foldl (λ numPubKeys '(_, validatorsInShard),
    u32 (numPubKeys + u32 (Z.of_nat (length validatorsInShard))))
  0%Z (rangeOf shardValidatorsMap).

(** a nil destination is [None]; returns the destination and the source *)
Definition moveNodesToMap (destination : option validatorMap) (source : validatorMap) :
    string + validatorMap * validatorMap :=
  match destination with
  | None => inl ErrNilOrEmptyDestinationForDistribute
  | Some destination =>
    inr (foldl (λ '(destination, source) '(shardId, validators),
           (<[shardId := listOf destination shardId ++ validators]> destination,
            <[shardId := []]> source))
         (destination, source) (rangeOf source))
  end.

Definition moveMaxNumNodesToMap (destination : option validatorMap) (source : validatorMap)
    (numMeta numShard : Z) : string + validatorMap * validatorMap :=
  match destination with
  | None => inl ErrNilOrEmptyDestinationForDistribute
  | Some destination =>
    inr (foldl (λ '(destination, source) '(shardId, validators),
           let maxNodes := if (shardId =? MetachainShardId)%Z then numMeta else numShard in
           let numNeededNodes := Z.to_nat
             (computeNeededNodes (listOf destination shardId) (listOf source shardId) maxNodes) in
           (<[shardId := listOf destination shardId ++ take numNeededNodes validators]> destination,
            <[shardId := drop numNeededNodes validators]> source))
         (destination, source) (rangeOf source))
  end.

Definition getMaxListSize (lists : validatorMap) : Z :=
  foldl (λ maxSize '(_, l), if (maxSize <? Z.of_nat (length l))%Z then Z.of_nat (length l)
                            else maxSize) 0%Z (rangeOf lists).

(** the destination and the validators still to be distributed *)
Definition equalizeOne (maxListSize : Z) (st : validatorMap * list Validator) (shardID : Z) :
    validatorMap * list Validator :=
  let '(destLists, remaining) := st in
  let shardList := listOf destLists shardID in
  if (Z.of_nat (length shardList) <? maxListSize)%Z then
    let toMove := (maxListSize - Z.of_nat (length shardList))%Z in
    let toMove := if (Z.of_nat (length remaining) <? toMove)%Z then length remaining
                  else Z.to_nat toMove in
    (<[shardID := shardList ++ take toMove remaining]> destLists, drop toMove remaining)
  else st.

Definition equalizeValidatorsLists (destLists : validatorMap) (validators : list Validator) :
    validatorMap * list Validator :=
  foldl (equalizeOne (getMaxListSize destLists)) (destLists, validators) (sortKeys destLists).

(** the round-robin: [i] is the number of validators placed so far *)
Fixpoint roundRobin (sortedShardIds : list Z) (i : nat) (validators : list Validator)
    (destLists : validatorMap) : validatorMap :=
  match validators with
  | [] => destLists
  | v :: rest =>
    let destLength := u32 (Z.of_nat (length sortedShardIds)) in
    let shardId := nth (Z.to_nat (u32 (Z.of_nat i) mod destLength)) sortedShardIds 0%Z in
    roundRobin sortedShardIds (S i) rest
      (<[shardId := listOf destLists shardId ++ [v]]> destLists)
  end.

Definition distributeValidators (destLists : validatorMap) (validators : list Validator)
    (randomness : bytes) (balanced : bool) : string + validatorMap :=
  if bool_decide (destLists = ∅) then inl ErrNilOrEmptyDestinationForDistribute
  else
    let shuffledValidators := shuffleList validators randomness in
    let sortedShardIds := sortKeys destLists in
    let '(destLists, shuffledValidators) :=
      if balanced then equalizeValidatorsLists destLists shuffledValidators
      else (destLists, shuffledValidators) in
    inr (roundRobin sortedShardIds 0 shuffledValidators destLists).

(** [DistributeValidators] of both distributors: destination and source *)
Definition DistributeValidators (d : ValidatorsDistributor) (destination source : validatorMap)
    (rand : bytes) (balanced : bool) : string + validatorMap * validatorMap :=
  match d with
  | IntraShardValidatorDistributor => moveNodesToMap (Some destination) source
  | CrossShardValidatorDistributor =>
    let allValidators := concat (snd <$> rangeOf source) in
    match distributeValidators destination allValidators rand balanced with
    | inl err => inl err
    | inr destination => inr (destination, source)
    end
  end.

Definition checkAndDistributeNewNodes (waiting : validatorMap) (newNodes : list Validator)
    (randomness : bytes) (flagStakingV4Step3 : bool) : string + validatorMap :=
  if negb flagStakingV4Step3 then distributeValidators waiting newNodes randomness false
  else if (0 <? length newNodes)%nat then inl ErrReceivedNewListNodeInStakingV4
  else inr waiting.

(** [fmt.Errorf("... failed, error: %w", err)] *)
Definition wrapErr {A} (prefix : string) (r : string + A) : string + A :=
  match r with
  | inl err => inl (prefix ++ " failed, error: " ++ err)%string
  | inr a => inr a
  end.

(** ** One epoch change *)
Definition clampToSwap (maxNodesToSwap : Z) (numToRemove : gmap Z Z) : gmap Z Z :=
  (λ toRemove, if (maxNodesToSwap <? toRemove)%Z then maxNodesToSwap else toRemove)
    <$> numToRemove.

(** the steps of [shuffleNodes] that cannot fail: the leaving nodes are removed
    and the nodes to shuffle out chosen.  Returns the eligible and waiting lists,
    the leaving nodes that had to remain and the shuffled out nodes. *)
Definition leaveAndShuffleOut (arg : shuffleNodesArg) (waitingCopy : validatorMap)
    (numToRemove : gmap Z Z) : validatorMap * validatorMap * list Validator * validatorMap :=
  let eligibleCopy := eligible arg in
  let '(remainingUnstakeLeaving, _) := removeLeavingNodesNotExistingInEligibleOrWaiting
    (unstakeLeaving arg) waitingCopy eligibleCopy in
  let '(remainingAdditionalLeaving, _) := removeLeavingNodesNotExistingInEligibleOrWaiting
    (additionalLeaving arg) waitingCopy eligibleCopy in
  let '(newEligible, newWaiting, stillRemainingUnstakeLeaving, numToRemove) :=
    removeLeavingNodesFromValidatorMaps eligibleCopy waitingCopy numToRemove
      remainingUnstakeLeaving in
  let '(newEligible, newWaiting, stillRemainingAdditionalLeaving, numToRemove) :=
    removeLeavingNodesFromValidatorMaps newEligible newWaiting numToRemove
      remainingAdditionalLeaving in
  let stillRemainingInLeaving :=
    stillRemainingUnstakeLeaving ++ stillRemainingAdditionalLeaving in
  let '(shuffledOutMap, newEligible) :=
    shuffleOutNodes newEligible numToRemove (randomness arg) in
  (newEligible, newWaiting, stillRemainingInLeaving, shuffledOutMap).

Definition shuffleNodes {S} (arg : shuffleNodesArg) : M S string ResUpdateNodes :=
  let allLeaving := unstakeLeaving arg ++ additionalLeaving arg in
  let waitingCopy := createListsForAllShards (waiting arg) (nbShards arg) in
  let! numToRemove := fromSum (computeNumToRemove arg) in
  let numToRemove := clampToSwap (maxNodesToSwapPerShard arg) numToRemove in
  let '(newEligible, newWaiting, stillRemainingInLeaving, shuffledOutMap) :=
    leaveAndShuffleOut arg waitingCopy numToRemove in
  let! ' (newEligible, newWaiting) := fromSum (wrapErr "moveNodesToMap"
    (moveMaxNumNodesToMap (Some newEligible) newWaiting (nodesMeta arg) (nodesPerShard arg))) in
  let! newWaiting := fromSum (wrapErr "distributeValidators newNodes"
    (checkAndDistributeNewNodes newWaiting (newNodes arg) (randomness arg)
       (flagStakingV4Step3 arg))) in
  let shuffledNodesCfg := {|
    numShuffled := getNumPubKeys shuffledOutMap;
    numNewEligible := getNumPubKeys newEligible;
    numNewWaiting := getNumPubKeys newWaiting;
    numSelectedAuction := u32 (Z.of_nat (length (auction arg)));
    cfgMaxNumNodes := maxNumNodes arg;
    cfgStakingV4Step2 := flagStakingV4Step2 arg |} in
  let lowWaitingList := shouldDistributeShuffledToWaitingInStakingV4 shuffledNodesCfg in
  let! newWaiting :=
    if flagStakingV4Step3 arg || lowWaitingList then
      fromSum (wrapErr "distributeValidators auction list"
        (distributeValidators newWaiting (auction arg) (randomness arg)
           (flagBalanceWaitingLists arg)))
    else ret newWaiting in
  let! ' (newWaiting, shuffledOutMap) :=
    if negb (flagStakingV4Step2 arg) || lowWaitingList then
      fromSum (wrapErr "distributeValidators shuffled out"
        (DistributeValidators (distributor arg) newWaiting shuffledOutMap (randomness arg)
           (flagBalanceWaitingLists arg)))
    else ret (newWaiting, shuffledOutMap) in
  let '(actualLeaving, _) := removeValidatorsFromList allLeaving stillRemainingInLeaving
    (Z.of_nat (length stillRemainingInLeaving)) in
  ret {|
    Eligible := newEligible;
    Waiting := newWaiting;
    ShuffledOut := shuffledOutMap;
    Leaving := actualLeaving;
    StillRemaining := stillRemainingInLeaving;
    LowWaitingList := flagCleanupAuctionOnLowWaitingList arg && lowWaitingList;
  |}.

(** ** The shuffler and its configuration *)

(** common.BalanceWaitingListsFlag and CleanupAuctionOnLowWaitingListFlag *)
Inductive ShufflerFlag : Type :=
  | BalanceWaitingListsFlag
  | CleanupAuctionOnLowWaitingListFlag.

Record randHashShuffler : Type := mkShuffler {
  shuffleBetweenShards : bool;
  activeNodesConfig : MaxNodesChangeConfig;
  availableNodesConfigs : list MaxNodesChangeConfig;
  validatorDistributor : ValidatorsDistributor;
  IsFlagEnabledInEpoch : ShufflerFlag → Z → bool;
  stakingV4Step2EnableEpoch : Z;
  rhsStakingV4Step2 : bool;
  stakingV4Step3EnableEpoch : Z;
  rhsStakingV4Step3 : bool;
}.

Definition epochLe (c1 c2 : MaxNodesChangeConfig) : Prop := (EpochEnable c1 ≤ EpochEnable c2)%Z.
#[global] Instance epochLe_dec : RelDecision epochLe.
Proof. unfold epochLe. solve_decision. Defined.
(** [sort.Slice] leaves the order of equal epochs open; here it is stable *)
Definition sortConfigs (configs : list MaxNodesChangeConfig) : list MaxNodesChangeConfig :=
  merge_sort epochLe configs.

Definition NewHashValidatorsShuffler (shuffleBetweenShards : bool)
    (configs : list MaxNodesChangeConfig) (flags : ShufflerFlag → Z → bool)
    (step2Epoch step3Epoch : Z) : randHashShuffler :=
  mkShuffler shuffleBetweenShards
    {| EpochEnable := 0; MaxNumNodes := 0; NodesToShufflePerShard := 0 |}
    (sortConfigs configs)
    (if shuffleBetweenShards then CrossShardValidatorDistributor
     else IntraShardValidatorDistributor)
    flags step2Epoch false step3Epoch false.

Definition UpdateShufflerConfig (epoch : Z) (chainParameters : ChainParameters)
    (rhs : randHashShuffler) : randHashShuffler :=
  let 'mkShuffler between active available distr flags ep2 _ ep3 _ := rhs in
  let active := {| EpochEnable := EpochEnable active; MaxNumNodes := MaxNumNodes active;
                   NodesToShufflePerShard := ShardMinNumNodes chainParameters |} in
  let active := foldl (λ active maxNodesConfig,
                  if (EpochEnable maxNodesConfig <=? epoch)%Z then maxNodesConfig else active)
                active available in
  mkShuffler between active available distr flags ep2 (ep2 <=? epoch)%Z ep3 (ep3 <=? epoch)%Z.

Definition metaHysteresis (chainParameters : ChainParameters) : Z :=
  u32 (hysteresisOf chainParameters (MetachainMinNumNodes chainParameters)).
Definition shardHysteresis (chainParameters : ChainParameters) : Z :=
  u32 (hysteresisOf chainParameters (ShardMinNumNodes chainParameters)).

(** divides by the maximal number of nodes of a shard *)
Definition computeNewShards {S X} (chainParameters : ChainParameters) (eligible waiting : validatorMap)
    (numNewNodes numLeavingNodes nbShards : Z) : M S X Z :=
  let '(nbEligible, nbWaiting) :=
    foldl (λ '(nbEligible, nbWaiting) '(shard, l),
      ((nbEligible + Z.of_nat (length l))%Z,
       (nbWaiting + Z.of_nat (length (listOf waiting shard)))%Z))
    (0%Z, 0%Z) (rangeOf eligible) in
  let nodesNewEpoch := u32 (nbEligible + nbWaiting + numNewNodes - numLeavingNodes) in
  let maxNodesMeta := u32 (MetachainMinNumNodes chainParameters + metaHysteresis chainParameters) in
  let maxNodesShard := u32 (ShardMinNumNodes chainParameters + shardHysteresis chainParameters) in
  let nodesForSplit := u32 (u32 (u32 (nbShards + 1) * maxNodesShard) + maxNodesMeta) in
  let nodesForMerge := u32 (u32 (nbShards * ShardMinNumNodes chainParameters)
                            + MetachainMinNumNodes chainParameters) in
  if (nodesForSplit <? nodesNewEpoch)%Z then
    let nbNodesWithoutMaxMeta := u32 (nodesNewEpoch - maxNodesMeta) in
    if (maxNodesShard =? 0)%Z then panic
    else ret (nbNodesWithoutMaxMeta / maxNodesShard)%Z
  else if (nodesNewEpoch <? nodesForMerge)%Z then ret (u32 (nbShards - 1))
  else ret nbShards.

(** both are not implemented in the code: they return copies *)
Definition splitShards (eligible waiting : validatorMap) : validatorMap * validatorMap :=
  (eligible, waiting).
Definition mergeShards (eligible waiting : validatorMap) : validatorMap * validatorMap :=
  (eligible, waiting).

Definition UpdateNodeLists (args : ArgsUpdateNodes) : M randHashShuffler string ResUpdateNodes :=
  let chainParameters := argChainParameters args in
  modify (UpdateShufflerConfig (argEpoch args) chainParameters) ;;;
  let additional := removeDuplicates (argUnStakeLeaving args) (argAdditionalLeaving args) in
  let totalLeavingNum := Z.of_nat (length additional + length (argUnStakeLeaving args)) in
  let! newNbShards := computeNewShards chainParameters (argEligible args) (argWaiting args)
    (Z.of_nat (length (argNewNodes args))) totalLeavingNum (argNbShards args) in
  let canSplit := Adaptivity chainParameters && (argNbShards args <? newNbShards)%Z in
  let canMerge := Adaptivity chainParameters && (newNbShards <? argNbShards args)%Z in
  let afterReshard := (argEligible args, argWaiting args) in
  let afterReshard := if canSplit then splitShards (argEligible args) (argWaiting args)
                      else afterReshard in
  let '(eligibleAfterReshard, waitingAfterReshard) :=
    if canMerge then mergeShards (argEligible args) (argWaiting args) else afterReshard in
  let! rhs := gets id in
  shuffleNodes {|
    eligible := eligibleAfterReshard;
    waiting := waitingAfterReshard;
    unstakeLeaving := argUnStakeLeaving args;
    additionalLeaving := additional;
    newNodes := argNewNodes args;
    auction := argAuction args;
    randomness := argRand args;
    nodesMeta := MetachainMinNumNodes chainParameters;
    nodesPerShard := ShardMinNumNodes chainParameters;
    nbShards := argNbShards args;
    distributor := validatorDistributor rhs;
    maxNodesToSwapPerShard := NodesToShufflePerShard (activeNodesConfig rhs);
    flagBalanceWaitingLists := IsFlagEnabledInEpoch rhs BalanceWaitingListsFlag (argEpoch args);
    flagStakingV4Step2 := rhsStakingV4Step2 rhs;
    flagStakingV4Step3 := rhsStakingV4Step3 rhs;
    maxNumNodes := MaxNumNodes (activeNodesConfig rhs);
    flagCleanupAuctionOnLowWaitingList :=
      IsFlagEnabledInEpoch rhs CleanupAuctionOnLowWaitingListFlag (argEpoch args) |}.
End shuffler.
