(* ===== verification/ShufflerSpec.v ===== *)
(** * ShufflerSpec: what the steps of the shuffler do to the lists

    Every step of [shuffleNodes] is characterised by a permutation (no
    validator is lost or duplicated), by the lengths per shard and by the keys
    it moved; [ShufflerTheorems.v] composes them. *)
From S2P Require Import Prelude Shuffler.
From stdpp Require Import sorting.

Definition keys (l : list Validator) : list bytes := PubKey <$> l.
(** all validators of a map *)
Definition nodesOf (m : validatorMap) : list Validator := concat (snd <$> map_to_list m).

#[export] Instance keys_perm : Proper (Permutation ==> Permutation) keys.
Proof. intros l l' H. unfold keys. by rewrite H. Qed.
Lemma keys_app l1 l2 : keys (l1 ++ l2) = keys l1 ++ keys l2.
Proof. apply fmap_app. Qed.
Lemma keys_cons v l : keys (v :: l) = PubKey v :: keys l.
Proof. done. Qed.
Lemma elem_of_keys v l : v ∈ l → PubKey v ∈ keys l.
Proof. apply list_elem_of_fmap_2. Qed.
Lemma NoDup_keys l : NoDup (keys l) → NoDup l.
Proof. apply NoDup_fmap_1. Qed.

(** ** One removal *)
Lemma insert_perm {A} (l : list A) i x v :
  l !! i = Some v → v :: <[i := x]> l ≡ₚ x :: l.
Proof.
  intros Hi. rewrite insert_take_drop; [|by eapply lookup_lt_Some].
  rewrite -{3}(take_drop_middle l i v Hi). rewrite -!Permutation_middle.
  apply Permutation_swap.
Qed.

Lemma removeValidatorFromList_perm l i v :
  l !! i = Some v → v :: removeValidatorFromList l (Z.of_nat i) ≡ₚ l.
Proof.
  intros Hi. pose proof (lookup_lt_Some _ _ _ Hi) as Hlt.
  unfold removeValidatorFromList.
  destruct (Z.ltb_spec (Z.of_nat (length l) - 1) (Z.of_nat i)); [lia|].
  destruct (Z.ltb_spec (Z.of_nat i) 0); [lia|]. simpl. rewrite Nat2Z.id.
  destruct l as [|x l' _] using rev_ind; [done|].
  rewrite last_snoc length_app /= in Hlt |- *.
  replace (length l' + 1 - 1) with (length l') by lia.
  destruct (decide (i = length l')) as [->|Hne].
  - rewrite insert_app_r_alt // Nat.sub_diag /= take_app_length.
    rewrite lookup_app_r // Nat.sub_diag /= in Hi. injection Hi as ->.
    apply Permutation_cons_append.
  - rewrite insert_app_l; [|lia]. rewrite take_app_le; [|rewrite length_insert; lia].
    rewrite take_ge; [|rewrite length_insert; lia].
    rewrite lookup_app_l in Hi; [|lia]. rewrite insert_perm //. apply Permutation_cons_append.
Qed.

Lemma indexFromEnd_Some n l key i :
  indexFromEnd n l key = Some i → ∃ v, l !! i = Some v ∧ PubKey v = key.
Proof.
  induction n as [|n IH]; [done|]. simpl.
  destruct (l !! n) as [v|] eqn:Hn; [|done]. case_bool_decide; [|done].
  intros [= <-]. eauto.
Qed.
Lemma indexFromEnd_None n l key :
  length l ≤ n → indexFromEnd n l key = None → key ∉ keys l.
Proof.
  intros Hl Hnone. assert (∀ i v, i < n → l !! i = Some v → PubKey v ≠ key) as H.
  { clear Hl. induction n as [|n IH]; [lia|]. simpl in Hnone. intros i v Hi Hv.
    destruct (decide (i = n)) as [->|].
    - rewrite Hv in Hnone. by case_bool_decide.
    - apply (IH ltac:(destruct (l !! n); [by case_bool_decide|done]) i); [lia|done]. }
  intros (v & -> & Hin)%list_elem_of_fmap. apply list_elem_of_lookup in Hin as [i Hi].
  apply (H i v); [|done..]. pose proof (lookup_lt_Some _ _ _ Hi). lia.
Qed.

Lemma removeLoop_spec R L D0 max :
  let '(K, D') := removeLoop R L D0 max in
  ∃ D, D' = D0 ++ D ∧ K ++ D ≡ₚ L ∧ (∀ v, v ∈ D → PubKey v ∈ keys R) ∧
    (Z.of_nat (length D0) ≤ max → Z.of_nat (length D') ≤ max)%Z ∧
    (Z.of_nat (length D0 + length R) ≤ max → NoDup (keys L) →
     ∀ k, k ∈ keys R → k ∉ keys K)%Z.
Proof.
  revert L D0. induction R as [|r R IH]; intros L D0; simpl.
  { exists []. rewrite !app_nil_r. split_and!; try done.
    - by intros v ?%elem_of_nil.
    - intros _ _ k Hk. by apply elem_of_nil in Hk. }
  destruct (Z.eqb_spec (Z.of_nat (length D0)) max) as [Hmax|Hmax].
  { exists []. rewrite !app_nil_r. split_and!; try done.
    - by intros v ?%elem_of_nil.
    - intros Hle. simpl in Hle. lia. }
  destruct (indexFromEnd (length L) L (PubKey r)) as [i|] eqn:Hi.
  - apply indexFromEnd_Some in Hi as (v & Hv & Hkey). rewrite Hv. simpl.
    specialize (IH (removeValidatorFromList L (Z.of_nat i)) (D0 ++ [v])).
    pose proof (removeValidatorFromList_perm L i v Hv) as Hperm.
    destruct (removeLoop R _ _ _) as [K D'].
    destruct IH as (D & -> & HK & HD & Hlen & Hall).
    exists (v :: D). rewrite -app_assoc. split_and!; [done|..].
    + rewrite -Hperm -HK. symmetry. apply Permutation_middle.
    + intros w [->|Hw]%elem_of_cons; [rewrite Hkey; left|right; by apply HD].
    + intros Hle. rewrite -app_assoc in Hlen. apply Hlen. rewrite length_app /=. lia.
    + intros Hle Hnd. rewrite -Hperm keys_cons in Hnd. apply NoDup_cons in Hnd as [Hv' Hnd].
      rewrite length_app /= in Hall. specialize (Hall ltac:(lia) Hnd).
      intros k [->|Hk]%elem_of_cons; [|by apply Hall].
      intros Hin. apply Hv'. rewrite -HK keys_app Hkey. apply elem_of_app. by left.
  - apply indexFromEnd_None in Hi; [|done].
    specialize (IH L D0). destruct (removeLoop R L D0 max) as [K D'].
    destruct IH as (D & -> & HK & HD & Hlen & Hall).
    exists D. split; [done|]. split; [done|]. split; [|split; [done|]].
    + intros w Hw. right. by apply HD.
    + intros Hle Hnd k [->|Hk]%elem_of_cons; [|apply Hall; [lia|done|done]].
      intros Hin. apply Hi. rewrite -HK keys_app. apply elem_of_app. by left.
Qed.

Lemma removeValidatorsFromList_spec L R max :
  let '(K, D) := removeValidatorsFromList L R max in
  K ++ D ≡ₚ L ∧ (∀ v, v ∈ D → PubKey v ∈ keys R) ∧
  (0 ≤ max → Z.of_nat (length D) ≤ max)%Z ∧
  (Z.of_nat (length R) ≤ max → NoDup (keys L) → ∀ k, k ∈ keys R → k ∉ keys K)%Z.
Proof.
  unfold removeValidatorsFromList. pose proof (removeLoop_spec R L [] max) as H.
  destruct (removeLoop R L [] max) as [K D'].
  destruct H as (D & -> & ? & ? & ? & ?). split_and!; done.
Qed.

(** removing all of a list, with distinct keys, keeps exactly the other keys *)
Lemma removeAll_keys L R K D k :
  removeValidatorsFromList L R (Z.of_nat (length R)) = (K, D) → NoDup (keys L) →
  k ∈ keys K ↔ k ∈ keys L ∧ k ∉ keys R.
Proof.
  intros Heq Hnd. pose proof (removeValidatorsFromList_spec L R (Z.of_nat (length R))) as H.
  rewrite Heq in H. destruct H as (HK & HD & _ & Hall). specialize (Hall ltac:(lia) Hnd).
  rewrite -HK keys_app elem_of_app. split.
  - intros Hk. split; [by left|]. intros HR. by apply (Hall k).
  - intros [[?|(v & -> & Hv)%list_elem_of_fmap] HR]; [done|].
    destruct HR. by apply HD.
Qed.

(** ** The validators of a map *)
Lemma nodesOf_empty : nodesOf ∅ = [].
Proof. unfold nodesOf. by rewrite map_to_list_empty. Qed.
Lemma nodesOf_insert m k l : m !! k = None → nodesOf (<[k := l]> m) ≡ₚ l ++ nodesOf m.
Proof. intros Hk. unfold nodesOf. by rewrite map_to_list_insert. Qed.
(** replacing one list *)
Lemma nodesOf_update m k l : nodesOf (<[k := l]> m) ++ listOf m k ≡ₚ l ++ nodesOf m.
Proof.
  unfold listOf. destruct (m !! k) as [l0|] eqn:Hk; simpl.
  - rewrite -(insert_delete_eq m) nodesOf_insert ?lookup_delete_eq //.
    rewrite -{2}(insert_delete_id m k l0) // nodesOf_insert ?lookup_delete_eq //.
    by rewrite -!app_assoc (Permutation_app_comm (nodesOf _) l0).
  - by rewrite app_nil_r nodesOf_insert.
Qed.
Lemma nodesOf_list m k : ∃ rest, nodesOf m ≡ₚ listOf m k ++ rest.
Proof.
  exists (nodesOf (<[k := []]> m)). rewrite Permutation_app_comm. symmetry. apply nodesOf_update.
Qed.
Lemma listOf_nodesOf m k v : v ∈ listOf m k → v ∈ nodesOf m.
Proof.
  destruct (nodesOf_list m k) as [rest Hp]. intros Hv. rewrite Hp. apply elem_of_app. by left.
Qed.
Lemma elem_of_nodesOf m v : v ∈ nodesOf m ↔ ∃ k, v ∈ listOf m k.
Proof.
  split; [|by intros [k ?%listOf_nodesOf]].
  unfold nodesOf. rewrite list_elem_of_In in_concat. intros (l & Hl & Hv).
  apply list_elem_of_In in Hl, Hv. apply list_elem_of_fmap in Hl as ([k l'] & -> & Hin).
  apply elem_of_map_to_list in Hin. exists k. unfold listOf. by rewrite Hin.
Qed.
Lemma listOf_insert_eq m k l : listOf (<[k := l]> m) k = l.
Proof. unfold listOf. by rewrite lookup_insert_eq. Qed.
Lemma listOf_insert_ne m k k' l : k ≠ k' → listOf (<[k := l]> m) k' = listOf m k'.
Proof. intros. unfold listOf. by rewrite lookup_insert_ne. Qed.
Lemma listOf_empty k : listOf ∅ k = [].
Proof. unfold listOf. by rewrite lookup_empty. Qed.

Lemma NoDup_app_l {A} (l1 l2 : list A) : NoDup (l1 ++ l2) → NoDup l1.
Proof. by intros (? & _ & _)%NoDup_app. Qed.
Lemma NoDup_keys_list m k : NoDup (keys (nodesOf m)) → NoDup (keys (listOf m k)).
Proof.
  destruct (nodesOf_list m k) as [rest Hp]. rewrite Hp keys_app. apply NoDup_app_l.
Qed.

(** ** Leaving nodes *)
Definition toRemove (ntr : gmap Z Z) (s : Z) : Z := default 0%Z (ntr !! s).
Definition len (m : validatorMap) (s : Z) : Z := Z.of_nat (length (listOf m s)).

(** [m'], [lv'], [ntr'] arise from [m], [lv], [ntr] by taking validators of [lv]
    out of [m] and out of [lv] *)
Record stripped (m : validatorMap) (lv : list Validator) (ntr : gmap Z Z)
    (m' : validatorMap) (lv' : list Validator) (ntr' : gmap Z Z) : Prop := {
  stripped_nodes : ∃ D E, nodesOf m' ++ D ≡ₚ nodesOf m ∧ lv' ++ E ≡ₚ lv ∧ keys E ≡ₚ keys D;
  stripped_dom : dom m' = dom m;
  stripped_len s : (len m' s - toRemove ntr' s = len m s - toRemove ntr s)%Z;
  stripped_toRemove s : (0 ≤ toRemove ntr s → 0 ≤ toRemove ntr' s ≤ toRemove ntr s)%Z;
  stripped_sub s : listOf m' s ⊆+ listOf m s;
}.

Lemma stripped_refl m lv ntr : stripped m lv ntr m lv ntr.
Proof. split; [|done..|lia|done]. exists [], []. by rewrite !app_nil_r. Qed.
Lemma stripped_trans m1 lv1 n1 m2 lv2 n2 m3 lv3 n3 :
  stripped m1 lv1 n1 m2 lv2 n2 → stripped m2 lv2 n2 m3 lv3 n3 → stripped m1 lv1 n1 m3 lv3 n3.
Proof.
  intros [(D1 & E1 & Hm1 & Hl1 & Hk1) Hd1 Hn1 Ht1 Hs1]
    [(D2 & E2 & Hm2 & Hl2 & Hk2) Hd2 Hn2 Ht2 Hs2]. split.
  - exists (D2 ++ D1), (E2 ++ E1). rewrite !app_assoc Hm2 Hl2 Hm1 Hl1 !keys_app Hk1 Hk2. done.
  - congruence.
  - intros s. by rewrite Hn2.
  - intros s Hs. specialize (Ht1 s Hs). specialize (Ht2 s ltac:(lia)). lia.
  - intros s. by etrans; [apply Hs2|].
Qed.
Lemma stripped_NoDup m lv ntr m' lv' ntr' :
  stripped m lv ntr m' lv' ntr' → NoDup (keys lv) → NoDup (keys (nodesOf m)) →
  NoDup (keys lv') ∧ NoDup (keys (nodesOf m')).
Proof.
  intros [(D & E & Hm & Hl & _) _ _ _ _]. rewrite -Hm -Hl !keys_app. intros ?%NoDup_app_l ?%NoDup_app_l.
  done.
Qed.

Lemma keys_perm_eq (E D : list Validator) :
  NoDup (keys E) → NoDup (keys D) → (∀ k, k ∈ keys E ↔ k ∈ keys D) → keys E ≡ₚ keys D.
Proof. intros. by apply NoDup_Permutation. Qed.

(** one shard *)
Lemma stripped_shard m lv ntr s :
  NoDup (keys lv) → NoDup (keys (nodesOf m)) → s ∈ dom m → (0 ≤ toRemove ntr s)%Z →
  let '(m', lv', ntr') := removeOnShard (m, lv, ntr) s in stripped m lv ntr m' lv' ntr'.
Proof.
  intros Hlv Hm Hs Hntr. unfold removeOnShard, removeNodesFromShard.
  fold (toRemove ntr s). set (nb := if (_ <? toRemove ntr s)%Z then _ else _).
  assert (0 ≤ nb ≤ toRemove ntr s)%Z as Hnb.
  { unfold nb. destruct (Z.ltb_spec (Z.of_nat (length lv)) (toRemove ntr s)); lia. }
  pose proof (removeValidatorsFromList_spec (listOf m s) lv nb) as H1.
  destruct (removeValidatorsFromList (listOf m s) lv nb) as [vList D].
  destruct H1 as (HK & HD & Hlen & _). specialize (Hlen ltac:(lia)).
  pose proof (removeValidatorsFromList_spec lv D (Z.of_nat (length D))) as H2.
  pose proof (λ K E k, removeAll_keys lv D K E k) as H3.
  destruct (removeValidatorsFromList lv D (Z.of_nat (length D))) as [lv' E] eqn:Heq.
  destruct H2 as (HK2 & HE & _ & _).
  assert (NoDup (keys D) ∧ NoDup (keys E)) as [HndD HndE].
  { pose proof (NoDup_keys_list m s Hm) as Hnd. rewrite -HK keys_app in Hnd.
    rewrite -HK2 keys_app in Hlv. by apply NoDup_app in Hnd as (_ & _ & ?), Hlv as (_ & _ & ?). }
  split.
  - exists D, E. split_and!; [|done|].
    + apply (Permutation_app_inv_r (listOf m s)).
      rewrite -app_assoc (Permutation_app_comm D) app_assoc nodesOf_update.
      by rewrite -HK (Permutation_app_comm vList) -app_assoc.
    + apply keys_perm_eq; [done..|]. intros k. split.
      * intros (v & -> & Hv)%list_elem_of_fmap. by apply HE.
      * intros Hk. assert (k ∈ keys lv) as Hin.
        { apply list_elem_of_fmap in Hk as (v & -> & Hv). by apply HD. }
        rewrite -HK2 keys_app in Hin. apply elem_of_app in Hin as [Hin|]; [|done].
        by destruct (proj1 (H3 lv' E k eq_refl Hlv) Hin).
  - rewrite dom_insert_L. apply subseteq_union_1_L. by apply singleton_subseteq_l.
  - intros s'. unfold len, toRemove. destruct (decide (s = s')) as [<-|].
    + rewrite listOf_insert_eq lookup_insert_eq /=. fold (toRemove ntr s).
      apply Permutation_length in HK. rewrite length_app in HK. unfold toRemove. lia.
    + by rewrite listOf_insert_ne // lookup_insert_ne.
  - intros s'. unfold toRemove. destruct (decide (s = s')) as [<-|].
    + rewrite lookup_insert_eq /=. unfold toRemove in *. lia.
    + rewrite lookup_insert_ne; [lia|done].
  - intros s'. destruct (decide (s = s')) as [<-|].
    + rewrite listOf_insert_eq -HK. by apply submseteq_inserts_r.
    + by rewrite listOf_insert_ne.
Qed.

Lemma sortKeys_perm {A} (m : gmap Z A) : sortKeys m ≡ₚ fst <$> map_to_list m.
Proof. apply merge_sort_Permutation. Qed.
Lemma sortKeys_NoDup {A} (m : gmap Z A) : NoDup (sortKeys m).
Proof. rewrite sortKeys_perm. apply NoDup_fst_map_to_list. Qed.
Lemma elem_of_sortKeys {A} (m : gmap Z A) k : k ∈ sortKeys m ↔ k ∈ dom m.
Proof.
  rewrite sortKeys_perm elem_of_dom list_elem_of_fmap. split.
  - intros ([k' x] & -> & Hin%elem_of_map_to_list). eauto.
  - intros [x Hx]. exists (k, x). by rewrite elem_of_map_to_list.
Qed.

Definition nonNegative (ntr : gmap Z Z) : Prop := ∀ s, (0 ≤ toRemove ntr s)%Z.

Lemma stripped_shards ids m lv ntr :
  NoDup (keys lv) → NoDup (keys (nodesOf m)) → nonNegative ntr → (∀ s, s ∈ ids → s ∈ dom m) →
  let '(m', lv', ntr') := foldl removeOnShard (m, lv, ntr) ids in stripped m lv ntr m' lv' ntr'.
Proof.
  revert m lv ntr. induction ids as [|s ids IH]; intros m lv ntr Hlv Hm Hn Hids.
  { apply stripped_refl. }
  pose proof (stripped_shard m lv ntr s Hlv Hm (Hids s ltac:(left)) (Hn s)) as H1.
  cbn [foldl]. destruct (removeOnShard (m, lv, ntr) s) as [[m1 lv1] ntr1].
  destruct (stripped_NoDup _ _ _ _ _ _ H1 Hlv Hm) as [Hlv1 Hm1].
  specialize (IH m1 lv1 ntr1 Hlv1 Hm1).
  destruct (foldl removeOnShard (m1, lv1, ntr1) ids) as [[m' lv'] ntr'].
  eapply stripped_trans; [exact H1|]. apply IH.
  - intros s'. by apply H1.
  - intros s' Hs'. rewrite (stripped_dom _ _ _ _ _ _ H1). apply Hids. by right.
Qed.

Lemma removeNodesFromMap_spec m lv ntr :
  NoDup (keys lv) → NoDup (keys (nodesOf m)) → nonNegative ntr →
  let '(m', lv', ntr') := removeNodesFromMap m lv ntr in stripped m lv ntr m' lv' ntr'.
Proof.
  intros. apply stripped_shards; [done..|]. intros s. by rewrite elem_of_sortKeys.
Qed.

(** the same for the eligible and the waiting lists together *)
Record stripped2 (e w : validatorMap) (lv : list Validator) (ntr : gmap Z Z)
    (e' w' : validatorMap) (lv' : list Validator) (ntr' : gmap Z Z) : Prop := {
  stripped2_nodes : ∃ D E, nodesOf e' ++ nodesOf w' ++ D ≡ₚ nodesOf e ++ nodesOf w ∧
    lv' ++ E ≡ₚ lv ∧ keys E ≡ₚ keys D;
  stripped2_dom : dom e' = dom e ∧ dom w' = dom w;
  stripped2_len s : (len e' s + len w' s - toRemove ntr' s = len e s + len w s - toRemove ntr s)%Z;
  stripped2_toRemove s : (0 ≤ toRemove ntr s → 0 ≤ toRemove ntr' s ≤ toRemove ntr s)%Z;
  stripped2_sub s : listOf e' s ⊆+ listOf e s ∧ (len w' s ≤ len w s)%Z;
}.

Lemma removeLeaving_spec e w ntr lv :
  NoDup (keys lv) → NoDup (keys (nodesOf e ++ nodesOf w)) → nonNegative ntr →
  let '(e', w', lv', ntr') := removeLeavingNodesFromValidatorMaps e w ntr lv in
  stripped2 e w lv ntr e' w' lv' ntr'.
Proof.
  intros Hlv Hew Hn. rewrite keys_app in Hew. apply NoDup_app in Hew as (He & _ & Hw).
  unfold removeLeavingNodesFromValidatorMaps.
  pose proof (removeNodesFromMap_spec w lv ntr Hlv Hw Hn) as H1.
  destruct (removeNodesFromMap w lv ntr) as [[w' lv1] ntr1].
  destruct (stripped_NoDup _ _ _ _ _ _ H1 Hlv Hw) as [Hlv1 _].
  pose proof (removeNodesFromMap_spec e lv1 ntr1 Hlv1 He
    (λ s, proj1 (stripped_toRemove _ _ _ _ _ _ H1 s (Hn s)))) as H2.
  destruct (removeNodesFromMap e lv1 ntr1) as [[e' lv'] ntr'].
  destruct H1 as [(D1 & E1 & Hm1 & Hl1 & Hk1) Hd1 Hn1 Ht1 Hs1].
  destruct H2 as [(D2 & E2 & Hm2 & Hl2 & Hk2) Hd2 Hn2 Ht2 Hs2].
  split.
  - exists (D2 ++ D1), (E2 ++ E1). split_and!.
    + rewrite -Hm1 -Hm2 -!app_assoc. apply Permutation_app_head.
      by rewrite !app_assoc (Permutation_app_comm D2).
    + by rewrite app_assoc Hl2.
    + by rewrite !keys_app Hk1 Hk2.
  - done.
  - intros s. specialize (Hn1 s). specialize (Hn2 s). lia.
  - intros s Hs. specialize (Ht1 s Hs). specialize (Ht2 s ltac:(lia)). lia.
  - intros s. split; [apply Hs2|]. unfold len. pose proof (submseteq_length _ _ (Hs1 s)). lia.
Qed.

Lemma stripped2_trans e1 w1 lv1 n1 e2 w2 lv1' n2 e3 w3 lv2 lv2' n3 :
  stripped2 e1 w1 lv1 n1 e2 w2 lv1' n2 → stripped2 e2 w2 lv2 n2 e3 w3 lv2' n3 →
  stripped2 e1 w1 (lv1 ++ lv2) n1 e3 w3 (lv1' ++ lv2') n3.
Proof.
  intros [(D1 & E1 & Hm1 & Hl1 & Hk1) [? ?] Hn1 Ht1 Hs1]
    [(D2 & E2 & Hm2 & Hl2 & Hk2) [? ?] Hn2 Ht2 Hs2]. split.
  - exists (D2 ++ D1), (E1 ++ E2). split_and!.
    + by rewrite -Hm1 !app_assoc -(app_assoc (nodesOf e3)) Hm2.
    + rewrite -Hl1 -Hl2 -!app_assoc. apply Permutation_app_head.
      by rewrite !app_assoc (Permutation_app_comm lv2').
    + by rewrite !keys_app Hk1 Hk2 Permutation_app_comm.
  - split; congruence.
  - intros s. by rewrite Hn2.
  - intros s Hs. specialize (Ht1 s Hs). specialize (Ht2 s ltac:(lia)). lia.
  - intros s. destruct (Hs1 s), (Hs2 s). split; [by etrans|lia].
Qed.

(** ** Shuffling *)
Section shuffling.
Context {HA : Hasher}.

(** the hashes of the validators are distinct *)
Definition noCollision (r : bytes) (l : list Validator) : Prop :=
  ∀ v w, v ∈ l → w ∈ l → hashOf r v = hashOf r w → v = w.
Lemma noCollision_sub r l l' : (∀ v, v ∈ l' → v ∈ l) → noCollision r l → noCollision r l'.
Proof. intros Hsub H v w ??. apply H; by apply Hsub. Qed.
#[export] Instance noCollision_perm r : Proper (Permutation ==> iff) (noCollision r).
Proof. intros l l' H. unfold noCollision. by setoid_rewrite H. Qed.

Definition hashMap (r : bytes) (l : list Validator) : gmap bytes Validator :=
  foldl (λ (m : gmap bytes Validator) v, <[hashOf r v := v]> m) ∅ l.

Lemma hashMap_lookup r l v :
  noCollision r l → v ∈ l → hashMap r l !! hashOf r v = Some v.
Proof.
  unfold hashMap. induction l as [|x l IH] using rev_ind; intros Hnc Hv.
  { by apply elem_of_nil in Hv. }
  rewrite foldl_snoc. destruct (decide (hashOf r x = hashOf r v)) as [Heq|Hne].
  - rewrite Heq lookup_insert_eq. f_equal. apply Hnc; [|done..].
    apply elem_of_app. right. by left.
  - rewrite lookup_insert_ne //. apply IH.
    + eapply noCollision_sub; [|exact Hnc]. intros w ?. apply elem_of_app. by left.
    + apply elem_of_app in Hv as [?|[->|[]%elem_of_nil]%elem_of_cons]; done.
Qed.

Lemma shuffleList_unfold l r :
  shuffleList l r = omap (λ k, hashMap r l !! k) (merge_sort bytesLe (hashOf r <$> l)).
Proof. done. Qed.

Lemma omap_hashMap r (l l' : list Validator) :
  noCollision r l → (∀ v, v ∈ l' → v ∈ l) →
  omap (λ k, hashMap r l !! k) (hashOf r <$> l') = l'.
Proof.
  intros Hnc. induction l' as [|v l' IH]; intros Hsub; [done|]. simpl.
  rewrite hashMap_lookup //; [|apply Hsub; by left]. f_equal. apply IH.
  intros w ?. apply Hsub. by right.
Qed.

Lemma shuffleList_perm l r : noCollision r l → shuffleList l r ≡ₚ l.
Proof.
  intros Hnc. rewrite shuffleList_unfold merge_sort_Permutation. by rewrite omap_hashMap.
Qed.

(** the result depends on the set of validators only *)
Lemma shuffleList_order l l' r :
  noCollision r l → l ≡ₚ l' → shuffleList l r = shuffleList l' r.
Proof.
  intros Hnc Hp. rewrite !shuffleList_unfold.
  assert (merge_sort bytesLe (hashOf r <$> l) = merge_sort bytesLe (hashOf r <$> l')) as <-.
  { apply (Sorted_unique bytesLe); [apply Sorted_merge_sort, _..|].
    by rewrite !merge_sort_Permutation Hp. }
  assert (∀ k, k ∈ merge_sort bytesLe (hashOf r <$> l) → hashMap r l !! k = hashMap r l' !! k) as Hk.
  { intros k. rewrite merge_sort_Permutation. intros (v & -> & Hv)%list_elem_of_fmap.
    rewrite !hashMap_lookup //; [by rewrite -Hp|by rewrite -Hp]. }
  induction (merge_sort bytesLe _) as [|k ks IH]; [done|]. simpl.
  rewrite (Hk k ltac:(left)).
  destruct (hashMap r l' !! k); [f_equal|]; apply IH; intros k' ?; apply Hk; by right.
Qed.

Lemma shuffleOutShard_spec l n r :
  noCollision r l → (0 ≤ n)%Z →
  let '(out, rest) := shuffleOutShard l n r in
  out ++ rest ≡ₚ l ∧ (Z.of_nat (length out) = Z.min n (Z.of_nat (length l)))%Z.
Proof.
  intros Hnc Hn. unfold shuffleOutShard. rewrite take_drop.
  pose proof (shuffleList_perm l r Hnc) as Hp. split; [done|].
  rewrite length_take Hp. destruct (Z.ltb_spec (Z.of_nat (length l)) n); lia.
Qed.
End shuffling.

(** ** Reasoning shard by shard *)
Lemma nodesOf_ids m ids :
  NoDup ids → (∀ s, s ∈ dom m → s ∈ ids) → nodesOf m ≡ₚ concat (listOf m <$> ids).
Proof.
  revert ids. induction m as [|k l m Hk IH] using map_ind; intros ids Hnd Hids.
  { rewrite nodesOf_empty. clear. induction ids as [|s ids IH]; [done|].
    rewrite fmap_cons /= listOf_empty. done. }
  assert (k ∈ ids) as Hin by (apply Hids; rewrite dom_insert_L; set_solver).
  apply list_elem_of_split in Hin as (l1 & l2 & ->).
  assert (NoDup (k :: l1 ++ l2)) as Hnd' by (by rewrite Permutation_middle).
  assert (∀ s, s ∈ dom m → s ∈ k :: l1 ++ l2) as Hids'.
  { intros s Hs. rewrite Permutation_middle. apply Hids. rewrite dom_insert_L. set_solver. }
  rewrite nodesOf_insert // (IH _ Hnd' Hids') -Permutation_middle !fmap_cons /=.
  rewrite listOf_insert_eq {1}/listOf Hk /=. apply Permutation_app_head.
  apply NoDup_cons in Hnd' as [Hk' _].
  replace (listOf (<[k:=l]> m) <$> l1 ++ l2) with (listOf m <$> l1 ++ l2); [done|].
  apply list_fmap_ext. intros i s Hs. rewrite listOf_insert_ne //.
  intros ->. apply Hk'. by eapply list_elem_of_lookup_2.
Qed.

Lemma nodesOf_pointwise a b c d :
  (∀ s, listOf a s ++ listOf b s ≡ₚ listOf c s ++ listOf d s) →
  nodesOf a ++ nodesOf b ≡ₚ nodesOf c ++ nodesOf d.
Proof.
  intros H. set (ids := elements (dom a ∪ dom b ∪ dom c ∪ dom d)).
  assert (NoDup ids) as Hnd by apply NoDup_elements.
  rewrite !(nodesOf_ids _ ids) //; try (intros s ?; apply elem_of_elements; set_solver).
  clearbody ids. clear Hnd. induction ids as [|s ids IH]; [done|]. rewrite !fmap_cons /=.
  rewrite -!app_assoc (app_assoc (concat (listOf a <$> ids))) (Permutation_app_comm (concat (listOf a <$> ids))).
  rewrite (app_assoc (concat (listOf c <$> ids))) (Permutation_app_comm (concat (listOf c <$> ids))).
  rewrite -!app_assoc !app_assoc H -!app_assoc. do 2 apply Permutation_app_head. exact IH.
Qed.
Lemma nodesOf_pointwise1 a b c :
  (∀ s, listOf a s ++ listOf b s ≡ₚ listOf c s) → nodesOf a ++ nodesOf b ≡ₚ nodesOf c.
Proof.
  intros H. rewrite (nodesOf_pointwise a b c ∅); [by rewrite nodesOf_empty app_nil_r|].
  intros s. by rewrite listOf_empty app_nil_r.
Qed.

Section shuffling_out.
Context {HA : Hasher}.

Lemma shuffleOut_fold ntr r e ids st s :
  let st' := foldl (shuffleOutOne ntr r e) st ids in
  (s ∉ ids → listOf st'.1 s = listOf st.1 s ∧ listOf st'.2 s = listOf st.2 s) ∧
  (s ∈ ids →
   let '(out, rest) := shuffleOutShard (listOf e s) (toRemove ntr s) r in
   listOf st'.1 s = out ∧
   listOf st'.2 s = (removeValidatorsFromList rest out (Z.of_nat (length out))).1).
Proof.
  revert st. induction ids as [|x ids IH]; intros st.
  { split; [done|]. by intros ?%elem_of_nil. }
  cbn [foldl]. specialize (IH (shuffleOutOne ntr r e st x)). revert IH.
  set (st' := foldl _ _ ids). intros [IHout IHin].
  assert (∀ s', x ≠ s' → listOf (shuffleOutOne ntr r e st x).1 s' = listOf st.1 s' ∧
    listOf (shuffleOutOne ntr r e st x).2 s' = listOf st.2 s') as Hother.
  { intros s' Hne. unfold shuffleOutOne. destruct st as [o n].
    destruct (shuffleOutShard _ _ r). simpl. by rewrite !listOf_insert_ne. }
  split.
  - intros [Hne Hs]%not_elem_of_cons. destruct (IHout Hs) as [-> ->]. by apply Hother.
  - intros [->|Hs]%elem_of_cons; [|by apply IHin].
    destruct (decide (x ∈ ids)) as [|Hx]; [by apply IHin|].
    destruct (IHout Hx) as [-> ->]. unfold shuffleOutOne. destruct st as [o n].
    fold (toRemove ntr x). destruct (shuffleOutShard _ _ r). simpl.
    by rewrite !listOf_insert_eq.
Qed.

Lemma shuffleOutNodes_spec e ntr r :
  NoDup (keys (nodesOf e)) → noCollision r (nodesOf e) → nonNegative ntr →
  let '(out, e') := shuffleOutNodes e ntr r in
  (∀ s, listOf out s ++ listOf e' s ≡ₚ listOf e s) ∧
  (∀ s, len out s = Z.min (toRemove ntr s) (len e s)).
Proof.
  intros Hnd Hnc Hn. unfold shuffleOutNodes.
  pose proof (λ s, shuffleOut_fold ntr r e (sortKeys e) (∅, ∅) s) as Hf.
  destruct (foldl _ (∅, ∅) (sortKeys e)) as [out e']. cbn [fst snd] in Hf.
  assert (∀ s, listOf out s ++ listOf e' s ≡ₚ listOf e s ∧
               len out s = Z.min (toRemove ntr s) (len e s)) as H; [|split; apply H].
  intros s. destruct (Hf s) as [Hout Hin]. clear Hf.
  destruct (decide (s ∈ sortKeys e)) as [Hs|Hs].
  - clear Hout. specialize (Hin Hs). revert Hin.
    pose proof (shuffleOutShard_spec (listOf e s) (toRemove ntr s) r) as Hspec.
    destruct (shuffleOutShard _ _ r) as [o rest]. destruct Hspec as [Hp Hlen]; [|apply Hn|].
    { eapply noCollision_sub; [|exact Hnc]. intros v. apply listOf_nodesOf. }
    unfold len. intros [-> ->]. split; [clear Hlen|done].
    pose proof (removeValidatorsFromList_spec rest o (Z.of_nat (length o))) as Hrm.
    destruct (removeValidatorsFromList rest o _) as [K D]. destruct Hrm as (HKD & HD & _).
    pose proof (NoDup_keys_list e s Hnd) as Hl. rewrite -Hp keys_app in Hl.
    apply NoDup_app in Hl as (_ & Hdisj & _). simpl.
    destruct D as [|v D]; [by rewrite app_nil_r in HKD; rewrite HKD|].
    exfalso. apply (Hdisj (PubKey v)); [apply HD; left|].
    apply elem_of_keys. rewrite -HKD. apply elem_of_app. right. left.
  - unfold len. destruct (Hout Hs) as [-> ->]. rewrite !listOf_empty.
    assert (listOf e s = []) as ->.
    { unfold listOf. rewrite elem_of_sortKeys in Hs. apply not_elem_of_dom in Hs. by rewrite Hs. }
    split; [done|]. specialize (Hn s). simpl. lia.
Qed.
End shuffling_out.

(** ** Loops over a map that write the entry they visit *)
Section ranging.
Context {MO : MapOrder}.
Implicit Types (d s : validatorMap) (f g : Z → list Validator → list Validator → list Validator).

(** one iteration: from the current lists of the destination and the visited list *)
Definition rangeStep f g (st : validatorMap * validatorMap) (kv : Z * list Validator) :
    validatorMap * validatorMap :=
  (<[kv.1 := f kv.1 (listOf st.1 kv.1) kv.2]> st.1, <[kv.1 := g kv.1 (listOf st.1 kv.1) kv.2]> st.2).

Lemma rangeStep_fold f g l d s :
  NoDup l.*1 → let st' := foldl (rangeStep f g) (d, s) l in
  ∀ k, (k ∉ l.*1 → st'.1 !! k = d !! k ∧ st'.2 !! k = s !! k) ∧
       (∀ vs, (k, vs) ∈ l → st'.1 !! k = Some (f k (listOf d k) vs) ∧
                            st'.2 !! k = Some (g k (listOf d k) vs)).
Proof.
  revert d s. induction l as [|[k0 vs0] l IH]; intros d s Hnd.
  { intros st' k. split; [done|]. by intros vs ?%elem_of_nil. }
  cbn [foldl]. rewrite fmap_cons /= in Hnd. apply NoDup_cons in Hnd as [Hk0 Hnd].
  specialize (IH (<[k0 := f k0 (listOf d k0) vs0]> d) (<[k0 := g k0 (listOf d k0) vs0]> s) Hnd).
  intros k. specialize (IH k).
  change (rangeStep f g (d, s) (k0, vs0)) with
    (<[k0 := f k0 (listOf d k0) vs0]> d, <[k0 := g k0 (listOf d k0) vs0]> s).
  destruct IH as [IHout IHin]. rewrite fmap_cons /=. split.
  - intros [Hne Hk]%not_elem_of_cons. destruct (IHout Hk) as [-> ->].
    rewrite !lookup_insert_ne //; congruence.
  - intros vs [[= -> ->]|Hin]%elem_of_cons.
    + destruct (IHout Hk0) as [-> ->]. by rewrite !lookup_insert_eq.
    + destruct (IHin vs Hin) as [-> ->]. rewrite listOf_insert_ne //.
      intros ->. apply Hk0. apply list_elem_of_fmap. by exists (k, vs).
Qed.

Lemma rangeOf_NoDup {A} (m : gmap Z A) : NoDup (rangeOf m).*1.
Proof. rewrite rangeOf_perm. apply NoDup_fst_map_to_list. Qed.
Lemma elem_of_rangeOf {A} (m : gmap Z A) k x : (k, x) ∈ rangeOf m ↔ m !! k = Some x.
Proof. rewrite rangeOf_perm. apply elem_of_map_to_list. Qed.
Lemma not_elem_of_rangeOf {A} (m : gmap Z A) k : m !! k = None → k ∉ (rangeOf m).*1.
Proof.
  intros Hk ([k' x] & -> & Hin)%list_elem_of_fmap. apply elem_of_rangeOf in Hin. naive_solver.
Qed.

(** a loop over the source that updates the destination and the source *)
Lemma rangeStep_source f g d s :
  let st' := foldl (rangeStep f g) (d, s) (rangeOf s) in
  ∀ k, match s !! k with
       | None => st'.1 !! k = d !! k ∧ st'.2 !! k = None
       | Some vs => st'.1 !! k = Some (f k (listOf d k) vs) ∧ st'.2 !! k = Some (g k (listOf d k) vs)
       end.
Proof.
  intros st' k. destruct (rangeStep_fold f g (rangeOf s) d s (rangeOf_NoDup s) k) as [Hout Hin].
  destruct (s !! k) as [vs|] eqn:Hk.
  - apply Hin. by apply elem_of_rangeOf.
  - apply Hout. by apply not_elem_of_rangeOf.
Qed.

Definition neededNodes (numMeta numShard k : Z) (dl vs : list Validator) : nat :=
  Z.to_nat (computeNeededNodes dl vs (if (k =? MetachainShardId)%Z then numMeta else numShard)).

Lemma foldl_ext_in {A B} (f g : A → B → A) (l : list B) (a : A) (P : A → list B → Prop) :
  P a l → (∀ a x t, P a (x :: t) → f a x = g a x ∧ P (g a x) t) → foldl f a l = foldl g a l.
Proof.
  intros HP Hstep. revert a HP. induction l as [|x t IH]; intros a HP; [done|]. simpl.
  destruct (Hstep a x t HP) as [-> HP']. by apply IH.
Qed.

Lemma moveMaxNumNodesToMap_spec d s numMeta numShard :
  ∃ d' s', moveMaxNumNodesToMap (Some d) s numMeta numShard = inr (d', s') ∧
  ∀ k, match s !! k with
       | None => d' !! k = d !! k ∧ s' !! k = None
       | Some vs =>
         let n := neededNodes numMeta numShard k (listOf d k) vs in
         d' !! k = Some (listOf d k ++ take n vs) ∧ s' !! k = Some (drop n vs)
       end.
Proof.
  pose (f := λ k dl vs, dl ++ take (neededNodes numMeta numShard k dl vs) vs).
  pose (g := λ k dl vs, drop (neededNodes numMeta numShard k dl vs) vs).
  pose proof (rangeStep_source f g d s) as Hspec. simpl in Hspec.
  exists (foldl (rangeStep f g) (d, s) (rangeOf s)).1, (foldl (rangeStep f g) (d, s) (rangeOf s)).2.
  split; [|exact Hspec]. unfold moveMaxNumNodesToMap. rewrite -surjective_pairing. f_equal.
  apply (foldl_ext_in _ _ _ _ (λ st l, NoDup l.*1 ∧ ∀ k vs, (k, vs) ∈ l → listOf st.2 k = vs)).
  { split; [apply rangeOf_NoDup|]. intros k vs Hk%elem_of_rangeOf. unfold listOf. by rewrite Hk. }
  intros [d1 s1] [k vs] t [Hnd Hin]. rewrite fmap_cons /= in Hnd. apply NoDup_cons in Hnd as [Hk Hnd].
  pose proof (Hin k vs ltac:(left)) as Hvs. simpl in Hvs. split.
  - unfold rangeStep, f, g, neededNodes. simpl. by rewrite Hvs.
  - split; [done|]. intros k' vs' Hk'. unfold rangeStep. simpl.
    rewrite listOf_insert_ne; [apply (Hin k' vs'); by right|].
    intros ->. apply Hk. apply list_elem_of_fmap. by exists (k', vs').
Qed.

Lemma moveNodesToMap_spec d s :
  ∃ d' s', moveNodesToMap (Some d) s = inr (d', s') ∧
  ∀ k, match s !! k with
       | None => d' !! k = d !! k ∧ s' !! k = None
       | Some vs => d' !! k = Some (listOf d k ++ vs) ∧ s' !! k = Some []
       end.
Proof.
  pose proof (rangeStep_source (λ _ dl vs, dl ++ vs) (λ _ _ _, []) d s) as Hspec. simpl in Hspec.
  eexists _, _. split; [|exact Hspec]. unfold moveNodesToMap. rewrite -surjective_pairing.
  f_equal. apply (foldl_ext_in _ _ _ _ (λ _ _, True)); [done|].
  by intros [d1 s1] [k vs] t _.
Qed.
End ranging.

(** ** Distribution *)
Lemma nodesOf_append m k l : nodesOf (<[k := listOf m k ++ l]> m) ≡ₚ nodesOf m ++ l.
Proof.
  apply (Permutation_app_inv_r (listOf m k)). rewrite nodesOf_update -!app_assoc.
  by rewrite (Permutation_app_comm (listOf m k)) (Permutation_app_comm l) -!app_assoc
    (Permutation_app_comm l).
Qed.
Lemma dom_insert_sub {A} (m : gmap Z A) k x : dom m ⊆ dom (<[k := x]> m).
Proof. rewrite dom_insert_L. apply union_subseteq_r. Qed.
Lemma dom_update {A} (m : gmap Z A) k x : k ∈ dom m → dom (<[k := x]> m) = dom m.
Proof. intros. rewrite dom_insert_L. apply subseteq_union_1_L. by apply singleton_subseteq_l. Qed.

Lemma roundRobin_nodes ids i vs m :
  nodesOf (roundRobin ids i vs m) ≡ₚ nodesOf m ++ vs ∧ dom m ⊆ dom (roundRobin ids i vs m).
Proof.
  revert i m. induction vs as [|v vs IH]; intros i m; cbn [roundRobin].
  { by rewrite app_nil_r. }
  set (k := nth _ ids 0%Z).
  destruct (IH (S i) (<[k := listOf m k ++ [v]]> m)) as [-> Hdom]. split.
  - by rewrite nodesOf_append -app_assoc.
  - etrans; [|exact Hdom]. apply dom_insert_sub.
Qed.

(** no shard is created *)
Lemma roundRobin_keepsDom ids i vs m :
  ids ≠ [] → (Z.of_nat (length ids) < 2 ^ 32)%Z → (∀ k, k ∈ ids → k ∈ dom m) →
  dom (roundRobin ids i vs m) = dom m.
Proof.
  intros Hids Hlen. revert i m. induction vs as [|v vs IH]; intros i m Hin; cbn [roundRobin]; [done|].
  set (n := Z.to_nat _). assert (n < length ids) as Hn.
  { unfold n, u32. assert (0 < Z.of_nat (length ids))%Z by (destruct ids; [done|simpl; lia]).
    rewrite (Z.mod_small (Z.of_nat (length ids))); [|lia].
    pose proof (Z.mod_pos_bound (Z.of_nat i mod 2 ^ 32) (Z.of_nat (length ids)) ltac:(lia)). lia. }
  assert (nth n ids 0%Z ∈ dom m) as Hk by (apply Hin, list_elem_of_In, nth_In; exact Hn).
  assert (dom (<[nth n ids 0%Z := listOf m (nth n ids 0%Z) ++ [v]]> m) = dom m) as Hd
    by (by rewrite dom_insert_L subseteq_union_1_L; [|by apply singleton_subseteq_l]).
  rewrite IH; [done|]. by rewrite Hd.
Qed.

Lemma len_insert_eq m k l : len (<[k := l]> m) k = Z.of_nat (length l).
Proof. unfold len. by rewrite listOf_insert_eq. Qed.
Lemma len_insert_ne m k k' l : k ≠ k' → len (<[k := l]> m) k' = len m k'.
Proof. intros. unfold len. by rewrite listOf_insert_ne. Qed.
Lemma len_nonneg m k : (0 ≤ len m k)%Z.
Proof. unfold len. lia. Qed.

(** one shard is filled up to the maximal size *)
Lemma equalizeOne_spec M m vs s :
  let '(m', rest) := equalizeOne M (m, vs) s in
  nodesOf m' ++ rest ≡ₚ nodesOf m ++ vs ∧ (s ∈ dom m → dom m' = dom m) ∧
  (∀ k, k ≠ s → len m' k = len m k) ∧
  (len m s ≤ M → len m' s ≤ M ∧ (rest ≠ [] → len m' s = M))%Z ∧ (vs = [] → rest = []).
Proof.
  unfold equalizeOne. fold (len m s).
  destruct (Z.ltb_spec (len m s) M) as [Hlt|Hge]; [|split_and!; try done; lia].
  set (n := if (_ <? _)%Z then _ else _). split_and!.
  - by rewrite nodesOf_append -app_assoc take_drop.
  - apply dom_update.
  - intros k Hk. by rewrite len_insert_ne.
  - intros _. rewrite len_insert_eq length_app length_take Nat2Z.inj_add. fold (len m s).
    pose proof (len_nonneg m s).
    unfold n. destruct (Z.ltb_spec (Z.of_nat (length vs)) (M - len m s)).
    + rewrite drop_all. split; [lia|done].
    + split; lia.
  - intros ->. apply drop_nil.
Qed.

Lemma equalize_fold M ids m vs :
  NoDup ids → (∀ s, s ∈ ids → s ∈ dom m ∧ len m s ≤ M)%Z →
  let '(m', rest) := foldl (equalizeOne M) (m, vs) ids in
  nodesOf m' ++ rest ≡ₚ nodesOf m ++ vs ∧ dom m' = dom m ∧ (vs = [] → rest = []) ∧
  (∀ k, k ∉ ids → len m' k = len m k) ∧
  (∀ k, k ∈ ids → len m' k ≤ M ∧ (rest ≠ [] → len m' k = M))%Z.
Proof.
  revert m vs. induction ids as [|s ids IH]; intros m vs Hnd Hids.
  { split_and!; try done. intros k ?%elem_of_nil. done. }
  apply NoDup_cons in Hnd as [Hs Hnd]. cbn [foldl].
  pose proof (equalizeOne_spec M m vs s) as H1.
  destruct (equalizeOne M (m, vs) s) as [m1 rest1]. destruct H1 as (Hp & Hd & Hne & Hs1 & Hnil).
  destruct (Hids s ltac:(left)) as [Hsd HsM]. specialize (Hd Hsd). specialize (Hs1 HsM).
  specialize (IH m1 rest1 Hnd). destruct (foldl _ _ ids) as [m' rest].
  destruct IH as (Hp' & Hd' & Hnil' & Hout & Hin).
  { intros k Hk. rewrite Hd Hne; [apply Hids; by right|]. by intros ->. }
  split_and!.
  - by rewrite Hp' Hp.
  - congruence.
  - intros ->. by apply Hnil', Hnil.
  - intros k [Hks Hk]%not_elem_of_cons. by rewrite Hout // Hne.
  - intros k [->|Hk]%elem_of_cons; [|by apply Hin]. rewrite Hout //.
    destruct Hs1 as [? Hfull]. split; [done|]. intros Hrest. apply Hfull. intros ->. by apply Hrest, Hnil'.
Qed.

Section distributing.
Context {HA : Hasher} {MO : MapOrder}.

Lemma getMaxListSize_spec m :
  (0 ≤ getMaxListSize m ∧ (∀ k, len m k ≤ getMaxListSize m) ∧
   (getMaxListSize m = 0 ∨ ∃ k, getMaxListSize m = len m k))%Z.
Proof.
  unfold getMaxListSize.
  set (h := λ (maxSize : Z) '((_, l) : Z * list Validator), _).
  assert (∀ l (a : Z), (0 ≤ a → a ≤ foldl h a l ∧
    (∀ k vs, (k, vs) ∈ l → Z.of_nat (length vs) ≤ foldl h a l) ∧
    (foldl h a l = a ∨ ∃ k vs, (k, vs) ∈ l ∧ foldl h a l = Z.of_nat (length vs)))%Z) as H.
  { induction l as [|[k0 vs0] l IH]; intros a Ha; simpl.
    { split; [lia|]. split; [by intros k vs ?%elem_of_nil|by left]. }
    set (a' := if (a <? _)%Z then _ else _).
    assert (a ≤ a' ∧ Z.of_nat (length vs0) ≤ a' ∧ (a' = a ∨ a' = Z.of_nat (length vs0)))%Z as (? & ? & Ha').
    { unfold a'. destruct (Z.ltb_spec a (Z.of_nat (length vs0))); lia. }
    destruct (IH a' ltac:(lia)) as (Hle & Hall & Heq). split; [lia|]. split.
    - intros k vs [[= -> ->]|Hin]%elem_of_cons; [lia|by eapply Hall].
    - destruct Heq as [->|(k & vs & Hin & ->)].
      + destruct Ha' as [->| ->]; [by left|]. right. exists k0, vs0. split; [left|done].
      + right. exists k, vs. split; [by right|done]. }
  destruct (H (rangeOf m) 0%Z ltac:(lia)) as (Hle & Hall & Heq). clear H. split; [done|]. split.
  - intros k. unfold len, listOf. destruct (m !! k) as [vs|] eqn:Hk; simpl; [|done].
    by apply (Hall k vs), elem_of_rangeOf.
  - destruct Heq as [?|(k & vs & Hin%elem_of_rangeOf & Heq)]; [by left|]. right.
    exists k. unfold len, listOf. by rewrite Hin.
Qed.

Lemma equalize_spec m vs :
  let '(m', rest) := equalizeValidatorsLists m vs in
  nodesOf m' ++ rest ≡ₚ nodesOf m ++ vs ∧ dom m' = dom m ∧
  (∀ k, k ∈ dom m → len m' k ≤ getMaxListSize m ∧ (rest ≠ [] → len m' k = getMaxListSize m))%Z.
Proof.
  unfold equalizeValidatorsLists.
  destruct (getMaxListSize_spec m) as (_ & Hmax & _).
  pose proof (equalize_fold (getMaxListSize m) (sortKeys m) m vs (sortKeys_NoDup m)) as H.
  destruct (foldl _ _ (sortKeys m)) as [m' rest].
  destruct H as (Hp & Hd & _ & _ & Hin).
  { intros s Hs%elem_of_sortKeys. split; [done|apply Hmax]. }
  split; [done|]. split; [done|]. intros k Hk. apply Hin. by apply elem_of_sortKeys.
Qed.

Lemma distributeValidators_nodes m vs r balanced :
  m ≠ ∅ → noCollision r vs →
  ∃ m', distributeValidators m vs r balanced = inr m' ∧
        nodesOf m' ≡ₚ nodesOf m ++ vs ∧ dom m ⊆ dom m'.
Proof.
  intros Hm Hnc. unfold distributeValidators. rewrite bool_decide_false //.
  pose proof (equalize_spec m (shuffleList vs r)) as He.
  set (mr := if balanced then _ else _).
  assert (nodesOf mr.1 ++ mr.2 ≡ₚ nodesOf m ++ vs ∧ dom m ⊆ dom mr.1) as [Hp Hd].
  { unfold mr. destruct balanced.
    - destruct (equalizeValidatorsLists m _) as [m' rest]. destruct He as (Hp & Hd & _).
      simpl. by rewrite Hp Hd shuffleList_perm.
    - simpl. by rewrite shuffleList_perm. }
  destruct mr as [m1 rest]. simpl in Hp, Hd. eexists. split; [done|].
  destruct (roundRobin_nodes (sortKeys m) 0 rest m1) as [-> ?]. split; [done|]. by etrans.
Qed.

Lemma distributeValidators_dom m vs r balanced m' :
  m ≠ ∅ → (Z.of_nat (size m) < 2 ^ 32)%Z → distributeValidators m vs r balanced = inr m' → dom m' = dom m.
Proof.
  intros Hm Hsz. unfold distributeValidators. rewrite bool_decide_false //.
  pose proof (equalize_spec m (shuffleList vs r)) as He. set (mr := if balanced then _ else _).
  assert (dom mr.1 = dom m) as Hd.
  { unfold mr. destruct balanced; [|done]. destruct (equalizeValidatorsLists m _). apply He. }
  destruct mr as [m1 rest]. simpl in Hd. intros [= <-]. rewrite -Hd. apply roundRobin_keepsDom.
  - intros Hnil. apply Hm, dom_empty_inv_L, set_eq. intros k. by rewrite -elem_of_sortKeys Hnil elem_of_nil elem_of_empty.
  - replace (length (sortKeys m)) with (size m); [done|]. by rewrite sortKeys_perm length_fmap length_map_to_list.
  - intros k. by rewrite elem_of_sortKeys Hd.
Qed.

Lemma rangeOf_nodes m : concat (snd <$> rangeOf m) ≡ₚ nodesOf m.
Proof. apply concat_perm. by rewrite rangeOf_perm. Qed.

Lemma DistributeValidators_nodes d m src r balanced :
  m ≠ ∅ → noCollision r (nodesOf src) →
  ∃ m' src', DistributeValidators d m src r balanced = inr (m', src') ∧
        nodesOf m' ≡ₚ nodesOf m ++ nodesOf src ∧ dom m ⊆ dom m'.
Proof.
  intros Hm Hnc. unfold DistributeValidators. destruct d.
  - destruct (moveNodesToMap_spec m src) as (m' & src' & -> & Hlk). eexists _, _. split; [done|].
    split.
    + rewrite -(app_nil_r (nodesOf m')) -nodesOf_empty. apply nodesOf_pointwise. intros s.
      rewrite listOf_empty app_nil_r. specialize (Hlk s). unfold listOf.
      destruct (src !! s); destruct Hlk as [-> _]; simpl; by rewrite ?app_nil_r.
    + intros k. rewrite !elem_of_dom. specialize (Hlk k).
      destruct (src !! k); destruct Hlk as [-> _]; eauto.
  - pose proof (rangeOf_nodes src) as Hp.
    destruct (distributeValidators_nodes m (concat (snd <$> rangeOf src)) r balanced Hm)
      as (m' & -> & Hn & ?); [by rewrite Hp|].
    eexists _, _. split; [done|]. by rewrite Hn Hp.
Qed.
End distributing.

(** ** The steps that cannot fail *)
Section leaving.
Context {HA : Hasher} {MO : MapOrder}.

Lemma searchInMap_spec m pk : searchInMap m pk = true ↔ pk ∈ keys (nodesOf m).
Proof.
  unfold searchInMap. rewrite existsb_exists. split.
  - intros ([k l] & Hin & Hex). apply existsb_exists in Hex as (v & Hv & Hpk%bool_decide_eq_true).
    apply list_elem_of_In in Hin, Hv. apply elem_of_rangeOf in Hin. rewrite -Hpk.
    apply elem_of_keys, elem_of_nodesOf. exists k. unfold listOf. by rewrite Hin.
  - intros (v & -> & Hv)%list_elem_of_fmap. apply elem_of_nodesOf in Hv as [k Hv].
    unfold listOf in Hv. destruct (m !! k) as [l|] eqn:Hk; [|by apply elem_of_nil in Hv].
    exists (k, l). split; [by apply list_elem_of_In, elem_of_rangeOf|].
    apply existsb_exists. exists v. split; [by apply list_elem_of_In|by apply bool_decide_eq_true].
Qed.

Lemma notExisting_spec lv w e :
  NoDup (keys lv) →
  let '(lv', _) := removeLeavingNodesNotExistingInEligibleOrWaiting lv w e in
  (∃ X, lv' ++ X ≡ₚ lv) ∧
  (∀ k, k ∈ keys lv' ↔ k ∈ keys lv ∧ k ∈ keys (nodesOf e ++ nodesOf w)).
Proof.
  intros Hnd. unfold removeLeavingNodesNotExistingInEligibleOrWaiting.
  set (nf := List.filter _ lv).
  pose proof (removeValidatorsFromList_spec lv nf (Z.of_nat (length nf))) as H.
  pose proof (λ K D k, removeAll_keys lv nf K D k) as Hkeys.
  destruct (removeValidatorsFromList lv nf _) as [lv' X]. destruct H as (Hp & _).
  split; [by exists X|]. intros k. rewrite (Hkeys lv' X k eq_refl Hnd) keys_app elem_of_app.
  assert (k ∈ keys lv → k ∈ keys nf ↔ (k ∉ keys (nodesOf w)) ∧ (k ∉ keys (nodesOf e))) as Hnf.
  { intros (v & -> & Hv)%list_elem_of_fmap. rewrite -!searchInMap_spec !not_true_iff_false. split.
    - intros (v' & Heq & Hv')%list_elem_of_fmap. rewrite Heq.
      apply list_elem_of_In, filter_In in Hv' as [_ [??]%andb_true_iff].
      by rewrite !negb_true_iff in H H0.
    - intros [Hw He]. apply list_elem_of_fmap_2. apply list_elem_of_In, filter_In.
      split; [by apply list_elem_of_In|]. by rewrite Hw He. }
  split; intros [Hk H]; (split; [done|]).
  - destruct (decide (k ∈ keys (nodesOf w))); [by right|].
    destruct (decide (k ∈ keys (nodesOf e))); [by left|]. exfalso. apply H. by apply Hnf.
  - intros [Hw He]%Hnf; [|done]. by destruct H.
Qed.

Lemma createList_same m s k : listOf (createList m s) k = listOf m k.
Proof.
  unfold createList. destruct (decide (s = k)) as [->|]; [apply listOf_insert_eq|].
  by apply listOf_insert_ne.
Qed.
Lemma createLists_fold ids m :
  (∀ k, listOf (foldl createList m ids) k = listOf m k) ∧
  dom m ∪ list_to_set ids ⊆ dom (foldl createList m ids).
Proof.
  revert m. induction ids as [|s ids IH]; intros m; cbn [foldl list_to_set].
  { split; [done|clear; set_solver]. }
  destruct (IH (createList m s)) as [Hl Hd]. split.
  - intros k. by rewrite Hl createList_same.
  - etrans; [|exact Hd]. unfold createList. rewrite dom_insert_L. clear. set_solver.
Qed.
Lemma createListsForAllShards_spec m n :
  (∀ k, listOf (createListsForAllShards m n) k = listOf m k) ∧
  (∀ k, (0 ≤ k < n)%Z ∨ k = MetachainShardId → k ∈ dom (createListsForAllShards m n)).
Proof.
  unfold createListsForAllShards. destruct (createLists_fold (seqZ 0 n) m) as [Hl Hd]. split.
  - intros k. by rewrite createList_same.
  - intros k Hk. unfold createList. rewrite dom_insert_L. apply elem_of_union.
    destruct Hk as [Hk| ->]; [right|left; by apply elem_of_singleton]. apply Hd, elem_of_union. right.
    apply elem_of_list_to_set, elem_of_seqZ. lia.
Qed.
Lemma nodesOf_same a b : (∀ s, listOf a s = listOf b s) → nodesOf a ≡ₚ nodesOf b.
Proof.
  intros H. rewrite -(app_nil_r (nodesOf a)) -nodesOf_empty. apply nodesOf_pointwise1.
  intros s. by rewrite listOf_empty app_nil_r H.
Qed.

(** [D] are the removed validators *)
Lemma leaveAndShuffleOut_spec arg w ntr :
  NoDup (keys (nodesOf (eligible arg) ++ nodesOf w)) →
  NoDup (keys (unstakeLeaving arg ++ additionalLeaving arg)) →
  noCollision (randomness arg) (nodesOf (eligible arg) ++ nodesOf w) → nonNegative ntr →
  let '(e', w', still, out) := leaveAndShuffleOut arg w ntr in
  (∃ D, nodesOf e' ++ nodesOf w' ++ nodesOf out ++ D ≡ₚ nodesOf (eligible arg) ++ nodesOf w ∧
     (∀ k, k ∈ keys (unstakeLeaving arg ++ additionalLeaving arg) →
        k ∈ keys (nodesOf (eligible arg) ++ nodesOf w) → k ∈ keys still ∨ k ∈ keys D) ∧
     (∀ k, k ∈ keys D → (k ∉ keys still) ∧ k ∈ keys (unstakeLeaving arg ++ additionalLeaving arg)) ∧
     (∀ k, k ∈ keys still → k ∈ keys (unstakeLeaving arg ++ additionalLeaving arg) ∧
        k ∈ keys (nodesOf e' ++ nodesOf w' ++ nodesOf out))) ∧
  dom w' = dom w ∧ NoDup (keys still) ∧
  (∀ s, len (eligible arg) s + len w s - toRemove ntr s ≤ len e' s + len w' s)%Z ∧
  (∀ s, listOf e' s ⊆+ listOf (eligible arg) s ∧
        len (eligible arg) s - toRemove ntr s ≤ len e' s)%Z.
Proof.
  intros Hnd Hlv Hnc Hn. unfold leaveAndShuffleOut.
  rewrite keys_app in Hlv. apply NoDup_app in Hlv as (Hu & Hua & Ha).
  pose proof (notExisting_spec (unstakeLeaving arg) w (eligible arg) Hu) as HU.
  destruct (removeLeavingNodesNotExistingInEligibleOrWaiting (unstakeLeaving arg) _ _) as [u xu].
  pose proof (notExisting_spec (additionalLeaving arg) w (eligible arg) Ha) as HA'.
  destruct (removeLeavingNodesNotExistingInEligibleOrWaiting (additionalLeaving arg) _ _) as [a xa].
  destruct HU as [[Xu HXu] HU], HA' as [[Xa HXa] HA'].
  assert (NoDup (keys u) ∧ NoDup (keys a)) as [Hu1 Ha1].
  { rewrite -HXu keys_app in Hu. rewrite -HXa keys_app in Ha.
    by apply NoDup_app_l in Hu, Ha. }
  pose proof (removeLeaving_spec (eligible arg) w ntr u Hu1 Hnd Hn) as S1.
  destruct (removeLeavingNodesFromValidatorMaps (eligible arg) w ntr u) as [[[e1 w1] su] n1].
  assert (NoDup (keys (nodesOf e1 ++ nodesOf w1)) ∧ nonNegative n1) as [Hnd1 Hn1].
  { destruct S1 as [(D & E & Hp & _) _ _ Ht _]. split; [|intros s; by apply Ht].
    rewrite -Hp app_assoc keys_app in Hnd. by apply NoDup_app_l in Hnd. }
  pose proof (removeLeaving_spec e1 w1 n1 a Ha1 Hnd1 Hn1) as S2.
  destruct (removeLeavingNodesFromValidatorMaps e1 w1 n1 a) as [[[e2 w2] sa] n2].
  pose proof (stripped2_trans _ _ _ _ _ _ _ _ _ _ _ _ _ S1 S2) as S. clear S1 S2.
  destruct S as [(D & E & Hp & Hl & Hk) [Hde Hdw] Hlen Ht Hsb].
  assert (∀ v, v ∈ nodesOf e2 → v ∈ nodesOf (eligible arg) ++ nodesOf w) as Hsub.
  { intros v Hv. rewrite -Hp. apply elem_of_app. by left. }
  assert (NoDup (keys (u ++ a))) as Hua1.
  { rewrite keys_app. apply NoDup_app. split_and!; [done| |done].
    intros k [Hk1 _]%HU [Hk2 _]%HA'. by apply (Hua k). }
  assert (NoDup (keys (nodesOf e2))) as Hne.
  { rewrite -Hp keys_app in Hnd. by apply NoDup_app_l in Hnd. }
  assert (nonNegative n2) as Hn2 by (intros s; apply Ht, Hn).
  pose proof (shuffleOutNodes_spec e2 n2 (randomness arg) Hne
    (noCollision_sub _ _ _ Hsub Hnc) Hn2) as So.
  destruct (shuffleOutNodes e2 n2 (randomness arg)) as [out e']. destruct So as [Hout Hlo].
  assert (nodesOf e' ++ nodesOf out ≡ₚ nodesOf e2) as Hpo.
  { rewrite Permutation_app_comm. by apply nodesOf_pointwise1. }
  assert (nodesOf e' ++ nodesOf w2 ++ nodesOf out ++ D ≡ₚ nodesOf (eligible arg) ++ nodesOf w) as HpD.
  { rewrite -Hp -Hpo -!app_assoc. apply Permutation_app_head.
    rewrite !app_assoc. apply Permutation_app_tail, Permutation_app_comm. }
  assert (NoDup (keys (su ++ sa) ++ keys D)) as HndD by (by rewrite -Hk -keys_app Hl).
  apply NoDup_app in HndD as (Hs & HsD & _).
  assert (∀ k, k ∈ keys (u ++ a) ↔ k ∈ keys (unstakeLeaving arg ++ additionalLeaving arg) ∧
    k ∈ keys (nodesOf (eligible arg) ++ nodesOf w)) as Hin.
  { intros k. rewrite !(keys_app u) !(keys_app (unstakeLeaving arg)) !elem_of_app HU HA'. tauto. }
  assert (∀ k, k ∈ keys (u ++ a) ↔ k ∈ keys (su ++ sa) ∨ k ∈ keys D) as Hsplit.
  { intros k. by rewrite -Hl keys_app Hk elem_of_app. }
  split; [exists D; split_and!|split_and!].
  - done.
  - intros k Hkl Hke. apply Hsplit, Hin. done.
  - intros k HkD. split; [intros ?; by apply (HsD k)|]. apply Hin, Hsplit. by right.
  - intros k Hks. destruct (proj1 (Hin k)) as [? Hex]; [apply Hsplit; by left|]. split; [done|].
    rewrite -HpD !app_assoc keys_app in Hex. apply elem_of_app in Hex as [Hex|Hex].
    + by rewrite -!app_assoc in Hex.
    + by destruct (HsD k).
  - done.
  - done.
  - intros s. specialize (Hlen s). specialize (Hlo s). specialize (Hn2 s).
    specialize (Hout s). apply Permutation_length in Hout. rewrite length_app in Hout.
    unfold len in *. lia.
  - intros s. specialize (Ht s (Hn s)). specialize (Hlo s). specialize (Hlen s).
    destruct (Hsb s) as [Hsub' Hw]. specialize (Hout s). split.
    + etrans; [|exact Hsub']. rewrite -Hout. by apply submseteq_inserts_l.
    + apply Permutation_length in Hout. rewrite length_app in Hout. unfold len in *. lia.
Qed.
End leaving.

(** ** Numbers *)

(** the shards of the network and the nodes each must keep *)
Definition isShard (arg : shuffleNodesArg) (s : Z) : Prop :=
  (0 ≤ s < nbShards arg)%Z ∨ s = MetachainShardId.
Definition requiredNodes (arg : shuffleNodesArg) (s : Z) : Z :=
  if (s =? MetachainShardId)%Z then nodesMeta arg else nodesPerShard arg.
Definition shardSize (arg : shuffleNodesArg) (s : Z) : Z :=
  (len (eligible arg) s + len (waiting arg) s)%Z.
Definition enoughNodes (arg : shuffleNodesArg) : Prop :=
  nbShards arg = 0%Z ∨ ∀ s, isShard arg s → (requiredNodes arg s ≤ shardSize arg s)%Z.

Lemma numToRemoveOn_spec arg nodes s :
  match numToRemoveOn arg nodes s with
  | inl _ => (shardSize arg s < nodes)%Z
  | inr n => (nodes ≤ shardSize arg s)%Z ∧ n = (shardSize arg s - nodes)%Z
  end.
Proof.
  unfold numToRemoveOn, computeNumToRemovePerShard. fold (len (eligible arg) s) (len (waiting arg) s).
  unfold shardSize. destruct (Z.ltb_spec (len (eligible arg) s + len (waiting arg) s) nodes); lia.
Qed.

Lemma toRemove_insert_eq ntr s n : toRemove (<[s := n]> ntr) s = n.
Proof. unfold toRemove. by rewrite lookup_insert_eq. Qed.
Lemma toRemove_insert_ne ntr s s' n : s ≠ s' → toRemove (<[s := n]> ntr) s' = toRemove ntr s'.
Proof. intros. unfold toRemove. by rewrite lookup_insert_ne. Qed.

Lemma numToRemoveLoop_spec arg shards ntr :
  match numToRemoveLoop arg shards ntr with
  | inl _ => ∃ s, s ∈ shards ∧ (shardSize arg s < nodesPerShard arg)%Z
  | inr ntr' => ∀ s,
      (s ∈ shards → nodesPerShard arg ≤ shardSize arg s ∧
                    toRemove ntr' s = shardSize arg s - nodesPerShard arg)%Z ∧
      (s ∉ shards → toRemove ntr' s = toRemove ntr s)
  end.
Proof.
  revert ntr. induction shards as [|x shards IH]; intros ntr; cbn [numToRemoveLoop].
  { intros s. split; [by intros ?%elem_of_nil|done]. }
  pose proof (numToRemoveOn_spec arg (nodesPerShard arg) x) as Hx.
  destruct (numToRemoveOn arg (nodesPerShard arg) x) as [err|n].
  { exists x. split; [left|done]. }
  destruct Hx as [Hle ->]. specialize (IH (<[x := (shardSize arg x - nodesPerShard arg)%Z]> ntr)).
  destruct (numToRemoveLoop arg shards _) as [err|ntr'].
  { destruct IH as (s & ? & ?). exists s. split; [by right|done]. }
  intros s. destruct (IH s) as [Hin Hout]. split.
  - intros [->|Hs]%elem_of_cons; [|by apply Hin].
    destruct (decide (x ∈ shards)) as [|Hx]; [by apply Hin|].
    by rewrite (Hout Hx) toRemove_insert_eq.
  - intros [Hne Hs]%not_elem_of_cons. rewrite (Hout Hs). by apply toRemove_insert_ne.
Qed.

Lemma computeNumToRemove_spec arg :
  (0 ≤ nbShards arg < 2 ^ 32)%Z →
  match computeNumToRemove arg with
  | inl _ => ¬ enoughNodes arg
  | inr ntr => enoughNodes arg ∧ nonNegative ntr ∧
      (nbShards arg ≠ 0%Z → ∀ s, isShard arg s →
       toRemove ntr s = (shardSize arg s - requiredNodes arg s)%Z)
  end.
Proof.
  intros Hn. unfold computeNumToRemove. destruct (Z.eqb_spec (nbShards arg) 0) as [H0|H0].
  { split; [by left|]. split; [|by intros]. intros s. unfold toRemove. by rewrite lookup_empty. }
  assert (∀ s, (0 ≤ s < nbShards arg)%Z → requiredNodes arg s = nodesPerShard arg) as Hreq.
  { intros s Hs. unfold requiredNodes, MetachainShardId.
    destruct (Z.eqb_spec s 4294967295); [lia|done]. }
  assert (requiredNodes arg MetachainShardId = nodesMeta arg) as Hmeta by done.
  pose proof (numToRemoveLoop_spec arg (seqZ 0 (nbShards arg)) ∅) as Hloop.
  destruct (numToRemoveLoop arg _ ∅) as [err|ntr].
  { destruct Hloop as (s & Hs%elem_of_seqZ & Hlt). intros [?|Hen]; [done|].
    specialize (Hen s ltac:(left; lia)). rewrite Hreq in Hen; lia. }
  pose proof (numToRemoveOn_spec arg (nodesMeta arg) MetachainShardId) as Hm.
  destruct (numToRemoveOn arg (nodesMeta arg) MetachainShardId) as [err|n].
  { intros [?|Hen]; [done|]. specialize (Hen MetachainShardId ltac:(by right)).
    rewrite Hmeta in Hen. lia. }
  destruct Hm as [Hle ->].
  assert (∀ s, isShard arg s → (requiredNodes arg s ≤ shardSize arg s)%Z ∧
    toRemove (<[MetachainShardId := (shardSize arg MetachainShardId - nodesMeta arg)%Z]> ntr) s
      = (shardSize arg s - requiredNodes arg s)%Z) as Hall.
  { intros s Hs. destruct (decide (s = MetachainShardId)) as [->|Hne].
    { by rewrite toRemove_insert_eq Hmeta. }
    rewrite toRemove_insert_ne; [|done]. destruct Hs as [Hs|]; [|done]. rewrite Hreq //.
    apply Hloop. apply elem_of_seqZ. lia. }
  split; [right; intros s Hs; by apply Hall|]. split; [|intros _ s Hs; by apply Hall].
  intros s. destruct (decide (isShard arg s)) as [Hs|Hs].
  { destruct (Hall s Hs) as [? ->]. lia. }
  rewrite toRemove_insert_ne; [|intros <-; apply Hs; by right].
  destruct (Hloop s) as [_ ->]; [by rewrite /toRemove lookup_empty|].
  rewrite elem_of_seqZ. intros ?. apply Hs. left. lia.
Qed.

Lemma clampToSwap_spec n ntr s :
  (0 ≤ n)%Z → toRemove (clampToSwap n ntr) s = Z.min n (toRemove ntr s).
Proof.
  intros Hn. unfold clampToSwap, toRemove. rewrite lookup_fmap.
  destruct (ntr !! s) as [k|]; simpl; [|lia]. destruct (Z.ltb_spec n k); lia.
Qed.

Lemma computeNeededNodes_spec (d vs : list Validator) n :
  (Z.of_nat (length d) < 2 ^ 32 → Z.of_nat (length vs) < 2 ^ 32 → 0 ≤ n < 2 ^ 32 →
   computeNeededNodes d vs n = Z.min (Z.max 0 (n - Z.of_nat (length d))) (Z.of_nat (length vs)))%Z.
Proof.
  intros Hd Hvs Hn. unfold computeNeededNodes, u32.
  rewrite (Z.mod_small (Z.of_nat (length d))); [|lia].
  rewrite (Z.mod_small (Z.of_nat (length vs))); [|lia].
  destruct (Z.ltb_spec (Z.of_nat (length d)) n).
  - rewrite Z.mod_small; [|lia]. destruct (Z.ltb_spec (Z.of_nat (length vs)) (n - Z.of_nat (length d))); lia.
  - destruct (Z.ltb_spec (Z.of_nat (length vs)) 0); lia.
Qed.
