(* ===== verification/ShufflerOrder.v ===== *)
(** * ShufflerOrder: the steps of the shuffler do not depend on the order of map iteration

    Go ranges over a map in an unspecified order; all nodes of the network must
    nevertheless compute the same lists.  Each step that ranges over a map is
    shown here to give the same result for any two orders. *)
From S2P Require Import Prelude Shuffler ShufflerSpec.
From stdpp Require Import sorting.

Section two_orders.
Context {HA : Hasher} (O1 O2 : MapOrder).

Lemma rangeOf_orders {A} (m : gmap Z A) : rangeOf (MapOrder := O1) m ≡ₚ rangeOf (MapOrder := O2) m.
Proof. by rewrite !rangeOf_perm. Qed.

Lemma searchInMap_orders m pk :
  searchInMap (MO := O1) m pk = searchInMap (MO := O2) m pk.
Proof. apply eq_bool_prop_intro. rewrite !Is_true_true. by rewrite !searchInMap_spec. Qed.

Lemma notExisting_orders lv w e :
  removeLeavingNodesNotExistingInEligibleOrWaiting (MO := O1) lv w e =
  removeLeavingNodesNotExistingInEligibleOrWaiting (MO := O2) lv w e.
Proof.
  unfold removeLeavingNodesNotExistingInEligibleOrWaiting.
  by rewrite (filter_ext _ (λ v, negb (searchInMap (MO := O2) w (PubKey v)) &&
    negb (searchInMap (MO := O2) e (PubKey v)))); [|intros v; by rewrite !searchInMap_orders].
Qed.

Lemma leaveAndShuffleOut_orders arg w ntr :
  leaveAndShuffleOut (MO := O1) arg w ntr = leaveAndShuffleOut (MO := O2) arg w ntr.
Proof. unfold leaveAndShuffleOut. by rewrite !notExisting_orders. Qed.

Lemma getNumPubKeys_orders m : getNumPubKeys (MO := O1) m = getNumPubKeys (MO := O2) m.
Proof.
  unfold getNumPubKeys. apply foldl_perm; [|apply rangeOf_orders].
  intros a [k1 l1] [k2 l2]. unfold u32. rewrite !Zplus_mod_idemp_r !Zplus_mod_idemp_l.
  f_equal. lia.
Qed.

Lemma getMaxListSize_orders m : getMaxListSize (MO := O1) m = getMaxListSize (MO := O2) m.
Proof.
  unfold getMaxListSize. apply foldl_perm; [|apply rangeOf_orders].
  intros a [k1 l1] [k2 l2]. repeat case_match; lia.
Qed.

Lemma distributeValidators_orders m vs vs' r balanced :
  noCollision r vs → vs ≡ₚ vs' →
  distributeValidators (MO := O1) m vs r balanced = distributeValidators (MO := O2) m vs' r balanced.
Proof.
  intros Hnc Hp. unfold distributeValidators, equalizeValidatorsLists.
  by rewrite getMaxListSize_orders (shuffleList_order vs vs' r Hnc Hp).
Qed.

Lemma moveNodesToMap_orders d s :
  moveNodesToMap (MO := O1) (Some d) s = moveNodesToMap (MO := O2) (Some d) s.
Proof.
  destruct (moveNodesToMap_spec (MO := O1) d s) as (d1 & s1 & -> & H1).
  destruct (moveNodesToMap_spec (MO := O2) d s) as (d2 & s2 & -> & H2).
  f_equal. f_equal; apply map_eq; intros k; specialize (H1 k); specialize (H2 k);
    destruct (s !! k), H1, H2; congruence.
Qed.
Lemma moveMaxNumNodesToMap_orders d s n1 n2 :
  moveMaxNumNodesToMap (MO := O1) (Some d) s n1 n2 = moveMaxNumNodesToMap (MO := O2) (Some d) s n1 n2.
Proof.
  destruct (moveMaxNumNodesToMap_spec (MO := O1) d s n1 n2) as (d1 & s1 & -> & H1).
  destruct (moveMaxNumNodesToMap_spec (MO := O2) d s n1 n2) as (d2 & s2 & -> & H2).
  f_equal. f_equal; apply map_eq; intros k; specialize (H1 k); specialize (H2 k);
    destruct (s !! k), H1, H2; congruence.
Qed.

Lemma DistributeValidators_orders d m s r balanced :
  noCollision r (nodesOf s) →
  DistributeValidators (MO := O1) d m s r balanced = DistributeValidators (MO := O2) d m s r balanced.
Proof.
  intros Hnc. destruct d; simpl; [apply moveNodesToMap_orders|].
  by rewrite (distributeValidators_orders _ _ (concat (snd <$> rangeOf (MapOrder := O2) s)));
    rewrite ?rangeOf_nodes.
Qed.
End two_orders.
