(* ===== verification/ShufflerBalance.v ===== *)
(** * ShufflerBalance: how evenly a distribution fills the lists

    [roundRobin] gives the shard at position [p] of the [n] sorted shards every
    [n]-th validator; [turns] counts them.  With [balanced], the lists have been
    brought to one size before. *)
From S2P Require Import Prelude Shuffler ShufflerSpec.
From stdpp Require Import sorting.
#[local] Open Scope Z_scope.

(** how many of the numbers below [k] are [p] modulo [n] *)
Definition turns (n p k : Z) : Z := (k + n - 1 - p) / n.

Lemma turns_step n p k :
  0 ≤ p < n → 0 ≤ k → turns n p (k + 1) = turns n p k + (if k mod n =? p then 1 else 0).
Proof.
  intros Hp Hk. unfold turns.
  pose proof (Z.div_mod k n ltac:(lia)) as Hdm. pose proof (Z.mod_pos_bound k n ltac:(lia)) as Hm.
  set (q := k / n) in *. set (r := k mod n) in *. rewrite Hdm.
  assert (∀ x d, 0 ≤ x < n → (n * d + x) / n = d) as Hdiv.
  { intros x d Hx. rewrite Z.mul_comm Z.div_add_l; [|lia]. rewrite Z.div_small; lia. }
  destruct (Z.eqb_spec r p) as [->|Hne].
  - replace (n * q + p + 1 + n - 1 - p) with (n * (q + 1) + 0) by lia.
    replace (n * q + p + n - 1 - p) with (n * q + (n - 1)) by lia. rewrite !Hdiv; lia.
  - destruct (Z.lt_total r p) as [Hlt|[?|Hlt]]; [|done|].
    + replace (n * q + r + 1 + n - 1 - p) with (n * q + (n + r - p)) by lia.
      replace (n * q + r + n - 1 - p) with (n * q + (n + r - p - 1)) by lia. rewrite !Hdiv; lia.
    + replace (n * q + r + 1 + n - 1 - p) with (n * (q + 1) + (r - p)) by lia.
      replace (n * q + r + n - 1 - p) with (n * (q + 1) + (r - p - 1)) by lia. rewrite !Hdiv; lia.
Qed.

Lemma turns_bounds n p k : 0 ≤ p < n → k / n ≤ turns n p k ≤ k / n + 1.
Proof.
  intros Hp. unfold turns. split.
  - apply Z.div_le_mono; lia.
  - transitivity ((k + 1 * n) / n); [apply Z.div_le_mono; lia|]. rewrite Z.div_add; lia.
Qed.

Lemma turns_0 n p : 0 ≤ p < n → turns n p 0 = 0.
Proof. intros Hp. apply Z.div_small. lia. Qed.

Lemma nth_lookup_index (ids : list Z) j : (j < length ids)%nat → ids !! j = Some (nth j ids 0).
Proof. intros Hj. rewrite (nth_lookup ids). by destruct (lookup_lt_is_Some_2 _ _ Hj) as [x ->]. Qed.

Lemma roundRobin_len ids i vs m p s :
  NoDup ids → Z.of_nat (length ids) < 2 ^ 32 → Z.of_nat (i + length vs) < 2 ^ 32 →
  ids !! p = Some s →
  let n := Z.of_nat (length ids) in
  len (roundRobin ids i vs m) s =
    len m s + turns n (Z.of_nat p) (Z.of_nat (i + length vs)) - turns n (Z.of_nat p) (Z.of_nat i).
Proof.
  intros Hnd Hn Hi Hp n. pose proof (lookup_lt_Some _ _ _ Hp) as Hlt. revert i m Hi.
  induction vs as [|v vs IH]; intros i m Hi; cbn [roundRobin length]; [rewrite Nat.add_0_r; lia|].
  cbn [length] in Hi. set (k := nth _ ids 0).
  rewrite (IH (S i) (<[k := listOf m k ++ [v]]> m) ltac:(lia)).
  replace (S i + length vs)%nat with (i + S (length vs))%nat by lia.
  pose proof (turns_step n (Z.of_nat p) (Z.of_nat i) ltac:(lia) ltac:(lia)) as Hstep.
  replace (Z.of_nat i + 1) with (Z.of_nat (S i)) in Hstep by lia. rewrite Hstep.
  enough (len (<[k := listOf m k ++ [v]]> m) s =
    len m s + (if Z.of_nat i mod n =? Z.of_nat p then 1 else 0)) by lia.
  pose proof (Z.mod_pos_bound (Z.of_nat i) n ltac:(lia)) as Hmod.
  assert (ids !! Z.to_nat (Z.of_nat i mod n) = Some k) as Hk.
  { unfold k, u32. rewrite (Z.mod_small (Z.of_nat i) (2 ^ 32)); [|lia].
    rewrite (Z.mod_small (Z.of_nat (length ids)) (2 ^ 32)); [|lia]. apply nth_lookup_index.
    unfold n in Hmod. lia. }
  destruct (Z.eqb_spec (Z.of_nat i mod n) (Z.of_nat p)) as [Heq|Hne].
  - rewrite Heq Nat2Z.id Hp in Hk. injection Hk as <-.
    rewrite len_insert_eq length_app. unfold len. simpl. lia.
  - rewrite len_insert_ne; [lia|]. intros Hks. apply Hne.
    rewrite Hks in Hk. pose proof (NoDup_lookup _ _ _ _ Hnd Hk Hp). lia.
Qed.

Section balance.
Context {HA : Hasher} {MO : MapOrder}.

Lemma roundRobin_dom ids i vs m :
  (∀ s, s ∈ ids → s ∈ dom m) → ids ≠ [] → Z.of_nat (length ids) < 2 ^ 32 →
  dom (roundRobin ids i vs m) = dom m.
Proof.
  intros Hids Hne Hn. revert i m Hids. induction vs as [|v vs IH]; intros i m Hids; [done|].
  cbn [roundRobin]. set (k := nth _ ids 0).
  assert (k ∈ dom m) as Hk.
  { apply Hids, list_elem_of_In, nth_In. destruct ids; [done|]. cbn [length] in *.
    unfold u32 in *. rewrite (Z.mod_small (Z.of_nat (S _))); [|lia].
    pose proof (Z.mod_pos_bound (Z.of_nat i mod 2 ^ 32) (Z.of_nat (S (length ids))) ltac:(lia)). lia. }
  rewrite IH; [by apply dom_update|]. intros s Hs. rewrite dom_update; [by apply Hids|done].
Qed.

(** a balanced distribution lets no list grow past the largest one while another
    is more than one shorter *)
Lemma distribute_balance m vs r m' s t :
  noCollision r vs → Z.of_nat (length (nodesOf m ++ vs)) < 2 ^ 32 → Z.of_nat (size m) < 2 ^ 32 →
  distributeValidators m vs r true = inr m' → s ∈ dom m → t ∈ dom m →
  len m' s ≤ Z.max (getMaxListSize m) (len m' t + 1).
Proof.
  intros Hnc Hvs Hm Heq Hs Ht. unfold distributeValidators in Heq.
  case_bool_decide; [done|]. pose proof (shuffleList_perm vs r Hnc) as Hsh.
  pose proof (equalize_spec m (shuffleList vs r)) as He.
  destruct (equalizeValidatorsLists m (shuffleList vs r)) as [m1 rest]. injection Heq as <-.
  destruct He as (Hp & Hd & Hlen).
  destruct (decide (rest = [])) as [->|Hrest].
  { cbn [roundRobin]. destruct (Hlen s Hs). lia. }
  assert (∀ k, k ∈ dom m → len m1 k = getMaxListSize m) as Hfull.
  { intros k Hk. by apply Hlen. }
  assert (Z.of_nat (length (sortKeys m)) = Z.of_nat (size m)) as Hsize.
  { by rewrite sortKeys_perm length_fmap length_map_to_list. }
  assert (Z.of_nat (length rest) < 2 ^ 32) as Hr.
  { apply Permutation_length in Hp. rewrite !length_app in Hp, Hvs.
    apply Permutation_length in Hsh. lia. }
  assert (∀ k, k ∈ dom m → ∃ p, 0 ≤ p < Z.of_nat (size m) ∧
    len (roundRobin (sortKeys m) 0 rest m1) k =
    getMaxListSize m + turns (Z.of_nat (size m)) p (Z.of_nat (length rest))) as Hrr.
  { intros k Hk. pose proof Hk as Hk'. apply elem_of_sortKeys, list_elem_of_lookup in Hk' as [p Hpk].
    pose proof (lookup_lt_Some _ _ _ Hpk). exists (Z.of_nat p). split; [lia|].
    rewrite (roundRobin_len (sortKeys m) 0 rest m1 p k (sortKeys_NoDup m) ltac:(lia) ltac:(lia) Hpk).
    rewrite Hfull // Hsize Nat.add_0_l (turns_0 _ (Z.of_nat p)); lia. }
  destruct (Hrr s Hs) as (p & Hps & ->). destruct (Hrr t Ht) as (q & Hqt & ->).
  pose proof (turns_bounds _ _ (Z.of_nat (length rest)) Hps).
  pose proof (turns_bounds _ _ (Z.of_nat (length rest)) Hqt). lia.
Qed.
End balance.
