(* ===== verification/ShufflerUpdate.v ===== *)
(** * ShufflerUpdate: what [UpdateNodeLists] does before it shuffles

    [removeDuplicates] makes the two lists of leaving nodes disjoint, the
    configuration of the epoch is chosen, and resharding, which the code leaves
    open, changes nothing: [UpdateNodeLists] is one [shuffleNodes] of [toShuffle]. *)
From S2P Require Import Prelude Shuffler ShufflerSpec.
From stdpp Require Import sorting.
#[local] Open Scope go_scope.

(** ** Duplicates *)
Lemma removeValidatorFromList_after l i j v w :
  l !! i = Some v → removeValidatorFromList l (Z.of_nat i) !! j = Some w → i ≤ j →
  ∃ j', i < j' ∧ l !! j' = Some w.
Proof.
  intros Hi. pose proof (lookup_lt_Some _ _ _ Hi) as Hlt. unfold removeValidatorFromList.
  destruct (Z.ltb_spec (Z.of_nat (length l) - 1) (Z.of_nat i)); [lia|].
  destruct (Z.ltb_spec (Z.of_nat i) 0); [lia|]. simpl. rewrite Nat2Z.id.
  destruct (last l) as [x|] eqn:Hlast.
  2:{ apply last_None in Hlast as ->. done. }
  intros [Hw Hj]%lookup_take_Some Hij.
  rewrite last_lookup in Hlast. destruct (decide (i = j)) as [<-|Hne].
  - rewrite list_lookup_insert_eq // in Hw. injection Hw as ->.
    exists (pred (length l)). split; [lia|done].
  - rewrite list_lookup_insert_ne // in Hw. exists j. split; [lia|done].
Qed.

Lemma removeKeyFrom_spec n l key :
  let r := removeKeyFrom n l key in
  (∃ X, r ++ X ≡ₚ l ∧ (∀ v, v ∈ X → PubKey v = key)) ∧
  ((∀ j w, n ≤ j → l !! j = Some w → PubKey w ≠ key) → key ∉ keys r).
Proof.
  cbv zeta. revert l. induction n as [|i IH]; intros l; cbn [removeKeyFrom].
  { split; [exists []; rewrite app_nil_r; split; [done|by intros v ?%elem_of_nil]|].
    intros Hno (v & -> & Hv)%list_elem_of_fmap. apply list_elem_of_lookup in Hv as [j Hj].
    apply (Hno j v); [lia|done..]. }
  destruct (l !! i) as [v|] eqn:Hi.
  2:{ destruct (IH l) as [HX Hno]. split; [done|]. intros H. apply Hno. intros j w Hj Hw.
      apply (H j w); [|done]. destruct (decide (j = i)) as [->|]; [congruence|lia]. }
  case_bool_decide as Hkey.
  - destruct (IH (removeValidatorFromList l (Z.of_nat i))) as [(X & Hp & HX) Hno]. split.
    + exists (v :: X). split.
      * etrans; [|apply (removeValidatorFromList_perm l i v Hi)].
        rewrite -Permutation_middle. by constructor.
      * intros w [->|Hw]%elem_of_cons; [done|by apply HX].
    + intros H. apply Hno. intros j w Hj Hw.
      destruct (removeValidatorFromList_after l i j v w Hi Hw Hj) as (j' & Hj' & Hw').
      by apply (H j' w).
  - destruct (IH l) as [HX Hno]. split; [done|]. intros H. apply Hno. intros j w Hj Hw.
    destruct (decide (j = i)) as [->|]; [|apply (H j w); [lia|done]].
    rewrite Hi in Hw. injection Hw as <-. congruence.
Qed.

(** exactly the nodes that are in both lists are removed from the second *)
Lemma removeDuplicates_spec unstake additional :
  let r := removeDuplicates unstake additional in
  ∃ X, r ++ X ≡ₚ additional ∧ (∀ k, k ∈ keys X → k ∈ keys unstake) ∧
       (∀ k, k ∈ keys r → k ∉ keys unstake).
Proof.
  cbv zeta. unfold removeDuplicates. revert additional.
  induction unstake as [|u unstake IH] using rev_ind; intros additional.
  { exists []. rewrite app_nil_r. split; [done|]. split; intros k; [done|]. intros _ ?%elem_of_nil. done. }
  rewrite foldl_snoc. destruct (IH additional) as (X & Hp & HX & Hno). set (r := foldl _ _ _) in *.
  destruct (removeKeyFrom_spec (length r) r (PubKey u)) as [(Y & Hp' & HY) Hno'].
  exists (Y ++ X). split_and!.
  - by rewrite app_assoc Hp'.
  - intros k. rewrite !keys_app !elem_of_app. intros [(v & -> & Hv)%list_elem_of_fmap|Hk].
    + right. rewrite (HY v Hv). by left.
    + left. by apply HX.
  - intros k Hk. rewrite keys_app elem_of_app. intros [Hu|[->|[]%elem_of_nil]%elem_of_cons].
    + apply (Hno k); [|done]. rewrite -Hp' keys_app. apply elem_of_app. by left.
    + revert Hk. apply Hno'. intros j w Hj Hw. apply lookup_lt_Some in Hw. lia.
Qed.

(** ** One call is one shuffle *)
Definition toShuffle (args : ArgsUpdateNodes) (rhs : randHashShuffler) : shuffleNodesArg :=
  let chainParameters := argChainParameters args in {|
    eligible := argEligible args;
    waiting := argWaiting args;
    unstakeLeaving := argUnStakeLeaving args;
    additionalLeaving := removeDuplicates (argUnStakeLeaving args) (argAdditionalLeaving args);
    newNodes := argNewNodes args;
    auction := argAuction args;
    randomness := argRand args;
    nodesMeta := MetachainMinNumNodes chainParameters;
    nodesPerShard := ShardMinNumNodes chainParameters;
    nbShards := argNbShards args;
    distributor := validatorDistributor rhs;
    maxNodesToSwapPerShard := NodesToShufflePerShard (activeNodesConfig rhs);
    flagBalanceWaitingLists := IsFlagEnabledInEpoch rhs BalanceWaitingListsFlag (argEpoch args);
    flagStakingV4Step2 := rhsStakingV4Step2 rhs;
    flagStakingV4Step3 := rhsStakingV4Step3 rhs;
    maxNumNodes := MaxNumNodes (activeNodesConfig rhs);
    flagCleanupAuctionOnLowWaitingList :=
      IsFlagEnabledInEpoch rhs CleanupAuctionOnLowWaitingListFlag (argEpoch args) |}.

Section update.
Context {HA : Hasher} {MO : MapOrder}.

(** the only division is by the maximal number of nodes of a shard *)
Lemma computeNewShards_ret {S X} (cp : ChainParameters) e w a b n (s : S) :
  u32 (ShardMinNumNodes cp + shardHysteresis cp) ≠ 0%Z →
  ∃ z, computeNewShards (X := X) cp e w a b n s = (Ret z, s).
Proof.
  intros Hne. unfold computeNewShards. destruct (foldl _ _ _) as [nbE nbW]. cbv zeta.
  destruct (Z.eqb_spec (u32 (ShardMinNumNodes cp + shardHysteresis cp)) 0); [done|].
  repeat case_match; eauto.
Qed.

Lemma UpdateNodeLists_shuffles args rhs :
  let cp := argChainParameters args in
  u32 (ShardMinNumNodes cp + shardHysteresis cp) ≠ 0%Z →
  let rhs' := UpdateShufflerConfig (argEpoch args) cp rhs in
  UpdateNodeLists args rhs = shuffleNodes (toShuffle args rhs') rhs'.
Proof.
  intros cp Hne rhs'. unfold UpdateNodeLists. fold cp.
  destruct (computeNewShards_ret (X := string) cp (argEligible args) (argWaiting args)
    (Z.of_nat (length (argNewNodes args)))
    (Z.of_nat (length (removeDuplicates (argUnStakeLeaving args) (argAdditionalLeaving args))
       + length (argUnStakeLeaving args))) (argNbShards args) rhs' Hne) as [z Hz].
  unfold bind at 1, modify. cbv beta iota zeta. fold rhs'.
  unfold bind at 1. rewrite Hz.
  cbv beta iota zeta. unfold splitShards, mergeShards.
  destruct (Adaptivity cp && (argNbShards args <? z)%Z), (Adaptivity cp && (z <? argNbShards args)%Z); done.
Qed.
End update.

(** ** The configuration of an epoch *)
Lemma elem_of_sortConfigs configs c : c ∈ sortConfigs configs ↔ c ∈ configs.
Proof. unfold sortConfigs. by rewrite merge_sort_Permutation. Qed.

(** going through sorted configurations, the last enabled one is kept *)
Lemma latest_config configs epoch active :
  StronglySorted epochLe configs → (∃ c, c ∈ configs ∧ (EpochEnable c ≤ epoch)%Z) →
  let r := foldl (λ active c, if (EpochEnable c <=? epoch)%Z then c else active) active configs in
  r ∈ configs ∧ (EpochEnable r ≤ epoch)%Z ∧
  ∀ c, c ∈ configs → (EpochEnable c ≤ epoch)%Z → (EpochEnable c ≤ EpochEnable r)%Z.
Proof.
  cbv zeta. induction configs as [|x configs IH] using rev_ind; intros Hs (c & Hc & Hle).
  { by apply elem_of_nil in Hc. }
  rewrite foldl_snoc. assert (∀ y, y ∈ configs → (EpochEnable y ≤ EpochEnable x)%Z) as Hx.
  { intros y Hy. apply (StronglySorted_app_1_elem_of epochLe configs [x] y x Hs Hy). by left. }
  destruct (Z.leb_spec (EpochEnable x) epoch) as [Hxe|Hxe].
  - split; [apply elem_of_app; right; by left|]. split; [done|].
    intros y [Hy|[->|[]%elem_of_nil]%elem_of_cons]%elem_of_app _; [by apply Hx|lia].
  - destruct IH as (Hin & Hre & Hmax).
    + by apply StronglySorted_app_1_l in Hs.
    + exists c. split; [|done]. apply elem_of_app in Hc as [|[->|[]%elem_of_nil]%elem_of_cons]; [done|lia].
    + split; [apply elem_of_app; by left|]. split; [done|].
      intros y [Hy|[->|[]%elem_of_nil]%elem_of_cons]%elem_of_app Hye; [by apply Hmax|lia].
Qed.
