(* ===== verification/ShufflerConcrete.v ===== *)
(** * ShufflerConcrete: a network of two shards and the metachain

    A hash function, two orders of map iteration, and one call of the shuffler
    on which the hypotheses of the theorems are met. *)
From S2P Require Import Prelude Shuffler ShufflerSpec ShufflerUpdate.
#[local] Open Scope go_scope.

#[local] Instance idHasher : Hasher := {| Compute := λ b, b |}.
Definition ascending : MapOrder := {|
  rangeOf A m := map_to_list m;
  rangeOf_perm A m := Permutation_refl (map_to_list m) |}.
Definition descending : MapOrder := {|
  rangeOf A m := reverse (map_to_list m);
  rangeOf_perm A m := reverse_Permutation (map_to_list m) |}.

Lemma noCollision_id r l : NoDup (keys l) → noCollision r l.
Proof.
  intros Hnd v w Hv Hw Heq. apply app_inv_tail in Heq.
  apply list_elem_of_lookup in Hv as [i Hi], Hw as [j Hj].
  assert (i = j) as <-; [|congruence].
  eapply (NoDup_lookup (keys l)); [done| |].
  - unfold keys. by rewrite list_lookup_fmap Hi.
  - unfold keys. by rewrite list_lookup_fmap Hj /= Heq.
Qed.

Definition demoNode (b : Byte.byte) : Validator := mkValidator [b] 1 0.
Definition demoEligible : validatorMap :=
  {[ 0%Z := [demoNode x01; demoNode x02; demoNode x03]; 1%Z := [demoNode x04; demoNode x05];
     MetachainShardId := [demoNode x06; demoNode x07] ]}.
Definition demoWaiting : validatorMap :=
  {[ 0%Z := [demoNode x11; demoNode x12]; MetachainShardId := [demoNode x13; demoNode x14; demoNode x15] ]}.
Definition demoParameters : ChainParameters := {|
  hysteresisOf n := (n / 5)%Z;
  ShardMinNumNodes := 2;
  MetachainMinNumNodes := 2;
  Adaptivity := true |}.
(** node 2 and 13 unstake, 13 is also jailed, so is 42, which is in no list *)
Definition demoArgs : ArgsUpdateNodes := {|
  argChainParameters := demoParameters;
  argEligible := demoEligible;
  argWaiting := demoWaiting;
  argNewNodes := [];
  argUnStakeLeaving := [demoNode x02; demoNode x13];
  argAdditionalLeaving := [demoNode x13; demoNode x42; demoNode x06];
  argAuction := [demoNode x21; demoNode x22; demoNode x23];
  argRand := [xaa; xbb];
  argNbShards := 2;
  argEpoch := 7 |}.
Definition demoConfigs : list MaxNodesChangeConfig :=
  [{| EpochEnable := 9; MaxNumNodes := 30; NodesToShufflePerShard := 3 |};
   {| EpochEnable := 5; MaxNumNodes := 20; NodesToShufflePerShard := 1 |};
   {| EpochEnable := 1; MaxNumNodes := 10; NodesToShufflePerShard := 2 |}].
Definition demoShuffler : randHashShuffler :=
  NewHashValidatorsShuffler true demoConfigs (λ _ _, true) 3 6.
