(* ===== verification/ShufflerTheorems.v ===== *)
(** * ShufflerTheorems: the properties of the validators shuffler *)
From S2P Require Import Prelude Shuffler ShufflerSpec ShufflerOrder ShufflerBalance.
From S2P Require Import ShufflerUpdate ShufflerConcrete.
From stdpp Require Import sorting.

(** everything that can be in a list after the epoch change *)
Definition incoming (arg : shuffleNodesArg) : list Validator :=
  nodesOf (eligible arg) ++ nodesOf (waiting arg) ++ newNodes arg ++ auction arg.
Definition allLeaving (arg : shuffleNodesArg) : list Validator :=
  unstakeLeaving arg ++ additionalLeaving arg.

Section shuffle.
Context {HA : Hasher}.

(** the numbers are uint32, no node is listed twice, no two nodes collide *)
Record wellFormed (arg : shuffleNodesArg) : Prop := {
  wf_shards : (0 ≤ nbShards arg < 2 ^ 32)%Z;
  wf_required s : (0 ≤ requiredNodes arg s < 2 ^ 32)%Z;
  wf_swap : (0 ≤ maxNodesToSwapPerShard arg)%Z;
  wf_keys : NoDup (keys (incoming arg));
  wf_leaving : NoDup (keys (allLeaving arg));
  wf_hash : noCollision (randomness arg) (incoming arg);
  wf_size : (Z.of_nat (length (incoming arg)) < 2 ^ 32)%Z;
}.

Definition mayShuffle (arg : shuffleNodesArg) : Prop :=
  enoughNodes arg ∧ (flagStakingV4Step3 arg = true → newNodes arg = []).

(** what a successful epoch change does: [removed] left the network, [pending]
    are shuffled out nodes that go to the auction, [joined] come from it *)
Record shuffled (arg : shuffleNodesArg) (res : ResUpdateNodes) : Prop := {
  shuffled_nodes : ∃ removed pending joined,
    nodesOf (Eligible res) ++ nodesOf (Waiting res) ++ pending ++ removed
      ≡ₚ nodesOf (eligible arg) ++ nodesOf (waiting arg) ++ newNodes arg ++ joined ∧
    (joined = auction arg ∨ joined = [] ∧ flagStakingV4Step3 arg = false) ∧
    (pending = [] ∨ pending = nodesOf (ShuffledOut res) ∧ flagStakingV4Step2 arg = true) ∧
    (∀ k, k ∈ keys removed ↔
       k ∈ keys (Leaving res) ∧ k ∈ keys (nodesOf (eligible arg) ++ nodesOf (waiting arg))) ∧
    (∀ k, k ∈ keys (StillRemaining res) → k ∈ keys (allLeaving arg) ∧
       k ∈ keys (nodesOf (Eligible res) ++ nodesOf (Waiting res) ++ pending));
  shuffled_enough s : nbShards arg ≠ 0%Z → isShard arg s →
    (requiredNodes arg s ≤ len (Eligible res) s)%Z;
  shuffled_kept s : ∃ kept, kept ⊆+ listOf (eligible arg) s ∧ kept ⊆+ listOf (Eligible res) s ∧
    (len (eligible arg) s - maxNodesToSwapPerShard arg ≤ Z.of_nat (length kept))%Z;
}.

Lemma incoming_sub arg v :
  v ∈ nodesOf (eligible arg) ++ nodesOf (waiting arg) ∨ v ∈ newNodes arg ∨ v ∈ auction arg →
  v ∈ incoming arg.
Proof. unfold incoming. rewrite !elem_of_app. tauto. Qed.

Lemma len_le_nodes m s : (len m s ≤ Z.of_nat (length (nodesOf m)))%Z.
Proof. unfold len. destruct (nodesOf_list m s) as [rest Hp]. rewrite Hp length_app. lia. Qed.

Section order.
Context {MO : MapOrder}.

(** after the leaving nodes and the shuffle: [D] left the network *)
Record leftOver (arg : shuffleNodesArg) (ntr : gmap Z Z) (e w : validatorMap)
    (still : list Validator) (out : validatorMap) (D : list Validator) : Prop := {
  lo_nodes : nodesOf e ++ nodesOf w ++ nodesOf out ++ D ≡ₚ nodesOf (eligible arg) ++ nodesOf (waiting arg);
  lo_in k : k ∈ keys (allLeaving arg) → k ∈ keys (nodesOf (eligible arg) ++ nodesOf (waiting arg)) →
    k ∈ keys still ∨ k ∈ keys D;
  lo_out k : k ∈ keys D → (k ∉ keys still) ∧ k ∈ keys (allLeaving arg);
  lo_still k : k ∈ keys still → k ∈ keys (allLeaving arg) ∧
    k ∈ keys (nodesOf e ++ nodesOf w ++ nodesOf out);
  lo_meta : MetachainShardId ∈ dom w;
  lo_dom s : isShard arg s → s ∈ dom w;
  lo_NoDup : NoDup (keys still);
  lo_size s : (shardSize arg s - toRemove ntr s ≤ len e s + len w s)%Z;
  lo_kept s : listOf e s ⊆+ listOf (eligible arg) s ∧
    (len (eligible arg) s - toRemove ntr s ≤ len e s)%Z;
}.

Lemma leave_wf arg ntr :
  wellFormed arg → nonNegative ntr →
  let '(e, w, still, out) :=
    leaveAndShuffleOut arg (createListsForAllShards (waiting arg) (nbShards arg)) ntr in
  ∃ D, leftOver arg ntr e w still out D.
Proof.
  intros Hwf Hn. set (w := createListsForAllShards _ _).
  destruct (createListsForAllShards_spec (waiting arg) (nbShards arg)) as [Hl Hd].
  fold w in Hl, Hd. pose proof (nodesOf_same _ _ Hl) as Hw.
  pose proof (leaveAndShuffleOut_spec arg w ntr) as H.
  destruct (leaveAndShuffleOut arg w ntr) as [[[e1 w1] still] out].
  destruct H as ((D & HD & H1 & H2 & H3) & Hdom & Hnd & Hsz & Hkept); [..|done|].
  - pose proof (wf_keys _ Hwf) as Hk. unfold incoming in Hk.
    rewrite app_assoc keys_app in Hk. rewrite Hw. by apply NoDup_app_l in Hk.
  - apply Hwf.
  - eapply noCollision_sub; [|apply Hwf]. intros v. rewrite Hw. intros ?. apply incoming_sub. by left.
  - exists D. split; [by rewrite -Hw|..]; [|done|done| | |done| |done].
    + intros k Hk1 Hk2. apply H1; [done|]. by rewrite Hw.
    + rewrite Hdom. apply Hd. by right.
    + intros s Hs. rewrite Hdom. by apply Hd.
    + intros s. specialize (Hsz s). unfold shardSize. unfold len in *. by rewrite -Hl.
Qed.

(** the eligible lists are filled from the waiting ones *)
Lemma moveMax_wf arg e1 w1 :
  wellFormed arg →
  (Z.of_nat (length (nodesOf e1 ++ nodesOf w1)) < 2 ^ 32)%Z →
  ∃ e2 w2, moveMaxNumNodesToMap (Some e1) w1 (nodesMeta arg) (nodesPerShard arg) = inr (e2, w2) ∧
    nodesOf e2 ++ nodesOf w2 ≡ₚ nodesOf e1 ++ nodesOf w1 ∧ dom w2 = dom w1 ∧
    (∀ s, listOf e1 s ⊆+ listOf e2 s) ∧
    (∀ s, s ∈ dom w1 → Z.min (requiredNodes arg s) (len e1 s + len w1 s) ≤ len e2 s)%Z.
Proof.
  intros Hwf Hsz. destruct (moveMaxNumNodesToMap_spec e1 w1 (nodesMeta arg) (nodesPerShard arg))
    as (e2 & w2 & -> & Hlk).
  exists e2, w2. split; [done|].
  assert (∀ s, listOf e2 s ++ listOf w2 s = listOf e1 s ++ listOf w1 s) as Hs.
  { intros s. specialize (Hlk s). unfold listOf in *.
    destruct (w1 !! s) as [vs|]; simpl in Hlk; destruct Hlk as [-> ->]; simpl.
    - by rewrite -app_assoc take_drop.
    - done. }
  split; [apply nodesOf_pointwise; intros s; by rewrite Hs|].
  split.
  { apply set_eq. intros s. rewrite !elem_of_dom. specialize (Hlk s).
    destruct (w1 !! s); destruct Hlk as [_ ->]; split; eauto. }
  split.
  { intros s. specialize (Hlk s). unfold listOf in *. destruct (w1 !! s) as [vs|]; destruct Hlk as [-> _]; simpl.
    - by apply submseteq_inserts_r.
    - done. }
  intros s Hdom. specialize (Hlk s). apply elem_of_dom in Hdom as [vs Hvs]. rewrite Hvs in Hlk.
  destruct Hlk as [He _].
  rewrite length_app in Hsz. pose proof (len_le_nodes e1 s) as He1. pose proof (len_le_nodes w1 s) as Hw.
  assert (listOf e2 s = listOf e1 s ++ take (neededNodes (nodesMeta arg) (nodesPerShard arg) s
            (listOf e1 s) vs) vs) as He2 by (by unfold listOf at 1; rewrite He).
  assert (listOf w1 s = vs) as Hw1 by (unfold listOf; by rewrite Hvs).
  unfold len in *. rewrite Hw1 in Hw |- *. rewrite He2 length_app length_take.
  unfold neededNodes. fold (requiredNodes arg s).
  rewrite computeNeededNodes_spec; [|lia|lia|apply Hwf]. lia.
Qed.

Lemma elem_of_leaving arg still k :
  NoDup (keys (allLeaving arg)) → NoDup (keys still) →
  k ∈ keys (removeValidatorsFromList (allLeaving arg) still (Z.of_nat (length still))).1 ↔
  k ∈ keys (allLeaving arg) ∧ k ∉ keys still.
Proof.
  intros Hl Hs. destruct (removeValidatorsFromList _ still _) as [K D] eqn:Heq. simpl.
  by apply (removeAll_keys _ _ _ _ _ Heq).
Qed.

Lemma bind_if_fromSum {S X A B} (b : bool) (r : X + A) (a : A) (k : A → M S X B) s :
  bind (if b then fromSum r else ret a) k s =
  match (if b then r else inr a) with inl x => (Throw x, s) | inr a => k a s end.
Proof. destruct b; [apply bind_fromSum|done]. Qed.

(** the three distributions onto the waiting lists *)
Lemma distribute_wf arg w vs balanced :
  wellFormed arg → w ≠ ∅ → (∀ v, v ∈ vs → v ∈ incoming arg) →
  ∃ w', distributeValidators w vs (randomness arg) balanced = inr w' ∧
        nodesOf w' ≡ₚ nodesOf w ++ vs ∧ w' ≠ ∅.
Proof.
  intros Hwf Hw Hsub.
  destruct (distributeValidators_nodes w vs (randomness arg) balanced Hw) as (w' & -> & Hp & Hd).
  { eapply noCollision_sub; [exact Hsub|apply Hwf]. }
  exists w'. split; [done|]. split; [done|]. intros ->. apply Hw.
  apply dom_empty_inv_L. rewrite dom_empty_L in Hd. set_solver.
Qed.

Lemma checkNew_wf arg w :
  wellFormed arg → w ≠ ∅ →
  match checkAndDistributeNewNodes w (newNodes arg) (randomness arg) (flagStakingV4Step3 arg) with
  | inl _ => ¬ (flagStakingV4Step3 arg = true → newNodes arg = [])
  | inr w' => (flagStakingV4Step3 arg = true → newNodes arg = []) ∧
              nodesOf w' ≡ₚ nodesOf w ++ newNodes arg ∧ w' ≠ ∅
  end.
Proof.
  intros Hwf Hw. unfold checkAndDistributeNewNodes.
  destruct (flagStakingV4Step3 arg); simpl.
  - destruct (newNodes arg) as [|v vs]; simpl; [by rewrite app_nil_r|]. intros H. by specialize (H eq_refl).
  - destruct (distribute_wf arg w (newNodes arg) false Hwf Hw) as (w' & -> & Hp & Hne); [|done].
    intros v Hv. apply incoming_sub. by right; left.
Qed.

Lemma auction_wf arg w pre balanced (b : bool) :
  wellFormed arg → w ≠ ∅ →
  ∃ w', (if b then wrapErr pre (distributeValidators w (auction arg) (randomness arg) balanced)
         else inr w) = inr w' ∧
        nodesOf w' ≡ₚ nodesOf w ++ (if b then auction arg else []) ∧ w' ≠ ∅.
Proof.
  intros Hwf Hw. destruct b; [|exists w; by rewrite app_nil_r].
  destruct (distribute_wf arg w (auction arg) balanced Hwf Hw) as (w' & -> & Hp & Hne); [|by exists w'].
  intros v Hv. apply incoming_sub. by right; right.
Qed.

Lemma shuffledOut_wf arg w out pre balanced (b : bool) :
  wellFormed arg → w ≠ ∅ → (∀ v, v ∈ nodesOf out → v ∈ incoming arg) →
  ∃ w' out', (if b then wrapErr pre (DistributeValidators (distributor arg) w out (randomness arg)
                                       balanced)
              else inr (w, out)) = inr (w', out') ∧
        nodesOf w' ++ (if b then [] else nodesOf out) ≡ₚ nodesOf w ++ nodesOf out ∧
        (b = false → out' = out).
Proof.
  intros Hwf Hw Hsub. destruct b; [|by exists w, out].
  destruct (DistributeValidators_nodes (distributor arg) w out (randomness arg) balanced Hw)
    as (w' & out' & -> & Hp & _).
  { eapply noCollision_sub; [exact Hsub|apply Hwf]. }
  exists w', out'. by rewrite app_nil_r.
Qed.

(** who left, who stayed *)
Lemma leftOver_shuffled arg ntr e w still out D e2 w2 pending joined leaving :
  wellFormed arg → leftOver arg ntr e w still out D →
  leaving = (removeValidatorsFromList (allLeaving arg) still (Z.of_nat (length still))).1 →
  nodesOf e2 ++ nodesOf w2 ++ pending ≡ₚ
    (nodesOf e ++ nodesOf w ++ nodesOf out) ++ newNodes arg ++ joined →
  nodesOf e2 ++ nodesOf w2 ++ pending ++ D
    ≡ₚ nodesOf (eligible arg) ++ nodesOf (waiting arg) ++ newNodes arg ++ joined ∧
  (∀ k, k ∈ keys D ↔
     k ∈ keys leaving ∧ k ∈ keys (nodesOf (eligible arg) ++ nodesOf (waiting arg))) ∧
  (∀ k, k ∈ keys still → k ∈ keys (allLeaving arg) ∧
     k ∈ keys (nodesOf e2 ++ nodesOf w2 ++ pending)).
Proof.
  intros Hwf H -> Htot. pose proof (lo_nodes _ _ _ _ _ _ _ H) as HD. split_and!.
  - rewrite (app_assoc (nodesOf w2)) (app_assoc (nodesOf e2)) Htot
      (app_assoc (nodesOf (eligible arg))) -HD.
    rewrite -!app_assoc. do 3 apply Permutation_app_head. rewrite (app_assoc (newNodes arg)).
    apply Permutation_app_comm.
  - intros k. rewrite elem_of_leaving; [|apply Hwf|apply H]. split.
    + intros Hk. destruct (lo_out _ _ _ _ _ _ _ H k Hk) as [??]. split; [done|].
      rewrite -HD !keys_app !elem_of_app. auto.
    + intros [[Hk Hs] Hk2]. by destruct (lo_in _ _ _ _ _ _ _ H k Hk Hk2).
  - intros k Hk. destruct (lo_still _ _ _ _ _ _ _ H k Hk) as [? Hin]. split; [done|].
    rewrite Htot keys_app. apply elem_of_app. by left.
Qed.

Lemma shuffleNodes_outcome {S} arg (s : S) :
  wellFormed arg →
  match shuffleNodes arg s with
  | (Ret res, s') => s' = s ∧ mayShuffle arg ∧ shuffled arg res
  | (Throw _, s') => s' = s ∧ ¬ mayShuffle arg
  | (Panic, _) => False
  end.
Proof.
  intros Hwf. unfold shuffleNodes. cbv zeta. rewrite bind_fromSum.
  pose proof (computeNumToRemove_spec arg (wf_shards _ Hwf)) as Hntr.
  destruct (computeNumToRemove arg) as [err|ntr]; [split; [done|by intros [? _]]|].
  destruct Hntr as (Hen & Hn & Hreq).
  pose proof (λ s', clampToSwap_spec (maxNodesToSwapPerShard arg) ntr s' (wf_swap _ Hwf)) as Hclamp.
  set (ntr' := clampToSwap _ ntr) in *.
  assert (nonNegative ntr') as Hn'.
  { intros s'. rewrite Hclamp. pose proof (wf_swap _ Hwf). specialize (Hn s'). lia. }
  pose proof (leave_wf arg ntr' Hwf Hn') as Hleave.
  destruct (leaveAndShuffleOut arg _ ntr') as [[[e1 w1] still] out].
  destruct Hleave as [D H]. pose proof (lo_nodes _ _ _ _ _ _ _ H) as HD.
  destruct (moveMax_wf arg e1 w1 Hwf) as (e2 & w2 & -> & Hp2 & Hdom2 & Hsub2 & Hmin).
  { pose proof (wf_size _ Hwf) as Hs. unfold incoming in Hs. apply Permutation_length in HD.
    rewrite !length_app in HD, Hs |- *. lia. }
  assert (w2 ≠ ∅) as Hw2.
  { intros ->. pose proof (lo_meta _ _ _ _ _ _ _ H) as Hmeta.
    rewrite -Hdom2 dom_empty_L in Hmeta. by apply elem_of_empty in Hmeta. }
  pose proof (checkNew_wf arg w2 Hwf Hw2) as Hnew. cbn [wrapErr]. rewrite !bind_fromSum.
  destruct (checkAndDistributeNewNodes w2 _ _ _) as [err|w3]; cbn [wrapErr].
  { split; [done|]. by intros [_ ?]. }
  destruct Hnew as (Hstep3 & Hp3 & Hw3).
  set (low := shouldDistributeShuffledToWaitingInStakingV4 _). rewrite bind_if_fromSum.
  destruct (auction_wf arg w3 "distributeValidators auction list" (flagBalanceWaitingLists arg)
    (flagStakingV4Step3 arg || low) Hwf Hw3) as (w4 & -> & Hp4 & Hw4). rewrite bind_if_fromSum.
  destruct (shuffledOut_wf arg w4 out "distributeValidators shuffled out" (flagBalanceWaitingLists arg)
    (negb (flagStakingV4Step2 arg) || low) Hwf Hw4) as (w5 & out' & -> & Hp5 & Hout').
  { intros v Hv. apply incoming_sub. left. rewrite -HD !elem_of_app. tauto. }
  destruct (removeValidatorsFromList (unstakeLeaving arg ++ _) still _) as [actual rm] eqn:Hrm.
  split; [done|]. split; [done|].
  set (pending := if _ || low then [] else nodesOf out) in *.
  set (joined := if _ || low then auction arg else []) in *.
  destruct (leftOver_shuffled arg ntr' e1 w1 still out D e2 w5 pending joined actual Hwf H)
    as (Hnodes & Hleft & Hstill); [by unfold allLeaving; rewrite Hrm|..].
  { rewrite Hp5 Hp4 Hp3 (app_assoc (nodesOf e1)) -Hp2. clear.
    rewrite -!app_assoc. do 2 apply Permutation_app_head.
    rewrite (Permutation_app_comm (nodesOf out)). by rewrite -app_assoc. }
  split; cbn [Eligible Waiting ShuffledOut Leaving StillRemaining].
  - exists D, pending, joined. split_and!; [done| | |done|done].
    + unfold joined. destruct (flagStakingV4Step3 arg), low; simpl; auto.
    + unfold pending. destruct (flagStakingV4Step2 arg), low; simpl; auto. right. by rewrite Hout'.
  - intros s' Hnb Hs'. pose proof (lo_size _ _ _ _ _ _ _ H s') as Hsz.
    specialize (Hmin s' (lo_dom _ _ _ _ _ _ _ H s' Hs')). specialize (Hreq Hnb s' Hs').
    rewrite Hclamp in Hsz. lia.
  - intros s'. destruct (lo_kept _ _ _ _ _ _ _ H s') as [Hsub Hk]. exists (listOf e1 s').
    split; [done|]. split; [done|]. rewrite Hclamp in Hk. unfold len in *. lia.
Qed.
End order.

Lemma checkNew_orders (O1 O2 : MapOrder) arg w :
  wellFormed arg →
  checkAndDistributeNewNodes (MO := O1) w (newNodes arg) (randomness arg) (flagStakingV4Step3 arg) =
  checkAndDistributeNewNodes (MO := O2) w (newNodes arg) (randomness arg) (flagStakingV4Step3 arg).
Proof.
  intros Hwf. unfold checkAndDistributeNewNodes. destruct (flagStakingV4Step3 arg); [done|].
  apply distributeValidators_orders; [|done]. eapply noCollision_sub; [|apply Hwf].
  intros v Hv. apply incoming_sub. by right; left.
Qed.

Lemma shuffleNodes_orders {S} (O1 O2 : MapOrder) arg (s : S) :
  wellFormed arg → shuffleNodes (MO := O1) arg s = shuffleNodes (MO := O2) arg s.
Proof.
  intros Hwf. unfold shuffleNodes. cbv zeta. rewrite !bind_fromSum.
  pose proof (computeNumToRemove_spec arg (wf_shards _ Hwf)) as Hntr.
  destruct (computeNumToRemove arg) as [err|ntr]; [done|]. destruct Hntr as (_ & Hn & _).
  assert (nonNegative (clampToSwap (maxNodesToSwapPerShard arg) ntr)) as Hn'.
  { intros s'. rewrite clampToSwap_spec; [|apply Hwf]. pose proof (wf_swap _ Hwf).
    specialize (Hn s'). lia. }
  pose proof (leave_wf (MO := O2) arg _ Hwf Hn') as Hleave.
  rewrite (leaveAndShuffleOut_orders O1 O2).
  destruct (leaveAndShuffleOut (MO := O2) arg _ _) as [[[e1 w1] still] out].
  destruct Hleave as [D H]. pose proof (lo_nodes _ _ _ _ _ _ _ H) as HD.
  rewrite (moveMaxNumNodesToMap_orders O1 O2) !bind_fromSum.
  destruct (wrapErr _ (moveMaxNumNodesToMap _ _ _ _)) as [err|[e2 w2]]; [done|].
  rewrite (checkNew_orders O1 O2 arg w2 Hwf) !bind_fromSum.
  destruct (wrapErr _ (checkAndDistributeNewNodes _ _ _ _)) as [err|w3]; [done|].
  rewrite !(getNumPubKeys_orders O1 O2) !bind_if_fromSum.
  assert (noCollision (randomness arg) (auction arg)) as Hauc.
  { eapply noCollision_sub; [|apply Hwf]. intros v Hv. apply incoming_sub. by right; right. }
  rewrite (distributeValidators_orders O1 O2 w3 (auction arg) (auction arg)) //.
  destruct (if _ || _ then _ else _) as [err|w4]; [done|]. rewrite !bind_if_fromSum.
  rewrite (DistributeValidators_orders O1 O2); [done|].
  eapply noCollision_sub; [|apply Hwf].
  intros v Hv. apply incoming_sub. left. rewrite -HD !elem_of_app. tauto.
Qed.

(** the configuration of the epoch, and what its shuffle is given *)
Definition atEpoch (args : ArgsUpdateNodes) (rhs : randHashShuffler) : randHashShuffler :=
  UpdateShufflerConfig (argEpoch args) (argChainParameters args) rhs.
Definition shuffleOf (args : ArgsUpdateNodes) (rhs : randHashShuffler) : shuffleNodesArg :=
  toShuffle args (atEpoch args rhs).

(** the assumptions on one call: the parameters are uint32, the lists mention
    every node once, no two nodes have the same hash *)
Record validUpdate (args : ArgsUpdateNodes) (rhs : randHashShuffler) : Prop := {
  vu_shards : (0 ≤ argNbShards args < 2 ^ 32)%Z;
  vu_meta : (0 ≤ MetachainMinNumNodes (argChainParameters args) < 2 ^ 32)%Z;
  vu_shard : (0 ≤ ShardMinNumNodes (argChainParameters args) < 2 ^ 32)%Z;
  vu_divisor : u32 (ShardMinNumNodes (argChainParameters args)
                    + shardHysteresis (argChainParameters args)) ≠ 0%Z;
  vu_swap : (0 ≤ maxNodesToSwapPerShard (shuffleOf args rhs))%Z;
  vu_keys : NoDup (keys (incoming (shuffleOf args rhs)));
  vu_unstake : NoDup (keys (argUnStakeLeaving args));
  vu_additional : NoDup (keys (argAdditionalLeaving args));
  vu_hash : noCollision (argRand args) (incoming (shuffleOf args rhs));
  vu_size : (Z.of_nat (length (incoming (shuffleOf args rhs))) < 2 ^ 32)%Z;
}.

Lemma validUpdate_wf args rhs : validUpdate args rhs → wellFormed (shuffleOf args rhs).
Proof.
  intros H. split; try apply H.
  - intros s. unfold requiredNodes. case_match; apply H.
  - unfold allLeaving, shuffleOf. cbn [unstakeLeaving additionalLeaving toShuffle].
    destruct (removeDuplicates_spec (argUnStakeLeaving args) (argAdditionalLeaving args))
      as (X & Hp & _ & Hno). rewrite keys_app. apply NoDup_app. split_and!; [apply H| |].
    + intros k Hk Hr. by apply (Hno k).
    + pose proof (vu_additional _ _ H) as Ha. rewrite -Hp keys_app in Ha. by apply NoDup_app_l in Ha.
Qed.

Lemma UpdateNodeLists_outcome {MO : MapOrder} args rhs :
  validUpdate args rhs →
  match UpdateNodeLists args rhs with
  | (Ret res, rhs') => rhs' = atEpoch args rhs ∧ mayShuffle (shuffleOf args rhs) ∧
                       shuffled (shuffleOf args rhs) res
  | (Throw _, rhs') => rhs' = atEpoch args rhs ∧ ¬ mayShuffle (shuffleOf args rhs)
  | (Panic, _) => False
  end.
Proof.
  intros H. rewrite UpdateNodeLists_shuffles; [|apply H].
  apply (shuffleNodes_outcome (shuffleOf args rhs)). by apply validUpdate_wf.
Qed.
Lemma UpdateNodeLists_shuffled {MO : MapOrder} args rhs res rhs' :
  validUpdate args rhs → UpdateNodeLists args rhs = (Ret res, rhs') →
  shuffled (shuffleOf args rhs) res.
Proof.
  intros H Heq. pose proof (UpdateNodeLists_outcome args rhs H) as Ho.
  rewrite Heq in Ho. by destruct Ho as (_ & _ & ?).
Qed.
End shuffle.

Section properties.
Context {HA : Hasher}.

(** C25: no validator is lost or duplicated by an epoch change.  The old
    eligible and waiting lists with the new nodes (and those selected from the
    auction, when they are let in) are, as a multiset, the new eligible and
    waiting lists with the shuffled out nodes that go to the auction and the
    nodes that left; the nodes that left are exactly the reported leaving nodes
    that were in a list, and every leaving node that is reported to remain
    asked to leave and still is in a list. *)
Theorem UpdateNodeLists_conserves {MO : MapOrder} args rhs res rhs' :
  validUpdate args rhs → UpdateNodeLists args rhs = (Ret res, rhs') →
  let old := nodesOf (argEligible args) ++ nodesOf (argWaiting args) in
  ∃ removed pending joined,
    nodesOf (Eligible res) ++ nodesOf (Waiting res) ++ pending ++ removed
      ≡ₚ old ++ argNewNodes args ++ joined ∧
    (joined = argAuction args ∨ joined = [] ∧ rhsStakingV4Step3 rhs' = false) ∧
    (pending = [] ∨ pending = nodesOf (ShuffledOut res) ∧ rhsStakingV4Step2 rhs' = true) ∧
    (∀ k, k ∈ keys removed ↔ k ∈ keys (Leaving res) ∧ k ∈ keys old) ∧
    (∀ k, k ∈ keys (StillRemaining res) →
       k ∈ keys (argUnStakeLeaving args ++ argAdditionalLeaving args) ∧
       k ∈ keys (nodesOf (Eligible res) ++ nodesOf (Waiting res) ++ pending)).
Proof.
  intros H Heq old. pose proof (UpdateNodeLists_outcome args rhs H) as Ho. rewrite Heq in Ho.
  destruct Ho as (-> & _ & [(removed & pending & joined & Hp & Hj & Hpe & Hr & Hs) _ _]).
  exists removed, pending, joined. split_and!; [|done..|].
  - by rewrite Hp -!app_assoc.
  - intros k Hk. destruct (Hs k Hk) as [Hl ?]. split; [|done].
    destruct (removeDuplicates_spec (argUnStakeLeaving args) (argAdditionalLeaving args))
      as (X & HX & _). rewrite -HX. revert Hl. unfold allLeaving.
    rewrite !keys_app !elem_of_app. cbn [shuffleOf toShuffle unstakeLeaving additionalLeaving]. tauto.
Qed.

(** C26: no shard is left without its validators.  After an epoch change the
    eligible list of every shard, the metachain included, has at least the
    configured minimum of nodes, whatever nodes asked to leave. *)
Theorem UpdateNodeLists_keeps_shards_manned {MO : MapOrder} args rhs res rhs' s :
  validUpdate args rhs → UpdateNodeLists args rhs = (Ret res, rhs') →
  argNbShards args ≠ 0%Z → (0 ≤ s < argNbShards args)%Z ∨ s = MetachainShardId →
  ((if s =? MetachainShardId then MetachainMinNumNodes (argChainParameters args)
    else ShardMinNumNodes (argChainParameters args)) ≤ len (Eligible res) s)%Z.
Proof.
  intros H Heq Hne Hs. exact (shuffled_enough _ _ (UpdateNodeLists_shuffled _ _ _ _ H Heq) s Hne Hs).
Qed.

(** C27: an epoch change replaces at most the configured number of eligible
    nodes of a shard: all but [NodesToShufflePerShard] of them (leaving and
    shuffled out ones together) are eligible in the same shard afterwards. *)
Theorem UpdateNodeLists_bounded_churn {MO : MapOrder} args rhs res rhs' s :
  validUpdate args rhs → UpdateNodeLists args rhs = (Ret res, rhs') →
  ∃ kept, kept ⊆+ listOf (argEligible args) s ∧ kept ⊆+ listOf (Eligible res) s ∧
    (len (argEligible args) s - NodesToShufflePerShard (activeNodesConfig rhs')
       ≤ Z.of_nat (length kept))%Z.
Proof.
  intros H Heq. pose proof (UpdateNodeLists_outcome args rhs H) as Ho. rewrite Heq in Ho.
  destruct Ho as (-> & _ & Hs). exact (shuffled_kept _ _ Hs s).
Qed.

(** C28: all nodes compute the same lists.  The result of an epoch change does
    not depend on the order in which a node happens to iterate over its maps. *)
Theorem UpdateNodeLists_deterministic (O1 O2 : MapOrder) args rhs :
  validUpdate args rhs →
  UpdateNodeLists (MO := O1) args rhs = UpdateNodeLists (MO := O2) args rhs.
Proof.
  intros H. rewrite !UpdateNodeLists_shuffles; [|apply H..].
  apply (shuffleNodes_orders O1 O2 (shuffleOf args rhs)). by apply validUpdate_wf.
Qed.

(** C29: an epoch change always ends with lists or with an error, never with a
    panic; it succeeds exactly if every shard has its minimum of nodes and no new
    node arrives outside of the auction once staking v4 is active. *)
Theorem UpdateNodeLists_succeeds {MO : MapOrder} args rhs :
  validUpdate args rhs →
  ((∃ res, UpdateNodeLists args rhs = (Ret res, atEpoch args rhs)) ↔ mayShuffle (shuffleOf args rhs)) ∧
  (¬ mayShuffle (shuffleOf args rhs) →
   ∃ err, UpdateNodeLists args rhs = (Throw err, atEpoch args rhs)).
Proof.
  intros H. pose proof (UpdateNodeLists_outcome args rhs H) as Ho.
  destruct (UpdateNodeLists args rhs) as [[res|err|] rhs']; [|destruct Ho as [-> Hno]|done].
  - destruct Ho as (-> & Hm & _). split; [split; [done|by exists res]|done].
  - split; [split; [by intros [? ?]|done]|by exists err].
Qed.

(** C30: a balanced distribution keeps the lists even: it adds every validator
    once, creates no shard, and no list grows past the largest one while another
    one is more than one node shorter. *)
Theorem distributeValidators_balanced {MO : MapOrder} m vs r :
  m ≠ ∅ → noCollision r vs → (Z.of_nat (length (nodesOf m ++ vs)) < 2 ^ 32)%Z →
  (Z.of_nat (size m) < 2 ^ 32)%Z →
  ∃ m', distributeValidators m vs r true = inr m' ∧ dom m' = dom m ∧ nodesOf m' ≡ₚ nodesOf m ++ vs ∧
    (∀ s t, s ∈ dom m → t ∈ dom m → len m' s ≤ Z.max (getMaxListSize m) (len m' t + 1))%Z.
Proof.
  intros Hm Hnc Hn Hsz. destruct (distributeValidators_nodes m vs r true Hm Hnc) as (m' & Heq & Hp & Hd).
  exists m'. split; [done|]. split; [by eapply distributeValidators_dom|]. split; [done|].
  intros s t. by eapply distribute_balance.
Qed.

(** shuffling a list permutes it, and the result depends on the validators
    and the randomness only, not on the order in which they were listed. *)
Lemma shuffleList_canonical r l l' :
  noCollision r l → l ≡ₚ l' → shuffleList l r ≡ₚ l ∧ shuffleList l r = shuffleList l' r.
Proof. intros Hnc Hp. split; [by apply shuffleList_perm|by apply shuffleList_order]. Qed.

(** a node that is in both lists of leaving nodes is kept in the first one
    only, and no other node is dropped. *)
Lemma removeDuplicates_exact unstake additional k :
  k ∈ keys (removeDuplicates unstake additional) ↔ k ∈ keys additional ∧ k ∉ keys unstake.
Proof.
  destruct (removeDuplicates_spec unstake additional) as (X & Hp & HX & Hno).
  assert (k ∈ keys additional ↔
    k ∈ keys (removeDuplicates unstake additional) ∨ k ∈ keys X) as ->.
  { by rewrite -elem_of_app -keys_app Hp. }
  split.
  - intros Hk. split; [by left|by apply Hno].
  - intros [[?|?%HX] ?]; done.
Qed.

(** the configuration used in an epoch is the latest one that is enabled by
    then, whatever order the configurations were given in. *)
Lemma UpdateShufflerConfig_latest between configs flags ep2 ep3 epoch cp :
  let active := activeNodesConfig (UpdateShufflerConfig epoch cp
    (NewHashValidatorsShuffler between configs flags ep2 ep3)) in
  (∃ c, c ∈ configs ∧ (EpochEnable c ≤ epoch)%Z) →
  active ∈ configs ∧ (EpochEnable active ≤ epoch)%Z ∧
  ∀ c, c ∈ configs → (EpochEnable c ≤ epoch)%Z → (EpochEnable c ≤ EpochEnable active)%Z.
Proof.
  intros active Hex. destruct (latest_config (sortConfigs configs) epoch
    {| EpochEnable := 0; MaxNumNodes := 0; NodesToShufflePerShard := ShardMinNumNodes cp |})
    as (Hin & Hle & Hmax).
  - apply Sorted_StronglySorted; [intros ???; apply Z.le_trans|].
    apply Sorted_merge_sort. intros ??. apply Z.le_total.
  - destruct Hex as (c & ? & ?). exists c. by rewrite elem_of_sortConfigs.
  - rewrite elem_of_sortConfigs in Hin. split; [done|]. split; [done|].
    intros c. rewrite -elem_of_sortConfigs. apply Hmax.
Qed.
End properties.

(** ** The properties on the concrete network *)
#[local] Ltac vm_decide := eapply bool_decide_unpack; vm_compute; exact I.
Lemma demo_valid : validUpdate (HA := idHasher) demoArgs demoShuffler.
Proof.
  split; try (vm_compute; intuition congruence).
  - vm_decide.
  - vm_decide.
  - vm_decide.
  - apply noCollision_id. vm_decide.
Qed.
Lemma demo_ret : ∃ res,
  UpdateNodeLists (HA := idHasher) (MO := ascending) demoArgs demoShuffler =
    (Ret res, atEpoch demoArgs demoShuffler).
Proof. eexists. vm_compute. reflexivity. Qed.

#[local] Existing Instance idHasher.
#[local] Existing Instance ascending.

Lemma UpdateNodeLists_conserves_witness : ∃ res rhs',
  UpdateNodeLists demoArgs demoShuffler = (Ret res, rhs') ∧ ∃ removed pending joined,
    nodesOf (Eligible res) ++ nodesOf (Waiting res) ++ pending ++ removed
      ≡ₚ (nodesOf demoEligible ++ nodesOf demoWaiting) ++ [] ++ joined ∧
    (joined = argAuction demoArgs ∨ joined = [] ∧ rhsStakingV4Step3 rhs' = false) ∧
    (pending = [] ∨ pending = nodesOf (ShuffledOut res) ∧ rhsStakingV4Step2 rhs' = true) ∧
    (∀ k, k ∈ keys removed ↔ k ∈ keys (Leaving res) ∧
       k ∈ keys (nodesOf demoEligible ++ nodesOf demoWaiting)) ∧
    (∀ k, k ∈ keys (StillRemaining res) →
       k ∈ keys (argUnStakeLeaving demoArgs ++ argAdditionalLeaving demoArgs) ∧
       k ∈ keys (nodesOf (Eligible res) ++ nodesOf (Waiting res) ++ pending)).
Proof.
  destruct demo_ret as [res Heq]. exists res, (atEpoch demoArgs demoShuffler). split; [exact Heq|].
  exact (UpdateNodeLists_conserves demoArgs demoShuffler res _ demo_valid Heq).
Defined.

Lemma UpdateNodeLists_keeps_shards_manned_witness : ∃ res rhs',
  UpdateNodeLists demoArgs demoShuffler = (Ret res, rhs') ∧
  (2 ≤ len (Eligible res) 0 ∧ 2 ≤ len (Eligible res) MetachainShardId)%Z.
Proof.
  destruct demo_ret as [res Heq]. exists res, (atEpoch demoArgs demoShuffler). split; [exact Heq|].
  split.
  - apply (UpdateNodeLists_keeps_shards_manned demoArgs demoShuffler res _ 0 demo_valid Heq).
    + discriminate.
    + left. vm_compute. intuition congruence.
  - apply (UpdateNodeLists_keeps_shards_manned demoArgs demoShuffler res _ MetachainShardId
      demo_valid Heq); [discriminate|by right].
Defined.

Lemma UpdateNodeLists_bounded_churn_witness : ∃ res rhs',
  UpdateNodeLists demoArgs demoShuffler = (Ret res, rhs') ∧
  ∃ kept, kept ⊆+ [demoNode x01; demoNode x02; demoNode x03] ∧ kept ⊆+ listOf (Eligible res) 0 ∧
    (3 - 1 ≤ Z.of_nat (length kept))%Z.
Proof.
  destruct demo_ret as [res Heq]. exists res, (atEpoch demoArgs demoShuffler). split; [exact Heq|].
  exact (UpdateNodeLists_bounded_churn demoArgs demoShuffler res _ 0 demo_valid Heq).
Defined.

Lemma UpdateNodeLists_deterministic_witness :
  UpdateNodeLists (MO := ascending) demoArgs demoShuffler =
  UpdateNodeLists (MO := descending) demoArgs demoShuffler.
Proof. exact (UpdateNodeLists_deterministic ascending descending demoArgs demoShuffler demo_valid). Defined.

Lemma UpdateNodeLists_succeeds_witness :
  ((∃ res, UpdateNodeLists demoArgs demoShuffler = (Ret res, atEpoch demoArgs demoShuffler)) ↔
     mayShuffle (shuffleOf demoArgs demoShuffler)) ∧
  (¬ mayShuffle (shuffleOf demoArgs demoShuffler) →
   ∃ err, UpdateNodeLists demoArgs demoShuffler = (Throw err, atEpoch demoArgs demoShuffler)).
Proof. exact (UpdateNodeLists_succeeds demoArgs demoShuffler demo_valid). Defined.

Lemma distributeValidators_balanced_witness : ∃ m',
  distributeValidators demoWaiting (argAuction demoArgs) [xaa] true = inr m' ∧
  dom m' = dom demoWaiting ∧ nodesOf m' ≡ₚ nodesOf demoWaiting ++ argAuction demoArgs ∧
  (∀ s t, s ∈ dom demoWaiting → t ∈ dom demoWaiting →
    len m' s ≤ Z.max (getMaxListSize demoWaiting) (len m' t + 1))%Z.
Proof.
  apply (distributeValidators_balanced demoWaiting (argAuction demoArgs) [xaa]).
  - intros H. apply (f_equal (lookup 0%Z)) in H. vm_compute in H. discriminate.
  - apply noCollision_id. vm_decide.
  - vm_compute. reflexivity.
  - vm_compute. reflexivity.
Defined.

