(* ===== verification/Sums.v ===== *)
(** * Sums: sums over finite maps, and the bytes of big integers

    [mapSum f m] adds [f k x] over the entries of a map, [listSum] over a
    list; [bigBytes] is inverted by [setBytes]. *)
From S2P Require Import Prelude.
#[local] Open Scope Z_scope.

(** ** Sums over lists *)
Definition listSum {A} (f : A → Z) (l : list A) : Z := foldr (λ x t, f x + t) 0 l.

Lemma listSum_app {A} (f : A → Z) l l' : listSum f (l ++ l') = listSum f l + listSum f l'.
Proof. induction l as [|x l IH]; simpl; [done|]. lia. Qed.
Lemma listSum_ext {A} (f g : A → Z) l : (∀ x, x ∈ l → f x = g x) → listSum f l = listSum g l.
Proof.
  induction l as [|x l IH]; intros Hfg; simpl; [done|].
  rewrite (Hfg x) ?IH; [done|set_solver..].
Qed.
Lemma listSum_nonneg {A} (f : A → Z) l : (∀ x, x ∈ l → 0 ≤ f x) → 0 ≤ listSum f l.
Proof.
  induction l as [|x l IH]; intros Hf; simpl; [done|].
  pose proof (Hf x ltac:(set_solver)). pose proof (IH ltac:(set_solver)). lia.
Qed.
#[export] Instance listSum_perm {A} (f : A → Z) : Proper ((≡ₚ) ==> (=)) (listSum f).
Proof. intros l l'. induction 1; simpl; lia. Qed.

(** ** Sums over maps *)
Section map_sum.
Context {K A : Type} `{Countable K}.
Implicit Types (m : gmap K A) (f g : K → A → Z).

Definition mapSum f m : Z := map_fold (λ k x t, f k x + t) 0 m.

Lemma mapSum_empty f : mapSum f ∅ = 0.
Proof. apply map_fold_empty. Qed.
Lemma mapSum_new f m k x : m !! k = None → mapSum f (<[k := x]> m) = f k x + mapSum f m.
Proof. intros Hk. unfold mapSum. rewrite map_fold_insert_L //. intros; lia. Qed.
Lemma mapSum_delete f m k x : m !! k = Some x → mapSum f (delete k m) = mapSum f m - f k x.
Proof.
  intros Hk. rewrite -{2}(insert_delete_id m k x) // mapSum_new ?lookup_delete_eq //. lia.
Qed.
Lemma mapSum_insert f m k x y :
  m !! k = Some x → mapSum f (<[k := y]> m) = mapSum f m - f k x + f k y.
Proof.
  intros Hk. rewrite -(insert_delete_eq m) mapSum_new ?lookup_delete_eq //.
  rewrite (mapSum_delete _ _ _ x) //. lia.
Qed.
Lemma mapSum_le f g m : (∀ k x, m !! k = Some x → f k x ≤ g k x) → mapSum f m ≤ mapSum g m.
Proof.
  induction m as [|k x m Hk IH] using map_ind; intros Hfg; [by rewrite !mapSum_empty|].
  rewrite !mapSum_new //. pose proof (Hfg k x). rewrite lookup_insert_eq in H0.
  assert (mapSum f m ≤ mapSum g m); [|specialize (H0 eq_refl); lia].
  apply IH. intros k' x' Hk'. apply Hfg. rewrite lookup_insert_ne //. congruence.
Qed.
Lemma mapSum_ext f g m : (∀ k x, m !! k = Some x → f k x = g k x) → mapSum f m = mapSum g m.
Proof.
  intros Hfg. apply Z.le_antisymm; apply mapSum_le; intros k x Hk; rewrite (Hfg k x) //.
Qed.
Lemma mapSum_zero f m : (∀ k x, m !! k = Some x → f k x = 0) → mapSum f m = 0.
Proof.
  intros Hf. rewrite (mapSum_ext f (λ _ _, 0)) //. clear.
  induction m as [|k x m Hk IH] using map_ind; [apply mapSum_empty|]. by rewrite mapSum_new.
Qed.
Lemma mapSum_nonneg f m : (∀ k x, m !! k = Some x → 0 ≤ f k x) → 0 ≤ mapSum f m.
Proof. intros Hf. rewrite -(mapSum_zero (λ _ _, 0) m) //. by apply mapSum_le. Qed.
Lemma mapSum_add f g m : mapSum (λ k x, f k x + g k x) m = mapSum f m + mapSum g m.
Proof.
  induction m as [|k x m Hk IH] using map_ind; [by rewrite !mapSum_empty|].
  rewrite !mapSum_new //. lia.
Qed.
Lemma mapSum_mul c f m : mapSum (λ k x, c * f k x) m = c * mapSum f m.
Proof.
  induction m as [|k x m Hk IH] using map_ind; [rewrite !mapSum_empty; lia|].
  rewrite !mapSum_new //. lia.
Qed.
(** one entry is at most the sum *)
Lemma mapSum_lookup f m k x :
  (∀ k x, m !! k = Some x → 0 ≤ f k x) → m !! k = Some x → f k x ≤ mapSum f m.
Proof.
  intros Hf Hk. rewrite -(insert_delete_id m k x) // mapSum_new ?lookup_delete_eq //.
  assert (0 ≤ mapSum f (delete k m)); [|lia]. apply mapSum_nonneg.
  intros k' x' [_ Hk']%lookup_delete_Some. eauto.
Qed.
(** a function that is not zero at one key only *)
Lemma mapSum_single f m k :
  (∀ k' x, m !! k' = Some x → k' ≠ k → f k' x = 0) →
  mapSum f m = match m !! k with Some x => f k x | None => 0 end.
Proof.
  intros Hf. destruct (m !! k) as [x|] eqn:Hk.
  - rewrite -(insert_delete_id m k x) // mapSum_new ?lookup_delete_eq // mapSum_zero; [lia|].
    intros k' x' [? Hk']%lookup_delete_Some. by apply Hf.
  - apply mapSum_zero. intros k' x Hk'. apply Hf; congruence.
Qed.
End map_sum.

(** the sum over two maps does not depend on the order *)
Lemma mapSum_swap {K L A B} `{Countable K, Countable L} (f : K → A → L → B → Z)
    (m : gmap K A) (n : gmap L B) :
  mapSum (λ k x, mapSum (f k x) n) m = mapSum (λ l y, mapSum (λ k x, f k x l y) m) n.
Proof.
  induction m as [|k x m Hk IH] using map_ind.
  - rewrite mapSum_empty. symmetry. apply mapSum_zero. intros. apply mapSum_empty.
  - rewrite mapSum_new // IH -mapSum_add. apply mapSum_ext. intros. by rewrite mapSum_new.
Qed.

(** ** Bytes of big integers *)
Lemma bigDiv_pos x t : 0 < t → bigDiv x t = x / t.
Proof. intros Ht. unfold bigDiv. rewrite Z.sgn_pos // Z.abs_eq; lia. Qed.
Lemma bigDiv_nonneg x t : 0 ≤ x → 0 < t → 0 ≤ bigDiv x t.
Proof. intros Hx Ht. rewrite bigDiv_pos //. by apply Z.div_pos. Qed.
Lemma setBytes_app b b' : setBytes (b ++ b') = setBytes b * 256 ^ Z.of_nat (length b') + setBytes b'.
Proof.
  assert (∀ l acc, foldl (λ acc x, acc * 256 + Z.of_N (Byte.to_N x)) acc l
    = acc * 256 ^ Z.of_nat (length l) + setBytes l) as Hf.
  { unfold setBytes. induction l as [|x l IH]; intros acc; simpl foldl; [simpl; lia|].
    rewrite IH (IH (0 * 256 + _)). simpl length. rewrite Nat2Z.inj_succ Z.pow_succ_r; [ring|lia]. }
  unfold setBytes at 1. by rewrite foldl_app Hf.
Qed.
Lemma setBytes_nonneg b : 0 ≤ setBytes b.
Proof.
  induction b as [|x b IH] using rev_ind; [done|]. rewrite setBytes_app.
  unfold setBytes at 2. simpl. lia.
Qed.

Lemma bytesAux_spec fuel n acc :
  (n < 2 ^ N.of_nat fuel)%N →
  setBytes (bytesAux fuel n acc) = Z.of_N n * 256 ^ Z.of_nat (length acc) + setBytes acc.
Proof.
  revert n acc. induction fuel as [|fuel IH]; intros n acc Hn; simpl bytesAux.
  - replace n with 0%N by (change (2 ^ N.of_nat 0)%N with 1%N in Hn; lia). simpl. lia.
  - destruct (N.eqb_spec n 0) as [->|Hn0]; [simpl; lia|].
    rewrite IH; [|rewrite Nat2N.inj_succ N.pow_succ_r' in Hn; apply N.Div0.div_lt_upper_bound; lia].
    pose proof (N.mod_lt n 256 ltac:(done)) as Hm.
    destruct (Byte.of_N (n mod 256)) as [x|] eqn:Hx; [|apply Byte.of_N_None_iff in Hx; lia].
    apply Byte.to_of_N in Hx. rewrite (setBytes_app [x] acc).
    change (setBytes [x]) with (0 * 256 + Z.of_N (Byte.to_N x)). rewrite Hx.
    simpl length. rewrite Nat2Z.inj_succ Z.pow_succ_r; [|lia].
    pose proof (f_equal Z.of_N (N.div_mod n 256 ltac:(done))) as Hdm.
    rewrite N2Z.inj_add N2Z.inj_mul in Hdm. rewrite {}Hdm.
    change (Z.of_N 256) with 256. ring.
Qed.

Lemma setBytes_bigBytes z : 0 ≤ z → setBytes (bigBytes z) = z.
Proof.
  intros Hz. unfold bigBytes. rewrite bytesAux_spec; [simpl; unfold setBytes; simpl; lia|].
  destruct (N.eq_dec (Z.abs_N z) 0%N) as [->|Hz0]; [done|].
  rewrite Nat2N.inj_succ N2Nat.id. apply N.log2_spec. lia.
Qed.
Lemma bigBytes_inj x y : 0 ≤ x → 0 ≤ y → bigBytes x = bigBytes y → x = y.
Proof. intros Hx Hy Hxy. by rewrite -(setBytes_bigBytes x) // Hxy setBytes_bigBytes. Qed.

Lemma bytesAux_length k fuel n acc :
  (n < 256 ^ N.of_nat k)%N → (length (bytesAux fuel n acc) ≤ k + length acc)%nat.
Proof.
  revert k n acc. induction fuel as [|fuel IH]; intros k n acc Hn; simpl; [lia|].
  destruct (N.eqb_spec n 0) as [->|Hn0]; [lia|]. destruct k as [|k].
  - change (256 ^ N.of_nat 0)%N with 1%N in Hn. lia.
  - etrans; [apply (IH k)|simpl; lia].
    rewrite Nat2N.inj_succ N.pow_succ_r' in Hn. apply N.Div0.div_lt_upper_bound; lia.
Qed.
Lemma bigBytes_length k z : 0 ≤ z < 256 ^ Z.of_nat k → (length (bigBytes z) ≤ k)%nat.
Proof.
  intros Hz. unfold bigBytes. etrans; [apply (bytesAux_length k)|simpl; lia].
  apply N2Z.inj_lt. rewrite N2Z.inj_pow nat_N_Z. lia.
Qed.
Lemma bigBytes_nonempty z : 0 < z → bigBytes z ≠ [].
Proof. intros Hz Hb. pose proof (setBytes_bigBytes z). rewrite Hb in H. change (setBytes []) with 0 in H. lia. Qed.
