(* ===== verification/DelegationData.v ===== *)
(** * DelegationData: the delegation contract's stored data

    The messages of delegation.proto, the fields of the struct [delegation]
    and the functions of delegation.go that load and save records, with the
    log entries of logs.go.  A [*big.Int] that may be nil is an option, and
    [deref] its use. *)
From Stdlib Require Import Floats.SpecFloat.
From S2P Require Import Prelude SystemEI StakingData.
#[local] Open Scope go_scope.

(** ** Messages (delegation.proto) *)
Record DelegationManagement : Type := mkManagement {
  NumOfContracts : Z;
  LastAddress : bytes;
  MinServiceFee : Z;
  MaxServiceFee : Z;
  MinDeposit : option Z;
  MinDelegationAmount : option Z;
}.
Record DelegationConfig : Type := mkDelegationConfig {
  MaxDelegationCap : option Z;
  InitialOwnerFunds : option Z;
  AutomaticActivation : bool;
  ChangeableServiceFee : bool;
  CreatedNonce : Z;
  UnBondPeriodInEpochs : Z;
  CheckCapOnReDelegateRewards : bool;
}.
Record DelegationMetaData : Type := mkMetaData {
  Name : bytes;
  Website : bytes;
  MetaIdentifier : bytes;
}.
Record NodesData : Type := mkNode {
  BLSKey : bytes;
  SignedMsg : bytes;
}.
Record DelegationContractStatus : Type := mkStatus {
  StakedKeys : list NodesData;
  NotStakedKeys : list NodesData;
  UnStakedKeys : list NodesData;
  NumUsers : Z;
}.
Record Fund : Type := mkFund {
  FundValue : option Z;
  FundAddress : bytes;
  FundEpoch : Z;
  FundType : Z;
}.
Record DelegatorData : Type := mkDelegator {
  ActiveFund : bytes;
  UnStakedFunds : list bytes;
  RewardsCheckpoint : Z;
  UnClaimedRewards : option Z;
  TotalCumulatedRewards : option Z;
}.
Record GlobalFundData : Type := mkGlobalFund {
  TotalActive : option Z;
  TotalUnStaked : option Z;
}.
Record RewardComputationData : Type := mkRewardData {
  RewardsToDistribute : option Z;
  RewardTotalActive : option Z;
  ServiceFee : Z;
}.

(** the values [&T{}] that [Unmarshal] fills *)
Definition zeroManagement : DelegationManagement := mkManagement 0 [] 0 0 None None.
Definition zeroDelegationConfig : DelegationConfig := mkDelegationConfig None None false false 0 0 false.
Definition zeroMetaData : DelegationMetaData := mkMetaData [] [] [].
Definition zeroStatus : DelegationContractStatus := mkStatus [] [] [] 0.
Definition zeroFund : Fund := mkFund None [] 0 0.
Definition zeroGlobalFund : GlobalFundData := mkGlobalFund None None.
Definition zeroRewardData : RewardComputationData := mkRewardData None None 0.

(** ** Field updates: the assignments [d.F = v] of the code *)
Definition withMaxDelegationCap v (c : DelegationConfig) :=
  let 'mkDelegationConfig m i a s n u k := c in mkDelegationConfig v i a s n u k.
Definition withInitialOwnerFunds v (c : DelegationConfig) :=
  let 'mkDelegationConfig m i a s n u k := c in mkDelegationConfig m v a s n u k.
Definition withAutomaticActivation v (c : DelegationConfig) :=
  let 'mkDelegationConfig m i a s n u k := c in mkDelegationConfig m i v s n u k.
Definition withCheckCapOnReDelegateRewards v (c : DelegationConfig) :=
  let 'mkDelegationConfig m i a s n u k := c in mkDelegationConfig m i a s n u v.
Definition withStakedKeys v (s : DelegationContractStatus) :=
  let 'mkStatus st ns us n := s in mkStatus v ns us n.
Definition withNotStakedKeys v (s : DelegationContractStatus) :=
  let 'mkStatus st ns us n := s in mkStatus st v us n.
Definition withUnStakedKeys v (s : DelegationContractStatus) :=
  let 'mkStatus st ns us n := s in mkStatus st ns v n.
Definition withNumUsers v (s : DelegationContractStatus) :=
  let 'mkStatus st ns us n := s in mkStatus st ns us v.
Definition withFundValue v (f : Fund) :=
  let 'mkFund va ad ep ty := f in mkFund v ad ep ty.
Definition withActiveFund v (d : DelegatorData) :=
  let 'mkDelegator a u c r t := d in mkDelegator v u c r t.
Definition withUnStakedFunds v (d : DelegatorData) :=
  let 'mkDelegator a u c r t := d in mkDelegator a v c r t.
Definition withRewardsCheckpoint v (d : DelegatorData) :=
  let 'mkDelegator a u c r t := d in mkDelegator a u v r t.
Definition withUnClaimedRewards v (d : DelegatorData) :=
  let 'mkDelegator a u c r t := d in mkDelegator a u c v t.
Definition withTotalCumulatedRewards v (d : DelegatorData) :=
  let 'mkDelegator a u c r t := d in mkDelegator a u c r v.

(** ** The contract's parameters *)
Inductive DelegationFlag : Type :=
  | AddTokensToDelegationFlag
  | DelegationSmartContractFlag
  | ChangeDelegationOwnerFlag
  | ReDelegateBelowMinCheckFlag
  | DelegationValidatorToDelegationFlag
  | DeleteDelegatorAfterClaimRewardsFlag
  | ComputeRewardCheckpointFlag
  | StakingV2FlagAfterEpoch
  | FixDelegationChangeOwnerOnAccountFlag
  | DelegationMultiClaimFlag
  | AutomaticActivationOfNodesDisableFlag.

(** Go's float64 *)
Definition float64 : Type := spec_float.
Definition float64OfUint64 (z : Z) : float64 := binary_normalize 53 1024 z 0 false.
Definition float64Div (x y : float64) : float64 := SFdiv 53 1024 x y.

(** The fields of [delegation]; the flags are those of the epoch the call runs
    in.  The signature verifier, the percentages of mx-chain-core-go and the
    marshaller are third-party. *)
Class DelegationContract : Type := {
  delegationMgrSCAddress : bytes;
  stakingSCAddr : bytes;
  validatorSCAddr : bytes;
  endOfEpochAddr : bytes;
  addTokensAddr : bytes;
  gasDelegationOps : Z;
  gasStake : Z;
  gasGetAllNodeStates : Z;
  minServiceFee : Z;
  maxServiceFee : Z;
  unBondPeriodInEpochs : Z;
  nodePrice : Z;
  delegationFlag : DelegationFlag → bool;
  VerifySignature : bytes → bytes → bytes → error + unit;
  GetIntTrimmedPercentageOfValue : Z → float64 → Z;
  GetApproximatePercentageOfValue : Z → float64 → Z;
  DelegationSystemSCKey : bytes;
  BuiltInFunctionChangeOwnerAddress : bytes;
  management_marshaller :: Marshaller DelegationManagement;
  delegationConfig_marshaller :: Marshaller DelegationConfig;
  metaData_marshaller :: Marshaller DelegationMetaData;
  status_marshaller :: Marshaller DelegationContractStatus;
  fund_marshaller :: Marshaller Fund;
  delegator_marshaller :: Marshaller DelegatorData;
  globalFund_marshaller :: Marshaller GlobalFundData;
  rewardData_marshaller :: Marshaller RewardComputationData;
  registration_marshaller :: Marshaller StakedDataV2_0;
  validator_marshaller :: Marshaller ValidatorDataV2;
}.

(** src/vm/address.go *)
Definition scAddressOf (tail : bytes) : bytes :=
  replicate 9 x00 ++ [x01] ++ replicate (22 - length tail) x00 ++ tail.
Definition DelegationManagerSCAddress : bytes := scAddressOf [x04; xff; xff].
Definition FirstDelegationSCAddress : bytes := scAddressOf [x01; xff; xff; xff].

Definition delegationConfigKey : bytes := toBytes "delegationConfig".
Definition delegationStatusKey : bytes := toBytes "delegationStatus".
Definition delegationMetaData : bytes := toBytes "delegationMetaData".
Definition lastFundKey : bytes := toBytes "lastFund".
Definition globalFundKey : bytes := toBytes "globalFund".
Definition serviceFeeKey : bytes := toBytes "serviceFee".
Definition totalActiveKey : bytes := toBytes "totalActive".
Definition rewardKeyPrefix : bytes := toBytes "reward".
Definition fundKeyPrefix : bytes := toBytes "fund".
Definition whitelistedAddress : bytes := toBytes "whitelistedAddress".
Definition delegationManagementKey : bytes := toBytes "delegationManagement".
Definition maxNumOfUnStakedFunds : nat := 50.
Definition numberOfNodesTooHigh : string := "number of nodes too high, no new nodes activated".

Definition active : Z := 0.
Definition unStaked : Z := 1.
Definition notStaked : Z := 2.

(** vm/errors.go *)
Definition ErrDataNotFoundUnderKey : error := "data was not found under requested key".
Definition ErrEmptyStorage : error := "storage is nil for given key".
Definition ErrNotEnoughGas : error := "not enough gas".
Definition ErrCallValueMustBeZero : error := "call value must be zero".
Definition ErrInvalidNumOfArguments : error := "invalid number of arguments".
Definition ErrDuplicatesFoundInArguments : error := "duplicates found in arguments".
Definition ErrBLSPublicKeyMismatch : error := "public key mismatch".
Definition ErrInvalidBLSKeys : error := "invalid bls keys".
Definition ErrOwnerCannotUnDelegate : error := "owner cannot undelegate, contract still active".
Definition ErrNotEnoughInitialOwnerFunds : error := "not enough initial owner funds".
Definition ErrRedelegateValueBelowMinimum : error :=
  "can not re-delegate as the remaining value will be below the minimum required".

(** the use of a [*big.Int] *)
Definition deref {S X} (v : option Z) : M S X Z :=
  match v with Some z => ret z | None => panic end.

Section data.
Context {E : Type} {EI : SystemEI E} {DC : DelegationContract}.

(** [if err := UseGas(g); err != nil { AddReturnMessage(err.Error()); return OutOfGas }] *)
Definition useGas (g : Z) : M E ReturnCode unit := λ e,
  match UseGas g e with
  | None => (addReturnMessage ErrNotEnoughGas ;;; throw OutOfGas) e
  | Some e' => (Ret tt, e')
  end.
Definition transfer {X} (destination sender : bytes) (value : Z) : M E X unit := λ e,
  match Transfer destination sender value [] 0 e with
  | None => (Panic, e)
  | Some e' => (Ret tt, e')
  end.
Definition currentEpoch {X} : M E X Z := gets (λ e, CurrentEpoch (hookOf e)).
Definition readStorage {X} (key : bytes) : M E X bytes := gets (λ e, orEmpty (GetStorage key e)).
Definition readStorageFrom {X} (address key : bytes) : M E X bytes :=
  gets (λ e, orEmpty (GetStorageFromAddress address key e)).

(** ** Loading and saving *)
Definition getDelegationManagement : M E error DelegationManagement :=
  let! marshaledData := readStorageFrom delegationMgrSCAddress delegationManagementKey in
  match marshaledData with
  | [] => throw (ErrDataNotFoundUnderKey ++ " getDelegationManagementData")%string
  | _ => fromSum (Unmarshal zeroManagement marshaledData)
  end.

Definition getDelegationContractConfig : M E error DelegationConfig :=
  let! marshaledData := readStorage delegationConfigKey in
  match marshaledData with
  | [] => throw (ErrDataNotFoundUnderKey ++ " delegation contract config")%string
  | _ => fromSum (Unmarshal zeroDelegationConfig marshaledData)
  end.

Definition saveDelegationContractConfig (dConfig : DelegationConfig) : M E error unit :=
  let! marshaledData := fromSum (Marshal dConfig) in
  setStorage delegationConfigKey marshaledData.

Definition getDelegationStatus : M E error DelegationContractStatus :=
  let! marshaledData := readStorage delegationStatusKey in
  match marshaledData with
  | [] => throw (ErrDataNotFoundUnderKey ++ " delegation status")%string
  | _ => fromSum (Unmarshal zeroStatus marshaledData)
  end.

Definition saveDelegationStatus (status : DelegationContractStatus) : M E error unit :=
  let! marshaledData := fromSum (Marshal status) in
  setStorage delegationStatusKey marshaledData.

Definition newDelegator : DelegatorData := mkDelegator [] [] 0 (Some 0%Z) (Some 0%Z).

(** [isNew] and the data *)
Definition getOrCreateDelegatorData (address : bytes) : M E error (bool * DelegatorData) :=
  let! marshaledData := readStorage address in
  match marshaledData with
  | [] => ret (true, newDelegator)
  | _ =>
    let! dData := fromSum (Unmarshal newDelegator marshaledData) in
    ret (false, dData)
  end.

Definition saveDelegatorData (address : bytes) (dData : DelegatorData) : M E error unit :=
  let! marshaledData := fromSum (Marshal dData) in
  setStorage address marshaledData.

Definition getFund (key : bytes) : M E error Fund :=
  let! marshaledData := readStorage key in
  match marshaledData with
  | [] => throw (ErrDataNotFoundUnderKey ++ (" getFund " ++ ofBytes key))%string
  | _ => fromSum (Unmarshal zeroFund marshaledData)
  end.

Definition saveFund (key : bytes) (dFund : Fund) : M E error unit :=
  let! value := deref (FundValue dFund) in
  if (value =? 0)%Z then setStorage key []
  else
    let! marshaledData := fromSum (Marshal dFund) in
    setStorage key marshaledData.

Definition createNextKeyFund (address : bytes) (value fundType : Z) (e : E) : bytes * Fund :=
  let lastKey := orEmpty (GetStorage lastFundKey e) in
  let nextKey := if length fundKeyPrefix <? length lastKey
                 then (setBytes (drop (length fundKeyPrefix) lastKey) + 1)%Z else 1%Z in
  (fundKeyPrefix ++ bigBytes nextKey,
   mkFund (Some value) address (CurrentEpoch (hookOf e)) fundType).

Definition createAndSaveNextKeyFund (address : bytes) (value fundType : Z) : M E error bytes :=
  let! ' (fundKey, fund) := gets (createNextKeyFund address value fundType) in
  saveFund fundKey fund ;;;
  setStorage lastFundKey fundKey ;;;
  ret fundKey.

Definition addValueToFund (key : bytes) (value : Z) : M E error unit :=
  let! fund := getFund key in
  let! fundValue := deref (FundValue fund) in
  saveFund key (withFundValue (Some (fundValue + value)%Z) fund).

Definition getGlobalFundData : M E error GlobalFundData :=
  let! marshaledData := readStorage globalFundKey in
  match marshaledData with
  | [] => throw (ErrDataNotFoundUnderKey ++ " getGlobalFundData")%string
  | _ => fromSum (Unmarshal zeroGlobalFund marshaledData)
  end.

Definition saveGlobalFundData (globalFundData : GlobalFundData) : M E error unit :=
  let! marshaledData := fromSum (Marshal globalFundData) in
  setStorage globalFundKey marshaledData ;;;
  let! totalActive := deref (TotalActive globalFundData) in
  setStorage totalActiveKey (bigBytes totalActive).

Definition rewardKeyForEpoch (epoch : Z) : bytes := rewardKeyPrefix ++ bigBytes epoch.

(** [None]: no reward in that epoch *)
Definition getRewardComputationData (epoch : Z) : M E error (option RewardComputationData) :=
  let! marshaledData := readStorage (rewardKeyForEpoch epoch) in
  match marshaledData with
  | [] => ret None
  | _ =>
    let! rewardsData := fromSum (Unmarshal zeroRewardData marshaledData) in
    ret (Some rewardsData)
  end.

Definition saveRewardData (epoch : Z) (rewardsData : RewardComputationData) : M E error unit :=
  let! marshaledData := fromSum (Marshal rewardsData) in
  setStorage (rewardKeyForEpoch epoch) marshaledData.

Definition isOwner (address : bytes) (e : E) : bool :=
  bool_decide (address = orEmpty (GetStorage ownerKey e)).

Definition getBLSKeyStatus (key : bytes) : M E error Z :=
  let! data := readStorageFrom stakingSCAddr key in
  match data with
  | [] => throw ErrEmptyStorage
  | _ =>
    let! stakedData := fromSum (Unmarshal
      (mkStakedData 0 0 false 0 0 [] None 0 0 0 false false 0 None []) data) in
    ret (if Staked stakedData || Waiting stakedData || Jailed stakedData then active else unStaked)
  end.

Definition getValidatorData (address : bytes) : M E error ValidatorDataV2 :=
  let! marshaledData := readStorageFrom validatorSCAddr address in
  match marshaledData with
  | [] => throw ErrEmptyStorage
  | _ => fromSum (Unmarshal zeroValidatorData marshaledData)
  end.

(** ** Calls of the validator contract *)
Definition executeOnValidatorSC (address : bytes) (function : string) (args : list bytes)
    (value : Z) : M E error CallOutput :=
  let validatorCall := foldl (λ call key, call ++ ("@" ++ hexString key))%string function args in
  catch (ExecuteOnDestContext validatorSCAddr address value (toBytes validatorCall))
    (λ err, addReturnMessage err ;;; throw err).

(** [if vmOutput.ReturnCode != Ok { return vmOutput.ReturnCode }] after the error test *)
Definition callValidator (address : bytes) (function : string) (args : list bytes) (value : Z) :
    M E ReturnCode CallOutput :=
  let! vmOutput := orReturn (executeOnValidatorSC address function args value) "" UserError in
  returnQuietIf (negb (bool_decide (outReturnCode vmOutput = Ok))) (outReturnCode vmOutput) ;;;
  ret vmOutput.

(** ** Log entries (logs.go) *)
Definition createAndAddLogEntryCustom {X} (identifier : bytes) (address : bytes)
    (topics : list bytes) : M E X unit :=
  modify (AddLogEntry (mkLog identifier address topics [])).

Definition createAndAddLogEntry {X} (args : ContractCallInput) (topics : list bytes) : M E X unit :=
  createAndAddLogEntryCustom (toBytes (Function args)) (callerOf args) topics.

Definition boolToSlice (b : bool) : bytes := toBytes (if b then "true" else "false").

Definition getFundForLogEntry {X} (activeFund : bytes) : M E X Z :=
  match activeFund with
  | [] => ret 0%Z
  | _ =>
    let! fund := attempt (getFund activeFund) in
    match fund with
    | inl _ => ret 0%Z
    | inr fund => deref (FundValue fund)
    end
  end.

Definition createAndAddLogEntryForWithdraw {X} (function : string) (address : bytes)
    (actualUserUnBond : Z) (globalFund : GlobalFundData) (delegator : DelegatorData)
    (numUsers : Z) (wasDeleted : bool) (withdrawFundKeys : list bytes) : M E X unit :=
  let! activeFund := getFundForLogEntry (ActiveFund delegator) in
  let! totalActive := deref (TotalActive globalFund) in
  createAndAddLogEntryCustom (toBytes function) address
    ([bigBytes actualUserUnBond; bigBytes activeFund; bigBytes numUsers; bigBytes totalActive;
      boolToSlice wasDeleted] ++ withdrawFundKeys).

Definition createAndAddLogEntryForDelegate {X} (args : ContractCallInput) (delegationValue : Z)
    (globalFund : GlobalFundData) (delegator : DelegatorData)
    (dStatus : DelegationContractStatus) (isNew : bool) : M E X unit :=
  let numUsers := if isNew then u64 (NumUsers dStatus + 1) else NumUsers dStatus in
  let! activeFund := getFundForLogEntry (ActiveFund delegator) in
  let! totalActive := deref (TotalActive globalFund) in
  let address :=
    if bool_decide (Function args = "initFromValidatorData")
       || bool_decide (Function args = "mergeValidatorDataToDelegation")
       || bool_decide (Function args = "changeOwner")
    then arg args 0 else callerOf args in
  createAndAddLogEntryCustom (toBytes "delegate") address
    [bigBytes delegationValue; bigBytes (activeFund + delegationValue)%Z; bigBytes numUsers;
     bigBytes (totalActive + delegationValue)%Z; recipientOf args].

Definition numUsers {X} : M E X Z :=
  let! dStatus := attempt getDelegationStatus in
  ret (match dStatus with inl _ => 0%Z | inr dStatus => NumUsers dStatus end).

Definition createLogEventsForChangeOwner {X} (args : ContractCallInput)
    (ownerDelegatorData : DelegatorData) : M E X unit :=
  let! globalFund := attempt getGlobalFundData in
  let globalFund := match globalFund with
                    | inl _ => mkGlobalFund (Some 0%Z) None
                    | inr globalFund => globalFund
                    end in
  let! dStatus := attempt getDelegationStatus in
  let dStatus := match dStatus with inl _ => zeroStatus | inr dStatus => dStatus end in
  createAndAddLogEntryForDelegate args 0 globalFund ownerDelegatorData dStatus false ;;;
  let! n := numUsers in
  createAndAddLogEntryForWithdraw "withdraw" (callerOf args) 0 globalFund ownerDelegatorData n
    true [] ;;;
  createAndAddLogEntryCustom BuiltInFunctionChangeOwnerAddress (recipientOf args) [arg args 0].
End data.
