(* ===== verification/Contract.v ===== *)
(** * Contract: what the verification of the system contracts shares

    [run] is the weakest precondition for the handlers: a call that is not
    answered [Ok] is reverted, so its exits are free, but a panic is not.  The
    classes [ContractHost], [HostLaws] and [TransferLaws] are the part of the host
    that the contracts that hold value rely on; [observing] replaces the balance
    by other money that the same lemmas are about. *)
From S2P Require Import Prelude SystemEI StakingData DelegationData.
#[local] Open Scope go_scope.

(** ** The host *)

(** The address the contract runs at, and the money that is observed: its own
    balance, or what a theorem counts instead of it.  [othersReady] is the
    invariant of the other contracts that this one calls (they are in states that
    they reach), [shared] are the contracts whose storage it may write. *)
Class ContractHost (E : Type) : Type := {
  selfAddress : E → bytes;
  balanceOf : E → Z;
  othersReady : E → Prop;
  shared : bytes → Prop;
}.

(** nothing the contract can read changes, but its balance *)
Record sameButBalance {E} `{SystemEI E, ContractHost E} (e e' : E) : Prop := {
  sm_own k : GetStorage k e' = GetStorage k e;
  sm_others a k : GetStorageFromAddress a k e' = GetStorageFromAddress a k e;
  sm_hook : hookOf e' = hookOf e;
  sm_self : selfAddress e' = selfAddress e;
  sm_ready : othersReady e → othersReady e';
}.
Definition same {E} `{SystemEI E, ContractHost E} (e e' : E) : Prop :=
  sameButBalance e e' ∧ balanceOf e' = balanceOf e.

(** all instructions but transfers *)
Class HostLaws (E : Type) `{SystemEI E, ContractHost E} : Prop := {
  same_msg m (e : E) : same e (AddReturnMessage m e);
  same_finish v (e : E) : same e (Finish v e);
  same_log l (e : E) : same e (AddLogEntry l e);
  same_gas g (e e' : E) : UseGas g e = Some e' → same e e';
  same_owner a (e e' : E) : SetOwnerOperatingOnAccount a e = inr e' → same e e';
  set_others k v a k' (e : E) : a ≠ selfAddress e →
    GetStorageFromAddress a k' (SetStorage k v e) = GetStorageFromAddress a k' e;
  set_self k v (e : E) : selfAddress (SetStorage k v e) = selfAddress e;
  set_balance k v (e : E) : balanceOf (SetStorage k v e) = balanceOf e;
  setFor_own a k v k' (e : E) : a ≠ selfAddress e →
    GetStorage k' (SetStorageForAddress a k v e) = GetStorage k' e;
  setFor_others a k v k' (e : E) : a ≠ selfAddress e → k' ≠ k →
    GetStorageFromAddress a k' (SetStorageForAddress a k v e) = GetStorageFromAddress a k' e;
  setFor_hook a k v (e : E) : hookOf (SetStorageForAddress a k v e) = hookOf e;
  setFor_self a k v (e : E) : selfAddress (SetStorageForAddress a k v e) = selfAddress e;
  setFor_balance a k v (e : E) : shared a → balanceOf (SetStorageForAddress a k v e) = balanceOf e;
  set_ready k v (e : E) : othersReady e → othersReady (SetStorage k v e);
  setFor_ready a k v (e : E) : shared a → othersReady e → othersReady (SetStorageForAddress a k v e);
}.
(** transfers of the contract to [d]; nothing is known about those to others *)
Class TransferLaws (d : bytes) (E : Type) `{SystemEI E, ContractHost E} : Prop := {
  transfer_same v (e e' : E) : d ≠ selfAddress e →
    Transfer d (selfAddress e) v [] 0 e = Some e' →
    sameButBalance e e' ∧ balanceOf e' = (balanceOf e - v)%Z;
  transfer_total v (e : E) : d ≠ selfAddress e → is_Some (Transfer d (selfAddress e) v [] 0 e);
}.
Class ContractHostLaws (E : Type) `{SystemEI E, ContractHost E} : Prop := {
  host_laws :: HostLaws E;
  transfer_laws d :: TransferLaws d E;
}.

(** the contract's own storage stays, and it runs at the same address *)
Record keptOwn {E} `{SystemEI E, ContractHost E} (e e' : E) : Prop := {
  ko_own k : GetStorage k e' = GetStorage k e;
  ko_self : selfAddress e' = selfAddress e;
}.
Lemma sameButBalance_keptOwn {E} `{SystemEI E, ContractHost E} (e e' : E) : sameButBalance e e' → keptOwn e e'.
Proof. intros []. by split. Qed.
Lemma same_keptOwn {E} `{SystemEI E, ContractHost E} (e e' : E) : same e e' → keptOwn e e'.
Proof. intros [Hs _]. by apply sameButBalance_keptOwn. Qed.

(** ** Running a handler *)
Definition run {S X A} (free : X → S → Prop) (m : M S X A) (Q : A → S → Prop) (s : S) : Prop :=
  wp m (λ o s', match o with Ret a => Q a s' | Throw x => free x s' | Panic => False end) s.

Section run_lemmas.
Context {S X : Type} (free : X → S → Prop).

Lemma run_ret {A} (a : A) Q s : Q a s → run free (ret a) Q s.
Proof. done. Qed.
Lemma run_throw {A} x (Q : A → S → Prop) s : free x s → run free (throw x) Q s.
Proof. done. Qed.
Lemma run_gets {A} (f : S → A) Q s : Q (f s) s → run free (gets f) Q s.
Proof. done. Qed.
Lemma run_modify (f : S → S) Q s : Q tt (f s) → run free (modify f) Q s.
Proof. done. Qed.
Lemma run_bind {A B} (m : M S X A) (k : A → M S X B) Q s :
  run free m (λ a s', run free (k a) Q s') s → run free (bind m k) Q s.
Proof. unfold run. intros Hm. apply wp_bind. eapply wp_mono; [exact Hm|]. by intros [a|x|]. Qed.
Lemma run_mono {A} (m : M S X A) (P Q : A → S → Prop) s :
  run free m P s → (∀ a s', P a s' → Q a s') → run free m Q s.
Proof. unfold run. intros Hm HPQ. eapply wp_mono; [exact Hm|]. intros [a|x|] s'; simpl; auto. Qed.
Lemma run_deref v z Q s : v = Some z → Q z s → run free (deref v) Q s.
Proof. by intros ->. Qed.
Lemma run_liftO {A} (o : outcome X A) a Q s : o = Ret a → Q a s → run free (liftO o) Q s.
Proof. by intros ->. Qed.
Lemma run_attempt {Y A} (m : M S Y A) Q s :
  run (λ x s', Q (inl x) s') m (λ a s', Q (inr a) s') s → run free (attempt m) Q s.
Proof.
  unfold run. intros Hm. apply wp_attempt. eapply wp_mono; [exact Hm|]. by intros [a|x|].
Qed.
Lemma run_eq {A} (m : M S X A) a s s' (Q : A → S → Prop) : m s = (Ret a, s') → Q a s' → run free m Q s.
Proof. unfold run, wp. by intros ->. Qed.
(** a loop keeps an invariant over the elements still to come *)
Lemma run_foldEach {A B} (I : list A → B → S → Prop) l b (body : B → A → M S X B) Q s :
  I l b s →
  (∀ x t b s, I (x :: t) b s → run free (body b x) (λ b' s', I t b' s') s) →
  (∀ b s, I [] b s → Q b s) →
  run free (foldEach l b body) Q s.
Proof.
  intros HI Hstep Hend. apply (wp_foldEach I l b body); [done| |by intros; apply Hend].
  intros x t b' s' H'. eapply wp_mono; [by apply (Hstep x t b')|]. by intros [].
Qed.
Lemma run_forEach {A} (I : S → Prop) l (body : A → M S X unit) Q s :
  I s → (∀ x s, I s → run free (body x) (λ _ s', I s') s) → (∀ s, I s → Q tt s) →
  run free (forEach l body) Q s.
Proof.
  intros HI Hstep Hend. revert s HI. induction l as [|x l IH]; intros s HI; simpl.
  - apply run_ret. auto.
  - apply run_bind. eapply run_mono; [by apply Hstep|]. auto.
Qed.
End run_lemmas.

(** the exits of a handler: [R] holds where it leaves with [Ok] *)
Definition exits {E} (R : E → Prop) (c : ReturnCode) (e : E) : Prop := c = Ok → R e.
(** the exits of a function that returns an error *)
Definition anyError {E} (x : error) (e : E) : Prop := True.

Section run_exits.
Context {E : Type} {EI : SystemEI E} (R : E → Prop).

Lemma run_orReturn {A} (m : M E error A) p c (Q : A → E → Prop) e :
  c ≠ Ok → run anyError m Q e → run (exits R) (orReturn m p c) Q e.
Proof.
  intros Hc. unfold run. intros Hm. apply wp_orReturn. eapply wp_mono; [exact Hm|].
  intros [a|x|] s'; [done| |done]. by intros _ Hok.
Qed.
Lemma run_returnIf c m x (Q : unit → E → Prop) e :
  (c = true → x = Ok → R (AddReturnMessage m e)) → (c = false → Q tt e) →
  run (exits R) (returnIf c m x) Q e.
Proof. intros H1 H2. apply wp_returnIf; [intros Hc Hx; auto|auto]. Qed.
Lemma run_returnQuietIf c x (Q : unit → E → Prop) e :
  (c = true → x = Ok → R e) → (c = false → Q tt e) →
  run (exits R) (returnQuietIf c x) Q e.
Proof. intros H1 H2. apply wp_returnQuietIf; [intros Hc Hx; auto|auto]. Qed.
End run_exits.

(** ** Records in the storage *)
Definition holds {T} `{Marshaller T} (o : option T) (b : bytes) : Prop :=
  match o with
  | None => b = []
  | Some x => b ≠ [] ∧ ∀ x0, Unmarshal x0 b = inr x
  end.

Section records.
Context {E : Type} {EI : SystemEI E} {X : Type} (free : X → E → Prop).

Lemma run_readStorage e key (Q : bytes → E → Prop) :
  Q (orEmpty (GetStorage key e)) e → run free (readStorage key) Q e.
Proof. done. Qed.
Lemma run_setStorage e k v (Q : unit → E → Prop) :
  Q tt (SetStorage k v e) → run free (setStorage k v) Q e.
Proof. done. Qed.

Lemma holds_marshal {T} `{MarshallerLaws T inRange zero} (x : T) :
  inRange x → x ≠ zero → ∃ d, Marshal x = inr d ∧ holds (Some x) d.
Proof.
  intros Hr Hx. destruct (marshal_total x Hr) as [d Hd]. exists d. split; [done|]. split.
  - intros ->. by apply marshal_nil in Hd.
  - intros x0. by apply unmarshal_marshal.
Qed.
End records.

(** a record is read back, or is not there *)
Lemma run_load {E} `{SystemEI E} {fr} {T} `{Marshaller T} (e : E) key (x zero : T) err (Q : T → E → Prop) :
  holds (Some x) (orEmpty (GetStorage key e)) → Q x e →
  run fr (let! d := readStorage key in
            match d with [] => throw err | _ => fromSum (Unmarshal zero d) end) Q e.
Proof.
  intros [Hd Hx] HQ. apply run_bind, run_readStorage. destruct (orEmpty _); [done|]. by rewrite Hx.
Qed.
Lemma run_save {E} `{SystemEI E} {T} `{MarshallerLaws T inRange zero} (e : E) (x : T) k (Q : unit → E → Prop) :
  inRange x → x ≠ zero →
  (∀ d, holds (Some x) d → Q tt (SetStorage k d e)) →
  run anyError (let! d := fromSum (Marshal x) in setStorage k d) Q e.
Proof.
  intros Hr Hz HQ. destruct (holds_marshal x Hr Hz) as (d & Hd & Hx). rewrite Hd. by apply HQ.
Qed.

(** ** Calls *)
(** the keys a contract keeps for the accounts of its users *)
Definition isAddress (a : bytes) : Prop := length a = 32.

(** a call of a user, another contract or the chain itself *)
Record goodCall (self : bytes) (args : ContractCallInput) : Prop := {
  ga_caller : isAddress (callerOf args);
  ga_other : callerOf args ≠ self;
  ga_recipient : recipientOf args = self;
  ga_value : CallValue args = Some (valueOf args) ∧ (0 ≤ valueOf args)%Z;
}.
(** a handler does not panic, and [R] holds where it answers [Ok] *)
Definition handled {E} (R : E → Prop) (handle : M E ReturnCode ReturnCode) (e : E) : Prop :=
  run (exits R) handle (exits R) e.
Lemma handled_mono {E} (R R' : E → Prop) handle e :
  handled R handle e → (∀ e', R e' → R' e') → handled R' handle e.
Proof.
  unfold handled, run, exits. intros Hh HR. eapply wp_mono; [exact Hh|].
  intros [c|c|] e'; simpl; [auto..|done].
Qed.

(** the dispatchers' checks *)
Lemma CheckIfNil_args args args' : CheckIfNil (Some args) = inr args' → args' = args.
Proof.
  unfold CheckIfNil. destruct (CallValue args); [|done]. case_match; [done|].
  destruct (CallerAddr args); [|done]. destruct (RecipientAddr args); [|done]. by intros [=].
Qed.
Lemma handled_error {E} `{SystemEI E} (R : E → Prop) msg e :
  handled R (addReturnMessage msg ;;; ret UserError) e.
Proof. unfold handled, run, wp. simpl. done. Qed.

(** the call is answered [Ok] and leaves [e'] *)
Definition answersOk {E} (handle : M E ReturnCode ReturnCode) (e e' : E) : Prop :=
  answer (handle e).1 = Some Ok ∧ (handle e).2 = e'.

Lemma handled_answer {E} (R : E → Prop) handle (e e' : E) : handled R handle e → answersOk handle e e' → R e'.
Proof.
  unfold handled, run, wp, answersOk. intros Hh [Ho <-].
  destruct (handle e) as [[c|c|] e1]; simpl in *; [| |done]; injection Ho as ->; by apply Hh.
Qed.
Lemma handled_and {E} (R R' : E → Prop) handle (e : E) :
  handled R handle e → handled R' handle e → handled (λ e', R e' ∧ R' e') handle e.
Proof. unfold handled, run, wp, exits. destruct (handle e) as [[c|c|] e']; naive_solver. Qed.
Lemma handled_all {E A} `{!Inhabited A} (R : A → E → Prop) handle (e : E) :
  (∀ a, handled (R a) handle e) → handled (λ e', ∀ a, R a e') handle e.
Proof.
  unfold handled, run, wp, exits. intros Hh. pose proof (Hh inhabitant).
  destruct (handle e) as [[c|c|] e']; simpl in *; naive_solver.
Qed.

(** ** Observing other money *)
(** What a handler does to the contract's balance is proved for every observation
    that behaves like it: for the balance with what another contract holds for this
    one, and for what an account received. *)
Section observing.
Context {E : Type} {EI : SystemEI E} {CH : ContractHost E} {CHL : HostLaws E}.

Definition observing (f : E → Z) : ContractHost E := {|
  selfAddress := selfAddress; balanceOf := f; othersReady := othersReady; shared := shared |}.
(** no instruction but transfers and calls changes [f] *)
Record observable (f : E → Z) : Prop := {
  ob_msg m e : f (AddReturnMessage m e) = f e;
  ob_finish v e : f (Finish v e) = f e;
  ob_log l e : f (AddLogEntry l e) = f e;
  ob_gas g e e' : UseGas g e = Some e' → f e' = f e;
  ob_owner a e e' : SetOwnerOperatingOnAccount a e = inr e' → f e' = f e;
  ob_set k v e : f (SetStorage k v e) = f e;
  ob_setFor a k v e : shared a → f (SetStorageForAddress a k v e) = f e;
}.
Lemma balance_observable : observable balanceOf.
Proof.
  split; intros.
  - apply same_msg.
  - apply same_finish.
  - apply same_log.
  - eapply same_gas; eassumption.
  - eapply same_owner; eassumption.
  - apply set_balance.
  - by apply setFor_balance.
Qed.
Lemma observable_add f g : observable f → observable g → observable (λ e, (f e + g e)%Z).
Proof. intros [] []. split; intros; f_equal; eauto. Qed.
Lemma observable_opp f : observable f → observable (λ e, (- f e)%Z).
Proof. intros []. split; intros; f_equal; eauto. Qed.

Lemma observing_same f (e e' : E) : same e e' → f e' = f e → @same E EI (observing f) e e'.
Proof. intros [[] _] Hf. split; [by split|done]. Qed.
Lemma observing_laws f : observable f → @HostLaws E EI (observing f).
Proof.
  intros []. split; intros; simpl in *.
  - apply observing_same; [apply same_msg|auto].
  - apply observing_same; [apply same_finish|auto].
  - apply observing_same; [apply same_log|auto].
  - eapply observing_same; [by eapply same_gas|eauto].
  - eapply observing_same; [by eapply same_owner|eauto].
  - by apply set_others.
  - apply set_self.
  - auto.
  - by apply setFor_own.
  - by apply setFor_others.
  - apply setFor_hook.
  - apply setFor_self.
  - auto.
  - by apply set_ready.
  - by apply setFor_ready.
Qed.
Lemma observing_transfers f d {TR : TransferLaws d E} :
  (∀ v e e', d ≠ selfAddress e → Transfer d (selfAddress e) v [] 0 e = Some e' → f e' = (f e - v)%Z) →
  @TransferLaws d E EI (observing f).
Proof.
  intros Hf. split; simpl; [|apply transfer_total]. intros v e e' Hd He.
  split; [|by eapply Hf]. apply transfer_same in He as [[] _]; [|done]. by split.
Qed.
End observing.

(** *** Whatever the other contracts are like *)
Definition unready {E} `{ContractHost E} : ContractHost E := {|
  selfAddress := selfAddress; balanceOf := balanceOf; othersReady _ := True; shared := shared |}.
Lemma unready_same {E} `{SystemEI E, ContractHost E} (e e' : E) : same e e' → @same E _ unready e e'.
Proof. intros [[] ?]. split; [by split|done]. Qed.
Lemma unready_laws {E} `{CHL : ContractHostLaws E} : @ContractHostLaws E _ unready.
Proof.
  split; [split|]; intros; simpl; try done.
  - apply unready_same, same_msg.
  - apply unready_same, same_finish.
  - apply unready_same, same_log.
  - by eapply unready_same, same_gas.
  - by eapply unready_same, same_owner.
  - by apply set_others.
  - apply set_self.
  - apply set_balance.
  - by apply setFor_own.
  - by apply setFor_others.
  - apply setFor_hook.
  - apply setFor_self.
  - by apply setFor_balance.
  - split; simpl; [|apply transfer_total]. intros v e e' Hd He.
    apply transfer_same in He as [[] ?]; [|done]. split; [by split|done].
Qed.

(** *** What another contract holds for this one *)
Class Receivable (E : Type) : Type := heldFor : E → Z.
Class ReceivableLaws (E : Type) `{SystemEI E, ContractHost E, Receivable E} : Prop := {
  held_observable : observable heldFor;
  held_transfer d v (e e' : E) : Transfer d (selfAddress e) v [] 0 e = Some e' → heldFor e' = heldFor e;
}.
Definition assets {E} `{ContractHost E, Receivable E} : ContractHost E :=
  observing (λ e, (balanceOf e + heldFor e)%Z).
Lemma assets_laws {E} `{ContractHostLaws E, Receivable E, !ReceivableLaws E} : @ContractHostLaws E _ assets.
Proof.
  split; [apply observing_laws, observable_add; [apply balance_observable|apply held_observable]|].
  intros d. apply observing_transfers; [exact _|]. intros v e e' Hd He. simpl. rewrite (held_transfer _ _ _ _ He).
  apply transfer_same in He as [_ ->]; [lia|done].
Qed.

(** *** What the accounts receive *)
Class Receipts (E : Type) : Type := received : bytes → E → Z.
Class ReceiptsLaws (E : Type) `{SystemEI E, ContractHost E, Receipts E} : Prop := {
  received_observable a : observable (received a);
  received_transfer d v a (e e' : E) : Transfer d (selfAddress e) v [] 0 e = Some e' →
    received a e' = (received a e + if bool_decide (a = d) then v else 0)%Z;
}.
(** the losses of [c] and another account, when only [c] is paid *)
Definition payments {E} `{Receipts E} (c a : bytes) (e : E) : Z :=
  (- (received c e + if bool_decide (a = c) then 0 else received a e))%Z.
Lemma unready_receipts {E} {EI : SystemEI E} {CH : ContractHost E} {RC : Receipts E}
    {RL : ReceiptsLaws E} : @ReceiptsLaws E EI unready RC.
Proof.
  split; [|apply (@received_transfer E EI CH RC RL)].
  intros a. destruct (@received_observable E EI CH RC RL a). by split.
Qed.
Section payments.
Context {E : Type} {EI : SystemEI E} {CH : ContractHost E} {CHL : ContractHostLaws E}.
Context {RC : Receipts E} {RL : ReceiptsLaws E}.
Lemma payments_host c a : @HostLaws E EI (observing (payments c a)).
Proof.
  apply observing_laws. unfold payments. case_bool_decide.
  - apply observable_opp, (observable_add (received c) (λ _, 0%Z)); [apply received_observable|by split].
  - apply observable_opp, observable_add; apply received_observable.
Qed.
Lemma payments_transfers c a : @TransferLaws c E EI (observing (payments c a)).
Proof.
  apply observing_transfers; [exact _|]. intros v e e' _ He. unfold payments.
  rewrite !(received_transfer _ _ _ _ _ He) bool_decide_true //. case_bool_decide; lia.
Qed.
(** only [c] was paid, and it was paid [v] *)
Definition paidTo (c : bytes) (v : Z) (e e' : E) : Prop :=
  received c e' = (received c e + v)%Z ∧ ∀ a, a ≠ c → received a e' = received a e.
Lemma paidTo_observed c v (e e' : E) :
  (∀ a, payments c a e' = (payments c a e - v)%Z) → paidTo c v e e'.
Proof.
  intros Hp. pose proof (Hp c) as Hc. unfold payments in *. rewrite bool_decide_true // in Hc.
  split; [lia|]. intros a Ha. specialize (Hp a). rewrite bool_decide_false // in Hp. lia.
Qed.
End payments.
