(* ===== verification/DelegationFunds.v ===== *)
(** * DelegationFunds: delegating, undelegating and rewards (delegation.go)

    The functions of the delegation contract that move funds: the rewards of a
    delegator, [delegate], [reDelegateRewards], [unDelegate], [withdraw],
    [claimRewards], [updateRewards], and the functions they share with the
    handlers of [DelegationSC.v].  A function that returns a [ReturnCode] other
    than [Ok] leaves its caller with it. *)
From Stdlib Require Import Floats.SpecFloat.
From S2P Require Import Prelude SystemEI StakingData DelegationData.
#[local] Open Scope go_scope.

Section funds.
Context {E : Type} {EI : SystemEI E} {DC : DelegationContract}.

(** ** Rewards *)
Definition rewardOfEpoch (isOwner : bool) (activeValue totalRewards : Z)
    (rewardData : RewardComputationData) : M E error Z :=
  let! totalActive := deref (RewardTotalActive rewardData) in
  if (totalActive =? 0)%Z && negb isOwner then ret totalRewards
  else
  let! toDistribute := deref (RewardsToDistribute rewardData) in
  if (totalActive =? 0)%Z then ret (totalRewards + toDistribute)%Z
  else
    let percentage := float64Div (float64OfUint64 (ServiceFee rewardData))
                                 (float64OfUint64 maxServiceFee) in
    let rewardsForOwner :=
      if delegationFlag StakingV2FlagAfterEpoch
      then GetIntTrimmedPercentageOfValue toDistribute percentage
      else GetApproximatePercentageOfValue toDistribute percentage in
    let rewardForDelegator := bigDiv ((toDistribute - rewardsForOwner) * activeValue) totalActive in
    ret ((if isOwner then totalRewards + rewardsForOwner else totalRewards) + rewardForDelegator)%Z.

(** [for i := rewardsCheckpoint; i <= currentEpoch; i++] on uint32: with
    [currentEpoch = MaxUint32] it would not end; running out of fuel stands for
    that *)
Fixpoint computeRewardsLoop (fuel : nat) (i epoch : Z) (isOwner : bool) (activeValue : Z)
    (totalRewards : Z) : M E error Z :=
  if (epoch <? i)%Z then ret totalRewards
  else match fuel with
  | O => panic
  | S fuel =>
    let! found := getRewardComputationData i in
    let! totalRewards :=
      match found with
      | None => ret totalRewards
      | Some rewardData => rewardOfEpoch isOwner activeValue totalRewards rewardData
      end in
    computeRewardsLoop fuel (u32 (i + 1)) epoch isOwner activeValue totalRewards
  end.

Definition computeRewards (rewardsCheckpoint : Z) (isOwner : bool) (activeValue : Z) :
    M E error Z :=
  if (activeValue <=? 0)%Z then ret 0%Z
  else
    let! epoch := currentEpoch in
    computeRewardsLoop (Z.to_nat (epoch + 1 - rewardsCheckpoint)) rewardsCheckpoint epoch
      isOwner activeValue 0.

Definition computeAndUpdateRewards (callerAddress : bytes) (delegator : DelegatorData) :
    M E error DelegatorData :=
  let! epoch := currentEpoch in
  if length (ActiveFund delegator) =? 0 then
    ret (if delegationFlag ComputeRewardCheckpointFlag
         then withRewardsCheckpoint (u32 (epoch + 1)) delegator else delegator)
  else
    let! activeFund := getFund (ActiveFund delegator) in
    let! owner := gets (isOwner callerAddress) in
    let! activeValue := deref (FundValue activeFund) in
    let! totalRewards := computeRewards (RewardsCheckpoint delegator) owner activeValue in
    let! unClaimed := deref (UnClaimedRewards delegator) in
    ret (withRewardsCheckpoint (u32 (epoch + 1))
           (withUnClaimedRewards (Some (unClaimed + totalRewards)%Z) delegator)).

Definition updateRewards (args : ContractCallInput) : handler E :=
  returnIf (negb (bool_decide (callerOf args = endOfEpochAddr)))
    "only end of epoch address can call this function" UserError ;;;
  returnIf (negb (length (Arguments args) =? 0)) "must call without arguments" UserError ;;;
  returnIf (valueOf args <? 0)%Z "cannot call with negative value" UserError ;;;
  let! totalActiveData := readStorage totalActiveKey in
  let! serviceFeeData := readStorage serviceFeeKey in
  let rewardsData := mkRewardData (CallValue args) (Some (setBytes totalActiveData))
                       (bigUint64 (setBytes serviceFeeData)) in
  let! epoch := currentEpoch in
  orReturn (saveRewardData epoch rewardsData) "" UserError ;;;
  ret Ok.

(** ** Lists of nodes *)
Fixpoint removeNode (key : bytes) (l : list NodesData) : option (NodesData * list NodesData) :=
  match l with
  | [] => None
  | nodeData :: t =>
    if bool_decide (BLSKey nodeData = key) then Some (nodeData, t)
    else match removeNode key t with
         | None => None
         | Some (found, t') => Some (found, nodeData :: t')
         end
  end.

Definition moveNodeFromList (sndList dstList : list NodesData) (key : bytes) :
    list NodesData * list NodesData :=
  match removeNode key sndList with
  | None => (sndList, dstList)
  | Some (nodeData, sndList') => (sndList', dstList ++ [nodeData])
  end.

Definition isSuccessReturnData (returnData : bytes) : bool :=
  bool_decide (returnData = [waiting]) || bool_decide (returnData = [ok]).

(** indexing [returnData[i+1]] behind the last element panics *)
Fixpoint unSuccessLoop {X} (lenBlsKey : nat) (returnData : list bytes) : outcome X (list bytes) :=
  match returnData with
  | [] => Ret []
  | [key] => if length key =? lenBlsKey then Panic else Ret []
  | key :: code :: rest =>
    let? unSuccessKeys := unSuccessLoop lenBlsKey rest in
    Ret (if (length key =? lenBlsKey) && negb (isSuccessReturnData code)
         then key :: unSuccessKeys else unSuccessKeys)
  end.

Definition getSuccessAndUnSuccessKeys {X} (returnData blsKeys : list bytes) :
    outcome X (list bytes * list bytes) :=
  match returnData, blsKeys with
  | [], _ | _, [] => Ret (blsKeys, [])
  | _, blsKey0 :: _ =>
    let? unSuccessKeys := unSuccessLoop (length blsKey0) returnData in
    if length unSuccessKeys =? length blsKeys then Ret ([], unSuccessKeys)
    else Ret (filter (λ blsKey, blsKey ∉ unSuccessKeys) blsKeys, unSuccessKeys)
  end.

Definition moveStaked (status : DelegationContractStatus) (successKey : bytes) :
    DelegationContractStatus :=
  let (ns, st) := moveNodeFromList (NotStakedKeys status) (StakedKeys status) successKey in
  let (us, st) := moveNodeFromList (UnStakedKeys status) st successKey in
  withUnStakedKeys us (withStakedKeys st (withNotStakedKeys ns status)).

Definition updateDelegationStatusAfterStake (status : DelegationContractStatus)
    (returnData args : list bytes) : M E error DelegationContractStatus :=
  let! ' (successKeys, _) := liftO (getSuccessAndUnSuccessKeys returnData args) in
  let status := foldl moveStaked status successKeys in
  saveDelegationStatus status ;;;
  ret status.

(** ** Delegating *)
Definition makeStakeArgsIfAutomaticActivation {X} (config : DelegationConfig)
    (status : DelegationContractStatus) (globalFund : GlobalFundData) : M E X (list bytes) :=
  if delegationFlag AutomaticActivationOfNodesDisableFlag then ret []
  else
    let lenStakableKeys :=
      Z.of_nat (length (NotStakedKeys status) + length (UnStakedKeys status)) in
    if negb (AutomaticActivation config) || (lenStakableKeys =? 0)%Z then ret []
    else
      let! totalActive := deref (TotalActive globalFund) in
      if (nodePrice =? 0)%Z then panic else
      let maxNodesToStake := bigUint64 (bigDiv totalActive nodePrice) in
      let numStakedNodes := Z.of_nat (length (StakedKeys status) + length (UnStakedKeys status)) in
      if (maxNodesToStake <=? numStakedNodes)%Z then ret []
      else if (gasStake =? 0)%Z then panic
      else
        let! gasLeft := gets GasLeft in
        let numNodesToStake := Z.min (Z.min lenStakableKeys (maxNodesToStake - numStakedNodes))
                                     (gasLeft / gasStake) in
        if (numNodesToStake =? 0)%Z then ret []
        else ret (bigBytes numNodesToStake ::
                  concat (map (λ node, [BLSKey node; SignedMsg node])
                    (take (Z.to_nat numNodesToStake)
                       (NotStakedKeys status ++ UnStakedKeys status)))).

Definition executeStakeAndUpdateStatus (dConfig : DelegationConfig)
    (dStatus : DelegationContractStatus) (globalFund : GlobalFundData) (valueToStake : Z)
    (contractAddress : bytes) : M E ReturnCode unit :=
  let! stakeArgs := makeStakeArgsIfAutomaticActivation dConfig dStatus globalFund in
  let! vmOutput := callValidator contractAddress "stake" stakeArgs valueToStake in
  let! dStatus :=
    if 0 <? length stakeArgs
    then orReturn (updateDelegationStatusAfterStake dStatus (outReturnData vmOutput) stakeArgs)
           "" UserError
    else ret dStatus in
  orReturn (saveDelegationStatus dStatus) "" UserError ;;;
  orReturn (saveGlobalFundData globalFund) "" UserError.

(** initial owner funds must be 0 or higher than min deposit *)
Definition checkAndUpdateOwnerInitialFunds (delegationConfig : DelegationConfig)
    (caller : bytes) (callValue : Z) : M E error DelegationConfig :=
  let! initialOwnerFunds := deref (InitialOwnerFunds delegationConfig) in
  if (0 <? initialOwnerFunds)%Z then ret delegationConfig
  else
    let! owner := gets (isOwner caller) in
    if negb owner then throw ErrNotEnoughInitialOwnerFunds
    else
      let! delegationManagement := getDelegationManagement in
      let! minDeposit := deref (MinDeposit delegationManagement) in
      if (callValue <? minDeposit)%Z then
        throw (ErrNotEnoughInitialOwnerFunds ++ (" you must provide at least "
                 ++ pretty minDeposit))%string
      else
        let delegationConfig := withInitialOwnerFunds (Some callValue) delegationConfig in
        saveDelegationContractConfig delegationConfig ;;;
        ret delegationConfig.

Definition addToActiveFund (callerAddr : bytes) (delegator : DelegatorData) (delegateValue : Z)
    (dStatus : DelegationContractStatus) (isNew : bool) :
    M E error (DelegatorData * DelegationContractStatus) :=
  if 0 <? length (ActiveFund delegator) then
    addValueToFund (ActiveFund delegator) delegateValue ;;;
    ret (delegator, dStatus)
  else
    let! fundKey := createAndSaveNextKeyFund callerAddr delegateValue active in
    ret (withActiveFund fundKey delegator,
         if isNew then withNumUsers (u64 (NumUsers dStatus + 1)) dStatus else dStatus).

Definition checkActiveFund (delegator : DelegatorData) : M E error unit :=
  if negb (delegationFlag ReDelegateBelowMinCheckFlag) then ret tt
  else
    let! delegationManagement := getDelegationManagement in
    let! fund := getFund (ActiveFund delegator) in
    let! fundValue := deref (FundValue fund) in
    let! minDelegationAmount := deref (MinDelegationAmount delegationManagement) in
    if (fundValue <? minDelegationAmount)%Z then throw ErrRedelegateValueBelowMinimum else ret tt.

Definition finishDelegateUser (globalFund : GlobalFundData) (delegator : DelegatorData)
    (dConfig : DelegationConfig) (dStatus : DelegationContractStatus)
    (callerAddr contractAddress : bytes) (delegateValue callValue : Z)
    (isNew checkDelegationCap : bool) : handler E :=
  let! totalActive := deref (TotalActive globalFund) in
  let totalActive := (totalActive + delegateValue)%Z in
  let globalFund := mkGlobalFund (Some totalActive) (TotalUnStaked globalFund) in
  let! cap := deref (MaxDelegationCap dConfig) in
  returnIf (negb (cap =? 0)%Z && checkDelegationCap && (cap <? totalActive)%Z)
    "total delegation cap reached" UserError ;;;
  let! ' (delegator, dStatus) :=
    orReturn (addToActiveFund callerAddr delegator delegateValue dStatus isNew) "" UserError in
  orReturn (checkActiveFund delegator) "" UserError ;;;
  executeStakeAndUpdateStatus dConfig dStatus globalFund callValue contractAddress ;;;
  orReturn (saveDelegatorData callerAddr delegator) "" UserError ;;;
  ret Ok.

Definition delegateUser (args : ContractCallInput) (delegationValue callValue : Z)
    (callerAddr : bytes) (dStatus : DelegationContractStatus) : handler E :=
  let! dConfig := orReturn getDelegationContractConfig "" UserError in
  let! globalFund := orReturn getGlobalFundData "" UserError in
  let! dConfig := orReturn (checkAndUpdateOwnerInitialFunds dConfig callerAddr delegationValue)
                    "" UserError in
  let! ' (isNew, delegator) := orReturn (getOrCreateDelegatorData callerAddr) "" UserError in
  let! delegator :=
    if isNew then
      let! epoch := currentEpoch in
      ret (withUnClaimedRewards (Some 0%Z) (withRewardsCheckpoint (u32 (epoch + 1)) delegator))
    else orReturn (computeAndUpdateRewards callerAddr delegator) "" UserError in
  createAndAddLogEntryForDelegate args delegationValue globalFund delegator dStatus isNew ;;;
  finishDelegateUser globalFund delegator dConfig dStatus callerAddr (recipientOf args)
    delegationValue callValue isNew true.

Definition delegate (args : ContractCallInput) : handler E :=
  let! delegationManagement := orReturn getDelegationManagement
    "error getting minimum delegation amount " UserError in
  let! minDelegationAmount := deref (MinDelegationAmount delegationManagement) in
  returnIf (valueOf args <? minDelegationAmount)%Z
    ("delegate value must be higher than minDelegationAmount " ++ pretty minDelegationAmount)
    UserError ;;;
  useGas gasDelegationOps ;;;
  let! dStatus := orReturn getDelegationStatus "" UserError in
  delegateUser args (valueOf args) (valueOf args) (callerOf args) dStatus.

Definition reDelegateRewards (args : ContractCallInput) : handler E :=
  returnIf (negb (valueOf args =? 0)%Z) ErrCallValueMustBeZero UserError ;;;
  returnIf (negb (length (Arguments args) =? 0)) "must be called without arguments" UserError ;;;
  useGas gasDelegationOps ;;;
  let! ' (isNew, delegator) := orReturn (getOrCreateDelegatorData (callerOf args)) "" UserError in
  returnIf isNew "new delegator cannot redelegate rewards" UserError ;;;
  let! delegator := orReturn (computeAndUpdateRewards (callerOf args) delegator) "" UserError in
  let! dConfig := orReturn getDelegationContractConfig "" UserError in
  let! unClaimed := deref (UnClaimedRewards delegator) in
  let! dConfig := orReturn (checkAndUpdateOwnerInitialFunds dConfig (callerOf args) unClaimed)
                    "" UserError in
  returnIf (unClaimed <=? 0)%Z "delegate value must be higher than 0" UserError ;;;
  let! globalFund := orReturn getGlobalFundData "" UserError in
  let! dStatus := orReturn getDelegationStatus "" UserError in
  let! cumulated := deref (TotalCumulatedRewards delegator) in
  let delegator := withUnClaimedRewards (Some 0%Z)
    (withTotalCumulatedRewards (Some (cumulated + unClaimed)%Z) delegator) in
  createAndAddLogEntryForDelegate args unClaimed globalFund delegator dStatus isNew ;;;
  finishDelegateUser globalFund delegator dConfig dStatus (callerOf args) (recipientOf args)
    unClaimed unClaimed false (CheckCapOnReDelegateRewards dConfig).

(** ** Undelegating *)
Definition executeOnValidatorSCWithValueInArgs (contractAddress : bytes) (functionToCall : string)
    (actionValue : Z) : M E ReturnCode (list bytes) :=
  let! vmOutput := orReturn
    (executeOnValidatorSC contractAddress functionToCall [bigBytes actionValue] 0) "" UserError in
  returnQuietIf (negb (bool_decide (outReturnCode vmOutput = Ok))) UserError ;;;
  ret (outReturnData vmOutput).

Definition resolveUnStakedUnBondResponse (returnData : list bytes) (userVal : Z) : Z :=
  match last returnData with
  | None => userVal
  | Some totalReturn => setBytes totalReturn
  end.

Definition checkOwnerCanUnDelegate (address : bytes) (activeFund : Fund)
    (valueToUnDelegate : Z) : M E error unit :=
  let! owner := gets (isOwner address) in
  if negb owner then ret tt
  else
    let! delegationConfig := getDelegationContractConfig in
    let! activeValue := deref (FundValue activeFund) in
    let! initialOwnerFunds := deref (InitialOwnerFunds delegationConfig) in
    let remainingFunds := (activeValue - valueToUnDelegate)%Z in
    if (initialOwnerFunds <=? remainingFunds)%Z then ret tt
    else
      let! delegationStatus := getDelegationStatus in
      let numActiveKeys := length (StakedKeys delegationStatus)
                           + length (UnStakedKeys delegationStatus) in
      if 0 <? numActiveKeys then
        throw (ErrOwnerCannotUnDelegate
                 ++ " cannot unDelegate from initial owner funds as nodes are active")%string
      else if negb (remainingFunds =? 0)%Z then
        throw (ErrOwnerCannotUnDelegate ++ " must undelegate all")%string
      else saveDelegationContractConfig (withInitialOwnerFunds (Some 0%Z) delegationConfig).

Definition addNewUnStakedFund (delegatorAddress : bytes) (delegator : DelegatorData)
    (unStakeValue : Z) : M E error DelegatorData :=
  let createNew :=
    let! unStakedFundKey := createAndSaveNextKeyFund delegatorAddress unStakeValue unStaked in
    ret (withUnStakedFunds (UnStakedFunds delegator ++ [unStakedFundKey]) delegator) in
  match last (UnStakedFunds delegator) with
  | None => createNew
  | Some lastKey =>
    let! lastUnStakedFund := getFund lastKey in
    let! epoch := currentEpoch in
    if (FundEpoch lastUnStakedFund =? epoch)%Z then
      let! lastValue := deref (FundValue lastUnStakedFund) in
      saveFund lastKey (withFundValue (Some (lastValue + unStakeValue)%Z) lastUnStakedFund) ;;;
      ret delegator
    else createNew
  end.

Definition unDelegateValueFromAddress (args : ContractCallInput) (valueToUnDelegate : Z)
    (delegatorAddress contractAddress : bytes) : handler E :=
  let! ' (isNew, delegator) := orReturn (getOrCreateDelegatorData delegatorAddress) "" UserError in
  returnIf isNew "caller is not a delegator" UserError ;;;
  let! activeFund := orReturn (getFund (ActiveFund delegator)) "" UserError in
  let! activeValue := deref (FundValue activeFund) in
  returnIf (activeValue <? valueToUnDelegate)%Z "invalid value to undelegate" UserError ;;;
  let! delegationManagement := orReturn getDelegationManagement
    "error getting minimum delegation amount " UserError in
  let! minDelegationAmount := deref (MinDelegationAmount delegationManagement) in
  let remainedFund := (activeValue - valueToUnDelegate)%Z in
  returnIf ((0 <? remainedFund) && (remainedFund <? minDelegationAmount))%Z
    "invalid value to undelegate - need to undelegate all - do not leave dust behind" UserError ;;;
  orReturn (checkOwnerCanUnDelegate delegatorAddress activeFund valueToUnDelegate) "" UserError ;;;
  let! delegator := orReturn (computeAndUpdateRewards delegatorAddress delegator) "" UserError in
  let! globalFund := orReturn getGlobalFundData "" UserError in
  let! returnData := executeOnValidatorSCWithValueInArgs contractAddress "unStakeTokens"
                       valueToUnDelegate in
  let actualUserUnStake := resolveUnStakedUnBondResponse returnData valueToUnDelegate in
  let activeFund := withFundValue (Some (activeValue - actualUserUnStake)%Z) activeFund in
  orReturn (saveFund (ActiveFund delegator) activeFund) "" UserError ;;;
  let! delegator := orReturn (addNewUnStakedFund delegatorAddress delegator actualUserUnStake)
                      "" UserError in
  let! totalActive := deref (TotalActive globalFund) in
  let! totalUnStaked := deref (TotalUnStaked globalFund) in
  let globalFund := mkGlobalFund (Some (totalActive - actualUserUnStake)%Z)
                                 (Some (totalUnStaked + actualUserUnStake)%Z) in
  returnIf (maxNumOfUnStakedFunds <? length (UnStakedFunds delegator))
    "number of unDelegate limit reached, withDraw required" UserError ;;;
  let delegator := if (activeValue - actualUserUnStake =? 0)%Z then withActiveFund [] delegator
                   else delegator in
  orReturn (saveGlobalFundData globalFund) "" UserError ;;;
  orReturn (saveDelegatorData delegatorAddress delegator) "" UserError ;;;
  match last (UnStakedFunds delegator) with
  | None => panic
  | Some unDelegateFundKey =>
    createAndAddLogEntry args [bigBytes valueToUnDelegate; bigBytes remainedFund; [];
      bigBytes (totalActive - actualUserUnStake)%Z; unDelegateFundKey] ;;;
    ret Ok
  end.

Definition unDelegate (args : ContractCallInput) : handler E :=
  useGas gasDelegationOps ;;;
  returnIf (negb (length (Arguments args) =? 1)) "wrong number of arguments"
    FunctionWrongSignature ;;;
  returnIf (negb (valueOf args =? 0)%Z) ErrCallValueMustBeZero UserError ;;;
  let valueToUnDelegate := setBytes (arg args 0) in
  returnIf (valueToUnDelegate <=? 0)%Z "invalid value to undelegate" UserError ;;;
  unDelegateValueFromAddress args valueToUnDelegate (callerOf args) (recipientOf args).

(** ** Withdrawing and claiming *)
Definition getUnBondableTokens (delegator : DelegatorData) (period : Z) : M E error Z :=
  let! epoch := currentEpoch in
  foldEach (UnStakedFunds delegator) 0%Z (λ totalUnBondable fundKey,
    let! fund := getFund fundKey in
    if (u32 (epoch - FundEpoch fund) <? period)%Z then ret totalUnBondable
    else
      let! fundValue := deref (FundValue fund) in
      ret (totalUnBondable + fundValue)%Z).

Definition isUserWithFunds (address : bytes) (delegator : DelegatorData) (e : E) : bool :=
  isOwner address e
  || ((0 <? length (ActiveFund delegator)) || (0 <? length (UnStakedFunds delegator))).

Definition deleteDelegatorIfNeeded (address : bytes) (delegator : DelegatorData) : M E error bool :=
  let! unClaimed := deref (UnClaimedRewards delegator) in
  if (0 <? unClaimed)%Z then ret false
  else
    setStorage address [] ;;;
    let! dStatus := getDelegationStatus in
    saveDelegationStatus (if (0 <? NumUsers dStatus)%Z
                          then withNumUsers (NumUsers dStatus - 1)%Z dStatus else dStatus) ;;;
    ret true.

Definition deleteDelegatorOnWithdrawIfNeeded (address : bytes) (delegator : DelegatorData) :
    M E error bool :=
  let! withFunds := gets (isUserWithFunds address delegator) in
  if withFunds then ret false
  else
    let! delegator := computeAndUpdateRewards address delegator in
    deleteDelegatorIfNeeded address delegator.

Definition deleteDelegatorOnClaimRewardsIfNeeded (address : bytes) (delegator : DelegatorData) :
    M E error bool :=
  let! withFunds := gets (isUserWithFunds address delegator) in
  if withFunds then ret false else deleteDelegatorIfNeeded address delegator.

(** the remaining keys of unstaked funds and the keys of the withdrawn ones *)
Fixpoint withdrawLoop (keys : list bytes) (epoch period actualUserUnBond totalUnBonded : Z)
    (tempUnStakedFunds withdrawFundKeys : list bytes) :
    M E ReturnCode (list bytes * list bytes) :=
  match keys with
  | [] => ret (tempUnStakedFunds, withdrawFundKeys)
  | fundKey :: keys =>
    let! fund := orReturn (getFund fundKey) "" UserError in
    if (u32 (epoch - FundEpoch fund) <? period)%Z then
      withdrawLoop keys epoch period actualUserUnBond totalUnBonded
        (tempUnStakedFunds ++ [fundKey]) withdrawFundKeys
    else
      let! fundValue := deref (FundValue fund) in
      let totalUnBonded := (totalUnBonded + fundValue)%Z in
      if (actualUserUnBond <? totalUnBonded)%Z then
        let unBondedFromThisFund := (totalUnBonded - actualUserUnBond)%Z in
        orReturn (saveFund fundKey (withFundValue (Some (fundValue - unBondedFromThisFund)%Z) fund))
          "" UserError ;;;
        ret (tempUnStakedFunds, withdrawFundKeys)
      else
        setStorage fundKey [] ;;;
        withdrawLoop keys epoch period actualUserUnBond totalUnBonded tempUnStakedFunds
          (withdrawFundKeys ++ [fundKey])
  end.

Definition withdraw (args : ContractCallInput) : handler E :=
  returnIf (negb (length (Arguments args) =? 0)) "wrong number of arguments"
    FunctionWrongSignature ;;;
  returnIf (negb (valueOf args =? 0)%Z) ErrCallValueMustBeZero UserError ;;;
  useGas gasDelegationOps ;;;
  let! ' (isNew, delegator) := orReturn (getOrCreateDelegatorData (callerOf args)) "" UserError in
  returnIf isNew "caller is not a delegator" UserError ;;;
  let! dConfig := orReturn getDelegationContractConfig "" UserError in
  let! globalFund := orReturn getGlobalFundData "" UserError in
  let period := UnBondPeriodInEpochs dConfig in
  let! totalUnBondable := orReturn (getUnBondableTokens delegator period) "" UserError in
  returnIf (totalUnBondable =? 0)%Z "nothing to unBond"
    (if delegationFlag DelegationMultiClaimFlag then UserError else Ok) ;;;
  let! totalUnStaked := deref (TotalUnStaked globalFund) in
  returnIf (totalUnStaked <? totalUnBondable)%Z "cannot unBond - contract error" UserError ;;;
  let! returnData := executeOnValidatorSCWithValueInArgs (recipientOf args) "unBondTokens"
                       totalUnBondable in
  let actualUserUnBond := resolveUnStakedUnBondResponse returnData totalUnBondable in
  let! epoch := currentEpoch in
  let! ' (tempUnStakedFunds, withdrawFundKeys) :=
    withdrawLoop (UnStakedFunds delegator) epoch period actualUserUnBond 0 [] [] in
  let delegator := withUnStakedFunds tempUnStakedFunds delegator in
  let globalFund := mkGlobalFund (TotalActive globalFund)
                      (Some (totalUnStaked - actualUserUnBond)%Z) in
  orReturn (saveGlobalFundData globalFund) "" UserError ;;;
  orReturn (saveDelegatorData (callerOf args) delegator) "" UserError ;;;
  transfer (callerOf args) (recipientOf args) actualUserUnBond ;;;
  let! wasDeleted := orReturn (deleteDelegatorOnWithdrawIfNeeded (callerOf args) delegator)
                       "" UserError in
  let! n := numUsers in
  createAndAddLogEntryForWithdraw (Function args) (callerOf args) actualUserUnBond globalFund
    delegator n wasDeleted withdrawFundKeys ;;;
  ret Ok.

Definition claimRewards (args : ContractCallInput) : handler E :=
  useGas gasDelegationOps ;;;
  returnIf (negb (length (Arguments args) =? 0)) "wrong number of arguments"
    FunctionWrongSignature ;;;
  let! ' (isNew, delegator) := orReturn (getOrCreateDelegatorData (callerOf args)) "" UserError in
  returnIf isNew "caller is not a delegator" UserError ;;;
  let! delegator := orReturn (computeAndUpdateRewards (callerOf args) delegator) "" UserError in
  let! unClaimed := deref (UnClaimedRewards delegator) in
  transfer (callerOf args) (recipientOf args) unClaimed ;;;
  let! cumulated := deref (TotalCumulatedRewards delegator) in
  let delegator := withUnClaimedRewards (Some 0%Z)
    (withTotalCumulatedRewards (Some (cumulated + unClaimed)%Z) delegator) in
  orReturn (saveDelegatorData (callerOf args) delegator) "" UserError ;;;
  let! wasDeleted :=
    if delegationFlag DeleteDelegatorAfterClaimRewardsFlag
    then orReturn (deleteDelegatorOnClaimRewardsIfNeeded (callerOf args) delegator) "" UserError
    else ret false in
  createAndAddLogEntry args [bigBytes unClaimed; boolToSlice wasDeleted; recipientOf args] ;;;
  ret Ok.
End funds.
