(* ===== verification/DelegationNodes.v ===== *)
(** * DelegationNodes: the nodes of a delegation contract (delegation.go)

    The handlers that change the lists of nodes: the BLS keys that are staked,
    not staked and unstaked. *)
From S2P Require Import Prelude SystemEI StakingData DelegationData DelegationFunds.
#[local] Open Scope go_scope.

Section nodes.
Context {E : Type} {EI : SystemEI E} {DC : DelegationContract}.

Fixpoint duplicatesLoop (mapArgs : gset bytes) (args : list bytes) : bool :=
  match args with
  | [] => false
  | a :: args => bool_decide (a ∈ mapArgs) || duplicatesLoop ({[a]} ∪ mapArgs) args
  end.
Definition checkForDuplicates (args : list bytes) : bool := duplicatesLoop ∅ args.

Definition checkOwnerCallValueGasAndDuplicates (args : ContractCallInput) : M E ReturnCode unit :=
  let! owner := gets (isOwner (callerOf args)) in
  returnIf (negb owner) "only owner can call this method" UserError ;;;
  returnIf (negb (valueOf args =? 0)%Z) ErrCallValueMustBeZero UserError ;;;
  useGas gasDelegationOps ;;;
  returnIf (checkForDuplicates (Arguments args)) ErrDuplicatesFoundInArguments UserError.

Definition hasKey (listKeys : list NodesData) (argKey : bytes) : bool :=
  existsb (λ nodeData, bool_decide (argKey = BLSKey nodeData)) listKeys.
Definition verifyIfBLSPubKeysExist (listKeys : list NodesData) (arguments : list bytes) : bool :=
  existsb (hasKey listKeys) arguments.
Definition verifyIfAllBLSPubKeysExist (listKeys : list NodesData) (arguments : list bytes) : bool :=
  forallb (hasKey listKeys) arguments.

Definition checkBLSKeysIfExistsInStakingSC (blsKeys : list bytes) (e : E) : bool :=
  existsb (λ blsKey, 0 <? length (orEmpty (GetStorageFromAddress stakingSCAddr blsKey e))) blsKeys.

(** the arguments are pairs of a BLS key and a signature *)
Fixpoint verifyLoop {X} (txPubKey : bytes) (args : list bytes) (blsKeys : list bytes)
    (foundInvalid : bool) : M E X (list bytes * bool) :=
  match args with
  | blsKey :: signedMessage :: rest =>
    match VerifySignature txPubKey signedMessage blsKey with
    | inl _ =>
      finish blsKey ;;;
      finish [invalidKey] ;;;
      verifyLoop txPubKey rest blsKeys true
    | inr _ => verifyLoop txPubKey rest (blsKeys ++ [blsKey]) foundInvalid
    end
  | [_] => panic
  | [] => ret (blsKeys, foundInvalid)
  end.
Definition verifyBLSKeysAndSignature (txPubKey : bytes) (args : list bytes) :
    M E error (list bytes) :=
  let! ' (blsKeys, foundInvalid) := verifyLoop txPubKey args [] false in
  if (foundInvalid : bool) then throw ErrInvalidBLSKeys else ret blsKeys.

Fixpoint pairNodes (args : list bytes) : list NodesData :=
  match args with
  | blsKey :: signedMessage :: rest => mkNode blsKey signedMessage :: pairNodes rest
  | _ => []
  end.

Definition addNodes (args : ContractCallInput) : handler E :=
  checkOwnerCallValueGasAndDuplicates args ;;;
  returnIf (length (Arguments args) <? 2) "not enough arguments" FunctionWrongSignature ;;;
  returnIf (negb (Nat.even (length (Arguments args))))
    "arguments must be of pair length - BLSKey and signedMessage" UserError ;;;
  let numBlsKeys := Z.of_nat (length (Arguments args) / 2) in
  useGas (u64 (numBlsKeys * gasDelegationOps)) ;;;
  let! blsKeys := orReturn (verifyBLSKeysAndSignature (recipientOf args) (Arguments args))
                    "" UserError in
  let! status := orReturn getDelegationStatus "" UserError in
  let listToVerify := StakedKeys status ++ NotStakedKeys status ++ UnStakedKeys status in
  returnIf (verifyIfBLSPubKeysExist listToVerify blsKeys) ErrBLSPublicKeyMismatch UserError ;;;
  let! foundOne := gets (checkBLSKeysIfExistsInStakingSC blsKeys) in
  returnIf foundOne "BLSKey already in use in stakingSC" UserError ;;;
  let status := withNotStakedKeys (NotStakedKeys status ++ pairNodes (Arguments args)) status in
  orReturn (saveDelegationStatus status) "" UserError ;;;
  createAndAddLogEntry args (Arguments args) ;;;
  ret Ok.

Definition removeNodes (args : ContractCallInput) : handler E :=
  checkOwnerCallValueGasAndDuplicates args ;;;
  returnIf (length (Arguments args) <? 1) "not enough arguments" FunctionWrongSignature ;;;
  useGas (u64 (Z.of_nat (length (Arguments args)) * gasDelegationOps)) ;;;
  let! status := orReturn getDelegationStatus "" UserError in
  let! status := foldEach (Arguments args) status (λ status blsKey,
    match removeNode blsKey (NotStakedKeys status) with
    | None => addReturnMessage ErrBLSPublicKeyMismatch ;;; throw UserError
    | Some (_, notStakedKeys) => ret (withNotStakedKeys notStakedKeys status)
    end) in
  orReturn (saveDelegationStatus status) "" UserError ;;;
  createAndAddLogEntry args (Arguments args) ;;;
  ret Ok.

Definition formatTooManyNodesMsg (topics : list bytes) : string :=
  let numRegisteredBlsKeys := bigInt64 (setBytes (nth 1 topics [])) in
  let nodeLimit := bigInt64 (setBytes (nth 2 topics [])) in
  numberOfNodesTooHigh ++ (", num registered bls keys: " ++ pretty numRegisteredBlsKeys
    ++ ", node limit: " ++ pretty nodeLimit).

Fixpoint getTooManyNodesErrMsg (logEntries : list LogEntry) : string :=
  match logEntries with
  | [] => ""
  | logEntry :: rest =>
    if (length (Topics logEntry) =? 3)
       && bool_decide (nth 0 (Topics logEntry) [] = toBytes numberOfNodesTooHigh)
    then formatTooManyNodesMsg (Topics logEntry) else getTooManyNodesErrMsg rest
  end.

Definition makeStakeArgs (nodesData : list NodesData) (keysToStake : list bytes) : list bytes :=
  bigBytes (Z.of_nat (length keysToStake)) ::
  concat (map (λ keyToStake,
    match List.find (λ nodeData, bool_decide (BLSKey nodeData = keyToStake)) nodesData with
    | Some nodeData => [BLSKey nodeData; SignedMsg nodeData]
    | None => []
    end) keysToStake).

(** what the handlers on staked nodes begin with *)
Definition ownerStatus (args : ContractCallInput) : M E ReturnCode DelegationContractStatus :=
  checkOwnerCallValueGasAndDuplicates args ;;;
  returnIf (length (Arguments args) =? 0) "not enough arguments" FunctionWrongSignature ;;;
  orReturn getDelegationStatus "" UserError.

Definition stakeNodes (args : ContractCallInput) : handler E :=
  let! status := ownerStatus args in
  let listToCheck := NotStakedKeys status ++ UnStakedKeys status in
  returnIf (negb (verifyIfAllBLSPubKeysExist listToCheck (Arguments args)))
    ErrBLSPublicKeyMismatch UserError ;;;
  let! globalFund := orReturn getGlobalFundData "" UserError in
  let numNodesToStake := Z.of_nat (length (Arguments args) + length (StakedKeys status)) in
  let! totalActive := deref (TotalActive globalFund) in
  returnIf (totalActive <? nodePrice * numNodesToStake)%Z
    "not enough in total active to stake" UserError ;;;
  let stakeArgs := makeStakeArgs listToCheck (Arguments args) in
  let! vmOutput := callValidator (recipientOf args) "stake" stakeArgs 0 in
  let! tooManyNodesErrMsg := gets (λ e, getTooManyNodesErrMsg (GetLogs e)) in
  returnIf (negb (bool_decide (tooManyNodesErrMsg = ""))) tooManyNodesErrMsg UserError ;;;
  orReturn (updateDelegationStatusAfterStake status (outReturnData vmOutput) (Arguments args))
    "" UserError ;;;
  createAndAddLogEntry args (Arguments args) ;;;
  ret Ok.

Definition moveUnStaked (status : DelegationContractStatus) (key : bytes) :
    DelegationContractStatus :=
  let (st, us) := moveNodeFromList (StakedKeys status) (UnStakedKeys status) key in
  withUnStakedKeys us (withStakedKeys st status).

Definition unStakeNodes (args : ContractCallInput) : handler E :=
  let! status := ownerStatus args in
  returnIf (negb (verifyIfAllBLSPubKeysExist (StakedKeys status) (Arguments args)))
    ErrBLSPublicKeyMismatch UserError ;;;
  let! vmOutput := callValidator (recipientOf args) "unStakeNodes" (Arguments args) 0 in
  let! ' (successKeys, _) :=
    liftO (getSuccessAndUnSuccessKeys (outReturnData vmOutput) (Arguments args)) in
  orReturn (saveDelegationStatus (foldl moveUnStaked status successKeys)) "" UserError ;;;
  createAndAddLogEntry args successKeys ;;;
  ret Ok.

Definition moveReStaked (status : DelegationContractStatus) (key : bytes) :
    DelegationContractStatus :=
  let (us, st) := moveNodeFromList (UnStakedKeys status) (StakedKeys status) key in
  withUnStakedKeys us (withStakedKeys st status).

Definition reStakeUnStakedNodes (args : ContractCallInput) : handler E :=
  let! status := ownerStatus args in
  returnIf (negb (verifyIfAllBLSPubKeysExist (UnStakedKeys status) (Arguments args)))
    ErrBLSPublicKeyMismatch UserError ;;;
  callValidator (recipientOf args) "reStakeUnStakedNodes" (Arguments args) 0 ;;;
  orReturn (saveDelegationStatus (foldl moveReStaked status (Arguments args))) "" UserError ;;;
  createAndAddLogEntry args (Arguments args) ;;;
  ret Ok.

Definition moveUnBonded (status : DelegationContractStatus) (key : bytes) :
    DelegationContractStatus :=
  let (us, ns) := moveNodeFromList (UnStakedKeys status) (NotStakedKeys status) key in
  let (st, ns) := moveNodeFromList (StakedKeys status) ns key in
  withUnStakedKeys us (withStakedKeys st (withNotStakedKeys ns status)).

(** even some staked keys can be unbonded *)
Definition unBondNodes (args : ContractCallInput) : handler E :=
  let! status := ownerStatus args in
  let listToCheck := UnStakedKeys status ++ StakedKeys status in
  returnIf (negb (verifyIfAllBLSPubKeysExist listToCheck (Arguments args)))
    ErrBLSPublicKeyMismatch UserError ;;;
  let! vmOutput := callValidator (recipientOf args) "unBondNodes" (Arguments args) 0 in
  let! ' (successKeys, _) :=
    liftO (getSuccessAndUnSuccessKeys (outReturnData vmOutput) (Arguments args)) in
  orReturn (saveDelegationStatus (foldl moveUnBonded status successKeys)) "" UserError ;;;
  ret Ok.

Definition getTransferBackFromVMOutput (vmOutput : CallOutput) : Z :=
  foldl Z.add 0%Z (outTransfers vmOutput).

Definition unJailNodes (args : ContractCallInput) : handler E :=
  returnIf (length (Arguments args) =? 0) "not enough arguments" FunctionWrongSignature ;;;
  useGas gasDelegationOps ;;;
  returnIf (checkForDuplicates (Arguments args)) ErrDuplicatesFoundInArguments UserError ;;;
  let! status := orReturn getDelegationStatus "" UserError in
  let listToCheck := StakedKeys status ++ UnStakedKeys status in
  returnIf (negb (verifyIfAllBLSPubKeysExist listToCheck (Arguments args)))
    ErrBLSPublicKeyMismatch UserError ;;;
  let! ' (isNew, delegator) := orReturn (getOrCreateDelegatorData (callerOf args)) "" UserError in
  returnIf (isNew || (length (ActiveFund delegator) =? 0)) "not a delegator" UserError ;;;
  let! vmOutput := callValidator (recipientOf args) "unJail" (Arguments args) (valueOf args) in
  let sendBackValue := getTransferBackFromVMOutput vmOutput in
  (if (0 <? sendBackValue)%Z then transfer (callerOf args) (recipientOf args) sendBackValue
   else ret tt) ;;;
  createAndAddLogEntry args (Arguments args) ;;;
  ret Ok.

Definition unStakeAtEndOfEpoch (args : ContractCallInput) : handler E :=
  returnIf (negb (bool_decide (callerOf args = endOfEpochAddr))
            && negb (bool_decide (callerOf args = stakingSCAddr)))
    "can be called by end of epoch address only" UserError ;;;
  let! status := orReturn getDelegationStatus "" UserError in
  orReturn (saveDelegationStatus (foldl moveUnStaked status (Arguments args))) "" UserError ;;;
  ret Ok.

(** ** correctNodesStatus *)
Definition appendNew (acc : gset bytes * list NodesData) (node : NodesData) :
    gset bytes * list NodesData :=
  let (mapAllNodes, list) := acc in
  if bool_decide (BLSKey node ∈ mapAllNodes) then acc
  else ({[BLSKey node]} ∪ mapAllNodes, list ++ [node]).

Definition createMergedListWithoutDuplicates (status : DelegationContractStatus)
    (blsKeysFromValidatorSC : list bytes) : list NodesData :=
  let allNodesList := StakedKeys status ++ UnStakedKeys status ++ NotStakedKeys status in
  (foldl appendNew (foldl appendNew (∅, []) allNodesList)
     (map (λ blsKey, mkNode blsKey blsKey) blsKeysFromValidatorSC)).2.

(** an error of [getBLSKeyStatus] comes with [notStaked] *)
Definition sortByStatus (lists : list NodesData * list NodesData * list NodesData)
    (key : NodesData) : M E ReturnCode (list NodesData * list NodesData * list NodesData) :=
  let '(stakedKeys, unStakedKeys, notStakedKeys) := lists in
  let! keyStatus := attempt (getBLSKeyStatus (BLSKey key)) in
  let keyStatus := match keyStatus with inl _ => notStaked | inr keyStatus => keyStatus end in
  ret (if (keyStatus =? active)%Z then (stakedKeys ++ [key], unStakedKeys, notStakedKeys)
       else if (keyStatus =? unStaked)%Z then (stakedKeys, unStakedKeys ++ [key], notStakedKeys)
       else (stakedKeys, unStakedKeys, notStakedKeys ++ [key])).

Definition checkArgumentsForGeneralViewFunc (args : ContractCallInput) : M E ReturnCode unit :=
  returnIf (negb (valueOf args =? 0)%Z) ErrCallValueMustBeZero UserError ;;;
  useGas gasDelegationOps ;;;
  returnIf (negb (length (Arguments args) =? 0)) ErrInvalidNumOfArguments UserError.

Definition correctNodesStatus (args : ContractCallInput) : handler E :=
  returnIf (negb (delegationFlag AddTokensToDelegationFlag))
    (Function args ++ " is an unknown function") UserError ;;;
  checkArgumentsForGeneralViewFunc args ;;;
  useGas gasGetAllNodeStates ;;;
  let! status := orReturn getDelegationStatus "" UserError in
  let! validatorData := orReturn (getValidatorData (recipientOf args)) "" UserError in
  let allNodesList := createMergedListWithoutDuplicates status (BlsPubKeys validatorData) in
  let! ' (stakedKeys, unStakedKeys, notStakedKeys) :=
    foldEach allNodesList ([], [], []) sortByStatus in
  orReturn (saveDelegationStatus (mkStatus stakedKeys notStakedKeys unStakedKeys (NumUsers status)))
    "" UserError ;;;
  ret Ok.
End nodes.
