(* ===== verification/DelegationSC.v ===== *)
(** * DelegationSC: the delegation system smart contract (delegation.go)

    The deployment of a contract, its configuration and ownership, the merge
    of validators, the views, and the dispatcher [Execute]. *)
From S2P Require Import Prelude SystemEI StakingData DelegationData DelegationFunds DelegationNodes.
#[local] Open Scope go_scope.

Section contract.
Context {E : Type} {EI : SystemEI E} {DC : DelegationContract}.

(** ** Deployment *)
Definition createNewDelegationContractStatus : DelegationContractStatus := mkStatus [] [] [] 0.

Definition initDelegationStructures (initialOwnerFunds : option Z) (ownerAddress : bytes)
    (serviceFee maxDelegationCap : Z) : M E ReturnCode unit :=
  setStorage DelegationSystemSCKey DelegationSystemSCKey ;;;
  setStorage ownerKey ownerAddress ;;;
  setStorage serviceFeeKey (bigBytes serviceFee) ;;;
  let! nonce := gets (λ e, CurrentNonce (hookOf e)) in
  orReturn (saveDelegationContractConfig
    (mkDelegationConfig (Some maxDelegationCap) initialOwnerFunds false true nonce
       unBondPeriodInEpochs true)) "" UserError ;;;
  orReturn (saveGlobalFundData (mkGlobalFund (Some 0%Z) (Some 0%Z))) "" UserError.

Definition init (args : ContractCallInput) : handler E :=
  let! ownerAddress := readStorage ownerKey in
  returnIf (negb (length ownerAddress =? 0)) "smart contract was already initialized"
    UserError ;;;
  returnIf (negb (length (Arguments args) =? 2))
    "invalid number of arguments to init delegation contract" UserError ;;;
  let serviceFee := bigUint64 (setBytes (arg args 1)) in
  returnIf ((serviceFee <? minServiceFee) || (maxServiceFee <? serviceFee))%Z
    "service fee out of bounds" UserError ;;;
  let maxDelegationCap := setBytes (arg args 0) in
  returnIf (maxDelegationCap <? 0)%Z "invalid max delegation cap" UserError ;;;
  returnIf (valueOf args <? 0)%Z "invalid call value" UserError ;;;
  let initialOwnerFunds := valueOf args in
  initDelegationStructures (Some initialOwnerFunds) (callerOf args) serviceFee maxDelegationCap ;;;
  delegateUser args initialOwnerFunds initialOwnerFunds (callerOf args)
    createNewDelegationContractStatus.

Definition checkArgumentsForValidatorToDelegation (args : ContractCallInput) :
    M E ReturnCode unit :=
  returnIf (negb (delegationFlag DelegationValidatorToDelegationFlag))
    (Function args ++ " is an unknown function") UserError ;;;
  returnIf (negb (bool_decide (callerOf args = delegationMgrSCAddress)))
    "only delegation manager sc can call this function" UserError ;;;
  returnIf (negb (valueOf args =? 0)%Z) "call value must be 0" UserError ;;;
  returnIf (length (Arguments args) <? 1) "not enough arguments" UserError ;;;
  returnIf (negb (length (arg args 0) =? length delegationMgrSCAddress))
    "invalid arguments, first must be an address" UserError.

(** before [AddTokensToDelegationFlag] an unstaked key replaces the unstaked
    keys by the staked ones and itself *)
Definition updateDelegationStatusFromValidatorData (validatorData : ValidatorDataV2)
    (dStatus : DelegationContractStatus) : M E error DelegationContractStatus :=
  foldEach (BlsPubKeys validatorData) dStatus (λ dStatus blsKey,
    let! status := getBLSKeyStatus blsKey in
    let nodesData := mkNode blsKey blsKey in
    ret (if (status =? active)%Z then withStakedKeys (StakedKeys dStatus ++ [nodesData]) dStatus
         else if (status =? unStaked)%Z then
           withUnStakedKeys ((if delegationFlag AddTokensToDelegationFlag
                              then UnStakedKeys dStatus else StakedKeys dStatus) ++ [nodesData])
             dStatus
         else dStatus)).

Definition getAndVerifyValidatorData (address : bytes) : M E ReturnCode ValidatorDataV2 :=
  let! validatorData := orReturn (getValidatorData address) "" UserError in
  returnIf (negb (bool_decide (valRewardAddress validatorData = address)))
    "invalid reward address on validator data" UserError ;;;
  let! delegationManagement := orReturn getDelegationManagement "" UserError in
  let! totalStakeValue := deref (TotalStakeValue validatorData) in
  let! minDeposit := deref (MinDeposit delegationManagement) in
  returnIf (totalStakeValue <? minDeposit)%Z "not enough stake to make delegation contract"
    UserError ;;;
  returnIf (0 <? length (UnstakedInfo validatorData))
    "clean unStaked info before changing validator to delegation contract" UserError ;;;
  ret validatorData.

Definition initFromValidatorData (args : ContractCallInput) : handler E :=
  checkArgumentsForValidatorToDelegation args ;;;
  returnIf (negb (length (Arguments args) =? 3)) "invalid number of arguments" UserError ;;;
  let maxDelegationCap := setBytes (arg args 1) in
  returnIf (maxDelegationCap <? 0)%Z "invalid max delegation cap" UserError ;;;
  let serviceFee := bigUint64 (setBytes (arg args 2)) in
  returnIf ((serviceFee <? minServiceFee) || (maxServiceFee <? serviceFee))%Z
    "service fee out of bounds" UserError ;;;
  let ownerAddress := arg args 0 in
  callValidator delegationMgrSCAddress "changeOwnerOfValidatorData"
    [ownerAddress; recipientOf args] 0 ;;;
  let! validatorData := getAndVerifyValidatorData (recipientOf args) in
  let! delegationManagement := orReturn getDelegationManagement "" UserError in
  initDelegationStructures (MinDeposit delegationManagement) ownerAddress serviceFee
    maxDelegationCap ;;;
  let! dStatus := orReturn (updateDelegationStatusFromValidatorData validatorData
                              createNewDelegationContractStatus) "" UserError in
  let! totalStakeValue := deref (TotalStakeValue validatorData) in
  delegateUser args totalStakeValue 0 ownerAddress dStatus.

Definition mergeValidatorDataToDelegation (args : ContractCallInput) : handler E :=
  checkArgumentsForValidatorToDelegation args ;;;
  returnIf (negb (length (Arguments args) =? 1)) "invalid number of arguments" UserError ;;;
  let validatorAddress := arg args 0 in
  let! validatorData := getAndVerifyValidatorData validatorAddress in
  callValidator delegationMgrSCAddress "mergeValidatorData"
    [validatorAddress; recipientOf args] 0 ;;;
  let! dStatus := orReturn getDelegationStatus "" UserError in
  let! dStatus := orReturn (updateDelegationStatusFromValidatorData validatorData dStatus)
                    "" UserError in
  createAndAddLogEntry args [validatorAddress] ;;;
  let! totalStakeValue := deref (TotalStakeValue validatorData) in
  delegateUser args totalStakeValue 0 validatorAddress dStatus.

Definition checkInputForWhitelisting (args : ContractCallInput) : M E ReturnCode unit :=
  returnIf (negb (delegationFlag DelegationValidatorToDelegationFlag))
    (Function args ++ " is an unknown function") UserError ;;;
  let! owner := gets (isOwner (callerOf args)) in
  returnIf (negb (owner || bool_decide (callerOf args = DelegationManagerSCAddress)))
    "can be called by owner or the delegation manager" UserError ;;;
  returnIf (negb (valueOf args =? 0)%Z) "non-payable function" UserError ;;;
  useGas gasDelegationOps.

Definition whitelistForMerge (args : ContractCallInput) : handler E :=
  checkInputForWhitelisting args ;;;
  returnIf (negb (length (Arguments args) =? 1)) "invalid number of arguments" UserError ;;;
  returnIf (negb (length (arg args 0) =? length (callerOf args)))
    "invalid argument, wanted an address" UserError ;;;
  returnIf (bool_decide (arg args 0 = callerOf args)) "cannot whitelist own address" UserError ;;;
  createAndAddLogEntry args [arg args 0] ;;;
  setStorage whitelistedAddress (arg args 0) ;;;
  ret Ok.

Definition deleteWhitelistForMerge (args : ContractCallInput) : handler E :=
  checkInputForWhitelisting args ;;;
  returnIf (negb (length (Arguments args) =? 0)) "invalid number of arguments" UserError ;;;
  createAndAddLogEntry args [] ;;;
  setStorage whitelistedAddress [] ;;;
  ret Ok.

Definition getWhitelistForMerge (args : ContractCallInput) : handler E :=
  returnIf (negb (delegationFlag DelegationValidatorToDelegationFlag))
    (Function args ++ " is an unknown function") UserError ;;;
  checkArgumentsForGeneralViewFunc args ;;;
  let! whitelistedAddr := readStorage whitelistedAddress in
  finish whitelistedAddr ;;;
  ret Ok.

(** ** Configuration *)
Definition basicArgCheckForConfigChanges (args : ContractCallInput) :
    M E ReturnCode DelegationConfig :=
  checkOwnerCallValueGasAndDuplicates args ;;;
  returnIf (negb (length (Arguments args) =? 1)) "invalid number of arguments" UserError ;;;
  orReturn getDelegationContractConfig "" UserError.

Definition setAutomaticActivation (args : ContractCallInput) : handler E :=
  let! dConfig := basicArgCheckForConfigChanges args in
  let! dConfig :=
    if bool_decide (arg args 0 = toBytes "true") then
      returnIf (delegationFlag AutomaticActivationOfNodesDisableFlag)
        "automatic activation is disabled" UserError ;;;
      ret (withAutomaticActivation true dConfig)
    else if bool_decide (arg args 0 = toBytes "false") then
      ret (withAutomaticActivation false dConfig)
    else addReturnMessage "invalid argument" ;;; throw UserError in
  orReturn (saveDelegationContractConfig dConfig) "" UserError ;;;
  createAndAddLogEntry args [arg args 0] ;;;
  ret Ok.

Definition changeServiceFee (args : ContractCallInput) : handler E :=
  checkOwnerCallValueGasAndDuplicates args ;;;
  returnIf (negb (length (Arguments args) =? 1)) "invalid number of arguments"
    FunctionWrongSignature ;;;
  let newServiceFee := bigUint64 (setBytes (arg args 0)) in
  returnIf ((newServiceFee <? minServiceFee) || (maxServiceFee <? newServiceFee))%Z
    "new service fee out of bounds" UserError ;;;
  createAndAddLogEntry args [arg args 0] ;;;
  setStorage serviceFeeKey (bigBytes newServiceFee) ;;;
  ret Ok.

Definition setCheckCapOnReDelegateRewards (args : ContractCallInput) : handler E :=
  let! dConfig := basicArgCheckForConfigChanges args in
  let! dConfig :=
    if bool_decide (arg args 0 = toBytes "true") then
      ret (withCheckCapOnReDelegateRewards true dConfig)
    else if bool_decide (arg args 0 = toBytes "false") then
      ret (withCheckCapOnReDelegateRewards false dConfig)
    else addReturnMessage "invalid argument" ;;; throw UserError in
  orReturn (saveDelegationContractConfig dConfig) "" UserError ;;;
  ret Ok.

Definition modifyTotalDelegationCap (args : ContractCallInput) : handler E :=
  let! dConfig := basicArgCheckForConfigChanges args in
  let newTotalDelegationCap := setBytes (arg args 0) in
  let! globalFund := orReturn getGlobalFundData "" UserError in
  let! totalActive := deref (TotalActive globalFund) in
  returnIf ((newTotalDelegationCap <? totalActive) && negb (newTotalDelegationCap =? 0))%Z
    "cannot make total delegation cap smaller than active" UserError ;;;
  orReturn (saveDelegationContractConfig
    (withMaxDelegationCap (Some newTotalDelegationCap) dConfig)) "" UserError ;;;
  createAndAddLogEntry args [arg args 0] ;;;
  ret Ok.

Definition setMetaData (args : ContractCallInput) : handler E :=
  checkOwnerCallValueGasAndDuplicates args ;;;
  returnIf (negb (length (Arguments args) =? 3)) "needed 3 arguments" UserError ;;;
  let! marshaledData := orReturn (fromSum (Marshal
    (mkMetaData (arg args 0) (arg args 1) (arg args 2)))) "" UserError in
  setStorage delegationMetaData marshaledData ;;;
  ret Ok.

(** ** Ownership *)
Definition setOwnerOperatingOnAccount (newOwner : bytes) : M E error unit := λ e,
  match SetOwnerOperatingOnAccount newOwner e with
  | inl err => (Throw err, e)
  | inr e' => (Ret tt, e')
  end.

Definition saveOwnerToAccount (newOwner : bytes) : M E error unit :=
  if negb (delegationFlag FixDelegationChangeOwnerOnAccountFlag) then ret tt
  else setOwnerOperatingOnAccount newOwner.

Definition changeOwner (args : ContractCallInput) : handler E :=
  returnIf (negb (delegationFlag ChangeDelegationOwnerFlag))
    (Function args ++ " is an unknown function") UserError ;;;
  checkOwnerCallValueGasAndDuplicates args ;;;
  returnIf (negb (length (Arguments args) =? 1)) "wrong number of arguments, expected 1"
    UserError ;;;
  let newOwner := arg args 0 in
  returnIf (negb (length newOwner =? length (callerOf args)))
    "invalid argument, wanted an address" UserError ;;;
  let! dataFromDelegationManager := readStorageFrom delegationMgrSCAddress newOwner in
  returnIf (0 <? length dataFromDelegationManager)
    "destination already deployed a delegation sc" UserError ;;;
  let! ' (isNew, _) := orReturn (getOrCreateDelegatorData newOwner) "" UserError in
  returnIf (negb isNew) "destination should be a new account" UserError ;;;
  let! ' (isNew, ownerDelegatorData) :=
    orReturn (getOrCreateDelegatorData (callerOf args)) "" UserError in
  returnIf isNew "owner is new delegator" UserError ;;;
  setStorage (callerOf args) [] ;;;
  orReturn (saveDelegatorData newOwner ownerDelegatorData) "" UserError ;;;
  modify (SetStorageForAddress delegationMgrSCAddress newOwner (recipientOf args)) ;;;
  modify (SetStorageForAddress delegationMgrSCAddress (callerOf args) []) ;;;
  setStorage ownerKey newOwner ;;;
  orReturn (saveOwnerToAccount newOwner) "" UserError ;;;
  createLogEventsForChangeOwner args ownerDelegatorData ;;;
  ret Ok.

Definition synchronizeOwner (args : ContractCallInput) : handler E :=
  returnIf (negb (delegationFlag FixDelegationChangeOwnerOnAccountFlag))
    (Function args ++ " is an unknown function") UserError ;;;
  returnIf (negb (valueOf args =? 0)%Z) ErrCallValueMustBeZero UserError ;;;
  useGas gasDelegationOps ;;;
  returnIf (negb (length (Arguments args) =? 0)) "invalid number of arguments, expected 0"
    UserError ;;;
  let! ownerAddress := readStorage ownerKey in
  orReturn (setOwnerOperatingOnAccount ownerAddress) "" UserError ;;;
  ret Ok.

Definition addTokens (args : ContractCallInput) : handler E :=
  returnIf (negb (delegationFlag AddTokensToDelegationFlag))
    (Function args ++ " is an unknown function") UserError ;;;
  returnIf (negb (bool_decide (callerOf args = addTokensAddr)))
    (Function args ++ " can be called by whitelisted address only") UserError ;;;
  ret Ok.

(** ** Views of the contract *)
Definition getRewardData (args : ContractCallInput) : handler E :=
  returnIf (negb (length (Arguments args) =? 1)) "must call with 1 arguments" UserError ;;;
  returnIf (negb (valueOf args =? 0)%Z) ErrCallValueMustBeZero UserError ;;;
  useGas gasDelegationOps ;;;
  let epoch := bigUint64 (setBytes (arg args 0)) in
  let! found := attempt (getRewardComputationData (u32 epoch)) in
  match found with
  | inl _ | inr None => addReturnMessage "reward not found" ;;; ret UserError
  | inr (Some rewardData) =>
    let! toDistribute := deref (RewardsToDistribute rewardData) in
    finish (bigBytes toDistribute) ;;;
    let! totalActive := deref (RewardTotalActive rewardData) in
    finish (bigBytes totalActive) ;;;
    finish (bigBytes (ServiceFee rewardData)) ;;;
    ret Ok
  end.

(** as in [computeRewardsLoop] *)
Fixpoint totalRewardsLoop (fuel : nat) (i epoch total : Z) : M E error Z :=
  if (epoch <? i)%Z then ret total
  else match fuel with
  | O => panic
  | S fuel =>
    let! found := getRewardComputationData i in
    let! total :=
      match found with
      | None => ret total
      | Some rewardsData =>
        let! toDistribute := deref (RewardsToDistribute rewardsData) in
        ret (total + toDistribute)%Z
      end in
    totalRewardsLoop fuel (u32 (i + 1)) epoch total
  end.

Definition getTotalCumulatedRewards (args : ContractCallInput) : handler E :=
  checkArgumentsForGeneralViewFunc args ;;;
  returnIf (negb (bool_decide (callerOf args = endOfEpochAddr))) "this is a view function only"
    UserError ;;;
  let! epoch := currentEpoch in
  let! totalCumulatedRewards := orReturn (totalRewardsLoop (Z.to_nat (epoch + 1)) 0 epoch 0)
                                  "" UserError in
  finish (bigBytes totalCumulatedRewards) ;;;
  ret Ok.

Definition getNumUsers (args : ContractCallInput) : handler E :=
  checkArgumentsForGeneralViewFunc args ;;;
  let! delegationStatus := orReturn getDelegationStatus "" UserError in
  finish (bigBytes (i64 (NumUsers delegationStatus))) ;;;
  ret Ok.

Definition getTotalUnStaked (args : ContractCallInput) : handler E :=
  checkArgumentsForGeneralViewFunc args ;;;
  let! globalFund := orReturn getGlobalFundData "" UserError in
  let! totalUnStaked := deref (TotalUnStaked globalFund) in
  finish (bigBytes totalUnStaked) ;;;
  ret Ok.

Definition getTotalActiveStake (args : ContractCallInput) : handler E :=
  checkArgumentsForGeneralViewFunc args ;;;
  let! globalFund := orReturn getGlobalFundData "" UserError in
  let! totalActive := deref (TotalActive globalFund) in
  finish (bigBytes totalActive) ;;;
  ret Ok.

Definition getNumNodes (args : ContractCallInput) : handler E :=
  checkArgumentsForGeneralViewFunc args ;;;
  let! delegationStatus := orReturn getDelegationStatus "" UserError in
  let numNodes := length (StakedKeys delegationStatus) + length (UnStakedKeys delegationStatus)
                  + length (NotStakedKeys delegationStatus) in
  finish (bigBytes (Z.of_nat numNodes)) ;;;
  ret Ok.

Definition finishNodes (title : string) (nodes : list NodesData) : M E ReturnCode unit :=
  (if 0 <? length nodes then finish (toBytes title) else ret tt) ;;;
  forEach nodes (λ node, finish (BLSKey node)).

Definition getAllNodeStates (args : ContractCallInput) : handler E :=
  checkArgumentsForGeneralViewFunc args ;;;
  let! delegationStatus := orReturn getDelegationStatus "" UserError in
  finishNodes "staked" (StakedKeys delegationStatus) ;;;
  finishNodes "notStaked" (NotStakedKeys delegationStatus) ;;;
  finishNodes "unStaked" (UnStakedKeys delegationStatus) ;;;
  ret Ok.

Definition getContractConfig (args : ContractCallInput) : handler E :=
  checkArgumentsForGeneralViewFunc args ;;;
  let! delegationConfig := orReturn getDelegationContractConfig "" UserError in
  let automaticActivation := AutomaticActivation delegationConfig
    && negb (delegationFlag AutomaticActivationOfNodesDisableFlag) in
  let! cap := deref (MaxDelegationCap delegationConfig) in
  let! ownerAddress := readStorage ownerKey in
  let! serviceFee := readStorage serviceFeeKey in
  finish ownerAddress ;;;
  finish serviceFee ;;;
  finish (bigBytes cap) ;;;
  let! initialOwnerFunds := deref (InitialOwnerFunds delegationConfig) in
  finish (bigBytes initialOwnerFunds) ;;;
  finish (boolToSlice automaticActivation) ;;;
  finish (boolToSlice (negb (cap =? 0)%Z)) ;;;
  finish (boolToSlice (ChangeableServiceFee delegationConfig)) ;;;
  finish (boolToSlice (CheckCapOnReDelegateRewards delegationConfig)) ;;;
  finish (bigBytes (CreatedNonce delegationConfig)) ;;;
  finish (bigBytes (UnBondPeriodInEpochs delegationConfig)) ;;;
  ret Ok.

Definition getMetaData (args : ContractCallInput) : handler E :=
  checkArgumentsForGeneralViewFunc args ;;;
  let! marshaledData := readStorage delegationMetaData in
  returnIf (length marshaledData =? 0) "delegation meta data is not set" UserError ;;;
  let! dMetaData := orReturn (fromSum (Unmarshal zeroMetaData marshaledData)) "" UserError in
  finish (Name dMetaData) ;;;
  finish (Website dMetaData) ;;;
  finish (MetaIdentifier dMetaData) ;;;
  ret Ok.

(** ** Views of a delegator *)
Definition checkArgumentsForUserViewFunc (args : ContractCallInput) :
    M E ReturnCode DelegatorData :=
  returnIf (negb (valueOf args =? 0)%Z) ErrCallValueMustBeZero UserError ;;;
  useGas gasDelegationOps ;;;
  returnIf (negb (length (Arguments args) =? 1)) ErrInvalidNumOfArguments UserError ;;;
  let! ' (isNew, delegator) := orReturn (getOrCreateDelegatorData (arg args 0)) "" UserError in
  returnIf isNew "view function works only for existing delegators" UserError ;;;
  ret delegator.

Definition finishActiveFund (delegator : DelegatorData) : M E ReturnCode unit :=
  if length (ActiveFund delegator) =? 0 then finish (bigBytes 0)
  else
    let! fund := orReturn (getFund (ActiveFund delegator)) "" UserError in
    let! fundValue := deref (FundValue fund) in
    finish (bigBytes fundValue).

Definition getUserActiveStake (args : ContractCallInput) : handler E :=
  let! delegator := checkArgumentsForUserViewFunc args in
  finishActiveFund delegator ;;;
  ret Ok.

Definition computeTotalUnStaked (delegator : DelegatorData) : M E error Z :=
  foldEach (UnStakedFunds delegator) 0%Z (λ totalUnStaked fundKey,
    let! fund := getFund fundKey in
    let! fundValue := deref (FundValue fund) in
    ret (totalUnStaked + fundValue)%Z).

Definition getUserUnStakedValue (args : ContractCallInput) : handler E :=
  let! delegator := checkArgumentsForUserViewFunc args in
  let! totalUnStaked := orReturn (computeTotalUnStaked delegator) "" UserError in
  finish (bigBytes totalUnStaked) ;;;
  ret Ok.

Definition getUserUnBondable (args : ContractCallInput) : handler E :=
  let! delegator := checkArgumentsForUserViewFunc args in
  let! dConfig := orReturn getDelegationContractConfig "" UserError in
  let! totalUnBondable := orReturn (getUnBondableTokens delegator (UnBondPeriodInEpochs dConfig))
                            "" UserError in
  finish (bigBytes totalUnBondable) ;;;
  ret Ok.

Definition getUserUnDelegatedList (args : ContractCallInput) : handler E :=
  let! delegator := checkArgumentsForUserViewFunc args in
  let! dConfig := orReturn getDelegationContractConfig "" UserError in
  let! epoch := currentEpoch in
  forEach (UnStakedFunds delegator) (λ fundKey,
    let! fund := orReturn (getFund fundKey) "" UserError in
    let! fundValue := deref (FundValue fund) in
    finish (bigBytes fundValue) ;;;
    let elapsedEpoch := u32 (epoch - FundEpoch fund) in
    finish (if (UnBondPeriodInEpochs dConfig <=? elapsedEpoch)%Z then bigBytes 0
            else bigBytes (UnBondPeriodInEpochs dConfig - elapsedEpoch)%Z)) ;;;
  ret Ok.

Definition getClaimableRewards (args : ContractCallInput) : handler E :=
  let! delegator := checkArgumentsForUserViewFunc args in
  let! delegator := orReturn (computeAndUpdateRewards (arg args 0) delegator) "" UserError in
  let! unClaimed := deref (UnClaimedRewards delegator) in
  finish (bigBytes unClaimed) ;;;
  ret Ok.

Definition isDelegator (args : ContractCallInput) : handler E :=
  checkArgumentsForUserViewFunc args ;;;
  ret Ok.

Definition getDelegatorFundsData (args : ContractCallInput) : handler E :=
  let! delegator := checkArgumentsForUserViewFunc args in
  finishActiveFund delegator ;;;
  let! delegator := orReturn (computeAndUpdateRewards (arg args 0) delegator) "" UserError in
  let! unClaimed := deref (UnClaimedRewards delegator) in
  finish (bigBytes unClaimed) ;;;
  let! totalUnStaked := orReturn (computeTotalUnStaked delegator) "" UserError in
  finish (bigBytes totalUnStaked) ;;;
  let! dConfig := orReturn getDelegationContractConfig "" UserError in
  let! totalUnBondable := orReturn (getUnBondableTokens delegator (UnBondPeriodInEpochs dConfig))
                            "" UserError in
  finish (bigBytes totalUnBondable) ;;;
  ret Ok.

Definition getTotalCumulatedRewardsForUser (args : ContractCallInput) : handler E :=
  let! delegator := checkArgumentsForUserViewFunc args in
  let! delegator := orReturn (computeAndUpdateRewards (arg args 0) delegator) "" UserError in
  let! cumulated := deref (TotalCumulatedRewards delegator) in
  let! unClaimed := deref (UnClaimedRewards delegator) in
  finish (bigBytes (cumulated + unClaimed)%Z) ;;;
  ret Ok.

(** ** The dispatcher *)
Definition dispatch (function : string) : option (ContractCallInput → handler E) :=
  let table : list (string * (ContractCallInput → handler E)) :=
    [ (SCDeployInitFunctionName, init);
      ("initFromValidatorData", initFromValidatorData);
      ("mergeValidatorDataToDelegation", mergeValidatorDataToDelegation);
      ("whitelistForMerge", whitelistForMerge);
      ("deleteWhitelistForMerge", deleteWhitelistForMerge);
      ("getWhitelistForMerge", getWhitelistForMerge);
      ("addNodes", addNodes);
      ("removeNodes", removeNodes);
      ("stakeNodes", stakeNodes);
      ("unStakeNodes", unStakeNodes);
      ("unBondNodes", unBondNodes);
      ("unJailNodes", unJailNodes);
      ("delegate", delegate);
      ("unDelegate", unDelegate);
      ("withdraw", withdraw);
      ("changeServiceFee", changeServiceFee);
      ("setCheckCapOnReDelegateRewards", setCheckCapOnReDelegateRewards);
      ("setAutomaticActivation", setAutomaticActivation);
      ("modifyTotalDelegationCap", modifyTotalDelegationCap);
      ("updateRewards", updateRewards);
      ("claimRewards", claimRewards);
      ("getRewardData", getRewardData);
      ("getClaimableRewards", getClaimableRewards);
      ("getTotalCumulatedRewards", getTotalCumulatedRewards);
      ("getNumUsers", getNumUsers);
      ("getTotalUnStaked", getTotalUnStaked);
      ("getTotalActiveStake", getTotalActiveStake);
      ("getUserActiveStake", getUserActiveStake);
      ("getUserUnStakedValue", getUserUnStakedValue);
      ("getUserUnBondable", getUserUnBondable);
      ("getUserUnDelegatedList", getUserUnDelegatedList);
      ("getNumNodes", getNumNodes);
      ("getAllNodeStates", getAllNodeStates);
      ("getContractConfig", getContractConfig);
      ("unStakeAtEndOfEpoch", unStakeAtEndOfEpoch);
      ("reDelegateRewards", reDelegateRewards);
      ("reStakeUnStakedNodes", reStakeUnStakedNodes);
      ("isDelegator", isDelegator);
      ("getDelegatorFundsData", getDelegatorFundsData);
      ("getTotalCumulatedRewardsForUser", getTotalCumulatedRewardsForUser);
      ("setMetaData", setMetaData);
      ("getMetaData", getMetaData);
      ("addTokens", addTokens);
      ("correctNodesStatus", correctNodesStatus);
      ("changeOwner", changeOwner);
      ("synchronizeOwner", synchronizeOwner) ] in
  snd <$> List.find (λ entry, bool_decide (fst entry = function)) table.

Definition Execute (input : option ContractCallInput) : handler E :=
  match CheckIfNil input with
  | inl err => addReturnMessage err ;;; ret UserError
  | inr args =>
    returnIf (negb (delegationFlag DelegationSmartContractFlag))
      "delegation contract is not enabled" UserError ;;;
    returnIf (bool_decide (recipientOf args = FirstDelegationSCAddress))
      "first delegation sc address cannot be called" UserError ;;;
    returnIf (0 <? ESDTTransfers args) "cannot transfer ESDT to system SCs" UserError ;;;
    match dispatch (Function args) with
    | Some run => run args
    | None => addReturnMessage (Function args ++ " is an unknown function") ;;; ret UserError
    end
  end.
End contract.
