(* ===== verification/DelegationSpec.v ===== *)
(** * DelegationSpec: the delegation contract's storage as a typed store

    [Heap e m b] says that the storage of [e] holds the records of the store
    [m] and that the contract's balance is [b].  The lemmas give the effect of
    every load, save and call of the host on the store; the handlers are
    verified against them. *)
From Stdlib Require Import Floats.SpecFloat.
From S2P Require Import Prelude Sums SystemEI StakingData Contract DelegationData.
#[local] Open Scope go_scope.

(** ** The contract's third-party code *)
Record configRange (c : DelegationConfig) : Prop := {
  cr_nonce : (0 ≤ CreatedNonce c < 2 ^ 64)%Z;
  cr_period : (0 ≤ UnBondPeriodInEpochs c < 2 ^ 32)%Z;
}.
Definition statusRange (s : DelegationContractStatus) : Prop := (0 ≤ NumUsers s < 2 ^ 64)%Z.
Record fundRange (f : Fund) : Prop := {
  fr_epoch : (0 ≤ FundEpoch f < 2 ^ 32)%Z;
  fr_type : (0 ≤ FundType f < 2 ^ 32)%Z;
}.
Definition delegatorRange (d : DelegatorData) : Prop := (0 ≤ RewardsCheckpoint d < 2 ^ 32)%Z.
Definition rewardRange (r : RewardComputationData) : Prop := (0 ≤ ServiceFee r < 2 ^ 64)%Z.
Definition zeroDelegator : DelegatorData := mkDelegator [] [] 0 None None.

(** the share of the owner *)
Definition ownerShare `{DelegationContract} (toDistribute fee : Z) : Z :=
  let percentage := float64Div (float64OfUint64 fee) (float64OfUint64 maxServiceFee) in
  if delegationFlag StakingV2FlagAfterEpoch
  then GetIntTrimmedPercentageOfValue toDistribute percentage
  else GetApproximatePercentageOfValue toDistribute percentage.

(** a percentage of at most one hundred is between nothing and the whole *)
Class DelegationLaws `{DelegationContract} : Prop := {
  config_laws :: MarshallerLaws DelegationConfig configRange zeroDelegationConfig;
  status_laws :: MarshallerLaws DelegationContractStatus statusRange zeroStatus;
  fund_laws :: MarshallerLaws Fund fundRange zeroFund;
  delegator_laws :: MarshallerLaws DelegatorData delegatorRange zeroDelegator;
  global_laws :: MarshallerLaws GlobalFundData (λ _, True) zeroGlobalFund;
  reward_laws :: MarshallerLaws RewardComputationData rewardRange zeroRewardData;
  systemKey : DelegationSystemSCKey = toBytes "delegation";
  percentage_bounds v fee : (0 ≤ v)%Z → (0 ≤ fee ≤ maxServiceFee)%Z → (0 ≤ ownerShare v fee ≤ v)%Z;
}.

(** ** Keys *)
Inductive cellKey : Type :=
  | CConfig | CStatus | CGlobal | CTotal | CFee | COwner | CLast
  | CUser (address : bytes)
  | CFund (index : Z)
  | CReward (epoch : Z).
Definition fundKey (n : Z) : bytes := fundKeyPrefix ++ bigBytes n.
Definition keyOf (k : cellKey) : bytes :=
  match k with
  | CConfig => delegationConfigKey
  | CStatus => delegationStatusKey
  | CGlobal => globalFundKey
  | CTotal => totalActiveKey
  | CFee => serviceFeeKey
  | COwner => ownerKey
  | CLast => lastFundKey
  | CUser a => a
  | CFund n => fundKey n
  | CReward ep => rewardKeyForEpoch ep
  end.
Definition validFund (n : Z) : Prop := (0 < n < 2 ^ 64)%Z.
Definition isEpoch (ep : Z) : Prop := (0 ≤ ep < 2 ^ 32)%Z.
Definition validCell (k : cellKey) : Prop :=
  match k with
  | CUser a => isAddress a
  | CFund n => validFund n
  | CReward ep => isEpoch ep
  | _ => True
  end.

(** which cell a key belongs to *)
Definition cellAt (b : bytes) : option cellKey :=
  if length b =? 32 then Some (CUser b)
  else if bool_decide (take 4 b = fundKeyPrefix) then Some (CFund (setBytes (drop 4 b)))
  else if bool_decide (take 6 b = rewardKeyPrefix) then Some (CReward (setBytes (drop 6 b)))
  else if bool_decide (b = delegationConfigKey) then Some CConfig
  else if bool_decide (b = delegationStatusKey) then Some CStatus
  else if bool_decide (b = globalFundKey) then Some CGlobal
  else if bool_decide (b = totalActiveKey) then Some CTotal
  else if bool_decide (b = serviceFeeKey) then Some CFee
  else if bool_decide (b = ownerKey) then Some COwner
  else if bool_decide (b = lastFundKey) then Some CLast
  else None.

Lemma cellAt_keyOf k : validCell k → cellAt (keyOf k) = Some k.
Proof.
  destruct k as [| | | | | | |a|n|ep]; intros Hk; try (by vm_compute); unfold cellAt; simpl keyOf.
  - unfold validCell, isAddress in Hk. by rewrite Hk.
  - unfold validCell, validFund in Hk. pose proof (bigBytes_length 8 n ltac:(simpl; lia)).
    unfold fundKey. rewrite (proj2 (Nat.eqb_neq _ _)); [|rewrite length_app; simpl; lia].
    rewrite take_app_length' // drop_app_length' // bool_decide_true // setBytes_bigBytes //. lia.
  - unfold validCell, isEpoch in Hk. pose proof (bigBytes_length 4 ep ltac:(simpl; lia)).
    unfold rewardKeyForEpoch.
    rewrite (proj2 (Nat.eqb_neq _ _)); [|rewrite length_app; simpl; lia].
    rewrite bool_decide_false //. rewrite take_app_length' // drop_app_length' // bool_decide_true //.
    rewrite setBytes_bigBytes //. lia.
Qed.
Lemma keyOf_inj k k' : validCell k → validCell k' → keyOf k = keyOf k' → k = k'.
Proof. intros Hk Hk' Heq. apply cellAt_keyOf in Hk, Hk'. congruence. Qed.
Lemma keyOf_other k b : validCell k → cellAt b = None → keyOf k ≠ b.
Proof. intros Hk Hb <-. rewrite cellAt_keyOf // in Hb. Qed.

(** ** The store *)
Record Store : Type := mkStore {
  stConfig : option DelegationConfig;
  stStatus : option DelegationContractStatus;
  stGlobal : option GlobalFundData;
  stTotal : bytes;
  stFee : bytes;
  stOwner : bytes;
  stLast : bytes;
  stUsers : gmap bytes DelegatorData;
  stFunds : gmap Z Fund;
  stRewards : gmap Z RewardComputationData;
}.
Definition putConfig c (m : Store) :=
  let 'mkStore co st gl to fe ow la us fu re := m in mkStore (Some c) st gl to fe ow la us fu re.
Definition putStatus s (m : Store) :=
  let 'mkStore co st gl to fe ow la us fu re := m in mkStore co (Some s) gl to fe ow la us fu re.
Definition putGlobal g (m : Store) :=
  let 'mkStore co st gl to fe ow la us fu re := m in mkStore co st (Some g) to fe ow la us fu re.
Definition putTotal b (m : Store) :=
  let 'mkStore co st gl to fe ow la us fu re := m in mkStore co st gl b fe ow la us fu re.
Definition putFee b (m : Store) :=
  let 'mkStore co st gl to fe ow la us fu re := m in mkStore co st gl to b ow la us fu re.
Definition putOwner b (m : Store) :=
  let 'mkStore co st gl to fe ow la us fu re := m in mkStore co st gl to fe b la us fu re.
Definition putLast b (m : Store) :=
  let 'mkStore co st gl to fe ow la us fu re := m in mkStore co st gl to fe ow b us fu re.
Definition putUsers u (m : Store) :=
  let 'mkStore co st gl to fe ow la us fu re := m in mkStore co st gl to fe ow la u fu re.
Definition putFunds f (m : Store) :=
  let 'mkStore co st gl to fe ow la us fu re := m in mkStore co st gl to fe ow la us f re.
Definition putRewards r (m : Store) :=
  let 'mkStore co st gl to fe ow la us fu re := m in mkStore co st gl to fe ow la us fu r.

Definition holdsAt `{DelegationContract} (m : Store) (k : cellKey) : bytes → Prop :=
  match k with
  | CConfig => holds (stConfig m)
  | CStatus => holds (stStatus m)
  | CGlobal => holds (stGlobal m)
  | CTotal => eq (stTotal m)
  | CFee => eq (stFee m)
  | COwner => eq (stOwner m)
  | CLast => eq (stLast m)
  | CUser a => holds (stUsers m !! a)
  | CFund n => holds (stFunds m !! n)
  | CReward ep => holds (stRewards m !! ep)
  end.

(** the delegation manager lets the contract write its entries *)
Class ManagerShared {E} {CH : ContractHost E} {DC : DelegationContract} : Prop :=
  manager_shared : shared delegationMgrSCAddress.

(** ** The store in the storage *)
Section heap.
Context {E : Type} {EI : SystemEI E} {EIL : SystemEILaws E}.
Context {CH : ContractHost E} {CHL : HostLaws E}.
Context {DC : DelegationContract} {DL : DelegationLaws}.
Context (h : BlockchainHook) (self : bytes) (mg : DelegationManagement).

(** the cells of the storage, and what the contract reads of its host *)
Record HeapState (e : E) (m : Store) (b : Z) : Prop := {
  hs_cells k : validCell k → holdsAt m k (orEmpty (GetStorage (keyOf k) e));
  hs_empty : orEmpty (GetStorage [] e) = [];
  hs_hook : hookOf e = h;
  hs_self : selfAddress e = self;
  hs_balance : balanceOf e = b;
  hs_management : getDelegationManagement e = (Ret mg, e);
}.
Record Heap (e : E) (m : Store) (b : Z) : Prop := {
  hp_state : HeapState e m b;
  hp_ready : othersReady e;
}.
Section projections.
Context (e : E) (m : Store) (b : Z) (HH : Heap e m b).
Lemma hp_cells k : validCell k → holdsAt m k (orEmpty (GetStorage (keyOf k) e)).
Proof. apply HH. Qed.
Lemma hp_empty : orEmpty (GetStorage [] e) = [].
Proof. apply HH. Qed.
Lemma hp_hook : hookOf e = h.
Proof. apply HH. Qed.
Lemma hp_self : selfAddress e = self.
Proof. apply HH. Qed.
Lemma hp_balance : balanceOf e = b.
Proof. apply HH. Qed.
Lemma hp_management : getDelegationManagement e = (Ret mg, e).
Proof. apply HH. Qed.
End projections.

Lemma getDelegationManagement_same e e' :
  GetStorageFromAddress delegationMgrSCAddress delegationManagementKey e' =
  GetStorageFromAddress delegationMgrSCAddress delegationManagementKey e →
  getDelegationManagement e = (Ret mg, e) → getDelegationManagement e' = (Ret mg, e').
Proof.
  intros He. unfold getDelegationManagement, readStorageFrom. rewrite !bind_gets He.
  destruct (orEmpty _); [done|]. unfold fromSum. by destruct (Unmarshal _ _) as [|x]; intros [= ->].
Qed.

Lemma Heap_sameButBalance e e' m b :
  Heap e m b → sameButBalance e e' → Heap e' m (balanceOf e').
Proof.
  intros [[] Hr] [Hown Hothers Hhook Hs Hrd]. split; [|by apply Hrd]. split; [|by rewrite Hown|congruence..|].
  - intros k Hk. rewrite Hown. auto.
  - by apply (getDelegationManagement_same e).
Qed.
Lemma Heap_same e e' m b : Heap e m b → same e e' → Heap e' m b.
Proof.
  intros HH [Hs Hb]. rewrite -(hp_balance _ _ _ HH) -Hb. by eapply Heap_sameButBalance.
Qed.

(** *** Writing *)
Context (Hself : delegationMgrSCAddress ≠ self).

Lemma Heap_set e m b k v m' :
  Heap e m b → validCell k → holdsAt m' k v →
  (∀ k' x, k' ≠ k → validCell k' → holdsAt m k' x → holdsAt m' k' x) →
  Heap (SetStorage (keyOf k) v e) m' b.
Proof.
  intros HH Hk Hv Hrest. split; [|by apply set_ready, (hp_ready _ _ _ HH)]. split.
  - intros k' Hk'. destruct (decide (keyOf k' = keyOf k)) as [Heq|Hne].
    + apply keyOf_inj in Heq as ->; [|done..]. by rewrite get_set_eq.
    + rewrite get_set_ne //. apply Hrest; [congruence|done|]. by eapply hp_cells.
  - rewrite get_set_ne; [by eapply hp_empty|]. by apply keyOf_other.
  - rewrite hook_set. by eapply hp_hook.
  - rewrite set_self. by eapply hp_self.
  - rewrite set_balance. by eapply hp_balance.
  - eapply getDelegationManagement_same; [|by eapply hp_management].
    rewrite set_others //. by rewrite (hp_self _ _ _ HH).
Qed.
Lemma Heap_set_other e m b k v :
  Heap e m b → cellAt k = None → k ≠ [] → Heap (SetStorage k v e) m b.
Proof.
  intros HH Hk Hne. split; [|by apply set_ready, (hp_ready _ _ _ HH)]. split.
  - intros k' Hk'. rewrite get_set_ne; [by eapply hp_cells|]. symmetry. by apply keyOf_other.
  - rewrite get_set_ne //. by eapply hp_empty.
  - rewrite hook_set. by eapply hp_hook.
  - rewrite set_self. by eapply hp_self.
  - rewrite set_balance. by eapply hp_balance.
  - eapply getDelegationManagement_same; [|by eapply hp_management].
    rewrite set_others //. by rewrite (hp_self _ _ _ HH).
Qed.
Lemma Heap_setFor {MS : ManagerShared} e m b k v :
  Heap e m b → k ≠ delegationManagementKey →
  Heap (SetStorageForAddress delegationMgrSCAddress k v e) m b.
Proof.
  intros HH Hk. assert (delegationMgrSCAddress ≠ selfAddress e) as Hs by by rewrite (hp_self _ _ _ HH).
  split; [|apply setFor_ready; [exact MS|apply HH]]. split.
  - intros k' Hk'. rewrite setFor_own //. by eapply hp_cells.
  - rewrite setFor_own //. by eapply hp_empty.
  - rewrite setFor_hook. by eapply hp_hook.
  - rewrite setFor_self. by eapply hp_self.
  - rewrite setFor_balance; [by eapply hp_balance|exact MS].
  - eapply getDelegationManagement_same; [|by eapply hp_management]. rewrite setFor_others //.
Qed.

(** *** Loading and saving one record *)
(** the store changes in the cell that is written *)
Ltac set_cell k :=
  lazymatch goal with |- Heap (SetStorage ?b _ _) _ _ => change b with (keyOf k) end;
  eapply Heap_set; [eassumption|done|simpl; by rewrite ?lookup_insert_eq ?lookup_delete_eq|];
  let k' := fresh "k" in intros k' ? Hne ?; destruct k'; simpl; try done;
  first [by destruct Hne | rewrite lookup_insert_ne; [done|by intros ->]
        | rewrite lookup_delete_ne; [done|by intros ->]].

Lemma Heap_setConfig e m b c d :
  Heap e m b → holds (Some c) d → Heap (SetStorage delegationConfigKey d e) (putConfig c m) b.
Proof. intros. destruct m. set_cell CConfig. Qed.
Lemma Heap_setStatus e m b s d :
  Heap e m b → holds (Some s) d → Heap (SetStorage delegationStatusKey d e) (putStatus s m) b.
Proof. intros. destruct m. set_cell CStatus. Qed.
Lemma Heap_setGlobal e m b g d :
  Heap e m b → holds (Some g) d → Heap (SetStorage globalFundKey d e) (putGlobal g m) b.
Proof. intros. destruct m. set_cell CGlobal. Qed.
Lemma Heap_setTotal e m b d : Heap e m b → Heap (SetStorage totalActiveKey d e) (putTotal d m) b.
Proof. intros. destruct m. set_cell CTotal. Qed.
Lemma Heap_setFee e m b d : Heap e m b → Heap (SetStorage serviceFeeKey d e) (putFee d m) b.
Proof. intros. destruct m. set_cell CFee. Qed.
Lemma Heap_setOwner e m b d : Heap e m b → Heap (SetStorage ownerKey d e) (putOwner d m) b.
Proof. intros. destruct m. set_cell COwner. Qed.
Lemma Heap_setLast e m b d : Heap e m b → Heap (SetStorage lastFundKey d e) (putLast d m) b.
Proof. intros. destruct m. set_cell CLast. Qed.
Lemma Heap_setUser e m b a u d :
  Heap e m b → isAddress a → holds (Some u) d →
  Heap (SetStorage a d e) (putUsers (<[a := u]> (stUsers m)) m) b.
Proof. intros. destruct m. set_cell (CUser a). Qed.
Lemma Heap_deleteUser e m b a :
  Heap e m b → isAddress a → Heap (SetStorage a [] e) (putUsers (delete a (stUsers m)) m) b.
Proof. intros. destruct m. set_cell (CUser a). Qed.
Lemma Heap_setFund e m b n f d :
  Heap e m b → validFund n → holds (Some f) d →
  Heap (SetStorage (fundKey n) d e) (putFunds (<[n := f]> (stFunds m)) m) b.
Proof. intros. destruct m. set_cell (CFund n). Qed.
Lemma Heap_deleteFund e m b n :
  Heap e m b → validFund n →
  Heap (SetStorage (fundKey n) [] e) (putFunds (delete n (stFunds m)) m) b.
Proof. intros. destruct m. set_cell (CFund n). Qed.
Lemma Heap_setReward e m b ep r d :
  Heap e m b → isEpoch ep → holds (Some r) d →
  Heap (SetStorage (rewardKeyForEpoch ep) d e) (putRewards (<[ep := r]> (stRewards m)) m) b.
Proof. intros. destruct m. set_cell (CReward ep). Qed.

Section records.
Context {X : Type} (free : X → E → Prop).
Context (e : E) (m : Store) (b : Z) (HH : Heap e m b).

Lemma cell k : validCell k → holdsAt m k (orEmpty (GetStorage (keyOf k) e)).
Proof. by apply (hp_cells _ _ _ HH). Qed.

Lemma run_getManagement {fr} Q : Q mg e → run fr getDelegationManagement Q e.
Proof. intros HQ. eapply run_eq; [by eapply hp_management|done]. Qed.
Lemma run_currentEpoch Q : Q (CurrentEpoch h) e → run free currentEpoch Q e.
Proof. intros HQ. apply run_gets. by rewrite (hp_hook _ _ _ HH). Qed.
Lemma isOwner_heap a : isOwner a e = bool_decide (a = stOwner m).
Proof. unfold isOwner. pose proof (cell COwner I) as Ho. simpl in Ho. by rewrite -Ho. Qed.
Lemma run_isOwner a Q : Q (bool_decide (a = stOwner m)) e → run free (gets (isOwner a)) Q e.
Proof. intros HQ. apply run_gets. by rewrite isOwner_heap. Qed.
Lemma run_readOwner Q : Q (stOwner m) e → run free (readStorage ownerKey) Q e.
Proof. intros HQ. apply run_readStorage. pose proof (cell COwner I) as Ho. simpl in Ho. by rewrite -Ho. Qed.
Lemma run_readTotal Q : Q (stTotal m) e → run free (readStorage totalActiveKey) Q e.
Proof. intros HQ. apply run_readStorage. pose proof (cell CTotal I) as Ho. simpl in Ho. by rewrite -Ho. Qed.
Lemma run_readFee Q : Q (stFee m) e → run free (readStorage serviceFeeKey) Q e.
Proof. intros HQ. apply run_readStorage. pose proof (cell CFee I) as Ho. simpl in Ho. by rewrite -Ho. Qed.

Lemma run_getConfig {fr} c Q : stConfig m = Some c → Q c e → run fr getDelegationContractConfig Q e.
Proof. intros Hc. apply run_load. rewrite -Hc. apply (cell CConfig I). Qed.
Lemma run_getStatus {fr} s Q : stStatus m = Some s → Q s e → run fr getDelegationStatus Q e.
Proof. intros Hs. apply run_load. rewrite -Hs. apply (cell CStatus I). Qed.
Lemma run_getGlobal {fr} g Q : stGlobal m = Some g → Q g e → run fr getGlobalFundData Q e.
Proof. intros Hg. apply run_load. rewrite -Hg. apply (cell CGlobal I). Qed.
Lemma run_getFund {fr} n f Q :
  validFund n → stFunds m !! n = Some f → Q f e → run fr (getFund (fundKey n)) Q e.
Proof. intros Hn Hf. apply run_load. rewrite -Hf. by apply (cell (CFund n)). Qed.
Lemma run_getUser {fr} a Q :
  isAddress a →
  Q match stUsers m !! a with None => (true, newDelegator) | Some d => (false, d) end e →
  run fr (getOrCreateDelegatorData a) Q e.
Proof.
  intros Ha HQ. pose proof (cell (CUser a) Ha) as Hc. simpl in Hc.
  unfold getOrCreateDelegatorData. apply run_bind, run_readStorage.
  destruct (stUsers m !! a) as [d|]; [|by rewrite Hc]. destruct Hc as [Hne Hd].
  destruct (orEmpty _); [done|]. rewrite Hd. exact HQ.
Qed.
Lemma run_getReward {fr} ep Q :
  isEpoch ep → Q (stRewards m !! ep) e → run fr (getRewardComputationData ep) Q e.
Proof.
  intros Hep HQ. pose proof (cell (CReward ep) Hep) as Hc. simpl in Hc.
  unfold getRewardComputationData. apply run_bind, run_readStorage.
  destruct (stRewards m !! ep) as [r|]; [|by rewrite Hc]. destruct Hc as [Hne Hr].
  destruct (orEmpty _); [done|]. rewrite Hr. exact HQ.
Qed.

Lemma run_saveConfig c Q :
  configRange c → InitialOwnerFunds c ≠ None →
  (∀ e', Heap e' (putConfig c m) b → Q tt e') → run anyError (saveDelegationContractConfig c) Q e.
Proof.
  intros Hr Hn HQ. apply (run_save (zero:=zeroDelegationConfig)); [done|by intros ->|].
  intros d Hd. by apply HQ, Heap_setConfig.
Qed.
Lemma run_saveStatus s Q :
  statusRange s → (0 < NumUsers s)%Z →
  (∀ e', Heap e' (putStatus s m) b → Q tt e') → run anyError (saveDelegationStatus s) Q e.
Proof.
  intros Hr Hn HQ. apply (run_save (zero:=zeroStatus)); [done|by intros ->|].
  intros d Hd. by apply HQ, Heap_setStatus.
Qed.
Lemma run_saveGlobal ta tu Q :
  (∀ e', Heap e' (putTotal (bigBytes ta) (putGlobal (mkGlobalFund (Some ta) (Some tu)) m)) b →
     Q tt e') →
  run anyError (saveGlobalFundData (mkGlobalFund (Some ta) (Some tu))) Q e.
Proof.
  intros HQ. destruct (holds_marshal (zero:=zeroGlobalFund) (mkGlobalFund (Some ta) (Some tu)) I)
    as (d & Hd & Hx); [done|].
  unfold saveGlobalFundData. rewrite Hd. apply HQ, Heap_setTotal. by apply Heap_setGlobal.
Qed.
Lemma run_saveUser a u Q :
  isAddress a → delegatorRange u → UnClaimedRewards u ≠ None →
  (∀ e', Heap e' (putUsers (<[a := u]> (stUsers m)) m) b → Q tt e') →
  run anyError (saveDelegatorData a u) Q e.
Proof.
  intros Ha Hr Hn HQ. apply (run_save (zero:=zeroDelegator)); [done|by intros ->|].
  intros d Hd. by apply HQ, Heap_setUser.
Qed.
Lemma run_deleteUser a Q :
  isAddress a → (∀ e', Heap e' (putUsers (delete a (stUsers m)) m) b → Q tt e') →
  run free (setStorage a []) Q e.
Proof. intros Ha HQ. by apply HQ, Heap_deleteUser. Qed.
Lemma run_saveReward ep r Q :
  isEpoch ep → rewardRange r → RewardsToDistribute r ≠ None →
  (∀ e', Heap e' (putRewards (<[ep := r]> (stRewards m)) m) b → Q tt e') →
  run anyError (saveRewardData ep r) Q e.
Proof.
  intros Hep Hr Hn HQ. apply (run_save (zero:=zeroRewardData)); [done|by intros ->|].
  intros d Hd. by apply HQ, Heap_setReward.
Qed.
(** a fund of value 0 is deleted *)
Definition saveFundIn (n : Z) (f : Fund) (m : Store) : Store :=
  putFunds (if bool_decide (FundValue f = Some 0%Z) then delete n (stFunds m)
            else <[n := f]> (stFunds m)) m.
Lemma run_saveFund n f v Q :
  validFund n → fundRange f → FundValue f = Some v →
  (∀ e', Heap e' (saveFundIn n f m) b → Q tt e') → run anyError (saveFund (fundKey n) f) Q e.
Proof.
  intros Hn Hr Hv HQ. unfold saveFund. apply run_bind. eapply run_deref; [done|].
  unfold saveFundIn in HQ. rewrite Hv in HQ. destruct (Z.eqb_spec v 0) as [->|Hv0].
  - apply HQ. rewrite bool_decide_true //. by apply Heap_deleteFund.
  - apply (run_save (zero:=zeroFund)); [done|by intros ->|]. intros d Hd. apply HQ.
    rewrite bool_decide_false; [by apply Heap_setFund|congruence].
Qed.
Lemma run_deleteFund n Q :
  validFund n → (∀ e', Heap e' (putFunds (delete n (stFunds m)) m) b → Q tt e') →
  run free (setStorage (fundKey n) []) Q e.
Proof. intros Hn HQ. by apply HQ, Heap_deleteFund. Qed.

(** *** The host *)
Lemma run_message msg Q : (∀ e', Heap e' m b → Q tt e') → run free (addReturnMessage msg) Q e.
Proof. intros HQ. eapply HQ, Heap_same; [exact HH|apply same_msg]. Qed.
Lemma run_finish v Q : (∀ e', Heap e' m b → Q tt e') → run free (finish v) Q e.
Proof. intros HQ. eapply HQ, Heap_same; [exact HH|apply same_finish]. Qed.
Lemma run_log l Q : (∀ e', Heap e' m b → Q tt e') → run free (modify (AddLogEntry l)) Q e.
Proof. intros HQ. eapply HQ, Heap_same; [exact HH|apply same_log]. Qed.
Lemma run_logEntry i a l Q :
  (∀ e', Heap e' m b → Q tt e') → run free (createAndAddLogEntryCustom i a l) Q e.
Proof. apply run_log. Qed.
Lemma run_useGas R g Q : (∀ e', Heap e' m b → Q tt e') → run (exits R) (useGas g) Q e.
Proof.
  intros HQ. unfold run, wp, useGas. destruct (UseGas g e) as [e'|] eqn:Hg.
  - eapply HQ, Heap_same; [exact HH|by eapply same_gas].
  - intros ?. done.
Qed.
Lemma run_transfer d {TR : TransferLaws d E} v Q :
  d ≠ self → (∀ e', Heap e' m (b - v) → Q tt e') → run free (transfer d self v) Q e.
Proof.
  intros Hd HQ. rewrite -(hp_self _ _ _ HH) in Hd |- *.
  destruct (transfer_total v e Hd) as [e' He]. unfold run, wp, transfer. rewrite He.
  apply HQ. apply transfer_same in He as [Hs Hb]; [|done].
  rewrite -(hp_balance _ _ _ HH) -Hb. by eapply Heap_sameButBalance.
Qed.
End records.
End heap.
