(* ===== verification/DelegationInvariant.v ===== *)
(** * DelegationInvariant: when the books of a delegation contract balance

    The abstract state of a contract is a map [us] from addresses to users,
    each with the funds it owns.  [Inv] relates it to the store: every fund
    has one owner, the totals are the sums over the users, the recorded rewards
    of an epoch are at most what its users may claim.  [owed] is what the
    contract owes: rewards, and funds that are unstaked and not withdrawn. *)
From Stdlib Require Import Floats.SpecFloat.
From S2P Require Import Prelude Sums SystemEI StakingData Contract DelegationData DelegationFunds DelegationSpec.
#[local] Open Scope Z_scope.

(** ** Users *)
Record User : Type := mkUser {
  uActive : option (Z * Fund);
  uUnStaked : list (Z * Fund);
  uCheckpoint : Z;
  uUnClaimed : Z;
  uCumulated : Z;
}.
Definition activeKey (o : option (Z * Fund)) : bytes :=
  match o with None => [] | Some (n, _) => fundKey n end.
(** the record of a user *)
Definition toDelegator (u : User) : DelegatorData :=
  mkDelegator (activeKey (uActive u)) (map (λ nf, fundKey nf.1) (uUnStaked u)) (uCheckpoint u)
    (Some (uUnClaimed u)) (Some (uCumulated u)).
Definition userFunds (u : User) : list (Z * Fund) := option_list (uActive u) ++ uUnStaked u.
Definition fundIndices (u : User) : list Z := (userFunds u).*1.
Definition amount (f : Fund) : Z := default 0 (FundValue f).
Definition activeValue (u : User) : Z := match uActive u with None => 0 | Some (_, f) => amount f end.
Definition unStakedValue (u : User) : Z := listSum (λ nf, amount nf.2) (uUnStaked u).

Lemma active_in u nf : uActive u = Some nf → nf ∈ userFunds u.
Proof. intros Ha. unfold userFunds. rewrite Ha. apply elem_of_cons. by left. Qed.
Lemma unStaked_in u nf : nf ∈ uUnStaked u → nf ∈ userFunds u.
Proof. intros Hn. apply elem_of_app. by right. Qed.

(** a stored fund is not empty *)
Definition goodFund (f : Fund) : Prop := (∃ v, FundValue f = Some v ∧ 0 < v) ∧ fundRange f.

Lemma amount_positive f : goodFund f → 0 < amount f.
Proof. intros [(v & Hv & ?) _]. unfold amount. by rewrite Hv. Qed.
Lemma FundValue_amount f : goodFund f → FundValue f = Some (amount f).
Proof. intros [(v & Hv & ?) _]. unfold amount. by rewrite Hv. Qed.

Section invariant.
Context {DC : DelegationContract} {DL : DelegationLaws}.

(** ** Rewards *)
Definition shareOf (owner : bool) (value : Z) (r : RewardComputationData) : Z :=
  let toDistribute := default 0 (RewardsToDistribute r) in
  let total := default 0 (RewardTotalActive r) in
  if total =? 0 then (if owner then toDistribute else 0)
  else
    let forOwner := ownerShare toDistribute (ServiceFee r) in
    (if owner then forOwner else 0) + bigDiv ((toDistribute - forOwner) * value) total.
(** what [u] may still claim of the rewards [r] of the epoch [ep] *)
Definition claimable (owner : bool) (u : User) (ep : Z) (r : RewardComputationData) : Z :=
  if (uCheckpoint u <=? ep) && (0 <? activeValue u) then shareOf owner (activeValue u) r else 0.
Definition pending (rewards : gmap Z RewardComputationData) (owner : bool) (u : User) : Z :=
  mapSum (claimable owner u) rewards.
(** what the contract owes [u] in rewards *)
Definition due (m : Store) (a : bytes) (u : User) : Z :=
  uUnClaimed u + pending (stRewards m) (bool_decide (a = stOwner m)) u.
Definition owed (m : Store) (us : gmap bytes User) : Z :=
  mapSum (due m) us + mapSum (λ _, unStakedValue) us.

(** the stake that may still claim the rewards of [ep] *)
Definition claimingStake (ep : Z) (us : gmap bytes User) : Z :=
  mapSum (λ _ u, if uCheckpoint u <=? ep then activeValue u else 0) us.

Record goodReward (epoch : Z) (us : gmap bytes User) (ep : Z) (r : RewardComputationData) : Prop := {
  gr_epoch : 0 ≤ ep ≤ epoch;
  gr_toDistribute : ∃ v, RewardsToDistribute r = Some v ∧ 0 ≤ v;
  gr_total : ∃ t, RewardTotalActive r = Some t ∧ claimingStake ep us ≤ t;
  gr_fee : 0 ≤ ServiceFee r ≤ maxServiceFee;
}.

(** ** The invariant *)
Record goodUser (epoch : Z) (u : User) : Prop := {
  gu_funds nf : nf ∈ userFunds u → goodFund nf.2 ∧ 0 < nf.1;
  gu_nodup : NoDup (fundIndices u);
  gu_checkpoint : 0 ≤ uCheckpoint u ≤ epoch + 1;
  gu_unClaimed : 0 ≤ uUnClaimed u;
}.
Record goodConfig (c : DelegationConfig) : Prop := {
  gc_range : configRange c;
  gc_cap : is_Some (MaxDelegationCap c);
  gc_funds : ∃ i, InitialOwnerFunds c = Some i ∧ 0 ≤ i;
}.
Definition lastKey (n : Z) : bytes := if n =? 0 then [] else fundKey n.

Lemma lastKey_pos n : 0 < n → lastKey n = fundKey n.
Proof. intros Hn. unfold lastKey. by rewrite (proj2 (Z.eqb_neq _ _)); [|lia]. Qed.

(** [bound] limits the number of funds ever created and of users *)
Record Inv (epoch bound : Z) (m : Store) (us : gmap bytes User) : Prop := {
  iv_users : stUsers m = toDelegator <$> us;
  iv_addresses a u : us !! a = Some u → isAddress a;
  iv_good a u : us !! a = Some u → goodUser epoch u;
  iv_funds a u n f : us !! a = Some u → (n, f) ∈ userFunds u → stFunds m !! n = Some f;
  iv_disjoint a b u v n : us !! a = Some u → us !! b = Some v → a ≠ b →
    n ∈ fundIndices u → n ∉ fundIndices v;
  iv_global : stGlobal m = Some (mkGlobalFund (Some (mapSum (λ _, activeValue) us))
                                   (Some (mapSum (λ _, unStakedValue) us)));
  iv_total : stTotal m = bigBytes (mapSum (λ _, activeValue) us);
  iv_size : Z.of_nat (size us) ≤ bound;
  iv_config : ∃ c, stConfig m = Some c ∧ goodConfig c;
  iv_last : ∃ l, stLast m = lastKey l ∧ 0 ≤ l ≤ bound ∧
    ∀ a u n, us !! a = Some u → n ∈ fundIndices u → n ≤ l;
  iv_rewards ep r : stRewards m !! ep = Some r → goodReward epoch us ep r;
  iv_fee : 0 ≤ bigUint64 (setBytes (stFee m)) ≤ maxServiceFee;
}.

(** the books of a deployed contract balance *)
Record Books (epoch bound : Z) (m : Store) (us : gmap bytes User) : Prop := {
  bk_inv : Inv epoch bound m us;
  bk_owner : is_Some (us !! stOwner m);
  bk_status : ∃ s, stStatus m = Some s ∧ NumUsers s = Z.of_nat (size us);
}.

(** ** Changing one user *)
Definition stakeAt (ep : Z) (u : User) : Z := if uCheckpoint u <=? ep then activeValue u else 0.
(** the indices of the funds of the user at [a], who need not exist *)
Definition indicesAt (us : gmap bytes User) (a : bytes) : list Z :=
  match us !! a with Some u => fundIndices u | None => [] end.
Definition valueAt (f : User → Z) (us : gmap bytes User) (a : bytes) : Z :=
  match us !! a with Some u => f u | None => 0 end.

Lemma mapSum_put (f : bytes → User → Z) us a u :
  mapSum f (<[a := u]> us) = mapSum f us - valueAt (f a) us a + f a u.
Proof.
  unfold valueAt. destruct (us !! a) as [u0|] eqn:Ha.
  - by rewrite (mapSum_insert _ _ _ u0).
  - rewrite mapSum_new //. lia.
Qed.

Lemma owed_update m m' us a u :
  stRewards m' = stRewards m → stOwner m' = stOwner m →
  owed m' (<[a := u]> us) = owed m us - valueAt (due m a) us a + due m a u
    - valueAt unStakedValue us a + unStakedValue u.
Proof.
  intros Hr Ho. unfold owed. rewrite !mapSum_put. unfold due. rewrite Hr Ho. lia.
Qed.

(** what a change of the user at [a] to [u] may do to the store: the funds of
    the others stay, new funds have new indices *)
Record changesUser (m m' : Store) (us : gmap bytes User) (a : bytes) (u : User) : Prop := {
  cu_users : stUsers m' = <[a := toDelegator u]> (stUsers m);
  cu_owned n f : (n, f) ∈ userFunds u → stFunds m' !! n = Some f;
  cu_others n l : stLast m = lastKey l → 0 ≤ l → n ≤ l → n ∉ indicesAt us a →
    stFunds m' !! n = stFunds m !! n;
  cu_new n l : stLast m = lastKey l → 0 ≤ l → n ∈ fundIndices u → n ∈ indicesAt us a ∨ l < n;
  cu_last l : stLast m = lastKey l → 0 ≤ l →
    ∃ l', stLast m' = lastKey l' ∧ l ≤ l' ≤ l + 1 ∧ ∀ n, n ∈ fundIndices u → n ≤ l';
  cu_owner : stOwner m' = stOwner m;
  cu_rewards : stRewards m' = stRewards m;
  cu_fee : stFee m' = stFee m;
}.

Lemma lastKey_inj l l' : 0 ≤ l → 0 ≤ l' → lastKey l = lastKey l' → l = l'.
Proof.
  unfold lastKey. intros Hl Hl'.
  destruct (Z.eqb_spec l 0), (Z.eqb_spec l' 0); intros Heq; try done; [lia|].
  apply app_inv_head in Heq. by apply bigBytes_inj.
Qed.

Lemma Inv_update epoch bound m m' us a u :
  Inv epoch bound m us → changesUser m m' us a u → isAddress a → goodUser epoch u →
  (∀ ep, ep ≤ epoch → stakeAt ep u ≤ valueAt (stakeAt ep) us a) →
  stGlobal m' = Some (mkGlobalFund
    (Some (mapSum (λ _, activeValue) us - valueAt activeValue us a + activeValue u))
    (Some (mapSum (λ _, unStakedValue) us - valueAt unStakedValue us a + unStakedValue u))) →
  stTotal m' = bigBytes (mapSum (λ _, activeValue) us - valueAt activeValue us a + activeValue u) →
  (∃ c, stConfig m' = Some c ∧ goodConfig c) →
  Inv epoch (bound + 1) m' (<[a := u]> us).
Proof.
  intros HI Hc Ha Hu Hstake Hg Ht Hcfg. destruct (iv_last _ _ _ _ HI) as (l & Hl & Hlb & Hmax).
  destruct (cu_last _ _ _ _ _ Hc l Hl ltac:(lia)) as (l' & Hl' & Hle & Hmax').
  assert (∀ b v n, us !! b = Some v → b ≠ a → n ∈ fundIndices v → n ∉ indicesAt us a) as Hothers.
  { intros b v n Hb Hba Hn Hn'. unfold indicesAt in Hn'.
    destruct (us !! a) as [w|] eqn:Hw; [|by apply not_elem_of_nil in Hn'].
    by eapply (iv_disjoint _ _ _ _ HI b a v w n). }
  assert (∀ b v n, us !! b = Some v → b ≠ a → n ∈ fundIndices u → n ∉ fundIndices v) as Hdisj.
  { intros b v n Hb Hba Hn Hn'. destruct (cu_new _ _ _ _ _ Hc n l Hl ltac:(lia) Hn) as [H|H].
    - by eapply Hothers.
    - specialize (Hmax b v n Hb Hn'). lia. }
  split.
  - rewrite (cu_users _ _ _ _ _ Hc) (iv_users _ _ _ _ HI). by rewrite fmap_insert.
  - intros b v [[<- <-]|[_ Hv]]%lookup_insert_Some; [done|by eapply iv_addresses].
  - intros b v [[<- <-]|[_ Hv]]%lookup_insert_Some; [done|by eapply iv_good].
  - intros b v n f [[<- <-]|[Hab Hv]]%lookup_insert_Some Hn; [by eapply cu_owned|].
    assert (n ∈ fundIndices v) as Hin by (apply list_elem_of_fmap; by exists (n, f)).
    rewrite (cu_others _ _ _ _ _ Hc n l) //; [|lia|by eapply Hmax|by eapply (Hothers b)].
    by eapply iv_funds.
  - intros b b' v v' n Hb Hb' Hbb. apply lookup_insert_Some in Hb, Hb'.
    destruct Hb as [[<- <-]|[Hab Hv]], Hb' as [[<- <-]|[Hab' Hv']]; try done.
    + by eapply Hdisj.
    + intros Hn Hn'. by eapply (Hdisj b v n).
    + by eapply iv_disjoint.
  - by rewrite !mapSum_put.
  - by rewrite mapSum_put.
  - pose proof (iv_size _ _ _ _ HI). destruct (us !! a) as [w|] eqn:Hw.
    + rewrite map_size_insert_Some //. lia.
    + rewrite map_size_insert_None //. lia.
  - done.
  - exists l'. split_and!; [done|lia..|].
    intros b v n [[<- <-]|[Hab Hv]]%lookup_insert_Some Hn; [by apply Hmax'|].
    specialize (Hmax b v n Hv Hn). lia.
  - rewrite (cu_rewards _ _ _ _ _ Hc). intros ep r Hr.
    destruct (iv_rewards _ _ _ _ HI ep r Hr) as [Hep Hd (t & Ht' & Hle') Hf].
    split; try done. exists t. split; [done|]. unfold claimingStake in *. rewrite mapSum_put.
    specialize (Hstake ep ltac:(lia)). unfold stakeAt in Hstake. unfold valueAt in *.
    destruct (us !! a); lia.
  - rewrite (cu_fee _ _ _ _ _ Hc). by eapply iv_fee.
Qed.

Lemma Inv_weaken epoch epoch' bound bound' m us :
  Inv epoch bound m us → epoch ≤ epoch' → bound ≤ bound' → Inv epoch' bound' m us.
Proof.
  intros [] He Hb. split; try done.
  - intros a u Hu. destruct (iv_good0 a u Hu). split; try done. lia.
  - lia.
  - destruct iv_last0 as (l & ? & ? & ?). exists l. split_and!; [done|lia..|done].
  - intros ep r Hr. destruct (iv_rewards0 ep r Hr). split; try done. lia.
Qed.

(** changes that do not touch the funds and rewards *)
Lemma Inv_frame epoch bound m m' us :
  Inv epoch bound m us →
  stUsers m' = stUsers m → stFunds m' = stFunds m → stGlobal m' = stGlobal m →
  stTotal m' = stTotal m → stLast m' = stLast m → stRewards m' = stRewards m →
  (∃ c, stConfig m' = Some c ∧ goodConfig c) →
  (0 ≤ bigUint64 (setBytes (stFee m')) ≤ maxServiceFee) →
  Inv epoch bound m' us.
Proof. intros [] Hu Hf Hg Ht Hl Hr. split; rewrite ?Hu ?Hf ?Hg ?Ht ?Hl ?Hr; done. Qed.

(** a user without funds is deleted *)
Lemma Inv_delete epoch bound m m' us a u :
  Inv epoch bound m us → us !! a = Some u → uActive u = None → uUnStaked u = [] →
  stUsers m' = delete a (stUsers m) →
  stFunds m' = stFunds m → stGlobal m' = stGlobal m → stTotal m' = stTotal m →
  stLast m' = stLast m → stRewards m' = stRewards m →
  stFee m' = stFee m → stConfig m' = stConfig m →
  Inv epoch bound m' (delete a us).
Proof.
  intros [] Ha Hact Hun Hu Hf Hg Ht Hl Hr Hfee Hc.
  assert (activeValue u = 0) as Hv0 by by rewrite /activeValue Hact.
  assert (unStakedValue u = 0) as Hu0 by by rewrite /unStakedValue Hun.
  split; rewrite ?Hu ?Hf ?Hg ?Ht ?Hl ?Hr ?Hfee ?Hc; try done.
  - by rewrite iv_users0 fmap_delete.
  - intros b v [_ Hv]%lookup_delete_Some. eauto.
  - intros b v [_ Hv]%lookup_delete_Some. eauto.
  - intros b v n f [_ Hv]%lookup_delete_Some. eauto.
  - intros b b' v v' n [_ Hv]%lookup_delete_Some [_ Hv']%lookup_delete_Some. eauto.
  - rewrite !(mapSum_delete _ _ _ u) // Hv0 Hu0 !Z.sub_0_r //.
  - rewrite (mapSum_delete _ _ _ u) // Hv0 Z.sub_0_r //.
  - rewrite map_size_delete_Some; [lia|by exists u].
  - destruct iv_last0 as (l & ? & ? & Hmax). exists l. split_and!; [done|lia..|].
    intros b v n [_ Hv]%lookup_delete_Some. eauto.
  - intros ep r Hrr. destruct (iv_rewards0 ep r Hrr) as [? ? (t & ? & Hle) ?].
    split; try done. exists t. split; [done|].
    unfold claimingStake in *. rewrite (mapSum_delete _ _ _ u) // Hv0. case_match; lia.
Qed.

(** the owner's record moves to a new address *)
Lemma Inv_move epoch bound m m' us a a' u :
  Inv epoch bound m us → us !! a = Some u → us !! a' = None → isAddress a' →
  stUsers m' = <[a' := toDelegator u]> (delete a (stUsers m)) →
  stFunds m' = stFunds m → stGlobal m' = stGlobal m → stTotal m' = stTotal m →
  stLast m' = stLast m → stRewards m' = stRewards m →
  stFee m' = stFee m → stConfig m' = stConfig m →
  Inv epoch bound m' (<[a' := u]> (delete a us)).
Proof.
  intros [] Ha Ha' Haddr Hu Hf Hg Ht Hl Hr Hfee Hc.
  assert (∀ (f : User → Z), mapSum (λ _, f) (<[a' := u]> (delete a us)) = mapSum (λ _, f) us) as Hsum.
  { intros f. rewrite mapSum_new; [|rewrite lookup_delete_ne //; congruence].
    rewrite (mapSum_delete _ _ _ u) //. lia. }
  assert (size (<[a' := u]> (delete a us)) = size us) as Hsize.
  { rewrite map_size_insert_None; [|rewrite lookup_delete_ne //; congruence].
    rewrite map_size_delete_Some; [|by exists u].
    assert (size us ≠ 0%nat); [|lia]. intros H0%map_size_empty_iff. by rewrite H0 in Ha. }
  (* every user of the new map was one, possibly under another address *)
  assert (∀ b v, <[a' := u]> (delete a us) !! b = Some v →
    ∃ b0, us !! b0 = Some v ∧ (b = a' ∧ b0 = a ∨ b ≠ a' ∧ b0 = b ∧ b ≠ a)) as Hback.
  { intros b v [[<- <-]|[? [? ?]%lookup_delete_Some]]%lookup_insert_Some; eauto 10. }
  split; rewrite ?Hu ?Hf ?Hg ?Ht ?Hl ?Hr ?Hfee ?Hc ?Hsum ?Hsize; try done.
  - by rewrite iv_users0 fmap_insert fmap_delete.
  - intros b v (b0 & Hv & [[-> ->]|(? & -> & ?)])%Hback; eauto.
  - intros b v (b0 & Hv & _)%Hback; eauto.
  - intros b v n f (b0 & Hv & _)%Hback; eauto.
  - intros b b' v v' n (b0 & Hv & Hb)%Hback (b0' & Hv' & Hb')%Hback Hbb.
    apply (iv_disjoint0 b0 b0'); [done..|].
    destruct Hb as [[-> ->]|(? & -> & ?)], Hb' as [[-> ->]|(? & -> & ?)]; congruence.
  - destruct iv_last0 as (l & ? & ? & Hmax). exists l. split_and!; [done|lia..|].
    intros b v n (b0 & Hv & _)%Hback. eauto.
  - intros ep r Hrr. destruct (iv_rewards0 ep r Hrr) as [? ? (t & ? & Hle) ?].
    split; try done. exists t. split; [done|]. unfold claimingStake in *. by rewrite Hsum.
Qed.

(** ** Settling the rewards of a user *)
Definition settle (epoch : Z) (rewards : gmap Z RewardComputationData) (owner : bool) (u : User) :
    User :=
  mkUser (uActive u) (uUnStaked u) (epoch + 1) (uUnClaimed u + pending rewards owner u)
    (uCumulated u).

Lemma shareOf_bounds owner v r :
  (∃ d, RewardsToDistribute r = Some d ∧ 0 ≤ d) → (∃ t, RewardTotalActive r = Some t ∧ 0 ≤ t) →
  0 ≤ ServiceFee r ≤ maxServiceFee → 0 ≤ v → 0 ≤ shareOf owner v r.
Proof.
  intros (d & Hd & Hd0) (t & Ht & Ht0) Hf Hv. unfold shareOf. rewrite Hd Ht. simpl.
  destruct (Z.eqb_spec t 0); [destruct owner; lia|].
  pose proof (percentage_bounds d (ServiceFee r) Hd0 Hf) as Hp.
  assert (0 ≤ bigDiv ((d - ownerShare d (ServiceFee r)) * v) t) by (apply bigDiv_nonneg; nia).
  destruct owner; lia.
Qed.

Section facts.
Context (epoch bound : Z) (m : Store) (us : gmap bytes User) (HI : Inv epoch bound m us).

Lemma claimingStake_nonneg ep : 0 ≤ claimingStake ep us.
Proof.
  apply mapSum_nonneg. intros a u Hu. case_match; [|done]. unfold activeValue.
  destruct (uActive u) as [[n f]|] eqn:Ha; [|done].
  pose proof (gu_funds _ _ (iv_good _ _ _ _ HI a u Hu) (n, f)) as Hf.
  destruct Hf as [Hf _]; [by apply active_in|].
  by apply Z.lt_le_incl, amount_positive.
Qed.
Lemma reward_total ep r :
  stRewards m !! ep = Some r → ∃ t, RewardTotalActive r = Some t ∧ 0 ≤ t.
Proof.
  intros Hr. destruct (iv_rewards _ _ _ _ HI ep r Hr) as [_ _ (t & Ht & Hle) _].
  exists t. split; [done|]. pose proof (claimingStake_nonneg ep). lia.
Qed.
Lemma activeValue_nonneg a u : us !! a = Some u → 0 ≤ activeValue u.
Proof.
  intros Hu. unfold activeValue. destruct (uActive u) as [[n f]|] eqn:Ha; [|done].
  destruct (gu_funds _ _ (iv_good _ _ _ _ HI a u Hu) (n, f)) as [Hf _];
    [by apply active_in|].
  by apply Z.lt_le_incl, amount_positive.
Qed.
Lemma claimable_nonneg a u owner ep r :
  us !! a = Some u → stRewards m !! ep = Some r → 0 ≤ claimable owner u ep r.
Proof.
  intros Hu Hr. unfold claimable. case_match; [|done].
  destruct (iv_rewards _ _ _ _ HI ep r Hr). apply shareOf_bounds; [done| |done|by eapply activeValue_nonneg].
  by eapply reward_total.
Qed.
Lemma pending_nonneg a u owner : us !! a = Some u → 0 ≤ pending (stRewards m) owner u.
Proof. intros Hu. apply mapSum_nonneg. intros. by eapply claimable_nonneg. Qed.
(** nothing is left to claim after the last epoch *)
Lemma pending_none owner u : epoch < uCheckpoint u → pending (stRewards m) owner u = 0.
Proof.
  intros Hc. apply mapSum_zero. intros ep r Hr. unfold claimable.
  destruct (iv_rewards _ _ _ _ HI ep r Hr) as [Hep _ _ _].
  destruct (Z.leb_spec (uCheckpoint u) ep); [lia|done].
Qed.
Lemma due_after a u : epoch < uCheckpoint u → due m a u = uUnClaimed u.
Proof. intros Hc. unfold due. rewrite pending_none //. lia. Qed.
Lemma due_nonneg a u : us !! a = Some u → 0 ≤ due m a u.
Proof.
  intros Hu. unfold due. pose proof (pending_nonneg a u (bool_decide (a = stOwner m)) Hu).
  destruct (iv_good _ _ _ _ HI a u Hu). lia.
Qed.
Lemma settle_good a u owner :
  0 ≤ epoch → us !! a = Some u → goodUser epoch (settle epoch (stRewards m) owner u).
Proof.
  intros He Hu. pose proof (pending_nonneg a u owner Hu). destruct (iv_good _ _ _ _ HI a u Hu).
  split; simpl; try done; lia.
Qed.
Lemma stakeAt_after ep u : epoch < uCheckpoint u → ep ≤ epoch → stakeAt ep u = 0.
Proof. intros. unfold stakeAt. destruct (Z.leb_spec (uCheckpoint u) ep); [lia|done]. Qed.
Lemma stakeAt_nonneg ep a : 0 ≤ valueAt (stakeAt ep) us a.
Proof.
  unfold valueAt. destruct (us !! a) as [u|] eqn:Hu; [|done]. unfold stakeAt.
  case_match; [by eapply activeValue_nonneg|done].
Qed.
End facts.
End invariant.
