(* ===== verification/DelegationRewards.v ===== *)
(** * DelegationRewards: the rewards a delegator is credited with

    The loop of [computeAndUpdateRewards] over the epochs since the delegator's
    checkpoint adds up exactly [pending], the delegator's shares of the
    rewards recorded in between, and moves the checkpoint behind the current
    epoch: the delegator is [settle]d.  The shares of one epoch's rewards add
    up to no more than the rewards. *)
From Stdlib Require Import Floats.SpecFloat.
From S2P Require Import Prelude Sums SystemEI StakingData Contract DelegationData DelegationFunds.
From S2P Require Import DelegationSpec DelegationInvariant.
#[local] Open Scope Z_scope.

Lemma mapSum_from {A} (f : Z → A → Z) (m : gmap Z A) i :
  mapSum (λ k x, if i <=? k then f k x else 0) m
  = match m !! i with Some x => f i x | None => 0 end
    + mapSum (λ k x, if i + 1 <=? k then f k x else 0) m.
Proof.
  pose proof (mapSum_single (λ k x, if k =? i then f k x else 0) m i) as Hi.
  simpl in Hi. rewrite Z.eqb_refl in Hi. rewrite -{}Hi.
  2:{ intros k x _ Hk. by destruct (Z.eqb_spec k i). }
  rewrite -mapSum_add. apply mapSum_ext. intros k x _.
  destruct (Z.eqb_spec k i), (Z.leb_spec i k), (Z.leb_spec (i + 1) k); lia.
Qed.

Lemma u32_small z : 0 ≤ z < 2 ^ 32 → u32 z = z.
Proof. intros. unfold u32. by apply Z.mod_small. Qed.

Section rewards.
Context {E : Type} {EI : SystemEI E} {EIL : SystemEILaws E}.
Context {CH : ContractHost E} {CHL : HostLaws E}.
Context {DC : DelegationContract} {DL : DelegationLaws}.
Context (h : BlockchainHook) (self : bytes) (mg : DelegationManagement).
Context (Hflag : delegationFlag ComputeRewardCheckpointFlag = true).
Context (Hepoch : 0 ≤ CurrentEpoch h < 2 ^ 32 - 1).

Section loop.
Context (e : E) (m : Store) (b : Z) (HH : Heap h self mg e m b).
Context (bound : Z) (us : gmap bytes User) (HI : Inv (CurrentEpoch h) bound m us).
Context (Hbound : bound < 2 ^ 64).

Lemma fund_valid a u n f : us !! a = Some u → (n, f) ∈ userFunds u → validFund n.
Proof.
  intros Hu Hn. destruct (gu_funds _ _ (iv_good _ _ _ _ HI a u Hu) (n, f) Hn) as [_ Hn0].
  destruct (iv_last _ _ _ _ HI) as (l & _ & Hl & Hmax).
  pose proof (Hmax a u n Hu ltac:(apply list_elem_of_fmap; by exists (n, f))).
  unfold validFund. simpl in Hn0. lia.
Qed.

Lemma run_rewardOfEpoch {fr} owner v total r Q :
  (∃ d, RewardsToDistribute r = Some d ∧ 0 ≤ d) → is_Some (RewardTotalActive r) →
  Q (total + shareOf owner v r) e →
  run fr (rewardOfEpoch owner v total r) Q e.
Proof.
  intros (d & Hd & _) [t Ht] HQ. unfold rewardOfEpoch. unfold shareOf in HQ. rewrite Hd Ht in HQ.
  apply run_bind. eapply run_deref; [done|]. simpl in HQ.
  destruct (Z.eqb_spec t 0) as [->|Ht0]; [destruct owner|]; simpl.
  - apply run_bind. eapply run_deref; [done|]. exact HQ.
  - apply run_ret. by rewrite Z.add_0_r in HQ.
  - apply run_bind. eapply run_deref; [done|]. apply run_ret. unfold ownerShare in HQ. simpl in HQ.
    destruct owner; [by rewrite Z.add_assoc in HQ|exact HQ].
Qed.

(** the loop ends, and adds the shares from [i] on *)
Lemma run_computeRewardsLoop {fr} fuel i owner v total Q :
  0 ≤ i → CurrentEpoch h + 1 - i ≤ Z.of_nat fuel → i ≤ CurrentEpoch h + 1 →
  Q (total + mapSum (λ ep r, if i <=? ep then shareOf owner v r else 0) (stRewards m)) e →
  run fr (computeRewardsLoop fuel i (CurrentEpoch h) owner v total) Q e.
Proof.
  revert i total. induction fuel as [|fuel IH]; intros i total Hi Hfuel Hle HQ; simpl;
    (destruct (Z.ltb_spec (CurrentEpoch h) i) as [Hlt|Hge]; [|try lia]).
  1,2: apply run_ret; rewrite mapSum_zero in HQ; [by rewrite Z.add_0_r in HQ|];
    intros ep r Hr; destruct (iv_rewards _ _ _ _ HI ep r Hr) as [Hep _ _ _];
    destruct (Z.leb_spec i ep); [lia|done].
  apply run_bind. eapply run_getReward; [done|unfold isEpoch; lia|].
  rewrite mapSum_from in HQ.
  apply run_bind. destruct (stRewards m !! i) as [r|] eqn:Hr.
  - eapply (run_rewardOfEpoch owner v).
    + by destruct (iv_rewards _ _ _ _ HI i r Hr).
    + destruct (reward_total _ _ _ _ HI i r Hr) as (t & -> & _). eauto.
    + rewrite u32_small; [|lia]. apply IH; [lia..|]. by rewrite -Z.add_assoc.
  - apply run_ret. rewrite u32_small; [|lia]. by apply IH; [lia..|].
Qed.

(** [computeAndUpdateRewards] settles the delegator *)
Lemma run_computeAndUpdateRewards {fr} a u Q :
  us !! a = Some u →
  Q (toDelegator (settle (CurrentEpoch h) (stRewards m) (bool_decide (a = stOwner m)) u)) e →
  run fr (computeAndUpdateRewards a (toDelegator u)) Q e.
Proof.
  intros Hu HQ. pose proof (iv_good _ _ _ _ HI a u Hu) as Hg. unfold computeAndUpdateRewards.
  apply run_bind. eapply run_currentEpoch; [done|]. rewrite Hflag u32_small; [|lia].
  unfold settle, pending in HQ. destruct (uActive u) as [[n f]|] eqn:Ha; simpl; rewrite Ha; simpl.
  - assert (goodFund f ∧ 0 < n) as [Hf Hn].
    { apply (gu_funds _ _ Hg (n, f)). by apply active_in. }
    assert (stFunds m !! n = Some f) as Hnf.
    { eapply iv_funds; [done..|]. by apply active_in. }
    pose proof (amount_positive f Hf).
    apply run_bind. eapply run_getFund; [done| |exact Hnf|].
    { eapply fund_valid; [done|]. by apply active_in. }
    apply run_bind. eapply run_isOwner; [done|]. apply run_bind.
    eapply run_deref; [by apply FundValue_amount|].
    apply run_bind. unfold computeRewards. destruct (Z.leb_spec (amount f) 0); [lia|].
    apply run_bind. eapply run_currentEpoch; [done|].
    destruct (gu_checkpoint _ _ Hg). apply run_computeRewardsLoop; [lia..|]. rewrite Z.add_0_l.
    apply run_bind, run_ret, run_ret.
    rewrite (mapSum_ext _ (claimable (bool_decide (a = stOwner m)) u)).
    + unfold toDelegator in HQ. exact HQ.
    + intros ep r _. unfold claimable, activeValue. rewrite Ha (proj2 (Z.ltb_lt _ _)) //.
      by rewrite andb_true_r.
  - apply run_ret. rewrite mapSum_zero in HQ; [|intros; rewrite /claimable /activeValue Ha andb_false_r //].
    by rewrite Z.add_0_r in HQ.
Qed.
End loop.
End rewards.

(** ** The shares of one epoch's rewards *)
Section shares.
Context {DC : DelegationContract} {DL : DelegationLaws}.
Context (epoch bound : Z) (us : gmap bytes User).
Context (Hnonneg : ∀ a u, us !! a = Some u → 0 ≤ activeValue u).

(** the delegators' parts, rounded down, are at most the whole *)
Lemma parts_le ep rest t :
  0 ≤ rest → 0 < t → claimingStake ep us ≤ t →
  mapSum (λ _ u, if uCheckpoint u <=? ep then bigDiv (rest * activeValue u) t else 0) us ≤ rest.
Proof.
  intros Hrest Ht Hle.
  assert (t * mapSum (λ _ u, if uCheckpoint u <=? ep then bigDiv (rest * activeValue u) t else 0) us
    ≤ rest * claimingStake ep us) as Hmul; [|nia].
  unfold claimingStake. rewrite -!mapSum_mul. apply mapSum_le. intros a u Hu.
  case_match; [|lia]. rewrite bigDiv_pos //.
  pose proof (Z.mul_div_le (rest * activeValue u) t Ht). lia.
Qed.

Lemma shares_le owner ep r d :
  goodReward epoch us ep r → RewardsToDistribute r = Some d →
  mapSum (λ a u, claimable (bool_decide (a = owner)) u ep r) us ≤ d.
Proof.
  intros [_ (d' & Hd' & Hd0) (t & Ht & Hle) Hfee] Hd. rewrite Hd in Hd'. injection Hd' as <-.
  set (forOwner := if t =? 0 then d else ownerShare d (ServiceFee r)).
  assert (0 ≤ forOwner ≤ d) as Hfo.
  { unfold forOwner. case_match; [lia|]. by apply percentage_bounds. }
  assert (0 ≤ claimingStake ep us) as Hcs.
  { apply mapSum_nonneg. intros a u Hu. specialize (Hnonneg a u Hu). by case_match. }
  trans (mapSum (λ a (u : User), if bool_decide (a = owner) then forOwner else 0) us
    + mapSum (λ _ u, if uCheckpoint u <=? ep then
        (if t =? 0 then 0 else bigDiv ((d - forOwner) * activeValue u) t) else 0) us).
  - rewrite -mapSum_add. apply mapSum_le. intros a u Hu. specialize (Hnonneg a u Hu).
    unfold claimable, shareOf. rewrite Hd Ht. simpl. fold forOwner.
    assert (t ≠ 0 → 0 ≤ bigDiv ((d - forOwner) * activeValue u) t) as Hpart.
    { intros Ht0. apply bigDiv_nonneg; [nia|lia]. }
    revert Hpart. unfold forOwner in *.
    destruct (Z.leb_spec (uCheckpoint u) ep), (Z.ltb_spec 0 (activeValue u)), (Z.eqb_spec t 0);
      simpl; repeat case_match; lia.
  - rewrite (mapSum_single (λ a _, if bool_decide (a = owner) then forOwner else 0) us owner).
    2:{ intros a u _ Ha. by rewrite bool_decide_false. }
    destruct (Z.eqb_spec t 0) as [->|Ht0].
    + rewrite (mapSum_zero (λ _ u, if uCheckpoint u <=? ep then 0 else 0)); [|intros; by case_match].
      case_match; [rewrite bool_decide_true //|]; lia.
    + pose proof (parts_le ep (d - forOwner) t ltac:(lia) ltac:(lia) Hle) as Hparts.
      case_match; [rewrite bool_decide_true //|]; lia.
Qed.
End shares.
