(* ===== verification/DelegationSteps.v ===== *)
(** * DelegationSteps: the functions the handlers of the delegation contract share

    The promise of the validator contract and, per shared function, what it
    does to the store: funds are created and changed, the active fund is
    checked, the status is updated after a call of the validator contract, log
    entries are written. *)
From Stdlib Require Import Floats.SpecFloat.
From S2P Require Import Prelude Sums SystemEI StakingData Contract DelegationData DelegationFunds.
From S2P Require Import DelegationNodes DelegationSC DelegationSpec DelegationInvariant DelegationRewards.
#[local] Open Scope go_scope.

(** ** The validator contract *)
Section promise.
Context {E : Type} {EI : SystemEI E} {CH : ContractHost E} {DC : DelegationContract}.

(** What a call that is answered [Ok] returns, and what it does to the caller's
    money, [b] before and [b'] after: its balance and the unstaked tokens that the
    validator contract holds for it, which [unStakeTokens] sets aside and
    [unBondTokens] pays out, as far as they are due. *)
Definition settles (function : string) (args : list bytes) (value : Z) (out : CallOutput)
    (b b' : Z) : Prop :=
  if bool_decide (function = "unStakeTokens") then
    outReturnData out = [] ∧ b' = (b + setBytes (nth 0 args []))%Z
  else if bool_decide (function = "unBondTokens") then outReturnData out = [] ∧ b' = b
  else if bool_decide (function = "unJail") then
    (b - value + Z.max 0 (getTransferBackFromVMOutput out) ≤ b')%Z
  else Nat.even (length (outReturnData out)) = true ∧ (b - value ≤ b')%Z.

Definition readsManagement (e e' : E) : Prop :=
  GetStorageFromAddress delegationMgrSCAddress delegationManagementKey e' =
  GetStorageFromAddress delegationMgrSCAddress delegationManagementKey e.

(** the functions the delegation contract calls *)
Definition validatorFunctions : list string :=
  ["stake"; "unStakeNodes"; "reStakeUnStakedNodes"; "unBondNodes"; "unJail"; "unStakeTokens";
   "unBondTokens"; "changeOwnerOfValidatorData"; "mergeValidatorData"].

(** The validator contract, in a state that it reaches, does not write the storage
    of the delegation contract that calls it, and stays in such a state;
    [unBondTokens] pays no more and no less than it takes from the unstaked tokens
    of the caller (it may be less than what was asked for, and nothing says so in
    its answer), and [unJail] returns at least what it says; a registration has
    its total stake. *)
Class ValidatorPromise : Prop := {
  vp_call address f args v (e : E) : othersReady e → f ∈ validatorFunctions →
    run anyError (executeOnValidatorSC address f args v) (λ out e', outReturnCode out = Ok →
      (∀ k, GetStorage k e' = GetStorage k e) ∧ hookOf e' = hookOf e ∧
      selfAddress e' = selfAddress e ∧ readsManagement e e' ∧ othersReady e' ∧
      settles f args v out (balanceOf e) (balanceOf e')) e;
  vp_total a vd (e e' : E) : othersReady e → getValidatorData a e = (Ret vd, e') →
    ∃ t, TotalStakeValue vd = Some t ∧ (0 ≤ t)%Z;
}.
End promise.

(** ** The calls the contract is verified for *)
(** the parameters of the chain the handlers are verified for *)
Record Setting {DC : DelegationContract} (h : BlockchainHook) (mg : DelegationManagement) : Prop := {
  se_epoch : (0 ≤ CurrentEpoch h < 2 ^ 32 - 1)%Z;
  se_checkpoint : delegationFlag ComputeRewardCheckpointFlag = true;
  se_nodePrice : nodePrice ≠ 0%Z;
  se_gasStake : gasStake ≠ 0%Z;
  se_deposit : ∃ v, MinDeposit mg = Some v ∧ (0 < v)%Z;
  se_amount : ∃ v, MinDelegationAmount mg = Some v ∧ (0 < v)%Z;
  se_nonce : (0 ≤ CurrentNonce h < 2 ^ 64)%Z;
  se_period : (0 ≤ unBondPeriodInEpochs < 2 ^ 32)%Z;
  se_manager : isAddress delegationMgrSCAddress;
}.

Section steps.
Context {E : Type} {EI : SystemEI E} {EIL : SystemEILaws E}.
Context {CH : ContractHost E} {CHL : HostLaws E}.
Context {DC : DelegationContract} {DL : DelegationLaws} {VP : ValidatorPromise (E:=E)}.
Context (h : BlockchainHook) (self : bytes) (mg : DelegationManagement).
Context (Hself : delegationMgrSCAddress ≠ self).

(** the books balance afterwards, and what the contract has beyond what it owes is
    no less than before [v] was paid in *)
Definition kept (bound : Z) (m : Store) (us : gmap bytes User) (b v : Z) (e' : E) : Prop :=
  ∃ m' us' b', Heap h self mg e' m' b' ∧ Books (CurrentEpoch h) bound m' us' ∧
    (b - v - owed m us ≤ b' - owed m' us')%Z.

Section shared.
Context (e : E) (m : Store) (b : Z) (HH : Heap h self mg e m b).

Lemma Heap_called e' :
  (∀ k, GetStorage k e' = GetStorage k e) → hookOf e' = hookOf e → selfAddress e' = selfAddress e →
  readsManagement e e' → othersReady e' → Heap h self mg e' m (balanceOf e').
Proof.
  intros Hst Hhook Hs Hman Hrd. split; [|done]. destruct HH as [[] _].
  split; [|rewrite ?Hst ?Hhook ?Hs; done..| |].
  - intros k Hk. rewrite Hst. auto.
  - done.
  - by eapply getDelegationManagement_same.
Qed.
Lemma run_validator address f args v Q :
  bool_decide (f ∈ validatorFunctions) = true →
  (∀ out b' e', Heap h self mg e' m b' → settles f args v out b b' → outReturnCode out = Ok →
    Q out e') →
  ∀ (R : E → Prop), run (exits R) (callValidator address f args v) Q e.
Proof.
  intros Hf%bool_decide_eq_true HQ R. unfold callValidator. apply run_bind, run_orReturn; [done|].
  eapply run_mono; [apply vp_call; [apply HH|done]|]. intros out e' Hout. simpl.
  apply run_bind, run_returnQuietIf.
  - intros Hc Hok. by rewrite Hok in Hc.
  - intros Hok%negb_false_iff%bool_decide_eq_true. apply run_ret.
    destruct (Hout Hok) as (Hst & Hhook & Hs & Hman & Hrd & Hset). rewrite (hp_balance _ _ _ _ _ _ HH) in Hset.
    eapply HQ; [|exact Hset|done]. by apply Heap_called.
Qed.

(** *** Funds *)
Definition isType (ty : Z) : Prop := (0 ≤ ty < 2 ^ 32)%Z.
Definition newFund (a : bytes) (v ty : Z) : Fund := mkFund (Some v) a (CurrentEpoch h) ty.
Lemma run_createFund a v ty l Q :
  (0 ≤ CurrentEpoch h < 2 ^ 32)%Z → isType ty → v ≠ 0%Z →
  stLast m = lastKey l → (0 ≤ l)%Z → validFund (l + 1) →
  (∀ e', Heap h self mg e' (putLast (fundKey (l + 1))
     (putFunds (<[(l + 1)%Z := newFund a v ty]> (stFunds m)) m)) b → Q (fundKey (l + 1)) e') →
  run anyError (createAndSaveNextKeyFund a v ty) Q e.
Proof.
  intros Hep Hty Hv Hl Hl0 Hn HQ. unfold createAndSaveNextKeyFund. apply run_bind, run_gets.
  assert (createNextKeyFund a v ty e = (fundKey (l + 1), newFund a v ty)) as ->.
  { unfold createNextKeyFund. rewrite (hp_hook _ _ _ _ _ _ HH).
    pose proof (cell _ _ _ _ _ _ HH CLast I) as Hc. simpl in Hc. rewrite -Hc Hl. unfold lastKey.
    destruct (Z.eqb_spec l 0) as [->|Hl1]; [done|]. unfold fundKey.
    rewrite (proj2 (Nat.ltb_lt _ _)).
    - rewrite drop_app_length setBytes_bigBytes //.
    - rewrite length_app. pose proof (bigBytes_nonempty l ltac:(lia)).
      destruct (bigBytes l); [done|simpl; lia]. }
  apply run_bind. eapply (run_saveFund _ _ _ Hself _ _ _ HH _ _ v); [done|by split|done|].
  intros e' HH'. unfold saveFundIn in HH'. rewrite bool_decide_false in HH'; [|simpl; congruence].
  apply run_bind, HQ. apply (Heap_setLast _ _ _ Hself _ _ _ (fundKey (l + 1))) in HH'. by destruct m.
Qed.

Definition addTo (v : Z) (f : Fund) : Fund := withFundValue (Some (amount f + v)%Z) f.
Lemma run_addValueToFund n f v Q :
  validFund n → stFunds m !! n = Some f → goodFund f → (0 ≤ v)%Z →
  (∀ e', Heap h self mg e' (putFunds (<[n := addTo v f]> (stFunds m)) m) b → Q tt e') →
  run anyError (addValueToFund (fundKey n) v) Q e.
Proof.
  intros Hn Hf Hg Hv HQ. unfold addValueToFund. apply run_bind. eapply run_getFund; [exact HH|done..|].
  pose proof (FundValue_amount f Hg) as Hval. pose proof (amount_positive f Hg).
  apply run_bind. eapply run_deref; [done|].
  eapply (run_saveFund _ _ _ Hself _ _ _ HH _ _ (amount f + v)%Z); [done| |by destruct f|].
  - destruct Hg as [_ []]. by destruct f.
  - intros e' HH'. apply HQ. unfold saveFundIn in HH'. rewrite bool_decide_false // in HH'.
    destruct f. simpl. intros [=]. lia.
Qed.

(** *** Log entries *)
Definition stored (nf : Z * Fund) : Prop :=
  validFund nf.1 ∧ stFunds m !! nf.1 = Some nf.2 ∧ goodFund nf.2.

(** nothing is stored at the key of a fund that is not there *)
Lemma run_getActiveFund o Q :
  (∀ nf, o = Some nf → stored nf) → (∀ n f, o = Some (n, f) → Q f e) →
  run anyError (getFund (activeKey o)) Q e.
Proof.
  intros Ho HQ. destruct o as [[n f]|]; simpl activeKey.
  - destruct (Ho _ eq_refl) as (Hn & Hf & _). eapply run_getFund; [exact HH|done..|]. by eapply HQ.
  - unfold getFund. apply run_bind, run_readStorage. by rewrite (hp_empty _ _ _ _ _ _ HH).
Qed.
Lemma run_getFundForLogEntry {X} (free : X → E → Prop) o Q :
  (∀ nf, o = Some nf → stored nf) → (∀ v, Q v e) →
  run free (getFundForLogEntry (activeKey o)) Q e.
Proof.
  intros Ho HQ. destruct o as [[n f]|]; [|apply HQ]. destruct (Ho _ eq_refl) as (Hn & Hf & Hg).
  apply run_bind, run_attempt. simpl activeKey. eapply run_getFund; [exact HH|done..|].
  eapply run_deref; [by apply FundValue_amount|]. apply HQ.
Qed.
Lemma run_logDelegate {X} (free : X → E → Prop) args v t tu d s isNew o Q :
  ActiveFund d = activeKey o → (∀ nf, o = Some nf → stored nf) →
  (∀ e', Heap h self mg e' m b → Q tt e') →
  run free (createAndAddLogEntryForDelegate args v (mkGlobalFund (Some t) tu) d s isNew) Q e.
Proof.
  intros Hd Ho HQ. unfold createAndAddLogEntryForDelegate. rewrite Hd.
  apply run_bind, run_getFundForLogEntry; [done|]. intros v'.
  apply run_bind, run_ret. by eapply run_logEntry.
Qed.
Lemma run_logWithdraw {X} (free : X → E → Prop) f a v t tu d n w ks o Q :
  ActiveFund d = activeKey o → (∀ nf, o = Some nf → stored nf) →
  (∀ e', Heap h self mg e' m b → Q tt e') →
  run free (createAndAddLogEntryForWithdraw f a v (mkGlobalFund (Some t) tu) d n w ks) Q e.
Proof.
  intros Hd Ho HQ. unfold createAndAddLogEntryForWithdraw. rewrite Hd.
  apply run_bind, run_getFundForLogEntry; [done|]. intros v'.
  apply run_bind, run_ret. by eapply run_logEntry.
Qed.
Lemma run_numUsers {X} (free : X → E → Prop) s Q :
  stStatus m = Some s → Q (NumUsers s) e → run free numUsers Q e.
Proof.
  intros Hs HQ. unfold numUsers. apply run_bind, run_attempt. eapply run_getStatus; [exact HH|done|].
  apply run_ret. exact HQ.
Qed.

(** *** Staking *)
Lemma unSuccessLoop_even {X} n l :
  Nat.even (length l) = true → ∃ r, unSuccessLoop (X:=X) n l = Ret r.
Proof.
  revert l. fix IH 1. intros [|k [|c l]] Hl; [by eexists|done|].
  destruct (IH l Hl) as [r Hr]. simpl. rewrite Hr. by eexists.
Qed.
Lemma successKeys_even {X} data keys :
  Nat.even (length data) = true →
  ∃ r, getSuccessAndUnSuccessKeys (X:=X) data keys = Ret r.
Proof.
  intros Hd. destruct data as [|d ds], keys as [|k ks]; try by eexists.
  destruct (unSuccessLoop_even (X:=X) (length k) (d :: ds) Hd) as [r Hr].
  unfold getSuccessAndUnSuccessKeys. rewrite Hr. simpl. case_match; by eexists.
Qed.

Lemma moveStaked_users s k : NumUsers (moveStaked s k) = NumUsers s.
Proof. unfold moveStaked. repeat case_match. by destruct s. Qed.
Lemma foldl_users (f : DelegationContractStatus → bytes → DelegationContractStatus) ks s :
  (∀ s k, NumUsers (f s k) = NumUsers s) → NumUsers (foldl f s ks) = NumUsers s.
Proof. intros Hf. revert s. induction ks as [|k ks IH]; intros s; simpl; [done|]. by rewrite IH Hf. Qed.

Definition someUsers (s : DelegationContractStatus) : Prop := (0 < NumUsers s < 2 ^ 64)%Z.
(** saving a status with the users of [s] *)
Lemma run_saveStatusLike s s' Q :
  someUsers s → NumUsers s' = NumUsers s →
  (∀ e', Heap h self mg e' (putStatus s' m) b → Q tt e') →
  run anyError (saveDelegationStatus s') Q e.
Proof.
  intros [? ?] Hs HQ.
  eapply run_saveStatus; [exact Hself|exact HH|unfold statusRange; lia|lia|done].
Qed.
Lemma run_statusAfterStake s data args Q :
  someUsers s → Nat.even (length data) = true →
  (∀ s' e', NumUsers s' = NumUsers s → Heap h self mg e' (putStatus s' m) b → Q s' e') →
  run anyError (updateDelegationStatusAfterStake s data args) Q e.
Proof.
  intros Hs Hd HQ. unfold updateDelegationStatusAfterStake.
  destruct (successKeys_even (X:=error) data args Hd) as [[ks us] Hks].
  apply run_bind. eapply run_liftO; [done|]. apply run_bind.
  assert (NumUsers (foldl moveStaked s ks) = NumUsers s) as Hn.
  { apply foldl_users. intros. apply moveStaked_users. }
  eapply run_saveStatusLike; [exact Hs|exact Hn|]. intros e' HH'. by apply run_ret, HQ.
Qed.
Lemma run_makeStakeArgs {X} (free : X → E → Prop) c s t tu Q :
  nodePrice ≠ 0%Z → gasStake ≠ 0%Z → (∀ l, Q l e) →
  run free (makeStakeArgsIfAutomaticActivation c s (mkGlobalFund (Some t) tu)) Q e.
Proof.
  intros Hp Hg HQ. unfold makeStakeArgsIfAutomaticActivation.
  rewrite (proj2 (Z.eqb_neq _ _) Hp) (proj2 (Z.eqb_neq _ _) Hg).
  case_match; [apply HQ|]. case_match; [apply HQ|]. apply run_bind, run_ret.
  case_match; [apply HQ|]. apply run_bind, run_gets. case_match; apply HQ.
Qed.
End shared.

Lemma run_executeStake c s t tu v a (R : E → Prop) e m b Q :
  nodePrice ≠ 0%Z → gasStake ≠ 0%Z → Heap h self mg e m b → someUsers s →
  (∀ s' b' e', NumUsers s' = NumUsers s → (b - v ≤ b')%Z →
     Heap h self mg e' (putTotal (bigBytes t)
       (putGlobal (mkGlobalFund (Some t) (Some tu)) (putStatus s' m))) b' → Q tt e') →
  run (exits R) (executeStakeAndUpdateStatus c s (mkGlobalFund (Some t) (Some tu)) v a) Q e.
Proof.
  intros Hp Hg HH Hs HQ. unfold executeStakeAndUpdateStatus.
  apply run_bind, run_makeStakeArgs; [done..|]. intros l. apply run_bind.
  eapply run_validator; [exact HH|done|]. clear dependent e. intros out b' e HH [Hev Hb'] Hok.
  apply run_bind. destruct (0 <? length l).
  - apply run_orReturn; [done|]. eapply run_statusAfterStake; [exact HH|done..|].
    clear dependent e. intros s' e Hs' HH. apply run_bind, run_orReturn; [done|].
    eapply run_saveStatusLike; [exact HH|exact Hs|done|]. clear dependent e. intros e HH.
    apply run_orReturn; [done|]. eapply run_saveGlobal; [exact Hself|exact HH|].
    intros e' HH'. eapply (HQ s'); [done|exact Hb'|]. by destruct m.
  - apply run_ret, run_bind, run_orReturn; [done|].
    eapply run_saveStatusLike; [exact HH|exact Hs|done|]. clear dependent e. intros e HH.
    apply run_orReturn; [done|]. eapply run_saveGlobal; [exact Hself|exact HH|].
    intros e' HH'. by eapply (HQ s).
Qed.
End steps.
