(* ===== verification/DelegationDelegate.v ===== *)
(** * DelegationDelegate: delegating and undelegating keep the books

    [delegate], [reDelegateRewards] and the parts of the deployment and merge
    that delegate add to the active fund of one user.  [unDelegate] takes a value
    out of the active fund and adds it to an unstaked fund, the last one when it is
    of the same epoch.  The lemmas follow the functions they share. *)
From Stdlib Require Import Floats.SpecFloat.
From S2P Require Import Prelude SystemEI StakingData Sums DelegationData Contract DelegationFunds.
From S2P Require Import DelegationSpec DelegationInvariant DelegationRewards DelegationSteps.
#[local] Open Scope go_scope.

Section delegating.
Context {E : Type} {EI : SystemEI E} {EIL : SystemEILaws E}.
Context {CH : ContractHost E} {CHL : HostLaws E}.
Context {DC : DelegationContract} {DL : DelegationLaws} {VP : ValidatorPromise (E:=E)}.
Context (h : BlockchainHook) (self : bytes) (mg : DelegationManagement).
Context (Hself : delegationMgrSCAddress ≠ self) (Hset : Setting h mg).

Lemma run_checkOwnerFunds e m b c a v Q :
  Heap h self mg e m b → stConfig m = Some c → goodConfig c → (0 ≤ v)%Z →
  (∀ c' e', goodConfig c' → ((0 < v)%Z ∨ ∃ i, InitialOwnerFunds c = Some i ∧ (0 < i)%Z) →
     Heap h self mg e' (putConfig c' m) b → Q c' e') →
  run anyError (checkAndUpdateOwnerInitialFunds c a v) Q e.
Proof.
  intros HH Hc Hg Hv HQ. unfold checkAndUpdateOwnerInitialFunds.
  destruct (gc_funds _ Hg) as (i & Hi & Hi0). apply run_bind. eapply run_deref; [done|].
  destruct (Z.ltb_spec 0 i).
  - apply run_ret, HQ; [done|eauto|]. destruct m. simpl in *. by subst.
  - apply run_bind. eapply run_isOwner; [exact HH|]. case_match; [done|].
    apply run_bind. eapply run_getManagement; [exact HH|].
    destruct (se_deposit _ _ Hset) as (md & Hmd & Hmd0).
    apply run_bind. eapply run_deref; [done|]. destruct (Z.ltb_spec v md); [done|].
    assert (goodConfig (withInitialOwnerFunds (Some v) c)) as Hg'.
    { destruct Hg as [[] ? _], c. split; [by split|done|by exists v]. }
    apply run_bind. eapply run_saveConfig; [exact Hself|exact HH|apply Hg'| |].
    { by destruct c. }
    intros e' HH'. apply run_ret, HQ; [done| |done]. left. lia.
Qed.
(** ** The active fund *)
(** the active fund after [v] was added to [o], [l] the last index *)
Definition fundAfter (l : Z) (a : bytes) (v : Z) (o : option (Z * Fund)) : Z * Fund :=
  match o with
  | Some (n, f) => (n, addTo v f)
  | None => ((l + 1)%Z, newFund h a v active)
  end.
Definition lastAfter (l : Z) (o : option (Z * Fund)) : Z :=
  match o with Some _ => l | None => (l + 1)%Z end.
Definition usersAfter (o : option (Z * Fund)) (isNew : bool) (s : DelegationContractStatus) :=
  match o with
  | Some _ => s
  | None => if isNew then withNumUsers (u64 (NumUsers s + 1)) s else s
  end.
Definition activeStore (l : Z) (a : bytes) (v : Z) (o : option (Z * Fund)) (m : Store) : Store :=
  let nf := fundAfter l a v o in
  putLast (lastKey (lastAfter l o)) (putFunds (<[nf.1 := nf.2]> (stFunds m)) m).

Lemma run_addToActiveFund e m b a d v s isNew o l Q :
  Heap h self mg e m b → ActiveFund d = activeKey o → (∀ nf, o = Some nf → stored m nf) →
  stLast m = lastKey l → (0 ≤ l)%Z → validFund (l + 1) → (0 < v)%Z →
  (∀ e', Heap h self mg e' (activeStore l a v o m) b →
     Q (withActiveFund (fundKey (fundAfter l a v o).1) d, usersAfter o isNew s) e') →
  run anyError (addToActiveFund a d v s isNew) Q e.
Proof.
  intros HH Hd Ho Hl Hl0 Hn Hv HQ. unfold addToActiveFund. rewrite Hd.
  destruct o as [[n f]|]; simpl activeKey.
  - destruct (Ho _ eq_refl) as (Hvn & Hf & Hg). simpl in Hvn, Hf, Hg.
    change (0 <? length (fundKey n)) with true.
    apply run_bind. eapply run_addValueToFund; [exact Hself|exact HH|done..|lia|].
    intros e' HH'. apply run_ret. replace (d, s) with (withActiveFund (fundKey n) d, s).
    + apply HQ. unfold activeStore. simpl. rewrite -Hl. by destruct m.
    + f_equal. destruct d. simpl in *. by subst.
  - apply run_bind. pose proof (se_epoch _ _ Hset).
    eapply run_createFund; [exact Hself|exact HH|lia|done|lia|done..|].
    intros e' HH'. apply run_ret. apply HQ. unfold activeStore. simpl.
    unfold lastKey. rewrite (proj2 (Z.eqb_neq _ _)) //. lia.
Qed.

(** ** The books after delegating *)
Definition delegated (l : Z) (a : bytes) (v : Z) (u : User) : User :=
  mkUser (Some (fundAfter l a v (uActive u))) (uUnStaked u) (uCheckpoint u) (uUnClaimed u)
    (uCumulated u).

(** [u] has the funds of the user at [a] *)
Definition ownFunds (us : gmap bytes User) (a : bytes) (u : User) : Prop :=
  match us !! a with
  | Some u0 => uActive u = uActive u0 ∧ uUnStaked u = uUnStaked u0
  | None => uActive u = None ∧ uUnStaked u = []
  end.
Lemma ownFunds_facts us a u :
  ownFunds us a u → fundIndices u = indicesAt us a ∧ activeValue u = valueAt activeValue us a ∧
    unStakedValue u = valueAt unStakedValue us a.
Proof.
  unfold ownFunds, fundIndices, indicesAt, userFunds, valueAt, activeValue, unStakedValue.
  destruct (us !! a) as [u0|]; intros [-> ->]; done.
Qed.
Lemma ownFunds_stored bound m us a u nf :
  Inv (CurrentEpoch h) bound m us → (bound < 2 ^ 64)%Z → ownFunds us a u → nf ∈ userFunds u →
  stored m nf.
Proof.
  intros HI Hb Hown Hnf. unfold ownFunds in Hown. destruct (us !! a) as [u0|] eqn:Hu.
  - assert (nf ∈ userFunds u0) as Hnf0.
    { destruct Hown as [Ha Hn]. unfold userFunds in *. by rewrite -Ha -Hn. }
    destruct (gu_funds _ _ (iv_good _ _ _ _ HI a u0 Hu) nf Hnf0). destruct nf as [n f].
    split_and!; [by eapply fund_valid|by eapply iv_funds|done].
  - destruct Hown as [Ha Hn]. unfold userFunds in Hnf. rewrite Ha Hn in Hnf.
    by apply not_elem_of_nil in Hnf.
Qed.

Lemma addTo_amount v f : amount (addTo v f) = (amount f + v)%Z.
Proof. by destruct f. Qed.
Lemma addTo_good v f : goodFund f → (0 ≤ v)%Z → goodFund (addTo v f).
Proof.
  intros Hf Hv. pose proof (amount_positive f Hf). destruct Hf as [_ []]. split.
  - exists (amount f + v)%Z. destruct f. split; [done|lia].
  - by destruct f.
Qed.
Lemma newFund_good a v ty : (0 < v)%Z → isType ty → goodFund (newFund h a v ty).
Proof.
  intros Hv Hty. pose proof (se_epoch _ _ Hset). split; [by exists v|]. split; simpl; [lia|done].
Qed.

Lemma delegated_change m us a u l v bound :
  Inv (CurrentEpoch h) bound m us → stLast m = lastKey l → (0 ≤ l)%Z → ownFunds us a u →
  (∀ n, n ∈ indicesAt us a → (n ≤ l)%Z) →
  (∀ nf, nf ∈ userFunds u → stored m nf) → NoDup (fundIndices u) →
  let u' := delegated l a v u in
  changesUser m (putUsers (<[a := toDelegator u']> (stUsers m)) (activeStore l a v (uActive u) m))
    us a u'.
Proof.
  intros HI Hl Hl0 Hown Hmax Hst Hnd u'. destruct (ownFunds_facts us a u Hown) as (Hix & _ & _).
  assert (fundIndices u' = match uActive u with Some _ => fundIndices u
                           | None => (l + 1)%Z :: fundIndices u end) as Hix'.
  { unfold fundIndices, userFunds, u'. simpl. by destruct (uActive u) as [[n f]|]. }
  assert (∀ l0, stLast m = lastKey l0 → (0 ≤ l0)%Z → l0 = l) as Hlast.
  { intros l0 H0 ?. apply lastKey_inj; [done..|congruence]. }
  split; try by destruct m.
  - intros n f Hnf. destruct m; simpl.
    unfold u', userFunds in Hnf. simpl in Hnf.
    apply elem_of_cons in Hnf as [Hnf|Hnf].
    + rewrite -Hnf. simpl. by rewrite lookup_insert_eq.
    + assert (n ≠ (fundAfter l a v (uActive u)).1).
      { assert (n ∈ (uUnStaked u).*1) as Hn by (apply list_elem_of_fmap; by exists (n, f)).
        unfold fundIndices, userFunds in Hnd, Hix.
        destruct (uActive u) as [[n0 f0]|]; simpl in *.
        - apply NoDup_cons in Hnd as [Hnd _]. by intros ->.
        - rewrite -Hix in Hmax. specialize (Hmax n Hn). lia. }
      rewrite lookup_insert_ne; [|done]. by apply (Hst (n, f)), unStaked_in.
  - intros n l0 H0 Hl00 Hn Hnot. rewrite -(Hlast l0 H0 Hl00) in Hl |- *. destruct m; simpl.
    apply lookup_insert_ne. intros <-. destruct (uActive u) as [[n0 f0]|] eqn:Hact; simpl in *; [|lia].
    apply Hnot. rewrite -Hix. unfold fundIndices, userFunds. rewrite Hact. left.
  - intros n l0 H0 Hl00 Hn. rewrite (Hlast l0 H0 Hl00). rewrite -Hix. rewrite Hix' in Hn.
    destruct (uActive u); [by left|]. apply elem_of_cons in Hn as [->|]; [right; lia|by left].
  - intros l0 H0 Hl00. rewrite (Hlast l0 H0 Hl00).
    exists (lastAfter l (uActive u)). rewrite -Hix in Hmax. rewrite Hix'.
    split_and!; [by destruct m|destruct (uActive u); simpl; lia..|].
    destruct (uActive u); [done|]. intros n [->|Hn]%elem_of_cons; simpl; [lia|].
    specialize (Hmax n Hn). lia.
Qed.

Lemma delegated_good m us a u l v bound :
  Inv (CurrentEpoch h) bound m us → (0 ≤ l)%Z → ownFunds us a u → (0 < v)%Z →
  (∀ n, n ∈ indicesAt us a → (n ≤ l)%Z) → (bound < 2 ^ 64)%Z →
  uCheckpoint u = (CurrentEpoch h + 1)%Z → (0 ≤ uUnClaimed u)%Z → NoDup (fundIndices u) →
  goodUser (CurrentEpoch h) (delegated l a v u).
Proof.
  intros HI Hl0 Hown Hv Hmax Hb Hck Hun Hnd. pose proof (se_epoch _ _ Hset) as Hep.
  destruct (ownFunds_facts us a u Hown) as (Hix & _ & _). rewrite -Hix in Hmax.
  split; simpl; [..|lia|done].
  - intros nf [Hnf|Hnf]%elem_of_app.
    + simpl in Hnf. apply list_elem_of_singleton in Hnf as ->.
      destruct (uActive u) as [[n f]|] eqn:Hact; simpl.
      * destruct (ownFunds_stored _ _ _ _ _ (n, f) HI Hb Hown) as ([? _] & _ & Hf).
        { by apply active_in. }
        split; [apply addTo_good; [done|lia]|done].
      * split; [by apply newFund_good|lia].
    + destruct (ownFunds_stored _ _ _ _ _ nf HI Hb Hown) as ([? _] & _ & Hf).
      { by apply unStaked_in. }
      done.
  - unfold fundIndices, userFunds in *. simpl.
    destruct (uActive u) as [[n f]|]; simpl in *; [done|].
    apply NoDup_cons. split; [|done]. intros Hin. specialize (Hmax _ Hin). lia.
Qed.

(** the store that delegating leaves *)
Definition delegatedStore (l : Z) (a : bytes) (v : Z) (u : User) (c : DelegationConfig)
    (s : DelegationContractStatus) (ta tu : Z) (m : Store) : Store :=
  putUsers (<[a := toDelegator (delegated l a v u)]> (stUsers m))
    (putTotal (bigBytes (ta + v)) (putGlobal (mkGlobalFund (Some (ta + v)%Z) (Some tu))
      (putStatus s (activeStore l a v (uActive u) (putConfig c m))))).

Lemma delegated_Inv m us a u l v c s bound :
  Inv (CurrentEpoch h) bound m us → (bound < 2 ^ 64)%Z → stLast m = lastKey l → (0 ≤ l)%Z →
  (∀ n, n ∈ indicesAt us a → (n ≤ l)%Z) → ownFunds us a u → isAddress a → (0 < v)%Z →
  uCheckpoint u = (CurrentEpoch h + 1)%Z → (0 ≤ uUnClaimed u)%Z → NoDup (fundIndices u) →
  goodConfig c →
  Inv (CurrentEpoch h) (bound + 1)
    (delegatedStore l a v u c s (mapSum (λ _, activeValue) us) (mapSum (λ _, unStakedValue) us) m)
    (<[a := delegated l a v u]> us).
Proof.
  intros HI Hb Hl Hl0 Hmax Hown Ha Hv Hck Hun Hnd Hc.
  destruct (ownFunds_facts us a u Hown) as (_ & Hact & Hust).
  assert (activeValue (delegated l a v u) = activeValue u + v)%Z as Hval.
  { unfold activeValue. simpl. destruct (uActive u) as [[n f]|]; simpl; [apply addTo_amount|].
    unfold amount. simpl. lia. }
  pose proof (delegated_change m us a u l v bound HI Hl Hl0 Hown Hmax
    (λ nf, ownFunds_stored bound m us a u nf HI Hb Hown) Hnd) as Hch.
  apply (Inv_update _ _ m).
  - done.
  - destruct Hch. destruct m. by split.
  - done.
  - by eapply delegated_good.
  - intros ep Hep. rewrite (stakeAt_after (CurrentEpoch h)); [|simpl; lia|done].
    by eapply stakeAt_nonneg.
  - rewrite -Hact -Hust Hval. destruct m; simpl. do 3 f_equal; [lia|].
    unfold unStakedValue. simpl. lia.
  - rewrite -Hact Hval. destruct m; simpl. f_equal. lia.
  - exists c. by destruct m.
Qed.

Lemma run_checkActiveFund e m b d n f Q :
  Heap h self mg e m b → ActiveFund d = fundKey n → stored m (n, f) → Q tt e →
  run anyError (checkActiveFund d) Q e.
Proof.
  intros HH Hd (Hn & Hf & Hg) HQ. unfold checkActiveFund. case_match; [done|].
  apply run_bind. eapply run_getManagement; [exact HH|]. apply run_bind. rewrite Hd.
  eapply run_getFund; [exact HH|done..|].
  apply run_bind. eapply run_deref; [by apply FundValue_amount|].
  destruct (se_amount _ _ Hset) as (ma & Hma & _). apply run_bind. eapply run_deref; [done|].
  case_match; [done|]. apply HQ.
Qed.

Lemma delegated_record l a v u :
  withActiveFund (fundKey (fundAfter l a v (uActive u)).1) (toDelegator u)
  = toDelegator (delegated l a v u).
Proof. unfold toDelegator, delegated. simpl. by destruct (fundAfter _ _ _ _). Qed.
Lemma delegated_stored m l a v u :
  validFund (l + 1) → (0 < v)%Z → (∀ nf, uActive u = Some nf → stored m nf) →
  stored (activeStore l a v (uActive u) m) (fundAfter l a v (uActive u)).
Proof.
  intros Hn Hv Hst. unfold stored, activeStore. destruct m; simpl. rewrite lookup_insert_eq.
  destruct (uActive u) as [[n f]|]; simpl.
  - destruct (Hst _ eq_refl) as (? & _ & Hg). split_and!; [done..|]. apply addTo_good; [done|lia].
  - split_and!; [done..|]. by apply newFund_good.
Qed.

Lemma run_finishDelegate (e : E) (m : Store) (b : Z) (us : gmap bytes User) a u c s tu l v callValue isNew chk contract (R : E → Prop) Q :
  Heap h self mg e m b → stConfig m = Some c → goodConfig c → isAddress a → (0 < v)%Z →
  stLast m = lastKey l → (0 ≤ l)%Z → validFund (l + 1) →
  (∀ nf, uActive u = Some nf → stored m nf) → delegatorRange (toDelegator u) →
  someUsers (usersAfter (uActive u) isNew s) →
  (∀ s' b' e', NumUsers s' = NumUsers (usersAfter (uActive u) isNew s) → (b - callValue ≤ b')%Z →
     Heap h self mg e' (delegatedStore l a v u c s' (mapSum (λ _, activeValue) us) tu m) b' →
     Q Ok e') →
  run (exits R) (finishDelegateUser (mkGlobalFund (Some (mapSum (λ _, activeValue) us)) (Some tu))
    (toDelegator u) c s a contract v callValue isNew chk) Q e.
Proof.
  intros HH Hcm Hc Ha Hv Hl Hl0 Hn Hst Hr Hs HQ. unfold finishDelegateUser.
  apply run_bind. eapply run_deref; [done|]. destruct (gc_cap _ Hc) as [cap Hcap].
  apply run_bind. eapply run_deref; [done|]. apply run_bind, run_returnIf; [done|intros _].
  apply run_bind, run_orReturn; [done|].
  eapply (run_addToActiveFund _ _ _ _ _ _ _ _ (uActive u)); [exact HH|done..|].
  clear dependent e. intros e HH.
  set (m1 := activeStore l a v (uActive u) m) in *.
  apply run_bind, run_orReturn; [done|].
  rewrite delegated_record. pose proof (delegated_stored m l a v u Hn Hv Hst) as Hst1. fold m1 in Hst1.
  destruct (fundAfter l a v (uActive u)) as [n f] eqn:Hnf.
  eapply run_checkActiveFund; [exact HH|by rewrite /toDelegator /delegated Hnf|exact Hst1|].
  apply run_bind. eapply run_executeStake; [exact Hself|apply Hset..|exact HH|exact Hs|].
  clear dependent e. intros s' b' e Hs' Hb' HH.
  apply run_bind, run_orReturn; [done|].
  eapply (run_saveUser _ _ _ Hself _ _ _ HH _ (toDelegator (delegated l a v u)));
    [done|done|done|].
  intros e' HH'. apply run_ret. eapply (HQ s' b'); [done..|]. unfold delegatedStore.
  replace (putConfig c m) with m by (destruct m; simpl in *; by subst).
  fold m1. unfold m1 in *. by destruct m.
Qed.

(** ** [delegateUser] *)
Definition newUser : User := mkUser None [] (CurrentEpoch h + 1) 0 0.
(** the user the code works on: settled, or new *)
Definition currentUser (m : Store) (us : gmap bytes User) (a : bytes) : User :=
  match us !! a with
  | Some u => settle (CurrentEpoch h) (stRewards m) (bool_decide (a = stOwner m)) u
  | None => newUser
  end.

Record settledUser (m : Store) (us : gmap bytes User) (a : bytes) (u : User) : Prop := {
  su_own : ownFunds us a u;
  su_checkpoint : uCheckpoint u = (CurrentEpoch h + 1)%Z;
  su_due : uUnClaimed u = valueAt (due m a) us a;
  su_unClaimed : (0 ≤ uUnClaimed u)%Z;
  su_nodup : NoDup (fundIndices u);
}.
Lemma currentUser_settled bound m us a :
  Inv (CurrentEpoch h) bound m us → settledUser m us a (currentUser m us a).
Proof.
  intros HI. unfold currentUser, ownFunds.
  destruct (us !! a) as [u|] eqn:Hu.
  - pose proof (due_nonneg _ _ _ _ HI a u Hu). split; unfold ownFunds, valueAt; rewrite ?Hu //.
    by destruct (iv_good _ _ _ _ HI a u Hu).
  - split; unfold ownFunds, valueAt; rewrite ?Hu //. apply NoDup_nil_2.
Qed.

(** the index of the last fund, and what it bounds *)
Lemma Inv_last epoch bound m us a :
  Inv epoch bound m us →
  ∃ l, stLast m = lastKey l ∧ (0 ≤ l ≤ bound)%Z ∧ ∀ n, n ∈ indicesAt us a → (n ≤ l)%Z.
Proof.
  intros HI. destruct (iv_last _ _ _ _ HI) as (l & Hl & Hb & Hmax). exists l.
  split_and!; [done|lia..|]. unfold indicesAt. intros n Hn.
  destruct (us !! a) as [u|] eqn:Hu; [by eapply Hmax|by apply not_elem_of_nil in Hn].
Qed.

(** what delegating [callValue] leaves behind: one more user or fund, nothing more owed *)
Record afterDelegate (bound : Z) (m : Store) (us : gmap bytes User) (a : bytes) (gain : Z)
    (m' : Store) (us' : gmap bytes User) : Prop := {
  ad_inv : Inv (CurrentEpoch h) (bound + 1) m' us';
  ad_users : ∃ u', us' = <[a := u']> us;
  ad_owner : stOwner m' = stOwner m;
  ad_status : ∃ s, stStatus m' = Some s ∧ NumUsers s = Z.of_nat (size us');
  ad_owed : owed m' us' = (owed m us - gain)%Z;
}.

Lemma delegated_after m us a u l v c s bound gain :
  Inv (CurrentEpoch h) bound m us → (bound < 2 ^ 64)%Z → stLast m = lastKey l → (0 ≤ l)%Z →
  (∀ n, n ∈ indicesAt us a → (n ≤ l)%Z) → ownFunds us a u → isAddress a → (0 < v)%Z →
  uCheckpoint u = (CurrentEpoch h + 1)%Z → (0 ≤ uUnClaimed u)%Z → NoDup (fundIndices u) →
  uUnClaimed u = (valueAt (due m a) us a - gain)%Z →
  goodConfig c → NumUsers s = Z.of_nat (size (<[a := delegated l a v u]> us)) →
  afterDelegate bound m us a gain
    (delegatedStore l a v u c s (mapSum (λ _, activeValue) us) (mapSum (λ _, unStakedValue) us) m)
    (<[a := delegated l a v u]> us).
Proof.
  intros HI Hb Hl Hl0 Hmax Hown Ha Hv Hck Hun Hnd Hdue Hc Hs. split.
  - by apply delegated_Inv.
  - by eexists.
  - by destruct m.
  - exists s. by destruct m.
  - rewrite (owed_update m); [|by destruct m..].
    destruct (ownFunds_facts us a u Hown) as (_ & _ & Huv).
    change (unStakedValue (delegated l a v u)) with (unStakedValue u).
    rewrite (due_after _ _ _ _ HI); [simpl; lia|simpl; lia].
Qed.

Lemma size_put (us : gmap bytes User) a u :
  size (<[a := u]> us) = match us !! a with Some _ => size us | None => S (size us) end.
Proof.
  destruct (us !! a) eqn:Ha; [by rewrite map_size_insert_Some|by rewrite map_size_insert_None].
Qed.
(** the status counts the users *)
Lemma usersAfter_size us a u o s isNew :
  (bool_decide (us !! a = None) = isNew) → ownFunds us a u → o = uActive u →
  NumUsers s = Z.of_nat (size us) → (Z.of_nat (size us) + 1 < 2 ^ 64)%Z →
  NumUsers (usersAfter o isNew s) = Z.of_nat (size (<[a := u]> us)).
Proof.
  intros Hnew Hown -> Hs Hsz. rewrite size_put. unfold ownFunds in Hown.
  destruct (us !! a) as [u0|].
  - subst isNew. simpl. by destruct (uActive u) as [[]|].
  - destruct Hown as [-> _]. subst isNew. simpl. destruct s. simpl in *. subst.
    unfold u64. rewrite Z.mod_small; lia.
Qed.

Lemma run_getUserOf {fr} epoch bound e m b us a Q :
  Heap h self mg e m b → Inv epoch bound m us → isAddress a →
  Q (bool_decide (us !! a = None), match us !! a with Some u => toDelegator u | None => newDelegator end) e →
  run fr (getOrCreateDelegatorData a) Q e.
Proof.
  intros HH HI Ha HQ. eapply run_getUser; [exact HH|done|].
  rewrite (iv_users _ _ _ _ HI) lookup_fmap. by destruct (us !! a).
Qed.

(** a new configuration changes nothing of this *)
Lemma config_Inv bound m us c :
  Inv (CurrentEpoch h) bound m us → goodConfig c → Inv (CurrentEpoch h) bound (putConfig c m) us.
Proof.
  intros HI Hc. eapply Inv_frame; [exact HI|by destruct m..| |].
  - exists c. by destruct m.
  - replace (stFee (putConfig c m)) with (stFee m) by by destruct m. by eapply iv_fee.
Qed.
Lemma config_after bound m us a c gain m' us' :
  afterDelegate bound (putConfig c m) us a gain m' us' → afterDelegate bound m us a gain m' us'.
Proof. intros []. split; [done..|by destruct m|done|]. rewrite ad_owed0. by destruct m. Qed.

Lemma config_Books bound m us c :
  Books (CurrentEpoch h) bound m us → goodConfig c → Books (CurrentEpoch h) bound (putConfig c m) us.
Proof.
  intros [HI Ho Hs] Hc. split; [by apply config_Inv|by destruct m|by destruct m].
Qed.
Lemma config_kept bound m us c b v e' :
  kept h self mg bound (putConfig c m) us b v e' → kept h self mg bound m us b v e'.
Proof.
  intros (m' & us' & b' & HH' & HB' & Hle). exists m', us', b'. split_and!; [done..|].
  revert Hle. by destruct m.
Qed.

(** the end of both ways to delegate: [u] delegates [v], [gain] of which were its rewards *)
Lemma run_delegated bound e m b us a u c s v callValue gain isNew chk contract (R : E → Prop) Q :
  Heap h self mg e m b → Inv (CurrentEpoch h) bound m us → (bound + 1 < 2 ^ 64)%Z →
  stConfig m = Some c → goodConfig c → isAddress a → (0 < v)%Z →
  ownFunds us a u → uCheckpoint u = (CurrentEpoch h + 1)%Z → (0 ≤ uUnClaimed u)%Z →
  NoDup (fundIndices u) → uUnClaimed u = (valueAt (due m a) us a - gain)%Z →
  NumUsers s = Z.of_nat (size us) → (bool_decide (us !! a = None) = isNew) →
  (∀ m' us' b' e', Heap h self mg e' m' b' → afterDelegate bound m us a gain m' us' →
     (b - callValue ≤ b')%Z → Q Ok e') →
  run (exits R) (finishDelegateUser
    (mkGlobalFund (Some (mapSum (λ _, activeValue) us)) (Some (mapSum (λ _, unStakedValue) us)))
    (toDelegator u) c s a contract v callValue isNew chk) Q e.
Proof.
  intros HH HI Hb Hcm Hc Ha Hv Hown Hck Hun Hnd Hdue Hs Hnew HQ.
  pose proof (se_epoch _ _ Hset) as Hep. pose proof (iv_size _ _ _ _ HI) as Hsz.
  destruct (Inv_last _ _ _ _ a HI) as (l & Hl & Hl0 & Hmax).
  assert (size (<[a := u]> us) ≤ size us + 1) as Hsz' by (rewrite size_put; case_match; lia).
  assert (size (<[a := u]> us) ≠ 0) as Hne.
  { intros H0%map_size_empty_iff. by apply insert_non_empty in H0. }
  pose proof (usersAfter_size us a u _ s isNew Hnew Hown eq_refl Hs ltac:(lia)) as Hus.
  eapply (run_finishDelegate _ _ _ _ _ _ _ _ _ l); [exact HH|done..|lia|unfold validFund; lia| | | |].
  - intros nf Hnf. eapply ownFunds_stored; [done|lia|done|]. by apply active_in.
  - unfold delegatorRange. simpl. lia.
  - unfold someUsers. lia.
  - intros s' b' e' Hs' Hb' HH'. eapply HQ; [exact HH'| |done].
    eapply delegated_after; try done; try lia. rewrite Hs' Hus. by rewrite !size_put.
Qed.

Lemma run_delegateUser bound e m b us args v callValue a s (R : E → Prop) Q :
  Heap h self mg e m b → Inv (CurrentEpoch h) bound m us → (bound + 1 < 2 ^ 64)%Z →
  isAddress a → (0 ≤ v)%Z → NumUsers s = Z.of_nat (size us) →
  ((0 < v)%Z ∨ ∀ c, stConfig m = Some c → InitialOwnerFunds c = Some v) →
  (∀ m' us' b' e', Heap h self mg e' m' b' → afterDelegate bound m us a 0 m' us' →
     (b - callValue ≤ b')%Z → Q Ok e') →
  run (exits R) (delegateUser args v callValue a s) Q e.
Proof.
  intros HH HI Hb Ha Hv0 Hs Hv HQ. unfold delegateUser.
  destruct (iv_config _ _ _ _ HI) as (c0 & Hc0 & Hgc0).
  apply run_bind, run_orReturn; [done|]. eapply run_getConfig; [exact HH|done|].
  apply run_bind, run_orReturn; [done|].
  eapply run_getGlobal; [exact HH|by eapply iv_global|].
  apply run_bind, run_orReturn; [done|]. eapply run_checkOwnerFunds; [exact HH|done..|].
  clear dependent e. intros c e Hgc Hpos HH.
  assert (0 < v)%Z as Hv1.
  { destruct Hpos as [|(i & Hi & ?)]; [done|]. destruct Hv as [|Hv]; [done|].
    rewrite (Hv c0 Hc0) in Hi. by injection Hi as ->. }
  pose proof (config_Inv bound m us c HI Hgc) as HI'.
  pose proof (λ m' us', config_after bound m us a c 0 m' us') as Hafter.
  pose proof (currentUser_settled bound (putConfig c m) us a HI') as Hsu.
  assert (stConfig (putConfig c m) = Some c) as Hcm by by destruct m.
  clear Hc0 Hpos Hv. set (m1 := putConfig c m) in *. clearbody m1.
  destruct Hsu as [Hown Hck Hdue Hun Hnd].
  apply run_bind, run_orReturn; [done|]. eapply run_getUserOf; [exact HH|exact HI'|done|].
  apply run_bind. apply (run_mono _ _ (λ d e', d = toDelegator (currentUser m1 us a) ∧ e' = e)).
  { unfold currentUser. destruct (us !! a) as [u0|] eqn:Hu0; simpl.
    - apply run_orReturn; [done|]. by eapply run_computeAndUpdateRewards; [apply Hset..|exact HH|exact HI'|lia|done|].
    - apply run_bind. eapply run_currentEpoch; [exact HH|]. apply run_ret.
      rewrite u32_small; [done|]. pose proof (se_epoch _ _ Hset). lia. }
  intros d ? [-> ->].
  apply run_bind. eapply run_logDelegate; [exact HH|done| |].
  { intros nf Hnf. eapply ownFunds_stored; [exact HI'|lia|exact Hown|]. by apply active_in. }
  clear dependent e. intros e HH.
  eapply (run_delegated _ _ _ _ _ _ _ _ _ _ _ 0%Z); try done; [by rewrite Z.sub_0_r|].
  intros m' us' b' e' HH' Hafter' Hb'. apply (HQ m' us' b'); auto.
Qed.

(** ** The handlers *)
Section handlers.
Context (bound : Z) (m : Store) (us : gmap bytes User) (e : E) (b : Z).
Context (HH : Heap h self mg e m b) (HB : Books (CurrentEpoch h) bound m us).
Context (Hb : (bound + 1 < 2 ^ 64)%Z) (args : ContractCallInput) (Hcall : goodCall self args).

Lemma afterDelegate_kept a gain v m' us' b' e' :
  Heap h self mg e' m' b' → afterDelegate bound m us a gain m' us' → (b - v - gain ≤ b')%Z →
  kept h self mg (bound + 1) m us b v e'.
Proof.
  intros HH' [Hinv [u' ->] Ho Hs Howed] Hb'. exists m', (<[a := u']> us), b'.
  split_and!; [done| |lia]. split; [done| |done]. rewrite Ho. apply lookup_insert_is_Some'.
  right. by eapply bk_owner.
Qed.

Lemma delegate_kept : handled (kept h self mg (bound + 1) m us b (valueOf args)) (delegate args) e.
Proof.
  destruct (se_amount _ _ Hset) as (ma & Hma & Hma0).
  destruct (bk_status _ _ _ _ HB) as (s & Hs & Hn).
  unfold delegate. apply run_bind, run_orReturn; [done|]. eapply run_getManagement; [exact HH|].
  apply run_bind. eapply run_deref; [done|]. apply run_bind, run_returnIf; [done|].
  intros Hv%Z.ltb_ge. apply run_bind. eapply run_useGas; [exact HH|]. clear HH e. intros e HH.
  apply run_bind, run_orReturn; [done|]. eapply run_getStatus; [exact HH|done|].
  eapply run_delegateUser; [exact HH|apply HB|done|apply Hcall|lia|done|left; lia|].
  intros m' us' b' e' HH' Hafter Hb' _. eapply afterDelegate_kept; [done..|lia].
Qed.

Lemma reDelegateRewards_kept :
  handled (kept h self mg (bound + 1) m us b (valueOf args)) (reDelegateRewards args) e.
Proof.
  destruct (bk_status _ _ _ _ HB) as (s & Hs & Hn). pose proof (bk_inv _ _ _ _ HB) as HI.
  unfold reDelegateRewards. apply run_bind, run_returnIf; [done|].
  intros Hv%negb_false_iff%Z.eqb_eq. apply run_bind, run_returnIf; [done|intros _].
  apply run_bind. eapply run_useGas; [exact HH|]. clear HH e. intros e HH.
  apply run_bind, run_orReturn; [done|]. eapply run_getUserOf; [exact HH|exact HI|apply Hcall|].
  apply run_bind, run_returnIf; [done|]. intros Hnew.
  destruct (us !! callerOf args) as [u0|] eqn:Hu0; [|done].
  apply run_bind, run_orReturn; [done|].
  eapply run_computeAndUpdateRewards; [apply Hset..|exact HH|exact HI|lia|exact Hu0|].
  pose proof (currentUser_settled bound m us (callerOf args) HI) as Hsu.
  unfold currentUser in Hsu. rewrite Hu0 in Hsu.
  set (u := settle _ _ _ u0) in *. destruct Hsu as [Hown Hck Hdue Hun Hnd].
  destruct (iv_config _ _ _ _ HI) as (c0 & Hc0 & Hgc0).
  apply run_bind, run_orReturn; [done|]. eapply run_getConfig; [exact HH|done|].
  apply run_bind. eapply run_deref; [done|]. apply run_bind, run_orReturn; [done|].
  eapply run_checkOwnerFunds; [exact HH|done..|]. clear HH e. intros c e Hgc _ HH.
  apply run_bind, run_returnIf; [done|]. intros Hpos%Z.leb_gt.
  apply run_bind, run_orReturn; [done|].
  eapply run_getGlobal; [exact HH|by destruct m; eapply (iv_global _ _ _ _ HI)|].
  apply run_bind, run_orReturn; [done|]. eapply run_getStatus; [exact HH|by destruct m|].
  apply run_bind. eapply run_deref; [done|].
  set (v := uUnClaimed u) in *.
  set (u1 := mkUser (uActive u) (uUnStaked u) (uCheckpoint u) 0 (uCumulated u + v)).
  apply run_bind. eapply run_logDelegate with (o := uActive u); [exact HH|done| |].
  { intros nf Hnf. eapply ownFunds_stored; [by apply config_Inv|lia|exact Hown|]. by apply active_in. }
  clear HH e. intros e HH.
  eapply run_delegated with (u := u1) (gain := v); [exact HH|by apply config_Inv|done|by destruct m|done|apply Hcall|done|done|done|done|done| |done|by rewrite Hu0|].
  - change (0 = valueAt (due (putConfig c m) (callerOf args)) us (callerOf args) - v)%Z.
    replace (due (putConfig c m)) with (due m) by by destruct m. lia.
  - intros m' us' b' e' HH' Hafter Hb' _. apply config_after in Hafter.
    eapply afterDelegate_kept; [done..|lia].
Qed.
End handlers.
End delegating.

Section undelegating.
Context {E : Type} {EI : SystemEI E} {EIL : SystemEILaws E}.
Context {CH : ContractHost E} {CHL : HostLaws E}.
Context {DC : DelegationContract} {DL : DelegationLaws} {VP : ValidatorPromise (E:=E)}.
Context (h : BlockchainHook) (self : bytes) (mg : DelegationManagement).
Context (Hself : delegationMgrSCAddress ≠ self) (Hset : Setting h mg).

(** ** The unstaked funds *)
(** adding [v] to the unstaked funds, [l] the last index *)
Inductive unStakedBy (l : Z) (a : bytes) (v : Z) : list (Z * Fund) → Z * Fund → list (Z * Fund) → Z → Prop :=
  | unStaked_last fs n f : FundEpoch f = CurrentEpoch h →
      unStakedBy l a v (fs ++ [(n, f)]) (n, addTo v f) (fs ++ [(n, addTo v f)]) l
  | unStaked_new fs :
      unStakedBy l a v fs ((l + 1)%Z, newFund h a v unStaked)
        (fs ++ [((l + 1)%Z, newFund h a v unStaked)]) (l + 1).

Lemma unStakedBy_last l a v fs nf fs' l' : unStakedBy l a v fs nf fs' l' → last fs' = Some nf.
Proof. destruct 1; apply last_snoc. Qed.
Lemma unStakedBy_sum l a v fs nf fs' l' :
  unStakedBy l a v fs nf fs' l' →
  listSum (λ nf, amount nf.2) fs' = (listSum (λ nf, amount nf.2) fs + v)%Z.
Proof.
  destruct 1; rewrite !listSum_app; simpl; [rewrite addTo_amount; lia|].
  unfold amount. simpl. lia.
Qed.
(** one fund, the last or a new one, gets the value; the others stay *)
Record unStakedFacts (l : Z) (fs : list (Z * Fund)) (nf : Z * Fund) (fs' : list (Z * Fund)) (l' : Z) :
    Prop := {
  uf_in x : x ∈ fs' → x = nf ∨ x ∈ fs ∧ x.1 ≠ nf.1;
  uf_last : last fs' = Some nf;
  uf_index : (nf.1 ∈ fs.*1 ∧ l' = l) ∨ (nf.1 = (l + 1)%Z ∧ l' = (l + 1)%Z);
  uf_nodup : NoDup fs'.*1;
}.
Lemma unStakedBy_facts l a v fs nf fs' l' :
  unStakedBy l a v fs nf fs' l' → NoDup fs.*1 → (∀ k, k ∈ fs.*1 → (k ≤ l)%Z) →
  unStakedFacts l fs nf fs' l'.
Proof.
  intros Hby Hnd Hmax. assert (∀ (x : Z * Fund) fs0, x ∈ fs0 → x.1 ∈ fs0.*1) as Hfst.
  { intros x fs0 Hx. apply list_elem_of_fmap. by exists x. }
  split; [|by eapply unStakedBy_last|..]; destruct Hby as [fs n f Hf|fs].
  - rewrite fmap_app NoDup_app in Hnd. destruct Hnd as (_ & Hnd & _).
    intros x [Hx|Hx]%elem_of_app; [right|left; by apply list_elem_of_singleton in Hx].
    split; [by apply elem_of_app; left|]. simpl. intros Heq.
    apply (Hnd x.1); [by apply Hfst|]. rewrite Heq. left.
  - intros x [Hx|Hx]%elem_of_app; [right|left; by apply list_elem_of_singleton in Hx].
    split; [done|]. simpl. specialize (Hmax x.1 (Hfst _ _ Hx)). lia.
  - left. split; [|done]. rewrite fmap_app. apply elem_of_app. right. left.
  - by right.
  - rewrite fmap_app in Hnd. rewrite fmap_app. exact Hnd.
  - rewrite fmap_app. apply NoDup_app. split_and!; [done| |apply NoDup_singleton].
    intros k Hk Hk'%list_elem_of_singleton. specialize (Hmax k Hk). simpl in Hk'. lia.
Qed.

Definition unStakedStore (nf : Z * Fund) (l' : Z) (m : Store) : Store :=
  putLast (lastKey l') (putFunds (<[nf.1 := nf.2]> (stFunds m)) m).

Lemma run_addNewUnStakedFund e m b a d v fs l Q :
  Heap h self mg e m b → UnStakedFunds d = map (λ nf, fundKey nf.1) fs →
  (∀ nf, nf ∈ fs → stored m nf) → stLast m = lastKey l → (0 ≤ l)%Z → validFund (l + 1) →
  (0 < v)%Z →
  (∀ nf fs' l' e', unStakedBy l a v fs nf fs' l' → Heap h self mg e' (unStakedStore nf l' m) b →
     Q (withUnStakedFunds (map (λ nf, fundKey nf.1) fs') d) e') →
  run anyError (addNewUnStakedFund a d v) Q e.
Proof.
  intros HH Hd Hst Hl Hl0 Hn Hv HQ. unfold addNewUnStakedFund. pose proof (se_epoch _ _ Hset).
  assert (run anyError (let! unStakedFundKey := createAndSaveNextKeyFund a v unStaked in
     ret (withUnStakedFunds (UnStakedFunds d ++ [unStakedFundKey]) d)) Q e) as Hnew.
  { apply run_bind. eapply run_createFund; [exact Hself|exact HH|lia|done|lia|done..|].
    intros e' HH'. apply run_ret.
    rewrite -(lastKey_pos (l + 1)) in HH'; [|lia].
    pose proof (HQ _ _ _ e' (unStaked_new l a v fs) HH') as HQ'. by rewrite map_app -Hd in HQ'. }
  rewrite Hd in Hnew.
  rewrite Hd fmap_last. destruct (last fs) as [[n f]|] eqn:Hlast; [|exact Hnew].
  apply last_Some in Hlast as [fs0 ->]. simpl.
  destruct (Hst (n, f)) as (Hvn & Hf & Hg); [apply elem_of_app; right; by left|]. simpl in *.
  apply run_bind. eapply run_getFund; [exact HH|done..|].
  apply run_bind. eapply run_currentEpoch; [exact HH|].
  destruct (Z.eqb_spec (FundEpoch f) (CurrentEpoch h)); [|exact Hnew].
  apply run_bind. eapply run_deref; [by apply FundValue_amount|].
  apply run_bind. pose proof (amount_positive f Hg).
  eapply (run_saveFund _ _ _ Hself _ _ _ HH _ (addTo v f) (amount f + v)%Z);
    [done|by destruct Hg as [_ []], f|by destruct f|].
  intros e' HH'. unfold saveFundIn in HH'. rewrite bool_decide_false in HH'.
  2:{ destruct f. simpl. intros [=]. lia. }
  apply run_ret. pose proof (HQ _ _ _ e' (unStaked_last l a v fs0 n f e0)) as HQ'.
  replace d with (withUnStakedFunds (map (λ nf, fundKey nf.1) (fs0 ++ [(n, addTo v f)])) d).
  - apply HQ'. unfold unStakedStore. simpl. rewrite -Hl. by destruct m.
  - destruct d. simpl in *. subst. by rewrite !map_app.
Qed.

(** ** The active fund *)
Definition takeFrom (v : Z) (f : Fund) : Fund := withFundValue (Some (amount f - v)%Z) f.
Definition activeLess (v n : Z) (f : Fund) : option (Z * Fund) :=
  if (amount f - v =? 0)%Z then None else Some (n, takeFrom v f).
(** [u], whose active fund is [f] at [n], undelegates *)
Definition unDelegated (v n : Z) (f : Fund) (fs' : list (Z * Fund)) (u : User) : User :=
  mkUser (activeLess v n f) fs' (uCheckpoint u) (uUnClaimed u) (uCumulated u).
Definition unDelegatedStore (a : bytes) (v n : Z) (f : Fund) (nf : Z * Fund) (fs' : list (Z * Fund))
    (l' : Z) (u : User) (ta tu : Z) (m : Store) : Store :=
  putUsers (<[a := toDelegator (unDelegated v n f fs' u)]> (stUsers m))
    (putTotal (bigBytes (ta - v)) (putGlobal (mkGlobalFund (Some (ta - v)%Z) (Some (tu + v)%Z))
      (unStakedStore nf l' (saveFundIn n (takeFrom v f) m)))).

Section store.
Context (m : Store) (us : gmap bytes User) (a : bytes) (u : User) (l v n : Z) (f : Fund).
Context (nf : Z * Fund) (fs' : list (Z * Fund)) (l' : Z).
Context (Hl : stLast m = lastKey l) (Hl0 : (0 ≤ l)%Z).
Context (Hmax : ∀ k, k ∈ indicesAt us a → (k ≤ l)%Z) (Hown : ownFunds us a u).
Context (Hact : uActive u = Some (n, f)) (Hst : ∀ x, x ∈ userFunds u → stored m x).
Context (Hnd : NoDup (fundIndices u)) (Hby : unStakedBy l a v (uUnStaked u) nf fs' l').

Lemma unDelegated_facts :
  unStakedFacts l (uUnStaked u) nf fs' l' ∧ n ≠ nf.1 ∧ (n ≤ l)%Z ∧ (n ∉ (uUnStaked u).*1) ∧
  (∀ k, k ∈ indicesAt us a ↔ k = n ∨ k ∈ (uUnStaked u).*1).
Proof.
  destruct (ownFunds_facts us a u Hown) as (Hix & _ & _).
  pose proof Hnd as Hnd'. pose proof Hmax as Hle. rewrite -Hix in Hle |- *. clear Hix.
  unfold fundIndices, userFunds in Hle, Hnd' |- *. rewrite Hact in Hle, Hnd' |- *. simpl in *.
  apply NoDup_cons in Hnd' as [Hn Hnd'].
  assert (n ≤ l)%Z as Hnl by (apply Hle; left).
  pose proof (unStakedBy_facts _ _ _ _ _ _ _ Hby Hnd' ltac:(intros; apply Hle; by right)) as Hf.
  split_and!; try done; [|intros k; apply elem_of_cons].
  destruct (uf_index _ _ _ _ _ Hf) as [[Hin _]|[-> _]]; [|lia].
  by intros ->.
Qed.

Lemma unDelegated_keeps ta tu k :
  k ≠ n → k ≠ nf.1 → stFunds (unDelegatedStore a v n f nf fs' l' u ta tu m) !! k = stFunds m !! k.
Proof.
  intros Hk1 Hk2. destruct m; simpl. rewrite lookup_insert_ne; [|done].
  unfold saveFundIn. simpl. case_match; simplify_map_eq; done.
Qed.
Lemma unDelegated_owned ta tu k g :
  (k, g) ∈ userFunds (unDelegated v n f fs' u) →
  stFunds (unDelegatedStore a v n f nf fs' l' u ta tu m) !! k = Some g.
Proof.
  destruct unDelegated_facts as (Hf & Hne & Hnl & Hnu & Hix). intros [Hk|Hk]%elem_of_app.
  - simpl in Hk. unfold activeLess in Hk. destruct (Z.eqb_spec (amount f - v) 0) as [|Hne0].
    { by apply not_elem_of_nil in Hk. }
    apply list_elem_of_singleton in Hk as [= -> ->]. destruct m; simpl.
    rewrite lookup_insert_ne; [|done]. unfold saveFundIn. simpl.
    rewrite bool_decide_false ?lookup_insert_eq //. destruct f. simpl in *. congruence.
  - destruct (uf_in _ _ _ _ _ Hf _ Hk) as [<-|[Hk' Hkne]].
    + destruct m; simpl. by rewrite lookup_insert_eq.
    + rewrite unDelegated_keeps; [by apply (Hst (k, g)), unStaked_in| |done].
      intros ->. apply Hnu. apply list_elem_of_fmap. by exists (n, g).
Qed.
Lemma unDelegated_index k :
  k ∈ fundIndices (unDelegated v n f fs' u) → k ∈ indicesAt us a ∨ (k = (l + 1)%Z ∧ l' = (l + 1)%Z).
Proof.
  destruct unDelegated_facts as (Hf & Hne & Hnl & Hnu & Hix).
  assert (k ∈ fs'.*1 → k ∈ indicesAt us a ∨ (k = (l + 1)%Z ∧ l' = (l + 1)%Z)) as Hfs'.
  { intros (x & -> & Hx)%list_elem_of_fmap. destruct (uf_in _ _ _ _ _ Hf x Hx) as [->|[Hx' _]].
    - destruct (uf_index _ _ _ _ _ Hf) as [[? _]|[-> ->]]; [left; apply Hix; by right|by right].
    - left. apply Hix. right. apply list_elem_of_fmap. by exists x. }
  unfold fundIndices, userFunds, unDelegated, activeLess. simpl.
  case_match; simpl; [done|]. intros [->|]%elem_of_cons; [left; apply Hix; by left|auto].
Qed.

Lemma unDelegated_change ta tu :
  changesUser m (unDelegatedStore a v n f nf fs' l' u ta tu m) us a (unDelegated v n f fs' u).
Proof.
  destruct unDelegated_facts as (Hf & Hne & Hnl & Hnu & Hix).
  assert (∀ l0, stLast m = lastKey l0 → (0 ≤ l0)%Z → l0 = l) as Hlast.
  { intros l0 H0 ?. apply lastKey_inj; [done..|congruence]. }
  split; try by destruct m.
  - intros. by apply unDelegated_owned.
  - intros k l0 H0 Hl00 Hk Hnot. rewrite (Hlast l0 H0 Hl00) in Hk.
    apply unDelegated_keeps; intros ->; [apply Hnot, Hix; by left|].
    destruct (uf_index _ _ _ _ _ Hf) as [[? _]|[? _]]; [apply Hnot, Hix; by right|lia].
  - intros k l0 H0 Hl00 [Hk|[-> _]]%unDelegated_index; rewrite (Hlast l0 H0 Hl00); [by left|right; lia].
  - intros l0 H0 Hl00. rewrite (Hlast l0 H0 Hl00). exists l'.
    assert (l ≤ l' ≤ l + 1)%Z by (destruct (uf_index _ _ _ _ _ Hf) as [[_ ->]|[_ ->]]; lia).
    split_and!; [by destruct m|lia..|].
    intros k [Hk%Hmax|[-> ->]]%unDelegated_index; lia.
Qed.

Lemma unDelegated_good :
  goodUser (CurrentEpoch h) u → (0 < v ≤ amount f)%Z →
  goodUser (CurrentEpoch h) (unDelegated v n f fs' u).
Proof.
  intros [Hgf _ Hck Hun] Hv. destruct unDelegated_facts as (Hf & Hne & Hnl & Hnu & Hix).
  pose proof (Hgf _ (active_in _ _ Hact)) as [Hfg Hn0]. pose proof (se_epoch _ _ Hset).
  split; [|..|done|done].
  - intros x [Hx|Hx]%elem_of_app.
    + simpl in Hx. unfold activeLess in Hx. destruct (Z.eqb_spec (amount f - v) 0).
      { by apply not_elem_of_nil in Hx. }
      apply list_elem_of_singleton in Hx as ->. split; [|done]. destruct Hfg as [_ []].
      split; [exists (amount f - v)%Z; destruct f; split; [done|simpl in *; lia]|by destruct f].
    + destruct (uf_in _ _ _ _ _ Hf _ Hx) as [->|[Hx' _]]; [|by apply Hgf, unStaked_in].
      remember (uUnStaked u) as fs0 eqn:Hfs0 in Hby. destruct Hby as [fs n1 f1 Hf1|fs].
      * destruct (Hgf (n1, f1)) as [Hf1g Hn1].
        { apply unStaked_in. rewrite -Hfs0. apply elem_of_app. right. left. }
        split; [apply addTo_good; [done|lia]|done].
      * split; [apply (newFund_good h mg Hset); [lia|done]|simpl in *; lia].
  - pose proof (uf_nodup _ _ _ _ _ Hf) as Hnd'. unfold fundIndices, userFunds, unDelegated, activeLess. simpl.
    case_match; simpl; [done|]. apply NoDup_cons. split; [|done].
    intros (x & Hxn & Hx)%list_elem_of_fmap.
    destruct (uf_in _ _ _ _ _ Hf x Hx) as [->|[Hx' _]]; [done|].
    apply Hnu. apply list_elem_of_fmap. exists x. split; [exact Hxn|done].
Qed.

Lemma unDelegated_values :
  activeValue (unDelegated v n f fs' u) = (activeValue u - v)%Z ∧
  unStakedValue (unDelegated v n f fs' u) = (unStakedValue u + v)%Z.
Proof.
  split; [|by eapply unStakedBy_sum]. unfold activeValue, unDelegated, activeLess. simpl. rewrite Hact.
  destruct (Z.eqb_spec (amount f - v) 0); [lia|]. by destruct f.
Qed.
End store.

Lemma unDelegated_Inv bound m us a u l v n f nf fs' l' :
  Inv (CurrentEpoch h) bound m us → (bound < 2 ^ 64)%Z → stLast m = lastKey l → (0 ≤ l)%Z →
  (∀ k, k ∈ indicesAt us a → (k ≤ l)%Z) → settledUser h m us a u → isAddress a →
  goodUser (CurrentEpoch h) u → uActive u = Some (n, f) → (0 < v ≤ amount f)%Z →
  unStakedBy l a v (uUnStaked u) nf fs' l' →
  Inv (CurrentEpoch h) (bound + 1)
    (unDelegatedStore a v n f nf fs' l' u (mapSum (λ _, activeValue) us)
      (mapSum (λ _, unStakedValue) us) m)
    (<[a := unDelegated v n f fs' u]> us).
Proof.
  intros HI Hb Hl Hl0 Hmax [Hown Hck Hdue Hun Hnd] Ha Hg Hact Hv Hby.
  destruct (ownFunds_facts us a u Hown) as (_ & Hav & Huv).
  pose proof (unDelegated_values a u l v n f nf fs' l' Hact Hby) as [Hav' Huv'].
  pose proof (λ x, ownFunds_stored h bound m us a u x HI Hb Hown) as Hst.
  eapply Inv_update; [exact HI| |done| |..].
  - by eapply unDelegated_change.
  - by eapply unDelegated_good with (l := l) (nf := nf).
  - intros ep Hep. rewrite (stakeAt_after (CurrentEpoch h)); [|simpl; lia|done].
    by eapply stakeAt_nonneg.
  - rewrite -Hav -Huv Hav' Huv'. destruct m; simpl. do 3 f_equal; lia.
  - rewrite -Hav Hav'. destruct m; simpl. f_equal. lia.
  - destruct (iv_config _ _ _ _ HI) as (c & Hc & Hgc). exists c. by destruct m.
Qed.

(** the unstaked funds do not change with the active one *)
Lemma stored_unStaked m u v n f x :
  uActive u = Some (n, f) → NoDup (fundIndices u) → x ∈ uUnStaked u → stored m x →
  stored (saveFundIn n (takeFrom v f) m) x.
Proof.
  intros Hact Hnd Hx (Hv & Hf & Hg). split_and!; [done| |done].
  assert (x.1 ≠ n).
  { unfold fundIndices, userFunds in Hnd. rewrite Hact in Hnd. apply NoDup_cons in Hnd as [Hn _].
    intros <-. apply Hn, list_elem_of_fmap. by exists x. }
  destruct m. unfold saveFundIn. simpl in *. case_match; simplify_map_eq; done.
Qed.

(** ** The handler *)
Lemma run_checkOwnerCanUnDelegate e m b us bound a f v Q :
  Heap h self mg e m b → Books (CurrentEpoch h) bound m us → goodFund f →
  (∀ c e', goodConfig c → stConfig (putConfig c m) = Some c → Heap h self mg e' (putConfig c m) b →
     Q tt e') →
  run anyError (checkOwnerCanUnDelegate a f v) Q e.
Proof.
  intros HH HB Hf HQ. pose proof (bk_inv _ _ _ _ HB) as HI.
  destruct (iv_config _ _ _ _ HI) as (c & Hc & Hgc).
  assert (Q tt e) as HQ0.
  { apply (HQ c); [done|by destruct m|]. destruct m. simpl in *. by subst. }
  unfold checkOwnerCanUnDelegate. apply run_bind. eapply run_isOwner; [exact HH|].
  case_match; [done|]. apply run_bind. eapply run_getConfig; [exact HH|done|].
  apply run_bind. eapply run_deref; [by apply FundValue_amount|].
  destruct (gc_funds _ Hgc) as (i & Hi & Hi0). apply run_bind. eapply run_deref; [done|].
  case_match; [done|]. destruct (bk_status _ _ _ _ HB) as (s & Hs & _).
  apply run_bind. eapply run_getStatus; [exact HH|done|]. case_match; [done|]. case_match; [done|].
  assert (goodConfig (withInitialOwnerFunds (Some 0%Z) c)) as Hgc'.
  { destruct Hgc as [[] ? _], c. split; [by split|done|by exists 0%Z]. }
  eapply run_saveConfig; [exact Hself|exact HH|apply Hgc'|by destruct c|].
  intros e' HH'. by eapply HQ; [exact Hgc'|destruct m|].
Qed.

Lemma run_valueInArgs e m b a f v (R : E → Prop) Q :
  Heap h self mg e m b → bool_decide (f ∈ validatorFunctions) = true →
  (∀ out b' e', Heap h self mg e' m b' → settles f [bigBytes v] 0 out b b' →
     Q (outReturnData out) e') →
  run (exits R) (executeOnValidatorSCWithValueInArgs a f v) Q e.
Proof.
  intros HH Hf%bool_decide_eq_true HQ. unfold executeOnValidatorSCWithValueInArgs. apply run_bind, run_orReturn; [done|].
  eapply run_mono; [apply vp_call; [apply HH|done]|]. intros out e' Hout. simpl.
  apply run_bind, run_returnQuietIf; [done|].
  intros Hok%negb_false_iff%bool_decide_eq_true. apply run_ret.
  destruct (Hout Hok) as (Hst & Hhook & Hs & Hman & Hrd & Hsettle).
  rewrite (hp_balance _ _ _ _ _ _ HH) in Hsettle. eapply HQ; [|exact Hsettle].
  by eapply Heap_called.
Qed.

(** the store after undelegating keeps the books *)
Lemma unDelegated_kept bound m us b a u l v n f nf fs' l' b' e' :
  Books (CurrentEpoch h) bound m us → (bound + 1 < 2 ^ 64)%Z →
  stLast m = lastKey l → (0 ≤ l)%Z → (∀ k, k ∈ indicesAt us a → (k ≤ l)%Z) →
  settledUser h m us a u → isAddress a → goodUser (CurrentEpoch h) u → is_Some (us !! a) →
  uActive u = Some (n, f) → (0 < v ≤ amount f)%Z → unStakedBy l a v (uUnStaked u) nf fs' l' →
  Heap h self mg e' (unDelegatedStore a v n f nf fs' l' u (mapSum (λ _, activeValue) us)
      (mapSum (λ _, unStakedValue) us) m) b' →
  (b + v ≤ b')%Z → kept h self mg (bound + 1) m us b 0 e'.
Proof.
  intros HB Hb Hl Hl0 Hmax Hsu Ha Hg [u0 Hu0] Hact Hv Hby HH' Hb'.
  set (m' := unDelegatedStore _ _ _ _ _ _ _ _ _ _ _) in *.
  exists m', (<[a := unDelegated v n f fs' u]> us), b'.
  assert (Inv (CurrentEpoch h) (bound + 1) m' (<[a := unDelegated v n f fs' u]> us)) as HI'.
  { eapply unDelegated_Inv; [apply HB|lia|done..]. }
  split_and!; [exact HH'| |].
  - split; [exact HI'| |].
    + replace (stOwner m') with (stOwner m) by by destruct m. apply lookup_insert_is_Some'. right.
      by eapply bk_owner.
    + destruct (bk_status _ _ _ _ HB) as (s & Hs & Hn). exists s. rewrite size_put Hu0.
      split; [by destruct m|done].
  - destruct Hsu as [Hown Hck Hdue _ _]. rewrite (owed_update m); [|by destruct m..].
    destruct (ownFunds_facts us a u Hown) as (_ & _ & Huv).
    pose proof (unDelegated_values a u l v n f nf fs' l' Hact Hby) as [_ Huv'].
    rewrite (due_after _ _ _ _ (bk_inv _ _ _ _ HB)); [simpl; lia|simpl; lia].
Qed.

Section handler.
Context (bound : Z) (m : Store) (us : gmap bytes User) (e : E) (b : Z).
Context (HH : Heap h self mg e m b) (HB : Books (CurrentEpoch h) bound m us).
Context (Hb : (bound + 1 < 2 ^ 64)%Z) (args : ContractCallInput) (Hcall : goodCall self args).

Lemma unDelegate_kept :
  handled (kept h self mg (bound + 1) m us b (valueOf args)) (unDelegate args) e.
Proof.
  pose proof (bk_inv _ _ _ _ HB) as HI. set (a := callerOf args) in *.
  assert (isAddress a) as Ha by apply Hcall.
  unfold unDelegate. apply run_bind. eapply run_useGas; [exact HH|]. clear HH e. intros e HH.
  apply run_bind, run_returnIf; [done|intros _]. apply run_bind, run_returnIf; [done|].
  intros ->%negb_false_iff%Z.eqb_eq. apply run_bind, run_returnIf; [done|]. intros Hv%Z.leb_gt.
  set (v := setBytes (arg args 0)) in *. unfold unDelegateValueFromAddress. fold a.
  apply run_bind, run_orReturn; [done|]. eapply run_getUserOf; [exact HH|exact HI|done|].
  apply run_bind, run_returnIf; [done|]. intros Hnew.
  destruct (us !! a) as [u0|] eqn:Hu0; [clear Hnew|done].
  pose proof (currentUser_settled h bound m us a HI) as Hsu.
  unfold currentUser in Hsu. rewrite Hu0 in Hsu.
  pose proof (settle_good _ _ _ _ HI a u0 (bool_decide (a = stOwner m))
    (proj1 (se_epoch _ _ Hset)) Hu0) as Hg.
  set (u := settle _ _ _ u0) in *.
  apply run_bind, run_orReturn; [done|].
  pose proof (λ x, ownFunds_stored h bound m us a u x HI ltac:(lia) (su_own _ _ _ _ _ Hsu)) as Hst.
  change (ActiveFund (toDelegator u0)) with (activeKey (uActive u)).
  eapply run_getActiveFund; [exact HH|intros; by apply Hst, active_in|]. intros n f Hact.
  destruct (Hst _ (active_in _ _ Hact)) as (Hvn & Hf & Hgf). simpl in Hvn, Hf, Hgf.
  apply run_bind. eapply run_deref; [by apply FundValue_amount|].
  apply run_bind, run_returnIf; [done|]. intros Hle%Z.ltb_ge.
  apply run_bind, run_orReturn; [done|]. eapply run_getManagement; [exact HH|].
  destruct (se_amount _ _ Hset) as (ma & Hma & _). apply run_bind. eapply run_deref; [done|].
  apply run_bind, run_returnIf; [done|intros _].
  apply run_bind, run_orReturn; [done|]. eapply run_checkOwnerCanUnDelegate; [exact HH|exact HB|done|].
  clear HH e. intros c e Hgc Hc HH.
  apply (run_mono _ _ (λ r e', r = Ok → kept h self mg (bound + 1) (putConfig c m) us b 0 e')).
  2:{ intros r e' Hr Hok. by eapply config_kept, Hr. }
  pose proof (config_Books h bound m us c HB Hgc) as HB1.
  assert (settledUser h (putConfig c m) us a u ∧
    u = settle (CurrentEpoch h) (stRewards (putConfig c m)) (bool_decide (a = stOwner (putConfig c m))) u0)
    as [Hsu1 Hu] by (destruct Hsu; destruct m; by split).
  assert (∀ x, x ∈ userFunds u → stored (putConfig c m) x) as Hst1 by (destruct m; exact Hst).
  clear HI Hsu Hst HB Hf. set (m1 := putConfig c m) in *. clearbody m1.
  pose proof (bk_inv _ _ _ _ HB1) as HI. clearbody u.
  apply run_bind, run_orReturn; [done|].
  eapply run_computeAndUpdateRewards; [apply Hset..|exact HH|exact HI|lia|exact Hu0|]. rewrite -Hu.
  apply run_bind, run_orReturn; [done|]. eapply run_getGlobal; [exact HH|by eapply iv_global|].
  apply run_bind. eapply run_valueInArgs; [exact HH|done|]. clear HH e. intros out b' e HH [-> ->].
  change (resolveUnStakedUnBondResponse [] v) with v.
  apply run_bind, run_orReturn; [done|].
  change (ActiveFund (toDelegator u)) with (activeKey (uActive u)). rewrite Hact. simpl activeKey.
  eapply (run_saveFund _ _ _ Hself _ _ _ HH _ (takeFrom v f) (amount f - v)%Z);
    [done|by destruct Hgf as [_ []], f|by destruct f|]. clear HH e. intros e HH.
  destruct (Inv_last _ bound m1 us a HI) as (l & Hl & Hl0 & Hmax).
  apply run_bind, run_orReturn; [done|].
  eapply run_addNewUnStakedFund with (fs := uUnStaked u); [exact HH|done| |by destruct m1|lia| |done|].
  { intros x Hx. apply stored_unStaked with (u := u); [done|by destruct Hsu1|done|].
    by apply Hst1, unStaked_in. }
  { unfold validFund. lia. }
  clear HH e. intros nf fs' l' e Hby HH.
  apply run_bind. eapply run_deref; [done|]. apply run_bind. eapply run_deref; [done|].
  apply run_bind, run_returnIf; [done|intros _].
  apply run_bind, run_orReturn; [done|]. eapply run_saveGlobal; [exact Hself|exact HH|].
  clear HH e. intros e HH.
  assert ((if (amount f - v =? 0)%Z then withActiveFund [] (withUnStakedFunds (map (λ nf, fundKey nf.1) fs')
    (toDelegator u)) else withUnStakedFunds (map (λ nf, fundKey nf.1) fs') (toDelegator u))
    = toDelegator (unDelegated v n f fs' u)) as ->.
  { unfold unDelegated, activeLess, toDelegator. simpl. rewrite Hact. by case_match. }
  apply run_bind, run_orReturn; [done|].
  eapply (run_saveUser _ _ _ Hself _ _ _ HH _ (toDelegator (unDelegated v n f fs' u)));
    [done| |done|].
  { pose proof (se_epoch _ _ Hset). pose proof (su_checkpoint _ _ _ _ _ Hsu1).
    unfold delegatorRange. simpl. lia. }
  clear HH e. intros e HH.
  simpl UnStakedFunds. rewrite fmap_last (unStakedBy_last _ _ _ _ _ _ _ Hby). simpl.
  apply run_bind. eapply run_logEntry; [exact HH|]. clear HH e. intros e HH2. apply run_ret.
  simpl nth in HH2. rewrite setBytes_bigBytes in HH2; [|lia].
  intros _. eapply unDelegated_kept with (l := l) (b' := (b + v)%Z); [exact HB1|done|done|lia|done..| |done].
  revert HH2. unfold unDelegatedStore. by destruct m1.
Qed.
End handler.
End undelegating.
