(* ===== verification/DelegationWithdraw.v ===== *)
(** * DelegationWithdraw: withdrawing, claiming and distributing rewards keep the books

    [withdraw] pays out the unstaked funds of a user whose unbond period is
    over and deletes a user who is left without funds and rewards; [claimRewards]
    pays a user what it is owed; [updateRewards] records the rewards of an epoch,
    which are owed to the users from then on. *)
From Stdlib Require Import Floats.SpecFloat.
From S2P Require Import Prelude SystemEI StakingData Sums DelegationData Contract DelegationFunds.
From S2P Require Import DelegationSpec DelegationInvariant DelegationRewards DelegationSteps.
From S2P Require Import DelegationDelegate.
#[local] Open Scope go_scope.

Section withdrawing.
Context {E : Type} {EI : SystemEI E} {EIL : SystemEILaws E}.
Context {CH : ContractHost E} {CHL : HostLaws E}.
Context {DC : DelegationContract} {DL : DelegationLaws} {VP : ValidatorPromise (E:=E)}.
Context (h : BlockchainHook) (self : bytes) (mg : DelegationManagement).
Context (Hself : delegationMgrSCAddress ≠ self) (Hset : Setting h mg).

(** ** The funds that can be withdrawn *)
Definition bonding (period : Z) (nf : Z * Fund) : bool :=
  (u32 (CurrentEpoch h - FundEpoch nf.2) <? period)%Z.
Definition unBondable (period : Z) (fs : list (Z * Fund)) : Z :=
  listSum (λ nf, if bonding period nf then 0%Z else amount nf.2) fs.
Definition dropFunds (period : Z) (fs : list (Z * Fund)) (funds : gmap Z Fund) : gmap Z Fund :=
  foldl (λ funds nf, if bonding period nf then funds else delete nf.1 funds) funds fs.

Lemma unBondable_nonneg m period fs :
  (∀ nf, nf ∈ fs → stored m nf) → (0 ≤ unBondable period fs)%Z.
Proof.
  intros Hst. apply listSum_nonneg. intros nf Hnf. case_match; [done|].
  destruct (Hst nf Hnf) as (_ & _ & Hg). pose proof (amount_positive _ Hg). lia.
Qed.

Lemma run_getUnBondable e m b d fs period Q :
  Heap h self mg e m b → UnStakedFunds d = map (λ nf, fundKey nf.1) fs →
  (∀ nf, nf ∈ fs → stored m nf) → Q (unBondable period fs) e →
  run anyError (getUnBondableTokens d period) Q e.
Proof.
  intros HH Hd Hst HQ. unfold getUnBondableTokens. rewrite {}Hd.
  apply run_bind. eapply run_currentEpoch; [exact HH|].
  assert (∀ total, Q (total + unBondable period fs)%Z e → run anyError
    (foldEach (map (λ nf, fundKey nf.1) fs) total (λ totalUnBondable fundKey,
      let! fund := getFund fundKey in
      if (u32 (CurrentEpoch h - FundEpoch fund) <? period)%Z then ret totalUnBondable
      else let! fundValue := deref (FundValue fund) in ret (totalUnBondable + fundValue)%Z)) Q e)
    as Hloop; [|apply Hloop; by rewrite Z.add_0_l].
  clear HQ. induction fs as [|[n f] fs IH]; intros total HQ; simpl.
  - apply run_ret. unfold unBondable in HQ. simpl in HQ. by rewrite Z.add_0_r in HQ.
  - destruct (Hst (n, f)) as (Hn & Hf & Hg); [left|]. simpl in Hn, Hf, Hg.
    apply run_bind, run_bind. eapply run_getFund; [exact HH|done..|].
    assert (∀ nf, nf ∈ fs → stored m nf) as Hst' by (intros; apply Hst; by right).
    unfold unBondable, bonding in HQ. simpl in HQ. case_match.
    + apply run_ret, IH; [done|]. by rewrite Z.add_0_l in HQ.
    + apply run_bind. eapply run_deref; [by apply FundValue_amount|]. apply run_ret, IH; [done|].
      by rewrite Z.add_assoc in HQ.
Qed.

(** nothing is left over when what can be withdrawn was paid *)
Lemma run_withdrawLoop e m b fs period actual total temp withdrawn (R : E → Prop) Q :
  Heap h self mg e m b → (∀ nf, nf ∈ fs → stored m nf) → NoDup fs.*1 →
  (total + unBondable period fs ≤ actual)%Z →
  (∀ keys e', Heap h self mg e' (putFunds (dropFunds period fs (stFunds m)) m) b →
     Q (temp ++ map (λ nf, fundKey nf.1) (List.filter (bonding period) fs), keys) e') →
  run (exits R) (withdrawLoop (map (λ nf, fundKey nf.1) fs) (CurrentEpoch h) period actual total
    temp withdrawn) Q e.
Proof.
  revert e m total temp withdrawn.
  induction fs as [|[n f] fs IH]; intros e m total temp withdrawn HH Hst Hnd Hle HQ; simpl.
  - apply run_ret. pose proof (HQ withdrawn e) as HQ'. rewrite app_nil_r in HQ'. apply HQ'.
    by destruct m.
  - destruct (Hst (n, f)) as (Hn & Hf & Hg); [left|]. simpl in Hn, Hf, Hg.
    apply NoDup_cons in Hnd as [Hnotin Hnd].
    assert (∀ nf, nf ∈ fs → stored m nf) as Hst' by (intros; apply Hst; by right).
    apply run_bind, run_orReturn; [done|]. eapply run_getFund; [exact HH|done..|].
    unfold unBondable in Hle. simpl in Hle. fold (unBondable period fs) in Hle.
    unfold dropFunds, bonding in HQ |- *. simpl in HQ. unfold bonding in Hle. simpl in Hle.
    destruct (u32 (CurrentEpoch h - FundEpoch f) <? period)%Z.
    + apply (IH e m); [done..|lia|]. intros keys e' HH'. rewrite -app_assoc. by apply HQ.
    + apply run_bind. eapply run_deref; [by apply FundValue_amount|].
      pose proof (unBondable_nonneg m period fs Hst').
      destruct (Z.ltb_spec actual (total + amount f)); [lia|].
      apply run_bind. eapply run_deleteFund; [exact Hself|exact HH|exact Hn|]. clear HH e. intros e HH.
      eapply IH; [exact HH| |done|lia|].
      * intros nf Hnf. destruct (Hst' nf Hnf) as (Hv & Hl & Hnfg). split_and!; [done| |done].
        destruct m. simpl in *. rewrite lookup_delete_ne; [done|]. intros ->.
        apply Hnotin, list_elem_of_fmap. by exists nf.
      * intros keys e' HH'. apply HQ. by destruct m.
Qed.

Lemma dropFunds_lookup period fs funds k :
  (∀ nf, nf ∈ fs → bonding period nf = false → nf.1 ≠ k) →
  dropFunds period fs funds !! k = funds !! k.
Proof.
  unfold dropFunds. revert funds. induction fs as [|nf fs IH]; intros funds Hk; simpl; [done|].
  rewrite IH; [|intros; apply Hk; [by right|done]]. destruct (bonding period nf) eqn:Hb; [done|].
  apply lookup_delete_ne. apply Hk; [left|done].
Qed.
Lemma filter_bonding period (fs : list (Z * Fund)) nf :
  nf ∈ List.filter (bonding period) fs ↔ nf ∈ fs ∧ bonding period nf = true.
Proof. by rewrite !list_elem_of_In filter_In. Qed.
Lemma filter_nodup period (fs : list (Z * Fund)) :
  NoDup fs.*1 → NoDup (List.filter (bonding period) fs).*1.
Proof.
  induction fs as [|nf fs IH]; simpl; [done|]. intros [Hn Hnd]%NoDup_cons.
  destruct (bonding period nf); [|by apply IH]. simpl. apply NoDup_cons. split; [|by apply IH].
  intros (x & Hx & [Hin _]%filter_bonding)%list_elem_of_fmap. apply Hn, list_elem_of_fmap. by exists x.
Qed.
Lemma filter_sum period (fs : list (Z * Fund)) :
  listSum (λ nf, amount nf.2) (List.filter (bonding period) fs)
  = (listSum (λ nf, amount nf.2) fs - unBondable period fs)%Z.
Proof.
  unfold unBondable. induction fs as [|nf fs IH]; simpl; [done|].
  destruct (bonding period nf); simpl; lia.
Qed.

(** ** The user after withdrawing *)
Definition withdrawn (period : Z) (u : User) : User :=
  mkUser (uActive u) (List.filter (bonding period) (uUnStaked u)) (uCheckpoint u) (uUnClaimed u)
    (uCumulated u).
Definition withdrawnStore (period : Z) (a : bytes) (u : User) (ta tu : Z) (m : Store) : Store :=
  putUsers (<[a := toDelegator (withdrawn period u)]> (stUsers m))
    (putTotal (bigBytes ta) (putGlobal (mkGlobalFund (Some ta) (Some tu))
      (putFunds (dropFunds period (uUnStaked u) (stFunds m)) m))).

Lemma withdrawn_in period u nf :
  nf ∈ userFunds (withdrawn period u) → nf ∈ userFunds u.
Proof.
  intros [Hnf|[Hnf _]%filter_bonding]%elem_of_app; apply elem_of_app; [by left|by right].
Qed.
Lemma withdrawn_change period a u ta tu m us epoch bound :
  Inv epoch bound m us → us !! a = Some u →
  changesUser m (withdrawnStore period a u ta tu m) us a (withdrawn period u).
Proof.
  intros HI Hu. pose proof (iv_good _ _ _ _ HI a u Hu) as [_ Hnd _ _].
  assert (∀ n, n ∈ fundIndices (withdrawn period u) → n ∈ indicesAt us a) as Hidx.
  { unfold indicesAt. rewrite Hu. intros n (x & -> & Hx%withdrawn_in)%list_elem_of_fmap.
    apply list_elem_of_fmap. by exists x. }
  destruct (Inv_last _ _ _ _ a HI) as (l & Hl & Hl0 & Hmax).
  split; try by destruct m.
  - intros n f Hn. destruct m; simpl. rewrite dropFunds_lookup.
    { eapply (iv_funds _ _ _ _ HI a u); [done|by apply withdrawn_in in Hn]. }
    intros nf Hnf Hbn Heq. unfold fundIndices, userFunds in Hnd. rewrite fmap_app in Hnd.
    apply NoDup_app in Hnd as (_ & Hd & Hnd).
    apply elem_of_app in Hn as [Hn|[Hn Hbf]%filter_bonding].
    + apply (Hd n); [apply list_elem_of_fmap; by exists (n, f)|].
      apply list_elem_of_fmap. by exists nf.
    + assert (nf = (n, f)) as ->; [|congruence].
      clear -Hnd Hnf Hn Heq. induction (uUnStaked u) as [|x fs IH]; [by apply not_elem_of_nil in Hn|].
      simpl in Hnd. apply NoDup_cons in Hnd as [Hx Hnd].
      apply elem_of_cons in Hnf as [->|Hnf], Hn as [<-|Hn]; [done| | |by apply IH].
      * destruct Hx. apply list_elem_of_fmap. by exists (n, f).
      * destruct Hx. apply list_elem_of_fmap. exists nf. by rewrite Heq.
  - intros n l0 _ _ _ Hn. destruct m; simpl. apply dropFunds_lookup. intros nf Hnf _ <-. apply Hn.
    unfold indicesAt. rewrite Hu. apply list_elem_of_fmap. exists nf. split; [done|]. by apply unStaked_in.
  - intros n l0 _ _ Hn. left. by apply Hidx.
  - intros l0 Hl1 Hl10. exists l0. split_and!; [by destruct m|lia..|].
    replace l0 with l; [|eapply lastKey_inj; [lia|done|congruence]]. intros n Hn. by apply Hmax, Hidx.
Qed.

Lemma withdrawn_good epoch period u : goodUser epoch u → goodUser epoch (withdrawn period u).
Proof.
  intros [Hf Hnd Hck Hun]. split; [|..|done|done].
  - intros nf Hnf%withdrawn_in. by apply Hf.
  - unfold fundIndices, userFunds in *. simpl. rewrite fmap_app in Hnd. rewrite fmap_app.
    apply NoDup_app in Hnd as (H1 & H2 & H3). apply NoDup_app. split_and!; [done| |by apply filter_nodup].
    intros n Hn (x & -> & [Hx _]%filter_bonding)%list_elem_of_fmap. apply (H2 _ Hn).
    apply list_elem_of_fmap. by exists x.
Qed.

Lemma withdrawn_Books epoch period bound m us a u :
  Books epoch bound m us → us !! a = Some u →
  let ta := mapSum (λ _, activeValue) us in
  let tu := mapSum (λ _, unStakedValue) us in
  let m' := withdrawnStore period a u ta (tu - unBondable period (uUnStaked u)) m in
  Books epoch (bound + 1) m' (<[a := withdrawn period u]> us) ∧
  owed m' (<[a := withdrawn period u]> us) = (owed m us - unBondable period (uUnStaked u))%Z.
Proof.
  intros [HI Ho (s & Hs & Hn)] Hu ta tu m'.
  assert (∀ f : User → Z, valueAt f us a = f u) as Hval by (intros; unfold valueAt; by rewrite Hu).
  assert (activeValue (withdrawn period u) = activeValue u) as Hav by done.
  pose proof (filter_sum period (uUnStaked u)) as Huv.
  change (unStakedValue (withdrawn period u) = (unStakedValue u - unBondable period (uUnStaked u))%Z) in Huv.
  split; [split|].
  - eapply Inv_update; [exact HI|by eapply withdrawn_change|by eapply iv_addresses| | | | |].
    + apply withdrawn_good. by eapply iv_good.
    + intros ep _. by rewrite Hval.
    + rewrite !Hval Hav Huv. destruct m; simpl. do 3 f_equal; unfold ta, tu; lia.
    + rewrite Hval Hav. destruct m; simpl. f_equal. unfold ta. lia.
    + destruct (iv_config _ _ _ _ HI) as (c & Hc & Hgc). exists c. by destruct m.
  - replace (stOwner m') with (stOwner m) by by destruct m. apply lookup_insert_is_Some'. by right.
  - exists s. rewrite size_put Hu. split; [by destruct m|done].
  - rewrite (owed_update m); [|by destruct m..]. rewrite !Hval. change (due m a (withdrawn period u)) with (due m a u). lia.
Qed.

(** ** Deleting a user *)
(** a user without funds and rewards is deleted; nothing that is owed changes *)
Lemma run_deleteIfNeeded e m b us bound a u d (Q : bool → E → Prop) :
  Heap h self mg e m b → Books (CurrentEpoch h) bound m us → us !! a = Some u →
  uActive u = None → uUnStaked u = [] → a ≠ stOwner m → (bound < 2 ^ 64)%Z →
  UnClaimedRewards d = Some (due m a u) →
  (∀ x m' us' e', Heap h self mg e' m' b → Books (CurrentEpoch h) bound m' us' →
     owed m' us' = owed m us → stFunds m' = stFunds m → (us' = us ∨ us' = delete a us) → Q x e') →
  run anyError (deleteDelegatorIfNeeded a d) Q e.
Proof.
  intros HH HB Hu Hact Hun Hne Hb Hd HQ. pose proof (bk_inv _ _ _ _ HB) as HI.
  unfold deleteDelegatorIfNeeded. apply run_bind. eapply run_deref; [done|].
  pose proof (due_nonneg _ _ _ _ HI a u Hu) as Hdue.
  destruct (Z.ltb_spec 0 (due m a u)); [by eapply run_ret, HQ; auto|].
  pose proof (iv_addresses _ _ _ _ HI a u Hu) as Ha.
  apply run_bind. eapply run_deleteUser; [exact Hself|exact HH|done|]. clear HH e. intros e HH.
  destruct HB as [_ [w Hw] (s & Hs & Hn)].
  assert (size (delete a us) = pred (size us)) as Hsz by (apply map_size_delete_Some; by exists u).
  assert (size (delete a us) ≠ 0)%nat as Hsz0.
  { intros H0%map_size_empty_iff. assert (delete a us !! stOwner m = Some w) as Hw'.
    - by rewrite lookup_delete_ne.
    - by rewrite H0 in Hw'. }
  pose proof (iv_size _ _ _ _ HI). destruct (Z.ltb_spec 0 (NumUsers s)); [|lia].
  apply run_bind. eapply run_getStatus; [exact HH|by destruct m|].
  rewrite (proj2 (Z.ltb_lt _ _)) //.
  set (s' := withNumUsers (NumUsers s - 1) s).
  assert (NumUsers s' = (NumUsers s - 1)%Z) as Hn' by by destruct s.
  apply run_bind. eapply run_saveStatusLike with (s := s'); [exact Hself|exact HH|unfold someUsers; lia|done|].
  clear HH e. intros e HH. apply run_ret. eapply HQ; [exact HH|split| | |by right].
  - eapply Inv_delete; [exact HI|exact Hu|done..| | | | | | | |]; by destruct m.
  - replace (stOwner _) with (stOwner m) by by destruct m.
    rewrite lookup_delete_ne; [by exists w|done].
  - exists s'. split; [by destruct m|lia].
  - unfold owed. rewrite !(mapSum_delete _ us a u) //.
    assert (unStakedValue u = 0%Z) as Huv by by rewrite /unStakedValue Hun.
    replace (due (putStatus s' (putUsers (delete a (stUsers m)) m))) with (due m) by by destruct m.
    lia.
  - by destruct m.
Qed.

Lemma isUserWithFunds_false e m b a u :
  Heap h self mg e m b → isUserWithFunds a (toDelegator u) e = false →
  a ≠ stOwner m ∧ uActive u = None ∧ uUnStaked u = [].
Proof.
  intros HH. unfold isUserWithFunds. rewrite (isOwner_heap _ _ _ _ _ _ HH).
  intros [Ho [Hact Hun]%orb_false_iff]%orb_false_iff. simpl in Hact, Hun. apply bool_decide_eq_false in Ho.
  split_and!; [done| |].
  - by destruct (uActive u) as [[n f]|].
  - by destruct (uUnStaked u).
Qed.
Lemma run_deleteOnWithdraw e m b us bound a u (Q : bool → E → Prop) :
  Heap h self mg e m b → Books (CurrentEpoch h) bound m us → us !! a = Some u →
  (bound < 2 ^ 64)%Z →
  (∀ x m' us' e', Heap h self mg e' m' b → Books (CurrentEpoch h) bound m' us' →
     owed m' us' = owed m us → stFunds m' = stFunds m → (us' = us ∨ us' = delete a us) → Q x e') →
  run anyError (deleteDelegatorOnWithdrawIfNeeded a (toDelegator u)) Q e.
Proof.
  intros HH HB Hu Hb HQ. unfold deleteDelegatorOnWithdrawIfNeeded. apply run_bind, run_gets.
  destruct (isUserWithFunds a (toDelegator u) e) eqn:Hf; [by eapply run_ret, HQ; auto|].
  apply (isUserWithFunds_false _ _ _ _ _ HH) in Hf as (Hne & Hact & Hun).
  apply run_bind. eapply run_computeAndUpdateRewards; [apply Hset..|exact HH|apply HB|done|done|].
  by eapply run_deleteIfNeeded.
Qed.

(** ** The handler *)
Section handler.
Context (bound : Z) (m : Store) (us : gmap bytes User) (e : E) (b : Z).
Context (HH : Heap h self mg e m b) (HB : Books (CurrentEpoch h) bound m us).
Context (Hb : (bound + 1 < 2 ^ 64)%Z) (args : ContractCallInput) (Hcall : goodCall self args).
Context {TR : TransferLaws (callerOf args) E}.

Lemma Books_weaken epoch bound' m' us' :
  Books epoch bound m' us' → (bound ≤ bound')%Z → Books epoch bound' m' us'.
Proof. intros [HI ? ?] Hle. split; [|done..]. by eapply Inv_weaken. Qed.

Lemma withdraw_kept : handled (kept h self mg (bound + 1) m us b (valueOf args)) (withdraw args) e.
Proof.
  pose proof (bk_inv _ _ _ _ HB) as HI. set (a := callerOf args) in *.
  assert (isAddress a) as Ha by apply Hcall.
  unfold withdraw. fold a. apply run_bind, run_returnIf; [done|intros _].
  apply run_bind, run_returnIf; [done|]. intros ->%negb_false_iff%Z.eqb_eq.
  apply run_bind. eapply run_useGas; [exact HH|]. clear HH e. intros e HH.
  apply run_bind, run_orReturn; [done|]. eapply run_getUserOf; [exact HH|exact HI|done|].
  apply run_bind, run_returnIf; [done|]. intros Hnew.
  destruct (us !! a) as [u|] eqn:Hu; [clear Hnew|done].
  assert (∀ nf, nf ∈ userFunds u → stored m nf) as Hst.
  { intros nf. eapply ownFunds_stored with (a := a); [exact HI|lia|]. unfold ownFunds. by rewrite Hu. }
  destruct (iv_config _ _ _ _ HI) as (c & Hc & Hgc).
  apply run_bind, run_orReturn; [done|]. eapply run_getConfig; [exact HH|done|].
  apply run_bind, run_orReturn; [done|]. eapply run_getGlobal; [exact HH|by eapply iv_global|].
  set (period := UnBondPeriodInEpochs c). set (w := unBondable period (uUnStaked u)).
  apply run_bind, run_orReturn; [done|].
  eapply run_getUnBondable with (fs := uUnStaked u); [exact HH|done|intros; by apply Hst, unStaked_in|].
  fold w. apply run_bind, run_returnIf.
  { intros _ _. exists m, us, b. split_and!; [|by eapply Books_weaken; [|lia]|lia].
    eapply Heap_same; [exact HH|apply same_msg]. }
  intros Hw%Z.eqb_neq. apply run_bind. eapply run_deref; [done|].
  apply run_bind, run_returnIf; [done|intros _].
  apply run_bind. eapply run_valueInArgs; [exact HH|done|]. clear HH e. intros out b' e HH [-> ->].
  change (resolveUnStakedUnBondResponse [] w) with w.
  apply run_bind. eapply run_currentEpoch; [exact HH|]. apply run_bind.
  pose proof (iv_good _ _ _ _ HI a u Hu) as [_ Hnd _ _].
  eapply run_withdrawLoop with (fs := uUnStaked u); [exact HH|intros; by apply Hst, unStaked_in| |fold w; lia|].
  { unfold fundIndices, userFunds in Hnd. rewrite fmap_app in Hnd. by apply NoDup_app in Hnd as (_ & _ & ?). }
  clear HH e. intros keys e HH. rewrite app_nil_l.
  apply run_bind, run_orReturn; [done|]. eapply run_saveGlobal; [exact Hself|exact HH|].
  clear HH e. intros e HH. apply run_bind, run_orReturn; [done|].
  eapply (run_saveUser _ _ _ Hself _ _ _ HH _ (toDelegator (withdrawn period u)));
    [done| |done|].
  { pose proof (se_epoch _ _ Hset). pose proof (gu_checkpoint _ _ (iv_good _ _ _ _ HI a u Hu)).
    unfold delegatorRange. simpl. lia. }
  clear HH e. intros e HH.
  destruct (withdrawn_Books (CurrentEpoch h) period bound m us a u HB Hu) as [HB' Howed].
  set (us' := <[a := withdrawn period u]> us) in *.
  set (m' := withdrawnStore _ _ _ _ _ m) in *.
  assert (0 ≤ w)%Z as Hw0 by (eapply (unBondable_nonneg m); intros; by apply Hst, unStaked_in).
  assert (Heap h self mg e m' b) as HH'; [|clear HH].
  { revert HH. unfold m', withdrawnStore. by destruct m. }
  apply run_bind. rewrite (ga_recipient _ _ Hcall). eapply run_transfer; [exact HH'|exact _|apply Hcall|].
  clear HH' e. intros e HH. apply run_bind, run_orReturn; [done|].
  eapply run_deleteOnWithdraw with (u := withdrawn period u); [exact HH|exact HB'|by apply lookup_insert_eq|lia|].
  clear HH e. intros x m2 us2 e HH HB2 Howed2 Hfunds _.
  destruct (bk_status _ _ _ _ HB2) as (s2 & Hs2 & _).
  apply run_bind. eapply run_numUsers; [exact HH|done|].
  apply run_bind. eapply run_logWithdraw with (o := uActive u); [exact HH|done| |].
  { intros nf Hnf. destruct (Hst nf) as (Hv & _ & Hg); [by apply active_in|].
    split_and!; [done| |done]. rewrite Hfunds.
    eapply (iv_funds _ _ _ _ (bk_inv _ _ _ _ HB') a); [apply lookup_insert_eq|].
    destruct nf. apply active_in. exact Hnf. }
  clear HH e. intros e HH. apply run_ret. intros _. exists m2, us2, (b - w)%Z.
  split_and!; [done..|lia].
Qed.
End handler.
End withdrawing.

Section claiming.
Context {E : Type} {EI : SystemEI E} {EIL : SystemEILaws E}.
Context {CH : ContractHost E} {CHL : HostLaws E}.
Context {DC : DelegationContract} {DL : DelegationLaws} {VP : ValidatorPromise (E:=E)}.
Context (h : BlockchainHook) (self : bytes) (mg : DelegationManagement).
Context (Hself : delegationMgrSCAddress ≠ self) (Hset : Setting h mg).

(** ** A change of a user that keeps its funds *)
Lemma sameFunds_Books bound m us a u0 u :
  Books (CurrentEpoch h) bound m us → us !! a = Some u0 →
  uActive u = uActive u0 → uUnStaked u = uUnStaked u0 →
  uCheckpoint u = (CurrentEpoch h + 1)%Z → (0 ≤ uUnClaimed u)%Z →
  let m' := putUsers (<[a := toDelegator u]> (stUsers m)) m in
  Books (CurrentEpoch h) (bound + 1) m' (<[a := u]> us) ∧
  owed m' (<[a := u]> us) = (owed m us - due m a u0 + uUnClaimed u)%Z.
Proof.
  intros [HI Ho (s & Hs & Hn)] Hu0 Hact Hun Hck Hcl m'. pose proof (se_epoch _ _ Hset).
  assert (userFunds u = userFunds u0) as Hf by by unfold userFunds; rewrite Hact Hun.
  assert (fundIndices u = indicesAt us a) as Hix by by unfold fundIndices, indicesAt; rewrite Hf Hu0.
  assert (activeValue u = activeValue u0) as Hav by by unfold activeValue; rewrite Hact.
  assert (unStakedValue u = unStakedValue u0) as Huv by by unfold unStakedValue; rewrite Hun.
  assert (∀ f : User → Z, valueAt f us a = f u0) as Hval by (intros; unfold valueAt; by rewrite Hu0).
  destruct (Inv_last _ bound m us a HI) as (l & Hl & Hl0 & Hmax).
  split; [split|].
  - eapply Inv_update; [exact HI| |by eapply iv_addresses| | | | |].
    + split; try by destruct m.
      * intros n f Hnf. rewrite Hf in Hnf. replace (stFunds m') with (stFunds m) by by destruct m.
        by eapply iv_funds.
      * intros n l0 _ _ Hin. left. by rewrite -Hix.
      * intros l0 Hl1 Hl10. exists l0. split_and!; [by destruct m|lia..|]. rewrite Hix.
        replace l0 with l; [done|]. eapply lastKey_inj; [lia|done|congruence].
    + destruct (iv_good _ _ _ _ HI a u0 Hu0) as [Hg Hnd _ _].
      split; [by rewrite Hf|by unfold fundIndices in *; rewrite Hf|lia|done].
    + intros ep Hep. rewrite (stakeAt_after (CurrentEpoch h)); [|lia|done]. by eapply stakeAt_nonneg.
    + rewrite !Hval Hav Huv. replace (stGlobal m') with (stGlobal m) by by destruct m.
      rewrite (iv_global _ _ _ _ HI). do 3 f_equal; lia.
    + rewrite Hval Hav. replace (stTotal m') with (stTotal m) by by destruct m.
      rewrite (iv_total _ _ _ _ HI). f_equal. lia.
    + destruct (iv_config _ _ _ _ HI) as (c & Hc & Hgc). exists c. by destruct m.
  - replace (stOwner m') with (stOwner m) by by destruct m. apply lookup_insert_is_Some'. by right.
  - exists s. rewrite size_put Hu0. split; [by destruct m|done].
  - rewrite (owed_update m); [|by destruct m..]. rewrite !Hval (due_after _ _ _ _ HI a u); lia.
Qed.

(** ** [claimRewards] *)
Definition claimed (u : User) : User :=
  mkUser (uActive u) (uUnStaked u) (uCheckpoint u) 0 (uCumulated u + uUnClaimed u).

Lemma run_deleteOnClaim e m b us bound a u (Q : bool → E → Prop) :
  Heap h self mg e m b → Books (CurrentEpoch h) bound m us → us !! a = Some u →
  uCheckpoint u = (CurrentEpoch h + 1)%Z → (bound < 2 ^ 64)%Z →
  (∀ x m' us' e', Heap h self mg e' m' b → Books (CurrentEpoch h) bound m' us' →
     owed m' us' = owed m us → stFunds m' = stFunds m → (us' = us ∨ us' = delete a us) → Q x e') →
  run anyError (deleteDelegatorOnClaimRewardsIfNeeded a (toDelegator u)) Q e.
Proof.
  intros HH HB Hu Hck Hb HQ. unfold deleteDelegatorOnClaimRewardsIfNeeded. apply run_bind, run_gets.
  destruct (isUserWithFunds a (toDelegator u) e) eqn:Hf; [by eapply run_ret, HQ; auto|].
  apply (isUserWithFunds_false _ _ _ _ _ _ _ _ HH) in Hf as (Hne & Hact & Hun).
  eapply run_deleteIfNeeded; [exact Hself|exact HH|exact HB|done..| |done].
  rewrite (due_after _ _ _ _ (bk_inv _ _ _ _ HB)); [done|lia].
Qed.

Section handlers.
Context (bound : Z) (m : Store) (us : gmap bytes User) (e : E) (b : Z).
Context (HH : Heap h self mg e m b) (HB : Books (CurrentEpoch h) bound m us).
Context (Hb : (bound + 1 < 2 ^ 64)%Z) (args : ContractCallInput) (Hcall : goodCall self args).
Context {TR : TransferLaws (callerOf args) E}.

(** the caller, whose record is [u0], is paid what it is owed and is owed
    nothing more; the other users keep their records *)
Definition paidOut (a : bytes) (u0 : User) (e' : E) : Prop := ∃ m' us',
  Heap h self mg e' m' (b - due m a u0) ∧ Books (CurrentEpoch h) (bound + 1) m' us' ∧
  owed m' us' = (owed m us - due m a u0)%Z ∧
  let u := claimed (settle (CurrentEpoch h) (stRewards m) (bool_decide (a = stOwner m)) u0) in
  (us' = <[a := u]> us ∨ us' = delete a us).

Lemma claimRewards_unknown :
  us !! callerOf args = None → handled (λ _, False) (claimRewards args) e.
Proof.
  intros Hu. pose proof (bk_inv _ _ _ _ HB) as HI. unfold claimRewards.
  apply run_bind. eapply run_useGas; [exact HH|]. clear HH e. intros e HH.
  apply run_bind, run_returnIf; [done|intros _].
  apply run_bind, run_orReturn; [done|]. eapply run_getUserOf; [exact HH|exact HI|apply Hcall|].
  rewrite Hu. apply run_bind, run_returnIf; done.
Qed.
Lemma claimRewards_paid u0 :
  us !! callerOf args = Some u0 → handled (paidOut (callerOf args) u0) (claimRewards args) e.
Proof.
  pose proof (bk_inv _ _ _ _ HB) as HI. set (a := callerOf args) in *. intros Hu0.
  assert (isAddress a) as Ha by apply Hcall.
  unfold claimRewards. fold a.
  apply run_bind. eapply run_useGas; [exact HH|]. clear HH e. intros e HH.
  apply run_bind, run_returnIf; [done|intros _].
  apply run_bind, run_orReturn; [done|]. eapply run_getUserOf; [exact HH|exact HI|done|].
  rewrite Hu0. apply run_bind, run_returnIf; [done|intros _]. apply run_bind, run_orReturn; [done|].
  eapply run_computeAndUpdateRewards; [apply Hset..|exact HH|exact HI|lia|exact Hu0|].
  unfold paidOut. set (u := settle _ _ _ u0).
  change (due m a u0) with (uUnClaimed u). pose proof (due_nonneg _ _ _ _ HI a u0 Hu0) as Hnn.
  apply run_bind. eapply run_deref; [done|].
  apply run_bind. rewrite (ga_recipient _ _ Hcall). eapply run_transfer; [exact HH|exact _|apply Hcall|].
  clear HH e. intros e HH. apply run_bind. eapply run_deref; [done|].
  apply run_bind, run_orReturn; [done|]. pose proof (se_epoch _ _ Hset).
  eapply (run_saveUser _ _ _ Hself _ _ _ HH _ (toDelegator (claimed u)));
    [done|unfold delegatorRange; simpl; lia|done|].
  clear HH e. intros e HH.
  destruct (sameFunds_Books bound m us a u0 (claimed u) HB Hu0) as [HB' Howed]; [done..|].
  change (due m a u0) with (uUnClaimed u) in Howed. change (uUnClaimed (claimed u)) with 0%Z in Howed.
  set (m' := putUsers _ m) in *. set (us' := <[a := claimed u]> us) in *.
  apply run_bind. destruct (delegationFlag DeleteDelegatorAfterClaimRewardsFlag).
  - apply run_orReturn; [done|].
    eapply run_deleteOnClaim with (u := claimed u); [exact HH|exact HB'|by apply lookup_insert_eq|done|lia|].
    clear HH e. intros x m2 us2 e HH HB2 Howed2 _ Hus.
    apply run_bind. eapply run_logEntry; [exact HH|]. intros e' HH'. apply run_ret. intros _.
    exists m2, us2. split_and!; [done..|lia|]. destruct Hus as [->| ->]; [by left|right].
    apply delete_insert_eq.
  - apply run_ret, run_bind. eapply run_logEntry; [exact HH|]. intros e' HH'. apply run_ret.
    intros _. exists m', us'. split_and!; [done..|lia|by left].
Qed.
Lemma claimRewards_kept :
  handled (kept h self mg (bound + 1) m us b (valueOf args)) (claimRewards args) e.
Proof.
  destruct (ga_value _ _ Hcall) as [_ Hval].
  destruct (us !! callerOf args) as [u0|] eqn:Hu0.
  - eapply handled_mono; [by eapply claimRewards_paid|]. intros e' (m' & us' & H1 & H2 & H3 & _).
    exists m', us', (b - due m (callerOf args) u0)%Z. split_and!; [done..|lia].
  - by eapply handled_mono; [apply claimRewards_unknown|].
Qed.
End handlers.

(** ** [updateRewards] *)
Section reward.
Context (bound : Z) (m : Store) (us : gmap bytes User) (r : RewardComputationData) (d : Z).
Context (HI : Inv (CurrentEpoch h) bound m us).
Context (Hr : goodReward (CurrentEpoch h) us (CurrentEpoch h) r).
Context (Hd : RewardsToDistribute r = Some d).
Let m' := putRewards (<[CurrentEpoch h := r]> (stRewards m)) m.

Lemma reward_Inv : Inv (CurrentEpoch h) bound m' us.
Proof.
  unfold m'. pose proof HI as HI0. revert HI0. destruct m; simpl. intros HI0.
  pose proof (iv_rewards _ _ _ _ HI0) as Hrew. destruct HI0.
  split; try done. simpl. intros ep r0 [[<- <-]|[_ Hr0]]%lookup_insert_Some; [done|].
  by apply Hrew.
Qed.
Lemma reward_pending a u :
  us !! a = Some u →
  (due m' a u ≤ due m a u + claimable (bool_decide (a = stOwner m)) u (CurrentEpoch h) r)%Z.
Proof.
  intros Hu. unfold due, pending, m'. replace (stOwner _) with (stOwner m) by by destruct m.
  replace (stRewards (putRewards _ m)) with (<[CurrentEpoch h := r]> (stRewards m)) by by destruct m.
  set (owner := bool_decide _). destruct (stRewards m !! CurrentEpoch h) as [r0|] eqn:Hr0.
  - rewrite (mapSum_insert _ _ _ r0) //.
    pose proof (claimable_nonneg _ _ _ _ HI a u owner _ _ Hu Hr0). lia.
  - rewrite mapSum_new //. lia.
Qed.
Lemma reward_owed : (owed m' us ≤ owed m us + d)%Z.
Proof.
  unfold owed. assert (mapSum (due m') us ≤ mapSum (due m) us + d)%Z; [|lia].
  trans (mapSum (λ a u, due m a u
    + claimable (bool_decide (a = stOwner m)) u (CurrentEpoch h) r)%Z us).
  - apply mapSum_le. intros a u Hu. by apply reward_pending.
  - rewrite mapSum_add. assert (mapSum (λ a u, claimable (bool_decide (a = stOwner m)) u
      (CurrentEpoch h) r) us ≤ d)%Z; [|lia].
    eapply shares_le; [|exact Hr|exact Hd]. intros a u Hu. by eapply activeValue_nonneg.
Qed.
End reward.

Section update.
Context (bound : Z) (m : Store) (us : gmap bytes User) (e : E) (b : Z).
Context (HH : Heap h self mg e m b) (HB : Books (CurrentEpoch h) bound m us).
Context (args : ContractCallInput) (Hcall : goodCall self args).

Lemma updateRewards_kept :
  handled (kept h self mg bound m us b (valueOf args)) (updateRewards args) e.
Proof.
  pose proof (bk_inv _ _ _ _ HB) as HI. destruct (ga_value _ _ Hcall) as [Hcv Hv].
  pose proof (se_epoch _ _ Hset) as Hep.
  unfold updateRewards. apply run_bind, run_returnIf; [done|intros _].
  apply run_bind, run_returnIf; [done|intros _]. apply run_bind, run_returnIf; [done|intros _].
  apply run_bind. eapply run_readTotal; [exact HH|]. apply run_bind. eapply run_readFee; [exact HH|].
  apply run_bind. eapply run_currentEpoch; [exact HH|].
  set (r := mkRewardData _ _ _). pose proof (iv_fee _ _ _ _ HI) as Hfee.
  assert (0 ≤ mapSum (λ _, activeValue) us)%Z as Hta.
  { apply mapSum_nonneg. intros a u Hu. by eapply activeValue_nonneg. }
  assert (goodReward (CurrentEpoch h) us (CurrentEpoch h) r) as Hr.
  { split; [lia|by exists (valueOf args)| |done].
    exists (mapSum (λ _, activeValue) us). split.
    - simpl. by rewrite (iv_total _ _ _ _ HI) setBytes_bigBytes.
    - apply mapSum_le. intros a u Hu. pose proof (activeValue_nonneg _ _ _ _ HI a u Hu).
      by case_match. }
  apply run_bind, run_orReturn; [done|].
  eapply run_saveReward; [exact Hself|exact HH|unfold isEpoch; lia| |by rewrite /r /= Hcv|].
  { unfold rewardRange, r. simpl. unfold bigUint64, u64. apply Z.mod_pos_bound. lia. }
  intros e' HH'. apply run_ret. intros _.
  pose proof (reward_Inv bound m us r HI Hr) as HI'.
  pose proof (reward_owed bound m us r (valueOf args) HI Hr Hcv) as Howed.
  set (m' := putRewards _ m) in *. exists m', us, b.
  destruct HB as [_ Ho Hs]. split_and!; [done|split; [done|by destruct m..]|lia].
Qed.
End update.
End claiming.
