(* ===== verification/DelegationManage.v ===== *)
(** * DelegationManage: the nodes, configuration and ownership keep the books; the views

    The handlers that move no funds of users: they change the lists of nodes,
    the configuration, the service fee, the owner, or nothing.  The views read the
    books and finish values; they leave the store alone and do not panic, the
    views of a delegator for an address. *)
From Stdlib Require Import Floats.SpecFloat.
From S2P Require Import Prelude SystemEI StakingData Sums DelegationData Contract DelegationFunds.
From S2P Require Import DelegationNodes DelegationSC DelegationSpec DelegationInvariant.
From S2P Require Import DelegationRewards DelegationSteps DelegationDelegate DelegationWithdraw.
#[local] Open Scope go_scope.

(** one instruction of a handler, for the instructions that need no choice *)
Ltac dstep :=
  lazymatch goal with
  | |- handled _ _ _ => unfold handled
  | |- exits _ Ok _ => intros _
  | |- run _ (bind _ _) _ _ => apply run_bind
  | |- run _ (ret _) _ _ => apply run_ret
  | |- run _ (match (_, _) with _ => _ end) _ _ => cbv beta iota
  | |- run _ (throw _) _ _ => apply run_throw; done
  | |- run _ (returnIf _ _ _) _ _ => apply run_returnIf; [done|intros ?]
  | |- run _ (orReturn _ _ _) _ _ => apply run_orReturn; [done|]
  | |- run _ (useGas _) _ _ => eapply run_useGas; [eassumption|intros ? ?]
  | |- run _ (finish _) _ _ => eapply run_finish; [eassumption|intros ? ?]
  | |- run _ (addReturnMessage _) _ _ => eapply run_message; [eassumption|intros ? ?]
  | |- run _ (createAndAddLogEntry _ _) _ _ => eapply run_logEntry; [eassumption|intros ? ?]
  | |- run _ (deref _) _ _ => eapply run_deref; [first [reflexivity|eassumption]|]
  | |- run _ currentEpoch _ _ => eapply run_currentEpoch; [eassumption|]
  | |- run _ (gets (isOwner _)) _ _ => eapply run_isOwner; [eassumption|]
  | |- run _ (gets _) _ _ => apply run_gets
  | |- run _ (readStorage _) _ _ => apply run_readStorage
  | |- run _ getDelegationStatus _ _ => eapply run_getStatus; [eassumption|eassumption|]
  | |- run _ getDelegationContractConfig _ _ => eapply run_getConfig; [eassumption|eassumption|]
  | |- run _ getGlobalFundData _ _ => eapply run_getGlobal; [eassumption|eassumption|]
  | |- run _ (callValidator _ _ _ _) _ _ => 
      let Hs := fresh "Hsettles" in eapply run_validator; [eassumption|done|intros ? ? ? ? Hs ?]
  end.

Section managing.
Context {E : Type} {EI : SystemEI E} {EIL : SystemEILaws E}.
Context {CH : ContractHost E} {CHL : ContractHostLaws E}.
Context {DC : DelegationContract} {DL : DelegationLaws} {VP : ValidatorPromise (E:=E)} {MS : ManagerShared (E:=E)}.
Context (h : BlockchainHook) (self : bytes) (mg : DelegationManagement).
Context (Hself : delegationMgrSCAddress ≠ self) (Hset : Setting h mg).

Section call.
Context (bound : Z) (m : Store) (us : gmap bytes User) (e : E) (b : Z).
Context (HH : Heap h self mg e m b) (HB : Books (CurrentEpoch h) bound m us).
Context (Hb : (bound + 1 < 2 ^ 64)%Z) (args : ContractCallInput) (Hcall : goodCall self args).
Context (s : DelegationContractStatus) (Hs : stStatus m = Some s).

Abbreviation keeps := (kept h self mg (bound + 1) m us b (valueOf args)).

Lemma same_kept e' : Heap h self mg e' m b → keeps e'.
Proof.
  intros HH'. destruct (ga_value _ _ Hcall) as [_ Hv]. exists m, us, b.
  split_and!; [done| |lia]. eapply Books_weaken; [exact HB|lia].
Qed.
Lemma users_count : NumUsers s = Z.of_nat (size us) ∧ someUsers s.
Proof.
  destruct HB as [HI [w Hw] (s0 & Hs0 & Hn)]. rewrite Hs in Hs0. injection Hs0 as <-.
  split; [done|]. unfold someUsers. pose proof (iv_size _ _ _ _ HI).
  assert (size us ≠ 0) by (intros H0%map_size_empty_iff; by rewrite H0 in Hw). lia.
Qed.
Lemma status_kept s' b' e' :
  NumUsers s' = NumUsers s → (b - valueOf args ≤ b')%Z → Heap h self mg e' (putStatus s' m) b' →
  keeps e'.
Proof.
  intros Hn Hb' HH'. destruct users_count as [Hu _].
  exists (putStatus s' m), us, b'. destruct HB as [HI Ho _].
  split_and!; [done|split| ].
  - eapply Inv_weaken; [|done|instantiate (1 := bound); lia].
    eapply Inv_frame; [exact HI|by destruct m..| |].
    + destruct (iv_config _ _ _ _ HI) as (c & Hc & Hgc). exists c. by destruct m.
    + replace (stFee (putStatus s' m)) with (stFee m) by by destruct m. by eapply iv_fee.
  - by destruct m.
  - exists s'. split; [by destruct m|lia].
  - replace (owed (putStatus s' m) us) with (owed m us) by by destruct m. lia.
Qed.
Lemma run_saveUsers e1 b1 s' Q :
  Heap h self mg e1 m b1 → NumUsers s' = NumUsers s →
  (∀ e', Heap h self mg e' (putStatus s' m) b1 → Q tt e') →
  run anyError (saveDelegationStatus s') Q e1.
Proof.
  intros HH1 Hn HQ. eapply run_saveStatusLike; [exact Hself|exact HH1|apply users_count|done|done].
Qed.

(** ** Nodes *)
Lemma run_checkOwner R Q :
  (valueOf args = 0%Z → callerOf args = stOwner m → ∀ e', Heap h self mg e' m b → Q tt e') →
  run (exits R) (checkOwnerCallValueGasAndDuplicates args) Q e.
Proof.
  intros HQ. unfold checkOwnerCallValueGasAndDuplicates. repeat dstep.
  apply HQ; [by apply negb_false_iff, Z.eqb_eq in H0| |done].
  by apply negb_false_iff, bool_decide_eq_true in H.
Qed.
Lemma run_ownerStatus R Q :
  (valueOf args = 0%Z → ∀ e', Heap h self mg e' m b → Q s e') →
  run (exits R) (ownerStatus args) Q e.
Proof.
  intros HQ. unfold ownerStatus. dstep. apply run_checkOwner. intros Hv _ e1 HH1.
  repeat dstep. by apply HQ.
Qed.

Lemma run_verifyLoop {X} (free : X → E → Prop) e1 txPubKey l keys invalid Q :
  Heap h self mg e1 m b → Nat.even (length l) = true →
  (∀ r e', Heap h self mg e' m b → Q r e') → run free (verifyLoop txPubKey l keys invalid) Q e1.
Proof.
  intros HH1 Hl HQ. revert e1 keys invalid HH1. clear Hb Hcall HB.
  revert l Hl. fix IH 1. intros [|k [|sg l]] Hl e1 keys invalid HH1; simpl; [by dstep; apply HQ|done|].
  case_match; repeat dstep; by apply IH.
Qed.

Lemma addNodes_kept : handled keeps (addNodes args) e.
Proof.
  unfold addNodes. do 2 dstep. apply run_checkOwner. intros Hv _ e1 HH1. repeat dstep.
  unfold verifyBLSKeysAndSignature. dstep.
  eapply run_verifyLoop; [eassumption|by apply negb_false_iff in H0|]. intros [keys invalid] e2 HH2.
  destruct invalid; repeat dstep.
  eapply run_saveUsers; [eassumption|by destruct s|]. intros e3 HH3. repeat dstep.
  eapply status_kept; [| |eassumption]; [by destruct s|lia].
Qed.

Lemma removeNodes_kept : handled keeps (removeNodes args) e.
Proof.
  unfold removeNodes. do 2 dstep. apply run_checkOwner. intros Hv _ e1 HH1. repeat dstep.
  apply run_foldEach with (I := λ _ s' e', NumUsers s' = NumUsers s ∧ Heap h self mg e' m b); [done| |].
  - intros k t s1 e2 [Hn HH2]. destruct (removeNode _ _) as [[k' l]|]; repeat dstep.
    split; [|done]. rewrite -Hn. by destruct s1.
  - intros s1 e2 [Hn HH2]. repeat dstep. eapply run_saveUsers; [eassumption|done|]. intros e3 HH3.
    repeat dstep. eapply status_kept; [| |eassumption]; [done|lia].
Qed.

(** the lists of nodes change, the number of users does not *)
Lemma moveUnStaked_users s1 k : NumUsers (moveUnStaked s1 k) = NumUsers s1.
Proof. unfold moveUnStaked. repeat case_match. by destruct s1. Qed.
Lemma moveReStaked_users s1 k : NumUsers (moveReStaked s1 k) = NumUsers s1.
Proof. unfold moveReStaked. repeat case_match. by destruct s1. Qed.
Lemma moveUnBonded_users s1 k : NumUsers (moveUnBonded s1 k) = NumUsers s1.
Proof. unfold moveUnBonded. repeat case_match. by destruct s1. Qed.

Lemma stakeNodes_kept : handled keeps (stakeNodes args) e.
Proof.
  unfold stakeNodes. do 2 dstep. apply run_ownerStatus. intros Hv e1 HH1.
  pose proof (iv_global _ _ _ _ (bk_inv _ _ _ _ HB)) as Hg. repeat dstep.
  destruct Hsettles as [Hev Hb']. eapply run_statusAfterStake; [exact Hself|eassumption|apply users_count|done|].
  intros s' e9 Hs' HH'. repeat dstep. eapply status_kept; [| |eassumption]; [done|lia].
Qed.
Lemma unStakeNodes_kept : handled keeps (unStakeNodes args) e.
Proof.
  unfold unStakeNodes. do 2 dstep. apply run_ownerStatus. intros Hv e1 HH1. repeat dstep.
  destruct Hsettles as [Hev Hb']. destruct (successKeys_even (X:=ReturnCode) _ (Arguments args) Hev) as [[ks us'] Hks].
  eapply run_liftO; [exact Hks|]. repeat dstep.
  eapply run_saveUsers; [eassumption|apply foldl_users, moveUnStaked_users|]. intros e3 HH3. repeat dstep.
  eapply status_kept; [apply foldl_users, moveUnStaked_users| |eassumption]. lia.
Qed.
Lemma reStakeUnStakedNodes_kept : handled keeps (reStakeUnStakedNodes args) e.
Proof.
  unfold reStakeUnStakedNodes. do 2 dstep. apply run_ownerStatus. intros Hv e1 HH1. repeat dstep.
  destruct Hsettles as [_ Hb'].
  eapply run_saveUsers; [eassumption|apply foldl_users, moveReStaked_users|]. intros e3 HH3. repeat dstep.
  eapply status_kept; [apply foldl_users, moveReStaked_users| |eassumption]. lia.
Qed.
Lemma unBondNodes_kept : handled keeps (unBondNodes args) e.
Proof.
  unfold unBondNodes. do 2 dstep. apply run_ownerStatus. intros Hv e1 HH1. repeat dstep.
  destruct Hsettles as [Hev Hb']. destruct (successKeys_even (X:=ReturnCode) _ (Arguments args) Hev) as [[ks us'] Hks].
  eapply run_liftO; [exact Hks|]. repeat dstep.
  eapply run_saveUsers; [eassumption|apply foldl_users, moveUnBonded_users|]. intros e3 HH3. repeat dstep.
  eapply status_kept; [apply foldl_users, moveUnBonded_users| |eassumption]. lia.
Qed.
Lemma unStakeAtEndOfEpoch_kept : handled keeps (unStakeAtEndOfEpoch args) e.
Proof.
  destruct (ga_value _ _ Hcall) as [_ Hv]. unfold unStakeAtEndOfEpoch. repeat dstep.
  eapply run_saveUsers; [eassumption|apply foldl_users, moveUnStaked_users|]. intros e3 HH3. repeat dstep.
  eapply status_kept; [apply foldl_users, moveUnStaked_users| |eassumption]. lia.
Qed.

Lemma run_withdrawBack e1 b1 v R Q :
  Heap h self mg e1 m b1 →
  (∀ e', Heap h self mg e' m (b1 - Z.max 0 v)%Z → Q tt e') →
  run (exits R) (if (0 <? v)%Z then transfer (callerOf args) (recipientOf args) v else ret tt) Q e1.
Proof.
  intros HH1 HQ. destruct (Z.ltb_spec 0 v).
  - rewrite (ga_recipient _ _ Hcall). eapply run_transfer; [exact HH1|exact _|apply Hcall|].
    intros e' HH'. apply HQ. by rewrite Z.max_r; [|lia].
  - apply run_ret, HQ. rewrite Z.max_l; [|lia]. by rewrite Z.sub_0_r.
Qed.
Lemma unJailNodes_kept : handled keeps (unJailNodes args) e.
Proof.
  unfold unJailNodes. repeat dstep.
  eapply run_getUserOf; [eassumption|apply HB|apply Hcall|]. repeat dstep.
  eapply run_withdrawBack; [eassumption|]. intros e2 HH2. repeat dstep.
  exists m, us, (b' - Z.max 0 (getTransferBackFromVMOutput out))%Z. split_and!; [done| |].
  - eapply Books_weaken; [exact HB|lia].
  - unfold settles in Hsettles. simpl in Hsettles. lia.
Qed.

Lemma run_sortByStatus R l lists e1 Q :
  Heap h self mg e1 m b → (∀ r e', Heap h self mg e' m b → Q r e') →
  run (exits R) (foldEach l lists sortByStatus) Q e1.
Proof.
  intros HH1 HQ. apply run_foldEach with (I := λ _ _ e', Heap h self mg e' m b); [done| |intros; by apply HQ].
  intros k t [[l1 l2] l3] e2 HH2. unfold sortByStatus. dstep. apply run_attempt.
  unfold getBLSKeyStatus. dstep. unfold readStorageFrom. dstep. destruct (orEmpty _).
  - apply run_throw. by repeat dstep.
  - dstep. destruct (Unmarshal _ _) as [x|x]; simpl; [apply run_throw; by repeat dstep|].
    by repeat dstep.
Qed.
Lemma correctNodesStatus_kept : handled keeps (correctNodesStatus args) e.
Proof.
  destruct (ga_value _ _ Hcall) as [_ Hv].
  unfold correctNodesStatus, checkArgumentsForGeneralViewFunc. repeat dstep.
  unfold getValidatorData. dstep. unfold readStorageFrom. dstep. destruct (orEmpty _); [done|].
  destruct (Unmarshal _ _) as [x|vd]; simpl; [done|]. dstep. dstep.
  apply run_sortByStatus; [eassumption|]. intros [[l1 l2] l3] e2 HH2. repeat dstep.
  eapply run_saveUsers; [eassumption|done|]. intros e3 HH3. repeat dstep.
  eapply status_kept; [| |eassumption]; [done|lia].
Qed.

(** ** Configuration *)
Lemma run_saveGoodConfig e1 c Q :
  Heap h self mg e1 m b → goodConfig c →
  (∀ e', Heap h self mg e' (putConfig c m) b → Q tt e') →
  run anyError (saveDelegationContractConfig c) Q e1.
Proof.
  intros HH1 Hc HQ. eapply run_saveConfig; [exact Hself|exact HH1|apply Hc| |exact HQ].
  by destruct (gc_funds _ Hc) as (i & -> & _).
Qed.
Lemma config_done c e' : goodConfig c → Heap h self mg e' (putConfig c m) b → keeps e'.
Proof.
  intros Hc HH'. apply config_kept with (c := c). exists (putConfig c m), us, b. split_and!; [exact HH'| |].
  - eapply Books_weaken; [by apply config_Books|lia].
  - destruct (ga_value _ _ Hcall) as [_ Hv]. lia.
Qed.
Lemma run_configChange R Q :
  (∀ c e', goodConfig c → stConfig m = Some c → Heap h self mg e' m b → Q c e') →
  run (exits R) (basicArgCheckForConfigChanges args) Q e.
Proof.
  intros HQ. unfold basicArgCheckForConfigChanges. dstep. apply run_checkOwner. intros Hv _ e1 HH1.
  destruct (iv_config _ _ _ _ (bk_inv _ _ _ _ HB)) as (c & Hc & Hgc). repeat dstep. by apply HQ.
Qed.
Lemma goodConfig_with c v (f : bool → DelegationConfig → DelegationConfig) :
  goodConfig c → (f = withAutomaticActivation ∨ f = withCheckCapOnReDelegateRewards) →
  goodConfig (f v c).
Proof. by intros [[] ? ?] [->| ->]; destruct c; split. Qed.

Lemma setAutomaticActivation_kept : handled keeps (setAutomaticActivation args) e.
Proof.
  unfold setAutomaticActivation. do 2 dstep. apply run_configChange. intros c e1 Hc _ HH1.
  dstep. case_match; [|case_match]; repeat dstep;
    (eapply run_saveGoodConfig; [eassumption|apply goodConfig_with; auto|]; intros e2 HH2;
     repeat dstep; eapply config_done; [|eassumption]; apply goodConfig_with; auto).
Qed.
Lemma setCheckCapOnReDelegateRewards_kept : handled keeps (setCheckCapOnReDelegateRewards args) e.
Proof.
  unfold setCheckCapOnReDelegateRewards. do 2 dstep. apply run_configChange. intros c e1 Hc _ HH1.
  dstep. case_match; [|case_match]; repeat dstep;
    (eapply run_saveGoodConfig; [eassumption|apply goodConfig_with; auto|]; intros e2 HH2;
     repeat dstep; eapply config_done; [|eassumption]; apply goodConfig_with; auto).
Qed.
Lemma modifyTotalDelegationCap_kept : handled keeps (modifyTotalDelegationCap args) e.
Proof.
  pose proof (iv_global _ _ _ _ (bk_inv _ _ _ _ HB)) as Hg.
  unfold modifyTotalDelegationCap. do 2 dstep. apply run_configChange. intros c e1 Hc _ HH1.
  repeat dstep. assert (goodConfig (withMaxDelegationCap (Some (setBytes (arg args 0))) c)) as Hc'.
  { destruct Hc as [[] ? ?], c. by split. }
  eapply run_saveGoodConfig; [eassumption|exact Hc'|]. intros e2 HH2. repeat dstep.
  by eapply config_done.
Qed.

Lemma changeServiceFee_kept : handled keeps (changeServiceFee args) e.
Proof.
  unfold changeServiceFee. do 2 dstep. apply run_checkOwner. intros Hv _ e1 HH1. repeat dstep.
  set (fee := bigUint64 (setBytes (arg args 0))) in *. eapply Heap_setFee in H1; [|exact Hself].
  assert (0 ≤ fee < 2 ^ 64)%Z as Hfee by (unfold fee, bigUint64, u64; apply Z.mod_pos_bound; lia).
  apply orb_false_iff in H0 as [_ Hmax%Z.ltb_ge].
  exists (putFee (bigBytes fee) m), us, b. split_and!; [exact H1| |].
  - destruct HB as [HI Ho Hst]. split; [|by destruct m..].
    eapply Inv_weaken; [|done|instantiate (1 := bound); lia].
    eapply Inv_frame; [exact HI|by destruct m..| |].
    + destruct (iv_config _ _ _ _ HI) as (c & Hc & Hgc). exists c. by destruct m.
    + destruct m; simpl. rewrite setBytes_bigBytes; [|lia]. unfold bigUint64, u64.
      rewrite Z.abs_eq; [|lia]. rewrite Z.mod_small; lia.
  - replace (owed (putFee (bigBytes fee) m) us) with (owed m us) by by destruct m. lia.
Qed.

(** keys that hold no record of the books *)
Lemma run_setOther {X} (free : X → E → Prop) e1 k v Q :
  Heap h self mg e1 m b → cellAt k = None → k ≠ [] →
  (∀ e', Heap h self mg e' m b → Q tt e') → run free (setStorage k v) Q e1.
Proof. intros HH1 Hk Hne HQ. by apply HQ, Heap_set_other. Qed.
Lemma whitelistForMerge_kept : handled keeps (whitelistForMerge args) e.
Proof.
  unfold whitelistForMerge, checkInputForWhitelisting. repeat dstep.
  eapply run_setOther; [eassumption|by vm_compute|done|]. intros e2 HH2. repeat dstep. by apply same_kept.
Qed.
Lemma deleteWhitelistForMerge_kept : handled keeps (deleteWhitelistForMerge args) e.
Proof.
  unfold deleteWhitelistForMerge, checkInputForWhitelisting. repeat dstep.
  eapply run_setOther; [eassumption|by vm_compute|done|]. intros e2 HH2. repeat dstep. by apply same_kept.
Qed.
Lemma setMetaData_kept : handled keeps (setMetaData args) e.
Proof.
  unfold setMetaData. do 2 dstep. apply run_checkOwner. intros Hv _ e1 HH1. repeat dstep.
  destruct (Marshal _) as [x|d]; [done|]. simpl. repeat dstep.
  eapply run_setOther; [eassumption|by vm_compute|done|]. intros e2 HH2. repeat dstep. by apply same_kept.
Qed.

(** ** Ownership *)
Lemma run_setOwnerOnAccount e1 m1 a Q :
  Heap h self mg e1 m1 b → (∀ e', Heap h self mg e' m1 b → Q tt e') →
  run anyError (setOwnerOperatingOnAccount a) Q e1.
Proof.
  intros HH1 HQ. unfold run, wp, setOwnerOperatingOnAccount.
  destruct (SetOwnerOperatingOnAccount a e1) as [x|e'] eqn:He; [done|].
  eapply HQ, Heap_same; [exact HH1|by eapply same_owner].
Qed.
Lemma run_changeOwnerLog {X} (free : X → E → Prop) e1 m1 u t tu Q :
  Heap h self mg e1 m1 b → stStatus m1 = Some s → stGlobal m1 = Some (mkGlobalFund (Some t) tu) →
  (∀ nf, uActive u = Some nf → stored m1 nf) → (∀ e', Heap h self mg e' m1 b → Q tt e') →
  run free (createLogEventsForChangeOwner args (toDelegator u)) Q e1.
Proof.
  intros HH1 Hs1 Hg Hst HQ. unfold createLogEventsForChangeOwner.
  dstep. apply run_attempt. eapply run_getGlobal; [eassumption..|].
  dstep. apply run_attempt. eapply run_getStatus; [eassumption..|].
  dstep. eapply run_logDelegate with (o := uActive u); [eassumption|done..|]. intros e2 HH2.
  dstep. eapply run_numUsers; [eassumption..|].
  dstep. eapply run_logWithdraw with (o := uActive u); [eassumption|done..|]. intros e3 HH3.
  by eapply run_logEntry.
Qed.
(** the rewards of the owner are owed to the new owner *)
Lemma move_owed m' a u :
  us !! stOwner m = Some u → us !! a = None → stOwner m' = a → stRewards m' = stRewards m →
  owed m' (<[a := u]> (delete (stOwner m) us)) = owed m us.
Proof.
  intros Hu Ha Ho Hr. assert (a ≠ stOwner m) as Hne by congruence.
  unfold owed. rewrite !mapSum_new; [|by rewrite lookup_delete_ne..].
  rewrite (mapSum_ext (due m') (due m)).
  - rewrite !(mapSum_delete _ us (stOwner m) u) //. unfold due. rewrite Hr Ho !bool_decide_true //. lia.
  - intros c v [Hc Hv]%lookup_delete_Some. unfold due. rewrite Hr Ho !bool_decide_false //; congruence.
Qed.

Lemma changeOwner_kept : handled keeps (changeOwner args) e.
Proof.
  pose proof (bk_inv _ _ _ _ HB) as HI. destruct users_count as [Hn _].
  unfold changeOwner. repeat dstep. apply run_checkOwner. intros Hv Howner e1 HH1. repeat dstep.
  apply negb_false_iff, Nat.eqb_eq in H1. pose proof (ga_caller _ _ Hcall) as Hca.
  unfold isAddress in Hca. rewrite Hca in H1. set (a := arg args 0) in *.
  unfold readStorageFrom. repeat dstep.
  eapply run_getUserOf; [eassumption|exact HI|exact H1|]. repeat dstep.
  apply negb_false_iff, bool_decide_eq_true in H3.
  eapply run_getUserOf; [eassumption|exact HI|exact Hca|]. repeat dstep.
  destruct (us !! callerOf args) as [u|] eqn:Hu; [|done].
  eapply run_deleteUser; [exact Hself|eassumption|exact Hca|]. intros e2 HH2. repeat dstep.
  pose proof (se_epoch _ _ Hset). pose proof (gu_checkpoint _ _ (iv_good _ _ _ _ HI _ u Hu)).
  eapply (run_saveUser _ _ _ Hself _ _ _ HH2 _ (toDelegator u));
    [exact H1|unfold delegatorRange; simpl; lia|done|]. clear HH2 e2. intros e2 HH2.
  assert (∀ k : bytes, length k = 32 → k ≠ delegationManagementKey) as Hkey by by intros k ? ->.
  apply (Heap_setFor _ _ _ Hself _ _ _ a (recipientOf args)) in HH2; [|by apply Hkey].
  apply (Heap_setFor _ _ _ Hself _ _ _ (callerOf args) []) in HH2; [|by apply Hkey].
  apply (Heap_setOwner _ _ _ Hself _ _ _ a) in HH2.
  set (m' := putOwner a (putUsers _ _)) in HH2. do 3 apply run_bind.
  assert (run anyError (saveOwnerToAccount a) (λ _ e', Heap h self mg e' m' b)
    (SetStorage ownerKey a (SetStorageForAddress delegationMgrSCAddress (callerOf args) []
       (SetStorageForAddress delegationMgrSCAddress a (recipientOf args) e2)))) as Hsave.
  { unfold saveOwnerToAccount. case_match; [by apply run_ret|].
    eapply run_setOwnerOnAccount; [exact HH2|done]. }
  apply run_bind, run_orReturn; [done|]. eapply run_mono; [exact Hsave|].
  intros [] e3 HH3. apply run_bind.
  eapply (run_changeOwnerLog _ _ m'); [exact HH3|by destruct m|by destruct m; eapply (iv_global _ _ _ _ HI)| |].
  { intros nf Hnf. destruct (ownFunds_stored h bound m us (callerOf args) u nf HI) as (Hvn & Hf & Hg);
      [lia|unfold ownFunds; by rewrite Hu|by apply active_in|].
    split_and!; [done| |done]. by destruct m. }
  intros e4 HH4. apply run_ret. intros _.
  rewrite Howner in Hu. exists m', (<[a := u]> (delete (stOwner m) us)), b.
  split_and!; [done|split|].
  - eapply Inv_weaken; [|done|instantiate (1 := bound); lia].
    eapply Inv_move with (a := stOwner m) (a' := a); [exact HI|exact Hu|done..| | | | | | | |];
      unfold m'; rewrite ?Howner; by destruct m.
  - replace (stOwner m') with a by by destruct m. rewrite lookup_insert_eq. by eexists.
  - exists s. split; [by destruct m|]. rewrite size_put lookup_delete_ne; [|congruence].
    rewrite H3 map_size_delete_Some; [|by eexists]. assert (size us ≠ 0); [|lia].
    intros H0'%map_size_empty_iff. by rewrite H0' in Hu.
  - rewrite (move_owed m' a u); [|done|done|by destruct m..]. lia.
Qed.
Lemma synchronizeOwner_kept : handled keeps (synchronizeOwner args) e.
Proof.
  unfold synchronizeOwner. repeat dstep. eapply run_setOwnerOnAccount; [eassumption|]. intros e2 HH2.
  repeat dstep. by apply same_kept.
Qed.
Lemma addTokens_kept : handled keeps (addTokens args) e.
Proof. unfold addTokens. repeat dstep. by apply same_kept. Qed.
End call.
End managing.

Section views.
Context {E : Type} {EI : SystemEI E} {EIL : SystemEILaws E}.
Context {CH : ContractHost E} {CHL : ContractHostLaws E}.
Context {DC : DelegationContract} {DL : DelegationLaws}.
Context (h : BlockchainHook) (self : bytes) (mg : DelegationManagement).
Context (Hset : Setting h mg).
Context (bound : Z) (m : Store) (us : gmap bytes User) (e : E) (b : Z).
Context (HH : Heap h self mg e m b) (HB : Books (CurrentEpoch h) bound m us).
Context (Hb : (bound + 1 < 2 ^ 64)%Z) (args : ContractCallInput) (Hcall : goodCall self args).

Abbreviation keeps := (kept h self mg (bound + 1) m us b (valueOf args)).
Lemma view_kept e' : Heap h self mg e' m b → keeps e'.
Proof. by eapply same_kept. Qed.

(** ** Views of the contract *)
Lemma getWhitelistForMerge_kept : handled keeps (getWhitelistForMerge args) e.
Proof.
  unfold getWhitelistForMerge, checkArgumentsForGeneralViewFunc. repeat dstep. by apply view_kept.
Qed.
Lemma getRewardData_kept : handled keeps (getRewardData args) e.
Proof.
  unfold getRewardData. repeat dstep. apply run_attempt.
  eapply run_getReward; [eassumption|unfold isEpoch, u32; apply Z.mod_pos_bound; lia|].
  destruct (stRewards m !! _) as [r|] eqn:Hr; [|by repeat dstep].
  destruct (iv_rewards _ _ _ _ (bk_inv _ _ _ _ HB) _ r Hr) as [_ (d & Hd & _) (t & Ht & _) _].
  repeat dstep. by apply view_kept.
Qed.
Lemma run_totalRewardsLoop fuel i total e1 Q :
  Heap h self mg e1 m b → (0 ≤ i)%Z → (CurrentEpoch h + 1 - i ≤ Z.of_nat fuel)%Z →
  (∀ v, Q v e1) → run anyError (totalRewardsLoop fuel i (CurrentEpoch h) total) Q e1.
Proof.
  intros HH1 Hi Hfuel HQ. pose proof (se_epoch _ _ Hset).
  revert i total Hi Hfuel. induction fuel as [|fuel IH]; intros i total Hi Hfuel; simpl;
    (destruct (Z.ltb_spec (CurrentEpoch h) i) as [|Hge]; [by apply run_ret, HQ|try lia]).
  dstep. eapply run_getReward; [eassumption|unfold isEpoch; lia|].
  dstep. destruct (stRewards m !! i) as [r|] eqn:Hr.
  - destruct (iv_rewards _ _ _ _ (bk_inv _ _ _ _ HB) _ r Hr) as [_ (d & Hd & _) _ _].
    repeat dstep. rewrite u32_small; [|lia]. apply IH; lia.
  - repeat dstep. rewrite u32_small; [|lia]. apply IH; lia.
Qed.
Lemma getTotalCumulatedRewards_kept : handled keeps (getTotalCumulatedRewards args) e.
Proof.
  pose proof (se_epoch _ _ Hset).
  unfold getTotalCumulatedRewards, checkArgumentsForGeneralViewFunc. repeat dstep.
  apply run_totalRewardsLoop; [done|lia|lia|]. intros v. repeat dstep. by apply view_kept.
Qed.
Lemma getNumUsers_kept : handled keeps (getNumUsers args) e.
Proof.
  destruct (bk_status _ _ _ _ HB) as (s & Hs & _).
  unfold getNumUsers, checkArgumentsForGeneralViewFunc. repeat dstep. by apply view_kept.
Qed.
Lemma getTotalUnStaked_kept : handled keeps (getTotalUnStaked args) e.
Proof.
  pose proof (iv_global _ _ _ _ (bk_inv _ _ _ _ HB)) as Hg.
  unfold getTotalUnStaked, checkArgumentsForGeneralViewFunc. repeat dstep. by apply view_kept.
Qed.
Lemma getTotalActiveStake_kept : handled keeps (getTotalActiveStake args) e.
Proof.
  pose proof (iv_global _ _ _ _ (bk_inv _ _ _ _ HB)) as Hg.
  unfold getTotalActiveStake, checkArgumentsForGeneralViewFunc. repeat dstep. by apply view_kept.
Qed.
Lemma getNumNodes_kept : handled keeps (getNumNodes args) e.
Proof.
  destruct (bk_status _ _ _ _ HB) as (s & Hs & _).
  unfold getNumNodes, checkArgumentsForGeneralViewFunc. repeat dstep. by apply view_kept.
Qed.
Lemma run_finishNodes R title nodes e1 Q :
  Heap h self mg e1 m b → (∀ e', Heap h self mg e' m b → Q tt e') →
  run (exits R) (finishNodes title nodes) Q e1.
Proof.
  intros HH1 HQ. unfold finishNodes. dstep.
  apply (run_mono _ _ (λ _ e', Heap h self mg e' m b)).
  { case_match; by repeat dstep. }
  intros [] e2 HH2. apply run_forEach with (I := λ e', Heap h self mg e' m b); [done| |done].
  intros x e3 HH3. by repeat dstep.
Qed.
Lemma getAllNodeStates_kept : handled keeps (getAllNodeStates args) e.
Proof.
  destruct (bk_status _ _ _ _ HB) as (s & Hs & _).
  unfold getAllNodeStates, checkArgumentsForGeneralViewFunc. repeat dstep.
  do 3 (eapply run_finishNodes; [eassumption|intros ? ?; repeat dstep]). by apply view_kept.
Qed.
Lemma getContractConfig_kept : handled keeps (getContractConfig args) e.
Proof.
  destruct (iv_config _ _ _ _ (bk_inv _ _ _ _ HB)) as (c & Hc & [_ [cap Hcap] (i & Hi & _)]).
  unfold getContractConfig, checkArgumentsForGeneralViewFunc. repeat dstep. by apply view_kept.
Qed.
Lemma getMetaData_kept : handled keeps (getMetaData args) e.
Proof.
  unfold getMetaData, checkArgumentsForGeneralViewFunc. repeat dstep.
  destruct (Unmarshal _ _) as [x|d]; [done|apply run_ret]. repeat dstep. by apply view_kept.
Qed.

(** ** Views of a delegator *)
Section user.
Context (Haddr : isAddress (arg args 0)).

Lemma run_checkUserView R Q :
  (∀ u e', us !! arg args 0 = Some u → Heap h self mg e' m b → Q (toDelegator u) e') →
  run (exits R) (checkArgumentsForUserViewFunc args) Q e.
Proof.
  intros HQ. unfold checkArgumentsForUserViewFunc. repeat dstep.
  eapply run_getUserOf; [eassumption|apply HB|done|]. repeat dstep.
  destruct (us !! arg args 0) as [u|]; [by apply HQ|done].
Qed.
Lemma user_stored u nf :
  us !! arg args 0 = Some u → nf ∈ userFunds u → stored m nf.
Proof.
  intros Hu. eapply ownFunds_stored with (a := arg args 0); [apply HB|lia|].
  unfold ownFunds. by rewrite Hu.
Qed.
Lemma run_finishActive R u e1 Q :
  us !! arg args 0 = Some u → Heap h self mg e1 m b →
  (∀ e', Heap h self mg e' m b → Q tt e') → run (exits R) (finishActiveFund (toDelegator u)) Q e1.
Proof.
  intros Hu HH1 HQ. unfold finishActiveFund. case_match; [by repeat dstep; apply HQ|].
  repeat dstep. eapply run_getActiveFund; [eassumption|intros nf Hnf|].
  - eapply user_stored; [done|by apply active_in].
  - intros n f Hact. destruct (user_stored u (n, f) Hu (active_in _ _ Hact)) as (_ & _ & Hg).
    dstep. eapply run_deref; [by apply FundValue_amount|]. repeat dstep. by apply HQ.
Qed.
Lemma getUserActiveStake_kept : handled keeps (getUserActiveStake args) e.
Proof.
  unfold getUserActiveStake. do 2 dstep. apply run_checkUserView. intros u e1 Hu HH1. dstep.
  eapply run_finishActive; [done..|]. intros e2 HH2. repeat dstep. by apply view_kept.
Qed.
(** a loop over the unstaked funds of a user *)
Lemma run_eachFund {fr B} (body : B → bytes → M E error B) u x e1 Q :
  us !! arg args 0 = Some u → Heap h self mg e1 m b →
  (∀ n f y, stored m (n, f) → run fr (body y (fundKey n)) (λ _ e', e' = e1) e1) →
  (∀ y, Q y e1) → run fr (foldEach (UnStakedFunds (toDelegator u)) x body) Q e1.
Proof.
  intros Hu HH1 Hbody HQ. pose proof (λ nf Hnf, user_stored u nf Hu (unStaked_in u nf Hnf)) as Hst.
  simpl. revert x Hst. generalize (uUnStaked u). intros fs.
  induction fs as [|[n f] fs IH]; intros x Hst; simpl; [by dstep|].
  dstep. eapply run_mono; [apply (Hbody n f), Hst; left|].
  intros y ? ->. apply IH. intros nf Hnf. apply Hst. by right.
Qed.
Lemma run_totalUnStaked u e1 Q :
  us !! arg args 0 = Some u → Heap h self mg e1 m b → (∀ v, Q v e1) →
  run anyError (computeTotalUnStaked (toDelegator u)) Q e1.
Proof.
  intros Hu HH1 HQ. unfold computeTotalUnStaked. eapply run_eachFund; [done..| |done].
  intros n f y (Hn & Hf & Hg). dstep. eapply run_getFund; [eassumption|done..|].
  dstep. eapply run_deref; [by apply FundValue_amount|]. by dstep.
Qed.
Lemma getUserUnStakedValue_kept : handled keeps (getUserUnStakedValue args) e.
Proof.
  unfold getUserUnStakedValue. do 2 dstep. apply run_checkUserView. intros u e1 Hu HH1. do 2 dstep.
  apply run_totalUnStaked; [done..|]. intros v. repeat dstep. by apply view_kept.
Qed.
Lemma run_unBondable u e1 period Q :
  us !! arg args 0 = Some u → Heap h self mg e1 m b → (∀ v, Q v e1) →
  run anyError (getUnBondableTokens (toDelegator u) period) Q e1.
Proof.
  intros Hu HH1 HQ. eapply run_getUnBondable with (fs := uUnStaked u); [done|done| |done].
  intros nf Hnf. eapply user_stored; [done|by apply unStaked_in].
Qed.
Lemma getUserUnBondable_kept : handled keeps (getUserUnBondable args) e.
Proof.
  destruct (iv_config _ _ _ _ (bk_inv _ _ _ _ HB)) as (c & Hc & _).
  unfold getUserUnBondable. do 2 dstep. apply run_checkUserView. intros u e1 Hu HH1. repeat dstep.
  apply run_unBondable; [done..|]. intros v. repeat dstep. by apply view_kept.
Qed.
Lemma getUserUnDelegatedList_kept : handled keeps (getUserUnDelegatedList args) e.
Proof.
  destruct (iv_config _ _ _ _ (bk_inv _ _ _ _ HB)) as (c & Hc & _).
  unfold getUserUnDelegatedList. do 2 dstep. apply run_checkUserView. intros u e1 Hu HH1. repeat dstep.
  pose proof (λ nf Hnf, user_stored u nf Hu (unStaked_in u nf Hnf)) as Hst.
  apply (run_mono _ _ (λ _ e', Heap h self mg e' m b)).
  2:{ intros [] e2 HH2. repeat dstep. by apply view_kept. }
  simpl. clear Hu. revert e1 HH1 Hst. generalize (uUnStaked u). intros fs.
  induction fs as [|[n f] fs IH]; intros e1 HH1 Hst; simpl; [by repeat dstep|].
  destruct (Hst (n, f)) as (Hn & Hf & Hg); [left|]. simpl in Hn, Hf, Hg.
  do 3 dstep. eapply run_getFund; [eassumption|done..|]. dstep.
  eapply run_deref; [by apply FundValue_amount|]. repeat dstep. apply IH; [done|].
  intros nf Hnf. apply Hst. by right.
Qed.
Lemma run_rewardsOf u e1 Q :
  us !! arg args 0 = Some u → Heap h self mg e1 m b →
  (∀ u', Q (toDelegator u') e1) →
  run anyError (computeAndUpdateRewards (arg args 0) (toDelegator u)) Q e1.
Proof.
  intros Hu HH1 HQ. eapply run_computeAndUpdateRewards; [apply Hset..|done|apply HB|lia|done|]. apply HQ.
Qed.
Lemma getClaimableRewards_kept : handled keeps (getClaimableRewards args) e.
Proof.
  unfold getClaimableRewards. do 2 dstep. apply run_checkUserView. intros u e1 Hu HH1. do 2 dstep.
  apply run_rewardsOf; [done..|]. intros u'. repeat dstep. by apply view_kept.
Qed.
Lemma isDelegator_kept : handled keeps (isDelegator args) e.
Proof.
  unfold isDelegator. do 2 dstep. apply run_checkUserView. intros u e1 Hu HH1. repeat dstep.
  by apply view_kept.
Qed.
Lemma getDelegatorFundsData_kept : handled keeps (getDelegatorFundsData args) e.
Proof.
  destruct (iv_config _ _ _ _ (bk_inv _ _ _ _ HB)) as (c & Hc & _).
  unfold getDelegatorFundsData. do 2 dstep. apply run_checkUserView. intros u e1 Hu HH1. dstep.
  eapply run_finishActive; [done..|]. intros e2 HH2. do 2 dstep.
  eapply run_computeAndUpdateRewards; [apply Hset..|done|apply HB|lia|done|].
  set (u' := settle _ _ _ u). assert (uUnStaked u' = uUnStaked u) as Hun by done.
  repeat dstep.
  change (computeTotalUnStaked (E:=E) (toDelegator u')) with (computeTotalUnStaked (E:=E) (toDelegator u)).
  apply run_totalUnStaked; [done..|]. intros v. repeat dstep.
  eapply run_getUnBondable with (fs := uUnStaked u); [done|done| |].
  { intros nf Hnf. eapply user_stored; [done|by apply unStaked_in]. }
  repeat dstep. by apply view_kept.
Qed.
Lemma getTotalCumulatedRewardsForUser_kept : handled keeps (getTotalCumulatedRewardsForUser args) e.
Proof.
  unfold getTotalCumulatedRewardsForUser. do 2 dstep. apply run_checkUserView. intros u e1 Hu HH1.
  do 2 dstep. apply run_rewardsOf; [done..|]. intros u'. repeat dstep. by apply view_kept.
Qed.
End user.
End views.
