(* ===== verification/DelegationExecute.v ===== *)
(** * DelegationExecute: deploying, and every call keeps the books, so the contract is solvent

    [init] and [initFromValidatorData] turn the empty storage of a new
    contract into books that balance; [mergeValidatorDataToDelegation] adds the
    stake of a validator to the books of a deployed one.  Then the dispatcher's
    handlers together, and the states a contract reaches by calls that are
    answered [Ok]. *)
From Stdlib Require Import Floats.SpecFloat.
From S2P Require Import Prelude SystemEI StakingData Sums DelegationData Contract DelegationFunds.
From S2P Require Import DelegationNodes DelegationSC DelegationSpec DelegationInvariant.
From S2P Require Import DelegationRewards DelegationSteps DelegationDelegate DelegationWithdraw.
From S2P Require Import DelegationManage.
#[local] Open Scope go_scope.

Section deploying.
Context {E : Type} {EI : SystemEI E} {EIL : SystemEILaws E}.
Context {CH : ContractHost E} {CHL : ContractHostLaws E}.
Context {DC : DelegationContract} {DL : DelegationLaws} {VP : ValidatorPromise (E:=E)}.
Context (h : BlockchainHook) (self : bytes) (mg : DelegationManagement).
Context (Hself : delegationMgrSCAddress ≠ self) (Hset : Setting h mg).

(** ** Validators *)
Lemma run_getAndVerify e m b a R Q :
  Heap h self mg e m b →
  (∀ vd t, TotalStakeValue vd = Some t → (0 < t)%Z → Q vd e) →
  run (exits R) (getAndVerifyValidatorData a) Q e.
Proof.
  intros HH HQ. destruct (se_deposit _ _ Hset) as (md & Hmd & Hmd0).
  unfold getAndVerifyValidatorData. do 2 dstep.
  destruct (getValidatorData a e) as [[vd|x|] e1] eqn:Hvd.
  - assert (e1 = e) as ->.
    { revert Hvd. unfold getValidatorData, readStorageFrom. rewrite bind_gets.
      destruct (orEmpty _); [done|]. destruct (Unmarshal _ _); by intros [= _ ->]. }
    eapply run_eq; [exact Hvd|]. destruct (vp_total _ _ _ _ (hp_ready _ _ _ _ _ _ HH) Hvd) as (t & Ht & Ht0).
    dstep. dstep. do 2 dstep. eapply run_getManagement; [exact HH|].
    repeat dstep. apply HQ with (t := t); [done|]. apply Z.ltb_ge in H0. lia.
  - unfold run, wp. by rewrite Hvd.
  - revert Hvd. unfold getValidatorData, readStorageFrom. rewrite bind_gets.
    destruct (orEmpty _); [done|]. by destruct (Unmarshal _ _).
Qed.
Lemma run_statusFromValidator e s vd Q :
  (∀ s', NumUsers s' = NumUsers s → Q s' e) →
  run anyError (updateDelegationStatusFromValidatorData vd s) Q e.
Proof.
  intros HQ. unfold updateDelegationStatusFromValidatorData.
  apply run_foldEach with (I := λ _ s' e', NumUsers s' = NumUsers s ∧ e' = e); [done| |].
  - intros k t s1 ? [Hn ->]. dstep. unfold getBLSKeyStatus. dstep. unfold readStorageFrom. dstep.
    destruct (orEmpty _); [done|]. destruct (Unmarshal _ _) as [x|d]; [done|]. simpl.
    apply run_ret, run_ret. split; [|done]. destruct s1. by repeat case_match.
  - intros s1 ? [Hn ->]. by apply HQ.
Qed.

Section merge.
Context (bound : Z) (m : Store) (us : gmap bytes User) (e : E) (b : Z).
Context (HH : Heap h self mg e m b) (HB : Books (CurrentEpoch h) bound m us).
Context (Hb : (bound + 1 < 2 ^ 64)%Z) (args : ContractCallInput) (Hcall : goodCall self args).

Lemma mergeValidatorDataToDelegation_kept :
  handled (kept h self mg (bound + 1) m us b (valueOf args)) (mergeValidatorDataToDelegation args) e.
Proof.
  destruct (bk_status _ _ _ _ HB) as (s & Hs & Hn).
  unfold mergeValidatorDataToDelegation, checkArgumentsForValidatorToDelegation. repeat dstep.
  apply negb_false_iff, Z.eqb_eq in H1. apply negb_false_iff, Nat.eqb_eq in H3.
  rewrite (se_manager _ _ Hset) in H3.
  eapply run_getAndVerify; [exact HH|]. intros vd t Ht Ht0. repeat dstep. destruct Hsettles as [_ Hb'].
  apply run_statusFromValidator. intros s' Hs'. repeat dstep.
  eapply run_delegateUser; [exact Hself|exact Hset|eassumption|apply HB|done|exact H3|lia|lia|by left|].
  intros m' us' b2 e2 HH2 Hafter Hb2 _. eapply afterDelegate_kept; [done..|lia].
Qed.
End merge.

(** ** A new contract *)
Definition emptyStore : Store := mkStore None None None [] [] [] [] ∅ ∅ ∅.
(** the storage [initDelegationStructures] writes *)
Definition openedStore (c : DelegationConfig) (fee : Z) (owner : bytes) : Store :=
  mkStore (Some c) None (Some (mkGlobalFund (Some 0%Z) (Some 0%Z))) [] (bigBytes fee) owner [] ∅ ∅ ∅.

Lemma opened_Inv c fee owner :
  goodConfig c → (0 ≤ fee < 2 ^ 64)%Z → (fee ≤ maxServiceFee)%Z →
  Inv (CurrentEpoch h) 0 (openedStore c fee owner) ∅.
Proof.
  intros Hc Hfee Hmax. pose proof (se_epoch _ _ Hset).
  split; simpl; try (by intros); try (by rewrite ?mapSum_empty).
  - by exists c.
  - exists 0%Z. by split_and!.
  - rewrite setBytes_bigBytes; [|lia]. unfold bigUint64, u64.
    rewrite Z.abs_eq; [|lia]. rewrite Z.mod_small; lia.
Qed.

Lemma run_initStructures e b funds owner fee cap R Q :
  Heap h self mg e emptyStore b → (0 ≤ funds)%Z →
  (∀ c e', goodConfig c → InitialOwnerFunds c = Some funds →
     Heap h self mg e' (openedStore c fee owner) b → Q tt e') →
  run (exits R) (initDelegationStructures (Some funds) owner fee cap) Q e.
Proof.
  intros HH Hf HQ. unfold initDelegationStructures. rewrite systemKey.
  dstep. eapply run_setOther; [exact Hself|exact HH|by vm_compute|done|]. clear HH e. intros e HH.
  apply (Heap_setOwner _ _ _ Hself _ _ _ owner) in HH. dstep. apply run_setStorage.
  apply (Heap_setFee _ _ _ Hself _ _ _ (bigBytes fee)) in HH. dstep. apply run_setStorage. do 3 dstep.
  rewrite (hp_hook _ _ _ _ _ _ HH). set (c := mkDelegationConfig _ _ _ _ _ _ _).
  assert (goodConfig c) as Hc.
  { split; [split; apply Hset|by eexists|by exists funds]. }
  dstep. eapply run_saveConfig; [exact Hself|exact HH|apply Hc|done|]. clear HH e. intros e HH.
  dstep. eapply run_saveGlobal; [exact Hself|exact HH|]. intros e' HH'. by apply (HQ c).
Qed.

Section fresh.
Context (e : E) (b : Z) (HH : Heap h self mg e emptyStore b).
Context (args : ContractCallInput) (Hcall : goodCall self args).

(** a new contract owes nothing, and holds what it was given but for the stake *)
Definition opened (e' : E) : Prop := ∃ m' us' b', Heap h self mg e' m' b' ∧
  Books (CurrentEpoch h) 1 m' us' ∧ owed m' us' = 0%Z ∧ (b - valueOf args ≤ b')%Z.

Lemma opened_after c fee owner m' us' b' e' :
  Heap h self mg e' m' b' →
  afterDelegate h 0 (openedStore c fee owner) ∅ owner 0 m' us' → (b - valueOf args ≤ b')%Z →
  opened e'.
Proof.
  intros HH' [Hinv [u ->] Ho Hs Howed] Hb'. exists m', (<[owner := u]> ∅), b'.
  split_and!; [done|split; [done| |done]| |done].
  - rewrite Ho. simpl. rewrite lookup_insert_eq. by eexists.
  - rewrite Howed. unfold owed. by rewrite mapSum_empty.
Qed.

Lemma init_opened : handled opened (init args) e.
Proof.
  destruct (ga_value _ _ Hcall) as [_ Hv]. unfold init. do 2 dstep.
  eapply run_readOwner; [exact HH|]. repeat dstep. apply orb_false_iff in H1 as [_ Hmax%Z.ltb_ge].
  set (fee := bigUint64 (setBytes (arg args 1))) in *.
  assert (0 ≤ fee < 2 ^ 64)%Z as Hfee by (unfold fee, bigUint64, u64; apply Z.mod_pos_bound; lia).
  eapply run_initStructures; [exact HH|exact Hv|]. intros c e1 Hc Hfunds HH1.
  eapply run_delegateUser; [exact Hself|exact Hset|exact HH1|by apply opened_Inv|done|apply Hcall|done|done| |].
  { right. intros c' [= <-]. exact Hfunds. }
  intros m' us' b' e' HH' Hafter Hb' _. by eapply opened_after.
Qed.

Lemma initFromValidatorData_opened : handled opened (initFromValidatorData args) e.
Proof.
  unfold initFromValidatorData, checkArgumentsForValidatorToDelegation. repeat dstep.
  apply negb_false_iff, Z.eqb_eq in H1. apply negb_false_iff, Nat.eqb_eq in H3.
  rewrite (se_manager _ _ Hset) in H3. apply orb_false_iff in H6 as [_ Hmax%Z.ltb_ge].
  set (fee := bigUint64 (setBytes (arg args 2))) in *.
  assert (0 ≤ fee < 2 ^ 64)%Z as Hfee by (unfold fee, bigUint64, u64; apply Z.mod_pos_bound; lia).
  destruct Hsettles as [_ Hb'].
  eapply run_getAndVerify; [eassumption|]. intros vd t Ht Ht0. do 2 dstep.
  destruct (se_deposit _ _ Hset) as (md & Hmd & Hmd0).
  eapply run_getManagement; [eassumption|]. rewrite Hmd. dstep.
  eapply run_initStructures; [eassumption|lia|]. intros c e1 Hc Hfunds HH1. do 2 dstep.
  apply run_statusFromValidator. intros s' Hs'. repeat dstep.
  eapply run_delegateUser; [exact Hself|exact Hset|exact HH1|by apply opened_Inv|done|exact H3|lia|by rewrite Hs'|by left|].
  intros m' us' b2 e2 HH2 Hafter Hb2 _. eapply opened_after; [done..|lia].
Qed.
End fresh.
End deploying.

(** the views of a delegator, which read the record at their argument *)
Definition userViews : list string :=
  ["getClaimableRewards"; "getUserActiveStake"; "getUserUnStakedValue"; "getUserUnBondable";
   "getUserUnDelegatedList"; "isDelegator"; "getDelegatorFundsData"; "getTotalCumulatedRewardsForUser"].
(** The calls the books are kept for: [initFromValidatorData] does not test whether
    the contract is deployed, and the manager, whose call it is, only calls it on a
    contract that it has just deployed; a view of a delegator takes an address. *)
Definition coveredCall {DC : DelegationContract} (args : ContractCallInput) : Prop :=
  (Function args = "initFromValidatorData" → callerOf args ≠ delegationMgrSCAddress) ∧
  (Function args ∈ userViews → isAddress (arg args 0)).

(** [Execute] runs the handler of its function, or answers with an error *)
Lemma Execute_handled {E} `{SystemEI E} {DC : DelegationContract} (R : E → Prop) args e :
  (∀ run_it, dispatch (Function args) = Some run_it → handled R (run_it args) e) →
  handled R (Execute (Some args)) e.
Proof.
  intros Hrun. unfold Execute. destruct (CheckIfNil _) as [x|args'] eqn:Hnil; [apply handled_error|].
  apply CheckIfNil_args in Hnil as ->. repeat dstep.
  destruct (dispatch (Function args)) as [run_it|]; [by apply Hrun|apply handled_error].
Qed.

(** one lemma per handler *)
Create HintDb delegation discriminated.
#[local] Hint Extern 1 (isAddress (arg _ 0)) =>
  match goal with H : _ ∈ userViews → isAddress _ |- _ => apply H; by vm_compute; set_solver end : delegation.
#[local] Hint Resolve host_laws transfer_laws : delegation.
#[local] Hint Resolve
  mergeValidatorDataToDelegation_kept whitelistForMerge_kept deleteWhitelistForMerge_kept
  getWhitelistForMerge_kept addNodes_kept removeNodes_kept stakeNodes_kept unStakeNodes_kept
  unBondNodes_kept unJailNodes_kept delegate_kept unDelegate_kept withdraw_kept
  changeServiceFee_kept setCheckCapOnReDelegateRewards_kept setAutomaticActivation_kept
  modifyTotalDelegationCap_kept claimRewards_kept getRewardData_kept
  getTotalCumulatedRewards_kept getNumUsers_kept getTotalUnStaked_kept getTotalActiveStake_kept
  getNumNodes_kept getAllNodeStates_kept getContractConfig_kept unStakeAtEndOfEpoch_kept
  reDelegateRewards_kept reStakeUnStakedNodes_kept setMetaData_kept getMetaData_kept
  addTokens_kept correctNodesStatus_kept changeOwner_kept synchronizeOwner_kept
  : delegation.
#[local] Hint Resolve
  getClaimableRewards_kept getUserActiveStake_kept getUserUnStakedValue_kept
  getUserUnBondable_kept getUserUnDelegatedList_kept isDelegator_kept getDelegatorFundsData_kept
  getTotalCumulatedRewardsForUser_kept
  : delegation.

Section execute.
Context {E : Type} {EI : SystemEI E} {EIL : SystemEILaws E}.
Context {CH : ContractHost E} {CHL : ContractHostLaws E}.
Context {DC : DelegationContract} {DL : DelegationLaws} {VP : ValidatorPromise (E:=E)} {MS : ManagerShared (E:=E)}.
Context (h : BlockchainHook) (self : bytes) (mg : DelegationManagement).
Context (Hself : delegationMgrSCAddress ≠ self) (Hset : Setting h mg).
Context (bound : Z) (m : Store) (us : gmap bytes User) (e : E) (b : Z).
Context (HH : Heap h self mg e m b) (HB : Books (CurrentEpoch h) bound m us).
Context (Hb : (bound + 1 < 2 ^ 64)%Z) (args : ContractCallInput) (Hcall : goodCall self args).

Lemma init_deployed : handled (kept h self mg (bound + 1) m us b (valueOf args)) (init args) e.
Proof.
  unfold init. do 2 dstep. eapply run_readOwner; [exact HH|].
  apply run_bind, run_returnIf; [done|]. intros Ho.
  destruct (bk_owner _ _ _ _ HB) as [u Hu].
  pose proof (iv_addresses _ _ _ _ (bk_inv _ _ _ _ HB) _ _ Hu) as Ha. unfold isAddress in Ha.
  by rewrite Ha in Ho.
Qed.

(** only the manager may initialise a contract from the data of a validator *)
Lemma initFromValidatorData_refused R :
  callerOf args ≠ delegationMgrSCAddress → handled R (initFromValidatorData args) e.
Proof.
  intros Hc. unfold initFromValidatorData, checkArgumentsForValidatorToDelegation.
  apply run_bind, run_bind, run_returnIf; [done|intros _]. apply run_bind, run_returnIf; [done|].
  intros Hm%negb_false_iff%bool_decide_eq_true. by destruct Hc.
Qed.

Lemma kept_weaken bound1 bound2 v e' :
  kept h self mg bound1 m us b v e' → (bound1 ≤ bound2)%Z → kept h self mg bound2 m us b v e'.
Proof.
  intros (m' & us' & b' & ? & ? & ?) Hle. exists m', us', b'. split_and!; [done| |done].
  by eapply Books_weaken.
Qed.
Lemma updateRewards_weak :
  handled (kept h self mg (bound + 1) m us b (valueOf args)) (updateRewards args) e.
Proof.
  eapply handled_mono; [by apply (updateRewards_kept h self mg Hself Hset bound m us e b HH HB)|].
  intros e' Hk. eapply kept_weaken; [exact Hk|lia].
Qed.

Lemma dispatch_kept run_it :
  dispatch (Function args) = Some run_it → coveredCall args →
  handled (kept h self mg (bound + 1) m us b (valueOf args)) (run_it args) e.
Proof.
  intros Hd [Hninit Hview]. destruct (bk_status _ _ _ _ HB) as (s & Hs & _).
  unfold dispatch in Hd. cbv zeta in Hd.
  destruct (List.find _ _) as [[name f]|] eqn:Hf; [|done]. injection Hd as ->.
  apply find_some in Hf as [Hin Hname]. apply bool_decide_eq_true in Hname. simpl in Hname.
  subst name. simpl in Hin.
  repeat (destruct Hin as [[= Hfun <-]|Hin]; [rewrite -Hfun in Hninit Hview|]); [..|done].
  all: first [exact init_deployed|exact updateRewards_weak|by apply initFromValidatorData_refused, Hninit
    |eauto with delegation].
Qed.

Lemma Execute_kept :
  coveredCall args → handled (kept h self mg (bound + 1) m us b (valueOf args)) (Execute (Some args)) e.
Proof. intros Hcov. apply Execute_handled. intros run_it Hd. by apply dispatch_kept. Qed.
End execute.

(** ** The states of a contract *)
Section reachable.
Context {E : Type} {EI : SystemEI E} {EIL : SystemEILaws E}.
Context {CH : ContractHost E} {CHL : ContractHostLaws E}.
Context {DC : DelegationContract} {DL : DelegationLaws} {VP : ValidatorPromise (E:=E)} {MS : ManagerShared (E:=E)}.
Context (self : bytes) (Hself : delegationMgrSCAddress ≠ self).

(** What happens to a contract between two calls: time passes, its account is
    credited with at least the value [v] of the next call, and the other contracts
    are in states that they reach. *)
Record between (v : Z) (e e' : E) : Prop := {
  bt_storage k : GetStorage k e' = GetStorage k e;
  bt_self : selfAddress e' = selfAddress e;
  bt_epoch : (CurrentEpoch (hookOf e) ≤ CurrentEpoch (hookOf e'))%Z;
  bt_balance : (balanceOf e + v ≤ balanceOf e')%Z;
  bt_ready : othersReady e';
  bt_setting : ∃ mg, getDelegationManagement e' = (Ret mg, e') ∧ Setting (hookOf e') mg;
}.
(** a contract that holds the value [v] of its first call and has no storage *)
Record freshContract (v : Z) (e : E) : Prop := {
  fc_storage k : orEmpty (GetStorage k e) = [];
  fc_self : selfAddress e = self;
  fc_balance : (v ≤ balanceOf e)%Z;
  fc_ready : othersReady e;
  fc_setting : ∃ mg, getDelegationManagement e = (Ret mg, e) ∧ Setting (hookOf e) mg;
}.

(** The states after [n] calls that were answered [Ok]; a call that is answered
    otherwise is reverted. *)
Inductive reachable : Z → E → Prop :=
  | reachable_deploy args e e' :
      freshContract (valueOf args) e → goodCall self args →
      Function args = SCDeployInitFunctionName ∨ Function args = "initFromValidatorData" →
      answersOk (Execute (Some args)) e e' → reachable 1 e'
  | reachable_call n args e0 e e' :
      reachable n e0 → between (valueOf args) e0 e → goodCall self args → coveredCall args →
      answersOk (Execute (Some args)) e e' → reachable (n + 1) e'.

(** the books balance and what the contract has covers what it owes *)
Definition solvent (n : Z) (e : E) : Prop := ∃ mg m us,
  Heap (hookOf e) self mg e m (balanceOf e) ∧ Books (CurrentEpoch (hookOf e)) n m us ∧
  (owed m us ≤ balanceOf e)%Z.

Lemma solvent_between n v e e' :
  solvent n e → between v e e' → ∃ mg m us,
    Heap (hookOf e') self mg e' m (balanceOf e') ∧ Books (CurrentEpoch (hookOf e')) n m us ∧
    Setting (hookOf e') mg ∧ (owed m us + v ≤ balanceOf e')%Z.
Proof.
  intros (mg0 & m & us & HH & [HI Ho Hs] & Howed) [Hst Hsf Hep Hbal Hrd (mg & Hmg & Hset)].
  exists mg, m, us. split_and!; [|split; [|done..]|done|lia].
  - destruct HH as [[] _]. split; [|done]. split; [|by rewrite Hst|done|congruence|done|done].
    intros k Hk. rewrite Hst. auto.
  - eapply Inv_weaken; [exact HI|done|lia].
Qed.

Lemma kept_solvent h mg n m us b v e' :
  kept h self mg n m us b v e' → (owed m us + v ≤ b)%Z → solvent n e'.
Proof.
  intros (m' & us' & b' & HH & HB & Hle) Howed. exists mg, m', us'.
  pose proof (hp_hook _ _ _ _ _ _ HH) as Hh. pose proof (hp_balance _ _ _ _ _ _ HH) as Hb.
  rewrite Hh Hb. split_and!; [done..|lia].
Qed.

Lemma fresh_opened args e :
  freshContract (valueOf args) e → goodCall self args →
  Function args = SCDeployInitFunctionName ∨ Function args = "initFromValidatorData" →
  ∃ mg, handled (opened (hookOf e) self mg (balanceOf e) args) (Execute (Some args)) e.
Proof.
  intros [Hst Hsf Hbal Hrd (mg & Hmg & Hset)] Hcall Hf. exists mg.
  assert (Heap (hookOf e) self mg e emptyStore (balanceOf e)) as HH.
  { split; [|done]. split; [|apply Hst|done..]. intros k _. by destruct k; simpl; rewrite ?lookup_empty Hst. }
  apply Execute_handled. intros run_it Hd.
  destruct Hf as [Hf|Hf]; rewrite Hf in Hd; injection Hd as <-.
  - by apply init_opened.
  - by apply initFromValidatorData_opened.
Qed.

(** a call of a reachable state does not panic, and keeps it solvent *)
Lemma solvent_call n e0 e args :
  solvent n e0 → (n + 1 < 2 ^ 64)%Z → between (valueOf args) e0 e → goodCall self args →
  coveredCall args → handled (solvent (n + 1)) (Execute (Some args)) e.
Proof.
  intros Hs Hn Hbt Hcall Hcov.
  destruct (solvent_between n _ e0 e Hs Hbt) as (mg & m & us & HH & HB & Hset & Howed).
  eapply handled_mono; [by eapply Execute_kept|]. intros e' Hk. by eapply kept_solvent.
Qed.

Lemma reachable_solvent n e : reachable n e → (n < 2 ^ 64)%Z → solvent n e.
Proof.
  intros Hr. induction Hr as [args e e' Hfresh Hcall Hf Hans|n args e0 e e' Hr IH Hbt Hcall Hcov Hans];
    intros Hn.
  - destruct (fresh_opened args e Hfresh Hcall Hf) as [mg Hh].
    apply handled_answer with (e' := e') in Hh as (m & us & b & HH & HB & Howed & Hb); [|done].
    exists mg, m, us. pose proof (fc_balance _ _ Hfresh).
    rewrite (hp_hook _ _ _ _ _ _ HH) (hp_balance _ _ _ _ _ _ HH). split_and!; [done..|lia].
  - eapply handled_answer; [|exact Hans]. eapply solvent_call; [by apply IH; lia|done..].
Qed.
End reachable.
