(* ===== verification/DelegationFlaws.v ===== *)
(** * DelegationFlaws: what two loops of the delegation contract leave out

    [withdrawLoop] stops at the fund that the validator contract's answer does
    not cover, and forgets that fund and all behind it; with automatic
    activation, what the validator contract answers about each node is not
    looked at. *)
From Stdlib Require Import Floats.SpecFloat.
From S2P Require Import Prelude Sums SystemEI StakingData Contract DelegationData DelegationFunds.
From S2P Require Import DelegationSpec DelegationInvariant.
#[local] Open Scope go_scope.

(** ** Withdrawing less than is due *)
Section forgotten.
Context {E : Type} {EI : SystemEI E} {EIL : SystemEILaws E}.
Context {DC : DelegationContract}.

Lemma getFund_same k (e e' : E) :
  GetStorage k e' = GetStorage k e → (getFund k e').1 = (getFund k e).1.
Proof.
  intros Hk. unfold getFund, readStorage. rewrite !bind_gets Hk. destruct (orEmpty _); [done|].
  by destruct (Unmarshal _ _).
Qed.
Lemma run_getFund1 {fr} k (e : E) f Q : (getFund k e).1 = Ret f → Q f e → run fr (getFund k) Q e.
Proof.
  unfold getFund, readStorage, run, wp. rewrite !bind_gets. destruct (orEmpty _); [done|].
  destruct (Unmarshal _ _); [done|]. by intros [= ->].
Qed.
(** what [saveFund] writes: no record of a fund without a value *)
Definition savedFund (f : Fund) (d : bytes) : Prop :=
  if (amount f =? 0)%Z then d = [] else Marshal f = inr d.
Lemma run_saveFund1 k f (e : E) Q :
  is_Some (FundValue f) → (∀ d, savedFund f d → Q tt (SetStorage k d e)) → run anyError (saveFund k f) Q e.
Proof.
  intros [v Hv] HQ. unfold saveFund. apply run_bind. eapply run_deref; [done|].
  unfold savedFund, amount in HQ. rewrite Hv /= in HQ.
  destruct (v =? 0)%Z; [by apply run_setStorage, HQ|]. apply run_bind.
  destruct (Marshal f) as [x|b] eqn:Hm; [done|]. by apply run_setStorage, HQ.
Qed.

Context (epoch period : Z).
Definition matured (kf : bytes * Fund) : bool := negb (u32 (epoch - FundEpoch kf.2) <? period)%Z.
Definition maturedValue (fs : list (bytes * Fund)) : Z :=
  listSum (λ kf, if matured kf then amount kf.2 else 0%Z) fs.
(** the funds stored under their keys *)
Definition fundsAt (fs : list (bytes * Fund)) (e : E) : Prop :=
  NoDup fs.*1 ∧ ∀ kf, kf ∈ fs → (getFund kf.1 e).1 = Ret kf.2 ∧ is_Some (FundValue kf.2).

Lemma fundsAt_set kf fs v (e : E) : fundsAt (kf :: fs) e → fundsAt fs (SetStorage kf.1 v e).
Proof.
  intros [[Hn Hnd]%NoDup_cons Hf]. split; [done|]. intros kf' Hin.
  destruct (Hf kf') as [Hg Hv]; [by right|]. split; [|done]. rewrite -Hg. apply getFund_same, get_set_ne.
  intros Heq. apply Hn, list_elem_of_fmap. by exists kf'.
Qed.

(** where the loop stops: of [kf] only [rest] is covered *)
Definition stopsAt (fs : list (bytes * Fund)) (actual : Z) (temp paid temp' paid' : list bytes) (e e' : E) : Prop :=
  ∃ pre kf post rest, fs = pre ++ kf :: post ∧ matured kf = true ∧
    actual = (maturedValue pre + rest)%Z ∧ (0 ≤ rest < amount kf.2)%Z ∧
    temp' = temp ++ (List.filter (λ kf, negb (matured kf)) pre).*1 ∧
    paid' = paid ++ (List.filter matured pre).*1 ∧
    (∃ d, GetStorage kf.1 e' = Some d ∧ savedFund (withFundValue (Some rest) kf.2) d) ∧
    ∀ kf', kf' ∈ post → GetStorage kf'.1 e' = GetStorage kf'.1 e.

Lemma run_withdrawLoop_stops fs actual total temp paid (R : E → Prop) e :
  fundsAt fs e → (total ≤ actual < total + maturedValue fs)%Z →
  run (exits R) (withdrawLoop fs.*1 epoch period actual total temp paid)
    (λ r e', stopsAt fs (actual - total) temp paid r.1 r.2 e e') e.
Proof.
  revert total temp paid e. induction fs as [|kf fs IH]; intros total temp paid e Hfs Ht.
  - unfold maturedValue in Ht. simpl in Ht. lia.
  - pose proof Hfs as [[Hn Hnd]%NoDup_cons Hf].
    destruct (Hf kf) as [Hg [v Hv]]; [by left|]. assert (amount kf.2 = v) as Hamt by by rewrite /amount Hv.
    unfold maturedValue in Ht. simpl in Ht. fold (maturedValue fs) in Ht. simpl.
    apply run_bind, run_orReturn; [done|]. eapply run_getFund1; [exact Hg|].
    destruct (u32 (epoch - FundEpoch kf.2) <? period)%Z eqn:Hm.
    + assert (matured kf = false) as Hmf by by rewrite /matured Hm.
      rewrite Hmf in Ht. eapply run_mono; [apply IH; [by split; [done|intros; apply Hf; right]|lia]|].
      intros [t p] e' (pre & k & post & rest & -> & Hk & Hact & Hrest & -> & -> & Hd & Hpost).
      exists (kf :: pre), k, post, rest. unfold maturedValue in *. simpl. rewrite Hmf /= -app_assoc.
      split_and!; first [done|lia].
    + assert (matured kf = true) as Hmt by by rewrite /matured Hm.
      rewrite Hmt Hamt in Ht. apply run_bind. eapply run_deref; [exact Hv|].
      destruct (Z.ltb_spec actual (total + v)) as [Hlt|Hge].
      * replace (v - (total + v - actual))%Z with (actual - total)%Z by lia.
        apply run_bind, run_orReturn; [done|]. apply run_saveFund1; [by destruct kf.2; eexists|]. intros d Hd.
        apply run_ret. exists [], kf, fs, (actual - total)%Z. simpl. rewrite !app_nil_r.
        split_and!; try first [done|unfold maturedValue; simpl; lia].
        -- exists d. split; [apply get_set_eq|done].
        -- intros kf' Hin. apply get_set_ne. intros Heq. apply Hn, list_elem_of_fmap. by exists kf'.
      * apply run_bind, run_setStorage.
        eapply run_mono; [apply IH; [by apply fundsAt_set|lia]|].
        intros [t p] e' (pre & k & post & rest & Heq & Hk & Hact & Hrest & -> & -> & Hd & Hpost).
        exists (kf :: pre), k, post, rest. unfold maturedValue in *. simpl. rewrite Hmt /= -app_assoc Heq.
        split_and!; try first [done|lia].
        intros kf' Hin. rewrite Hpost //. apply get_set_ne. intros Hkk. apply Hn, list_elem_of_fmap.
        exists kf'. split; [done|]. rewrite Heq. apply elem_of_app. right. by right.
Qed.
End forgotten.

(** ** Automatic activation *)
(** the keys the validator contract reports on *)
Fixpoint reportedKeys (returnData : list bytes) : list bytes :=
  match returnData with
  | key :: _ :: rest => key :: reportedKeys rest
  | _ => []
  end.
Definition nodeKeys (l : list NodesData) : list bytes := map BLSKey l.

Lemma unSuccessLoop_other {X} n returnData :
  Nat.Even (length returnData) → Forall (λ key, length key ≠ n) (reportedKeys returnData) →
  unSuccessLoop (X:=X) n returnData = Ret [].
Proof.
  intros [k Hk]. revert returnData Hk. induction k as [|k IH]; intros [|key [|code rest]] Hk; try done.
  - simpl in Hk. lia.
  - simpl. intros [Hkey Hrest]%Forall_cons. rewrite IH //; [|simpl in Hk; lia].
    by rewrite (proj2 (Nat.eqb_neq _ _) Hkey).
Qed.
(** a key of another length than the first argument's is not found to have failed *)
Lemma getSuccess_all {X} returnData first args :
  Nat.Even (length returnData) → Forall (λ key, length key ≠ length first) (reportedKeys returnData) →
  getSuccessAndUnSuccessKeys (X:=X) returnData (first :: args) = Ret (first :: args, []).
Proof.
  intros Heven Hr. unfold getSuccessAndUnSuccessKeys. destruct returnData as [|key rest] eqn:Hd; [done|].
  rewrite -Hd in Heven Hr |- *. rewrite unSuccessLoop_other //. cbn [bindO length Nat.eqb]. do 2 f_equal.
  clear. induction (first :: args) as [|x l IH]; [done|].
  rewrite filter_cons_True; [by f_equal|apply not_elem_of_nil].
Qed.

Lemma removeNode_found key l :
  key ∈ nodeKeys l → ∃ node l', removeNode key l = Some (node, l') ∧ BLSKey node = key.
Proof.
  induction l as [|x l IH]; intros Hin; [by apply not_elem_of_nil in Hin|]. simpl.
  case_bool_decide as Hx; [by exists x, l|]. apply elem_of_cons in Hin as [->|Hin]; [done|].
  destruct (IH Hin) as (node & l' & -> & Hn). by exists node, (x :: l').
Qed.
Lemma removeNode_keys key l node l' k :
  removeNode key l = Some (node, l') → k ∈ nodeKeys l → k = BLSKey node ∨ k ∈ nodeKeys l'.
Proof.
  revert l'. induction l as [|x l IH]; intros l' Hr Hk; [done|]. simpl in Hr.
  apply elem_of_cons in Hk. case_bool_decide; [by injection Hr as -> ->|].
  destruct (removeNode key l) as [[n t]|]; [|done]. injection Hr as -> <-.
  destruct Hk as [->|Hk]; [by right; left|]. destruct (IH t eq_refl Hk); [by left|by right; right].
Qed.
(** a node that is moved is in one of the two lists *)
Lemma moveNode_keys key src dst k :
  let (src', dst') := moveNodeFromList src dst key in
  (k ∈ nodeKeys dst → k ∈ nodeKeys dst') ∧ (k ∈ nodeKeys src → k ∈ nodeKeys src' ∨ k ∈ nodeKeys dst') ∧
  (key ∈ nodeKeys src → key ∈ nodeKeys dst').
Proof.
  unfold moveNodeFromList. destruct (removeNode key src) as [[node src']|] eqn:Hr.
  - assert (∀ x, x ∈ nodeKeys (dst ++ [node]) ↔ x ∈ nodeKeys dst ∨ x = BLSKey node) as Hx.
    { intros x. unfold nodeKeys. rewrite map_app elem_of_app. by rewrite list_elem_of_singleton. }
    rewrite !Hx. split_and!; [by left| |].
    + intros Hk. destruct (removeNode_keys _ _ _ _ k Hr Hk); auto.
    + intros Hk. destruct (removeNode_found key src Hk) as (n & l & Hr' & <-).
      rewrite Hr in Hr'. injection Hr' as -> _. by right.
  - split_and!; [done|by left|]. intros Hk. destruct (removeNode_found key src Hk) as (n & l & Hr' & _).
    by rewrite Hr in Hr'.
Qed.

Definition stakedKey (k : bytes) (s : DelegationContractStatus) : Prop := k ∈ nodeKeys (StakedKeys s).
Definition knownKey (k : bytes) (s : DelegationContractStatus) : Prop :=
  k ∈ nodeKeys (NotStakedKeys s) ∨ k ∈ nodeKeys (UnStakedKeys s) ∨ stakedKey k s.

Lemma moveStaked_keys key s k :
  (stakedKey k s → stakedKey k (moveStaked s key)) ∧ (knownKey k s → knownKey k (moveStaked s key)) ∧
  (knownKey key s → stakedKey key (moveStaked s key)).
Proof.
  unfold knownKey, stakedKey, moveStaked.
  pose proof (moveNode_keys key (NotStakedKeys s) (StakedKeys s)) as H1.
  destruct (moveNodeFromList (NotStakedKeys s) (StakedKeys s) key) as [ns st].
  pose proof (moveNode_keys key (UnStakedKeys s) st) as H2.
  destruct (moveNodeFromList (UnStakedKeys s) st key) as [us st'].
  destruct s; simpl in *. pose proof (H1 k). pose proof (H2 k). pose proof (H1 key). pose proof (H2 key).
  tauto.
Qed.
Lemma moveStaked_all keys s k :
  (stakedKey k s ∨ k ∈ keys ∧ knownKey k s) → stakedKey k (foldl moveStaked s keys).
Proof.
  revert s. induction keys as [|key keys IH]; intros s Hk; simpl.
  - destruct Hk as [?|[[]%not_elem_of_nil _]]; done.
  - apply IH. destruct (moveStaked_keys key s k) as (H1 & H2 & H3).
    destruct Hk as [Hk|[[->|Hk]%elem_of_cons Hkn]]; auto.
Qed.

Section activation.
Context {E : Type} {EI : SystemEI E} {DC : DelegationContract}.

Lemma run_updateAfterStake s returnData first args (e : E) :
  Nat.Even (length returnData) → Forall (λ key, length key ≠ length first) (reportedKeys returnData) →
  run anyError (updateDelegationStatusAfterStake s returnData (first :: args))
    (λ s' _, ∀ k, k ∈ args → knownKey k s → stakedKey k s') e.
Proof.
  intros Heven Hr. unfold updateDelegationStatusAfterStake. apply run_bind.
  eapply run_liftO; [by apply getSuccess_all|]. cbv beta iota zeta. apply run_bind.
  unfold saveDelegationStatus. apply run_bind. destruct (Marshal _) as [x|b]; [done|].
  apply run_setStorage, run_ret. intros k Hk Hkn. apply moveStaked_all. right. split; [by right|done].
Qed.

(** the first argument is a number, of eight bytes at most *)
Lemma makeStakeArgs_shape {X} config status globalFund (e e' : E) args :
  (0 ≤ GasLeft e)%Z → (0 ≤ gasStake)%Z →
  makeStakeArgsIfAutomaticActivation (X:=X) config status globalFund e = (Ret args, e') →
  args = [] ∨ ∃ n nodes, args = bigBytes n :: concat (map (λ node, [BLSKey node; SignedMsg node]) nodes)
    ∧ length (bigBytes n) ≤ 8.
Proof.
  intros Hgas Hstake. unfold makeStakeArgsIfAutomaticActivation. destruct (delegationFlag _); [by intros [= <- _]; left|].
  destruct (_ || _); [by intros [= <- _]; left|].
  destruct (TotalActive globalFund) as [total|]; [|done]. unfold deref at 1. rewrite bind_ret.
  destruct (nodePrice =? 0)%Z; [done|]. case_match eqn:Hmax; [by intros [= <- _]; left|].
  destruct (gasStake =? 0)%Z eqn:Hgs; [done|]. rewrite bind_gets.
  case_match eqn:Hn0; [by intros [= <- _]; left|]. intros [= <- _]. right. eexists _, _. split; [done|].
  apply (bigBytes_length 8). pose proof (Z.div_pos (GasLeft e) gasStake). apply Z.leb_gt in Hmax.
  pose proof (Z.mod_pos_bound (Z.abs (bigDiv total nodePrice)) (2 ^ 64)) as Hu. fold (u64 (Z.abs (bigDiv total nodePrice))) in Hu.
  apply Z.eqb_neq in Hgs. change (256 ^ Z.of_nat 8)%Z with (2 ^ 64)%Z. unfold bigUint64 in *. lia.
Qed.
End activation.
