(* ===== verification/DelegationConcrete.v ===== *)
(** * DelegationConcrete: an executable instance of the delegation contract's world

    A host with storage, accounts and a balance, an honest validator contract
    that answers every call, a marshaller and a percentage, for which the
    assumptions of the delegation theorems are proved and calls are evaluated. *)
From Stdlib Require Import Floats.SpecFloat.
From S2P Require Import Prelude Sums SystemEI StakingData Contract DelegationData DelegationFunds.
From S2P Require Import DelegationNodes DelegationSC DelegationSpec DelegationInvariant.
From S2P Require Import DelegationSteps DelegationExecute DelegationFlaws Concrete.
#[local] Open Scope go_scope.

(** ** Marshallers *)
#[local] Instance management_fields : Fields DelegationManagement.
Proof.
  refine {| fieldsOf c := [encZ (NumOfContracts c); LastAddress c; encZ (MinServiceFee c);
      encZ (MaxServiceFee c); encOZ (MinDeposit c); encOZ (MinDelegationAmount c)];
    ofFields l := match l with
      | [a; b; c; d; e; f] => Some (mkManagement (decZ a) b (decZ c) (decZ d) (decOZ e) (decOZ f))
      | _ => None end |}; [|by intros []].
  intros []; simpl. by rewrite !decZ_enc !decOZ_enc.
Defined.
#[local] Instance delegationConfig_fields : Fields DelegationConfig.
Proof.
  refine {| fieldsOf c := [encOZ (MaxDelegationCap c); encOZ (InitialOwnerFunds c);
      encB (AutomaticActivation c); encB (ChangeableServiceFee c); encZ (CreatedNonce c);
      encZ (UnBondPeriodInEpochs c); encB (CheckCapOnReDelegateRewards c)];
    ofFields l := match l with
      | [a; b; c; d; e; f; g] => Some (mkDelegationConfig (decOZ a) (decOZ b) (decB c) (decB d)
                                         (decZ e) (decZ f) (decB g))
      | _ => None end |}; [|by intros []].
  intros []; simpl. by rewrite !decZ_enc !decOZ_enc !decB_enc.
Defined.
#[local] Instance metaData_fields : Fields DelegationMetaData.
Proof.
  refine {| fieldsOf c := [Name c; Website c; MetaIdentifier c];
    ofFields l := match l with [a; b; c] => Some (mkMetaData a b c) | _ => None end |};
  by intros [].
Defined.
#[local] Instance fund_fields : Fields Fund.
Proof.
  refine {| fieldsOf f := [encOZ (FundValue f); FundAddress f; encZ (FundEpoch f); encZ (FundType f)];
    ofFields l := match l with
      | [a; b; c; d] => Some (mkFund (decOZ a) b (decZ c) (decZ d))
      | _ => None end |}; [|by intros []].
  intros []; simpl. by rewrite !decZ_enc !decOZ_enc.
Defined.
#[local] Instance delegator_fields : Fields DelegatorData.
Proof.
  refine {| fieldsOf d := [ActiveFund d; encFields (UnStakedFunds d); encZ (RewardsCheckpoint d);
      encOZ (UnClaimedRewards d); encOZ (TotalCumulatedRewards d)];
    ofFields l := match l with
      | [a; b; c; d; e] => Some (mkDelegator a (decFields b []) (decZ c) (decOZ d) (decOZ e))
      | _ => None end |}; [|by intros []].
  intros []; simpl. by rewrite !decZ_enc !decOZ_enc decFields_enc.
Defined.
#[local] Instance globalFund_fields : Fields GlobalFundData.
Proof.
  refine {| fieldsOf g := [encOZ (TotalActive g); encOZ (TotalUnStaked g)];
    ofFields l := match l with [a; b] => Some (mkGlobalFund (decOZ a) (decOZ b)) | _ => None end |};
  [|by intros []].
  intros []; simpl. by rewrite !decOZ_enc.
Defined.
#[local] Instance reward_fields : Fields RewardComputationData.
Proof.
  refine {| fieldsOf r := [encOZ (RewardsToDistribute r); encOZ (RewardTotalActive r); encZ (ServiceFee r)];
    ofFields l := match l with [a; b; c] => Some (mkRewardData (decOZ a) (decOZ b) (decZ c)) | _ => None end |};
  [|by intros []].
  intros []; simpl. by rewrite !decZ_enc !decOZ_enc.
Defined.
(** a list of nodes: the keys and signatures in turn *)
Definition encNodes (l : list NodesData) : bytes :=
  encFields (concat (map (λ n, [BLSKey n; SignedMsg n]) l)).
Definition decNodes (b : bytes) : list NodesData := pairNodes (decFields b []).
Lemma decNodes_enc l : decNodes (encNodes l) = l.
Proof.
  unfold decNodes, encNodes. rewrite decFields_enc. induction l as [|[k s] l IH]; simpl; [done|].
  by rewrite IH.
Qed.
#[local] Instance status_fields : Fields DelegationContractStatus.
Proof.
  refine {| fieldsOf s := [encNodes (StakedKeys s); encNodes (NotStakedKeys s);
      encNodes (UnStakedKeys s); encZ (NumUsers s)];
    ofFields l := match l with
      | [a; b; c; d] => Some (mkStatus (decNodes a) (decNodes b) (decNodes c) (decZ d))
      | _ => None end |}; [|by intros []].
  intros []; simpl. by rewrite !decNodes_enc !decZ_enc.
Defined.

(** ** The contract *)
Definition demoSelf : bytes := replicate 32 xaa.
Definition demoManager : bytes := replicate 32 xbb.
Definition demoOwner : bytes := replicate 32 xcc.
Definition demoUser : bytes := replicate 32 xdd.
Definition demoEndOfEpoch : bytes := replicate 32 xee.

(** a percentage as a float, of a whole number and between nothing and all of it *)
Definition percentageOf (v : Z) (p : float64) : Z :=
  match p with
  | S754_finite false m e => Z.max 0 (Z.min v (Z.shiftl (v * Zpos m) e))
  | _ => 0%Z
  end.
Definition demoDelegation (automaticActivation : bool) : DelegationContract := {|
  delegationMgrSCAddress := demoManager;
  stakingSCAddr := replicate 32 x03;
  validatorSCAddr := replicate 32 x01;
  endOfEpochAddr := demoEndOfEpoch;
  addTokensAddr := replicate 32 x05;
  gasDelegationOps := 1;
  gasStake := 1;
  gasGetAllNodeStates := 1;
  minServiceFee := 0;
  maxServiceFee := 10000;
  unBondPeriodInEpochs := 2;
  nodePrice := 100;
  delegationFlag f :=
    match f with AutomaticActivationOfNodesDisableFlag => negb automaticActivation | _ => true end;
  VerifySignature _ _ _ := inr tt;
  GetIntTrimmedPercentageOfValue := percentageOf;
  GetApproximatePercentageOfValue := percentageOf;
  DelegationSystemSCKey := toBytes "delegation";
  BuiltInFunctionChangeOwnerAddress := toBytes "ChangeOwnerAddress";
  management_marshaller := fieldsMarshaller;
  delegationConfig_marshaller := fieldsMarshaller;
  metaData_marshaller := fieldsMarshaller;
  status_marshaller := fieldsMarshaller;
  fund_marshaller := fieldsMarshaller;
  delegator_marshaller := fieldsMarshaller;
  globalFund_marshaller := fieldsMarshaller;
  rewardData_marshaller := fieldsMarshaller;
  registration_marshaller := fieldsMarshaller;
  validator_marshaller := opaqueMarshaller;
|}.
#[export] Instance demoDelegation_laws a : @DelegationLaws (demoDelegation a).
Proof.
  split; try apply fieldsMarshaller_laws; [done|].
  intros v fee Hv Hfee. unfold ownerShare. simpl. unfold percentageOf. repeat case_match; lia.
Qed.

(** ** The host *)
Record World : Type := mkWorld {
  wHook : BlockchainHook;
  wSelf : bytes;
  wOwn : gmap bytes bytes;
  wOthers : gmap (bytes * bytes) bytes;
  wBalance : Z;
  wGas : Z;
  wFinished : list bytes;
  wMessages : list string;
  wLogs : list LogEntry;
  wPaid : list (bytes * Z);
}.
Definition setOwn s (w : World) :=
  let 'mkWorld h a _ o b g f m l p := w in mkWorld h a s o b g f m l p.
Definition setOthers o (w : World) :=
  let 'mkWorld h a s _ b g f m l p := w in mkWorld h a s o b g f m l p.
Definition setBalance b (w : World) :=
  let 'mkWorld h a s o _ g f m l p := w in mkWorld h a s o b g f m l p.
Definition setGas g (w : World) :=
  let 'mkWorld h a s o b _ f m l p := w in mkWorld h a s o b g f m l p.
Definition setFinished f (w : World) :=
  let 'mkWorld h a s o b g _ m l p := w in mkWorld h a s o b g f m l p.
Definition setMessages m (w : World) :=
  let 'mkWorld h a s o b g f _ l p := w in mkWorld h a s o b g f m l p.
Definition setLogs l (w : World) :=
  let 'mkWorld h a s o b g f m _ p := w in mkWorld h a s o b g f m l p.
Definition setPaid p (w : World) :=
  let 'mkWorld h a s o b g f m l _ := w in mkWorld h a s o b g f m l p.

(** A validator contract: the function called, the first argument, the value and
    what it holds for the caller give the return data, the change of the caller's
    balance, and what it holds afterwards. *)
Definition Validator : Type := bytes → bytes → Z → Z → list bytes * Z * Z.
Definition heldKey : bytes * bytes := ([], []).
Definition held (w : World) : Z := decZ (orEmpty (wOthers w !! heldKey)).
Definition setHeld (v : Z) (w : World) : World := setOthers (<[heldKey := encZ v]> (wOthers w)) w.

Definition unhexDigit (c : byte) : N :=
  let n := Byte.to_N c in (if n <? 58 then n - 48 else n - 87)%N.
Definition separator : byte := x40.
Fixpoint unhex (b : bytes) : bytes :=
  match b with
  | c :: d :: t =>
    if bool_decide (c = separator) then []
    else default x00 (Byte.of_N (unhexDigit c * 16 + unhexDigit d)) :: unhex t
  | _ => []
  end.
(** the function's name and the first argument of "name@arg@..." *)
Fixpoint splitCall (b : bytes) : bytes * bytes :=
  match b with
  | [] => ([], [])
  | c :: t => if bool_decide (c = separator) then ([], unhex t)
              else let (name, argument) := splitCall t in (c :: name, argument)
  end.

Definition worldEI (validator : Validator) : SystemEI World := {|
  hookOf := wHook;
  GetStorage k w := wOwn w !! k;
  GetStorageFromAddress a k w := if bool_decide (a = wSelf w) then wOwn w !! k else wOthers w !! (a, k);
  SetStorage k v w := setOwn (<[k := v]> (wOwn w)) w;
  SetStorageForAddress a k v w := setOthers (<[(a, k) := v]> (wOthers w)) w;
  AddReturnMessage m w := setMessages (m :: wMessages w) w;
  Finish v w := setFinished (wFinished w ++ [v]) w;
  AddLogEntry l w := setLogs (wLogs w ++ [l]) w;
  GetLogs := wLogs;
  UseGas g w := if (wGas w <? g)%Z then None else Some (setGas (wGas w - g)%Z w);
  GasLeft := wGas;
  Transfer d s v _ _ w := Some (setPaid (wPaid w ++ [(d, v)]) (setBalance (wBalance w - v)%Z w));
  SetOwnerOperatingOnAccount _ w := inr w;
  IsValidator _ _ := false;
  CanUnJail _ _ := false;
  IsBadRating _ _ := false;
  ExecuteOnDestContext _ _ v input w :=
    let (name, argument) := splitCall input in
    let '(data, change, now) := validator name argument v (held w) in
    (Ret (Build_CallOutput Ok "" data []), setHeld now (setBalance (wBalance w + change)%Z w));
|}.

(** it holds what is unstaked, pays what it is asked to unbond as far as it holds
    as much, and keeps what it is given *)
Definition honestValidator : Validator := λ name argument v h,
  if bool_decide (name = toBytes "unBondTokens") then
    let p := Z.min (setBytes argument) h in ([], p, (h - p)%Z)
  else if bool_decide (name = toBytes "unStakeTokens") then ([], 0%Z, (h + setBytes argument)%Z)
  else ([], (- v)%Z, h).

#[export] Instance world_account : ContractHost World := {|
  selfAddress := wSelf; balanceOf := wBalance; othersReady _ := True; shared a := a = demoManager |}.
#[export] Instance world_held : Receivable World := held.
#[export] Instance world_receipts : Receipts World := λ a w,
  listSum (λ p, if bool_decide (a = p.1) then p.2 else 0%Z) (wPaid w).
Section world.
Context (validator : Validator).
#[local] Existing Instance worldEI.
#[export] Instance worldEI_laws : @SystemEILaws World (worldEI validator).
Proof.
  split; try by intros; destruct e.
  - intros k v []. simpl. apply lookup_insert_eq.
  - intros k k' v []. simpl. intros. by rewrite lookup_insert_ne.
  - intros k g [] e'. simpl. case_match; by intros [= <-].
  - intros g [] e'. simpl. case_match; by intros [= <-].
Qed.
#[export] Instance world_laws : @ContractHostLaws World (worldEI validator) world_account.
Proof.
  split; [split|split]; try (intros; by destruct e).
  all: try (by intros ? []).
  - intros g [] e'. simpl. case_match; by intros [= <-].
  - intros a [] e' [= <-]. done.
  - intros k v a k' [] Ha. simpl in *. by rewrite bool_decide_false.
  - intros a k v k' [] Ha Hk. simpl in *. rewrite bool_decide_false // lookup_insert_ne //. congruence.
  - intros v [] e' _ [= <-]. done.
Qed.
#[export] Instance world_receivable : @ReceivableLaws World (worldEI validator) world_account world_held.
Proof.
  split; [split|]; try (intros; by destruct e).
  - intros g [] e'. simpl. case_match; by intros [= <-].
  - intros a [] e' [= <-]. done.
  - intros a k v [] ->. unfold heldFor, world_held, held. simpl. by rewrite lookup_insert_ne.
  - intros d v [] e' [= <-]. done.
Qed.
#[export] Instance world_receipts_laws : @ReceiptsLaws World (worldEI validator) world_account world_receipts.
Proof.
  split; [split|]; try (intros; by destruct e).
  - intros g [] e'. simpl. case_match; by intros [= <-].
  - intros c [] e' [= <-]. done.
  - intros d v a [] e' [= <-]. unfold received, world_receipts. simpl. rewrite listSum_app. simpl. lia.
Qed.
(** the money of a delegation contract in the world *)
Definition world_assets : ContractHost World := @assets World world_account world_held.
#[export] Instance world_assets_laws : @ContractHostLaws World (worldEI validator) world_assets.
Proof. exact assets_laws. Qed.
#[export] Instance world_shared a : @ManagerShared World world_assets (demoDelegation a).
Proof. done. Qed.
End world.

(** ** The honest validator contract keeps the promise *)
Lemma unhex_hexByte x t : unhex (hexByte x ++ t) = x :: unhex t.
Proof. destruct x; reflexivity. Qed.
Lemma unhex_hexEncode a t : unhex (hexEncode a ++ t) = a ++ unhex t.
Proof.
  induction a as [|x a IH]; [done|].
  assert (hexEncode (x :: a) ++ t = hexByte x ++ (hexEncode a ++ t)) as -> by apply symmetry, app_assoc.
  by rewrite unhex_hexByte IH.
Qed.
Lemma unhex_separator t : unhex (separator :: t) = [].
Proof. by destruct t. Qed.
Lemma toBytes_app s t : toBytes (s ++ t) = toBytes s ++ toBytes t.
Proof.
  unfold toBytes, String.list_byte_of_string. induction s as [|c s IH]; simpl; [done|]. by f_equal.
Qed.
Lemma toBytes_hexString a : toBytes (hexString a) = hexEncode a.
Proof. apply String.list_byte_of_string_of_list_byte. Qed.
(** the call's input: the name, and the arguments behind separators *)
Lemma call_input f args :
  toBytes (foldl (λ call key, call ++ ("@" ++ hexString key))%string f args)
  = toBytes f ++ concat (map (λ a, separator :: hexEncode a) args).
Proof.
  revert f. induction args as [|a args IH]; intros f; simpl; [by rewrite app_nil_r|].
  rewrite IH !toBytes_app toBytes_hexString -app_assoc. done.
Qed.
Lemma splitCall_args name args :
  separator ∉ name →
  splitCall (name ++ concat (map (λ a, separator :: hexEncode a) args)) = (name, nth 0 args []).
Proof.
  induction name as [|c name IH]; intros Hn.
  - destruct args as [|a args]; [done|]. simpl. rewrite unhex_hexEncode. f_equal.
    destruct args as [|a' args]; cbn [map concat]; [by rewrite app_nil_r|].
    by rewrite -app_comm_cons unhex_separator app_nil_r.
  - apply not_elem_of_cons in Hn as [Hc Hn]. simpl. rewrite IH // bool_decide_false //.
Qed.

(** evaluates the decisions of the goal *)
Ltac evalDecisions := repeat match goal with |- context [bool_decide ?P] =>
  let b := eval vm_compute in (bool_decide P) in change (bool_decide P) with b end.

Section honest.
Context (a : bool).
#[local] Instance honest_contract : DelegationContract := demoDelegation a.
#[local] Instance honest_host : SystemEI World := worldEI honestValidator.
#[local] Existing Instance world_assets.

Lemma honest_call address f args v (w : World) :
  separator ∉ toBytes f →
  executeOnValidatorSC address f args v w
  = let '(data, change, now) := honestValidator (toBytes f) (nth 0 args []) v (held w) in
    (Ret (Build_CallOutput Ok "" data []), setHeld now (setBalance (wBalance w + change)%Z w)).
Proof.
  intros Hf. unfold executeOnValidatorSC, catch. rewrite call_input. simpl.
  rewrite splitCall_args //. by destruct (honestValidator _ _ _ _) as [[data change] now].
Qed.
#[export] Instance honest_promise : ValidatorPromise (E := World).
Proof.
  split.
  - intros address f args v w _ Hf. unfold run, wp.
    assert (separator ∉ toBytes f) as Hsep.
    { unfold validatorFunctions in Hf. repeat (apply elem_of_cons in Hf as [->|Hf];
        [by apply (bool_decide_unpack _); vm_compute|]). by apply not_elem_of_nil in Hf. }
    rewrite honest_call //. destruct (honestValidator _ _ _ _) as [[data change] now] eqn:Hv.
    cbn [fst snd]. intros _. assert (held (setHeld now (setBalance (wBalance w + change)%Z w)) = now) as Hh.
    { unfold held. destruct w. simpl. by rewrite lookup_insert_eq /= decZ_enc. }
    split_and!; try by destruct w.
    { unfold readsManagement. destruct w; simpl. by rewrite lookup_insert_ne. }
    simpl. unfold heldFor, world_held. rewrite Hh. replace (wBalance (setHeld _ _)) with (wBalance w + change)%Z
      by by destruct w.
    unfold validatorFunctions in Hf. unfold settles. unfold honestValidator in Hv.
    repeat (apply elem_of_cons in Hf as [->|Hf];
      [revert Hv; evalDecisions; cbv zeta; simpl; intros [= <- <- <-]; repeat split;
       vm_compute getTransferBackFromVMOutput; lia|]).
    by apply not_elem_of_nil in Hf.
  - intros x vd w w' _. unfold getValidatorData, readStorageFrom. rewrite bind_gets.
    by destruct (orEmpty _).
Qed.
End honest.

(** ** The life of a contract *)
Definition demoManagement : DelegationManagement := mkManagement 1 [] 0 10000 (Some 1000%Z) (Some 10%Z).
Definition hookAt (epoch : Z) : BlockchainHook := {|
  CurrentNonce := 0; CurrentRound := 0; CurrentEpoch := epoch; GetShardOfAddress _ := 0%Z; |}.
Definition setHook h (w : World) :=
  let 'mkWorld _ a s o b g f m l p := w in mkWorld h a s o b g f m l p.
(** a host before the contract is deployed with [balance] *)
Definition newWorld `{DelegationContract} (balance : Z) : World :=
  mkWorld (hookAt 0) demoSelf ∅
    (match Marshal demoManagement with
     | inr b => {[(delegationMgrSCAddress, delegationManagementKey) := b]} | inl _ => ∅ end)
    balance 1000 [] [] [] [].
Definition demoCall (caller : bytes) (function : string) (arguments : list bytes) (value : Z) :
    ContractCallInput := {|
  CallerAddr := Some caller; Arguments := arguments; CallValue := Some value;
  ESDTTransfers := 0; GasProvided := 0; RecipientAddr := Some demoSelf; Function := function; |}.
(** the epoch becomes [epoch] and [v] is paid in *)
Definition pass (epoch v : Z) (w : World) : World :=
  setBalance (wBalance w + v)%Z (setHook (hookAt epoch) w).

Section life.
Context (a : bool) (validator : Validator).
#[local] Instance life_contract : DelegationContract := demoDelegation a.
#[local] Instance life_host : SystemEI World := worldEI validator.

(** the calls, each with its epoch *)
Definition step (w : World) (call : Z * ContractCallInput) : World :=
  let (epoch, args) := call in
  (Execute (Some args) (pass epoch (valueOf args) w)).2.
Definition deploy (value : Z) : World :=
  (Execute (Some (demoCall demoOwner SCDeployInitFunctionName [bigBytes 0; bigBytes 1000] value))
     (newWorld value)).2.
Definition life (calls : list (Z * ContractCallInput)) : World := foldl step (deploy 1000) calls.
End life.

(** a delegation, its rewards, a claim, and an undelegation *)
Definition demoDelegate : Z * ContractCallInput := (0%Z, demoCall demoUser "delegate" [] 500).
Definition demoRewards : Z * ContractCallInput := (1%Z, demoCall demoEndOfEpoch "updateRewards" [] 300).
Definition demoClaim : Z * ContractCallInput := (1%Z, demoCall demoUser "claimRewards" [] 0).
Definition demoUnDelegate : Z * ContractCallInput :=
  (1%Z, demoCall demoUser "unDelegate" [bigBytes 200] 0).
Definition demoCalls : list (Z * ContractCallInput) :=
  [demoDelegate; demoRewards; demoClaim; demoUnDelegate].
Definition demoWorld : World := life false honestValidator demoCalls.

(** ** The states of that life are reachable *)
Section reaching.
Context (a : bool) (validator : Validator).
#[local] Instance reaching_contract : DelegationContract := demoDelegation a.
#[local] Instance reaching_host : SystemEI World := worldEI validator.
#[local] Existing Instance world_assets.

Lemma demo_setting epoch : (0 ≤ epoch < 2 ^ 32 - 1)%Z → Setting (hookAt epoch) demoManagement.
Proof. intros. split; simpl; try done; try lia; by eexists. Qed.
Lemma readManagement w mg :
  (getDelegationManagement w).1 = Ret mg → getDelegationManagement w = (Ret mg, w).
Proof.
  unfold getDelegationManagement, readStorageFrom. rewrite bind_gets. destruct (orEmpty _); [done|].
  destruct (Unmarshal _ _); by intros [= ->].
Qed.
Lemma newWorld_fresh v : freshContract demoSelf v (newWorld v).
Proof.
  assert (heldFor (newWorld v) = 0%Z) as Hh by by vm_compute.
  split; [done..|simpl; lia|done|]. exists demoManagement. split; [apply readManagement; by vm_compute|].
  apply demo_setting. lia.
Qed.
Lemma pass_between epoch v w :
  (CurrentEpoch (wHook w) ≤ epoch < 2 ^ 32 - 1)%Z → (0 ≤ epoch)%Z →
  getDelegationManagement (pass epoch v w) = (Ret demoManagement, pass epoch v w) →
  between v w (pass epoch v w).
Proof.
  intros Hep H0 Hmg. split; try by destruct w.
  - destruct w. simpl in *. lia.
  - change (wBalance w + held w + v ≤ wBalance (pass epoch v w) + held (pass epoch v w))%Z.
    replace (held (pass _ _ _)) with (held w) by by destruct w.
    replace (wBalance (pass _ _ _)) with (wBalance w + v)%Z by by destruct w. lia.
  - exists demoManagement. split; [done|]. replace (hookOf _) with (hookAt epoch) by by destruct w.
    apply demo_setting. lia.
Qed.

(** the calls of a life that are verified *)
Definition goodStep (call : Z * ContractCallInput) (epoch : Z) : Prop :=
  (epoch ≤ call.1 < 2 ^ 32 - 1)%Z ∧ (0 ≤ call.1)%Z ∧ goodCall demoSelf call.2 ∧ coveredCall call.2.
Lemma demoCall_good caller f arguments v :
  isAddress caller → caller ≠ demoSelf → (0 ≤ v)%Z → goodCall demoSelf (demoCall caller f arguments v).
Proof. intros. by split. Qed.
Lemma newWorld_deployed v :
  (0 ≤ v)%Z → answer (Execute (Some (demoCall demoOwner SCDeployInitFunctionName
    [bigBytes 0; bigBytes 1000] v)) (newWorld v)).1 = Some Ok →
  reachable demoSelf 1 (deploy a validator v).
Proof.
  intros Hv Hok.
  eapply (reachable_deploy _ (demoCall _ _ _ v) (newWorld v)); [apply newWorld_fresh| | |by split].
  - by apply demoCall_good.
  - by left.
Qed.
Lemma life_reachable n calls call :
  let w := life a validator calls in
  let w' := pass call.1 (valueOf call.2) w in
  reachable demoSelf n w → goodStep call (CurrentEpoch (wHook w)) →
  (getDelegationManagement w').1 = Ret demoManagement →
  answer (Execute (Some call.2) w').1 = Some Ok →
  reachable demoSelf (n + 1) (life a validator (calls ++ [call])).
Proof.
  intros w w' Hr (Hep & H0 & Hgood & Hcov) Hm%readManagement Hok. unfold life. rewrite foldl_app. destruct call.
  eapply (reachable_call _ n _ w w'); [exact Hr|by apply pass_between|exact Hgood|exact Hcov|by split].
Qed.
End reaching.

(** ** A reachable state *)
Section demo.
#[local] Instance demo_contract : DelegationContract := demoDelegation false.
#[local] Instance demo_host : SystemEI World := worldEI honestValidator.
#[local] Existing Instance world_assets.

(** the state after [call], whose conditions are evaluated *)
Ltac reachCall n call H := apply (life_reachable false honestValidator n _ call);
  [exact H|split; [by vm_compute|split; [done|split; [by apply demoCall_good|
     by split; [done|intros Hin%(bool_decide_pack _); destruct Hin]]]]|by vm_compute|by vm_compute].

Lemma demo_deployed : reachable demoSelf 1 (life false honestValidator []).
Proof. apply (newWorld_deployed false honestValidator 1000); [done|by vm_compute]. Qed.
Lemma demo_delegated : reachable demoSelf 2 (life false honestValidator ([] ++ [demoDelegate])).
Proof. reachCall 1%Z demoDelegate demo_deployed. Qed.
Lemma demo_rewarded :
  reachable demoSelf 3 (life false honestValidator ([demoDelegate] ++ [demoRewards])).
Proof. reachCall 2%Z demoRewards demo_delegated. Qed.
Lemma demo_claimed :
  reachable demoSelf 4 (life false honestValidator ([demoDelegate; demoRewards] ++ [demoClaim])).
Proof. reachCall 3%Z demoClaim demo_rewarded. Qed.
Lemma demoWorld_reachable : reachable demoSelf 5 demoWorld.
Proof.
  change demoWorld with
    (life false honestValidator ([demoDelegate; demoRewards; demoClaim] ++ [demoUnDelegate])).
  reachCall 4%Z demoUnDelegate demo_claimed.
Qed.

Lemma demo_other : delegationMgrSCAddress ≠ demoSelf.
Proof. done. Qed.
(** what the theorems on a state assume, in the state with the rewards *)
Definition rewardedWorld : World := life false honestValidator [demoDelegate; demoRewards].
Lemma Ret_inj {S X A} (a b : A) (s s' : S) : (Ret (X:=X) a, s) = (Ret b, s') → a = b.
Proof. congruence. Qed.
Lemma rewarded_management :
  getDelegationManagement rewardedWorld = (Ret demoManagement, rewardedWorld).
Proof. apply (readManagement false honestValidator). by vm_compute. Qed.
Lemma rewarded_user : orEmpty (GetStorage demoUser rewardedWorld) ≠ [].
Proof. by vm_compute. Qed.
Lemma rewarded_state : ∃ m us u, Setting (hookAt 1) demoManagement ∧
  Heap (hookAt 1) demoSelf demoManagement rewardedWorld m 300 ∧
  Books 1 3 m us ∧ us !! demoUser = Some u.
Proof.
  destruct (reachable_solvent demoSelf demo_other 3 _ demo_rewarded) as (mg & m & us & HH & HB & _);
    [done|].
  change (life false honestValidator _) with rewardedWorld in HH, HB.
  assert (mg = demoManagement) as ->.
  { pose proof (hp_management _ _ _ _ _ _ HH) as Hm.
    rewrite rewarded_management in Hm. exact (eq_sym (Ret_inj _ _ _ _ Hm)). }
  pose proof (cell _ _ _ _ _ _ HH (CUser demoUser) eq_refl) as Hc.
  change (holds (stUsers m !! demoUser) (orEmpty (GetStorage demoUser rewardedWorld))) in Hc.
  rewrite (iv_users _ _ _ _ (bk_inv _ _ _ _ HB)) lookup_fmap in Hc.
  destruct (us !! demoUser) as [u|] eqn:Hu; [|by destruct (rewarded_user Hc)].
  exists m, us, u. split_and!; [by apply demo_setting|exact HH|exact HB|done].
Qed.

Lemma rewarded_account m b :
  HeapState (CH:=world_assets) (hookAt 1) demoSelf demoManagement rewardedWorld m b →
  HeapState (CH:=world_account) (hookAt 1) demoSelf demoManagement rewardedWorld m 300.
Proof. intros []. split; [assumption..|by vm_compute|assumption]. Qed.

Lemma rewarded_between : between (valueOf demoClaim.2) rewardedWorld (pass 1 0 rewardedWorld).
Proof.
  apply (pass_between false honestValidator); [by vm_compute|done|].
  apply (readManagement false honestValidator). by vm_compute.
Qed.
Lemma claim_good : goodCall demoSelf demoClaim.2.
Proof. by apply demoCall_good. Qed.
Lemma claim_covered : coveredCall demoClaim.2.
Proof. by split; [done|intros Hin%(bool_decide_pack _); destruct Hin]. Qed.
Definition claimedWorld : World := (claimRewards demoClaim.2 rewardedWorld).2.
Lemma claimed_ok : answersOk (claimRewards demoClaim.2) rewardedWorld claimedWorld.
Proof. split; [by vm_compute|exact eq_refl]. Qed.
Lemma claimed_balance : wBalance claimedWorld = 210%Z.
Proof. by vm_compute. Qed.

(** ** Two unstaked funds *)
Definition demoFunds : list (bytes * Fund) :=
  [(fundKeyPrefix ++ [x03], mkFund (Some 200%Z) demoUser 1 unStaked);
   (fundKeyPrefix ++ [x04], mkFund (Some 100%Z) demoUser 2 unStaked)].
Definition fundsWorld : World :=
  pass 5 0 (life false honestValidator
    [demoDelegate; demoUnDelegate; (2%Z, demoCall demoUser "unDelegate" [bigBytes 100] 0)]).
End demo.
Lemma demoFunds_stored :
  @fundsAt World (worldEI honestValidator) (demoDelegation true) demoFunds fundsWorld.
Proof.
  split; [by apply (bool_decide_unpack _); vm_compute|].
  intros kf [->|[->|[]%not_elem_of_nil]%elem_of_cons]%elem_of_cons; by split; [vm_compute|eexists].
Qed.

(** ** A node that is refused *)
Definition jailedNode : NodesData := mkNode (replicate 96 x55) (replicate 48 x66).
Definition jailedStatus : DelegationContractStatus := mkStatus [] [jailedNode] [] 1.
Definition jailedConfig : DelegationConfig := mkDelegationConfig (Some 0%Z) (Some 1000%Z) true true 0 2 true.
Definition jailedFund : GlobalFundData := mkGlobalFund (Some 1000%Z) (Some 0%Z).
Definition jailedArgs : list bytes := [[x01]; BLSKey jailedNode; SignedMsg jailedNode].
(** the node's key with the code of a failure *)
Definition jailedAnswer : list bytes := [BLSKey jailedNode; [failed]].
Lemma jailed_args :
  @makeStakeArgsIfAutomaticActivation World (worldEI honestValidator) (demoDelegation true) ReturnCode
    jailedConfig jailedStatus jailedFund (@newWorld (demoDelegation true) 1000)
  = (Ret jailedArgs, @newWorld (demoDelegation true) 1000).
Proof. reflexivity. Qed.
