(* ===== verification/DelegationTheorems.v ===== *)
(** * DelegationTheorems: the properties of the delegation contract *)
From Stdlib Require Import Floats.SpecFloat.
From S2P Require Import Prelude Sums SystemEI StakingData Contract DelegationData DelegationFunds.
From S2P Require Import DelegationNodes DelegationSC DelegationSpec DelegationInvariant.
From S2P Require Import DelegationRewards DelegationSteps DelegationDelegate.
From S2P Require Import DelegationWithdraw DelegationManage.
From S2P Require Import DelegationExecute DelegationConcrete DelegationFlaws.
From S2P Require Import Concrete.
#[local] Open Scope go_scope.

(** The money of a delegation contract is its own balance and the unstaked tokens
    that the validator contract holds for it ([assets]). *)
Section contract.
Context {E : Type} {EI : SystemEI E} {EIL : SystemEILaws E}.
Context {CH : ContractHost E} {CHL : ContractHostLaws E} {RC : Receivable E} {RCL : ReceivableLaws E}.
Context {DC : DelegationContract} {DL : DelegationLaws}.
Context {VP : ValidatorPromise (CH:=assets)} {MS : ManagerShared (CH:=assets)}.
Context (self : bytes) (Hself : delegationMgrSCAddress ≠ self).
#[local] Instance assets_host_laws : @ContractHostLaws E EI assets := assets_laws.

(** C3: a delegation contract never owes more than it has.  In every state that
    it reaches from its deployment by fewer than 2^64 calls answered [Ok], the
    records in its storage are consistent (the funds of different users are
    different funds, their values add up to the totals, the number of users is
    the recorded one), and its balance together with the unstaked tokens that the
    validator contract holds for it covers the unclaimed rewards and the unstaked
    funds of all users.  This is for any validator contract that keeps
    [ValidatorPromise], which does not say that it pays all that [withdraw] asks
    for, only that it pays out of what it holds; for calls by other accounts than
    the contract itself, of any function but [initFromValidatorData] called by the
    manager a second time and views of a delegator at what is no address
    ([coveredCall]); and for the chain parameters of [Setting]. *)
Theorem delegation_solvent n e :
  reachable (CH:=assets) self n e → (n < 2 ^ 64)%Z → ∃ mg m us,
    Heap (CH:=assets) (hookOf e) self mg e m (balanceOf e + heldFor e) ∧
    Books (CurrentEpoch (hookOf e)) n m us ∧
    (mapSum (due m) us + mapSum (λ _, unStakedValue) us ≤ balanceOf e + heldFor e)%Z.
Proof. intros Hr Hn. by apply (reachable_solvent (CH:=assets) self Hself n e Hr Hn). Qed.

(** C4: a call of a reachable delegation contract never panics, and when it is
    answered [Ok] the state it leaves is well-formed and solvent again, whatever
    part of what [withdraw] asks for the validator contract pays.  The validator
    contract must keep [ValidatorPromise] (in states that it reaches its functions
    do not panic, and pay no more than they take from what it holds for the
    contract); calls are those of [delegation_solvent] ([goodCall], [coveredCall]). *)
Theorem delegation_call_safe n e0 e args :
  reachable (CH:=assets) self n e0 → (n + 1 < 2 ^ 64)%Z → between (CH:=assets) (valueOf args) e0 e →
  goodCall self args → coveredCall args →
  ∃ code e', answer (Execute (Some args) e).1 = Some code ∧ (Execute (Some args) e).2 = e' ∧
    (code = Ok → solvent (CH:=assets) self (n + 1) e').
Proof.
  intros Hr Hn Hbt Hcall Hcov.
  pose proof (reachable_solvent (CH:=assets) self Hself n e0 Hr ltac:(lia)) as Hs.
  pose proof (solvent_call (CH:=assets) self Hself n e0 e args Hs Hn Hbt Hcall Hcov) as Hh.
  unfold handled, run, wp, exits in Hh.
  destruct (Execute (Some args) e) as [[c|c|] e']; [..|done]; by exists c, e'.
Qed.
End contract.

Section state.
Context {E : Type} {EI : SystemEI E} {EIL : SystemEILaws E}.
Context {CH : ContractHost E} {CHL : ContractHostLaws E}.
Context {DC : DelegationContract} {DL : DelegationLaws}.
Context (self : bytes) (Hself : delegationMgrSCAddress ≠ self).
Context (h : BlockchainHook) (mg : DelegationManagement) (Hset : Setting h mg).
Context (bound : Z) (m : Store) (us : gmap bytes User) (e : E) (b : Z).
Context (HS : HeapState h self mg e m b) (HB : Books (CurrentEpoch h) bound m us).
Context (Hb : (bound + 1 < 2 ^ 64)%Z).
#[local] Instance unready_host_laws : @ContractHostLaws E EI unready := unready_laws.

(** neither claiming nor computing rewards calls another contract *)
Lemma unready_heap : Heap (CH:=unready) h self mg e m b.
Proof. split; [|done]. destruct HS. by split. Qed.
(** the same state, where the losses of [c] and [a] are observed *)
Lemma payments_heap {RC : Receipts E} c a :
  Heap (CH := observing (CH:=unready) (payments c a)) h self mg e m (payments c a e).
Proof. split; [|done]. destruct HS. by split. Qed.

(** C12: the computation of a user's rewards ends without an error and without
    a change of the state.  It credits exactly the user's shares of the rewards
    of all epochs since the user's checkpoint (the part of the rewards in
    proportion to the stake, rounded down, and for the owner the service fee),
    and moves the checkpoint behind the current epoch, so that no epoch is
    credited twice. *)
Theorem computeAndUpdateRewards_settles a u :
  us !! a = Some u →
  computeAndUpdateRewards a (toDelegator u) e =
  (Ret (toDelegator (settle (CurrentEpoch h) (stRewards m) (bool_decide (a = stOwner m)) u)), e).
Proof.
  intros Hu. pose (Q := λ d e', d = toDelegator (settle (CurrentEpoch h) (stRewards m)
    (bool_decide (a = stOwner m)) u) ∧ e' = e).
  assert (run (λ _ _, False) (computeAndUpdateRewards a (toDelegator u)) Q e) as Hrun.
  { eapply (run_computeAndUpdateRewards (CH:=unready));
      [apply Hset..|exact unready_heap|apply HB|lia|exact Hu|done]. }
  unfold run, wp in Hrun. destruct (computeAndUpdateRewards _ _ e) as [[d|x|] e']; [|done..].
  destruct Hrun as [Hd He]. simpl in Hd, He. by rewrite Hd He.
Qed.

(** C7: [claimRewards] pays the caller exactly what it is owed.  Answered [Ok],
    the caller has received its unclaimed and pending rewards and no other account
    has received anything; the contract's balance and its debts are lower by
    them, the caller has nothing left to claim (or is deleted, when it has no
    funds), and every other user is as it was. *)
Theorem claimRewards_pays {RC : Receipts E} {RCL : ReceiptsLaws E} args u :
  goodCall self args → us !! callerOf args = Some u →
  handled (λ e', paidTo (callerOf args) (due m (callerOf args) u) e e' ∧
      ∃ m' us', HeapState h self mg e' m' (b - due m (callerOf args) u) ∧
      Books (CurrentEpoch h) (bound + 1) m' us' ∧
      owed m' us' = (owed m us - due m (callerOf args) u)%Z ∧
      (∀ a, a ≠ callerOf args → us' !! a = us !! a) ∧
      (us' !! callerOf args = None ∨ ∃ u', us' !! callerOf args = Some u' ∧ uUnClaimed u' = 0%Z ∧
         uCheckpoint u' = (CurrentEpoch h + 1)%Z ∧ userFunds u' = userFunds u))
    (claimRewards args) e.
Proof.
  intros Hcall Hu. apply handled_and.
  - eapply handled_mono; [apply (handled_all (λ a e', payments (callerOf args) a e' =
      (payments (callerOf args) a e - due m (callerOf args) u)%Z))|intros e'; apply paidTo_observed].
    intros a. pose proof (unready_receipts (E:=E)) as Hrc.
    pose proof (payments_host (CH:=unready) (callerOf args) a) as Hh.
    pose proof (payments_transfers (CH:=unready) (callerOf args) a) as Ht.
    eapply handled_mono; [by apply (claimRewards_paid (CH:=observing (CH:=unready) (payments (callerOf args) a))
      h self mg Hself Hset bound m us e _ (payments_heap _ _) HB Hb args Hcall u)|].
    intros e' (m' & us' & HH' & _). exact (hp_balance _ _ _ _ _ _ HH').
  - eapply handled_mono; [by apply (claimRewards_paid (CH:=unready) h self mg Hself Hset bound m us e b
      unready_heap HB Hb args Hcall u)|].
    intros e' (m' & us' & [HH' _] & HB' & Howed & Hus). exists m', us'.
    split_and!; [destruct HH'; by split|done..| |].
    + intros a Ha. destruct Hus as [->| ->]; [by apply lookup_insert_ne|by apply lookup_delete_ne].
    + destruct Hus as [->| ->]; [right|left; by apply lookup_delete_eq].
      eexists. split; [apply lookup_insert_eq|done].
Qed.
End state.

(** ** Witnesses in the concrete world *)
Section witnesses.
#[local] Instance witness_contract : DelegationContract := demoDelegation false.
#[local] Instance witness_host : SystemEI World := worldEI honestValidator.

Lemma delegation_solvent_witness : reachable (CH:=world_assets) demoSelf 5 demoWorld ∧ ∃ mg m us,
  Heap (CH:=world_assets) (hookOf demoWorld) demoSelf mg demoWorld m (balanceOf demoWorld + heldFor demoWorld) ∧
  Books (CurrentEpoch (hookOf demoWorld)) 5 m us ∧
  (mapSum (due m) us + mapSum (λ _, unStakedValue) us ≤ balanceOf demoWorld + heldFor demoWorld)%Z.
Proof.
  split; [exact demoWorld_reachable|].
  exact (delegation_solvent demoSelf demo_other 5 demoWorld demoWorld_reachable eq_refl).
Defined.

Lemma delegation_call_safe_witness : ∃ code e',
  answer (Execute (Some demoClaim.2) (pass 1 0 rewardedWorld)).1 = Some code ∧
  (Execute (Some demoClaim.2) (pass 1 0 rewardedWorld)).2 = e' ∧
  (code = Ok → solvent (CH:=world_assets) demoSelf 4 e').
Proof.
  apply (delegation_call_safe demoSelf demo_other 3 rewardedWorld).
  - exact demo_rewarded.
  - done.
  - exact rewarded_between.
  - exact claim_good.
  - exact claim_covered.
Defined.

Lemma computeAndUpdateRewards_settles_witness : ∃ m u,
  computeAndUpdateRewards demoUser (toDelegator u) rewardedWorld =
  (Ret (toDelegator (settle 1 (stRewards m) (bool_decide (demoUser = stOwner m)) u)), rewardedWorld).
Proof.
  destruct rewarded_state as (m & us & u & Hset & [HH _] & HB & Hu). exists m, u.
  apply rewarded_account in HH.
  exact (computeAndUpdateRewards_settles demoSelf (hookAt 1) demoManagement Hset 3 m us
           rewardedWorld 300 HH HB eq_refl demoUser u Hu).
Defined.

(** 300 is distributed, a tenth of it to the owner, and a third of the stake is
    the user's: the user is owed 90, and nobody else is paid *)
Lemma claimRewards_pays_witness : ∃ m (us : gmap bytes User) u,
  us !! demoUser = Some u ∧ due m demoUser u = 90%Z ∧
  answersOk (claimRewards demoClaim.2) rewardedWorld claimedWorld ∧
  paidTo demoUser 90 rewardedWorld claimedWorld.
Proof.
  destruct rewarded_state as (m & us & u & Hset & [HH _] & HB & Hu). exists m, us, u.
  apply rewarded_account in HH.
  pose proof (handled_answer _ _ _ claimedWorld
    (claimRewards_pays demoSelf demo_other (hookAt 1) demoManagement Hset 3 m us
       rewardedWorld 300 HH HB eq_refl demoClaim.2 u claim_good Hu) claimed_ok)
    as (Hpaid & m' & us' & HH' & _).
  pose proof (eq_trans (eq_sym claimed_balance) (hs_balance _ _ _ _ _ _ HH')) as Hbal.
  assert (∀ d, 210 = 300 - d → d = 90)%Z as Hd by lia. pose proof (Hd _ Hbal) as Hdue.
  split_and!; [exact Hu|exact Hdue|exact claimed_ok|]. rewrite -Hdue. exact Hpaid.
Defined.
End witnesses.

Section flaws.
Context {E : Type} {EI : SystemEI E} {EIL : SystemEILaws E} {DC : DelegationContract}.

(** C37: a withdrawal that the validator contract answers with less than was
    asked for loses funds.  The loop of [withdraw] over the user's unstaked
    funds stops at the first matured fund [kf] that the answer does not cover.
    The list of unstaked funds the user is left with are the unripe funds in
    front of [kf], and neither [kf] nor any fund behind it, matured or not.  The
    funds behind it stay stored as they were; the record of [kf] is left the
    part [rest] that the answer did cover, instead of the part that is still due
    (and is deleted when [rest] is nothing). *)
Theorem withdrawLoop_forgets_funds epoch period fs actual (e : E) :
  fundsAt fs e → (0 ≤ actual < maturedValue epoch period fs)%Z →
  run (exits (λ _, False)) (withdrawLoop fs.*1 epoch period actual 0 [] [])
    (λ r e', ∃ pre kf post rest, fs = pre ++ kf :: post ∧ matured epoch period kf = true ∧
       actual = (maturedValue epoch period pre + rest)%Z ∧ (0 ≤ rest < amount kf.2)%Z ∧
       r.1 = (List.filter (λ kf, negb (matured epoch period kf)) pre).*1 ∧
       (∀ k, k ∈ (kf :: post).*1 → k ∉ r.1) ∧
       (∃ d, GetStorage kf.1 e' = Some d ∧ savedFund (withFundValue (Some rest) kf.2) d) ∧
       ∀ kf', kf' ∈ post → GetStorage kf'.1 e' = GetStorage kf'.1 e) e.
Proof.
  intros Hfs Ha. eapply run_mono; [by apply run_withdrawLoop_stops|].
  intros [t p] e' (pre & kf & post & rest & -> & Hm & Hact & Hrest & -> & _ & Hd & Hpost).
  rewrite Z.sub_0_r in Hact. exists pre, kf, post, rest.
  split_and!; try first [done|lia]. intros k Hk (x & -> & Hx)%list_elem_of_fmap.
  destruct Hfs as [Hnd _]. rewrite fmap_app in Hnd. apply NoDup_app in Hnd as (_ & Hd' & _).
  eapply Hd'; [|exact Hk]. apply list_elem_of_fmap. exists x. split; [done|].
  revert Hx. rewrite !list_elem_of_In filter_In. by intros [? _].
Qed.

(** C38: with automatic activation a node that the validator contract refused
    counts as staked.  Whatever the validator contract answers about the nodes
    (their BLS keys are longer than eight bytes), every node that
    [makeStakeArgsIfAutomaticActivation] sent is in the list of staked keys
    afterwards: the answers are compared with the length of the first
    argument, which is the number of nodes and not a key. *)
Theorem automaticActivation_ignores_failures config status globalFund args returnData (e e' e1 : E) :
  (0 ≤ GasLeft e)%Z → (0 ≤ gasStake)%Z →
  makeStakeArgsIfAutomaticActivation (X:=ReturnCode) config status globalFund e = (Ret args, e') →
  args ≠ [] → Nat.Even (length returnData) →
  Forall (λ key, 8 < length key) (reportedKeys returnData) →
  run anyError (updateDelegationStatusAfterStake status returnData args)
    (λ status' _, ∀ k, k ∈ args → k ≠ hd [] args → knownKey k status → stakedKey k status') e1.
Proof.
  intros Hg Hs Hargs Hne Heven Hr.
  destruct (makeStakeArgs_shape config status globalFund e e' args Hg Hs Hargs)
    as [->|(n & nodes & -> & Hn)]; [done|].
  eapply run_mono; [apply run_updateAfterStake; [done|]|].
  - eapply Forall_impl; [exact Hr|]. simpl. lia.
  - intros s' e2 Hk k Hin Hhd. apply elem_of_cons in Hin as [Heq|Hin]; [done|by apply Hk].
Qed.
End flaws.

Section flaw_witnesses.
#[local] Instance flaw_contract : DelegationContract := demoDelegation true.
#[local] Instance flaw_host : SystemEI World := worldEI honestValidator.

(** 150 is paid of 200 and 100: the first fund is left 150, the second is forgotten *)
Lemma withdrawLoop_forgets_funds_witness :
  run (exits (λ _, False)) (withdrawLoop demoFunds.*1 5 2 150 0 [] [])
    (λ r e', ∃ pre kf post rest, demoFunds = pre ++ kf :: post ∧ matured 5 2 kf = true ∧
       150%Z = (maturedValue 5 2 pre + rest)%Z ∧ (0 ≤ rest < amount kf.2)%Z ∧
       r.1 = (List.filter (λ kf, negb (matured 5 2 kf)) pre).*1 ∧
       (∀ k, k ∈ (kf :: post).*1 → k ∉ r.1) ∧
       (∃ d, GetStorage kf.1 e' = Some d ∧ savedFund (withFundValue (Some rest) kf.2) d) ∧
       ∀ kf', kf' ∈ post → GetStorage kf'.1 e' = GetStorage kf'.1 fundsWorld) fundsWorld.
Proof.
  apply (withdrawLoop_forgets_funds 5 2 demoFunds 150 fundsWorld).
  - exact demoFunds_stored.
  - by vm_compute.
Defined.

Lemma automaticActivation_ignores_failures_witness :
  run anyError (updateDelegationStatusAfterStake jailedStatus jailedAnswer jailedArgs)
    (λ status' _, ∀ k, k ∈ jailedArgs → k ≠ hd [] jailedArgs → knownKey k jailedStatus →
       stakedKey k status') (newWorld 1000).
Proof.
  apply (automaticActivation_ignores_failures jailedConfig jailedStatus jailedFund jailedArgs
           jailedAnswer (newWorld 1000) (newWorld 1000)); [done|done|..].
  - exact jailed_args.
  - done.
  - by exists 1.
  - by repeat constructor.
Defined.
End flaw_witnesses.
