(* ===== verification/ValidatorData.v ===== *)
(** * ValidatorData: the validator contract's stored data

    The messages of validator.proto, the fields of the struct [validatorSC]
    and the load/save methods of validatorSaveLoad.go, with the methods of
    validator.go that several handlers share. *)
From Stdlib Require Import Floats.SpecFloat.
From S2P Require Import Prelude SystemEI StakingData StakingNodes DelegationData.
#[local] Open Scope go_scope.

(** ** Messages (validator.proto); a [*big.Int] may be nil *)
Record ValidatorDataV1 : Type := mkValidatorDataV1 {
  v1_RegisterNonce : Z;
  v1_Epoch : Z;
  v1_RewardAddress : bytes;
  v1_TotalStakeValue : option Z;
  v1_LockedStake : option Z;
  v1_MaxStakePerNode : option Z;
  v1_BlsPubKeys : list bytes;
  v1_NumRegistered : Z;
}.
Record ValidatorConfig : Type := mkValidatorConfig {
  MinStakeValue : option Z;
  TotalSupply : option Z;
  MinStep : option Z;
  NodePrice : option Z;
  UnJailPrice : option Z;
}.
Definition zeroValidatorConfig : ValidatorConfig := mkValidatorConfig None None None None None.

(** ** Field updates: the assignments [d.F = v] of the code *)
Definition withValEpoch v (d : ValidatorDataV2) :=
  let 'mkValidatorData rn ep ra ts ls ms ks nr ui tu sl := d in
  mkValidatorData rn v ra ts ls ms ks nr ui tu sl.
Definition withValRewardAddress v (d : ValidatorDataV2) :=
  let 'mkValidatorData rn ep ra ts ls ms ks nr ui tu sl := d in
  mkValidatorData rn ep v ts ls ms ks nr ui tu sl.
Definition withTotalStakeValue v (d : ValidatorDataV2) :=
  let 'mkValidatorData rn ep ra ts ls ms ks nr ui tu sl := d in
  mkValidatorData rn ep ra v ls ms ks nr ui tu sl.
Definition withLockedStake v (d : ValidatorDataV2) :=
  let 'mkValidatorData rn ep ra ts ls ms ks nr ui tu sl := d in
  mkValidatorData rn ep ra ts v ms ks nr ui tu sl.
Definition withMaxStakePerNode v (d : ValidatorDataV2) :=
  let 'mkValidatorData rn ep ra ts ls ms ks nr ui tu sl := d in
  mkValidatorData rn ep ra ts ls v ks nr ui tu sl.
Definition withBlsPubKeys v (d : ValidatorDataV2) :=
  let 'mkValidatorData rn ep ra ts ls ms ks nr ui tu sl := d in
  mkValidatorData rn ep ra ts ls ms v nr ui tu sl.
Definition withNumRegistered v (d : ValidatorDataV2) :=
  let 'mkValidatorData rn ep ra ts ls ms ks nr ui tu sl := d in
  mkValidatorData rn ep ra ts ls ms ks v ui tu sl.
Definition withUnstakedInfo v (d : ValidatorDataV2) :=
  let 'mkValidatorData rn ep ra ts ls ms ks nr ui tu sl := d in
  mkValidatorData rn ep ra ts ls ms ks nr v tu sl.
Definition withTotalUnstaked v (d : ValidatorDataV2) :=
  let 'mkValidatorData rn ep ra ts ls ms ks nr ui tu sl := d in
  mkValidatorData rn ep ra ts ls ms ks nr ui v sl.
Definition withUnstakedAmount v (u : UnstakedValue) := mkUnstaked (UnstakedEpoch u) v.

(** ** The contract's parameters *)
Inductive ValidatorFlag : Type :=
  | ValStakingV2Flag
  | ValStakeFlag
  | ValValidatorToDelegationFlag
  | DoubleKeyProtectionFlag
  | MultiClaimOnDelegationFlag
  | DelegationManagerFlag
  | UnBondTokensV2Flag
  | StakeLimitsFlag.

(** The fields of [validatorSC]; the flags are those of the epoch the call runs
    in.  The signature verifier, the marshaller, the shard coordinator, the
    nodes coordinator, the test for contract addresses and the names of the
    return codes are not of this program or not of this component. *)
Class ValidatorContract : Type := {
  valUnBondPeriodInEpochs : Z;
  sigVerify : bytes → bytes → bytes → error + unit;
  valBaseConfig : ValidatorConfig;
  stakingSCAddress : bytes;
  validatorSCAddress : bytes;
  valWalletAddressLen : nat;
  gasUnJail : Z;
  gasChangeRewardAddress : Z;
  gasGet : Z;
  gasStakeNode : Z;
  gasAllNodeStates : Z;
  gasUnStake : Z;
  gasUnBond : Z;
  gasClaim : Z;
  gasUnStakeTokens : Z;
  gasUnBondTokens : Z;
  minUnstakeTokensValue : Z;
  valMinDeposit : Z;
  endOfEpochAddress : bytes;
  valDelegationMgrSCAddress : bytes;
  ComputeId : bytes → Z;
  validatorFlag : ValidatorFlag → bool;
  GetNumTotalEligible : Z;
  totalStakeLimit : Z;
  nodeLimitPercentage : float64;
  isContractAddress : bytes → bool;
  returnCodeString : ReturnCode → string;
  validatorV2_marshaller :: Marshaller ValidatorDataV2;
  validatorV1_marshaller :: Marshaller ValidatorDataV1;
  validatorConfig_marshaller :: Marshaller ValidatorConfig;
  valStakedData_marshaller :: Marshaller StakedDataV2_0;
  valManagement_marshaller :: Marshaller DelegationManagement;
}.

Definition unJailedFunds : bytes := toBytes "unJailFunds".
Definition unStakeUnBondPauseKey : bytes := toBytes "unStakeUnBondPause".
(** src/vm/address.go *)
Definition JailingAddress : bytes := replicate 9 x00 ++ [x01] ++ replicate 6 x00 ++ replicate 16 xff.
Definition EndOfEpochAddress : bytes := replicate 9 x00 ++ [x01] ++ replicate 5 x00 ++ replicate 17 xff.

(** vm/errors.go and vm/consts.go *)
Definition ErrInvalidMinStakeValue : error := "invalid min stake value".
Definition ErrInvalidNodePrice : error := "invalid node price".
Definition ErrInvalidMinStepValue : error := "invalid min step value".
Definition ErrBLSPublicKeyMissmatch : error := "public key missmatch".
Definition ErrKeyAlreadyRegistered : error := "bls key already registered".
Definition ErrNotEnoughArgumentsToStake : error := "not enough arguments to stake".
Definition ErrIncorrectConfig : error := "config incorrect".
Definition ErrInvalidUnJailCost : error := "invalid unjail cost".
Definition ErrInvalidGenesisTotalSupply : error := "invalid genesis total supply cost".
Definition ErrBLSPublicKeyAlreadyJailed : error := "bls public key already jailed".
Definition ErrWrongRewardAddress : error := "wrong reward address".
Definition InsufficientGasLimit : string := "insufficient gas limit".
Definition StakeNotEnabled : string := "stake is not enabled".
Definition UnBondNotEnabled : string := "unBond is not enabled".
Definition UnStakeNotEnabled : string := "unStake is not enabled".
Definition CannotGetOrCreateRegistrationData : string :=
  "cannot get or create registration data: error - ".
Definition CannotGetAllBlsKeysFromRegistrationData : string :=
  "could not get all blsKeys from registration data: error - ".
Definition CannotSaveRegistrationData : string := "cannot save registration data: error ".

(** [float64 * float64] and [int(x)] of a float in the range of [int] *)
Definition float64Mul (x y : float64) : float64 := SFmul 53 1024 x y.
Definition intOfFloat64 (x : float64) : Z :=
  match x with
  | S754_finite s m e => (if s then -1 else 1) * Z.shiftl (Zpos m) e
  | _ => 0
  end%Z.

Section data.
Context {E : Type} {EI : SystemEI E} {VC : ValidatorContract}.

(** [if err := UseGas(g); err != nil { AddReturnMessage(msg); return OutOfGas }] *)
Definition chargeGas (g : Z) : M E ReturnCode unit := λ e,
  match UseGas g e with
  | None => (addReturnMessage InsufficientGasLimit ;;; throw OutOfGas) e
  | Some e' => (Ret tt, e')
  end.

(** ** Configuration (validatorSaveLoad.go) *)
Definition checkConfigCorrectness (config : ValidatorConfig) : error + unit :=
  let wrong field := inl (ErrIncorrectConfig ++ " for " ++ field)%string in
  match MinStakeValue config, NodePrice config, TotalSupply config, MinStep config,
        UnJailPrice config with
  | None, _, _, _, _ => wrong "MinStakeValue"%string
  | _, None, _, _, _ => wrong "NodePrice"%string
  | _, _, None, _, _ => wrong "GenesisTotalSupply"%string
  | _, _, _, None, _ => wrong "MinStep"%string
  | _, _, _, _, None => wrong "UnJailPrice"%string
  | _, _, _, _, _ => inr tt
  end.

Definition getConfig {X} (epoch : Z) : M E X ValidatorConfig :=
  let epochKey := bigBytes epoch in
  let! configData := readStorage epochKey in
  match configData with
  | [] => ret valBaseConfig
  | _ =>
    match Unmarshal zeroValidatorConfig configData with
    | inl _ => ret valBaseConfig
    | inr validatorConfig =>
      match checkConfigCorrectness validatorConfig with
      | inr _ => ret validatorConfig
      | inl _ =>
        match Marshal valBaseConfig with
        | inl _ => ret valBaseConfig
        | inr baseConfigData => setStorage epochKey baseConfigData ;;; ret valBaseConfig
        end
      end
    end
  end.
(** [v.getConfig(v.eei.BlockChainHook().CurrentEpoch())] *)
Definition currentConfig {X} : M E X ValidatorConfig :=
  let! epoch := currentEpoch in getConfig epoch.

Definition verifyConfig (validatorConfig : ValidatorConfig) : M E ReturnCode unit :=
  let positive value err :=
    let! v := deref value in
    returnIf (v <=? 0)%Z (err ++ ", value is " ++ pretty v)%string UserError in
  positive (MinStakeValue validatorConfig) ErrInvalidMinStakeValue ;;;
  positive (TotalSupply validatorConfig) ErrInvalidGenesisTotalSupply ;;;
  positive (MinStep validatorConfig) ErrInvalidMinStepValue ;;;
  positive (NodePrice validatorConfig) ErrInvalidNodePrice ;;;
  positive (UnJailPrice validatorConfig) ErrInvalidUnJailCost.

Definition setConfig (args : ContractCallInput) : handler E :=
  let! ownerAddress := readStorage ownerKey in
  returnIf (negb (bool_decide (ownerAddress = callerOf args)))
    "setConfig function was not called by the owner address" UserError ;;;
  returnIf (negb (length (Arguments args) =? 6))
    ("setConfig function called with wrong number of arguments expected 7, got "
     ++ pretty (Z.of_nat (length (Arguments args)))) UserError ;;;
  let number i := Some (setBytes (arg args i)) in
  let validatorConfig := mkValidatorConfig (number 0) (number 1) (number 2) (number 3) (number 4) in
  verifyConfig validatorConfig ;;;
  match Marshal validatorConfig with
  | inl _ => addReturnMessage "setConfig marshal validatorConfig error" ;;; ret UserError
  | inr configData => setStorage (arg args 5) configData ;;; ret Ok
  end.

(** ** Registrations (validatorSaveLoad.go) *)
Definition newRegistration : ValidatorDataV2 :=
  mkValidatorData 0 0 [] (Some 0%Z) (Some 0%Z) (Some 0%Z) [] 0 [] (Some 0%Z) None.
Definition fixTotalUnstaked (d : ValidatorDataV2) : ValidatorDataV2 :=
  match TotalUnstaked d with None => withTotalUnstaked (Some 0%Z) d | Some _ => d end.

Definition getOrCreateRegistrationData (key : bytes) : M E error ValidatorDataV2 :=
  let! data := readStorage key in
  let! registrationData :=
    match data with
    | [] => ret newRegistration
    | _ => fromSum (Unmarshal newRegistration data)
    end in
  ret (fixTotalUnstaked registrationData).

Definition saveRegistrationDataV1 (key : bytes) (validator : ValidatorDataV2) : M E error unit :=
  let! data := fromSum (Marshal
    (mkValidatorDataV1 (valRegisterNonce validator) (valEpoch validator)
       (valRewardAddress validator) (TotalStakeValue validator) (LockedStake validator)
       (MaxStakePerNode validator) (BlsPubKeys validator) (NumRegistered validator))) in
  setStorage key data.

Definition saveRegistrationData (key : bytes) (validator : ValidatorDataV2) : M E error unit :=
  if negb (validatorFlag ValStakingV2Flag) then saveRegistrationDataV1 key validator
  else
    let! data := fromSum (Marshal validator) in
    setStorage key data.

Definition noStakedData : StakedDataV2_0 :=
  mkStakedData 0 0 false 0 DefaultUnstakedEpoch [] (Some 0%Z) 0 0 0 false false 0 (Some 0%Z) [].

Definition getStakedData (key : bytes) : M E error StakedDataV2_0 :=
  let! data := readStorageFrom stakingSCAddress key in
  match data with
  | [] => ret noStakedData
  | _ =>
    let! stakedData := fromSum (Unmarshal noStakedData data) in
    ret (fixSlashValue stakedData)
  end.

(** [getDelegationManagement] of delegation.go *)
Definition getManagement : M E error DelegationManagement :=
  let! marshaledData := readStorageFrom valDelegationMgrSCAddress delegationManagementKey in
  match marshaledData with
  | [] => throw (ErrDataNotFoundUnderKey ++ " getDelegationManagementData")%string
  | _ => fromSum (Unmarshal zeroManagement marshaledData)
  end.

(** ** Calls of the staking contract *)
Definition stakingCall (function : string) (args : list bytes) : bytes :=
  toBytes (foldl (λ call key, call ++ ("@" ++ hexString key))%string function args).
Definition executeOnStakingSC (data : bytes) : M E error CallOutput :=
  ExecuteOnDestContext stakingSCAddress validatorSCAddress 0 data.
Definition finishKey {X} (blsKey : bytes) (code : byte) : M E X unit :=
  finish blsKey ;;; finish [code].

(** ** What handlers share *)
Definition isUnStakeUnBondPaused (e : E) : bool :=
  match orEmpty (GetStorage unStakeUnBondPauseKey e) with
  | [] => false
  | b :: _ => bool_decide (b = x01)
  end.
Definition returnIfPaused : M E ReturnCode unit :=
  let! paused := gets isUnStakeUnBondPaused in
  returnIf paused "unStake/unBond is paused as not enough total staked in protocol" UserError.

Definition addToUnJailFunds {X} (value : Z) : M E X unit :=
  let! storageData := readStorage unJailedFunds in
  let currentValue := match storageData with [] => 0%Z | _ => setBytes storageData end in
  setStorage unJailedFunds (bigBytes (currentValue + value)).

(** the messages [CallValue must be 0] *)
Definition returnIfPaid (args : ContractCallInput) (msg : string) : M E ReturnCode unit :=
  returnIf (negb (valueOf args =? 0)%Z) msg UserError.

(** common.go *)
Fixpoint verifyBLSPublicKeys (registrationData : ValidatorDataV2) (arguments : list bytes) :
    error + unit :=
  match arguments with
  | [] => inr tt
  | argKey :: rest =>
    if bool_decide (argKey ∈ BlsPubKeys registrationData)
    then verifyBLSPublicKeys registrationData rest
    else inl (ErrBLSPublicKeyMismatch ++ ", key " ++ hexString argKey ++ " not found")%string
  end.
Definition isNumArgsCorrectToStake (args : list bytes) : bool :=
  let maxNodesToRun := bigUint64 (setBytes (nth 0 args [])) in
  let lenArgs := Z.of_nat (length args) in
  (u64 (2 * maxNodesToRun + 1) <=? lenArgs)%Z && (lenArgs <=? u64 (2 * maxNodesToRun + 1 + 2))%Z.

Definition isStakeTooHigh {X} (registrationData : ValidatorDataV2) : M E X bool :=
  if negb (validatorFlag StakeLimitsFlag) then ret false
  else
    let! total := deref (TotalStakeValue registrationData) in
    ret (totalStakeLimit <? total)%Z.
Definition computeNodeLimit : Z :=
  intOfFloat64 (float64Mul (float64OfUint64 GetNumTotalEligible) nodeLimitPercentage).
Definition isNumberOfNodesTooHigh (numNodes : nat) : bool :=
  validatorFlag StakeLimitsFlag && (computeNodeLimit <? Z.of_nat numNodes)%Z.
End data.
