(* ===== verification/ValidatorNodes.v ===== *)
(** * ValidatorNodes: the nodes of a validator (validator.go)

    The handlers that register, stake, unstake, unbond and unjail nodes by
    calls of the staking contract. *)
From Stdlib Require Import Floats.SpecFloat.
From S2P Require Import Prelude SystemEI StakingData StakingNodes DelegationData ValidatorData.
#[local] Open Scope go_scope.

Section nodes.
Context {E : Type} {EI : SystemEI E} {VC : ValidatorContract}.

(** ** Unjailing *)
Definition unJailV1 (args : ContractCallInput) : handler E :=
  returnIf (length (Arguments args) =? 0) "invalid number of arguments: expected min 1, got 0"
    UserError ;;;
  let! validatorConfig := currentConfig in
  let! unJailPrice := deref (UnJailPrice validatorConfig) in
  let numArgs := Z.of_nat (length (Arguments args)) in
  returnIf (negb (unJailPrice * numArgs =? valueOf args)%Z) "insufficient funds sent for unJail"
    UserError ;;;
  chargeGas (u64 (gasUnJail * numArgs)) ;;;
  let! registrationData := orReturn (getOrCreateRegistrationData (callerOf args))
    "cannot get or create registration data: error " UserError in
  match verifyBLSPublicKeys registrationData (Arguments args) with
  | inl _ =>
    addReturnMessage ("could not get all blsKeys from registration data: error "
      ++ ErrBLSPublicKeyMissmatch) ;;;
    ret UserError
  | inr _ =>
    forEach (Arguments args) (λ blsKey,
      let! vmOutput := attempt (executeOnStakingSC (stakingCall "unJail" [blsKey])) in
      match vmOutput with
      | inl err => addReturnMessage err ;;; finishKey blsKey failed
      | inr vmOutput =>
        if negb (bool_decide (outReturnCode vmOutput = Ok)) then finishKey blsKey failed
        else ret tt
      end) ;;;
    ret Ok
  end.

Definition unJail (args : ContractCallInput) : handler E :=
  if negb (validatorFlag ValStakeFlag) then unJailV1 args
  else
    returnIf (length (Arguments args) =? 0) "invalid number of arguments: expected at least 1"
      UserError ;;;
    let! validatorConfig := currentConfig in
    let! unJailPrice := deref (UnJailPrice validatorConfig) in
    let numBLSKeys := Z.of_nat (length (Arguments args)) in
    returnIf (negb (unJailPrice * numBLSKeys =? valueOf args)%Z)
      "wanted exact unjail price * numNodes" UserError ;;;
    chargeGas (u64 (gasUnJail * numBLSKeys)) ;;;
    let! registrationData := orReturn (getOrCreateRegistrationData (callerOf args))
      CannotGetOrCreateRegistrationData UserError in
    orReturn (fromSum (verifyBLSPublicKeys registrationData (Arguments args)))
      CannotGetAllBlsKeysFromRegistrationData UserError ;;;
    let! transferBack := foldEach (Arguments args) 0%Z (λ transferBack blsKey,
      let! vmOutput := attempt (executeOnStakingSC (stakingCall "unJail" [blsKey])) in
      let success := match vmOutput with
                     | inl _ => false
                     | inr vmOutput => bool_decide (outReturnCode vmOutput = Ok)
                     end in
      if (success : bool) then ret transferBack
      else finishKey blsKey failed ;;; ret (transferBack + unJailPrice)%Z) in
    (if (0 <? transferBack)%Z then transfer (callerOf args) (recipientOf args) transferBack
     else ret tt) ;;;
    addToUnJailFunds (valueOf args - transferBack) ;;;
    ret Ok.

(** ** Registering keys *)
Definition getBLSRegisteredData (blsKey : bytes) : M E error CallOutput :=
  executeOnStakingSC (stakingCall "get" [blsKey]).

Definition getNewValidKeys (registeredKeys keysFromArgument : list bytes) :
    M E error (list bytes) :=
  let newKeys := filter (λ k, k ∉ registeredKeys) keysFromArgument in
  forEach newKeys (λ newKey,
    if negb (validatorFlag ValStakingV2Flag) then
      let! vmOutput := attempt (getBLSRegisteredData newKey) in
      match vmOutput with
      | inl _ => throw ErrKeyAlreadyRegistered
      | inr vmOutput =>
        match outReturnData vmOutput with
        | (_ :: _) :: _ => throw ErrKeyAlreadyRegistered
        | _ => ret tt
        end
      end
    else
      let! buff := readStorageFrom stakingSCAddress newKey in
      if 0 <? length buff then throw ErrKeyAlreadyRegistered else ret tt) ;;;
  ret newKeys.

(** the keys of the pairs [args[1], args[2]], ..., with the invalid ones *)
Fixpoint verifiedLoop {X} (txPubKey : bytes) (pairs : list bytes) (maxNodesToRun : nat)
    (blsKeys invalidBlsKeys : list bytes) : M E X (list bytes * list bytes) :=
  match maxNodesToRun with
  | O => ret (blsKeys, invalidBlsKeys)
  | S maxNodesToRun =>
    match pairs with
    | blsKey :: signedMessage :: pairs =>
      match sigVerify txPubKey signedMessage blsKey with
      | inl _ =>
        finishKey blsKey invalidKey ;;;
        verifiedLoop txPubKey pairs maxNodesToRun blsKeys (invalidBlsKeys ++ [blsKey])
      | inr _ => verifiedLoop txPubKey pairs maxNodesToRun (blsKeys ++ [blsKey]) invalidBlsKeys
      end
    | _ => panic
    end
  end.
Definition getVerifiedBLSKeysFromArgs {X} (txPubKey : bytes) (args : list bytes) :
    M E X (list bytes) :=
  let maxNodesToRun := bigUint64 (setBytes (nth 0 args [])) in
  let! ' (blsKeys, invalidBlsKeys) :=
    verifiedLoop txPubKey (tail args) (Z.to_nat maxNodesToRun) [] [] in
  (if negb (length invalidBlsKeys =? 0)
   then addReturnMessage ("invalid BLS keys: " ++ String.concat ", " (map hexString invalidBlsKeys))
   else ret tt) ;;;
  ret blsKeys.

(** the registrations' data and the newly added keys; [None] where the code
    returns a nil error with nil lists *)
Fixpoint registerLoop (ownerAddress : bytes) (newKeys : list bytes)
    (registrationData : ValidatorDataV2) (newlyAddedKeys : list bytes) :
    M E error (ValidatorDataV2 * option (list bytes)) :=
  match newKeys with
  | [] => ret (registrationData, Some newlyAddedKeys)
  | blsKey :: newKeys =>
    if isNumberOfNodesTooHigh (length (BlsPubKeys registrationData) + 1)
    then ret (registrationData, Some newlyAddedKeys)
    else
      let! vmOutput := attempt (executeOnStakingSC (stakingCall "register"
        [blsKey; valRewardAddress registrationData; ownerAddress; []])) in
      match vmOutput with
      | inl errExec =>
        addReturnMessage ("cannot do register: " ++ errExec) ;;;
        finishKey blsKey failed ;;;
        ret (registrationData, None)
      | inr vmOutput =>
        if negb (bool_decide (outReturnCode vmOutput = Ok)) then
          addReturnMessage ("cannot do register: " ++ returnCodeString (outReturnCode vmOutput)) ;;;
          finishKey blsKey failed ;;;
          throw ErrKeyAlreadyRegistered
        else
          registerLoop ownerAddress newKeys
            (withBlsPubKeys (BlsPubKeys registrationData ++ [blsKey]) registrationData)
            (newlyAddedKeys ++ [blsKey])
      end
  end.

(** the changed registration, the verified keys and the newly added ones *)
Definition registerBLSKeys (registrationData : ValidatorDataV2) (pubKey ownerAddress : bytes)
    (args : list bytes) : M E error (ValidatorDataV2 * list bytes * list bytes) :=
  let maxNodesToRun := bigUint64 (setBytes (nth 0 args [])) in
  if (Z.of_nat (length args) <? u64 (maxNodesToRun + 1))%Z then
    addReturnMessage ("not enough arguments to process stake function: expected min "
      ++ pretty (u64 (maxNodesToRun + 1)) ++ ", got " ++ pretty (Z.of_nat (length args))) ;;;
    throw ErrNotEnoughArgumentsToStake
  else
    let! blsKeys := getVerifiedBLSKeysFromArgs pubKey args in
    let! newKeys := getNewValidKeys (BlsPubKeys registrationData) blsKeys in
    let! ' (registrationData, added) := registerLoop ownerAddress newKeys registrationData [] in
    ret (match added with
         | Some newlyAddedKeys => (registrationData, blsKeys, newlyAddedKeys)
         | None => (registrationData, [], [])
         end).

Definition updateStakeValue (registrationData : ValidatorDataV2) (caller : bytes) : handler E :=
  returnIf ((length (BlsPubKeys registrationData) =? 0) && negb (isContractAddress caller))
    "no bls keys has been provided" UserError ;;;
  let registrationData := if length (valRewardAddress registrationData) =? 0
                          then withValRewardAddress caller registrationData
                          else registrationData in
  orReturn (saveRegistrationData caller registrationData) "cannot save registration data error "
    UserError ;;;
  ret Ok.

Fixpoint doubleLoop (mapKeys : gset bytes) (blsKeys : list bytes) : bool :=
  match blsKeys with
  | [] => false
  | blsKey :: rest => bool_decide (blsKey ∈ mapKeys) || doubleLoop ({[blsKey]} ∪ mapKeys) rest
  end.
Definition checkDoubleBLSKeys (blsKeys : list bytes) : bool := doubleLoop ∅ blsKeys.

(** the keys without repetitions, and whether there were any *)
Fixpoint cleanLoop (mapExistingKeys : gset bytes) (blsKeys newList : list bytes)
    (changesMade : bool) : list bytes * bool :=
  match blsKeys with
  | [] => (newList, changesMade)
  | blsKey :: rest =>
    if bool_decide (blsKey ∈ mapExistingKeys) then cleanLoop mapExistingKeys rest newList true
    else cleanLoop ({[blsKey]} ∪ mapExistingKeys) rest (newList ++ [blsKey]) changesMade
  end.
Definition cleanRegisteredData (args : ContractCallInput) : handler E :=
  returnIf (negb (validatorFlag DoubleKeyProtectionFlag)) "invalid method to call" UserError ;;;
  chargeGas gasStakeNode ;;;
  returnIfPaid args "must be called with 0 value" ;;;
  returnIf (negb (length (Arguments args) =? 0)) "must be called with 0 arguments" UserError ;;;
  let! registrationData := orReturn (getOrCreateRegistrationData (callerOf args))
    CannotGetOrCreateRegistrationData UserError in
  returnQuietIf (length (BlsPubKeys registrationData) <=? 1) Ok ;;;
  let (newList, changesMade) := cleanLoop ∅ (BlsPubKeys registrationData) [] false in
  returnQuietIf (negb changesMade) Ok ;;;
  orReturn (saveRegistrationData (callerOf args) (withBlsPubKeys newList registrationData))
    CannotSaveRegistrationData UserError ;;;
  ret Ok.

(** ** Staking *)
(** whether the node was skipped *)
Definition stakeOneNode {X} (blsKey rewardAddress ownerAddress : bytes) : M E X bool :=
  let! vmOutput := attempt (executeOnStakingSC (stakingCall "stake"
    [blsKey; rewardAddress; ownerAddress])) in
  let cannot why :=
    addReturnMessage ("cannot do stake for key " ++ hexString blsKey ++ ", error " ++ why)%string ;;;
    finishKey blsKey failed ;;;
    ret true in
  match vmOutput with
  | inl err => cannot err
  | inr vmOutput =>
    if negb (bool_decide (outReturnCode vmOutput = Ok))
    then cannot (returnCodeString (outReturnCode vmOutput))
    else
      (if bool_decide (head (outReturnData vmOutput) = Some [waiting])
       then finishKey blsKey waiting else ret tt) ;;;
      ret false
  end.

(** the number of active nodes and the keys of the staked and waiting ones *)
Definition getNumStakedAndWaitingNodes (registrationData : ValidatorDataV2)
    (mapCheckedKeys : gset bytes) (checkJailed : bool) : M E error (Z * list bytes) :=
  (λ e, match UseGas gasAllNodeStates e with
        | None => (Throw ErrNotEnoughGas, e)
        | Some e' => (Ret tt, e')
        end) ;;;
  foldEach (BlsPubKeys registrationData) (0%Z, []) (λ acc blsKey,
    let '(numActiveNodes, listActiveNodes) := acc in
    if bool_decide (blsKey ∈ mapCheckedKeys) then ret acc
    else
      let! stakedData := getStakedData blsKey in
      if checkJailed && Jailed stakedData then throw ErrBLSPublicKeyAlreadyJailed
      else ret (if Staked stakedData || Waiting stakedData || Jailed stakedData
                then u64 (numActiveNodes + 1) else numActiveNodes,
                if Staked stakedData || Waiting stakedData
                then listActiveNodes ++ [blsKey] else listActiveNodes)).

Definition checkAllGivenKeysAreUnStaked (registrationData : ValidatorDataV2)
    (blsKeys : list bytes) : M E error (gset bytes) :=
  if (NumRegistered registrationData <? u32 (Z.of_nat (length blsKeys)))%Z
  then throw (ErrBLSPublicKeyMismatch ++ " arguments must be unStaked blsKeys")%string
  else if negb (bool_decide (Forall (λ k, k ∈ BlsPubKeys registrationData) blsKeys))
  then throw (ErrBLSPublicKeyMismatch ++ " argument is not registered")%string
  else foldEach blsKeys ∅ (λ mapBlsKeys blsKey,
    let! stakedData := getStakedData blsKey in
    if Jailed stakedData || (UnStakedNonce stakedData =? 0)%Z
    then throw (ErrBLSPublicKeyMismatch ++ " arguments is not unStaked blsKeys")%string
    else ret ({[blsKey]} ∪ mapBlsKeys)).

(** [big.Int.Div] by the node price *)
Definition qualifiedNodes {X} (registrationData : ValidatorDataV2)
    (validatorConfig : ValidatorConfig) : M E X Z :=
  let! total := deref (TotalStakeValue registrationData) in
  let! nodePrice := deref (NodePrice validatorConfig) in
  if (nodePrice =? 0)%Z then panic else ret (bigUint64 (bigDiv total nodePrice)).

Definition reStakeUnStakedNodes (args : ContractCallInput) : handler E :=
  returnIf (negb (validatorFlag ValStakingV2Flag)) "invalid method to call" UserError ;;;
  returnIf (length (Arguments args) =? 0) "need arguments of which node to unStake" UserError ;;;
  let numArgs := Z.of_nat (length (Arguments args)) in
  chargeGas (u64 (gasStakeNode * numArgs)) ;;;
  let! validatorConfig := currentConfig in
  let! registrationData := orReturn (getOrCreateRegistrationData (callerOf args))
    CannotGetOrCreateRegistrationData UserError in
  returnIf (isNumberOfNodesTooHigh (length (BlsPubKeys registrationData)))
    "number of nodes is too high" UserError ;;;
  let! numQualified := qualifiedNodes registrationData validatorConfig in
  returnIf (numQualified <? numArgs)%Z "insufficient funds" OutOfFunds ;;;
  let! mapNodesToReStake :=
    orReturn (checkAllGivenKeysAreUnStaked registrationData (Arguments args)) "" UserError in
  let! ' (numStakedAndWaiting, _) :=
    orReturn (getNumStakedAndWaitingNodes registrationData mapNodesToReStake true) "" UserError in
  returnIf (numQualified <? u64 (numStakedAndWaiting + numArgs))%Z
    "insufficient funds to reactivate given nodes" UserError ;;;
  forEach (Arguments args) (λ blsKey,
    stakeOneNode blsKey (valRewardAddress registrationData) (callerOf args) ;;; ret tt) ;;;
  ret Ok.

Fixpoint activateLoop {X} (blsKeys : list bytes) (rewardAddress ownerAddress : bytes)
    (maxNumNodesToActivate numActivatedKey nodesActivated : Z) : M E X (Z * Z) :=
  match blsKeys with
  | [] => ret (numActivatedKey, nodesActivated)
  | currentBLSKey :: blsKeys =>
    let continue :=
      activateLoop blsKeys rewardAddress ownerAddress maxNumNodesToActivate numActivatedKey
        nodesActivated in
    let! stakedData := attempt (getStakedData currentBLSKey) in
    match stakedData with
    | inl _ => continue
    | inr stakedData =>
      if Staked stakedData || Waiting stakedData then continue
      else
        let! skipAdd := stakeOneNode currentBLSKey rewardAddress ownerAddress in
        if (skipAdd : bool) then continue
        else
          let numActivatedKey := if (UnStakedNonce stakedData =? 0)%Z
                                 then u64 (numActivatedKey + 1) else numActivatedKey in
          let nodesActivated := (nodesActivated + 1)%Z in
          if (maxNumNodesToActivate <=? nodesActivated)%Z then ret (numActivatedKey, nodesActivated)
          else activateLoop blsKeys rewardAddress ownerAddress maxNumNodesToActivate
                 numActivatedKey nodesActivated
    end
  end.

(** the changed registration, and whether all nodes were activated *)
Definition activateStakingFor {X} (blsKeys newKeys : list bytes)
    (registrationData : ValidatorDataV2) (fixedStakeValue : option Z)
    (rewardAddress ownerAddress : bytes) : M E X (ValidatorDataV2 * bool) :=
  let numAllBLSKeys := length (BlsPubKeys registrationData) in
  let lenKeys := Z.of_nat (length blsKeys) in
  if isNumberOfNodesTooHigh numAllBLSKeys then ret (registrationData, false)
  else
    let maxNumNodesToActivate :=
      if validatorFlag StakeLimitsFlag
      then (computeNodeLimit - Z.of_nat numAllBLSKeys + Z.of_nat (length newKeys))%Z
      else lenKeys in
    if ((maxNumNodesToActivate <=? 0) && (maxNumNodesToActivate <=? lenKeys))%Z
    then ret (registrationData, false)
    else
      let! ' (numActivatedKey, nodesActivated) :=
        activateLoop blsKeys rewardAddress ownerAddress maxNumNodesToActivate
          (NumRegistered registrationData) 0 in
      let! fixedStakeValue := deref fixedStakeValue in
      (let! _ := deref (LockedStake registrationData) in
       ret (withLockedStake (Some (fixedStakeValue * numActivatedKey)%Z)
              (withNumRegistered (u32 numActivatedKey) registrationData),
            (nodesActivated <? maxNumNodesToActivate) || (lenKeys <=? maxNumNodesToActivate))%Z).

Definition activateNewBLSKeys {X} (registrationData : ValidatorDataV2)
    (blsKeys newKeys : list bytes) (validatorConfig : ValidatorConfig)
    (args : ContractCallInput) : M E X ValidatorDataV2 :=
  let numRegisteredBlsKeys := Z.of_nat (length (BlsPubKeys registrationData)) in
  let! ' (registrationData, allNodesActivated) :=
    activateStakingFor blsKeys newKeys registrationData (NodePrice validatorConfig)
      (valRewardAddress registrationData) (callerOf args) in
  (if negb allNodesActivated && (0 <? length blsKeys) then
     modify (AddLogEntry (mkLog (toBytes (Function args)) (recipientOf args)
       [toBytes numberOfNodesTooHigh; bigBytes numRegisteredBlsKeys; bigBytes computeNodeLimit] []))
   else ret tt) ;;;
  ret registrationData.

(** the optional arguments: the reward address and the maximum stake per node *)
Definition stakeOptionals {X} (isAlreadyRegistered : bool) (optionals : list bytes)
    (registrationData : ValidatorDataV2) : M E X ValidatorDataV2 :=
  foldEach optionals registrationData (λ registrationData optional,
    if length optional =? valWalletAddressLen then
      if isAlreadyRegistered then
        addReturnMessage
          "reward address after being registered can be changed only through changeRewardAddress" ;;;
        ret registrationData
      else ret (withValRewardAddress optional registrationData)
    else ret (withMaxStakePerNode (Some (setBytes optional)) registrationData)).

(** the check that the stake is enough for the new nodes *)
Definition checkStakeForNodes (registrationData : ValidatorDataV2) (newKeys : list bytes)
    (validatorConfig : ValidatorConfig) : M E ReturnCode unit :=
  let! numQualified := qualifiedNodes registrationData validatorConfig in
  let! total := deref (TotalStakeValue registrationData) in
  let! nodePrice := deref (NodePrice validatorConfig) in
  let tooMany n := returnIf (numQualified <? n)%Z
    ("not enough total stake to activate nodes, totalStake: " ++ pretty total ++ ", needed: "
     ++ pretty (n * nodePrice)%Z) UserError in
  if (Z.of_nat (length (BlsPubKeys registrationData)) <=? numQualified)%Z then ret tt
  else
    returnIf (negb (validatorFlag ValStakingV2Flag)) "insufficient funds" OutOfFunds ;;;
    tooMany (Z.of_nat (length newKeys)) ;;;
    let! ' (numStakedJailedWaiting, _) :=
      orReturn (getNumStakedAndWaitingNodes registrationData ∅ false) "" UserError in
    tooMany (u64 (Z.of_nat (length newKeys) + numStakedJailedWaiting)).

Definition stake (args : ContractCallInput) : handler E :=
  chargeGas gasStakeNode ;;;
  let! nonce := gets (λ e, CurrentNonce (hookOf e)) in
  returnIf (negb ((nonce =? 0)%Z || validatorFlag ValStakeFlag)) StakeNotEnabled UserError ;;;
  let! validatorConfig := currentConfig in
  let! registrationData := orReturn (getOrCreateRegistrationData (callerOf args))
    CannotGetOrCreateRegistrationData UserError in
  let! oldTotal := deref (TotalStakeValue registrationData) in
  let total := (oldTotal + valueOf args)%Z in
  let registrationData := withTotalStakeValue (Some total) registrationData in
  let! nodePrice := deref (NodePrice validatorConfig) in
  returnIf ((total <? nodePrice)%Z && negb (isContractAddress (callerOf args)))
    ("insufficient stake value: expected " ++ pretty nodePrice ++ ", got " ++ pretty total)
    UserError ;;;
  let! tooHigh := isStakeTooHigh registrationData in
  returnIf tooHigh "total stake limit reached" UserError ;;;
  if length (Arguments args) =? 0 then updateStakeValue registrationData (callerOf args)
  else
    returnIf (negb (isNumArgsCorrectToStake (Arguments args)))
      "invalid number of arguments to call stake" UserError ;;;
    let maxNodesToRun := bigUint64 (setBytes (arg args 0)) in
    returnIf (maxNodesToRun =? 0)%Z "number of nodes argument must be greater than zero"
      UserError ;;;
    chargeGas (u64 ((maxNodesToRun - 1) * gasStakeNode)) ;;;
    let isAlreadyRegistered := 0 <? length (valRewardAddress registrationData) in
    let registrationData := if isAlreadyRegistered then registrationData
                            else withValRewardAddress (callerOf args) registrationData in
    let! epoch := currentEpoch in
    let registrationData := withValEpoch epoch (withMaxStakePerNode (Some total) registrationData) in
    let! ' (registrationData, blsKeys, newKeys) :=
      orReturn (registerBLSKeys registrationData (callerOf args) (callerOf args) (Arguments args))
        "cannot register bls key: error " UserError in
    returnIf (validatorFlag DoubleKeyProtectionFlag && checkDoubleBLSKeys blsKeys)
      "invalid arguments, found same bls key twice" UserError ;;;
    checkStakeForNodes registrationData newKeys validatorConfig ;;;
    let! registrationData :=
      stakeOptionals isAlreadyRegistered
        (drop (Z.to_nat (maxNodesToRun * 2 + 1)) (Arguments args)) registrationData in
    let! registrationData := activateNewBLSKeys registrationData blsKeys newKeys validatorConfig args in
    orReturn (saveRegistrationData (callerOf args) registrationData) CannotSaveRegistrationData
      UserError ;;;
    ret Ok.
End nodes.
