(* ===== verification/ValidatorTokens.v ===== *)
(** * ValidatorTokens: unstaking and unbonding (validator.go)

    The handlers by which nodes and tokens leave: what is unstaked waits in
    [UnstakedInfo] until the unbond period is over. *)
From Stdlib Require Import Floats.SpecFloat.
From S2P Require Import Prelude SystemEI StakingData StakingNodes DelegationData ValidatorData.
From S2P Require Import ValidatorNodes.
#[local] Open Scope go_scope.

Section tokens.
Context {E : Type} {EI : SystemEI E} {VC : ValidatorContract}.

(** ** Unstaking *)
Definition getMinUnStakeTokensValue : M E error (option Z) :=
  if validatorFlag DelegationManagerFlag then
    let! delegationManagement := getManagement in
    ret (MinDelegationAmount delegationManagement)
  else ret (Some minUnstakeTokensValue).

Definition addUnstaked {X} (unStakeValue unStakedEpoch : Z) (unstakedInfo : list UnstakedValue) :
    M E X (list UnstakedValue) :=
  let new := unstakedInfo ++ [mkUnstaked unStakedEpoch (Some unStakeValue)] in
  match last unstakedInfo with
  | None => ret new
  | Some lastUnstakedInfo =>
    if (UnstakedEpoch lastUnstakedInfo =? unStakedEpoch)%Z then
      let! lastValue := deref (UnstakedAmount lastUnstakedInfo) in
      ret (removelast unstakedInfo
           ++ [withUnstakedAmount (Some (lastValue + unStakeValue)%Z) lastUnstakedInfo])
    else ret new
  end.

Definition processUnStakeValue (registrationData : ValidatorDataV2)
    (unStakeValue unStakedEpoch : Z) : M E ReturnCode ValidatorDataV2 :=
  let! minUnstakeValue := orReturn getMinUnStakeTokensValue "" UserError in
  let! minUnstakeValue := deref minUnstakeValue in
  let! total := deref (TotalStakeValue registrationData) in
  returnIf (negb ((minUnstakeValue <=? unStakeValue) || (unStakeValue =? total)))%Z
    ("can not unstake the provided value either because is under the minimum threshold or is not the value left to be unStaked")
    UserError ;;;
  returnIf (total <? unStakeValue)%Z
    ("can not unstake a bigger value than the possible allowed value which is " ++ pretty total)
    UserError ;;;
  let! totalUnstaked := deref (TotalUnstaked registrationData) in
  let! unstakedInfo := addUnstaked unStakeValue unStakedEpoch (UnstakedInfo registrationData) in
  ret (withUnstakedInfo unstakedInfo
        (withTotalUnstaked (Some (totalUnstaked + unStakeValue)%Z)
          (withTotalStakeValue (Some (total - unStakeValue)%Z) registrationData))).

Definition processUnStakeTokensFromNodes (registrationData : ValidatorDataV2)
    (validatorConfig : ValidatorConfig) (numNodes unStakedEpoch : Z) :
    M E ReturnCode ValidatorDataV2 :=
  if (numNodes =? 0)%Z then ret registrationData
  else
    let! nodePrice := deref (NodePrice validatorConfig) in
    let! total := deref (TotalStakeValue registrationData) in
    processUnStakeValue registrationData (Z.min (nodePrice * numNodes) total) unStakedEpoch.

Definition basicChecksForUnStakeNodes (args : ContractCallInput) : M E ReturnCode ValidatorDataV2 :=
  returnIfPaid args TransactionValueMustBeZero ;;;
  returnIf (length (Arguments args) =? 0) "invalid number of arguments: expected min 1, got 0"
    UserError ;;;
  returnIf (negb (validatorFlag ValStakeFlag)) UnStakeNotEnabled UserError ;;;
  let! registrationData := orReturn (getOrCreateRegistrationData (callerOf args))
    CannotGetOrCreateRegistrationData UserError in
  chargeGas (u64 (gasUnStake * Z.of_nat (length (Arguments args)))) ;;;
  orReturn (fromSum (verifyBLSPublicKeys registrationData (Arguments args)))
    CannotGetAllBlsKeysFromRegistrationData UserError ;;;
  ret registrationData.

(** the numbers of nodes that were active and that were waiting *)
Definition unStakeNodesFromStakingSC {X} (blsKeys : list bytes)
    (registrationData : ValidatorDataV2) : M E X (Z * Z) :=
  let! ' (numSuccess, numSuccessFromWaiting) :=
    foldEach blsKeys (0%Z, 0%Z) (λ acc blsKey,
      let '(numSuccess, numSuccessFromWaiting) := acc in
      let! vmOutput := attempt (executeOnStakingSC (stakingCall "unStake"
        [blsKey; valRewardAddress registrationData])) in
      let cannot why :=
        addReturnMessage ("cannot do unStake for key " ++ hexString blsKey ++ ": " ++ why)%string ;;;
        finishKey blsKey failed ;;;
        ret acc in
      match vmOutput with
      | inl errExec => cannot errExec
      | inr vmOutput =>
        if negb (bool_decide (outReturnCode vmOutput = Ok))
        then cannot (returnCodeString (outReturnCode vmOutput))
        else
          let numSuccess := u64 (numSuccess + 1) in
          let! stakedData := attempt (getStakedData blsKey) in
          ret (numSuccess, match stakedData with
                           | inl _ => numSuccessFromWaiting
                           | inr stakedData => if (UnStakedNonce stakedData =? 0)%Z
                                               then u64 (numSuccessFromWaiting + 1)
                                               else numSuccessFromWaiting
                           end)
      end) in
  ret (u64 (numSuccess - numSuccessFromWaiting), numSuccessFromWaiting).

Definition unStake (args : ContractCallInput) : handler E :=
  returnIfPaused ;;;
  let! registrationData := basicChecksForUnStakeNodes args in
  let! ' (numSuccessFromActive, numSuccessFromWaiting) :=
    unStakeNodesFromStakingSC (Arguments args) registrationData in
  returnQuietIf (negb (validatorFlag ValStakingV2Flag)) Ok ;;;
  returnIf (u64 (numSuccessFromActive + numSuccessFromWaiting) =? 0)%Z
    "could not unstake any nodes" UserError ;;;
  let! validatorConfig := currentConfig in
  let! registrationData :=
    processUnStakeTokensFromNodes registrationData validatorConfig numSuccessFromWaiting 0 in
  let! epoch := currentEpoch in
  let! registrationData :=
    processUnStakeTokensFromNodes registrationData validatorConfig numSuccessFromActive epoch in
  orReturn (saveRegistrationData (callerOf args) registrationData) CannotSaveRegistrationData
    UserError ;;;
  ret Ok.

Definition unStakeNodes (args : ContractCallInput) : handler E :=
  returnIf (negb (validatorFlag ValStakingV2Flag)) "invalid method to call" UserError ;;;
  returnIfPaused ;;;
  let! registrationData := basicChecksForUnStakeNodes args in
  unStakeNodesFromStakingSC (Arguments args) registrationData ;;;
  ret Ok.

Definition basicCheckForUnStakeUnBond (args : ContractCallInput) (address : bytes) :
    M E ReturnCode ValidatorDataV2 :=
  returnIf (negb (validatorFlag ValStakingV2Flag)) "invalid method to call" UserError ;;;
  returnIfPaid args TransactionValueMustBeZero ;;;
  let! registrationData := orReturn (getOrCreateRegistrationData address)
    "cannot get registration data: error " UserError in
  returnIf (length (valRewardAddress registrationData) =? 0)
    "key is not registered, validator operation is not possible" UserError ;;;
  ret (fixTotalUnstaked registrationData).

(** with nodes registered the minimum deposit has to stay *)
Definition returnIfBelowMinDeposit (registrationData : ValidatorDataV2) (what : string) :
    M E ReturnCode unit :=
  if negb (0 <? NumRegistered registrationData)%Z then ret tt
  else
    let! total := deref (TotalStakeValue registrationData) in
    returnIf (total <? valMinDeposit)%Z
      ("cannot " ++ what ++ " tokens, the validator would remain without min deposit, nodes are still active")
      UserError.

Definition unStakeTokens (args : ContractCallInput) : handler E :=
  let! registrationData := basicCheckForUnStakeUnBond args (callerOf args) in
  returnIfPaused ;;;
  chargeGas gasUnStakeTokens ;;;
  returnIf (negb (length (Arguments args) =? 1))
    "should have specified one argument containing the unstake value" UserError ;;;
  let unStakeValue := setBytes (arg args 0) in
  let! epoch := currentEpoch in
  let unStakedEpoch := if (NumRegistered registrationData =? 0)%Z then 0%Z else epoch in
  let! registrationData := processUnStakeValue registrationData unStakeValue unStakedEpoch in
  returnIfBelowMinDeposit registrationData "unStake" ;;;
  orReturn (saveRegistrationData (callerOf args) registrationData) CannotSaveRegistrationData
    UserError ;;;
  ret Ok.

Definition getUnStakedTokensList (args : ContractCallInput) : handler E :=
  returnIf (negb (length (Arguments args) =? 1)) "number of arguments must be equal to 1"
    UserError ;;;
  let! registrationData := basicCheckForUnStakeUnBond args (arg args 0) in
  let! epoch := currentEpoch in
  forEach (UnstakedInfo registrationData) (λ unStakedValue,
    let! value := deref (UnstakedAmount unStakedValue) in
    finish (bigBytes value) ;;;
    let elapsedEpoch := u32 (epoch - UnstakedEpoch unStakedValue) in
    finish (if (valUnBondPeriodInEpochs <=? elapsedEpoch)%Z then bigBytes 0
            else bigBytes (valUnBondPeriodInEpochs - elapsedEpoch)%Z)) ;;;
  ret Ok.

(** ** Unbonding tokens *)
Definition canUnbond (epoch : Z) (unstakedValue : UnstakedValue) : bool :=
  (valUnBondPeriodInEpochs <=? u32 (epoch - UnstakedEpoch unstakedValue))%Z.

(** the unbonded total, the number of values that were used up, and the value
    that is split, with the amount that is left of it *)
Fixpoint unBondLoopV1 {X} (epoch valueToUnBond : Z) (infos : list UnstakedValue)
    (totalUnBond : Z) (index : nat) : M E X (Z * nat * option (Z * UnstakedValue)) :=
  match infos with
  | [] => ret (totalUnBond, index, None)
  | unstakedValue :: infos =>
    if negb (canUnbond epoch unstakedValue) then ret (totalUnBond, index, None)
    else
      let! value := deref (UnstakedAmount unstakedValue) in
      let totalUnBond := (totalUnBond + value)%Z in
      if ((0 <? valueToUnBond) && (valueToUnBond <=? totalUnBond))%Z
      then ret (valueToUnBond, S index, Some ((totalUnBond - valueToUnBond)%Z, unstakedValue))
      else unBondLoopV1 epoch valueToUnBond infos totalUnBond (S index)
  end.

(** both versions end with the subtraction from the total *)
Definition subtractUnstaked (registrationData : ValidatorDataV2)
    (unstakedInfo : list UnstakedValue) (totalUnBond : Z) :
    M E ReturnCode (ValidatorDataV2 * Z) :=
  let! totalUnstaked := deref (TotalUnstaked registrationData) in
  let totalUnstaked := (totalUnstaked - totalUnBond)%Z in
  returnIf (totalUnstaked <? 0)%Z "too much requested to unBond" UserError ;;;
  ret (withTotalUnstaked (Some totalUnstaked) (withUnstakedInfo unstakedInfo registrationData),
       totalUnBond).

Definition unBondTokensFromRegistrationDataV1 (registrationData : ValidatorDataV2)
    (valueToUnBond : Z) : M E ReturnCode (ValidatorDataV2 * Z) :=
  let! epoch := currentEpoch in
  let infos := UnstakedInfo registrationData in
  let! ' (totalUnBond, index, split) := unBondLoopV1 epoch valueToUnBond infos 0 0 in
  let unstakedInfo :=
    match split with
    | Some (rest, unstakedValue) =>
      (if 0 <? rest then [mkUnstaked (UnstakedEpoch unstakedValue) (Some rest)] else [])%Z
        ++ drop index infos
    | None => drop index infos
    end in
  subtractUnstaked registrationData unstakedInfo totalUnBond.

Fixpoint unBondLoopV2 {X} (epoch valueToUnBond : Z) (infos : list UnstakedValue)
    (totalUnBond remainingValueToUnbond : Z) (stopUnbonding : bool)
    (newUnstakedInfo : list UnstakedValue) : M E X (Z * list UnstakedValue) :=
  match infos with
  | [] => ret (totalUnBond, newUnstakedInfo)
  | unstakedValue :: infos =>
    if negb (canUnbond epoch unstakedValue) || stopUnbonding then
      unBondLoopV2 epoch valueToUnBond infos totalUnBond remainingValueToUnbond stopUnbonding
        (newUnstakedInfo ++ [unstakedValue])
    else
      let! value := deref (UnstakedAmount unstakedValue) in
      if (valueToUnBond =? 0)%Z then
        unBondLoopV2 epoch valueToUnBond infos (totalUnBond + value) remainingValueToUnbond
          stopUnbonding newUnstakedInfo
      else if (value <? remainingValueToUnbond)%Z then
        unBondLoopV2 epoch valueToUnBond infos (totalUnBond + value)
          (remainingValueToUnbond - value) stopUnbonding newUnstakedInfo
      else
        let rest := (value - remainingValueToUnbond)%Z in
        unBondLoopV2 epoch valueToUnBond infos (totalUnBond + remainingValueToUnbond) 0 true
          (if (0 <? rest)%Z
           then newUnstakedInfo ++ [withUnstakedAmount (Some rest) unstakedValue]
           else newUnstakedInfo)
  end.

Definition unBondTokensFromRegistrationDataV2 (registrationData : ValidatorDataV2)
    (valueToUnBond : Z) : M E ReturnCode (ValidatorDataV2 * Z) :=
  let! epoch := currentEpoch in
  let! ' (totalUnBond, newUnstakedInfo) :=
    unBondLoopV2 epoch valueToUnBond (UnstakedInfo registrationData) 0 valueToUnBond false [] in
  subtractUnstaked registrationData newUnstakedInfo totalUnBond.

Definition unBondTokensFromRegistrationData (registrationData : ValidatorDataV2)
    (valueToUnBond : Z) : M E ReturnCode (ValidatorDataV2 * Z) :=
  if negb (validatorFlag UnBondTokensV2Flag)
  then unBondTokensFromRegistrationDataV1 registrationData valueToUnBond
  else unBondTokensFromRegistrationDataV2 registrationData valueToUnBond.

Definition unBondTokens (args : ContractCallInput) : handler E :=
  let! registrationData := basicCheckForUnStakeUnBond args (callerOf args) in
  returnIfPaused ;;;
  chargeGas gasUnBondTokens ;;;
  returnIf (1 <? length (Arguments args)) "too many arguments" UserError ;;;
  let valueToUnBond := match Arguments args with [value] => setBytes value | _ => 0%Z end in
  returnIf ((length (Arguments args) =? 1) && (valueToUnBond <=? 0)%Z)
    "cannot unBond negative value or zero value" UserError ;;;
  let! ' (registrationData, totalUnBond) :=
    unBondTokensFromRegistrationData registrationData valueToUnBond in
  returnIf (totalUnBond =? 0)%Z "no tokens that can be unbond at this time"
    (if validatorFlag MultiClaimOnDelegationFlag then UserError else Ok) ;;;
  returnIfBelowMinDeposit registrationData "unBond" ;;;
  transfer (callerOf args) (recipientOf args) totalUnBond ;;;
  orReturn (saveRegistrationData (callerOf args) registrationData) CannotSaveRegistrationData
    UserError ;;;
  ret Ok.

(** ** Unbonding nodes *)
Definition checkUnBondArguments (args : ContractCallInput) : M E ReturnCode ValidatorDataV2 :=
  returnIfPaid args TransactionValueMustBeZero ;;;
  returnIf (length (Arguments args) =? 0) "invalid number of arguments: expected min 1, got 0"
    UserError ;;;
  returnIf (negb (validatorFlag ValStakeFlag)) UnBondNotEnabled UserError ;;;
  let! registrationData := orReturn (getOrCreateRegistrationData (callerOf args))
    CannotGetOrCreateRegistrationData UserError in
  orReturn (fromSum (verifyBLSPublicKeys registrationData (Arguments args)))
    CannotGetAllBlsKeysFromRegistrationData UserError ;;;
  chargeGas (u64 (gasUnBond * Z.of_nat (length (Arguments args)))) ;;;
  ret registrationData.

Definition unBondNodesFromStakingSC {X} (blsKeys : list bytes) : M E X (list bytes) :=
  foldEach blsKeys [] (λ unBondedKeys blsKey,
    let! vmOutput := attempt (executeOnStakingSC (stakingCall "unBond" [blsKey])) in
    let success := match vmOutput with
                   | inl _ => false
                   | inr vmOutput => bool_decide (outReturnCode vmOutput = Ok)
                   end in
    if (success : bool) then ret (unBondedKeys ++ [blsKey])
    else
      addReturnMessage ("cannot do unBond for key: " ++ hexString blsKey) ;;;
      finishKey blsKey failed ;;;
      ret unBondedKeys).

(** the first occurrence of the key is replaced by the last element *)
Definition deleteKey (keys : list bytes) (unBonded : bytes) : list bytes :=
  match list_find (eq unBonded) keys, last keys with
  | Some (i, _), Some lastKey => removelast (<[i := lastKey]> keys)
  | _, _ => keys
  end.
Definition deleteUnBondedKeys (registrationData : ValidatorDataV2) (unBondedKeys : list bytes) :
    ValidatorDataV2 :=
  withBlsPubKeys (foldl deleteKey (BlsPubKeys registrationData) unBondedKeys) registrationData.

Definition updateRegistrationDataAfterUnBond (registrationData : ValidatorDataV2)
    (unBondedKeys : list bytes) (callerAddr : bytes) : M E ReturnCode unit :=
  let numKeys := u32 (Z.of_nat (length unBondedKeys)) in
  returnIf (NumRegistered registrationData <? numKeys)%Z
    "contract error on unBond function, missing nodes" UserError ;;;
  let! validatorConfig := currentConfig in
  let! nodePrice := deref (NodePrice validatorConfig) in
  let! _ := deref (LockedStake registrationData) in
  let numRegistered := u32 (NumRegistered registrationData - numKeys) in
  let lockedStake := (nodePrice * numRegistered)%Z in
  let registrationData := deleteUnBondedKeys
    (withLockedStake (Some lockedStake) (withNumRegistered numRegistered registrationData))
    unBondedKeys in
  let! total := deref (TotalStakeValue registrationData) in
  if (total =? 0)%Z && (lockedStake =? 0)%Z && (length (BlsPubKeys registrationData) =? 0)
     && (length (UnstakedInfo registrationData) =? 0)
  then setStorage callerAddr []
  else orReturn (saveRegistrationData callerAddr registrationData) CannotSaveRegistrationData
         UserError.

Definition unBondNodes (args : ContractCallInput) : handler E :=
  returnIf (negb (validatorFlag ValStakingV2Flag)) "invalid method to call" UserError ;;;
  returnIfPaused ;;;
  let! registrationData := checkUnBondArguments args in
  let! unBondedKeys := unBondNodesFromStakingSC (Arguments args) in
  updateRegistrationDataAfterUnBond registrationData unBondedKeys (callerOf args) ;;;
  ret Ok.

Definition unBondV1 (args : ContractCallInput) : handler E :=
  let! registrationData := checkUnBondArguments args in
  let! unBondedKeys := unBondNodesFromStakingSC (Arguments args) in
  let! validatorConfig := currentConfig in
  let! nodePrice := deref (NodePrice validatorConfig) in
  let numKeys := Z.of_nat (length unBondedKeys) in
  let totalUnBond := (nodePrice * numKeys)%Z in
  let! lockedStake := deref (LockedStake registrationData) in
  returnIf (lockedStake <? totalUnBond)%Z
    "contract error on unBond function, lockedStake < totalUnBond" UserError ;;;
  returnIf (NumRegistered registrationData <? u32 numKeys)%Z
    "contract error on unBond function, missing nodes" UserError ;;;
  let! total := deref (TotalStakeValue registrationData) in
  let lockedStake := (lockedStake - totalUnBond)%Z in
  let total := (total - totalUnBond)%Z in
  let registrationData :=
    withTotalStakeValue (Some total) (withLockedStake (Some lockedStake)
      (withNumRegistered (u32 (NumRegistered registrationData - u32 numKeys)) registrationData)) in
  returnIf (total <? 0)%Z "contract error on unBond function, total stake < 0" UserError ;;;
  (if (lockedStake =? 0)%Z && (total =? 0)%Z then setStorage (callerOf args) []
   else orReturn (saveRegistrationData (callerOf args)
                    (deleteUnBondedKeys registrationData unBondedKeys))
          CannotSaveRegistrationData UserError) ;;;
  transfer (callerOf args) (recipientOf args) totalUnBond ;;;
  ret Ok.

Definition unBond (args : ContractCallInput) : handler E :=
  if negb (validatorFlag ValStakingV2Flag) then unBondV1 args
  else
    returnIfPaused ;;;
    let! registrationData := checkUnBondArguments args in
    let! unBondedKeys := unBondNodesFromStakingSC (Arguments args) in
    let! validatorConfig := currentConfig in
    let! nodePrice := deref (NodePrice validatorConfig) in
    let totalUnBond := (nodePrice * Z.of_nat (length unBondedKeys))%Z in
    let! ' (registrationData, totalUnBond) :=
      if 0 <? length unBondedKeys
      then unBondTokensFromRegistrationData registrationData totalUnBond
      else ret (registrationData, totalUnBond) in
    updateRegistrationDataAfterUnBond registrationData unBondedKeys (callerOf args) ;;;
    transfer (callerOf args) (recipientOf args) totalUnBond ;;;
    ret Ok.

Definition claim (args : ContractCallInput) : handler E :=
  returnIf (validatorFlag ValStakingV2Flag) "claim function is disabled" UserError ;;;
  returnIfPaid args TransactionValueMustBeZero ;;;
  let! registrationData := orReturn (getOrCreateRegistrationData (callerOf args))
    "cannot get registration data: error " UserError in
  returnIf (length (valRewardAddress registrationData) =? 0)
    "key is not registered, claim is not possible" UserError ;;;
  chargeGas gasClaim ;;;
  let! total := deref (TotalStakeValue registrationData) in
  let! lockedStake := deref (LockedStake registrationData) in
  let claimable := (total - lockedStake)%Z in
  returnQuietIf (claimable <=? 0)%Z Ok ;;;
  orReturn (saveRegistrationData (callerOf args)
              (withTotalStakeValue (Some lockedStake) registrationData))
    CannotSaveRegistrationData UserError ;;;
  transfer (callerOf args) (recipientOf args) claimable ;;;
  ret Ok.
End tokens.
