(* ===== verification/ValidatorSC.v ===== *)
(** * ValidatorSC: the validator system smart contract (validator.go)

    The deployment, the reward address, the hand-over of a registration to a
    delegation contract, the views, and the dispatcher [Execute]. *)
From Stdlib Require Import Floats.SpecFloat.
From S2P Require Import Prelude SystemEI StakingData StakingNodes DelegationData ValidatorData.
From S2P Require Import ValidatorNodes ValidatorTokens.
#[local] Open Scope go_scope.

Section contract.
Context {E : Type} {EI : SystemEI E} {VC : ValidatorContract}.

Definition setPause (value : byte) (args : ContractCallInput) : handler E :=
  returnIf (negb (validatorFlag ValStakingV2Flag)) "invalid method to call" UserError ;;;
  returnIf (negb (bool_decide (callerOf args = endOfEpochAddress)))
    "only end of epoch address can call" UserError ;;;
  setStorage unStakeUnBondPauseKey [value] ;;;
  ret Ok.
Definition pauseUnStakeUnBond : ContractCallInput → handler E := setPause x01.
Definition unPauseStakeUnBond : ContractCallInput → handler E := setPause x00.

Definition init (args : ContractCallInput) : handler E :=
  let! ownerAddress := gets (GetStorage ownerKey) in
  match ownerAddress with
  | Some _ => addReturnMessage "smart contract was already initialized" ;;; ret UserError
  | None => setStorage ownerKey (callerOf args) ;;; ret Ok
  end.

(** ** The reward address *)
Definition extraChecksForChangeRewardAddress (newAddress : bytes) : error + unit :=
  let wrong why := inl (ErrWrongRewardAddress ++ why)%string in
  if negb (validatorFlag ValValidatorToDelegationFlag) then inr tt
  else if bool_decide (newAddress = JailingAddress)
  then wrong " when trying to set the jailing address"%string
  else if bool_decide (newAddress = EndOfEpochAddress)
  then wrong " when trying to set the end-of-epoch reserved address"%string
  else if (ComputeId newAddress =? MetachainShardId)%Z
  then wrong " when trying to set a metachain address"%string
  else inr tt.

(** the call of the staking contract on all keys of the registration *)
Definition callStakingForKeys (function : string) (registrationData : ValidatorDataV2) :
    M E ReturnCode unit :=
  let! vmOutput := orReturn (executeOnStakingSC (stakingCall function
      (valRewardAddress registrationData :: BlsPubKeys registrationData)))
    "cannot change reward address: error " UserError in
  returnQuietIf (negb (bool_decide (outReturnCode vmOutput = Ok))) (outReturnCode vmOutput).

Definition changeRewardAddress (args : ContractCallInput) : handler E :=
  returnIfPaid args TransactionValueMustBeZero ;;;
  returnIf (length (Arguments args) <? 1) "invalid number of arguments: expected min 1, got 0"
    UserError ;;;
  returnIf (negb (length (arg args 0) =? valWalletAddressLen)) ErrWrongRewardAddress UserError ;;;
  let! registrationData := orReturn (getOrCreateRegistrationData (callerOf args))
    CannotGetOrCreateRegistrationData UserError in
  returnIf (length (valRewardAddress registrationData) =? 0)
    "cannot change reward address, key is not registered" UserError ;;;
  returnIf (bool_decide (valRewardAddress registrationData = arg args 0))
    "new reward address is equal with the old reward address" UserError ;;;
  orReturn (fromSum (extraChecksForChangeRewardAddress (arg args 0))) "" UserError ;;;
  chargeGas (u64 (gasChangeRewardAddress * Z.of_nat (length (BlsPubKeys registrationData)))) ;;;
  let registrationData := withValRewardAddress (arg args 0) registrationData in
  orReturn (saveRegistrationData (callerOf args) registrationData) CannotSaveRegistrationData
    UserError ;;;
  callStakingForKeys "changeRewardAddress" registrationData ;;;
  ret Ok.

(** ** The hand-over to a delegation contract *)
Definition changeOwnerAndRewardAddressOnStaking : ValidatorDataV2 → M E ReturnCode unit :=
  callStakingForKeys "changeOwnerAndRewardAddress".

Definition checkInputArgsForValidatorToDelegation (args : ContractCallInput) :
    M E ReturnCode unit :=
  returnIf (negb (validatorFlag ValValidatorToDelegationFlag)) "invalid method to call" UserError ;;;
  returnIf (negb (bool_decide (callerOf args = valDelegationMgrSCAddress)))
    "invalid caller address" UserError ;;;
  returnIfPaid args "callValue must be 0" ;;;
  returnIf (negb (length (Arguments args) =? 2)) "invalid number of arguments" UserError ;;;
  let oldAddress := arg args 0 in
  let newAddress := arg args 1 in
  let lenAddress := length (callerOf args) in
  returnIf (negb (length oldAddress =? lenAddress) || negb (length newAddress =? lenAddress))
    "invalid argument, wanted an address for the first and second argument" UserError ;;;
  returnIf (negb (isContractAddress newAddress))
    "destination address must be a delegation smart contract" UserError ;;;
  returnIf (bool_decide (oldAddress = newAddress))
    "sender and destination addresses are equal" UserError ;;;
  returnIf (isContractAddress oldAddress) "sender address must not be a smart contract" UserError.

Definition getAndValidateRegistrationData (address : bytes) : M E ReturnCode ValidatorDataV2 :=
  let! oldValidatorData := orReturn (getOrCreateRegistrationData address) "" UserError in
  returnIf (length (BlsPubKeys oldValidatorData) =? 0)
    "address does not contain any staked nodes" UserError ;;;
  returnIf (negb (bool_decide (valRewardAddress oldValidatorData = address)))
    "reward address mismatch" UserError ;;;
  returnIf (0 <? length (UnstakedInfo oldValidatorData)) "clean unstaked info before merge"
    UserError ;;;
  returnIf (match TotalSlashed oldValidatorData with Some v => (0 <? v)%Z | None => false end)
    "cannot merge with validator who was slashed" UserError ;;;
  let! totalUnstaked := deref (TotalUnstaked oldValidatorData) in
  returnIf (0 <? totalUnstaked)%Z "cannot merge with validator who has unStaked tokens"
    UserError ;;;
  ret oldValidatorData.

Definition mergeValidatorData (args : ContractCallInput) : handler E :=
  checkInputArgsForValidatorToDelegation args ;;;
  let oldAddress := arg args 0 in
  let delegationAddr := arg args 1 in
  let! oldValidatorData := getAndValidateRegistrationData oldAddress in
  let! stored := readStorage delegationAddr in
  returnIf (length stored =? 0) "cannot merge with an empty state" UserError ;;;
  let! finalValidatorData := orReturn (getOrCreateRegistrationData delegationAddr) "" UserError in
  returnIf (negb (bool_decide (valRewardAddress finalValidatorData = delegationAddr)))
    "rewards address mismatch" UserError ;;;
  let oldValidatorData := withValRewardAddress delegationAddr oldValidatorData in
  changeOwnerAndRewardAddressOnStaking oldValidatorData ;;;
  let numRegistered := u32 (NumRegistered finalValidatorData + NumRegistered oldValidatorData) in
  let! finalTotal := deref (TotalStakeValue finalValidatorData) in
  let! oldTotal := deref (TotalStakeValue oldValidatorData) in
  let! validatorConfig := currentConfig in
  let! nodePrice := deref (NodePrice validatorConfig) in
  let! _ := deref (LockedStake finalValidatorData) in
  let finalValidatorData :=
    withLockedStake (Some (nodePrice * numRegistered)%Z)
      (withTotalStakeValue (Some (finalTotal + oldTotal)%Z)
        (withBlsPubKeys (BlsPubKeys finalValidatorData ++ BlsPubKeys oldValidatorData)
          (withNumRegistered numRegistered finalValidatorData))) in
  returnIf (isNumberOfNodesTooHigh (length (BlsPubKeys finalValidatorData)))
    "number of nodes is too high" UserError ;;;
  let! tooHigh := isStakeTooHigh finalValidatorData in
  returnIf tooHigh "total stake limit reached" UserError ;;;
  setStorage oldAddress [] ;;;
  orReturn (saveRegistrationData delegationAddr finalValidatorData) "" UserError ;;;
  ret Ok.

Definition changeOwnerOfValidatorData (args : ContractCallInput) : handler E :=
  checkInputArgsForValidatorToDelegation args ;;;
  let oldAddress := arg args 0 in
  let newAddress := arg args 1 in
  let! validatorData := getAndValidateRegistrationData oldAddress in
  let! stored := readStorage newAddress in
  returnIf (negb (length stored =? 0)) "there is already a validator data under the new address"
    UserError ;;;
  let validatorData := withValRewardAddress newAddress validatorData in
  changeOwnerAndRewardAddressOnStaking validatorData ;;;
  setStorage oldAddress [] ;;;
  orReturn (saveRegistrationData newAddress validatorData) "" UserError ;;;
  ret Ok.

(** ** Views *)
Definition get (args : ContractCallInput) : handler E :=
  returnIf (validatorFlag ValStakingV2Flag) "function deprecated" UserError ;;;
  returnIfPaid args TransactionValueMustBeZero ;;;
  returnIf (negb (length (Arguments args) =? 1))
    "invalid number of arguments: expected exactly 1, got 0" UserError ;;;
  chargeGas gasGet ;;;
  let! value := readStorage (arg args 0) in
  finish value ;;;
  ret Ok.

Definition getTotalStaked (args : ContractCallInput) : handler E :=
  returnIfPaid args TransactionValueMustBeZero ;;;
  chargeGas gasGet ;;;
  let addressToCheck :=
    if validatorFlag ValStakingV2Flag && (length (Arguments args) =? 1) then arg args 0
    else callerOf args in
  let! registrationData := orReturn (getOrCreateRegistrationData addressToCheck)
    CannotGetOrCreateRegistrationData UserError in
  returnIf (length (valRewardAddress registrationData) =? 0)
    "caller not registered in staking/validator sc" UserError ;;;
  let total := match TotalStakeValue registrationData with
               | Some total => pretty total
               | None => "<nil>"%string
               end in
  finish (toBytes total) ;;;
  ret Ok.

Definition getTotalStakedTopUpStakedBlsKeys (args : ContractCallInput) : handler E :=
  returnIf (negb (validatorFlag ValStakingV2Flag)) "invalid method to call" UserError ;;;
  returnIfPaid args TransactionValueMustBeZero ;;;
  returnIf (negb (length (Arguments args) =? 1)) "number of arguments must be equal to 1"
    UserError ;;;
  chargeGas gasGet ;;;
  let! registrationData := orReturn (getOrCreateRegistrationData (arg args 0))
    CannotGetOrCreateRegistrationData UserError in
  returnIf (length (valRewardAddress registrationData) =? 0)
    "caller not registered in staking/validator sc" UserError ;;;
  let! validatorConfig := currentConfig in
  let! ' (numActive, listActiveNodes) :=
    orReturn (getNumStakedAndWaitingNodes registrationData ∅ false) "" UserError in
  let! nodePrice := deref (NodePrice validatorConfig) in
  let! total := deref (TotalStakeValue registrationData) in
  let topUp := Z.max 0 (total - nodePrice * numActive) in
  returnIf (total <? 0)%Z "contract error on getTopUp function, total stake < locked stake value"
    UserError ;;;
  finish (bigBytes topUp) ;;;
  finish (bigBytes total) ;;;
  finish (bigBytes numActive) ;;;
  forEach listActiveNodes finish ;;;
  ret Ok.

Definition getBlsKeysStatus (args : ContractCallInput) : handler E :=
  returnIf (negb (bool_decide (callerOf args = validatorSCAddress)))
    "this is only a view function" UserError ;;;
  returnIf (negb (length (Arguments args) =? 1)) "number of arguments must be equal to 1"
    UserError ;;;
  let! registrationData := orReturn (getOrCreateRegistrationData (arg args 0))
    CannotGetOrCreateRegistrationData UserError in
  returnIf (length (BlsPubKeys registrationData) =? 0) "no bls keys"
    (if validatorFlag MultiClaimOnDelegationFlag then UserError else Ok) ;;;
  forEach (BlsPubKeys registrationData) (λ blsKey,
    let! vmOutput := attempt (executeOnStakingSC (stakingCall "getBLSKeyStatus" [blsKey])) in
    match vmOutput with
    | inl errExec =>
      addReturnMessage ("cannot get bls key status: bls key - " ++ hexString blsKey
        ++ " error - " ++ errExec)
    | inr vmOutput =>
      if negb (bool_decide (outReturnCode vmOutput = Ok)) then
        addReturnMessage ("error in getting bls key status: bls key - " ++ hexString blsKey)
      else match outReturnData vmOutput with
      | [status] => finish blsKey ;;; finish status
      | _ => addReturnMessage ("cannot get bls key status for key " ++ hexString blsKey)
      end
    end) ;;;
  ret Ok.

(** ** The dispatcher *)
Definition dispatch (function : string) : option (ContractCallInput → handler E) :=
  let table : list (string * (ContractCallInput → handler E)) :=
    [ (SCDeployInitFunctionName, init);
      ("stake", stake);
      ("unStake", unStake);
      ("unStakeNodes", unStakeNodes);
      ("unStakeTokens", unStakeTokens);
      ("unBond", unBond);
      ("unBondNodes", unBondNodes);
      ("unBondTokens", unBondTokens);
      ("claim", claim);
      ("get", get);
      ("setConfig", setConfig);
      ("changeRewardAddress", changeRewardAddress);
      ("unJail", unJail);
      ("getTotalStaked", getTotalStaked);
      ("getTotalStakedTopUpStakedBlsKeys", getTotalStakedTopUpStakedBlsKeys);
      ("getBlsKeysStatus", getBlsKeysStatus);
      ("cleanRegisteredData", cleanRegisteredData);
      ("pauseUnStakeUnBond", pauseUnStakeUnBond);
      ("unPauseUnStakeUnBond", unPauseStakeUnBond);
      ("getUnStakedTokensList", getUnStakedTokensList);
      ("reStakeUnStakedNodes", reStakeUnStakedNodes);
      ("mergeValidatorData", mergeValidatorData);
      ("changeOwnerOfValidatorData", changeOwnerOfValidatorData) ] in
  snd <$> List.find (λ entry, bool_decide (fst entry = function)) table.

Definition Execute (input : option ContractCallInput) : handler E :=
  match CheckIfNil input with
  | inl err => addReturnMessage ("nil arguments: " ++ err) ;;; ret UserError
  | inr args =>
    returnIf (0 <? ESDTTransfers args) "cannot transfer ESDT to system SCs" UserError ;;;
    match dispatch (Function args) with
    | Some run => run args
    | None => addReturnMessage "invalid method to call" ;;; ret UserError
    end
  end.
End contract.
