(* ===== verification/ValidatorSpec.v ===== *)
(** * ValidatorSpec: the validator contract's storage as a map of registrations

    [VHeap e m b] says that the storage of [e] holds the registrations of the
    map in [m], one per address, and the funds of unjailed nodes, that its
    configurations are sound, and that the contract's balance is [b].  The
    lemmas give the effect of every load, save and call of the host on them. *)
From Stdlib Require Import Floats.SpecFloat.
From S2P Require Import Prelude Sums SystemEI StakingData StakingNodes DelegationData Contract.
From S2P Require Import ValidatorData.
#[local] Open Scope go_scope.

(** ** The contract's third-party code *)
Record registrationRange (d : ValidatorDataV2) : Prop := {
  vr_nonce : (0 ≤ valRegisterNonce d < 2 ^ 64)%Z;
  vr_epoch : (0 ≤ valEpoch d < 2 ^ 32)%Z;
  vr_registered : (0 ≤ NumRegistered d < 2 ^ 32)%Z;
  vr_unstaked : Forall (λ u, 0 ≤ UnstakedEpoch u < 2 ^ 32)%Z (UnstakedInfo d);
}.
Class ValidatorLaws `{ValidatorContract} : Prop := {
  validatorV2_laws :: MarshallerLaws ValidatorDataV2 registrationRange zeroValidatorData;
  validatorConfig_laws :: MarshallerLaws ValidatorConfig (λ _, True) zeroValidatorConfig;
}.

(** ** Configurations *)
Definition positive (o : option Z) : Prop := ∃ v, o = Some v ∧ (0 < v)%Z.
Record goodPrices (c : ValidatorConfig) : Prop := {
  gp_node : positive (NodePrice c);
  gp_unJail : positive (UnJailPrice c);
}.
(** what is stored under the key of an epoch is no configuration, or a good one *)
Definition goodConfigData `{ValidatorContract} (d : bytes) : Prop :=
  ∀ c, d ≠ [] → Unmarshal zeroValidatorConfig d = inr c → checkConfigCorrectness c = inr tt →
    goodPrices c.
Definition isEpochKey (k : bytes) : Prop := length k ≤ 4.
Lemma unJailedFunds_key : ¬ isEpochKey unJailedFunds ∧ ¬ isAddress unJailedFunds.
Proof. split; [intros Hk%Nat.leb_le|intros Hk%Nat.eqb_eq]; done. Qed.

(** ** The store *)
Record VStore : Type := mkVStore {
  vsRegistrations : gmap bytes ValidatorDataV2;
  vsUnJail : bytes;
}.
Definition registrationOf (m : VStore) (a : bytes) : ValidatorDataV2 :=
  default newRegistration (vsRegistrations m !! a).
Definition putRegistration a d (m : VStore) : VStore :=
  mkVStore (<[a := d]> (vsRegistrations m)) (vsUnJail m).
Definition deleteRegistration a (m : VStore) : VStore :=
  mkVStore (delete a (vsRegistrations m)) (vsUnJail m).
Definition putUnJail v (m : VStore) : VStore := mkVStore (vsRegistrations m) v.

(** ** The staking contract *)
Section promise.
Context {E : Type} {EI : SystemEI E} {CH : ContractHost E} {VC : ValidatorContract}.

Definition managementData (e : E) : bytes :=
  orEmpty (GetStorageFromAddress valDelegationMgrSCAddress delegationManagementKey e).
(** what a call of another contract leaves as it was *)
Record untouched (e e' : E) : Prop := {
  ut_own k : GetStorage k e' = GetStorage k e;
  ut_management : managementData e' = managementData e;
  ut_hook : hookOf e' = hookOf e;
  ut_self : selfAddress e' = selfAddress e;
  ut_balance : balanceOf e' = balanceOf e;
}.
(** The staking contract, called without value, ends, whatever it answers, and
    touches neither the storage nor the balance of the validator contract. *)
Class StakingPromise : Prop := {
  sp_call data (e : E) : run (λ _ e', untouched e e') (executeOnStakingSC data)
                           (λ _ e', untouched e e') e;
}.
End promise.

Section heap.
Context {E : Type} {EI : SystemEI E} {EIL : SystemEILaws E}.
Context {CH : ContractHost E} {CHL : HostLaws E}.
Context {VC : ValidatorContract} {VL : ValidatorLaws}.
Context (h : BlockchainHook) (self mgb : bytes).

Record VHeap (e : E) (m : VStore) (b : Z) : Prop := {
  vh_registration a : isAddress a → holds (vsRegistrations m !! a) (orEmpty (GetStorage a e));
  vh_unJail : orEmpty (GetStorage unJailedFunds e) = vsUnJail m;
  vh_config k : isEpochKey k → goodConfigData (orEmpty (GetStorage k e));
  vh_hook : hookOf e = h;
  vh_self : selfAddress e = self;
  vh_balance : balanceOf e = b;
  vh_management : managementData e = mgb;
}.

Lemma VHeap_untouched e e' m b : VHeap e m b → untouched e e' → VHeap e' m b.
Proof.
  intros [] [Hown Hm Hhook Hs Hb]. split; try congruence; intros; rewrite Hown; auto.
Qed.
Lemma VHeap_sameButBalance e e' m b :
  VHeap e m b → sameButBalance e e' → VHeap e' m (balanceOf e').
Proof.
  intros [] [Hown Hothers Hhook Hs]. split; try congruence; try (intros; rewrite Hown; auto).
  unfold managementData in *. by rewrite Hothers.
Qed.
Lemma VHeap_same e e' m b : VHeap e m b → same e e' → VHeap e' m b.
Proof.
  intros HH [Hs Hb]. rewrite -(vh_balance _ _ _ HH) -Hb. by eapply VHeap_sameButBalance.
Qed.

(** ** Writing *)
Context (Hself : valDelegationMgrSCAddress ≠ self).

Lemma VHeap_set e m b k v m' :
  VHeap e m b →
  (∀ a, isAddress a → holds (vsRegistrations m' !! a) (orEmpty (GetStorage a (SetStorage k v e)))) →
  orEmpty (GetStorage unJailedFunds (SetStorage k v e)) = vsUnJail m' →
  (isEpochKey k → goodConfigData v) →
  VHeap (SetStorage k v e) m' b.
Proof.
  intros HH Hreg Hun Hcfg. split; [done|done| |..].
  - intros k' Hk'. destruct (decide (k' = k)) as [->|Hne]; [rewrite get_set_eq; by apply Hcfg|].
    rewrite get_set_ne; [by eapply vh_config|done].
  - rewrite hook_set. by eapply vh_hook.
  - rewrite set_self. by eapply vh_self.
  - rewrite set_balance. by eapply vh_balance.
  - unfold managementData. rewrite set_others; [by eapply vh_management|].
    by rewrite (vh_self _ _ _ HH).
Qed.
(** a key that is not that of a registration *)
Lemma VHeap_setOther e m b k v :
  VHeap e m b → ¬ isAddress k → k ≠ unJailedFunds → (isEpochKey k → goodConfigData v) →
  VHeap (SetStorage k v e) m b.
Proof.
  intros HH Ha Hk Hv. eapply VHeap_set; [done| | |done].
  - intros a Haa. rewrite get_set_ne; [by apply (vh_registration _ _ _ HH)|]. by intros ->.
  - rewrite get_set_ne //. by apply (vh_unJail _ _ _ HH).
Qed.
Lemma VHeap_setUnJail e m b v : VHeap e m b → VHeap (SetStorage unJailedFunds v e) (putUnJail v m) b.
Proof.
  intros HH. eapply VHeap_set; [done| | |].
  - intros a Ha. rewrite get_set_ne; [by apply (vh_registration _ _ _ HH)|]. intros <-. by apply unJailedFunds_key in Ha.
  - by rewrite get_set_eq.
  - by intros Hk%unJailedFunds_key.
Qed.
Lemma VHeap_setAt e m b a o v :
  VHeap e m b → isAddress a → holds o v →
  VHeap (SetStorage a v e) (mkVStore (partial_alter (λ _, o) a (vsRegistrations m)) (vsUnJail m)) b.
Proof.
  intros HH Ha Hv. eapply VHeap_set; [done| | |].
  - intros a' Ha'. simpl. destruct (decide (a = a')) as [->|Hne].
    + by rewrite get_set_eq lookup_partial_alter_eq.
    + rewrite get_set_ne // lookup_partial_alter_ne //. by apply (vh_registration _ _ _ HH).
  - rewrite get_set_ne; [by apply (vh_unJail _ _ _ HH)|]. intros ->. by apply unJailedFunds_key in Ha.
  - intros Hk. unfold isEpochKey, isAddress in *. lia.
Qed.

(** ** Running *)
Section steps.
Context {X : Type} (free : X → E → Prop).
Context (e : E) (m : VStore) (b : Z) (HH : VHeap e m b).

Lemma runv_message msg Q : (∀ e', VHeap e' m b → Q tt e') → run free (addReturnMessage msg) Q e.
Proof. intros HQ. eapply HQ, VHeap_same; [exact HH|apply same_msg]. Qed.
Lemma runv_finish v Q : (∀ e', VHeap e' m b → Q tt e') → run free (finish v) Q e.
Proof. intros HQ. eapply HQ, VHeap_same; [exact HH|apply same_finish]. Qed.
Lemma runv_log l Q : (∀ e', VHeap e' m b → Q tt e') → run free (modify (AddLogEntry l)) Q e.
Proof. intros HQ. eapply HQ, VHeap_same; [exact HH|apply same_log]. Qed.
Lemma runv_currentEpoch Q : Q (CurrentEpoch h) e → run free currentEpoch Q e.
Proof. intros HQ. apply run_gets. by rewrite (vh_hook _ _ _ HH). Qed.
Lemma runv_transfer d {TR : TransferLaws d E} v Q :
  d ≠ self → (∀ e', VHeap e' m (b - v) → Q tt e') → run free (transfer d self v) Q e.
Proof.
  intros Hd HQ. rewrite -(vh_self _ _ _ HH) in Hd |- *.
  destruct (transfer_total v e Hd) as [e' He]. unfold run, wp, transfer. rewrite He.
  apply HQ. apply transfer_same in He as [Hs Hb]; [|done].
  rewrite -(vh_balance _ _ _ HH) -Hb. by eapply VHeap_sameButBalance.
Qed.
Lemma runv_chargeGas R g Q : (∀ e', VHeap e' m b → Q tt e') → run (exits R) (chargeGas g) Q e.
Proof.
  intros HQ. unfold run, wp, chargeGas. destruct (UseGas g e) as [e'|] eqn:Hg.
  - eapply HQ, VHeap_same; [exact HH|by eapply same_gas].
  - by intros ?.
Qed.
(** a call of the staking contract, whatever it answers *)
Lemma runv_staking {SP : StakingPromise (E:=E)} data Q :
  (∀ out e', VHeap e' m b → Q out e') →
  run free (attempt (executeOnStakingSC data)) Q e.
Proof.
  intros HQ. apply run_attempt. pose proof (sp_call data e) as Hc. unfold run in *.
  eapply wp_mono; [exact Hc|]. simpl. intros [a|x|] e'; [..|done]; intros Hu;
    by eapply HQ, VHeap_untouched.
Qed.
Lemma runv_stakingOk {SP : StakingPromise (E:=E)} data (Q : CallOutput → E → Prop) :
  (∀ out e', VHeap e' m b → Q out e') → run anyError (executeOnStakingSC data) Q e.
Proof.
  intros HQ. pose proof (sp_call data e) as Hc. unfold run in *.
  eapply wp_mono; [exact Hc|]. simpl. intros [a|x|] e'; [|done..].
  intros Hu. by eapply HQ, VHeap_untouched.
Qed.

(** *** Configurations *)
Context (Hbase : goodPrices valBaseConfig) (Hepoch : (0 ≤ CurrentEpoch h < 2 ^ 32)%Z).
Lemma marshalled_good c d :
  goodPrices c → Marshal (T:=ValidatorConfig) c = inr d → goodConfigData d.
Proof.
  intros Hc Hd c' _ Hu _. pose proof (unmarshal_marshal _ zeroValidatorConfig d I Hd). congruence.
Qed.
Lemma runv_getConfig ep Q :
  (0 ≤ ep < 2 ^ 32)%Z →
  (∀ c e', goodPrices c → VHeap e' m b → Q c e') → run free (getConfig ep) Q e.
Proof.
  intros Hep HQ. assert (isEpochKey (bigBytes ep)) as Hk.
  { apply bigBytes_length. simpl. lia. }
  unfold getConfig. apply run_bind, run_readStorage.
  pose proof (vh_config _ _ _ HH _ Hk) as Hc. destruct (orEmpty _) as [|x d] eqn:Hd; [by apply HQ|].
  destruct (Unmarshal _ _) as [|c] eqn:Hu; [by apply HQ|].
  destruct (checkConfigCorrectness c) as [|[]] eqn:Hcc; [|apply HQ; [by eapply Hc|done]].
  destruct (Marshal valBaseConfig) as [|d'] eqn:Hm; [by apply HQ|].
  apply run_bind, run_setStorage, HQ; [done|]. apply VHeap_setOther; [done|..].
  - unfold isEpochKey, isAddress in *. lia.
  - intros Heq. rewrite Heq in Hk. by apply unJailedFunds_key in Hk.
  - intros _. by eapply marshalled_good.
Qed.
Lemma runv_currentConfig Q :
  (∀ c e', goodPrices c → VHeap e' m b → Q c e') → run free currentConfig Q e.
Proof. intros HQ. apply run_bind, runv_currentEpoch. by apply runv_getConfig. Qed.

(** *** Registrations *)
Lemma runv_getRegistration {fr} a Q :
  isAddress a → Q (fixTotalUnstaked (registrationOf m a)) e →
  run fr (getOrCreateRegistrationData a) Q e.
Proof.
  intros Ha HQ. pose proof (vh_registration _ _ _ HH a Ha) as Hr.
  unfold getOrCreateRegistrationData. apply run_bind, run_readStorage. unfold registrationOf in HQ.
  destruct (vsRegistrations m !! a) as [d|] eqn:Hl.
  - destruct Hr as [Hne Hu]. destruct (orEmpty _); [done|]. apply run_bind. rewrite Hu. exact HQ.
  - simpl in Hr. rewrite Hr. exact HQ.
Qed.
Lemma runv_save a d Q :
  validatorFlag ValStakingV2Flag = true → isAddress a → registrationRange d →
  TotalUnstaked d ≠ None → (∀ e', VHeap e' (putRegistration a d m) b → Q tt e') →
  run anyError (saveRegistrationData a d) Q e.
Proof.
  intros Hf Ha Hr Hn HQ. unfold saveRegistrationData. rewrite Hf. simpl.
  apply (run_save (zero:=zeroValidatorData)); [done|by intros ->|]. intros v Hv.
  apply HQ. by eapply VHeap_setAt.
Qed.
Lemma runv_delete a Q :
  isAddress a → (∀ e', VHeap e' (deleteRegistration a m) b → Q tt e') →
  run free (setStorage a []) Q e.
Proof. intros Ha HQ. apply HQ. by eapply (VHeap_setAt _ _ _ _ None). Qed.
End steps.
End heap.
