(* ===== verification/ValidatorInvariant.v ===== *)
(** * ValidatorInvariant: what the validator contract owes

    A registration is good when its total of unstaked tokens is the sum of
    its waiting entries and no amount is negative; the contract owes the staked
    and the unstaked tokens of all registrations and the collected fines.  The
    two unbonding loops are compared with [unBondRef]. *)
From Stdlib Require Import Floats.SpecFloat.
From S2P Require Import Prelude Sums SystemEI StakingData StakingNodes DelegationData Contract.
From S2P Require Import ValidatorData ValidatorNodes ValidatorTokens ValidatorSpec.
#[local] Open Scope go_scope.

(** ** Registrations *)
Definition amountOf (u : UnstakedValue) : Z := default 0%Z (UnstakedAmount u).
Definition unstakedSum (l : list UnstakedValue) : Z := listSum amountOf l.
Record goodUnstaked (u : UnstakedValue) : Prop := {
  gu_amount : ∃ v, UnstakedAmount u = Some v ∧ (0 ≤ v)%Z;
  gu_epoch : (0 ≤ UnstakedEpoch u < 2 ^ 32)%Z;
}.
Record goodRegistration (d : ValidatorDataV2) : Prop := {
  gr_total : ∃ t, TotalStakeValue d = Some t ∧ (0 ≤ t)%Z;
  gr_unstaked : TotalUnstaked d = Some (unstakedSum (UnstakedInfo d));
  gr_infos : Forall goodUnstaked (UnstakedInfo d);
  gr_locked : ∃ l, LockedStake d = Some l;
  gr_nonce : (0 ≤ valRegisterNonce d < 2 ^ 64)%Z;
  gr_epoch : (0 ≤ valEpoch d < 2 ^ 32)%Z;
  gr_registered : (0 ≤ NumRegistered d < 2 ^ 32)%Z;
}.
(** what the contract owes the owner of a registration *)
Definition totalOf (d : ValidatorDataV2) : Z := default 0%Z (TotalStakeValue d).
Definition owedTo (d : ValidatorDataV2) : Z := (totalOf d + unstakedSum (UnstakedInfo d))%Z.

Lemma amountOf_good u : goodUnstaked u → UnstakedAmount u = Some (amountOf u) ∧ (0 ≤ amountOf u)%Z.
Proof. intros [(v & Hv & ?) _]. unfold amountOf. by rewrite Hv. Qed.
Lemma unstakedSum_nonneg l : Forall goodUnstaked l → (0 ≤ unstakedSum l)%Z.
Proof.
  intros Hl. apply listSum_nonneg. intros u Hu. rewrite Forall_forall in Hl.
  by apply amountOf_good, Hl.
Qed.
Lemma totalOf_good d : goodRegistration d → TotalStakeValue d = Some (totalOf d) ∧ (0 ≤ totalOf d)%Z.
Proof. intros [(t & Ht & ?)]. unfold totalOf. by rewrite Ht. Qed.
Lemma goodRegistration_range d : goodRegistration d → registrationRange d.
Proof. intros []. split; [done..|]. eapply Forall_impl; [done|]. by intros u []. Qed.
Lemma goodRegistration_fix d : goodRegistration d → fixTotalUnstaked d = d.
Proof. intros []. unfold fixTotalUnstaked. by rewrite gr_unstaked0. Qed.
Lemma owedTo_nonneg d : goodRegistration d → (0 ≤ owedTo d)%Z.
Proof.
  intros Hd. pose proof (totalOf_good d Hd) as [_ ?]. pose proof (unstakedSum_nonneg _ (gr_infos _ Hd)).
  unfold owedTo. lia.
Qed.
Lemma newRegistration_good : goodRegistration newRegistration.
Proof. split; simpl; try done; try lia; [by exists 0%Z|by exists 0%Z]. Qed.

(** what a change of other fields keeps *)
Record sameTokens (d d' : ValidatorDataV2) : Prop := {
  st_total : TotalStakeValue d' = TotalStakeValue d;
  st_infos : UnstakedInfo d' = UnstakedInfo d;
  st_good : goodRegistration d';
}.
Lemma sameTokens_owed d d' : sameTokens d d' → owedTo d' = owedTo d.
Proof. intros []. unfold owedTo, totalOf. congruence. Qed.
Lemma sameTokens_trans d d' d'' : sameTokens d d' → sameTokens d' d'' → sameTokens d d''.
Proof. intros [] []. split; [congruence..|done]. Qed.
Lemma sameTokens_refl d : goodRegistration d → sameTokens d d.
Proof. by split. Qed.

Section fields.
Context (d : ValidatorDataV2) (Hd : goodRegistration d).
Lemma same_keys ks : sameTokens d (withBlsPubKeys ks d).
Proof. split; [by destruct d..|]. by destruct Hd, d. Qed.
Lemma same_reward a : sameTokens d (withValRewardAddress a d).
Proof. split; [by destruct d..|]. by destruct Hd, d. Qed.
Lemma same_maxStake v : sameTokens d (withMaxStakePerNode v d).
Proof. split; [by destruct d..|]. by destruct Hd, d. Qed.
Lemma same_epoch v : (0 ≤ v < 2 ^ 32)%Z → sameTokens d (withValEpoch v d).
Proof. intros. split; [by destruct d..|]. by destruct Hd, d. Qed.
Lemma same_locked l n :
  (0 ≤ n < 2 ^ 32)%Z → sameTokens d (withLockedStake (Some l) (withNumRegistered n d)).
Proof. intros. split; [by destruct d..|]. destruct Hd, d. split; try done. by exists l. Qed.
Lemma good_total t : (0 ≤ t)%Z →
  goodRegistration (withTotalStakeValue (Some t) d) ∧
  owedTo (withTotalStakeValue (Some t) d) = (owedTo d - totalOf d + t)%Z.
Proof.
  intros Ht. destruct Hd, d. split; [|unfold owedTo, totalOf; simpl; lia].
  split; try done. by exists t.
Qed.
(** the unstaked tokens are [l] *)
Definition withUnstaked (l : list UnstakedValue) (d : ValidatorDataV2) : ValidatorDataV2 :=
  withTotalUnstaked (Some (unstakedSum l)) (withUnstakedInfo l d).
Lemma good_unstaked l : Forall goodUnstaked l →
  goodRegistration (withUnstaked l d) ∧
  owedTo (withUnstaked l d) = (totalOf d + unstakedSum l)%Z.
Proof. intros Hl. destruct Hd, d. split; [by split|done]. Qed.
End fields.

(** ** The contract *)
Definition obligations (m : VStore) : Z :=
  (mapSum (λ _, owedTo) (vsRegistrations m) + setBytes (vsUnJail m))%Z.
Record VBooks (m : VStore) : Prop := {
  vb_registrations a d : vsRegistrations m !! a = Some d → isAddress a ∧ goodRegistration d;
}.
Lemma registrationOf_good m a : VBooks m → goodRegistration (registrationOf m a).
Proof.
  intros [Hr]. unfold registrationOf. destruct (_ !! a) as [d|] eqn:Hl; [by eapply Hr|].
  apply newRegistration_good.
Qed.
Lemma VBooks_put m a d :
  VBooks m → isAddress a → goodRegistration d → VBooks (putRegistration a d m).
Proof.
  intros [Hr] Ha Hd. split. intros a' d'. simpl. intros [[<- <-]|[_ ?]]%lookup_insert_Some; eauto.
Qed.
Lemma VBooks_delete m a : VBooks m → VBooks (deleteRegistration a m).
Proof. intros [Hr]. split. intros a' d'. simpl. intros [_ ?]%lookup_delete_Some. eauto. Qed.
Lemma obligations_put m a d :
  obligations (putRegistration a d m) = (obligations m - owedTo (registrationOf m a) + owedTo d)%Z.
Proof.
  unfold obligations, registrationOf. simpl. destruct (_ !! a) as [d0|] eqn:Hl.
  - rewrite (mapSum_insert _ _ _ d0) //. simpl. lia.
  - rewrite mapSum_new //. change (owedTo (default newRegistration None)) with 0%Z. lia.
Qed.
Lemma obligations_delete m a :
  obligations (deleteRegistration a m) = (obligations m - owedTo (registrationOf m a))%Z.
Proof.
  unfold obligations, registrationOf. simpl. destruct (_ !! a) as [d0|] eqn:Hl.
  - rewrite (mapSum_delete _ _ _ d0) //. simpl. lia.
  - rewrite delete_id //. change (owedTo (default newRegistration None)) with 0%Z. lia.
Qed.
Lemma registrationOf_put m a d : registrationOf (putRegistration a d m) a = d.
Proof. unfold registrationOf. simpl. by rewrite lookup_insert_eq. Qed.
Lemma registrationOf_delete m a a' :
  a ≠ a' → registrationOf (deleteRegistration a m) a' = registrationOf m a'.
Proof. intros. unfold registrationOf. simpl. by rewrite lookup_delete_ne. Qed.
Lemma registrationOf_other m a a' d :
  a ≠ a' → registrationOf (putRegistration a d m) a' = registrationOf m a'.
Proof. intros. unfold registrationOf. simpl. by rewrite lookup_insert_ne. Qed.

(** ** Unbonding *)

(** what is unbonded and what is left, when [limit] (if it is given) is still
    to be unbonded *)
Fixpoint unBondRef `{ValidatorContract} (epoch : Z) (limit : option Z) (infos : list UnstakedValue) :
    Z * list UnstakedValue :=
  match infos with
  | [] => (0%Z, [])
  | u :: infos =>
    if canUnbond epoch u && negb (bool_decide (limit = Some 0%Z)) then
      let paid := match limit with Some r => Z.min (amountOf u) r | None => amountOf u end in
      let limit := match limit with Some r => Some (r - paid)%Z | None => None end in
      let (total, left) := unBondRef epoch limit infos in
      ((paid + total)%Z,
       if (0 <? amountOf u - paid)%Z
       then withUnstakedAmount (Some (amountOf u - paid)%Z) u :: left else left)
    else let (total, left) := unBondRef epoch limit infos in (total, u :: left)
  end.
(** the values whose unbonding period is over, and those before the first
    whose is not *)
Definition maturedSum `{ValidatorContract} (epoch : Z) (infos : list UnstakedValue) : Z :=
  listSum (λ u, if canUnbond epoch u then amountOf u else 0%Z) infos.
Fixpoint spanMatured `{ValidatorContract} (epoch : Z) (infos : list UnstakedValue) :
    list UnstakedValue * list UnstakedValue :=
  match infos with
  | [] => ([], [])
  | u :: rest =>
    if canUnbond epoch u then let (pre, post) := spanMatured epoch rest in (u :: pre, post)
    else ([], infos)
  end.
(** of what is asked for, 0 being all *)
Definition limitOf (v t : Z) : option Z := if (v =? 0)%Z then None else Some (v - t)%Z.
Definition unBonded `{ValidatorContract} (epoch v : Z) (infos : list UnstakedValue) :
    Z * list UnstakedValue :=
  if validatorFlag UnBondTokensV2Flag then unBondRef epoch (limitOf v 0) infos
  else let (pre, post) := spanMatured epoch infos in
       let (total, left) := unBondRef epoch (limitOf v 0) pre in (total, left ++ post).

Section unbonding.
Context {VC : ValidatorContract} (epoch : Z).
Abbreviation matured := (canUnbond epoch).
Definition goodLimit (limit : option Z) : Prop :=
  match limit with Some r => (0 ≤ r)%Z | None => True end.

Lemma maturedSum_nonneg l : Forall goodUnstaked l → (0 ≤ maturedSum epoch l)%Z.
Proof.
  intros Hl. apply listSum_nonneg. intros u Hu. rewrite Forall_forall in Hl.
  pose proof (amountOf_good u (Hl u Hu)). case_match; lia.
Qed.
Lemma unBondRef_nothing l : unBondRef epoch (Some 0%Z) l = (0%Z, l).
Proof. induction l as [|u l IH]; simpl; [done|]. rewrite andb_false_r IH. done. Qed.
(** what is paid are the matured values, as far as they are asked for *)
Lemma unBondRef_paid limit l :
  Forall goodUnstaked l → goodLimit limit →
  (unBondRef epoch limit l).1 =
  match limit with Some r => Z.min r (maturedSum epoch l) | None => maturedSum epoch l end.
Proof.
  revert limit. induction l as [|u l IH]; intros limit Hl Hr.
  { destruct limit; unfold maturedSum; simpl in *; lia. }
  apply Forall_cons in Hl as [Hu Hl]. pose proof (amountOf_good u Hu) as [_ Ha].
  pose proof (maturedSum_nonneg l Hl) as Hm.
  assert (maturedSum epoch (u :: l) =
    ((if canUnbond epoch u then amountOf u else 0) + maturedSum epoch l)%Z) as -> by done.
  simpl. case_bool_decide as Hz.
  - subst limit. rewrite andb_false_r unBondRef_nothing. simpl. case_match; lia.
  - rewrite andb_true_r. destruct (canUnbond epoch u).
    + specialize (IH (match limit with Some r => Some (r - Z.min (amountOf u) r)%Z | None => None end) Hl).
      destruct limit as [r|]; simpl in *; (destruct (unBondRef epoch _ l)); simpl in *; [|lia].
      assert (0 ≤ r - Z.min (amountOf u) r)%Z by lia. specialize (IH ltac:(done)). lia.
    + specialize (IH limit Hl Hr). destruct (unBondRef epoch _ l). simpl in *. rewrite IH.
      destruct limit; lia.
Qed.
(** nothing is lost: what is left is what was there without what is paid *)
Lemma unBondRef_left limit l :
  Forall goodUnstaked l → goodLimit limit →
  Forall goodUnstaked (unBondRef epoch limit l).2 ∧ (0 ≤ (unBondRef epoch limit l).1)%Z ∧
  ((unBondRef epoch limit l).1 + unstakedSum (unBondRef epoch limit l).2)%Z = unstakedSum l.
Proof.
  revert limit. induction l as [|u l IH]; intros limit Hl Hr; [done|].
  apply Forall_cons in Hl as [Hu Hl]. pose proof (amountOf_good u Hu) as [_ Ha].
  unfold unstakedSum in *. simpl. destruct (canUnbond epoch u && _).
  - specialize (IH (match limit with
      | Some r => Some (r - match limit with Some r => Z.min (amountOf u) r | None => amountOf u end)%Z
      | None => None end) Hl).
    destruct IH as (Hg & Hp & Hs); [destruct limit; simpl in *; lia|].
    destruct (unBondRef epoch _ l) as [p left]. simpl in *.
    set (paid := match limit with Some r => Z.min (amountOf u) r | None => amountOf u end) in *.
    destruct (Z.ltb_spec 0 (amountOf u - paid)).
    + assert (0 ≤ paid)%Z by (destruct limit; simpl in *; lia).
      split_and!; [|lia|simpl; unfold amountOf in *; simpl; lia]. constructor; [|done].
      destruct Hu. split; [|by destruct u]. simpl. exists (amountOf u - paid)%Z. split; [done|lia].
    + split_and!; [done|..]; destruct limit; simpl in *; lia.
  - destruct (IH limit Hl Hr) as (Hg & Hp & Hs). destruct (unBondRef epoch _ l). simpl in *.
    split_and!; [by constructor|lia..].
Qed.

(** *** The loops of the code *)
Section loops.
Context {E X : Type}.
Implicit Types e : E.

Lemma unBondLoopV2_ref v l paid r stop acc e :
  Forall goodUnstaked l → (v = 0%Z ∧ stop = false) ∨ (v ≠ 0%Z ∧ (0 ≤ r)%Z ∧ stop = bool_decide (r = 0%Z)) →
  unBondLoopV2 (X:=X) epoch v l paid r stop acc e =
  let (total, left) := unBondRef epoch (if (v =? 0)%Z then None else Some r) l in
  (Ret ((paid + total)%Z, acc ++ left), e).
Proof.
  revert paid r stop acc. induction l as [|u l IH]; intros paid r stop acc Hl Hv.
  { simpl. by rewrite app_nil_r Z.add_0_r. }
  apply Forall_cons in Hl as [Hu Hl]. pose proof (amountOf_good u Hu) as [Ha Ha0]. simpl.
  destruct (canUnbond epoch u) eqn:Hc; simpl.
  2:{ rewrite IH //. destruct (unBondRef _ _ l). by rewrite -app_assoc. }
  destruct Hv as [[-> ->]|(Hv & Hr & ->)].
  - simpl. rewrite Ha. unfold bind at 1, deref. simpl. rewrite IH; [|done|by left]. simpl.
    destruct (unBondRef _ _ l) as [total left]. rewrite Z.sub_diag Z.add_assoc //.
  - rewrite (proj2 (Z.eqb_neq v 0) Hv). case_bool_decide as Hr0.
    + rewrite (bool_decide_true (Some r = _)); [|by subst]. simpl. rewrite IH; [|done|].
      * rewrite (proj2 (Z.eqb_neq v 0) Hv). destruct (unBondRef _ _ l). by rewrite -app_assoc.
      * right. split_and!; [done..|]. by rewrite bool_decide_true.
    + rewrite (bool_decide_false (Some r = _)); [|congruence]. simpl.
      rewrite Ha. unfold bind at 1, deref. simpl. destruct (Z.ltb_spec (amountOf u) r).
      * rewrite IH; [|done|]; cycle 1.
        { right. split_and!; [done|lia|]. rewrite bool_decide_false //. lia. }
        rewrite (proj2 (Z.eqb_neq v 0) Hv) Z.min_l; [|lia].
        destruct (unBondRef _ _ l). rewrite Z.sub_diag Z.add_assoc //.
      * rewrite IH; [|done|by right]. rewrite (proj2 (Z.eqb_neq v 0) Hv) Z.min_r; [|lia].
        rewrite Z.sub_diag. destruct (unBondRef _ _ l). rewrite Z.add_assoc.
        destruct (0 <? amountOf u - r)%Z; [by rewrite -app_assoc|done].
Qed.

(** the list the first version continues with *)
Definition restV1 (split : option (Z * UnstakedValue)) (l : list UnstakedValue) : list UnstakedValue :=
  match split with
  | Some (rest, u) => (if 0 <? rest then [mkUnstaked (UnstakedEpoch u) (Some rest)] else [])%Z ++ l
  | None => l
  end.
Lemma unBondLoopV1_ref v l paid i e :
  Forall goodUnstaked l → (0 ≤ v)%Z → (v = 0%Z ∨ (paid < v)%Z) →
  ∃ n split, let (pre, post) := spanMatured epoch l in
  let (total, left) := unBondRef epoch (limitOf v paid) pre in
  unBondLoopV1 (X:=X) epoch v l paid i e = (Ret ((paid + total)%Z, i + n, split), e) ∧
  restV1 split (drop n l) = left ++ post.
Proof.
  revert paid i. induction l as [|u l IH]; intros paid i Hl Hv Hp.
  { exists 0, None. simpl. by rewrite Z.add_0_r Nat.add_0_r. }
  apply Forall_cons in Hl as [Hu Hl]. pose proof (amountOf_good u Hu) as [Ha Ha0]. simpl.
  destruct (canUnbond epoch u) eqn:Hc; simpl; cycle 1.
  { exists 0, None. by rewrite Z.add_0_r Nat.add_0_r. }
  rewrite Ha. unfold bind, deref. simpl.
  destruct (Z.ltb_spec 0 v) as [Hv0|Hv0]; simpl; cycle 1.
  - assert (v = 0%Z) as -> by lia. destruct (IH (paid + amountOf u)%Z (S i) Hl Hv ltac:(by left)) as (n & split & Hn).
    exists (S n), split. destruct (spanMatured epoch l) as [pre post]. simpl. rewrite Hc. simpl.
    unfold limitOf in *. simpl in *. destruct (unBondRef epoch None pre) as [total left].
    rewrite Z.sub_diag. simpl. destruct Hn as [-> ?]. split; [|done]. by rewrite Z.add_assoc Nat.add_succ_r.
  - destruct (Z.leb_spec v (paid + amountOf u)).
    + exists 1, (Some ((paid + amountOf u - v)%Z, u)). destruct (spanMatured epoch l) as [pre post] eqn:Hs.
      simpl. rewrite Hc. unfold limitOf. rewrite (proj2 (Z.eqb_neq v 0)); [|lia].
      rewrite bool_decide_false; [|intros [= ?]; lia]. simpl.
      rewrite Z.min_r; [|lia]. rewrite Z.sub_diag unBondRef_nothing drop_0.
      replace (amountOf u - (v - paid))%Z with (paid + amountOf u - v)%Z by lia.
      split; [replace (paid + (v - paid + 0))%Z with v by lia; by rewrite Nat.add_1_r|].
      assert (pre ++ post = l) as <-.
      { clear -Hs. revert pre post Hs. induction l as [|x l IH]; simpl; [by intros ? ? [= <- <-]|].
        intros pre post. destruct (canUnbond epoch x); [|by intros [= <- <-]].
        destruct (spanMatured epoch l) as [p q]. intros [= <- <-]. simpl. by rewrite (IH p q). }
      by case_match.
    + destruct (IH (paid + amountOf u)%Z (S i) Hl Hv ltac:(right; lia)) as (n & split & Hn).
      exists (S n), split. destruct (spanMatured epoch l) as [pre post]. simpl. rewrite Hc. simpl.
      unfold limitOf in *. rewrite (proj2 (Z.eqb_neq v 0)) in Hn |- *; [|lia..].
      rewrite bool_decide_false; [|intros [= ?]; lia]. simpl. rewrite Z.min_l; [|lia].
      replace (v - paid - amountOf u)%Z with (v - (paid + amountOf u))%Z by lia.
      destruct (unBondRef epoch _ pre) as [total left]. rewrite Z.sub_diag. simpl.
      destruct Hn as [-> ?]. split; [|done]. by rewrite Z.add_assoc Nat.add_succ_r.
Qed.
End loops.

(** *** The two versions *)
Lemma spanMatured_app l pre post :
  spanMatured epoch l = (pre, post) → l = pre ++ post ∧ Forall (λ u, canUnbond epoch u = true) pre.
Proof.
  revert pre post. induction l as [|u l IH]; intros pre post; simpl; [by intros [= <- <-]|].
  destruct (canUnbond epoch u) eqn:Hc; [|by intros [= <- <-]].
  destruct (spanMatured epoch l) as [p q]. intros [= <- <-]. destruct (IH p q eq_refl) as [-> ?].
  split; [done|by constructor].
Qed.
Lemma spanMatured_first pre post :
  Forall (λ u, canUnbond epoch u = true) pre → Forall (λ u, canUnbond epoch u = false) post →
  spanMatured epoch (pre ++ post) = (pre, post).
Proof.
  intros Hpre Hpost. induction Hpre as [|u pre Hu _ IH]; simpl; [|by rewrite Hu IH].
  destruct Hpost as [|u post Hu _]; simpl; [done|by rewrite Hu].
Qed.
Lemma maturedSum_app l l' : maturedSum epoch (l ++ l') = (maturedSum epoch l + maturedSum epoch l')%Z.
Proof. apply listSum_app. Qed.
(** values that are not matured stay *)
Lemma unBondRef_unmatured limit pre post :
  Forall (λ u, canUnbond epoch u = false) post →
  unBondRef epoch limit (pre ++ post) =
  let (total, left) := unBondRef epoch limit pre in (total, left ++ post).
Proof.
  intros Hpost. revert limit. induction pre as [|u pre IH]; intros limit; simpl.
  - revert limit. induction Hpost as [|u post Hu _ IH]; intros limit; simpl; [done|].
    rewrite Hu. simpl. by rewrite IH.
  - destruct (canUnbond epoch u && _); rewrite IH.
    + destruct (unBondRef epoch _ pre). by destruct (0 <? _)%Z.
    + by destruct (unBondRef epoch _ pre).
Qed.
Lemma limitOf_good v : (0 ≤ v)%Z → goodLimit (limitOf v 0).
Proof. intros. unfold limitOf. case_match; simpl; [done|lia]. Qed.
Lemma unBonded_good v l :
  Forall goodUnstaked l → (0 ≤ v)%Z →
  Forall goodUnstaked (unBonded epoch v l).2 ∧ (0 ≤ (unBonded epoch v l).1)%Z ∧
  ((unBonded epoch v l).1 + unstakedSum (unBonded epoch v l).2)%Z = unstakedSum l.
Proof.
  intros Hl Hv. unfold unBonded. pose proof (limitOf_good v Hv) as Hlim.
  destruct (validatorFlag UnBondTokensV2Flag); [by apply unBondRef_left|].
  destruct (spanMatured epoch l) as [pre post] eqn:Hs. apply spanMatured_app in Hs as [-> _].
  apply Forall_app in Hl as [Hpre Hpost].
  destruct (unBondRef_left (limitOf v 0) pre Hpre Hlim) as (Hg & Hp & Hs).
  destruct (unBondRef epoch _ pre). simpl in *.
  unfold unstakedSum in *. rewrite !listSum_app. split_and!; [by apply Forall_app|done|lia].
Qed.
(** of the matured values everything that is asked for is paid, by the first
    version only up to the first value that is not matured *)
Lemma unBonded_paid v l :
  Forall goodUnstaked l → (0 ≤ v)%Z →
  let available := if validatorFlag UnBondTokensV2Flag then maturedSum epoch l
                   else maturedSum epoch (spanMatured epoch l).1 in
  (unBonded epoch v l).1 = if (v =? 0)%Z then available else Z.min v available.
Proof.
  intros Hl Hv. simpl. unfold unBonded. pose proof (limitOf_good v Hv) as Hlim.
  destruct (validatorFlag UnBondTokensV2Flag).
  - rewrite unBondRef_paid //. unfold limitOf. destruct (v =? 0)%Z; [done|]. by rewrite Z.sub_0_r.
  - destruct (spanMatured epoch l) as [pre post] eqn:Hs. apply spanMatured_app in Hs as [-> _].
    apply Forall_app in Hl as [Hpre _]. pose proof (unBondRef_paid (limitOf v 0) pre Hpre Hlim) as Hp.
    destruct (unBondRef epoch _ pre). simpl in *. rewrite Hp. unfold limitOf.
    destruct (v =? 0)%Z; [done|]. by rewrite Z.sub_0_r.
Qed.

Section registration.
Context {E : Type} {EI : SystemEI E}.
Context (d : ValidatorDataV2) (Hd : goodRegistration d) (v : Z) (Hv : (0 ≤ v)%Z) (e : E).
Context (He : CurrentEpoch (hookOf e) = epoch).

Lemma subtractUnstaked_eq l p : (0 ≤ p)%Z → Forall goodUnstaked l →
  (p + unstakedSum l)%Z = unstakedSum (UnstakedInfo d) →
  subtractUnstaked d l p e = (Ret (withUnstaked l d, p), e).
Proof.
  intros Hp Hl Hs. pose proof (unstakedSum_nonneg l Hl). unfold subtractUnstaked.
  rewrite (gr_unstaked _ Hd). unfold bind, deref, returnIf. simpl.
  rewrite (proj2 (Z.ltb_ge _ _)); [|lia]. unfold withUnstaked. unfold ret.
  replace (unstakedSum (UnstakedInfo d) - p)%Z with (unstakedSum l) by lia. done.
Qed.
Lemma unBondV2_eq :
  let (p, l) := unBondRef epoch (limitOf v 0) (UnstakedInfo d) in
  unBondTokensFromRegistrationDataV2 d v e = (Ret (withUnstaked l d, p), e).
Proof.
  destruct (unBondRef_left _ _ (gr_infos _ Hd) (limitOf_good v Hv)) as (Hg & Hp & Hs).
  unfold unBondTokensFromRegistrationDataV2, currentEpoch. rewrite bind_gets He. unfold bind at 1.
  rewrite unBondLoopV2_ref; [|apply Hd|].
  - unfold limitOf in *. rewrite Z.sub_0_r in Hg, Hp, Hs |- *.
    destruct (unBondRef epoch _ _). by apply subtractUnstaked_eq.
  - destruct (Z.eq_dec v 0%Z) as [->|]; [by left|right]. split_and!; [done..|]. by rewrite bool_decide_false.
Qed.
Lemma unBondV1_eq :
  let (pre, post) := spanMatured epoch (UnstakedInfo d) in
  let (p, l) := unBondRef epoch (limitOf v 0) pre in
  unBondTokensFromRegistrationDataV1 d v e = (Ret (withUnstaked (l ++ post) d, p), e).
Proof.
  unfold unBondTokensFromRegistrationDataV1, currentEpoch. rewrite bind_gets He. unfold bind at 1.
  destruct (unBondLoopV1_ref (E:=E) (X:=ReturnCode) v (UnstakedInfo d) 0%Z 0 e (gr_infos _ Hd) Hv)
    as (n & split & Hn); [lia|].
  destruct (spanMatured epoch _) as [pre post] eqn:Hspan. apply spanMatured_app in Hspan as [Happ _].
  pose proof (gr_infos _ Hd) as Hl. rewrite Happ in Hl. apply Forall_app in Hl as [Hpre Hpost].
  destruct (unBondRef_left _ _ Hpre (limitOf_good v Hv)) as (Hg & Hp & Hs).
  destruct (unBondRef epoch _ pre) as [p l]. destruct Hn as [-> Hrest]. simpl in *.
  assert (subtractUnstaked d (l ++ post) p e = (Ret (withUnstaked (l ++ post) d, p), e)) as Hsub.
  { apply subtractUnstaked_eq; [done|by apply Forall_app|]. unfold unstakedSum in *.
    rewrite Happ !listSum_app. lia. }
  by destruct split as [[rest u]|]; unfold restV1 in Hrest; rewrite Hrest.
Qed.
Lemma unBondTokens_eq :
  let (p, l) := unBonded epoch v (UnstakedInfo d) in
  unBondTokensFromRegistrationData d v e = (Ret (withUnstaked l d, p), e).
Proof.
  unfold unBondTokensFromRegistrationData, unBonded. destruct (validatorFlag UnBondTokensV2Flag); simpl.
  - exact unBondV2_eq.
  - pose proof unBondV1_eq as Hv1. destruct (spanMatured epoch _) as [pre post].
    by destruct (unBondRef epoch _ pre).
Qed.
End registration.
End unbonding.
