(* ===== verification/ValidatorSteps.v ===== *)
(** * ValidatorSteps: the functions the handlers of the validator contract share

    What is assumed of a call and of the chain, the tactic that steps through a
    handler, and, per shared function, what it does to the registrations. *)
From Stdlib Require Import Floats.SpecFloat.
From S2P Require Import Prelude Sums SystemEI StakingData StakingNodes DelegationData Contract.
From S2P Require Import ValidatorData ValidatorNodes ValidatorTokens ValidatorSpec ValidatorInvariant.
#[local] Open Scope go_scope.

(** the parameters of the chain the handlers are verified for; [mgb] is what the
    delegation manager stores *)
Record ValSetting `{ValidatorContract} (h : BlockchainHook) (mgb : bytes) : Prop := {
  vs_stakingV2 : validatorFlag ValStakingV2Flag = true;
  vs_base : goodPrices valBaseConfig;
  vs_epoch : (0 ≤ CurrentEpoch h < 2 ^ 32)%Z;
  vs_management mg : Unmarshal zeroManagement mgb = inr mg → ∃ v, MinDelegationAmount mg = Some v;
}.

(** the argument of a view that is read as an address is one *)
Definition addressArgument (args : ContractCallInput) : Prop := length (Arguments args) = 1 → isAddress (arg args 0).

(** one instruction of a handler, for the instructions that need no choice *)
Ltac vstep :=
  lazymatch goal with
  | |- handled _ _ _ => unfold handled
  | |- exits _ Ok _ => intros _
  | |- exits _ _ _ => done
  | |- run _ (bind _ _) _ _ => apply run_bind
  | |- run _ (ret _) _ _ => apply run_ret
  | |- run _ (match (_, _) with _ => _ end) _ _ => cbv beta iota
  | |- run _ (throw _) _ _ => apply run_throw; done
  | |- run _ (returnIfPaid _ _) _ _ => unfold returnIfPaid
  | |- run _ returnIfPaused _ _ => unfold returnIfPaused
  | |- run _ (finishKey _ _) _ _ => unfold finishKey
  | |- run _ (returnIf _ _ _) _ _ => apply run_returnIf; [done|intros ?]
  | |- run _ (orReturn _ _ _) _ _ => apply run_orReturn; [done|]
  | |- run _ (chargeGas _) _ _ => eapply runv_chargeGas; [eassumption|intros ? ?]
  | |- run _ (finish _) _ _ => eapply runv_finish; [eassumption|intros ? ?]
  | |- run _ (addReturnMessage _) _ _ => eapply runv_message; [eassumption|intros ? ?]
  | |- run _ (modify (AddLogEntry _)) _ _ => eapply runv_log; [eassumption|intros ? ?]
  | |- run _ (deref _) _ _ => eapply run_deref; [first [reflexivity|eassumption]|]
  | |- run _ currentEpoch _ _ => eapply runv_currentEpoch; [eassumption|]
  | |- run _ (gets _) _ _ => apply run_gets
  | |- run _ (readStorage _) _ _ => apply run_readStorage
  | |- run _ (readStorageFrom _ _) _ _ => unfold readStorageFrom
  | |- run _ (attempt (executeOnStakingSC _)) _ _ => let out := fresh "out" in eapply runv_staking; [eassumption|exact _|intros out ? ?]
  | |- run _ (fromSum (inl _)) _ _ => apply run_throw; done
  | |- run _ (fromSum (inr _)) _ _ => apply run_ret
  | |- run _ (fromSum ?r) _ _ => destruct r
  end.

Section steps.
Context {E : Type} {EI : SystemEI E} {EIL : SystemEILaws E}.
Context {CH : ContractHost E} {CHL : HostLaws E}.
Context {VC : ValidatorContract} {VL : ValidatorLaws} {SP : StakingPromise (E:=E)}.
Context (h : BlockchainHook) (self mgb : bytes).
Context (Hself : valDelegationMgrSCAddress ≠ self) (Hset : ValSetting h mgb).

(** the books balance afterwards, and what the contract holds beyond what it
    owes is no less than before [v] was paid in *)
Definition vkept (m : VStore) (b v : Z) (e' : E) : Prop := ∃ m' b',
  VHeap h self mgb e' m' b' ∧ VBooks m' ∧ (b - v - obligations m ≤ b' - obligations m')%Z.

Section state.
Context (m : VStore) (b : Z) (HB : VBooks m).
Implicit Types (e : E) (d : ValidatorDataV2).
Abbreviation heap e := (VHeap h self mgb e m b).

Lemma vkept_same v e : (0 ≤ v)%Z → heap e → vkept m b v e.
Proof. intros Hv HH. exists m, b. split_and!; [done..|lia]. Qed.
Lemma vkept_put a d v b' e :
  VHeap h self mgb e (putRegistration a d m) b' → isAddress a → goodRegistration d →
  (owedTo d - owedTo (registrationOf m a) ≤ v + b' - b)%Z → vkept m b v e.
Proof.
  intros HH Ha Hd Hle. exists (putRegistration a d m), b'.
  split_and!; [done|by apply VBooks_put|]. rewrite obligations_put. lia.
Qed.
Lemma vkept_delete a v b' e :
  VHeap h self mgb e (deleteRegistration a m) b' →
  (b - b' ≤ v + owedTo (registrationOf m a))%Z → vkept m b v e.
Proof.
  intros HH Hle. exists (deleteRegistration a m), b'.
  split_and!; [done|by apply VBooks_delete|]. rewrite obligations_delete. lia.
Qed.

(** *** Loading and saving *)
Lemma run_config {X} (free : X → E → Prop) e Q :
  heap e → (∀ c p q e', NodePrice c = Some p → (0 < p)%Z → UnJailPrice c = Some q → (0 < q)%Z →
     heap e' → Q c e') → run free currentConfig Q e.
Proof.
  intros HH HQ. eapply runv_currentConfig; [exact Hself|exact HH|apply Hset..|].
  intros c e' [(p & Hp & Hp0) (q & Hq & Hq0)] HH'. by eapply HQ.
Qed.
Lemma run_getRegistration e a Q :
  heap e → isAddress a → (goodRegistration (registrationOf m a) → Q (registrationOf m a) e) →
  run anyError (getOrCreateRegistrationData a) Q e.
Proof.
  intros HH Ha HQ. pose proof (registrationOf_good m a HB) as Hd.
  eapply runv_getRegistration; [exact HH|exact Ha|]. rewrite goodRegistration_fix //. by apply HQ.
Qed.
Lemma run_saveRegistration e a d Q :
  heap e → isAddress a → goodRegistration d →
  (∀ e', VHeap h self mgb e' (putRegistration a d m) b → Q tt e') →
  run anyError (saveRegistrationData a d) Q e.
Proof.
  intros HH Ha Hd HQ. eapply runv_save; [exact Hself|exact HH|apply Hset|done| | |done].
  - by apply goodRegistration_range.
  - by rewrite (gr_unstaked _ Hd).
Qed.
(** the last instruction of many handlers *)
Lemma run_saveAndOk e a d v msg :
  heap e → isAddress a → goodRegistration d → (owedTo d - owedTo (registrationOf m a) ≤ v)%Z →
  run (exits (vkept m b v))
    (orReturn (saveRegistrationData a d) msg UserError ;;; ret Ok) (exits (vkept m b v)) e.
Proof.
  intros HH Ha Hd Hle. repeat vstep. eapply run_saveRegistration; [done..|]. intros e' HH'.
  repeat vstep. eapply vkept_put; [done..|lia].
Qed.

(** *** Calls of the staking contract *)
Lemma run_getStakedData {X} (free : X → E → Prop) e k Q :
  (∀ r, Q r e) → run free (attempt (X:=error) (getStakedData k)) Q e.
Proof.
  intros HQ. apply run_attempt. unfold getStakedData. repeat vstep.
  destruct (orEmpty _); [apply HQ|]. apply run_bind. vstep; [apply run_throw, HQ|]. apply run_ret, HQ.
Qed.
Lemma run_getStakedDataOk e k Q : (∀ r, Q r e) → run anyError (getStakedData k) Q e.
Proof.
  intros HQ. unfold getStakedData. repeat vstep. destruct (orEmpty _); [apply HQ|].
  apply run_bind. vstep; [done|]. apply run_ret, HQ.
Qed.
Lemma run_stakeOneNode {X} (free : X → E → Prop) e k r o Q :
  heap e → (∀ skip e', heap e' → Q skip e') → run free (stakeOneNode k r o) Q e.
Proof.
  intros HH HQ. unfold stakeOneNode. repeat vstep. destruct out as [x|out].
  - repeat vstep. by apply HQ.
  - destruct (negb _); repeat vstep; [by apply HQ|]. destruct (bool_decide _); repeat vstep; by apply HQ.
Qed.
Lemma run_numStakedAndWaiting e d ks c Q :
  heap e → (∀ r e', heap e' → Q r e') → run anyError (getNumStakedAndWaitingNodes d ks c) Q e.
Proof.
  intros HH HQ. unfold getNumStakedAndWaitingNodes. apply run_bind. unfold run at 1, wp at 1.
  destruct (UseGas _ e) as [e1|] eqn:Hg; [|done]. simpl.
  assert (heap e1) as HH1 by (eapply VHeap_same; [exact HH|by eapply same_gas]).
  apply run_foldEach with (I := λ _ _ e', VHeap h self mgb e' m b); [done| |by auto].
  intros k ks' [n l] e2 HH2. destruct (bool_decide _); [done|]. apply run_bind, run_getStakedDataOk.
  intros s. destruct (c && Jailed s); [done|]. done.
Qed.
Lemma run_allUnStaked e d ks Q :
  heap e → (∀ r, Q r e) → run anyError (checkAllGivenKeysAreUnStaked d ks) Q e.
Proof.
  intros HH HQ. unfold checkAllGivenKeysAreUnStaked. destruct (_ <? _)%Z; [done|].
  destruct (negb _); [done|].
  apply run_foldEach with (I := λ _ _ e', e' = e); [done| |by intros r ? ->].
  intros k ks' s e2 ->. apply run_bind, run_getStakedDataOk. intros r. by destruct (_ || _).
Qed.
Lemma run_qualified {X} (free : X → E → Prop) e d c p Q :
  goodRegistration d → NodePrice c = Some p → (0 < p)%Z → (∀ n, Q n e) →
  run free (qualifiedNodes d c) Q e.
Proof.
  intros Hd Hp Hp0 HQ. unfold qualifiedNodes. destruct (totalOf_good d Hd) as [Ht _].
  repeat vstep. rewrite (proj2 (Z.eqb_neq p 0)); [|lia]. apply run_ret, HQ.
Qed.

(** *** Registering keys *)
Lemma run_newValidKeys e ks l Q :
  heap e → (∀ r e', heap e' → Q r e') → run anyError (getNewValidKeys ks l) Q e.
Proof.
  intros HH HQ. unfold getNewValidKeys, getBLSRegisteredData. apply run_bind.
  apply run_forEach with (I := λ e', VHeap h self mgb e' m b); [done| |].
  - intros k e1 HH1. destruct (negb _); repeat vstep.
    + destruct out as [x|out]; [done|]. destruct (outReturnData out) as [|[|? ?] ?]; done.
    + by destruct (0 <? _).
  - intros e1 HH1. by apply HQ.
Qed.
Lemma run_verifiedLoop {X} (free : X → E → Prop) e k pairs n l l' Q :
  heap e → 2 * n ≤ length pairs → (∀ r e', heap e' → Q r e') →
  run free (verifiedLoop k pairs n l l') Q e.
Proof.
  intros HH Hn HQ. revert e pairs l l' HH Hn. induction n as [|n IH]; intros e pairs l l' HH Hn.
  - destruct pairs; by apply HQ.
  - destruct pairs as [|k1 [|s1 pairs]]; [simpl in Hn; lia..|]. simpl in Hn |- *.
    destruct (sigVerify k s1 k1).
    + unfold finishKey. repeat vstep. apply IH; [done|lia].
    + apply IH; [done|lia].
Qed.
(** the number of nodes in the first argument *)
Definition nodesArgument (args : list bytes) : Z := bigUint64 (setBytes (nth 0 args [])).
Lemma nodesArgument_range args : (0 ≤ nodesArgument args < 2 ^ 64)%Z.
Proof. unfold nodesArgument, bigUint64, u64. apply Z.mod_pos_bound. lia. Qed.
Lemma run_verifiedKeys {X} (free : X → E → Prop) e k args Q :
  heap e → (2 * nodesArgument args + 1 ≤ Z.of_nat (length args))%Z →
  (∀ r e', heap e' → Q r e') → run free (getVerifiedBLSKeysFromArgs k args) Q e.
Proof.
  intros HH Hn HQ. unfold getVerifiedBLSKeysFromArgs. fold (nodesArgument args).
  pose proof (nodesArgument_range args).
  apply run_bind. apply run_verifiedLoop; [done| |].
  - destruct args; simpl in *; lia.
  - intros [ks inv] e' HH'. repeat vstep. destruct (negb _); repeat vstep; by apply HQ.
Qed.
Lemma run_registerLoop e a ks d l Q :
  heap e → goodRegistration d → (∀ d' r e', sameTokens d d' → heap e' → Q (d', r) e') →
  run anyError (registerLoop a ks d l) Q e.
Proof.
  revert e d l. induction ks as [|k ks IH]; intros e d l HH Hd HQ; simpl.
  - apply HQ; [by apply sameTokens_refl|done].
  - destruct (isNumberOfNodesTooHigh _); [apply HQ; [by apply sameTokens_refl|done]|].
    repeat vstep. destruct out as [x|out].
    + repeat vstep. apply HQ; [by apply sameTokens_refl|done].
    + destruct (negb _); [unfold finishKey; repeat vstep|].
      pose proof (same_keys d Hd (BlsPubKeys d ++ [k])) as Hsame.
      apply IH; [done|apply Hsame|]. intros d' r e2 Hd' HH2.
      apply HQ; [by eapply sameTokens_trans|done].
Qed.
(** the number of arguments [stake] takes leaves a pair for every node *)
Lemma isNumArgsCorrect_pairs args :
  isNumArgsCorrectToStake args = true → (Z.of_nat (length args) < 2 ^ 63)%Z →
  (u64 (nodesArgument args + 1) ≤ Z.of_nat (length args))%Z →
  (2 * nodesArgument args + 1 ≤ Z.of_nat (length args))%Z.
Proof.
  unfold isNumArgsCorrectToStake. fold (nodesArgument args).
  pose proof (nodesArgument_range args) as Hn.
  intros [Hlo%Z.leb_le _]%andb_true_iff Hlen Hlt. unfold u64 in *.
  destruct (decide (nodesArgument args = 2 ^ 64 - 1)%Z) as [Hm|Hne].
  - rewrite Hm in Hlo. change ((2 * (2 ^ 64 - 1) + 1) mod 2 ^ 64)%Z with (2 ^ 64 - 1)%Z in Hlo. lia.
  - rewrite (Z.mod_small (nodesArgument args + 1)) in Hlt; [|lia].
    rewrite Z.mod_small in Hlo; lia.
Qed.
Lemma run_registerBLSKeys e d k a args Q :
  heap e → goodRegistration d → isNumArgsCorrectToStake args = true →
  (Z.of_nat (length args) < 2 ^ 63)%Z →
  (∀ d' ks nks e', sameTokens d d' → heap e' → Q (d', ks, nks) e') →
  run anyError (registerBLSKeys d k a args) Q e.
Proof.
  intros HH Hd Hargs Hlen HQ. unfold registerBLSKeys. fold (nodesArgument args).
  destruct (Z.ltb_spec (Z.of_nat (length args)) (u64 (nodesArgument args + 1))); [repeat vstep|].
  apply run_bind, run_verifiedKeys; [done|by apply isNumArgsCorrect_pairs|].
  intros ks e1 HH1. apply run_bind, run_newValidKeys; [done|]. intros nks e2 HH2.
  apply run_bind. eapply run_registerLoop; [exact HH2|exact Hd|]. intros d' r e3 Hd' HH3.
  apply run_ret. destruct r; by apply HQ.
Qed.

(** *** Activating nodes *)
Lemma run_activateLoop {X} (free : X → E → Prop) e ks r o mx n a Q :
  heap e → (∀ x e', heap e' → Q x e') → run free (activateLoop ks r o mx n a) Q e.
Proof.
  intros HH HQ. revert e n a HH. induction ks as [|k ks IH]; intros e n a HH; simpl; [by apply HQ|].
  apply run_bind, run_getStakedData. intros [x|s]; [by apply IH|]. destruct (_ || _); [by apply IH|].
  apply run_bind, run_stakeOneNode; [done|]. intros [|] e' HH'; [by apply IH|].
  destruct (_ <=? _)%Z; [by apply HQ|by apply IH].
Qed.
Lemma run_activateNewKeys {X} (free : X → E → Prop) e d ks nks c p args Q :
  heap e → goodRegistration d → NodePrice c = Some p →
  (∀ d' e', sameTokens d d' → heap e' → Q d' e') →
  run free (activateNewBLSKeys d ks nks c args) Q e.
Proof.
  intros HH Hd Hp HQ. unfold activateNewBLSKeys. rewrite Hp.
  assert (∀ (Q' : ValidatorDataV2 * bool → E → Prop),
    (∀ d' r e', sameTokens d d' → heap e' → Q' (d', r) e') → run free (activateStakingFor ks nks d
      (Some p) (valRewardAddress d) (callerOf args)) Q' e) as Hact.
  { intros Q' HQ'. unfold activateStakingFor.
    destruct (isNumberOfNodesTooHigh _); [apply HQ'; [by apply sameTokens_refl|done]|].
    destruct (_ && _); [apply HQ'; [by apply sameTokens_refl|done]|].
    apply run_bind, run_activateLoop; [done|]. intros [n a] e' HH'.
    destruct (gr_locked _ Hd) as [l Hl]. repeat vstep. apply HQ'; [|done].
    apply same_locked; [done|]. unfold u32. apply Z.mod_pos_bound. lia. }
  apply run_bind, Hact. intros d' r e' Hd' HH'. repeat vstep.
  destruct (_ && _); repeat vstep; by apply HQ.
Qed.
Lemma run_stakeOptionals {X} (free : X → E → Prop) e reg l d Q :
  heap e → goodRegistration d → (∀ d' e', sameTokens d d' → heap e' → Q d' e') →
  run free (stakeOptionals reg l d) Q e.
Proof.
  intros HH Hd HQ. unfold stakeOptionals.
  apply run_foldEach with (I := λ _ d' e', sameTokens d d' ∧ VHeap h self mgb e' m b).
  - split; [by apply sameTokens_refl|done].
  - intros o l' d' e' [Hd' HH']. pose proof (st_good _ _ Hd').
    destruct (_ =? _); [destruct reg|]; repeat vstep; (split; [|done]); [done|..].
    + eapply sameTokens_trans; [done|by apply same_reward].
    + eapply sameTokens_trans; [done|by apply same_maxStake].
  - intros d' e' [? ?]. by apply HQ.
Qed.
Lemma run_tooHigh {X} (free : X → E → Prop) e d Q :
  goodRegistration d → (∀ r, Q r e) → run free (isStakeTooHigh d) Q e.
Proof.
  intros Hd HQ. unfold isStakeTooHigh. destruct (negb _); [apply run_ret, HQ|].
  destruct (totalOf_good d Hd) as [Ht _]. repeat vstep. apply HQ.
Qed.
Lemma run_checkStake e d nks c p R Q :
  heap e → goodRegistration d → NodePrice c = Some p → (0 < p)%Z →
  (∀ e', heap e' → Q tt e') → run (exits R) (checkStakeForNodes d nks c) Q e.
Proof.
  intros HH Hd Hp Hp0 HQ. unfold checkStakeForNodes. destruct (totalOf_good d Hd) as [Ht _].
  apply run_bind. eapply run_qualified; [exact Hd|exact Hp|done|]. intros n. repeat vstep.
  destruct (_ <=? _)%Z; [by apply HQ|]. repeat vstep.
  apply run_numStakedAndWaiting; [done|]. intros [x l] e' HH'. repeat vstep. by apply HQ.
Qed.
End state.
End steps.
