(* ===== verification/ValidatorHandlers.v ===== *)
(** * ValidatorHandlers: every handler of the validator contract keeps the books *)
From Stdlib Require Import Floats.SpecFloat.
From S2P Require Import Prelude Sums SystemEI StakingData StakingNodes DelegationData Contract.
From S2P Require Import ValidatorData ValidatorNodes ValidatorTokens ValidatorSC ValidatorSpec.
From S2P Require Import ValidatorInvariant ValidatorSteps.
#[local] Open Scope go_scope.

Section handlers.
Context {E : Type} {EI : SystemEI E} {EIL : SystemEILaws E}.
Context {CH : ContractHost E} {CHL : HostLaws E}.
Context {VC : ValidatorContract} {VL : ValidatorLaws} {SP : StakingPromise (E:=E)}.
Context (h : BlockchainHook) (self mgb : bytes).
Context (Hself : valDelegationMgrSCAddress ≠ self) (Hset : ValSetting h mgb).
Context (m : VStore) (b : Z) (HB : VBooks m).
Context (args : ContractCallInput) (Hcall : goodCall self args).
Context {TR : TransferLaws (callerOf args) E}.

Implicit Types (e : E) (d : ValidatorDataV2).
Abbreviation heap e := (VHeap h self mgb e m b).
Abbreviation keeps := (vkept h self mgb m b (valueOf args)).
Abbreviation caller := (callerOf args).
Abbreviation reg := (registrationOf m (callerOf args)).

Lemma value_nonneg : (0 ≤ valueOf args)%Z.
Proof. apply Hcall. Qed.
Lemma keeps_same e : heap e → keeps e.
Proof. apply vkept_same; [done|apply value_nonneg]. Qed.
Lemma caller_good : goodRegistration reg.
Proof. by apply registrationOf_good. Qed.
Lemma caller_total : TotalStakeValue reg = Some (totalOf reg) ∧ (0 ≤ totalOf reg)%Z.
Proof. by apply totalOf_good, caller_good. Qed.
Lemma run_callerRegistration e (Q : ValidatorDataV2 → E → Prop) :
  heap e → Q reg e → run anyError (getOrCreateRegistrationData caller) Q e.
Proof. intros HH HQ. eapply run_getRegistration; [done|done|apply Hcall|done]. Qed.
(** saving a registration of the caller that owes it the same *)
Lemma run_saveSame e d msg :
  heap e → sameTokens reg d →
  run (exits keeps) (orReturn (saveRegistrationData caller d) msg UserError ;;; ret Ok)
    (exits keeps) e.
Proof.
  intros HH Hd. apply (run_saveAndOk h self mgb Hself Hset); [done..|apply Hcall|apply Hd|].
  rewrite (sameTokens_owed _ _ Hd). pose proof value_nonneg. lia.
Qed.
Lemma run_transferCaller {X} (free : X → E → Prop) e m' b' v Q :
  VHeap h self mgb e m' b' → (∀ e', VHeap h self mgb e' m' (b' - v) → Q tt e') →
  run free (transfer caller (recipientOf args) v) Q e.
Proof.
  intros HH HQ. rewrite (ga_recipient _ _ Hcall). eapply runv_transfer; [done|exact _|apply Hcall|done].
Qed.

Context (e : E) (HH : heap e).

(** ** Handlers that do not concern registrations *)
Lemma run_setOtherKey {X} (free : X → E → Prop) e0 k v Q :
  heap e0 → ¬ isAddress k → ¬ isEpochKey k → k ≠ unJailedFunds →
  (∀ e', heap e' → Q tt e') → run free (setStorage k v) Q e0.
Proof. intros H0 Ha Hk Hu HQ. apply HQ. by apply VHeap_setOther. Qed.
Lemma notKey k n : length k = n → n ≠ 32 → 4 < n → ¬ isAddress k ∧ ¬ isEpochKey k.
Proof. unfold isAddress, isEpochKey. lia. Qed.

Lemma init_vkept : handled keeps (init args) e.
Proof.
  unfold init. repeat vstep. destruct (GetStorage ownerKey e); repeat vstep.
  destruct (notKey ownerKey 5) as [Ha Hk]; [done..|lia|].
  apply run_setOtherKey; [done..|]. intros e' HH'. repeat vstep. by apply keeps_same.
Qed.
Lemma setPause_vkept value : handled keeps (setPause value args) e.
Proof.
  unfold setPause. repeat vstep.
  destruct (notKey unStakeUnBondPauseKey 18) as [Ha Hk]; [done..|lia|].
  apply run_setOtherKey; [done..|]. intros e' HH'. repeat vstep. by apply keeps_same.
Qed.
Lemma run_verifyConfig R c Q :
  (∃ x, MinStakeValue c = Some x) → (∃ x, TotalSupply c = Some x) → (∃ x, MinStep c = Some x) →
  (∃ x, NodePrice c = Some x) → (∃ x, UnJailPrice c = Some x) →
  (goodPrices c → Q tt e) → run (exits R) (verifyConfig c) Q e.
Proof.
  intros [? H1] [? H2] [? H3] [p Hp] [q Hq] HQ. unfold verifyConfig. rewrite H1 H2 H3 Hp Hq.
  repeat vstep. apply HQ. split; eexists; (split; [done|lia]).
Qed.
Lemma setConfig_vkept : isEpochKey (arg args 5) → handled keeps (setConfig args) e.
Proof.
  intros Hk. unfold setConfig. repeat vstep. apply run_verifyConfig; [by eexists..|]. intros Hc.
  destruct (Marshal _) as [x|d] eqn:Hd; repeat vstep. apply run_setStorage. repeat vstep.
  apply keeps_same, VHeap_setOther; [done..| | |].
  - unfold isAddress, isEpochKey in *. lia.
  - intros Heq. rewrite Heq in Hk. by apply unJailedFunds_key in Hk.
  - intros _. by eapply marshalled_good.
Qed.

(** ** Unjailing *)
Lemma unJailV1_vkept : handled keeps (unJailV1 args) e.
Proof.
  unfold unJailV1. repeat vstep. eapply run_config; [done..|]. intros c p q e1 Hp Hp0 Hq Hq0 HH1.
  repeat vstep. eapply run_callerRegistration; [done|].
  destruct (verifyBLSPublicKeys _ _); repeat vstep.
  apply run_forEach with (I := λ e', heap e'); [done| |].
  - intros k e2 HH2. repeat vstep. destruct out; repeat vstep; [done|]. case_match; by repeat vstep.
  - intros e2 HH2. repeat vstep. by apply keeps_same.
Qed.
Lemma unJail_vkept : handled keeps (unJail args) e.
Proof.
  unfold unJail. destruct (negb _); [apply unJailV1_vkept|]. repeat vstep.
  eapply run_config; [done..|]. intros c p q e1 Hp Hp0 Hq Hq0 HH1. repeat vstep.
  eapply run_callerRegistration; [done|]. destruct (verifyBLSPublicKeys _ _); repeat vstep.
  apply negb_false_iff, Z.eqb_eq in H0.
  apply run_foldEach with (I := λ l t e', heap e' ∧
    (0 ≤ t ≤ valueOf args - q * Z.of_nat (length l))%Z).
  - split; [done|]. lia.
  - intros k l t e2 [HH2 Ht]. simpl in Ht. repeat vstep.
    destruct (match out with inl _ => _ | inr _ => _ end); repeat vstep; (split; [done|lia]).
  - intros t e2 [HH2 Ht]. simpl in Ht. rewrite Z.mul_0_r Z.sub_0_r in Ht. vstep.
    assert (∀ Q' : unit → E → Prop, (∀ e', VHeap h self mgb e' m (b - t) → Q' tt e') →
      run (exits keeps) (if (0 <? t)%Z then transfer caller (recipientOf args) t else ret tt) Q' e2)
      as Hpay.
    { intros Q' HQ'. destruct (Z.ltb_spec 0 t).
      - by eapply run_transferCaller.
      - assert (t = 0%Z) as -> by lia. apply run_ret, HQ'. by rewrite Z.sub_0_r. }
    apply Hpay. intros e3 HH3. unfold addToUnJailFunds. repeat vstep. apply run_setStorage. repeat vstep.
    rewrite (vh_unJail _ _ _ _ _ _ HH3). set (v' := bigBytes _).
    exists (putUnJail v' m), (b - t)%Z. split_and!; [by apply VHeap_setUnJail|by destruct HB|].
    unfold obligations, v'. simpl. pose proof (setBytes_nonneg (vsUnJail m)).
    rewrite setBytes_bigBytes.
    + destruct (vsUnJail m); [change (setBytes []) with 0%Z|]; lia.
    + destruct (vsUnJail m); lia.
Qed.

(** ** Staking *)
Lemma stake_vkept :
  (Z.of_nat (length (Arguments args)) < 2 ^ 63)%Z → handled keeps (stake args) e.
Proof.
  intros Hlen. unfold stake. repeat vstep. eapply run_config; [done..|].
  intros c p q e1 Hp Hp0 Hq Hq0 HH1. repeat vstep. eapply run_callerRegistration; [done|].
  destruct caller_total as [Ht Ht0]. pose proof value_nonneg as Hv. repeat vstep.
  destruct (good_total reg caller_good (totalOf reg + valueOf args)%Z) as [Hg Ho]; [lia|].
  set (d := withTotalStakeValue _ _) in *.
  assert (∀ d' e2 msg, sameTokens d d' → heap e2 → run (exits keeps)
    (orReturn (saveRegistrationData caller d') msg UserError ;;; ret Ok) (exits keeps) e2) as Hsave.
  { intros d' e2 msg Hd' HH2.
    apply (run_saveAndOk h self mgb Hself Hset); [done..|apply Hcall|apply Hd'|].
    rewrite (sameTokens_owed _ _ Hd'). lia. }
  eapply run_tooHigh; [exact Hg|]. intros tooHigh. repeat vstep.
  destruct (length (Arguments args) =? 0).
  - unfold updateStakeValue. do 2 vstep. case_match; apply Hsave; try done.
    by apply same_reward.
  - repeat vstep. apply negb_false_iff in H3.
    set (d1 := if 0 <? length (valRewardAddress d) then d else withValRewardAddress caller d).
    assert (sameTokens d d1) as Hd1.
    { unfold d1. case_match; [by apply sameTokens_refl|by apply same_reward]. }
    set (d2 := withValEpoch _ _). assert (sameTokens d d2) as Hd2.
    { eapply sameTokens_trans; [exact Hd1|].
      pose proof (same_maxStake d1 (st_good _ _ Hd1) (Some (totalOf reg + valueOf args)%Z)) as Hm.
      eapply sameTokens_trans; [exact Hm|]. apply same_epoch; [apply Hm|apply Hset]. }
    eapply run_registerBLSKeys; [done..|apply Hd2|done|done|].
    intros d3 ks nks e3 Hd3 HH3. repeat vstep.
    eapply run_checkStake; [done..|apply Hd3|done|done|]. intros e4 HH4. repeat vstep.
    eapply run_stakeOptionals; [done|apply Hd3|]. intros d4 e5 Hd4 HH5. repeat vstep.
    eapply run_activateNewKeys; [done..|apply Hd4|done|]. intros d5 e6 Hd5 HH6.
    apply Hsave; [|done]. do 3 (eapply sameTokens_trans; [eassumption|]). done.
Qed.
Lemma cleanRegisteredData_vkept : handled keeps (cleanRegisteredData args) e.
Proof.
  unfold cleanRegisteredData. repeat vstep. eapply run_callerRegistration; [done|].
  apply run_bind, run_returnQuietIf; [intros _ _; by apply keeps_same|intros _].
  destruct (cleanLoop _ _ _ _) as [newList changesMade].
  apply run_bind, run_returnQuietIf; [intros _ _; by apply keeps_same|intros _].
  apply run_saveSame; [done|]. apply same_keys, caller_good.
Qed.
(** the value of the call changes nothing *)
Lemma reStakeUnStakedNodes_same : handled (λ e', heap e') (reStakeUnStakedNodes args) e.
Proof.
  unfold reStakeUnStakedNodes. repeat vstep. eapply run_config; [done..|].
  intros c p q e1 Hp Hp0 Hq Hq0 HH1. repeat vstep. eapply run_callerRegistration; [done|]. repeat vstep.
  eapply run_qualified; [apply caller_good|done|done|]. intros n. repeat vstep.
  eapply run_allUnStaked; [done|]. intros ks. repeat vstep.
  eapply run_numStakedAndWaiting; [done|]. intros [x l] e2 HH2. repeat vstep.
  apply run_forEach with (I := λ e', heap e'); [done| |].
  - intros k e3 HH3. apply run_bind. eapply run_stakeOneNode; [done|]. intros s e4 HH4. by repeat vstep.
  - intros e3 HH3. by repeat vstep.
Qed.
Lemma reStakeUnStakedNodes_vkept : handled keeps (reStakeUnStakedNodes args) e.
Proof. eapply handled_mono; [apply reStakeUnStakedNodes_same|apply keeps_same]. Qed.

(** ** Unstaking *)
Lemma run_minUnStake e0 R Q :
  heap e0 → (∀ v, Q (Some v) e0) →
  run (exits R) (orReturn getMinUnStakeTokensValue "" UserError) Q e0.
Proof.
  intros H0 HQ. vstep. unfold getMinUnStakeTokensValue.
  destruct (validatorFlag DelegationManagerFlag); [|apply run_ret, HQ].
  unfold getManagement. repeat vstep. pose proof (vh_management _ _ _ _ _ _ H0) as Hm.
  pose proof (vs_management _ _ Hset) as Hman. rewrite -Hm in Hman. unfold managementData in Hman.
  destruct (orEmpty _) as [|x t]; [done|]. destruct (Unmarshal _ _) as [|mg] eqn:Hu; [done|].
  destruct (Hman mg eq_refl) as [v Hv]. repeat vstep. rewrite Hv. apply HQ.
Qed.
Lemma run_addUnstaked {X} (free : X → E → Prop) e0 v ep l Q :
  Forall goodUnstaked l → (0 ≤ v)%Z → (0 ≤ ep < 2 ^ 32)%Z →
  (∀ l', Forall goodUnstaked l' → unstakedSum l' = (unstakedSum l + v)%Z → Q l' e0) →
  run free (addUnstaked v ep l) Q e0.
Proof.
  intros Hl Hv Hep HQ. unfold addUnstaked.
  assert (goodUnstaked (mkUnstaked ep (Some v))) as Hnew by (split; [by exists v|done]).
  assert (Q (l ++ [mkUnstaked ep (Some v)]) e0) as HQnew.
  { apply HQ; [by apply Forall_app; split; [|constructor]|].
    unfold unstakedSum. rewrite listSum_app. simpl. unfold amountOf. simpl. lia. }
  destruct l as [|u l _] using rev_ind; [done|]. rewrite last_snoc.
  destruct (_ =? _)%Z; [|done]. apply Forall_app in Hl as [Hl Hu]. inversion_clear Hu as [|? ? Hgu _].
  destruct (amountOf_good u Hgu) as [Ha Ha0]. repeat vstep. rewrite removelast_last. apply HQ.
  - apply Forall_app. split; [done|]. constructor; [|done]. destruct Hgu. split; [|by destruct u].
    eexists. split; [done|lia].
  - unfold unstakedSum. rewrite !listSum_app. simpl. unfold amountOf. simpl. rewrite Ha. simpl. lia.
Qed.
Lemma run_processUnStake e0 d v ep R Q :
  heap e0 → goodRegistration d → (0 ≤ v)%Z → (0 ≤ ep < 2 ^ 32)%Z →
  (∀ d', goodRegistration d' → owedTo d' = owedTo d → Q d' e0) →
  run (exits R) (processUnStakeValue d v ep) Q e0.
Proof.
  intros H0 Hd Hv Hep HQ. destruct (totalOf_good d Hd) as [Ht Ht0].
  unfold processUnStakeValue. apply run_bind, run_minUnStake; [done|]. intros mn. repeat vstep.
  rewrite (gr_unstaked _ Hd). repeat vstep. apply Z.ltb_ge in H1.
  apply run_addUnstaked; [apply Hd|done|done|]. intros l' Hl' Hsum. vstep.
  set (d1 := withTotalStakeValue (Some (totalOf d - v)%Z) d).
  destruct (good_total d Hd (totalOf d - v)%Z) as [Hd1 Ho1]; [lia|].
  destruct (good_unstaked d1 Hd1 l' Hl') as [Hd2 Ho2].
  assert (withUnstakedInfo l' (withTotalUnstaked (Some (unstakedSum (UnstakedInfo d) + v)%Z) d1)
    = withUnstaked l' d1) as ->.
  { unfold withUnstaked. rewrite Hsum. by destruct d. }
  apply HQ; [exact Hd2|]. rewrite Ho2 Hsum. unfold owedTo.
  replace (totalOf d1) with (totalOf d - v)%Z by by destruct d. lia.
Qed.
Lemma run_unStakeFromNodes e0 d c p n ep R Q :
  heap e0 → goodRegistration d → NodePrice c = Some p → (0 < p)%Z → (0 ≤ n)%Z → (0 ≤ ep < 2 ^ 32)%Z →
  (∀ d', goodRegistration d' → owedTo d' = owedTo d → Q d' e0) →
  run (exits R) (processUnStakeTokensFromNodes d c n ep) Q e0.
Proof.
  intros H0 Hd Hp Hp0 Hn Hep HQ. unfold processUnStakeTokensFromNodes.
  destruct (_ =? _)%Z; [by apply HQ|]. destruct (totalOf_good d Hd) as [Ht Ht0]. repeat vstep.
  eapply run_processUnStake; [done..|nia|done|done].
Qed.
Lemma run_basicChecks e0 R Q :
  heap e0 → (∀ e', heap e' → Q reg e') → run (exits R) (basicChecksForUnStakeNodes args) Q e0.
Proof.
  intros H0 HQ. unfold basicChecksForUnStakeNodes. repeat vstep. eapply run_callerRegistration; [done|].
  repeat vstep. by apply HQ.
Qed.
Lemma run_unStakeNodes {X} (free : X → E → Prop) e0 ks d Q :
  heap e0 → (∀ n w e', (0 ≤ n)%Z → (0 ≤ w)%Z → heap e' → Q (n, w) e') →
  run free (unStakeNodesFromStakingSC ks d) Q e0.
Proof.
  intros H0 HQ. unfold unStakeNodesFromStakingSC. apply run_bind.
  apply run_foldEach with (I := λ _ acc e', (0 ≤ acc.2)%Z ∧ heap e'); [done| |].
  - intros k l [n w] e1 [Hw H1]. simpl in Hw. repeat vstep. destruct out as [x|out]; repeat vstep; [done|].
    case_match; repeat vstep; [done|]. apply run_getStakedData. intros r. repeat vstep.
    split; [|done]. simpl. destruct r; [done|]. case_match; [|done]. unfold u64. by apply Z.mod_pos_bound.
  - intros [n w] e1 [Hw H1]. apply run_ret, HQ; [|done..]. unfold u64. by apply Z.mod_pos_bound.
Qed.
Lemma unStake_vkept : handled keeps (unStake args) e.
Proof.
  unfold unStake. repeat vstep. apply run_basicChecks; [done|]. intros e1 H1. vstep.
  apply run_unStakeNodes; [done|]. intros n w e2 Hn Hw H2. repeat vstep.
  apply run_returnQuietIf; [by rewrite (vs_stakingV2 _ _ Hset)|intros _]. repeat vstep.
  eapply run_config; [done..|]. intros c p q e3 Hp Hp0 Hq Hq0 H3. vstep.
  eapply run_unStakeFromNodes; [done|apply caller_good|done..|]. intros d1 Hd1 Ho1. repeat vstep.
  eapply run_unStakeFromNodes; [done|exact Hd1|done|done|done|apply Hset|]. intros d2 Hd2 Ho2.
  pose proof value_nonneg.
  apply (run_saveAndOk h self mgb Hself Hset); [done..|apply Hcall|exact Hd2|lia].
Qed.
Lemma unStakeNodes_vkept : handled keeps (unStakeNodes args) e.
Proof.
  unfold unStakeNodes. repeat vstep. apply run_basicChecks; [done|]. intros e1 H1. vstep.
  apply run_unStakeNodes; [done|]. intros n w e2 Hn Hw H2. repeat vstep. by apply keeps_same.
Qed.
Lemma run_basicUnStakeUnBond e0 a R Q :
  heap e0 → isAddress a → (valueOf args = 0%Z → goodRegistration (registrationOf m a) →
    Q (registrationOf m a) e0) →
  run (exits R) (basicCheckForUnStakeUnBond args a) Q e0.
Proof.
  intros H0 Ha HQ. unfold basicCheckForUnStakeUnBond. repeat vstep.
  apply negb_false_iff, Z.eqb_eq in H1. eapply run_getRegistration; [done..|]. intros Hg.
  repeat vstep. rewrite goodRegistration_fix //. by apply HQ.
Qed.
Lemma run_minDeposit e0 d msg R Q :
  goodRegistration d → Q tt e0 → run (exits R) (returnIfBelowMinDeposit d msg) Q e0.
Proof.
  intros Hd HQ. unfold returnIfBelowMinDeposit. destruct (negb _); [exact HQ|].
  destruct (totalOf_good d Hd) as [Ht _]. by repeat vstep.
Qed.
Lemma unStakeTokens_vkept : handled keeps (unStakeTokens args) e.
Proof.
  unfold unStakeTokens. repeat vstep. eapply run_basicUnStakeUnBond; [done|apply Hcall|]. intros Hv Hg.
  repeat vstep. pose proof (vs_epoch _ _ Hset).
  eapply run_processUnStake; [done|exact Hg|apply setBytes_nonneg|by case_match|].
  intros d Hd Ho. vstep. apply run_minDeposit; [done|].
  apply (run_saveAndOk h self mgb Hself Hset); [done..|apply Hcall|done|lia].
Qed.
Lemma getUnStakedTokensList_vkept :
  addressArgument args → handled keeps (getUnStakedTokensList args) e.
Proof.
  intros Ha. unfold getUnStakedTokensList. repeat vstep. apply negb_false_iff, Nat.eqb_eq in H.
  eapply run_basicUnStakeUnBond; [done|by apply Ha|]. intros _ Hg. repeat vstep.
  pose proof (gr_infos _ Hg) as Hl. revert Hl. generalize (UnstakedInfo (registrationOf m (arg args 0))).
  intros l. revert e HH. induction l as [|u l IH]; intros e0 H0 Hl; simpl.
  - repeat vstep. by apply keeps_same.
  - apply Forall_cons in Hl as [Hu Hl]. destruct (amountOf_good u Hu) as [Hamt _]. repeat vstep. by apply IH.
Qed.

(** ** Unbonding *)
Abbreviation epoch := (CurrentEpoch h).
Abbreviation unBondedFrom d v := (unBonded (CurrentEpoch h) v (UnstakedInfo d)).
Lemma unBonded_registration d v :
  goodRegistration d → (0 ≤ v)%Z →
  goodRegistration (withUnstaked (unBondedFrom d v).2 d) ∧
  owedTo (withUnstaked (unBondedFrom d v).2 d) = (owedTo d - (unBondedFrom d v).1)%Z.
Proof.
  intros Hd Hv. destruct (unBonded_good epoch v (UnstakedInfo d) (gr_infos _ Hd) Hv) as (Hg & Hp & Hs).
  destruct (good_unstaked d Hd _ Hg) as [Hd' Ho]. split; [done|]. rewrite Ho. unfold owedTo. lia.
Qed.
Lemma run_unBond e0 d v R Q :
  heap e0 → goodRegistration d → (0 ≤ v)%Z →
  Q (withUnstaked (unBondedFrom d v).2 d, (unBondedFrom d v).1) e0 →
  run (exits R) (unBondTokensFromRegistrationData d v) Q e0.
Proof.
  intros H0 Hd Hv HQ. pose proof (unBondTokens_eq epoch d Hd v Hv e0) as He.
  rewrite (vh_hook _ _ _ _ _ _ H0) in He. specialize (He eq_refl).
  destruct (unBondedFrom d v) as [p l]. by eapply run_eq.
Qed.
(** what [unBondTokens] was asked for, 0 being all *)
Definition unBondArgument : Z := match Arguments args with [value] => setBytes value | _ => 0%Z end.
Lemma unBondArgument_nonneg : (0 ≤ unBondArgument)%Z.
Proof.
  unfold unBondArgument. destruct (Arguments args) as [|x [|? ?]]; [done| |done]. apply setBytes_nonneg.
Qed.
(** the state after [unBondTokens] *)
Definition unBondPaid (e' : E) : Prop :=
  let (p, l) := unBondedFrom reg unBondArgument in
  VHeap h self mgb e' (putRegistration caller (withUnstaked l reg) m) (b - p).
Lemma unBondTokens_paid :
  handled (λ e', valueOf args = 0%Z ∧
     (Arguments args = [] ∨ ∃ v, Arguments args = [v] ∧ (0 < setBytes v)%Z) ∧
     (unBondPaid e' ∨ (heap e' ∧ (unBondedFrom reg unBondArgument).1 = 0%Z))) (unBondTokens args) e.
Proof.
  pose proof unBondArgument_nonneg as Ha.
  unfold unBondTokens. fold unBondArgument. repeat vstep.
  eapply run_basicUnStakeUnBond; [done|apply Hcall|]. intros Hv Hg. repeat vstep.
  assert (Arguments args = [] ∨ ∃ v, Arguments args = [v] ∧ (0 < setBytes v)%Z) as Hargs.
  { unfold unBondArgument in *. destruct (Arguments args) as [|v [|? ?]]; [by left| |done].
    right. exists v. split; [done|]. simpl in H2. lia. }
  eapply run_unBond; [done..|]. destruct (unBonded_registration reg _ Hg Ha) as [Hd Ho].
  unfold unBondPaid. destruct (unBondedFrom reg unBondArgument) as [p l]. simpl in *.
  apply run_bind, run_returnIf.
  { intros Hp%Z.eqb_eq _. split_and!; [done..|]. right. split; [|done]. by eapply VHeap_same, same_msg. }
  intros Hp. apply run_bind, run_minDeposit; [done|]. vstep.
  eapply run_transferCaller; [done|]. intros e2 HH2. repeat vstep.
  eapply (run_saveRegistration h self mgb Hself Hset); [done|apply Hcall|done|]. intros e3 HH3.
  repeat vstep. split_and!; [done..|]. by left.
Qed.
Lemma unBondTokens_vkept : handled keeps (unBondTokens args) e.
Proof.
  pose proof unBondArgument_nonneg as Ha.
  eapply handled_mono; [apply unBondTokens_paid|]. intros e' (Hv & _ & [Hp|[H0 _]]); [|by apply keeps_same].
  destruct (unBonded_registration reg _ caller_good Ha) as [Hd Ho].
  unfold unBondPaid in Hp. destruct (unBondedFrom reg unBondArgument) as [p l]. simpl in *.
  eapply vkept_put; [done|exact Hp|apply Hcall|done|lia].
Qed.
Lemma run_checkUnBond e0 R Q :
  heap e0 → (∀ e', valueOf args = 0%Z → heap e' → Q reg e') →
  run (exits R) (checkUnBondArguments args) Q e0.
Proof.
  intros H0 HQ. unfold checkUnBondArguments. repeat vstep. eapply run_callerRegistration; [done|].
  repeat vstep. apply HQ; [|done]. by apply negb_false_iff, Z.eqb_eq in H.
Qed.
Lemma run_unBondNodesFromStaking {X} (free : X → E → Prop) e0 ks Q :
  heap e0 → (∀ l e', heap e' → Q l e') → run free (unBondNodesFromStakingSC ks) Q e0.
Proof.
  intros H0 HQ. unfold unBondNodesFromStakingSC.
  apply run_foldEach with (I := λ _ _ e', heap e'); [done| |by auto].
  intros k l acc e1 H1. repeat vstep. case_match; by repeat vstep.
Qed.
(** the caller's registration is saved, or deleted where it owes nothing *)
Definition savedAs d (e' : E) : Prop :=
  VHeap h self mgb e' (putRegistration caller d m) b ∨
  (VHeap h self mgb e' (deleteRegistration caller m) b ∧ owedTo d = 0%Z).
Lemma run_updateAfterUnBond e0 d ks R Q :
  heap e0 → goodRegistration d → (∀ d' e', sameTokens d d' → savedAs d' e' → Q tt e') →
  run (exits R) (updateRegistrationDataAfterUnBond d ks caller) Q e0.
Proof.
  intros H0 Hd HQ. unfold updateRegistrationDataAfterUnBond. repeat vstep.
  eapply run_config; [done..|]. intros c p q e1 Hp Hp0 Hq Hq0 H1. repeat vstep.
  destruct (gr_locked _ Hd) as [lk Hlk]. repeat vstep.
  set (d1 := withLockedStake _ _). assert (sameTokens d d1) as Hs1.
  { apply same_locked; [done|]. unfold u32. by apply Z.mod_pos_bound. }
  unfold deleteUnBondedKeys. pose proof (same_keys d1 (st_good _ _ Hs1) (foldl deleteKey (BlsPubKeys d1) ks)) as Hs2.
  set (d2 := withBlsPubKeys _ _) in *. pose proof (sameTokens_trans _ _ _ Hs1 Hs2) as Hs.
  destruct (totalOf_good d2 (st_good _ _ Hs2)) as [Ht Ht0]. repeat vstep.
  case_match eqn:Hz.
  - apply andb_true_iff in Hz as [[[Hz _]%andb_true_iff _]%andb_true_iff Hl].
    apply Z.eqb_eq in Hz. apply Nat.eqb_eq, length_zero_iff_nil in Hl.
    eapply runv_delete; [exact Hself|done|apply Hcall|]. intros e2 H2. eapply HQ; [exact Hs|]. right.
    split; [done|]. unfold owedTo. by rewrite Hl Hz.
  - vstep. eapply (run_saveRegistration h self mgb Hself Hset); [done|apply Hcall|apply Hs2|].
    intros e2 H2. eapply HQ; [exact Hs|by left].
Qed.
(** the books after unbonding [p] from the caller's registration *)
Lemma savedAs_kept d d' p b' e' m' :
  sameTokens d d' → owedTo d = (owedTo reg - p)%Z → valueOf args = 0%Z →
  (m' = putRegistration caller d' m ∨ m' = deleteRegistration caller m ∧ owedTo d' = 0%Z) →
  VHeap h self mgb e' m' b' → (b - p ≤ b')%Z → keeps e'.
Proof.
  intros Hs Ho Hv Hm HH' Hb. pose proof (sameTokens_owed _ _ Hs).
  destruct Hm as [->|[-> Hz]].
  - eapply vkept_put; [done..|apply Hcall|apply Hs|lia].
  - eapply vkept_delete; [done..|lia].
Qed.
Lemma unBondNodes_vkept : handled keeps (unBondNodes args) e.
Proof.
  unfold unBondNodes. repeat vstep. apply run_checkUnBond; [done|]. intros e1 Hv H1. repeat vstep.
  apply run_unBondNodesFromStaking; [done|]. intros ks e2 H2. repeat vstep.
  apply run_updateAfterUnBond; [done|apply caller_good|]. intros d' e3 Hs [H3|[H3 Hz]]; repeat vstep.
  - eapply (savedAs_kept reg d' 0); [done|lia|done|by left|exact H3|lia].
  - eapply (savedAs_kept reg d' 0); [done|lia|done|by right|exact H3|lia].
Qed.
Lemma unBond_vkept : handled keeps (unBond args) e.
Proof.
  unfold unBond. rewrite (vs_stakingV2 _ _ Hset). simpl negb. cbv iota. repeat vstep.
  apply run_checkUnBond; [done|]. intros e1 Hv H1. repeat vstep.
  apply run_unBondNodesFromStaking; [done|]. intros ks e2 H2. repeat vstep.
  eapply run_config; [done..|]. intros c p q e3 Hp Hp0 Hq Hq0 H3. repeat vstep.
  pose proof caller_good as Hg.
  assert (∀ Q, (∀ d t, goodRegistration d → owedTo d = (owedTo reg - t)%Z → Q (d, t) e3) →
    run (exits keeps) (if 0 <? length ks
      then unBondTokensFromRegistrationData reg (p * Z.of_nat (length ks))%Z
      else ret (reg, (p * Z.of_nat (length ks))%Z)) Q e3) as Htokens.
  { intros Q HQ. destruct (Nat.ltb_spec 0 (length ks)).
    - destruct (unBonded_registration reg (p * Z.of_nat (length ks)) Hg) as [Hd Ho]; [lia|].
      eapply run_unBond; [done..|lia|]. by apply HQ.
    - apply run_ret, HQ; [done|]. lia. }
  apply Htokens. intros d t Hd Ho. repeat vstep.
  apply run_updateAfterUnBond; [done..|]. intros d' e4 Hs [H4|[H4 Hz]]; repeat vstep;
    (eapply run_transferCaller; [exact H4|]); intros e5 H5; repeat vstep.
  - eapply (savedAs_kept d d' t); [done..|by left|exact H5|lia].
  - eapply (savedAs_kept d d' t); [done..|by right|exact H5|lia].
Qed.
Lemma claim_vkept : handled keeps (claim args) e.
Proof. unfold claim. rewrite (vs_stakingV2 _ _ Hset). by repeat vstep. Qed.
Lemma get_vkept : handled keeps (get args) e.
Proof. unfold get. rewrite (vs_stakingV2 _ _ Hset). by repeat vstep. Qed.
End handlers.
