(* ===== verification/ValidatorExecute.v ===== *)
(** * ValidatorExecute: every call keeps the books, so the contract is solvent

    The hand-over of registrations, the views, the dispatcher's handlers
    together, and the states the contract reaches by calls that are answered
    [Ok]. *)
From Stdlib Require Import Floats.SpecFloat.
From S2P Require Import Prelude Sums SystemEI StakingData StakingNodes DelegationData Contract.
From S2P Require Import ValidatorData ValidatorNodes ValidatorTokens ValidatorSC ValidatorSpec.
From S2P Require Import ValidatorInvariant ValidatorSteps ValidatorHandlers.
#[local] Open Scope go_scope.

Section handlers.
Context {E : Type} {EI : SystemEI E} {EIL : SystemEILaws E}.
Context {CH : ContractHost E} {CHL : ContractHostLaws E}.
Context {VC : ValidatorContract} {VL : ValidatorLaws} {SP : StakingPromise (E:=E)}.
Context (h : BlockchainHook) (self mgb : bytes).
Context (Hself : valDelegationMgrSCAddress ≠ self) (Hset : ValSetting h mgb).
Context (m : VStore) (b : Z) (HB : VBooks m).
Context (args : ContractCallInput) (Hcall : goodCall self args).

Implicit Types (e : E) (d : ValidatorDataV2).
Abbreviation heap e := (VHeap h self mgb e m b).
Abbreviation keeps := (vkept h self mgb m b (valueOf args)).

(** ** The hand-over *)
Lemma run_callStaking e m' b' f d R Q :
  VHeap h self mgb e m' b' → (∀ e', VHeap h self mgb e' m' b' → Q tt e') →
  run (exits R) (callStakingForKeys f d) Q e.
Proof.
  intros HH HQ. unfold callStakingForKeys. repeat vstep.
  eapply runv_stakingOk; [exact HH|exact _|]. intros out e' HH'.
  apply run_returnQuietIf; [|by intros _; apply HQ].
  intros Hc Hok. rewrite Hok in Hc. done.
Qed.
Lemma changeRewardAddress_vkept e : heap e → handled keeps (changeRewardAddress args) e.
Proof.
  intros HH. unfold changeRewardAddress. repeat vstep.
  eapply run_getRegistration; [done|done|apply Hcall|]. intros Hg. repeat vstep.
  pose proof (same_reward _ Hg (arg args 0)) as Hs.
  eapply (run_saveRegistration h self mgb Hself Hset); [done|apply Hcall|apply Hs|].
  intros e1 HH1. repeat vstep. eapply run_callStaking; [exact HH1|]. intros e2 HH2. repeat vstep.
  pose proof (sameTokens_owed _ _ Hs). destruct (ga_value _ _ Hcall) as [_ Hv].
  eapply vkept_put; [done|exact HH2|apply Hcall|apply Hs|lia].
Qed.
Lemma run_checkMerge e R Q :
  (isAddress (arg args 0) → isAddress (arg args 1) → arg args 0 ≠ arg args 1 → valueOf args = 0%Z →
     Q tt e) →
  run (exits R) (checkInputArgsForValidatorToDelegation args) Q e.
Proof.
  intros HQ. unfold checkInputArgsForValidatorToDelegation. repeat vstep.
  apply orb_false_iff in H3 as [Ho%negb_false_iff%Nat.eqb_eq Hn%negb_false_iff%Nat.eqb_eq].
  apply HQ; [by rewrite /isAddress Ho (ga_caller _ _ Hcall)|by rewrite /isAddress Hn (ga_caller _ _ Hcall)| |].
  - by apply bool_decide_eq_false in H5.
  - by apply negb_false_iff, Z.eqb_eq in H1.
Qed.
(** a registration that can be handed over has no unstaked tokens *)
Lemma run_validatedRegistration e a R Q :
  heap e → isAddress a →
  (goodRegistration (registrationOf m a) → owedTo (registrationOf m a) = totalOf (registrationOf m a) →
     UnstakedInfo (registrationOf m a) = [] → Q (registrationOf m a) e) →
  run (exits R) (getAndValidateRegistrationData a) Q e.
Proof.
  intros HH Ha HQ. unfold getAndValidateRegistrationData. repeat vstep.
  eapply run_getRegistration; [done..|]. intros Hg. repeat vstep.
  apply Nat.ltb_ge in H1. destruct (UnstakedInfo (registrationOf m a)) eqn:Hl; [|simpl in H1; lia].
  rewrite (gr_unstaked _ Hg). repeat vstep. apply HQ; [done| |done]. unfold owedTo. rewrite Hl.
  unfold unstakedSum. simpl. lia.
Qed.
Lemma mergeValidatorData_vkept e : heap e → handled keeps (mergeValidatorData args) e.
Proof.
  intros HH. unfold mergeValidatorData. vstep. vstep. apply run_checkMerge. intros Ho Hn Hne Hv. vstep.
  eapply run_validatedRegistration; [done..|]. intros Hg Hgo _. repeat vstep.
  eapply run_getRegistration; [done..|]. intros Hf. repeat vstep.
  unfold changeOwnerAndRewardAddressOnStaking. eapply run_callStaking; [exact HH|]. intros e1 HH1.
  destruct (totalOf_good _ Hg) as [Ht Ht0]. destruct (totalOf_good _ Hf) as [Hft Hft0].
  assert (TotalStakeValue (withValRewardAddress (arg args 1) (registrationOf m (arg args 0)))
    = Some (totalOf (registrationOf m (arg args 0)))) as Hot by by rewrite -Ht; destruct (registrationOf m _).
  repeat vstep. eapply run_config; [done..|]. intros c p q e2 Hp Hp0 Hq Hq0 HH2.
  destruct (gr_locked _ Hf) as [lk Hlk]. repeat vstep. set (d := withLockedStake _ _).
  assert (goodRegistration d ∧ owedTo d = (owedTo (registrationOf m (arg args 1))
    + totalOf (registrationOf m (arg args 0)))%Z) as [Hd Hdo].
  { set (d0 := registrationOf m (arg args 1)) in *.
    destruct (good_total d0 Hf (totalOf d0 + totalOf (registrationOf m (arg args 0)))%Z) as [Hg1 Ho1]; [lia|].
    set (d1 := withTotalStakeValue _ d0) in *.
    pose proof (same_keys d1 Hg1 (BlsPubKeys d0 ++ BlsPubKeys (registrationOf m (arg args 0)))) as Hs1.
    set (n := u32 _) in *. assert (0 ≤ n < 2 ^ 32)%Z as Hn0 by by apply Z.mod_pos_bound.
    pose proof (same_locked _ (st_good _ _ Hs1) (p * n)%Z n Hn0) as Hs2.
    assert (d = withLockedStake (Some (p * n)%Z) (withNumRegistered n
      (withBlsPubKeys (BlsPubKeys d0 ++ BlsPubKeys (registrationOf m (arg args 0))) d1))) as ->.
    { unfold d, d1. generalize d0. intros []. destruct (registrationOf m (arg args 0)). done. }
    split; [apply Hs2|]. rewrite (sameTokens_owed _ _ Hs2) (sameTokens_owed _ _ Hs1) Ho1. lia. }
  eapply run_tooHigh; [exact Hd|]. intros r. repeat vstep.
  eapply runv_delete; [exact Hself|exact HH2|exact Ho|]. intros e3 HH3. repeat vstep.
  eapply (run_saveRegistration h self mgb Hself Hset (deleteRegistration (arg args 0) m));
    [exact HH3|done|exact Hd|]. intros e4 HH4. repeat vstep.
  eexists _, _. split_and!; [exact HH4| |].
  - apply VBooks_put; [by apply VBooks_delete|done..].
  - rewrite obligations_put obligations_delete registrationOf_delete // Hdo Hgo. lia.
Qed.
Lemma changeOwnerOfValidatorData_vkept e : heap e → handled keeps (changeOwnerOfValidatorData args) e.
Proof.
  intros HH. unfold changeOwnerOfValidatorData. vstep. vstep. apply run_checkMerge. intros Ho Hn Hne Hv. vstep.
  eapply run_validatedRegistration; [done..|]. intros Hg Hgo _. repeat vstep.
  apply negb_false_iff, Nat.eqb_eq, length_zero_iff_nil in H.
  pose proof (vh_registration _ _ _ _ _ _ HH (arg args 1) Hn) as Hnew. rewrite H in Hnew.
  assert (registrationOf m (arg args 1) = newRegistration) as Hno.
  { unfold registrationOf. destruct (_ !! _); [by destruct Hnew|done]. }
  unfold changeOwnerAndRewardAddressOnStaking. eapply run_callStaking; [exact HH|]. intros e1 HH1.
  repeat vstep. eapply runv_delete; [exact Hself|exact HH1|exact Ho|]. intros e3 HH3. repeat vstep.
  pose proof (same_reward _ Hg (arg args 1)) as Hs.
  eapply (run_saveRegistration h self mgb Hself Hset (deleteRegistration (arg args 0) m));
    [exact HH3|done|apply Hs|]. intros e4 HH4. repeat vstep.
  eexists _, _. split_and!; [exact HH4| |].
  - apply VBooks_put; [by apply VBooks_delete|done|apply Hs].
  - rewrite obligations_put obligations_delete registrationOf_delete // Hno (sameTokens_owed _ _ Hs).
    change (owedTo newRegistration) with 0%Z. lia.
Qed.

(** ** Views *)
Section views.
Context (e : E) (HH : heap e).

Lemma same_vkept e' : heap e' → keeps e'.
Proof. apply vkept_same; [done|apply Hcall]. Qed.
Lemma getTotalStaked_vkept : addressArgument args → handled keeps (getTotalStaked args) e.
Proof.
  intros Ha. unfold getTotalStaked. repeat vstep.
  eapply run_getRegistration; [done|done| |].
  { case_match eqn:Hc; [|apply Hcall]. apply Ha. by apply andb_true_iff in Hc as [_ Hc%Nat.eqb_eq]. }
  intros Hg. repeat vstep.
  by apply same_vkept.
Qed.
Lemma getTotalStakedTopUp_vkept :
  addressArgument args → handled keeps (getTotalStakedTopUpStakedBlsKeys args) e.
Proof.
  intros Ha. unfold getTotalStakedTopUpStakedBlsKeys. repeat vstep.
  apply negb_false_iff, Nat.eqb_eq in H1.
  eapply run_getRegistration; [done|done|by apply Ha|]. intros Hg. repeat vstep.
  eapply run_config; [done..|]. intros c p q e1 Hp Hp0 Hq Hq0 HH1. repeat vstep.
  eapply run_numStakedAndWaiting; [done|]. intros [n l] e2 HH2. destruct (totalOf_good _ Hg) as [Ht _].
  repeat vstep. apply run_forEach with (I := λ e', heap e'); [done| |].
  - intros k e3 HH3. by repeat vstep.
  - intros e3 HH3. repeat vstep. by apply same_vkept.
Qed.
Lemma getBlsKeysStatus_vkept : addressArgument args → handled keeps (getBlsKeysStatus args) e.
Proof.
  intros Ha. unfold getBlsKeysStatus. repeat vstep. apply negb_false_iff, Nat.eqb_eq in H0.
  eapply run_getRegistration; [done|done|by apply Ha|]. intros Hg. repeat vstep.
  apply run_returnIf; [intros _ _; by eapply same_vkept, VHeap_same, same_msg|intros _].
  vstep. apply run_forEach with (I := λ e', heap e'); [done| |].
  - intros k e3 HH3. repeat vstep. destruct out as [x|out]; repeat vstep; [done|].
    case_match; repeat vstep; [done|]. destruct (outReturnData out) as [|? [|? ?]]; by repeat vstep.
  - intros e3 HH3. repeat vstep. by apply same_vkept.
Qed.
End views.

(** ** The dispatcher *)
(** the calls whose argument is read as an address or the key of an epoch, and
    a bound on the number of arguments, which Go's [int] holds *)
Record coveredByBooks : Prop := {
  cb_length : (Z.of_nat (length (Arguments args)) < 2 ^ 63)%Z;
  cb_views : Function args ∈ ["getTotalStaked"; "getTotalStakedTopUpStakedBlsKeys"; "getBlsKeysStatus";
    "getUnStakedTokensList"] → addressArgument args;
  cb_config : Function args = "setConfig" → isEpochKey (arg args 5);
}.
End handlers.

(** one lemma per handler *)
Create HintDb validator discriminated.
#[local] Hint Extern 1 (addressArgument _) =>
  match goal with H : _ ∈ _ → addressArgument _ |- _ => apply H; by vm_compute; set_solver end : validator.
#[local] Hint Resolve init_vkept stake_vkept unStake_vkept unStakeNodes_vkept unStakeTokens_vkept
  unBond_vkept unBondNodes_vkept unBondTokens_vkept claim_vkept get_vkept setConfig_vkept
  changeRewardAddress_vkept unJail_vkept getTotalStaked_vkept getTotalStakedTopUp_vkept
  getBlsKeysStatus_vkept cleanRegisteredData_vkept setPause_vkept getUnStakedTokensList_vkept
  reStakeUnStakedNodes_vkept mergeValidatorData_vkept changeOwnerOfValidatorData_vkept : validator.
#[local] Hint Resolve host_laws transfer_laws : validator.

Section execute.
Context {E : Type} {EI : SystemEI E} {EIL : SystemEILaws E}.
Context {CH : ContractHost E} {CHL : ContractHostLaws E}.
Context {VC : ValidatorContract} {VL : ValidatorLaws} {SP : StakingPromise (E:=E)}.
Context (self : bytes) (Hself : valDelegationMgrSCAddress ≠ self).

Lemma dispatch_vkept h mgb m b e args run_it :
  ValSetting h mgb → VHeap h self mgb e m b → VBooks m → goodCall self args → coveredByBooks args →
  dispatch (Function args) = Some run_it →
  handled (vkept h self mgb m b (valueOf args)) (run_it args) e.
Proof.
  intros Hset HH HB Hcall [Hlen Hview Hcfg] Hd. unfold dispatch in Hd. cbv zeta in Hd.
  destruct (List.find _ _) as [[name f]|] eqn:Hf; [|done]. injection Hd as ->.
  apply find_some in Hf as [Hin Hname]. apply bool_decide_eq_true in Hname. simpl in Hname.
  subst name. simpl in Hin. unfold pauseUnStakeUnBond, unPauseStakeUnBond in Hin.
  repeat (destruct Hin as [[= Hfun <-]|Hin]; [rewrite -Hfun in Hview, Hcfg|]); [..|done].
  all: try specialize (Hcfg eq_refl); eauto with validator.
Qed.
Lemma Execute_vkept h mgb m b e args :
  ValSetting h mgb → VHeap h self mgb e m b → VBooks m → goodCall self args → coveredByBooks args →
  handled (vkept h self mgb m b (valueOf args)) (Execute (Some args)) e.
Proof.
  intros. unfold Execute. destruct (CheckIfNil _) as [x|args'] eqn:Hnil; [apply handled_error|].
  apply CheckIfNil_args in Hnil as ->. vstep. repeat vstep.
  destruct (dispatch _) as [run_it|] eqn:Hd; [|apply handled_error].
  by eapply (dispatch_vkept h mgb m b).
Qed.
End execute.

(** ** The states of the contract *)
Section reachable.
Context {E : Type} {EI : SystemEI E} {EIL : SystemEILaws E}.
Context {CH : ContractHost E} {CHL : ContractHostLaws E}.
Context {VC : ValidatorContract} {VL : ValidatorLaws} {SP : StakingPromise (E:=E)}.
Context (self : bytes) (Hself : valDelegationMgrSCAddress ≠ self).

(** what happens to the contract between two calls: time passes, the other
    contracts act, and its account is credited with at least the value [v] of
    the next call *)
Record valBetween (v : Z) (e e' : E) : Prop := {
  vt_storage k : GetStorage k e' = GetStorage k e;
  vt_self : selfAddress e' = selfAddress e;
  vt_balance : (balanceOf e + v ≤ balanceOf e')%Z;
  vt_setting : ValSetting (hookOf e') (managementData e');
}.
(** the contract before its first call *)
Record freshValidator (e : E) : Prop := {
  fv_storage k : orEmpty (GetStorage k e) = [];
  fv_self : selfAddress e = self;
  fv_balance : (0 ≤ balanceOf e)%Z;
}.
(** the states after calls that were answered [Ok]; others are reverted *)
Inductive valReachable : E → Prop :=
  | valReachable_new e : freshValidator e → valReachable e
  | valReachable_call args e0 e e' :
      valReachable e0 → valBetween (valueOf args) e0 e → goodCall self args → coveredByBooks args →
      answersOk (Execute (Some args)) e e' → valReachable e'.

(** the storage holds good registrations, and the balance covers what is owed
    to their owners and the collected fines *)
Definition valSolvent (e : E) : Prop := ∃ m,
  VHeap (hookOf e) self (managementData e) e m (balanceOf e) ∧ VBooks m ∧
  (obligations m ≤ balanceOf e)%Z.

Lemma VHeap_at h mgb e m b :
  VHeap h self mgb e m b → VHeap (hookOf e) self (managementData e) e m (balanceOf e) ∧ balanceOf e = b.
Proof. intros []. subst. by split. Qed.
Lemma valSolvent_call e0 e args :
  valSolvent e0 → valBetween (valueOf args) e0 e → goodCall self args → coveredByBooks args →
  handled valSolvent (Execute (Some args)) e.
Proof.
  intros (m & HH & HB & Howed) [Hst Hsf Hbal Hset] Hcall Hcov.
  assert (VHeap (hookOf e) self (managementData e) e m (balanceOf e)) as HH'.
  { destruct HH. split; try done; [intros a Ha| |intros k Hk|congruence]; rewrite Hst; auto. }
  eapply handled_mono; [by eapply Execute_vkept|].
  intros e' (m' & b' & H1 & HB' & Hle). destruct (VHeap_at _ _ _ _ _ H1) as [H2 Hb].
  exists m'. split_and!; [done..|lia].
Qed.
Lemma valReachable_solvent e : valReachable e → valSolvent e.
Proof.
  induction 1 as [e [Hst Hsf Hb]|args e0 e e' Hr IH Hbt Hcall Hcov Hans].
  - exists (mkVStore ∅ []). split_and!; [split; try done| |].
    + intros a _. by rewrite lookup_empty Hst.
    + intros k _ c Hc. by rewrite Hst in Hc.
    + split. by intros a d.
    + unfold obligations. simpl. rewrite mapSum_empty. change (setBytes []) with 0%Z. lia.
  - eapply handled_answer; [|exact Hans]. by eapply valSolvent_call.
Qed.
End reachable.

(** ** What [unBondTokens] pays *)
(** what is asked for (everything, when there is no argument) as far as the
    values whose unbonding period is over reach *)
Definition unBondDue {VC : ValidatorContract} (ep : Z) (m : VStore) (args : ContractCallInput) : Z :=
  let available := maturedSum ep (UnstakedInfo (registrationOf m (callerOf args))) in
  match Arguments args with [v] => Z.min (setBytes v) available | _ => available end.

Section unbonding.
Context {E : Type} {EI : SystemEI E} {EIL : SystemEILaws E}.
Context {CH : ContractHost E} {CHL : HostLaws E}.
Context {VC : ValidatorContract} {VL : ValidatorLaws}.
Context (h : BlockchainHook) (self mgb : bytes).
Context (Hself : valDelegationMgrSCAddress ≠ self) (Hset : ValSetting h mgb).
Context (m : VStore) (b : Z) (HB : VBooks m).
Context (args : ContractCallInput) (Hcall : goodCall self args).
Context {TR : TransferLaws (callerOf args) E}.

Lemma unBondTokens_due e :
  VHeap h self mgb e m b → validatorFlag UnBondTokensV2Flag = true →
  let reg := registrationOf m (callerOf args) in
  let p := unBondDue (CurrentEpoch h) m args in
  handled (λ e', ∃ m' l, VHeap h self mgb e' m' (b - p) ∧
    registrationOf m' (callerOf args) = withUnstaked l reg ∧
    unstakedSum l = (unstakedSum (UnstakedInfo reg) - p)%Z ∧
    (∀ a, a ≠ callerOf args → registrationOf m' a = registrationOf m a))
    (unBondTokens args) e.
Proof.
  intros HH Hv2 reg p. pose proof (registrationOf_good m (callerOf args) HB) as Hg. fold reg in Hg.
  pose proof (unBondArgument_nonneg args) as Ha.
  destruct (unBonded_good (CurrentEpoch h) _ _ (gr_infos _ Hg) Ha) as (Hl & Hp0 & Hsum).
  pose proof (unBonded_paid (CurrentEpoch h) _ _ (gr_infos _ Hg) Ha) as Hp. rewrite Hv2 in Hp. simpl in Hp.
  eapply handled_mono; [by apply (unBondTokens_paid h self mgb Hself Hset m b HB args Hcall e HH)|].
  intros e' (_ & Harg & Hpaid). unfold unBondPaid in Hpaid. fold reg in Hpaid.
  assert ((unBonded (CurrentEpoch h) (unBondArgument args) (UnstakedInfo reg)).1 = p) as Hp'.
  { rewrite Hp. unfold p, unBondDue. fold reg. destruct Harg as [Hnil|(v & Hv & Hpos)].
    - unfold unBondArgument. by rewrite Hnil.
    - unfold unBondArgument. rewrite Hv. rewrite (proj2 (Z.eqb_neq _ _)); [done|lia]. }
  clearbody p. clear Hp. destruct (unBonded _ _ (UnstakedInfo reg)) as [p' l]. simpl in *. subst p'.
  destruct Hpaid as [Hpaid|[Hpaid Hz]].
  - exists (putRegistration (callerOf args) (withUnstaked l reg) m), l.
    split_and!; [done|apply registrationOf_put|lia|].
    intros a Hne. by apply registrationOf_other.
  - exists m, (UnstakedInfo reg). split_and!; [by rewrite Hz Z.sub_0_r| |lia|done].
    unfold withUnstaked. rewrite -(gr_unstaked _ Hg). fold reg. by destruct reg.
Qed.
End unbonding.
