(* ===== verification/ValidatorConcrete.v ===== *)
(** * ValidatorConcrete: an executable instance of the validator contract's world

    The host of [DelegationConcrete], a staking contract that accepts every
    call (and one that cannot be called), and a marshaller, for which the
    assumptions of the validator theorems are proved and calls are evaluated. *)
From Stdlib Require Import Floats.SpecFloat.
From S2P Require Import Prelude Sums SystemEI StakingData StakingNodes Contract DelegationData.
From S2P Require Import Concrete DelegationConcrete.
From S2P Require Import ValidatorData ValidatorNodes ValidatorTokens ValidatorSC ValidatorSpec.
From S2P Require Import ValidatorInvariant ValidatorSteps ValidatorHandlers ValidatorExecute.
#[local] Open Scope go_scope.

(** ** Marshallers *)
Definition encUnstaked (l : list UnstakedValue) : bytes :=
  encFields (concat (map (λ u, [encZ (UnstakedEpoch u); encOZ (UnstakedAmount u)]) l)).
Fixpoint pairUnstaked (l : list bytes) : list UnstakedValue :=
  match l with
  | a :: b :: t => mkUnstaked (decZ a) (decOZ b) :: pairUnstaked t
  | _ => []
  end.
Lemma pairUnstaked_enc l : pairUnstaked (decFields (encUnstaked l) []) = l.
Proof.
  unfold encUnstaked. rewrite decFields_enc. induction l as [|[ep v] l IH]; simpl; [done|].
  by rewrite decZ_enc decOZ_enc IH.
Qed.
#[local] Instance validatorData_fields : Fields ValidatorDataV2.
Proof.
  refine {| fieldsOf d := [encZ (valRegisterNonce d); encZ (valEpoch d); valRewardAddress d;
      encOZ (TotalStakeValue d); encOZ (LockedStake d); encOZ (MaxStakePerNode d);
      encFields (BlsPubKeys d); encZ (NumRegistered d); encUnstaked (UnstakedInfo d);
      encOZ (TotalUnstaked d); encOZ (TotalSlashed d)];
    ofFields l := match l with
      | [a; b; c; d; e; f; g; h; i; j; k] => Some (mkValidatorData (decZ a) (decZ b) c (decOZ d)
          (decOZ e) (decOZ f) (decFields g []) (decZ h) (pairUnstaked (decFields i [])) (decOZ j) (decOZ k))
      | _ => None end |}; [|by intros []].
  intros []; simpl. by rewrite !decZ_enc !decOZ_enc decFields_enc pairUnstaked_enc.
Defined.
#[local] Instance valConfig_fields : Fields ValidatorConfig.
Proof.
  refine {| fieldsOf c := [encOZ (MinStakeValue c); encOZ (TotalSupply c); encOZ (MinStep c);
      encOZ (NodePrice c); encOZ (UnJailPrice c)];
    ofFields l := match l with
      | [a; b; c; d; e] => Some (mkValidatorConfig (decOZ a) (decOZ b) (decOZ c) (decOZ d) (decOZ e))
      | _ => None end |}; [|by intros []].
  intros []; simpl. by rewrite !decOZ_enc.
Defined.

(** ** The contract *)
Definition demoValidator (unBondV2 : bool) : ValidatorContract := {|
  valUnBondPeriodInEpochs := 2;
  sigVerify _ _ _ := inr tt;
  valBaseConfig := mkValidatorConfig (Some 1%Z) (Some 1000000%Z) (Some 1%Z) (Some 100%Z) (Some 10%Z);
  stakingSCAddress := replicate 32 x03;
  validatorSCAddress := demoSelf;
  valWalletAddressLen := 32;
  gasUnJail := 1; gasChangeRewardAddress := 1; gasGet := 1; gasStakeNode := 1;
  gasAllNodeStates := 1; gasUnStake := 1; gasUnBond := 1; gasClaim := 1;
  gasUnStakeTokens := 1; gasUnBondTokens := 1;
  minUnstakeTokensValue := 1;
  valMinDeposit := 0;
  endOfEpochAddress := demoEndOfEpoch;
  valDelegationMgrSCAddress := demoManager;
  ComputeId _ := 0%Z;
  validatorFlag f :=
    match f with
    | UnBondTokensV2Flag => unBondV2
    | DelegationManagerFlag | StakeLimitsFlag => false
    | _ => true
    end;
  GetNumTotalEligible := 0;
  totalStakeLimit := 0;
  nodeLimitPercentage := float64OfUint64 1%Z;
  isContractAddress _ := false;
  returnCodeString _ := ""%string;
  validatorV2_marshaller := fieldsMarshaller;
  validatorV1_marshaller := opaqueMarshaller;
  validatorConfig_marshaller := fieldsMarshaller;
  valStakedData_marshaller := fieldsMarshaller;
  valManagement_marshaller := opaqueMarshaller;
|}.
#[export] Instance demoValidator_laws v2 : @ValidatorLaws (demoValidator v2).
Proof. split; apply fieldsMarshaller_laws. Qed.
Lemma demoValidator_setting v2 ep mgb :
  (0 ≤ ep < 2 ^ 32)%Z → @ValSetting (demoValidator v2) (hookAt ep) mgb.
Proof. intros Hep. split; simpl; [done| |done|done]. by split; eexists. Qed.

(** ** The staking contract *)
Definition agreeable : Validator := λ _ _ _ h, ([], 0%Z, h).
#[export] Instance agreeable_promise v2 :
  @StakingPromise World (worldEI agreeable) world_account (demoValidator v2).
Proof.
  split. intros data [hk sf own oth bal gas f ms l p]. unfold run, wp, executeOnStakingSC. simpl.
  destruct (splitCall data). simpl. split; simpl; try done || lia.
  unfold managementData. simpl. by rewrite lookup_insert_ne.
Qed.
(** the host of [agreeable], on which calls of other contracts fail *)
Definition unreachableStaking : SystemEI World :=
  let 'Build_SystemEI _ a b c d e f g h i j k l m n o p _ := worldEI agreeable in
  Build_SystemEI _ a b c d e f g h i j k l m n o p (λ _ _ _ _ w, (Throw "no contract"%string, w)).

(** ** The life of a registration *)
Section life.
Context (v2 : bool).
#[local] Instance life_validator : ValidatorContract := demoValidator v2.
#[local] Instance life_staking : SystemEI World := worldEI agreeable.

Definition valWorld : World := mkWorld (hookAt 0) demoSelf ∅ ∅ 0 1000 [] [] [] [].
Definition valStep (w : World) (call : Z * ContractCallInput) : World :=
  (Execute (Some call.2) (pass call.1 (valueOf call.2) w)).2.
Definition valLife (calls : list (Z * ContractCallInput)) : World := foldl valStep valWorld calls.

Lemma valWorld_reachable : valReachable demoSelf valWorld.
Proof. by apply valReachable_new. Qed.
Lemma valPass_between ep v w :
  (0 ≤ ep < 2 ^ 32)%Z → valBetween v w (pass ep v w).
Proof.
  intros Hep. split; try by destruct w.
  replace (hookOf _) with (hookAt ep) by by destruct w. by apply demoValidator_setting.
Qed.
Lemma valLife_reachable calls call :
  valReachable demoSelf (valLife calls) → (0 ≤ call.1 < 2 ^ 32)%Z →
  goodCall demoSelf call.2 → coveredByBooks call.2 →
  answer (Execute (Some call.2) (pass call.1 (valueOf call.2) (valLife calls))).1 = Some Ok →
  valReachable demoSelf (valLife (calls ++ [call])).
Proof.
  intros Hr Hep Hgood Hcov Hok. unfold valLife. rewrite foldl_app.
  eapply (valReachable_call _ call.2 (valLife calls)); [exact Hr|by apply valPass_between|done|done|by split].
Qed.
End life.

Definition blsKey1 : bytes := replicate 96 x77.
(** a stake of 250 for one node, whose top-up is unstaked and unbonded later *)
Definition stakeCall : Z * ContractCallInput :=
  (0%Z, demoCall demoUser "stake" [[x01]; blsKey1; [x02]] 250).
Definition unStakeCall : Z * ContractCallInput :=
  (1%Z, demoCall demoUser "unStakeTokens" [bigBytes 100] 0).
Definition unBondCall : Z * ContractCallInput :=
  (5%Z, demoCall demoUser "unBondTokens" [bigBytes 60] 0).
Definition stakedWorld : World := valLife true [stakeCall].
Definition unStakedWorld : World := valLife true [stakeCall; unStakeCall].

Section demo.
#[local] Instance demo_validator : ValidatorContract := demoValidator true.
#[local] Instance demo_staking : SystemEI World := worldEI agreeable.

Lemma demo_otherContract : valDelegationMgrSCAddress ≠ demoSelf.
Proof. by apply (bool_decide_unpack _); vm_compute. Qed.
Lemma demoCall_covered f arguments v :
  bool_decide (f ∉ ["getTotalStaked"; "getTotalStakedTopUpStakedBlsKeys"; "getBlsKeysStatus";
    "getUnStakedTokensList"; "setConfig"]) = true → length arguments < 4 →
  coveredByBooks (demoCall demoUser f arguments v).
Proof.
  intros Hf%bool_decide_eq_true Hl. split; simpl.
  - lia.
  - intros Hin. destruct Hf. rewrite !elem_of_cons in Hin |- *. tauto.
  - intros ->. destruct Hf. rewrite !elem_of_cons. tauto.
Qed.
Lemma stakedWorld_reachable : valReachable demoSelf stakedWorld.
Proof.
  apply (valLife_reachable true [] stakeCall); [by apply valWorld_reachable|done| | |by vm_compute].
  - by apply demoCall_good.
  - by apply demoCall_covered; [vm_compute|simpl; lia].
Qed.
Lemma unStakedWorld_reachable : valReachable demoSelf unStakedWorld.
Proof.
  apply (valLife_reachable true [stakeCall] unStakeCall); [exact stakedWorld_reachable|done| | |by vm_compute].
  - by apply demoCall_good.
  - by apply demoCall_covered; [vm_compute|simpl; lia].
Qed.

(** the world in which the unbonding call runs *)
Definition unBondWorld : World := pass 5 0 unStakedWorld.
Lemma unBondWorld_heap : ∃ m, VHeap (hookAt 5) demoSelf [] unBondWorld m 250 ∧ VBooks m.
Proof.
  destruct (valReachable_solvent demoSelf demo_otherContract unStakedWorld unStakedWorld_reachable)
    as (m & HH & HB & _).
  exists m. split; [|exact HB]. destruct HH as [Hr Hu Hc _ _ _ _].
  split; [exact Hr|exact Hu|exact Hc|exact eq_refl|exact eq_refl|by vm_compute|by vm_compute].
Qed.
Definition unBondedWorld : World := (unBondTokens unBondCall.2 unBondWorld).2.
Lemma unBondCall_good : goodCall demoSelf unBondCall.2.
Proof. by apply demoCall_good. Qed.
Lemma unBonded_ok : answersOk (unBondTokens unBondCall.2) unBondWorld unBondedWorld.
Proof. split; [by vm_compute|exact eq_refl]. Qed.
Lemma unBonded_balance : wBalance unBondedWorld = 190%Z.
Proof. by vm_compute. Qed.

(** the node is unstaked, and a call that restakes it carries 7 *)
Definition unStakedNode : StakedDataV2_0 :=
  mkStakedData 0 0 false 1 0 demoUser (Some 100%Z) 0 0 0 false false 0 (Some 0%Z) demoUser.
Definition reStakeCall : ContractCallInput := demoCall demoUser "reStakeUnStakedNodes" [blsKey1] 7.
Definition reStakeWorld : World :=
  let w := pass 5 7 unStakedWorld in
  setOthers (<[(stakingSCAddress, blsKey1) := match Marshal unStakedNode with inr d => d | inl _ => [] end]>
    (wOthers w)) w.
Lemma reStakeWorld_heap : ∃ m, VHeap (hookAt 5) demoSelf [] reStakeWorld m 257 ∧ VBooks m.
Proof.
  destruct (valReachable_solvent demoSelf demo_otherContract unStakedWorld unStakedWorld_reachable)
    as (m & HH & HB & _).
  exists m. split; [|exact HB]. destruct HH as [Hr Hu Hc _ _ _ _].
  split; [exact Hr|exact Hu|exact Hc|exact eq_refl|exact eq_refl|by vm_compute|by vm_compute].
Qed.
Lemma reStakeCall_good : goodCall demoSelf reStakeCall.
Proof. by apply demoCall_good. Qed.
Lemma reStake_ok : answersOk (reStakeUnStakedNodes reStakeCall) reStakeWorld
  (reStakeUnStakedNodes reStakeCall reStakeWorld).2.
Proof. split; [by vm_compute|exact eq_refl]. Qed.
End demo.
(** two values that wait, of which only the second is due *)
Definition waitingRegistration : ValidatorDataV2 :=
  mkValidatorData 0 0 demoUser (Some 100%Z) (Some 100%Z) (Some 0%Z) [blsKey1] 1
    [mkUnstaked 4 (Some 30%Z); mkUnstaked 0 (Some 20%Z)] (Some 50%Z) None.
Lemma waitingRegistration_good : goodRegistration waitingRegistration.
Proof.
  split; simpl; try done; try lia; [by eexists| |by eexists].
  by repeat constructor; simpl; try lia; eexists.
Qed.
