(* ===== verification/ValidatorTheorems.v ===== *)
(** * ValidatorTheorems: the properties of the validator contract *)
From Stdlib Require Import Floats.SpecFloat.
From S2P Require Import Prelude Sums SystemEI StakingData StakingNodes Contract DelegationData.
From S2P Require Import Concrete DelegationConcrete.
From S2P Require Import ValidatorData ValidatorNodes ValidatorTokens ValidatorSC ValidatorSpec.
From S2P Require Import ValidatorInvariant ValidatorSteps ValidatorHandlers ValidatorExecute.
From S2P Require Import ValidatorConcrete.
#[local] Open Scope go_scope.

(** the same call with another value *)
Definition withCallValue (v : Z) (args : ContractCallInput) : ContractCallInput :=
  let 'Build_ContractCallInput c l _ t g r f := args in Build_ContractCallInput c l (Some v) t g r f.

Section contract.
Context {E : Type} {EI : SystemEI E} {EIL : SystemEILaws E}.
Context {CH : ContractHost E} {CHL : ContractHostLaws E}.
Context {VC : ValidatorContract} {VL : ValidatorLaws} {SP : StakingPromise (E:=E)}.
Context (self : bytes) (Hself : valDelegationMgrSCAddress ≠ self).

(** C5: the validator contract can always pay out the stake it holds.  In
    every state that it reaches from empty storage by calls answered [Ok],
    whatever their callers and their order, every registration is consistent
    (its total of unstaked tokens is the sum of the waiting entries, and no
    amount is negative) and the contract's balance covers the staked and the
    unstaked tokens of all registrations and the collected unjail fines
    together. *)
Theorem validator_solvent e : valReachable self e → valSolvent self e.
Proof. by apply valReachable_solvent. Qed.

(** C6: a call of the reachable validator contract never panics, and when it
    is answered [Ok] the state it leaves is solvent again. *)
Theorem validator_call_safe e0 e args :
  valReachable self e0 → valBetween (valueOf args) e0 e → goodCall self args → coveredByBooks args →
  ∃ code e', answer (Execute (Some args) e).1 = Some code ∧ (Execute (Some args) e).2 = e' ∧
    (code = Ok → valSolvent self e').
Proof.
  intros Hr Hbt Hcall Hcov. pose proof (valReachable_solvent self Hself e0 Hr) as Hs.
  pose proof (valSolvent_call self Hself e0 e args Hs Hbt Hcall Hcov) as Hh.
  unfold handled, run, wp, exits in Hh.
  destruct (Execute (Some args) e) as [[c|c|] e']; [..|done]; by exists c, e'.
Qed.

Section state.
Context (h : BlockchainHook) (mgb : bytes) (Hset : ValSetting h mgb).
Context (m : VStore) (e : E) (b : Z) (HH : VHeap h self mgb e m b) (HB : VBooks m).

(** the same state, where the losses of [c] and [a] are observed *)
Lemma payments_vheap {RC : Receipts E} c a :
  VHeap (CH := observing (payments c a)) h self mgb e m (payments c a e).
Proof. destruct HH. by split. Qed.

(** C8: [unBondTokens] pays the caller exactly what it may, where the second
    version of the unbonding loop is in force ([UnBondTokensV2Flag]): the amount
    asked for (everything, when there is no argument) as far as the caller's
    values whose unbonding period is over reach ([unBondDue]).  Answered [Ok],
    the caller has received that amount and no other account has received
    anything, the contract's balance falls by that amount, the caller's waiting
    values fall by the same amount, and its staked tokens and all other
    registrations are as they were. *)
Theorem unBondTokens_pays {RC : Receipts E} {RCL : ReceiptsLaws E} args :
  goodCall self args → validatorFlag UnBondTokensV2Flag = true →
  handled (λ e', paidTo (callerOf args) (unBondDue (CurrentEpoch h) m args) e e' ∧
    ∃ m' l, VHeap h self mgb e' m' (b - unBondDue (CurrentEpoch h) m args) ∧
    registrationOf m' (callerOf args) = withUnstaked l (registrationOf m (callerOf args)) ∧
    unstakedSum l = (unstakedSum (UnstakedInfo (registrationOf m (callerOf args)))
                     - unBondDue (CurrentEpoch h) m args)%Z ∧
    (∀ a, a ≠ callerOf args → registrationOf m' a = registrationOf m a))
    (unBondTokens args) e.
Proof.
  intros Hcall Hv2. apply handled_and; [|exact (unBondTokens_due h self mgb Hself Hset m b HB args Hcall e HH Hv2)].
  eapply handled_mono; [apply (handled_all (λ a e', payments (callerOf args) a e' =
    (payments (callerOf args) a e - unBondDue (CurrentEpoch h) m args)%Z))|intros e'; apply paidTo_observed].
  intros a. pose proof (payments_host (callerOf args) a) as Hh.
  pose proof (payments_transfers (callerOf args) a) as Ht.
  eapply handled_mono; [by apply (unBondTokens_due (CH:=observing (payments (callerOf args) a))
    h self mgb Hself Hset m _ HB args Hcall e (payments_vheap _ _))|].
  intros e' (m' & l & HH' & _). exact (vh_balance _ _ _ _ _ _ HH').
Qed.

(** [reStakeUnStakedNodes] takes money for nothing.  Unlike the other
    functions that expect no payment it does not look at the value of the call:
    with any other value the call gives the same answer and the same state.  The
    value a call carries is already in the balance [b]; when the call is answered
    [Ok] no registration has changed and the balance is [b] still, so the value is
    not paid back and belongs to nobody. *)
Lemma reStakeUnStakedNodes_keeps_value args :
  goodCall self args →
  (∀ v, reStakeUnStakedNodes (withCallValue v args) e = reStakeUnStakedNodes args e) ∧
  handled (λ e', VHeap h self mgb e' m b) (reStakeUnStakedNodes args) e.
Proof. intros Hcall. split; [by destruct args|by apply reStakeUnStakedNodes_same]. Qed.
End state.
End contract.

Section unbonding.
Context {E : Type} {EI : SystemEI E} {VC : ValidatorContract}.

(** C31: the second version of the unbonding loop pays at least what the first
    one does, and when the values whose period is over come first the two
    versions pay the same and leave the same registration.  (The first version
    stops at the first value that is not due; the nodes that are unstaked from
    the queue get the epoch 0, so that their value can stand behind one that is
    not due yet.) *)
Theorem unBond_versions d v (e : E) :
  goodRegistration d → (0 ≤ v)%Z →
  ∃ d1 p1 d2 p2, unBondTokensFromRegistrationDataV1 d v e = (Ret (d1, p1), e) ∧
    unBondTokensFromRegistrationDataV2 d v e = (Ret (d2, p2), e) ∧ (p1 ≤ p2)%Z ∧
    ∀ due rest, UnstakedInfo d = due ++ rest →
      Forall (λ u, canUnbond (CurrentEpoch (hookOf e)) u = true) due →
      Forall (λ u, canUnbond (CurrentEpoch (hookOf e)) u = false) rest → d1 = d2 ∧ p1 = p2.
Proof.
  intros Hd Hv. pose proof (unBondV1_eq _ d Hd v Hv e eq_refl) as H1.
  pose proof (unBondV2_eq _ d Hd v Hv e eq_refl) as H2. pose proof (limitOf_good v Hv) as Hlim.
  set (ep := CurrentEpoch (hookOf e)) in *.
  destruct (spanMatured ep (UnstakedInfo d)) as [pre post] eqn:Hs.
  pose proof Hs as [Happ _]%spanMatured_app. pose proof (gr_infos _ Hd) as Hl.
  pose proof (unBondRef_paid ep _ _ Hl Hlim) as Hp2. rewrite Happ in Hl, Hp2.
  rewrite Happ in H2. apply Forall_app in Hl as [Hpre Hpost].
  pose proof (unBondRef_paid ep _ _ Hpre Hlim) as Hp1.
  rewrite maturedSum_app in Hp2. pose proof (maturedSum_nonneg ep _ Hpost).
  pose proof (unBondRef_unmatured ep (limitOf v 0) pre post) as Hsame.
  destruct (unBondRef ep _ pre) as [p1 l1], (unBondRef ep _ (pre ++ post)) as [p2 l2]. simpl in *.
  exists (withUnstaked (l1 ++ post) d), p1, (withUnstaked l2 d), p2. split_and!; [done|done| |].
  - destruct (limitOf v 0); lia.
  - intros due rest Hdue Hdue1 Hrest. rewrite Happ in Hdue.
    rewrite Happ Hdue spanMatured_first // in Hs. injection Hs as -> ->.
    specialize (Hsame Hrest). by injection Hsame as -> ->.
Qed.

(** A failed call of the staking contract is taken for a success.  When
    the call that registers the first new key ends with an error,
    [registerBLSKeys] itself ends without one: it returns the variable [err] of
    the last successful call instead of [errExec], with no keys, as if no nodes
    had been asked for. *)
Lemma registerBLSKeys_loses_error d pubKey owner args ks k nks x (e e1 e2 e3 : E) :
  (u64 (nodesArgument args + 1) ≤ Z.of_nat (length args))%Z →
  getVerifiedBLSKeysFromArgs (X:=error) pubKey args e = (Ret ks, e1) →
  getNewValidKeys (BlsPubKeys d) ks e1 = (Ret (k :: nks), e2) →
  isNumberOfNodesTooHigh (length (BlsPubKeys d) + 1) = false →
  executeOnStakingSC (stakingCall "register" [k; valRewardAddress d; owner; []]) e2 = (Throw x, e3) →
  ∃ e4, registerBLSKeys d pubKey owner args e = (Ret (d, [], []), e4).
Proof.
  intros Hlen Hks Hnew Hnodes Hexec. eexists. unfold registerBLSKeys. fold (nodesArgument args).
  rewrite (proj2 (Z.ltb_ge _ _)) //. unfold bind at 1. rewrite Hks.
  unfold bind at 1. rewrite Hnew. unfold bind at 1. cbn [registerLoop]. rewrite Hnodes.
  unfold bind at 1, attempt. rewrite Hexec. reflexivity.
Qed.
End unbonding.

(** ** Witnesses in the concrete world *)
Section witnesses.
#[local] Instance witness_validator : ValidatorContract := demoValidator true.
#[local] Instance witness_staking : SystemEI World := worldEI agreeable.

Lemma validator_solvent_witness : valReachable demoSelf unStakedWorld ∧ valSolvent demoSelf unStakedWorld.
Proof.
  split; [exact unStakedWorld_reachable|].
  exact (validator_solvent demoSelf demo_otherContract unStakedWorld unStakedWorld_reachable).
Defined.

Lemma validator_call_safe_witness : ∃ code e',
  answer (Execute (Some unBondCall.2) unBondWorld).1 = Some code ∧
  (Execute (Some unBondCall.2) unBondWorld).2 = e' ∧ (code = Ok → valSolvent demoSelf e').
Proof.
  apply (validator_call_safe demoSelf demo_otherContract unStakedWorld).
  - exact unStakedWorld_reachable.
  - by apply (valPass_between true).
  - by apply demoCall_good.
  - by apply demoCall_covered; [vm_compute|simpl; lia].
Defined.

(** 60 of the 100 that wait are paid, to the caller *)
Lemma unBondTokens_pays_witness : ∃ m, VBooks m ∧
  unBondDue 5 m unBondCall.2 = 60%Z ∧
  answersOk (unBondTokens unBondCall.2) unBondWorld unBondedWorld ∧
  paidTo demoUser 60 unBondWorld unBondedWorld.
Proof.
  destruct unBondWorld_heap as (m & HH & HB). exists m.
  pose proof (handled_answer _ _ _ unBondedWorld
    (unBondTokens_pays demoSelf demo_otherContract (hookAt 5) [] (demoValidator_setting true 5 [] ltac:(done))
       m unBondWorld 250 HH HB unBondCall.2 unBondCall_good eq_refl) unBonded_ok)
    as (Hpaid & m' & l & HH' & _).
  pose proof (eq_trans (eq_sym unBonded_balance) (vh_balance _ _ _ _ _ _ HH')) as Hbal.
  assert (∀ d, 190 = 250 - d → d = 60)%Z as Hd by lia. pose proof (Hd _ Hbal) as Hdue.
  split_and!; [exact HB|exact Hdue|exact unBonded_ok|]. rewrite -Hdue. exact Hpaid.
Defined.

(** the call is paid 7, and is answered [Ok] *)
Lemma reStakeUnStakedNodes_keeps_value_witness :
  valueOf reStakeCall = 7%Z ∧
  answersOk (reStakeUnStakedNodes reStakeCall) reStakeWorld (reStakeUnStakedNodes reStakeCall reStakeWorld).2 ∧
  ∃ m, VHeap (hookAt 5) demoSelf [] (reStakeUnStakedNodes reStakeCall reStakeWorld).2 m 257.
Proof.
  split; [exact eq_refl|]. split; [exact reStake_ok|].
  destruct reStakeWorld_heap as (m & HH & HB). exists m.
  exact (handled_answer _ _ _ _
    (proj2 (reStakeUnStakedNodes_keeps_value demoSelf demo_otherContract (hookAt 5) []
       (demoValidator_setting true 5 [] ltac:(done)) m reStakeWorld 257 HH HB reStakeCall
       reStakeCall_good)) reStake_ok).
Defined.

(** 20 of the 50 that wait are due, behind 30 that are not: the first version
    pays nothing, the second the 20 *)
Lemma unBond_versions_witness :
  (∃ d1 p1 d2 p2, unBondTokensFromRegistrationDataV1 waitingRegistration 0 unBondWorld = (Ret (d1, p1), unBondWorld) ∧
    unBondTokensFromRegistrationDataV2 waitingRegistration 0 unBondWorld = (Ret (d2, p2), unBondWorld) ∧
    (p1 ≤ p2)%Z ∧ ∀ due rest, UnstakedInfo waitingRegistration = due ++ rest →
      Forall (λ u, canUnbond (CurrentEpoch (hookOf unBondWorld)) u = true) due →
      Forall (λ u, canUnbond (CurrentEpoch (hookOf unBondWorld)) u = false) rest → d1 = d2 ∧ p1 = p2) ∧
  unBondRef 5 None (UnstakedInfo waitingRegistration) = (20%Z, [mkUnstaked 4 (Some 30%Z)]) ∧
  spanMatured 5 (UnstakedInfo waitingRegistration) = ([], UnstakedInfo waitingRegistration).
Proof.
  split; [|split; by vm_compute].
  exact (unBond_versions waitingRegistration 0 unBondWorld waitingRegistration_good ltac:(done)).
Defined.
End witnesses.

Section flaw_witness.
#[local] Instance flaw_validator : ValidatorContract := demoValidator true.
#[local] Instance flaw_staking : SystemEI World := unreachableStaking.

(** no node is registered, but the stake of 250 is accepted *)
Lemma registerBLSKeys_loses_error_witness :
  (∃ e4, registerBLSKeys newRegistration demoUser demoUser [[x01]; blsKey1; [x02]] valWorld
     = (Ret (newRegistration, [], []), e4)) ∧
  answer (stake stakeCall.2 (pass 0 250 valWorld)).1 = Some Ok.
Proof.
  split; [|by vm_compute].
  apply (registerBLSKeys_loses_error newRegistration demoUser demoUser [[x01]; blsKey1; [x02]]
           [blsKey1] blsKey1 [] "no contract"%string valWorld valWorld valWorld valWorld).
  - by vm_compute.
  - reflexivity.
  - reflexivity.
  - reflexivity.
  - reflexivity.
Defined.
End flaw_witness.
