(* ===== verification/DelegationManager.v ===== *)
(** * DelegationManager: the delegation manager system smart contract

    delegationManager.go: it deploys the delegation contracts, keeps their list,
    the number of them and the addresses each owner deployed, and the minimums
    all of them read.  The parts of the host that only this contract uses are
    the class [DeployEI]. *)
From Stdlib Require Import Floats.SpecFloat.
From S2P Require Import Prelude SystemEI Eei StakingData DelegationData.
#[local] Open Scope go_scope.

(** delegation.proto *)
Record DelegationContractList : Type := mkContractList { Addresses : list bytes }.
Definition zeroContractList : DelegationContractList := mkContractList [].

Definition delegationContractsList : bytes := toBytes "delegationContracts".
Definition nextAddressAdd : Z := Z.shiftl 1 24.
Definition ErrInvalidCaller : error := "the function was called by a not authorized user".
Definition ErrInvalidArgument : error := "invalid argument".

(** ** The contract's parameters *)
Inductive ManagerFlag : Type :=
  | MgrDelegationManagerFlag
  | MgrValidatorToDelegationFlag
  | MgrFixDelegationChangeOwnerOnAccountFlag
  | MgrMultiClaimOnDelegationFlag.
(** The fields of [delegationManager] that the delegation contracts do not have
    too; those they share are fields of [DelegationContract]. *)
Class ManagerContract : Type := {
  configChangeAddr : bytes;
  gasDelegationMgrOps : Z;
  gasValidatorToDelegation : Z;
  minCreationDeposit : Z;
  minDelegationAmount : Z;
  managerFlag : ManagerFlag → bool;
  isSmartContractAddress : bytes → bool;
  contractList_marshaller :: Marshaller DelegationContractList;
}.
(** the rest of vm.SystemEI: an error of [UpdateCodeDeployerAddress] leaves the
    host as it was, [GetTotalSentToUser] may be nil *)
Class DeployEI (E : Type) : Type := {
  DeploySystemSC : bytes → bytes → bytes → string → Z → list bytes → M E error ReturnCode;
  UpdateCodeDeployerAddress : bytes → bytes → E → error + E;
  GetTotalSentToUser : bytes → E → option Z;
}.

#[export] Instance vmContext_DeployEI `{Host} : DeployEI vmContext := {
  DeploySystemSC := Eei.DeploySystemSC;
  UpdateCodeDeployerAddress := Eei.UpdateCodeDeployerAddress;
  GetTotalSentToUser := Eei.GetTotalSentToUser;
}.

Section manager.
Context {E : Type} {EI : SystemEI E} {DE : DeployEI E} {DC : DelegationContract} {MC : ManagerContract}.

(** ** Loading and saving *)
Definition getDelegationManagementData : M E error DelegationManagement :=
  let! marshaledData := readStorage delegationManagementKey in
  match marshaledData with
  | [] => throw (ErrDataNotFoundUnderKey ++ " getDelegationManagementData")%string
  | _ => fromSum (Unmarshal zeroManagement marshaledData)
  end.
Definition saveDelegationManagementData (managementData : DelegationManagement) : M E error unit :=
  let! marshaledData := fromSum (Marshal managementData) in
  modify (SetStorageForAddress delegationMgrSCAddress delegationManagementKey marshaledData).
Definition getDelegationContractList : M E error DelegationContractList :=
  let! marshaledData := readStorageFrom delegationMgrSCAddress delegationContractsList in
  match marshaledData with
  | [] => throw (ErrDataNotFoundUnderKey ++ " getDelegationContractList")%string
  | _ => fromSum (Unmarshal zeroContractList marshaledData)
  end.
Definition saveDelegationContractList (l : DelegationContractList) : M E error unit :=
  let! marshaledData := fromSum (Marshal l) in
  setStorage delegationContractsList marshaledData.

Definition init (args : ContractCallInput) : handler E :=
  returnIf (negb (valueOf args =? 0)%Z) ErrCallValueMustBeZero UserError ;;;
  orReturn (saveDelegationManagementData (mkManagement 0 FirstDelegationSCAddress minServiceFee
    maxServiceFee (Some minCreationDeposit) (Some minDelegationAmount))) "" UserError ;;;
  orReturn (saveDelegationContractList (mkContractList [FirstDelegationSCAddress])) "" UserError ;;;
  ret Ok.

(** ** Deploying *)
(** the number of leading zero bytes *)
Fixpoint leadingZeros (b : bytes) : nat :=
  match b with
  | x00 :: t => S (leadingZeros t)
  | _ => 0
  end.
Definition createNewAddress (lastAddress : bytes) : bytes :=
  replicate (leadingZeros lastAddress) x00 ++ bigBytes (setBytes lastAddress + nextAddressAdd).
Definition callerAlreadyDeployed (address : bytes) (e : E) : bool :=
  0 <? length (orEmpty (GetStorage address e)).

Definition withDeployed (newAddress : bytes) (d : DelegationManagement) : DelegationManagement :=
  let 'mkManagement n l mi ma de am := d in mkManagement (u32 (n + 1)) newAddress mi ma de am.
(** a code that is not [Ok] is answered as it is *)
Definition deployNewContract (args : ContractCallInput) (checkMinDeposit : bool)
    (initFunction : string) (deployerAddr : bytes) (depositValue : Z) (arguments : list bytes) :
    M E ReturnCode bytes :=
  let! delegationManagement := orReturn getDelegationManagementData "" UserError in
  let! minValue := deref (MinDeposit delegationManagement) in
  returnIf ((valueOf args <? minValue)%Z && checkMinDeposit) "not enough call value" UserError ;;;
  let! delegationList := orReturn getDelegationContractList "" UserError in
  let newAddress := createNewAddress (LastAddress delegationManagement) in
  let! returnCode := orReturn (DeploySystemSC FirstDelegationSCAddress newAddress deployerAddr
    initFunction depositValue arguments) "" UserError in
  returnQuietIf (negb (bool_decide (returnCode = Ok))) returnCode ;;;
  let! currentStorage := readStorage (callerOf args) in
  setStorage (callerOf args) (currentStorage ++ newAddress) ;;;
  orReturn (saveDelegationManagementData (withDeployed newAddress delegationManagement)) "" UserError ;;;
  orReturn (saveDelegationContractList (mkContractList (Addresses delegationList ++ [newAddress]))) ""
    UserError ;;;
  finish newAddress ;;;
  ret newAddress.

Definition createNewDelegationContract (args : ContractCallInput) : handler E :=
  returnIf (negb (length (Arguments args) =? 2)) "wrong number of arguments" FunctionWrongSignature ;;;
  useGas gasDelegationMgrOps ;;;
  let! deployed := gets (callerAlreadyDeployed (callerOf args)) in
  returnIf deployed "caller already deployed a delegation sc" UserError ;;;
  deployNewContract args true SCDeployInitFunctionName (callerOf args) (valueOf args) (Arguments args) ;;;
  ret Ok.

Definition correctOwnerOnAccount (newAddress caller : bytes) : M E error unit :=
  if negb (managerFlag MgrFixDelegationChangeOwnerOnAccountFlag) then ret tt
  else λ e, match UpdateCodeDeployerAddress newAddress caller e with
            | inl err => (Throw err, e)
            | inr e' => (Ret tt, e')
            end.

Definition checkValidatorToDelegationInput (args : ContractCallInput) : M E ReturnCode unit :=
  returnIf (negb (managerFlag MgrValidatorToDelegationFlag)) "invalid function to call" UserError ;;;
  returnIf (negb (valueOf args =? 0)%Z) "callValue must be 0" UserError ;;;
  useGas gasValidatorToDelegation ;;;
  returnIf (isSmartContractAddress (callerOf args))
    "cannot change from validator to delegation contract for a smart contract" UserError.

Definition makeNewContractFromValidatorData (args : ContractCallInput) : handler E :=
  checkValidatorToDelegationInput args ;;;
  returnIf (negb (length (Arguments args) =? 2)) "invalid number of arguments" UserError ;;;
  let! deployed := gets (callerAlreadyDeployed (callerOf args)) in
  returnIf deployed "caller already deployed a delegation sc" UserError ;;;
  let! newAddress := deployNewContract args false "initFromValidatorData" delegationMgrSCAddress 0
    (callerOf args :: Arguments args) in
  orReturn (correctOwnerOnAccount newAddress (callerOf args)) "" UserError ;;;
  ret Ok.

(** ** Merging a validator into a delegation contract *)
(** the slices of [buff] of the length of an address *)
Fixpoint ownsLoop {X} (fuel lenAddress : nat) (buff scAddress : bytes) : M E X bool :=
  match fuel, buff with
  | S fuel, _ :: _ =>
    if length buff <? lenAddress then panic
    else if bool_decide (take lenAddress buff = scAddress) then ret true
    else ownsLoop fuel lenAddress (drop lenAddress buff) scAddress
  | _, _ => ret false
  end.
Definition checkCallerIsOwnerOfContract (args : ContractCallInput) : M E ReturnCode unit :=
  let! buff := readStorage (callerOf args) in
  returnIf (length buff =? 0) "the caller does not own a delegation sc" UserError ;;;
  let! found := ownsLoop (length buff) (length (callerOf args)) buff (arg args 0) in
  returnIf (negb found) "did not find delegation contract with given address for this caller" UserError.
Definition isAddressWhiteListedForMerge (args : ContractCallInput) : M E ReturnCode unit :=
  let! savedAddress := readStorageFrom (arg args 0) whitelistedAddress in
  returnIf (negb (bool_decide (savedAddress = callerOf args))) "address is not whitelisted for merge"
    UserError.

Definition mergeValidatorToDelegation (checkFunc : ContractCallInput → M E ReturnCode unit)
    (args : ContractCallInput) : handler E :=
  checkValidatorToDelegationInput args ;;;
  returnIf (negb (length (Arguments args) =? 1)) "invalid number of arguments" UserError ;;;
  let scAddress := arg args 0 in
  returnIf (negb (length scAddress =? length (callerOf args))) "invalid argument, wanted an address"
    UserError ;;;
  checkFunc args ;;;
  let! vmOutput := orReturn (ExecuteOnDestContext scAddress delegationMgrSCAddress 0
    (toBytes ("mergeValidatorDataToDelegation" ++ "@" ++ hexString (callerOf args)))) "" UserError in
  returnQuietIf (negb (bool_decide (outReturnCode vmOutput = Ok))) (outReturnCode vmOutput) ;;;
  let! vmOutput := orReturn (ExecuteOnDestContext scAddress delegationMgrSCAddress 0
    (toBytes "deleteWhitelistForMerge")) "" UserError in
  ret (outReturnCode vmOutput).

(** ** Configuration *)
Definition checkConfigChangeInput (args : ContractCallInput) : error + unit :=
  if negb (valueOf args =? 0)%Z then inl ErrCallValueMustBeZero
  else if negb (length (Arguments args) =? 1) then inl ErrInvalidNumOfArguments
  else if negb (bool_decide (callerOf args = configChangeAddr)) then inl ErrInvalidCaller
  else inr tt.
Definition withMinDeposit v (d : DelegationManagement) : DelegationManagement :=
  let 'mkManagement n l mi ma de am := d in mkManagement n l mi ma v am.
Definition withMinDelegationAmount v (d : DelegationManagement) : DelegationManagement :=
  let 'mkManagement n l mi ma de am := d in mkManagement n l mi ma de v.

Definition changeMinDeposit (args : ContractCallInput) : handler E :=
  orReturn (fromSum (checkConfigChangeInput args)) "" UserError ;;;
  let! delegationManagement := orReturn getDelegationManagementData "" UserError in
  let minDeposit := setBytes (arg args 0) in
  returnIf (minDeposit <? 0)%Z "invalid min deposit" UserError ;;;
  orReturn (saveDelegationManagementData (withMinDeposit (Some minDeposit) delegationManagement)) ""
    UserError ;;;
  ret Ok.
Definition changeMinDelegationAmount (args : ContractCallInput) : handler E :=
  orReturn (fromSum (checkConfigChangeInput args)) "" UserError ;;;
  let! delegationManagement := orReturn getDelegationManagementData "" UserError in
  let minDelegationAmount := setBytes (arg args 0) in
  returnIf (minDelegationAmount <=? 0)%Z "invalid min delegation amount" UserError ;;;
  orReturn (saveDelegationManagementData
    (withMinDelegationAmount (Some minDelegationAmount) delegationManagement)) "" UserError ;;;
  ret Ok.

(** ** Views *)
Definition getAllContractAddresses (args : ContractCallInput) : handler E :=
  returnIf (negb (bool_decide (callerOf args = delegationMgrSCAddress))) ErrInvalidCaller UserError ;;;
  let! contractList := orReturn getDelegationContractList "" UserError in
  returnQuietIf (length (Addresses contractList) =? 0) Ok ;;;
  forEach (tail (Addresses contractList)) finish ;;;
  ret Ok.
Definition getContractConfig (args : ContractCallInput) : handler E :=
  returnIf (negb (bool_decide (callerOf args = delegationMgrSCAddress))) ErrInvalidCaller UserError ;;;
  let! cfg := orReturn getDelegationManagementData "" UserError in
  finish (bigBytes (NumOfContracts cfg)) ;;;
  finish (LastAddress cfg) ;;;
  finish (bigBytes (MinServiceFee cfg)) ;;;
  finish (bigBytes (MaxServiceFee cfg)) ;;;
  let! minDeposit := deref (MinDeposit cfg) in
  finish (bigBytes minDeposit) ;;;
  let! minDelegationAmount := deref (MinDelegationAmount cfg) in
  finish (bigBytes minDelegationAmount) ;;;
  ret Ok.

(** ** Calls of many delegation contracts *)
Definition executeFuncOnListAddresses (args : ContractCallInput) (funcName : string) :
    M E ReturnCode unit :=
  returnIf (negb (managerFlag MgrMultiClaimOnDelegationFlag)) "invalid function to call" UserError ;;;
  returnIf (length (Arguments args) <? 1) ErrInvalidNumOfArguments UserError ;;;
  (λ e, match UseGas gasDelegationOps e with
        | None => (addReturnMessage ErrNotEnoughGas ;;; throw UserError) e
        | Some e' => (Ret tt, e')
        end) ;;;
  foldEach (Arguments args) ∅ (λ (mapAddresses : gset bytes) address,
    returnIf (negb (length address =? length (callerOf args))) ErrInvalidArgument UserError ;;;
    returnIf (bool_decide (address ∈ mapAddresses)) "duplicated input" UserError ;;;
    let! vmOutput := orReturn (ExecuteOnDestContext address (callerOf args) 0 (toBytes funcName)) ""
      UserError in
    returnQuietIf (negb (bool_decide (outReturnCode vmOutput = Ok))) (outReturnCode vmOutput) ;;;
    ret ({[address]} ∪ mapAddresses)) ;;;
  ret tt.
Definition claimMulti (args : ContractCallInput) : handler E :=
  executeFuncOnListAddresses args "claimRewards" ;;;
  let! totalSent := gets (GetTotalSentToUser (callerOf args)) in
  let! totalSent := deref totalSent in
  finish (bigBytes totalSent) ;;;
  ret Ok.
Definition getTotalReDelegatedFromLogs (logs : list LogEntry) : Z :=
  foldl (λ total log,
    match Topics log with
    | topic :: _ => if bool_decide (Identifier log = toBytes "delegate")
                    then (total + setBytes topic)%Z else total
    | [] => total
    end) 0%Z logs.
Definition reDelegateMulti (args : ContractCallInput) : handler E :=
  executeFuncOnListAddresses args "reDelegateRewards" ;;;
  let! logs := gets GetLogs in
  finish (bigBytes (getTotalReDelegatedFromLogs logs)) ;;;
  ret Ok.

(** ** The dispatcher *)
Definition dispatch (function : string) : option (ContractCallInput → handler E) :=
  let table : list (string * (ContractCallInput → handler E)) :=
    [ (SCDeployInitFunctionName, init);
      ("createNewDelegationContract", createNewDelegationContract);
      ("getAllContractAddresses", getAllContractAddresses);
      ("getContractConfig", getContractConfig);
      ("changeMinDeposit", changeMinDeposit);
      ("changeMinDelegationAmount", changeMinDelegationAmount);
      ("makeNewContractFromValidatorData", makeNewContractFromValidatorData);
      ("mergeValidatorToDelegationSameOwner", mergeValidatorToDelegation checkCallerIsOwnerOfContract);
      ("mergeValidatorToDelegationWithWhitelist", mergeValidatorToDelegation isAddressWhiteListedForMerge);
      ("claimMulti", claimMulti);
      ("reDelegateMulti", reDelegateMulti) ] in
  snd <$> List.find (λ entry, bool_decide (fst entry = function)) table.

Definition Execute (input : option ContractCallInput) : handler E :=
  match CheckIfNil input with
  | inl err => addReturnMessage err ;;; ret UserError
  | inr args =>
    returnIf (negb (managerFlag MgrDelegationManagerFlag)) "delegation manager contract is not enabled"
      UserError ;;;
    returnIf (0 <? ESDTTransfers args) "cannot transfer ESDT to system SCs" UserError ;;;
    match dispatch (Function args) with
    | Some run => run args
    | None => addReturnMessage "invalid function to call" ;;; ret UserError
    end
  end.
(** [CanUseContract] *)
Definition CanUseManager : bool := managerFlag MgrDelegationManagerFlag.
End manager.
