(* ===== verification/ManagerExecute.v ===== *)
(** * ManagerExecute: the directory the delegation manager keeps, and that every call keeps it

    The addresses that [createNewAddress] gives one after the other, what the
    manager relies on from its host, and the directory of the deployed contracts
    in the manager's storage.  One lemma per handler: it does not panic, and where
    it answers [Ok] the directory is well-formed and the value of the call has
    been passed on (or, for the calls of many contracts, is kept). *)
From Stdlib Require Import Floats.SpecFloat.
From S2P Require Import Prelude SystemEI StakingData Sums DelegationData Contract DelegationManager.
#[local] Open Scope go_scope.

(** ** The addresses *)
Definition contractAddress (k : nat) : bytes := Nat.iter k createNewAddress FirstDelegationSCAddress.

Lemma setBytes_zeros n b : setBytes (replicate n x00 ++ b) = setBytes b.
Proof. induction n as [|n IH]; [done|]. simpl replicate. rewrite -app_comm_cons -IH (setBytes_app [x00]). done. Qed.
Lemma setBytes_createNewAddress a : setBytes (createNewAddress a) = (setBytes a + nextAddressAdd)%Z.
Proof.
  unfold createNewAddress. rewrite setBytes_zeros setBytes_bigBytes //.
  pose proof (setBytes_nonneg a). change nextAddressAdd with 16777216%Z. lia.
Qed.
Lemma setBytes_contractAddress k :
  setBytes (contractAddress k) = (setBytes FirstDelegationSCAddress + Z.of_nat k * nextAddressAdd)%Z.
Proof.
  induction k as [|k IH]; [simpl; lia|]. unfold contractAddress in *. simpl.
  rewrite setBytes_createNewAddress IH. lia.
Qed.
Lemma contractAddress_inj j k : contractAddress j = contractAddress k → j = k.
Proof.
  intros Heq%(f_equal setBytes). rewrite !setBytes_contractAddress in Heq.
  change nextAddressAdd with 16777216%Z in Heq. lia.
Qed.

Lemma setBytes_bound b : (setBytes b < 256 ^ Z.of_nat (length b))%Z.
Proof.
  induction b as [|x b IH] using rev_ind; [done|]. rewrite setBytes_app length_app /=.
  rewrite Nat2Z.inj_add Z.pow_add_r; [|lia..]. change (256 ^ Z.of_nat 1)%Z with 256%Z.
  change (setBytes [x]) with (0 * 256 + Z.of_N (Byte.to_N x))%Z. pose proof (Byte.to_N_bounded x). lia.
Qed.
(** a number's bytes do not begin with a zero *)
Lemma leadingZeros_cons x t : x ≠ x00 → leadingZeros (x :: t) = 0.
Proof. intros Hx. simpl. by destruct x. Qed.
Lemma leadingZeros_aux fuel n acc :
  (n < 2 ^ N.of_nat fuel)%N → (n = 0%N → leadingZeros acc = 0) → leadingZeros (bytesAux fuel n acc) = 0.
Proof.
  revert n acc. induction fuel as [|fuel IH]; intros n acc Hn Hacc; simpl bytesAux.
  - apply Hacc. change (2 ^ N.of_nat 0)%N with 1%N in Hn. lia.
  - destruct (N.eqb_spec n 0) as [->|Hn0]; [auto|].
    apply IH; [rewrite Nat2N.inj_succ N.pow_succ_r' in Hn; apply N.Div0.div_lt_upper_bound; lia|].
    intros Hd. pose proof (N.div_mod n 256 ltac:(done)) as Hdm. rewrite Hd in Hdm.
    pose proof (N.mod_lt n 256 ltac:(done)) as Hm.
    destruct (Byte.of_N (n mod 256)) as [x|] eqn:Hx; [|apply Byte.of_N_None_iff in Hx; lia].
    simpl default. apply leadingZeros_cons. intros ->. apply Byte.to_of_N in Hx. simpl in Hx. lia.
Qed.
Lemma leadingZeros_bigBytes n z : (0 ≤ z)%Z → leadingZeros (replicate n x00 ++ bigBytes z) = n.
Proof.
  intros Hz. induction n as [|n IH]; simpl; [|by rewrite IH]. unfold bigBytes. apply leadingZeros_aux; [|done].
  destruct (N.eq_dec (Z.abs_N z) 0%N) as [->|Hz0]; [done|].
  rewrite Nat2N.inj_succ N2Nat.id. apply N.log2_spec. lia.
Qed.
Lemma contractAddress_bytes k : contractAddress k = replicate 9 x00 ++ bigBytes (setBytes (contractAddress k)).
Proof.
  induction k as [|k IH]; [by vm_compute|]. pose proof (setBytes_nonneg (contractAddress k)) as Hk.
  change (contractAddress (S k)) with (createNewAddress (contractAddress k)).
  rewrite setBytes_createNewAddress {1}/createNewAddress {1}IH leadingZeros_bigBytes //.
Qed.
(** there is room for 2^32 contracts, and far more *)
Lemma contractAddress_length k : (Z.of_nat k < 2 ^ 32)%Z → length (contractAddress k) = 32.
Proof.
  intros Hk. rewrite contractAddress_bytes length_app length_replicate.
  pose proof (setBytes_contractAddress k) as Hv. set (v := setBytes (contractAddress k)) in *.
  assert (256 ^ Z.of_nat 22 ≤ v < 256 ^ Z.of_nat 23)%Z as [Hlo Hhi].
  { assert (256 ^ Z.of_nat 22 ≤ setBytes FirstDelegationSCAddress)%Z as Hf
      by (apply Z.leb_le; vm_compute; reflexivity).
    assert (setBytes FirstDelegationSCAddress + 2 ^ 32 * nextAddressAdd ≤ 256 ^ Z.of_nat 23)%Z as Hf'
      by (apply Z.leb_le; vm_compute; reflexivity).
    clearbody v. revert Hf Hf' Hv. generalize (256 ^ Z.of_nat 22)%Z (256 ^ Z.of_nat 23)%Z
      (setBytes FirstDelegationSCAddress). change nextAddressAdd with 16777216%Z. lia. }
  pose proof (bigBytes_length 23 v ltac:(lia)) as Hl.
  pose proof (setBytes_bound (bigBytes v)) as Hb. rewrite setBytes_bigBytes in Hb; [|lia].
  assert (22 < length (bigBytes v)); [|lia].
  apply Nat2Z.inj_lt. apply (Z.pow_lt_mono_r_iff 256); lia.
Qed.

(** ** The host *)
Definition deployFunctions : list string := [SCDeployInitFunctionName; "initFromValidatorData"].
(** the calls of delegation contracts that the manager makes *)
Definition managerCall (input : bytes) : Prop :=
  input = toBytes "claimRewards" ∨ input = toBytes "reDelegateRewards" ∨
  input = toBytes "deleteWhitelistForMerge" ∨
  ∃ a, input = toBytes ("mergeValidatorDataToDelegation" ++ "@" ++ hexString a).

(** The manager's own address reads and writes its own storage, and the
    contracts that the manager deploys and calls leave the manager's storage
    alone when they answer [Ok]; a deployment takes its value, and what was sent
    to the sender of a call is known. *)
Class ManagerPromise {E : Type} `{SystemEI E, ContractHost E, DeployEI E, DelegationContract} : Prop := {
  mp_read k (e : E) : GetStorageFromAddress (selfAddress e) k e = GetStorage k e;
  mp_write k v (e : E) : SetStorageForAddress (selfAddress e) k v e = SetStorage k v e;
  mp_deploy newAddress owner f v input (e : E) : f ∈ deployFunctions →
    run anyError (DeploySystemSC FirstDelegationSCAddress newAddress owner f v input)
      (λ code e', code = Ok → keptOwn e e' ∧ balanceOf e' = (balanceOf e - v)%Z) e;
  mp_call destination sender input (e : E) : managerCall input →
    run anyError (ExecuteOnDestContext destination sender 0 input)
      (λ out e', outReturnCode out = Ok → keptOwn e e' ∧ balanceOf e' = balanceOf e ∧
         is_Some (GetTotalSentToUser sender e')) e;
  mp_owner a o (e e' : E) : UpdateCodeDeployerAddress a o e = inr e' → same e e';
}.

Definition managementRange (d : DelegationManagement) : Prop :=
  (0 ≤ NumOfContracts d < 2 ^ 32)%Z ∧ (0 ≤ MinServiceFee d < 2 ^ 64)%Z ∧ (0 ≤ MaxServiceFee d < 2 ^ 64)%Z ∧
  is_Some (MinDeposit d) ∧ is_Some (MinDelegationAmount d).
Class ManagerLaws `{DelegationContract, ManagerContract} : Prop := {
  management_laws :: MarshallerLaws DelegationManagement managementRange zeroManagement;
  contractList_laws :: MarshallerLaws DelegationContractList (λ _, True) zeroContractList;
  fees_range : (0 ≤ minServiceFee < 2 ^ 64)%Z ∧ (0 ≤ maxServiceFee < 2 ^ 64)%Z;
  (** the constructor checks these *)
  minimums_range : (0 ≤ minCreationDeposit)%Z ∧ (0 < minDelegationAmount)%Z;
}.

(** ** The directory *)
Section directory.
Context {E : Type} {EI : SystemEI E} {EIL : SystemEILaws E}.
Context {CH : ContractHost E} {CHL : ContractHostLaws E} {DE : DeployEI E}.
Context {DC : DelegationContract} {MC : ManagerContract} {ML : ManagerLaws} {MP : ManagerPromise (E:=E)}.

Implicit Types (e : E) (d : DelegationManagement).

(** the contract an account deployed *)
Definition ownedBy (a : bytes) e : bytes := orEmpty (GetStorage a e).
(** the addresses of the first [n] contracts, behind the one that is only their model *)
Definition listed (n : nat) : DelegationContractList := mkContractList (map contractAddress (seq 0 (S n))).

Record Directory (n : nat) (d : DelegationManagement) e : Prop := {
  di_data : holds (Some d) (orEmpty (GetStorage delegationManagementKey e));
  di_list : holds (Some (listed n)) (orEmpty (GetStorage delegationContractsList e));
  di_count : NumOfContracts d = Z.of_nat n;
  di_last : LastAddress d = contractAddress n;
  di_range : managementRange d;
  di_deposit : ∃ v, MinDeposit d = Some v ∧ (0 ≤ v)%Z;
  di_amount : ∃ v, MinDelegationAmount d = Some v ∧ (0 < v)%Z;
  di_owner a : isAddress a → ownedBy a e = [] ∨ ∃ k, 0 < k ≤ n ∧ ownedBy a e = contractAddress k;
  di_unique a a' : isAddress a → isAddress a' → a ≠ a' → ownedBy a e = ownedBy a' e → ownedBy a e = [];
  di_self : selfAddress e = delegationMgrSCAddress;
}.

Lemma Directory_keptOwn n d e e' : Directory n d e → keptOwn e e' → Directory n d e'.
Proof.
  intros [] [Hk Hs]. unfold ownedBy in *.
  split; [by rewrite Hk|by rewrite Hk|done..| | |congruence].
  - intros a. unfold ownedBy. rewrite Hk. auto.
  - intros a a'. unfold ownedBy. rewrite !Hk. eauto.
Qed.
Lemma Directory_same n d e e' : Directory n d e → same e e' → Directory n d e'.
Proof. intros HD Hs. eapply Directory_keptOwn; [done|by apply same_keptOwn]. Qed.

(** the keys are different *)
Lemma managementKey_list : delegationManagementKey ≠ delegationContractsList.
Proof. by vm_compute. Qed.
Lemma address_management a : isAddress a → a ≠ delegationManagementKey.
Proof. by intros Ha ->. Qed.
Lemma address_list a : isAddress a → a ≠ delegationContractsList.
Proof. by intros Ha ->. Qed.

Lemma Directory_setManagement n d d' e x :
  Directory n d e → holds (Some d') x → NumOfContracts d' = NumOfContracts d → LastAddress d' = LastAddress d →
  managementRange d' → (∃ v, MinDeposit d' = Some v ∧ 0 ≤ v)%Z →
  (∃ v, MinDelegationAmount d' = Some v ∧ 0 < v)%Z →
  Directory n d' (SetStorage delegationManagementKey x e).
Proof.
  intros [] Hx Hn Hl Hr Hd Ha. unfold ownedBy in *.
  split; [by rewrite get_set_eq| |congruence|congruence|done..| | |by rewrite set_self].
  - rewrite get_set_ne; [done|exact managementKey_list].
  - intros a HHa. unfold ownedBy. rewrite get_set_ne; [auto|]. symmetry. by apply address_management.
  - intros a a' HHa HHa'. unfold ownedBy.
    rewrite !get_set_ne; [eauto|symmetry; by apply address_management..].
Qed.

(** the directory with one contract more, that [a] owns *)
Lemma Directory_deployed n d d' e a x y :
  Directory n d e → isAddress a → ownedBy a e = [] → (Z.of_nat (S n) < 2 ^ 32)%Z →
  holds (Some d') x → holds (Some (listed (S n))) y →
  NumOfContracts d' = Z.of_nat (S n) → LastAddress d' = contractAddress (S n) → managementRange d' →
  MinDeposit d' = MinDeposit d → MinDelegationAmount d' = MinDelegationAmount d →
  Directory (S n) d' (SetStorage delegationContractsList y (SetStorage delegationManagementKey x
    (SetStorage a (contractAddress (S n)) e))).
Proof.
  intros [] HHa Ha Hn Hx Hy Hc Hl Hr Hd Hm.
  set (e' := SetStorage _ y _). pose proof (address_management a HHa). pose proof (address_list a HHa).
  assert (∀ a', isAddress a' → ownedBy a' e' =
    if bool_decide (a' = a) then contractAddress (S n) else ownedBy a' e) as Hown.
  { intros a' HHa'. unfold e', ownedBy.
    rewrite get_set_ne; [|symmetry; by apply address_list].
    rewrite get_set_ne; [|symmetry; by apply address_management].
    destruct (bool_decide_reflect (a' = a)) as [->|Hne]; [by rewrite get_set_eq|by rewrite get_set_ne]. }
  split; [..|unfold e'; by rewrite !set_self].
  - unfold e'. rewrite get_set_ne; [by rewrite get_set_eq|]. symmetry. exact managementKey_list.
  - unfold e'. by rewrite get_set_eq.
  - done.
  - done.
  - done.
  - by rewrite Hd.
  - by rewrite Hm.
  - intros a' HHa'. rewrite Hown //. case_bool_decide; [right; exists (S n); split; [lia|done]|].
    destruct (di_owner0 a' HHa') as [Hk|(k & Hk & Heq)]; [by left|right; exists k; split; [lia|done]].
  - intros a1 a2 Ha1 Ha2 Hne. rewrite !Hown //.
    assert (∀ a', isAddress a' → ownedBy a' e = contractAddress (S n) → False) as Hfresh.
    { intros a' HHa' Heq. destruct (di_owner0 a' HHa') as [Hk|(k & Hk & Hk2)].
      - rewrite Hk in Heq. pose proof (contractAddress_length (S n) Hn) as Hlen. by rewrite -Heq in Hlen.
      - rewrite Hk2 in Heq. apply contractAddress_inj in Heq. lia. }
    repeat case_bool_decide; subst; [done| | |eauto].
    + intros Heq. by exfalso; apply (Hfresh a2).
    + intros Heq. by exfalso; apply (Hfresh a1).
Qed.
End directory.

Section handlers.
Context {E : Type} {EI : SystemEI E} {EIL : SystemEILaws E}.
Context {CH : ContractHost E} {CHL : ContractHostLaws E} {DE : DeployEI E}.
Context {DC : DelegationContract} {MC : ManagerContract} {ML : ManagerLaws} {MP : ManagerPromise (E:=E)}.

Implicit Types (e : E) (d : DelegationManagement).

(** the manager's state: its directory and its balance *)
Record MState (n : nat) d (b : Z) e : Prop := {
  ms_directory : Directory n d e;
  ms_balance : balanceOf e = b;
}.
Lemma MState_same n d b e e' : MState n d b e → same e e' → MState n d b e'.
Proof. intros [HD <-] Hs. split; [by eapply Directory_same|apply Hs]. Qed.
Lemma MState_keptOwn n d b e e' : MState n d b e → keptOwn e e' → MState n d (balanceOf e') e'.
Proof. intros [HD _] Hk. split; [by eapply Directory_keptOwn|done]. Qed.

Section steps.
Context {X : Type} (free : X → E → Prop).
Context (n : nat) (d : DelegationManagement) (b : Z) (e : E) (HH : MState n d b e).

Lemma mrun_message m Q : (∀ e', MState n d b e' → same e e' → Q tt e') → run free (addReturnMessage m) Q e.
Proof. intros HQ. apply HQ; [eapply MState_same; [done|]|]; apply same_msg. Qed.
Lemma mrun_finish v Q : (∀ e', MState n d b e' → same e e' → Q tt e') → run free (finish v) Q e.
Proof. intros HQ. apply HQ; [eapply MState_same; [done|]|]; apply same_finish. Qed.
Lemma mrun_useGas R g Q :
  (∀ e', MState n d b e' → same e e' → Q tt e') → run (exits R) (useGas g) Q e.
Proof.
  intros HQ. unfold useGas, run, wp. destruct (UseGas g e) as [e'|] eqn:Hg; [|done].
  apply same_gas in Hg. apply HQ; [by eapply MState_same|done].
Qed.
Lemma mrun_getData {fr} Q : Q d e → run fr getDelegationManagementData Q e.
Proof. apply run_load. eapply di_data, HH. Qed.
Lemma mrun_getList {fr} Q : Q (listed n) e → run fr getDelegationContractList Q e.
Proof.
  intros HQ. destruct (ms_directory _ _ _ _ HH) as [? Hl _ _ _ _ _ _ _ Hs].
  unfold getDelegationContractList. apply run_bind. unfold readStorageFrom. apply run_gets.
  rewrite -Hs mp_read. destruct Hl as [Hne Hl].
  destruct (orEmpty (GetStorage delegationContractsList e)); [done|]. by rewrite Hl.
Qed.
(** the minimums change *)
Lemma mrun_saveData d' (Q : unit → E → Prop) :
  NumOfContracts d' = NumOfContracts d → LastAddress d' = LastAddress d → managementRange d' →
  (∃ v, MinDeposit d' = Some v ∧ 0 ≤ v)%Z → (∃ v, MinDelegationAmount d' = Some v ∧ 0 < v)%Z →
  (∀ e', MState n d' b e' → Q tt e') → run anyError (saveDelegationManagementData d') Q e.
Proof.
  intros Hn Hl Hr Hd Ha HQ. destruct HH as [HD Hb].
  destruct (holds_marshal d' Hr) as (x & Hx & Hh).
  { intros ->. destruct Ha as (v & Hv & _). done. }
  unfold saveDelegationManagementData. rewrite Hx.
  change (Q tt (SetStorageForAddress delegationMgrSCAddress delegationManagementKey x e)).
  apply HQ. rewrite -(di_self _ _ _ HD) mp_write. split.
  - by eapply Directory_setManagement.
  - by rewrite set_balance.
Qed.
End steps.

Ltac mstep :=
  lazymatch goal with
  | |- handled _ _ _ => unfold handled
  | |- exits _ Ok _ => intros _
  | |- exits _ _ _ => done
  | |- run _ (bind _ _) _ _ => apply run_bind
  | |- run _ (ret _) _ _ => apply run_ret
  | |- run _ (throw _) _ _ => apply run_throw; done
  | |- run _ (returnIf _ _ _) _ _ => apply run_returnIf; [done|intros ?]
  | |- run _ (orReturn _ _ _) _ _ => apply run_orReturn; [done|]
  | |- run _ (useGas _) _ _ => eapply mrun_useGas; [eassumption|intros ? ? ?]
  | |- run _ (finish _) _ _ => eapply mrun_finish; [eassumption|intros ? ? ?]
  | |- run _ (addReturnMessage _) _ _ => eapply mrun_message; [eassumption|intros ? ? ?]
  | |- run _ (deref _) _ _ => eapply run_deref; [first [reflexivity|eassumption]|]
  | |- run _ (gets _) _ _ => apply run_gets
  | |- run _ getDelegationManagementData _ _ => eapply mrun_getData; [eassumption|]
  | |- run _ getDelegationContractList _ _ => eapply mrun_getList; [eassumption|]
  end.

(** ** Deploying *)
Lemma listed_snoc n : Addresses (listed n) ++ [contractAddress (S n)] = Addresses (listed (S n)).
Proof. unfold listed. cbn [Addresses]. by rewrite (seq_S (S n) 0) map_app. Qed.

(** what a deployment for [a] with the value [v] leaves *)
Record deployed (n : nat) d (b v : Z) (a : bytes) e e' : Prop := {
  dp_free : ownedBy a e = [];
  dp_state : ∃ d', MState (S n) d' (b - v) e' ∧ MinDeposit d' = MinDeposit d ∧
    MinDelegationAmount d' = MinDelegationAmount d;
  dp_owner : ownedBy a e' = contractAddress (S n);
  dp_others a' : isAddress a' → a' ≠ a → ownedBy a' e' = ownedBy a' e;
}.

Lemma run_deployNewContract R n d b args check f deployer v arguments e (Q : bytes → E → Prop) :
  MState n d b e → (Z.of_nat (S n) < 2 ^ 32)%Z → isAddress (callerOf args) → f ∈ deployFunctions →
  ownedBy (callerOf args) e = [] →
  (∀ e', (check = true → ∃ minValue, MinDeposit d = Some minValue ∧ (minValue ≤ valueOf args)%Z) →
     deployed n d b v (callerOf args) e e' → Q (contractAddress (S n)) e') →
  run (exits R) (deployNewContract args check f deployer v arguments) Q e.
Proof.
  intros HH Hn Hcaller Hf Hown HQ. unfold deployNewContract. do 3 mstep.
  pose proof (ms_directory _ _ _ _ HH) as HD. destruct (di_deposit _ _ _ HD) as (minValue & Hmin & Hmin0).
  repeat mstep. rewrite (di_last _ _ _ HD). change (createNewAddress (contractAddress n)) with (contractAddress (S n)).
  eapply run_mono; [by apply mp_deploy|]. intros code e1 Hcode.
  apply run_bind, run_returnQuietIf.
  { intros Hc Hok. rewrite Hok in Hc. done. }
  intros Hok%negb_false_iff%bool_decide_eq_true. destruct (Hcode Hok) as [Hk Hbal].
  pose proof (MState_keptOwn _ _ _ _ _ HH Hk) as HH1. rewrite Hbal (ms_balance _ _ _ _ HH) in HH1.
  pose proof (ms_directory _ _ _ _ HH1) as HD1.
  assert (ownedBy (callerOf args) e1 = []) as Hown1 by by rewrite /ownedBy (ko_own _ _ Hk).
  apply run_bind, run_readStorage. fold (ownedBy (callerOf args) e1). rewrite Hown1 app_nil_l.
  apply run_bind, run_setStorage.
  set (d' := withDeployed (contractAddress (S n)) d).
  assert (NumOfContracts d' = Z.of_nat (S n) ∧ LastAddress d' = contractAddress (S n) ∧
    managementRange d' ∧ MinDeposit d' = MinDeposit d ∧ MinDelegationAmount d' = MinDelegationAmount d)
    as (Hc & Hl & Hr & Hmd & Hma).
  { pose proof (di_count _ _ _ HD) as Hc. destruct (di_range _ _ _ HD) as (_ & Hr).
    unfold d', managementRange in *. destruct d; simpl in *.
    assert (u32 (NumOfContracts + 1) = Z.of_nat (S n)) as ->.
    { unfold u32. rewrite Z.mod_small; lia. }
    split_and!; [done|done|lia|exact Hn|apply Hr..|done|done]. }
  destruct (holds_marshal d' Hr) as (x & Hx & Hhx).
  { intros Hz. rewrite Hz in Hmd. rewrite -Hmd in Hmin. done. }
  destruct (holds_marshal (listed (S n)) I) as (y & Hy & Hhy); [done|].
  set (e0 := SetStorage (callerOf args) _ e1). pose proof (di_self _ _ _ HD1) as Hs1.
  rewrite -(set_self (callerOf args) (contractAddress (S n)) e1) in Hs1. fold e0 in Hs1.
  do 2 mstep. unfold saveDelegationManagementData. rewrite Hx.
  apply run_bind, run_ret.   apply run_modify. rewrite -{1}Hs1 mp_write.
  do 2 mstep. unfold saveDelegationContractList. rewrite listed_snoc.
  change (mkContractList (Addresses (listed (S n)))) with (listed (S n)). rewrite Hy.
  apply run_setStorage. set (e2 := SetStorage delegationContractsList _ _).
  assert (MState (S n) d' (b - v) e2) as HH2.
  { split; [by eapply Directory_deployed|]. unfold e2. rewrite !set_balance. apply (ms_balance _ _ _ _ HH1). }
  mstep. eapply mrun_finish; [exact HH2|]. intros e3 HH3 Hs3. mstep. apply HQ.
  { intros ->. rewrite andb_true_r in H. exists minValue. split; [done|]. lia. }
  assert (∀ a, isAddress a → ownedBy a e3 =
    if bool_decide (a = callerOf args) then contractAddress (S n) else ownedBy a e) as Hread.
  { intros a Ha. unfold ownedBy. rewrite (sm_own _ _ (proj1 Hs3)). unfold e2.
    rewrite get_set_ne; [|symmetry; by apply address_list].
    rewrite get_set_ne; [|symmetry; by apply address_management].
    destruct (bool_decide_reflect (a = callerOf args)) as [->|Hne]; [by rewrite get_set_eq|].
    by rewrite get_set_ne // (ko_own _ _ Hk). }
  split; [done|by exists d'| |].
  - by rewrite Hread // bool_decide_true.
  - intros a Ha Hne. by rewrite Hread // bool_decide_false.
Qed.

Section calls.
Context (n : nat) (d : DelegationManagement) (b : Z) (args : ContractCallInput).
Context (Hn : (Z.of_nat (S n) < 2 ^ 32)%Z) (Hcall : goodCall delegationMgrSCAddress args).

Lemma callerAlreadyDeployed_false e : callerAlreadyDeployed (callerOf args) e = false → ownedBy (callerOf args) e = [].
Proof. unfold callerAlreadyDeployed, ownedBy. rewrite Nat.ltb_ge. destruct (orEmpty _); [done|]. simpl. lia. Qed.
Lemma ownedBy_same a e e' : same e e' → ownedBy a e' = ownedBy a e.
Proof. intros [Hs _]. unfold ownedBy. by rewrite (sm_own _ _ Hs). Qed.
Lemma deployed_same v a e0 e e' : same e0 e → deployed n d b v a e e' → deployed n d b v a e0 e'.
Proof.
  intros Hs []. split; [by rewrite -(ownedBy_same _ _ _ Hs)|done|done|].
  intros a' Ha' Hne. rewrite -(ownedBy_same _ _ _ Hs). auto.
Qed.

(** an owner's new contract: it had none, and pays at least the minimum *)
Lemma createNewDelegationContract_deployed e :
  MState n d b e →
  handled (λ e', (∃ minValue, MinDeposit d = Some minValue ∧ (minValue ≤ valueOf args)%Z) ∧
      deployed n d b (valueOf args) (callerOf args) e e')
    (createNewDelegationContract args) e.
Proof.
  intros HH. unfold createNewDelegationContract. repeat mstep.
  eapply run_deployNewContract; [eassumption|done|apply Hcall|left| |].
  { by apply callerAlreadyDeployed_false. }
  intros e2 Hmin Hdep. repeat mstep. split; [by apply Hmin|]. by eapply deployed_same.
Qed.

Lemma mrun_checkValidatorToDelegation R e Q :
  MState n d b e → (∀ e', MState n d b e' → same e e' → valueOf args = 0%Z → Q tt e') →
  run (exits R) (checkValidatorToDelegationInput args) Q e.
Proof.
  intros HH HQ. unfold checkValidatorToDelegationInput. repeat mstep. apply HQ; [done..|].
  by apply negb_false_iff, Z.eqb_eq in H0.
Qed.
Lemma mrun_correctOwner a o e (Q : unit → E → Prop) :
  (∀ e', e' = e ∨ same e e' → Q tt e') → run anyError (correctOwnerOnAccount a o) Q e.
Proof.
  intros HQ. unfold correctOwnerOnAccount. destruct (negb _); [apply HQ; by left|].
  unfold run, wp. cbv beta. destruct (UpdateCodeDeployerAddress a o e) as [x|e'] eqn:Ho; [done|].
  apply HQ. right. by apply mp_owner in Ho.
Qed.
Lemma makeNewContractFromValidatorData_deployed e :
  MState n d b e →
  handled (λ e', valueOf args = 0%Z ∧ deployed n d b 0 (callerOf args) e e')
    (makeNewContractFromValidatorData args) e.
Proof.
  intros HH. unfold makeNewContractFromValidatorData. mstep. mstep.
  eapply mrun_checkValidatorToDelegation; [done|]. intros e1 HH1 Hs1 Hv. repeat mstep.
  eapply run_deployNewContract; [eassumption|done|apply Hcall|right; left| |].
  { by apply callerAlreadyDeployed_false. }
  intros e2 _ Hdep. apply (deployed_same _ _ _ _ _ Hs1) in Hdep. mstep. mstep.
  apply mrun_correctOwner. intros e3 Ho. repeat mstep. split; [done|].
  destruct Ho as [->|Ho]; [done|].
  destruct Hdep as [Hf (d' & HS & Hd') Ho' Hoth]. split; [done| | |].
  - exists d'. split; [|done]. by eapply MState_same.
  - by rewrite (ownedBy_same _ _ _ Ho).
  - intros a Ha Hne. rewrite (ownedBy_same _ _ _ Ho). auto.
Qed.

(** ** Merging *)
Lemma ownsLoop_whole {X} fuel len (buff sc : bytes) e :
  length buff = len → ∃ r, ownsLoop (X:=X) fuel len buff sc e = (Ret r, e).
Proof.
  intros Hl. destruct fuel as [|fuel]; [by eexists|]. destruct buff as [|x t]; [by eexists|].
  cbn [ownsLoop]. rewrite (proj2 (Nat.ltb_ge _ _)); [|lia]. case_bool_decide; [by eexists|].
  exists false. rewrite drop_ge; [|lia]. by destruct fuel.
Qed.
Lemma mrun_checkOwner R e (Q : unit → E → Prop) :
  MState n d b e → (∀ e', MState n d b e' → Q tt e') →
  run (exits R) (checkCallerIsOwnerOfContract args) Q e.
Proof.
  intros HH HQ. unfold checkCallerIsOwnerOfContract. apply run_bind, run_readStorage.
  fold (ownedBy (callerOf args) e). mstep. mstep. apply Nat.eqb_neq in H. mstep.
  destruct (di_owner _ _ _ (ms_directory _ _ _ _ HH) (callerOf args)) as [Ho|(k & Hk & Ho)]; [apply Hcall| |].
  { by rewrite Ho in H. }
  destruct (ownsLoop_whole (X:=ReturnCode) (length (ownedBy (callerOf args) e)) (length (callerOf args))
    (ownedBy (callerOf args) e) (arg args 0) e) as [r Hr].
  { rewrite Ho contractAddress_length; [|lia]. symmetry. apply Hcall. }
  eapply run_eq; [exact Hr|]. mstep. by apply HQ.
Qed.
Lemma mrun_checkWhitelist R e (Q : unit → E → Prop) :
  MState n d b e → (∀ e', MState n d b e' → Q tt e') →
  run (exits R) (isAddressWhiteListedForMerge args) Q e.
Proof.
  intros HH HQ. unfold isAddressWhiteListedForMerge, readStorageFrom. repeat mstep. by apply HQ.
Qed.
(** a call of another contract, which is answered [Ok] *)
Lemma mrun_execute e destination sender input (Q : CallOutput → E → Prop) :
  MState n d b e → managerCall input →
  (∀ out e', (outReturnCode out = Ok → MState n d b e' ∧ is_Some (GetTotalSentToUser sender e')) → Q out e') →
  run anyError (ExecuteOnDestContext destination sender 0 input) Q e.
Proof.
  intros HH Hin HQ. eapply run_mono; [by apply mp_call|]. intros out e' Hout. apply HQ.
  intros (Hk & Hb & Hs)%Hout. split; [|done]. pose proof (MState_keptOwn _ _ _ _ _ HH Hk) as HH'.
  by rewrite Hb (ms_balance _ _ _ _ HH) in HH'.
Qed.
Lemma mergeValidatorToDelegation_kept checkFunc e :
  MState n d b e →
  (∀ R e0 (Q : unit → E → Prop), MState n d b e0 → (∀ e', MState n d b e' → Q tt e') →
     run (exits R) (checkFunc args) Q e0) →
  handled (λ e', valueOf args = 0%Z ∧ MState n d b e') (mergeValidatorToDelegation checkFunc args) e.
Proof.
  intros HH Hcheck. unfold mergeValidatorToDelegation. mstep. mstep.
  eapply mrun_checkValidatorToDelegation; [done|]. intros e1 HH1 _ Hv. mstep. mstep. cbv zeta. mstep. mstep. mstep.
  eapply Hcheck; [done|]. intros e2 HH2. mstep. mstep.
  eapply mrun_execute; [exact HH2|right; right; right; by eexists|]. intros out e3 Hout. mstep.
  apply run_returnQuietIf; [intros Hc Hok; by rewrite Hok in Hc|].
  intros Hok%negb_false_iff%bool_decide_eq_true. destruct (Hout Hok) as [HH3 _]. mstep. mstep.
  eapply mrun_execute; [exact HH3|right; right; by left|]. intros out' e4 Hout'. mstep.
  intros Hok'. split; [done|]. by apply Hout'.
Qed.

(** ** Configuration and views *)
Lemma mrun_checkConfig R e (Q : unit → E → Prop) :
  MState n d b e → (valueOf args = 0%Z → Q tt e) →
  run (exits R) (orReturn (fromSum (checkConfigChangeInput args)) "" UserError) Q e.
Proof.
  intros HH HQ. mstep. unfold checkConfigChangeInput. destruct (Z.eqb_spec (valueOf args) 0); [|done].
  simpl. repeat (destruct (negb _); [done|]). by apply HQ.
Qed.
Lemma changeMinDeposit_kept e :
  MState n d b e →
  handled (λ e', valueOf args = 0%Z ∧ ∃ d', MState n d' b e' ∧ MinDeposit d' = Some (setBytes (arg args 0)))
    (changeMinDeposit args) e.
Proof.
  intros HH. unfold changeMinDeposit. mstep. mstep. eapply mrun_checkConfig; [done|]. intros Hv.
  repeat mstep. pose proof (ms_directory _ _ _ _ HH) as [_ _ Hc Hl Hr Hdep Ham _ _ _].
  pose proof (setBytes_nonneg (arg args 0)) as Hz.
  destruct d. eapply mrun_saveData; [exact HH|done|done| | |done|]; simpl.
  - unfold managementRange in *. simpl in *. split_and!; first [tauto|by eexists].
  - by eexists.
  - intros e' HH'. repeat mstep. split; [done|]. by eexists.
Qed.
Lemma changeMinDelegationAmount_kept e :
  MState n d b e →
  handled (λ e', valueOf args = 0%Z ∧ ∃ d', MState n d' b e' ∧
      MinDelegationAmount d' = Some (setBytes (arg args 0)))
    (changeMinDelegationAmount args) e.
Proof.
  intros HH. unfold changeMinDelegationAmount. mstep. mstep. eapply mrun_checkConfig; [done|]. intros Hv.
  repeat mstep. pose proof (ms_directory _ _ _ _ HH) as [_ _ Hc Hl Hr Hdep Ham _ _ _]. apply Z.leb_gt in H.
  destruct d. eapply mrun_saveData; [exact HH|done|done| |done| |]; simpl.
  - unfold managementRange in *. simpl in *. split_and!; first [tauto|by eexists].
  - by eexists.
  - intros e' HH'. repeat mstep. split; [done|]. by eexists.
Qed.
(** the views answer the manager itself only *)
Lemma mrun_onlySelf R {A} e (k : M E ReturnCode A) Q :
  run (exits R) (returnIf (negb (bool_decide (callerOf args = delegationMgrSCAddress))) ErrInvalidCaller
    UserError ;;; k) Q e.
Proof. rewrite bool_decide_false; [|apply Hcall]. mstep. by apply run_returnIf. Qed.

(** ** Calls of many contracts *)
Lemma mrun_gasOrError R g e (Q : unit → E → Prop) :
  MState n d b e → (∀ e', MState n d b e' → Q tt e') →
  run (exits R) (λ e, match UseGas g e with
                      | None => (addReturnMessage ErrNotEnoughGas ;;; throw UserError) e
                      | Some e' => (Ret tt, e')
                      end) Q e.
Proof.
  intros HH HQ. unfold run, wp. destruct (UseGas g e) as [e1|] eqn:Hg; [|done].
  apply same_gas in Hg. apply HQ. by eapply MState_same.
Qed.
Lemma mrun_executeFuncOnList R f e (Q : unit → E → Prop) :
  MState n d b e → managerCall (toBytes f) →
  (∀ e', MState n d b e' → is_Some (GetTotalSentToUser (callerOf args) e') → Q tt e') →
  run (exits R) (executeFuncOnListAddresses args f) Q e.
Proof.
  intros HH Hf HQ. unfold executeFuncOnListAddresses. do 4 mstep. apply Nat.ltb_ge in H0. mstep.
  eapply mrun_gasOrError; [exact HH|]. intros e1 HH1. mstep.
  eapply (run_foldEach (X:=ReturnCode) (exits R)
    (λ l _ e', MState n d b e' ∧ (l = Arguments args ∨ is_Some (GetTotalSentToUser (callerOf args) e')))).
  - split; [done|by left].
  - intros a t seen e2 [HH2 _]. do 6 mstep.
    eapply mrun_execute; [exact HH2|done|]. intros out e3 Hout. mstep.
    apply run_returnQuietIf; [intros Hc Hok; by rewrite Hok in Hc|].
    intros Hok%negb_false_iff%bool_decide_eq_true. destruct (Hout Hok) as [HH3 Hs]. mstep.
    split; [done|by right].
  - intros _ e2 [HH2 [Hnil|Hs]]; mstep; [|by apply HQ]. rewrite -Hnil in H0. simpl in H0. lia.
Qed.
Lemma claimMulti_kept e : MState n d b e → handled (MState n d b) (claimMulti args) e.
Proof.
  intros HH. unfold claimMulti. mstep. mstep. eapply mrun_executeFuncOnList; [done|by left|].
  intros e1 HH1 [t Ht]. repeat mstep. done.
Qed.
Lemma reDelegateMulti_kept e : MState n d b e → handled (MState n d b) (reDelegateMulti args) e.
Proof.
  intros HH. unfold reDelegateMulti. mstep. mstep. eapply mrun_executeFuncOnList; [done|right; by left|].
  intros e1 HH1 _. repeat mstep. done.
Qed.

(** ** Every call *)
(** the calls that the manager does not expect to carry value, without checking it *)
Definition keepsValue (f : string) : bool :=
  bool_decide (f = "claimMulti") || bool_decide (f = "reDelegateMulti").
(** the manager holds what it held, without the value of the call *)
Definition settled e' : Prop := ∃ n' d', n ≤ n' ≤ S n ∧
  MState n' d' (b - (if keepsValue (Function args) then 0 else valueOf args))%Z e'.

Lemma settled_deployed v e e' :
  keepsValue (Function args) = false → valueOf args = v → deployed n d b v (callerOf args) e e' → settled e'.
Proof. intros Hf <- [_ (d' & HS & _) _ _]. exists (S n), d'. rewrite Hf. split; [lia|done]. Qed.
Lemma settled_zero e' d' :
  keepsValue (Function args) = false → valueOf args = 0%Z → MState n d' b e' → settled e'.
Proof. intros Hf Hv HH. exists n, d'. rewrite Hf Hv Z.sub_0_r. split; [lia|done]. Qed.
Lemma settled_kept e' : keepsValue (Function args) = true → MState n d b e' → settled e'.
Proof. intros Hf HH. exists n, d. rewrite Hf Z.sub_0_r. split; [lia|done]. Qed.

Lemma dispatch_settled run_it e :
  MState n d b e → Function args ≠ SCDeployInitFunctionName → dispatch (Function args) = Some run_it →
  handled settled (run_it args) e.
Proof.
  intros HH Hninit Hd. unfold dispatch in Hd. cbv zeta in Hd.
  destruct (List.find _ _) as [[name f]|] eqn:Hf; [|done]. injection Hd as ->.
  apply find_some in Hf as [Hin Hname]. apply bool_decide_eq_true in Hname. simpl in Hname.
  subst name. simpl in Hin.
  assert (∀ g b0, Function args = g → keepsValue g = b0 → keepsValue (Function args) = b0) as Hkv by by intros ?? ->.
  repeat (destruct Hin as [[= Hfun <-]|Hin]; [symmetry in Hfun|]); [..|done].
  - done.
  - eapply handled_mono; [by apply createNewDelegationContract_deployed|].
    intros e' [_ Hdep]. by eapply settled_deployed; [eapply Hkv| |].
  - apply mrun_onlySelf.
  - apply mrun_onlySelf.
  - eapply handled_mono; [by apply changeMinDeposit_kept|].
    intros e' (Hv & d' & HH' & _). by eapply settled_zero; [eapply Hkv| |].
  - eapply handled_mono; [by apply changeMinDelegationAmount_kept|].
    intros e' (Hv & d' & HH' & _). by eapply settled_zero; [eapply Hkv| |].
  - eapply handled_mono; [by apply makeNewContractFromValidatorData_deployed|].
    intros e' (Hv & Hdep). by eapply settled_deployed; [eapply Hkv| |].
  - eapply handled_mono; [apply mergeValidatorToDelegation_kept; [done|apply mrun_checkOwner]|].
    intros e' (Hv & HH'). by eapply settled_zero; [eapply Hkv| |].
  - eapply handled_mono; [apply mergeValidatorToDelegation_kept; [done|apply mrun_checkWhitelist]|].
    intros e' (Hv & HH'). by eapply settled_zero; [eapply Hkv| |].
  - eapply handled_mono; [by apply claimMulti_kept|]. intros e' HH'. by eapply settled_kept; [eapply Hkv|].
  - eapply handled_mono; [by apply reDelegateMulti_kept|]. intros e' HH'. by eapply settled_kept; [eapply Hkv|].
Qed.
Lemma Execute_settled e :
  MState n d b e → Function args ≠ SCDeployInitFunctionName → handled settled (Execute (Some args)) e.
Proof.
  intros HH Hninit. unfold Execute. destruct (CheckIfNil _) as [x|args'] eqn:Hnil; [apply handled_error|].
  apply CheckIfNil_args in Hnil as ->. repeat mstep.
  destruct (dispatch (Function args)) as [run_it|] eqn:Hd; [by eapply dispatch_settled|apply handled_error].
Qed.
End calls.

(** ** Deploying the manager *)
Lemma init_directory args e :
  selfAddress e = delegationMgrSCAddress → (∀ a, isAddress a → ownedBy a e = []) →
  handled (λ e', valueOf args = 0%Z ∧ ∃ d, MState 0 d (balanceOf e) e') (init args) e.
Proof.
  intros Hs Ho. unfold init. mstep. mstep. mstep. mstep. mstep. unfold saveDelegationManagementData.
  set (d := mkManagement _ _ _ _ _ _). pose proof fees_range as [Hf1 Hf2].
  pose proof minimums_range as [Hm1 Hm2].
  assert (managementRange d) as Hr by by unfold managementRange, d; simpl; split_and!; [lia..| |].
  destruct (holds_marshal d Hr) as (x & Hx & Hhx); [done|].
  destruct (holds_marshal (listed 0) I) as (y & Hy & Hhy); [done|].
  rewrite Hx. apply run_bind, run_ret, run_modify. rewrite -{1}Hs mp_write. mstep. mstep.
  unfold saveDelegationContractList. change (mkContractList _) with (listed 0). rewrite Hy.
  apply run_bind, run_ret, run_setStorage. repeat mstep.
  apply negb_false_iff, Z.eqb_eq in H. split; [done|]. exists d. split; [|by rewrite !set_balance].
  set (e' := SetStorage _ _ _).
  assert (∀ a, isAddress a → ownedBy a e' = []) as Hown.
  { intros a Ha. rewrite -(Ho a Ha). unfold ownedBy, e'.
    rewrite get_set_ne; [|symmetry; by apply address_list].
    rewrite get_set_ne; [done|symmetry; by apply address_management]. }
  split; [..|unfold e'; by rewrite !set_self]; unfold e'.
  - rewrite get_set_ne; [by rewrite get_set_eq|]. symmetry. exact managementKey_list.
  - by rewrite get_set_eq.
  - done.
  - done.
  - done.
  - by eexists.
  - by eexists.
  - intros a Ha. left. by apply Hown.
  - intros a a' Ha _ _ _. by apply Hown.
Qed.
End handlers.
