(* ===== verification/ManagerTheorems.v ===== *)
(** * ManagerTheorems: the properties of the delegation manager

    The states the manager reaches, a concrete host on which calls are
    evaluated, and the properties with their witnesses. *)
From Stdlib Require Import Floats.SpecFloat.
From S2P Require Import Prelude Sums SystemEI StakingData Contract DelegationData DelegationManager.
From S2P Require Import ManagerExecute Concrete DelegationConcrete.
#[local] Open Scope go_scope.

(** ** The states of the manager *)
Section reachable.
Context {E : Type} {EI : SystemEI E} {EIL : SystemEILaws E}.
Context {CH : ContractHost E} {CHL : ContractHostLaws E} {DE : DeployEI E}.
Context {DC : DelegationContract} {MC : ManagerContract} {ML : ManagerLaws} {MP : ManagerPromise (E:=E)}.

(** what happens to the manager's storage between two of its calls: delegation
    contracts that change their owner move entries of the owners' index *)
Record managerBetween (e e' : E) : Prop := {
  mb_data : GetStorage delegationManagementKey e' = GetStorage delegationManagementKey e;
  mb_list : GetStorage delegationContractsList e' = GetStorage delegationContractsList e;
  mb_self : selfAddress e' = selfAddress e;
  mb_moved : ∃ from : bytes → bytes,
    (∀ a a', from a = from a' → a = a') ∧
    (∀ a, isAddress a → isAddress (from a) ∧ (ownedBy a e' = [] ∨ ownedBy a e' = ownedBy (from a) e));
}.
Lemma Directory_between n d (e e' : E) : Directory n d e → managerBetween e e' → Directory n d e'.
Proof.
  intros [Hda Hli Hc Hla Hr Hde Ham Ho Hu Hse] [Hd Hl Hs (from & Hinj & Hfrom)].
  split; [by rewrite Hd|by rewrite Hl|done..| | |congruence].
  - intros a Ha. destruct (Hfrom a Ha) as [Hfa [->| ->]]; [by left|auto].
  - intros a a' Ha Ha' Hne. destruct (Hfrom a Ha) as [Hfa [->| ->]]; [done|].
    destruct (Hfrom a' Ha') as [Hfa' [->| ->]]; [done|].
    apply Hu; [done..|]. intros Heq. by apply Hne, Hinj.
Qed.
(** the two writes of [changeOwner] of a delegation contract *)
Lemma changeOwner_between caller newOwner recipient (e : E) :
  isAddress caller → isAddress newOwner → caller ≠ newOwner →
  ownedBy caller e = recipient → ownedBy newOwner e = [] →
  managerBetween e (SetStorage caller [] (SetStorage newOwner recipient e)).
Proof.
  intros Hc Hn Hne Ho Hf. set (e' := SetStorage caller _ _).
  assert (∀ a, ownedBy a e' = if bool_decide (a = caller) then [] else
    if bool_decide (a = newOwner) then recipient else ownedBy a e) as Hread.
  { intros a. unfold ownedBy, e'. destruct (bool_decide_reflect (a = caller)) as [->|Ha].
    - by rewrite get_set_eq.
    - rewrite get_set_ne //. destruct (bool_decide_reflect (a = newOwner)) as [->|Ha'].
      + by rewrite get_set_eq.
      + by rewrite get_set_ne. }
  split; unfold e'.
  - rewrite !get_set_ne //; by apply address_management.
  - rewrite !get_set_ne //; by apply address_list.
  - by rewrite !set_self.
  - exists (λ a, if bool_decide (a = caller) then newOwner
                 else if bool_decide (a = newOwner) then caller else a). split.
    + intros a a'. repeat case_bool_decide; congruence.
    + intros a Ha. fold e'. rewrite Hread. repeat case_bool_decide; subst; eauto.
Qed.

(** the states after the deployment and [k] calls that were answered [Ok]; the VM
    refuses transactions that call [_init] *)
Inductive managerReachable : Z → E → Prop :=
  | managerReachable_init e args e' :
      selfAddress e = delegationMgrSCAddress → (∀ a, isAddress a → ownedBy a e = []) →
      Function args = SCDeployInitFunctionName → answersOk (Execute (Some args)) e e' →
      managerReachable 0 e'
  | managerReachable_call k args e0 e e' :
      managerReachable k e0 → managerBetween e0 e → goodCall delegationMgrSCAddress args →
      Function args ≠ SCDeployInitFunctionName → answersOk (Execute (Some args)) e e' →
      managerReachable (k + 1) e'.

Lemma Execute_init args (e e' : E) R :
  Function args = SCDeployInitFunctionName → handled R (init args) e →
  answersOk (Execute (Some args)) e e' → R e'.
Proof.
  intros Hf Hi. apply handled_answer. unfold Execute.
  destruct (CheckIfNil _) as [x|args'] eqn:Hnil; [apply handled_error|].
  apply CheckIfNil_args in Hnil as ->. unfold handled.
  apply run_bind, run_returnIf; [done|intros _]. apply run_bind, run_returnIf; [done|intros _].
  by rewrite Hf.
Qed.
Lemma managerReachable_directory k e :
  managerReachable k e → (k < 2 ^ 32)%Z → ∃ n d, (Z.of_nat n ≤ k)%Z ∧ Directory n d e.
Proof.
  induction 1 as [e args e' Hs Ho Hf Hans|k args e0 e e' Hr IH Hbt Hcall Hni Hans]; intros Hk.
  - pose proof (Execute_init _ _ _ _ Hf (init_directory args e Hs Ho) Hans) as [_ [d []]].
    exists 0, d. by split.
  - destruct IH as (n & d & Hn & HD); [lia|]. pose proof (Directory_between _ _ _ _ HD Hbt) as HD1.
    pose proof (Execute_settled n d (balanceOf e) args ltac:(lia) Hcall e (Build_MState _ _ _ _ HD1 eq_refl) Hni)
      as Hh.
    apply (handled_answer _ _ _ _ Hh) in Hans as (n' & d' & Hn' & []). exists n', d'. split; [lia|done].
Qed.

Lemma listed_last (l : list bytes) a : last (l ++ [a]) = Some a.
Proof. by rewrite last_snoc. Qed.

(** C9: the delegation manager's directory is consistent in every state that it
    reaches: the list of contracts has no address twice, all of them have the
    length of an address, the recorded number and the recorded last address are
    those of the list, every account that owns a contract owns one of the list,
    and no contract belongs to two accounts. *)
Theorem manager_directory k e :
  managerReachable k e → (k < 2 ^ 32)%Z → ∃ d l,
    holds (Some d) (orEmpty (GetStorage delegationManagementKey e)) ∧
    holds (Some (mkContractList (FirstDelegationSCAddress :: l)))
      (orEmpty (GetStorage delegationContractsList e)) ∧
    NoDup (FirstDelegationSCAddress :: l) ∧ Forall isAddress l ∧
    NumOfContracts d = Z.of_nat (length l) ∧
    last (FirstDelegationSCAddress :: l) = Some (LastAddress d) ∧
    (∀ a, isAddress a → ownedBy a e = [] ∨ ownedBy a e ∈ l) ∧
    (∀ a a', isAddress a → isAddress a' → a ≠ a' → ownedBy a e = ownedBy a' e → ownedBy a e = []).
Proof.
  intros Hr Hk. destruct (managerReachable_directory k e Hr Hk) as (n & d & Hn & [Hda Hli Hc Hla Hr' Hde Ham Ho Hu Hse]).
  exists d, (map contractAddress (seq 1 n)). split_and!; [done|done| | | | | |done].
  - change (FirstDelegationSCAddress :: map contractAddress (seq 1 n)) with (map contractAddress (seq 0 (S n))).
    apply NoDup_fmap_2_strong; [|apply NoDup_seq]. intros i j _ _. apply contractAddress_inj.
  - apply Forall_map, Forall_forall. intros i Hi%elem_of_seq. apply contractAddress_length. lia.
  - by rewrite length_map length_seq.
  - change (FirstDelegationSCAddress :: map contractAddress (seq 1 n)) with (map contractAddress (seq 0 (S n))).
    by rewrite seq_S map_app listed_last Hla.
  - intros a Ha. destruct (Ho a Ha) as [Hoa|(i & Hi & ->)]; [by left|right].
    apply list_elem_of_fmap. exists i. split; [done|]. apply elem_of_seq. lia.
Qed.

(** C10: a call of the reachable delegation manager never panics, and when it is
    answered [Ok] the directory is consistent again, with at most one contract
    more, and the manager has passed on exactly the value of the call.  The
    exceptions are [claimMulti] and [reDelegateMulti], which do not check that
    they are called without value: all of their value stays with the manager,
    which has no function that pays it out. *)
Theorem manager_call_safe k e0 e args :
  managerReachable k e0 → (k + 1 < 2 ^ 32)%Z → managerBetween e0 e →
  goodCall delegationMgrSCAddress args → Function args ≠ SCDeployInitFunctionName →
  ∃ code e', answer (Execute (Some args) e).1 = Some code ∧ (Execute (Some args) e).2 = e' ∧
    (code = Ok → ∃ n n' d', n ≤ n' ≤ S n ∧ (∃ d, Directory n d e) ∧ Directory n' d' e' ∧
       balanceOf e' = (balanceOf e -
         (if bool_decide (Function args = "claimMulti") || bool_decide (Function args = "reDelegateMulti")
          then 0 else valueOf args))%Z).
Proof.
  intros Hr Hk Hbt Hcall Hni. destruct (managerReachable_directory k e0 Hr ltac:(lia)) as (n & d & Hn & HD).
  pose proof (Directory_between _ _ _ _ HD Hbt) as HD1.
  pose proof (Execute_settled n d (balanceOf e) args ltac:(lia) Hcall e (Build_MState _ _ _ _ HD1 eq_refl) Hni)
    as Hh.
  assert (∀ e', settled n (balanceOf e) args e' → ∃ n n' d', n ≤ n' ≤ S n ∧ (∃ d, Directory n d e) ∧
    Directory n' d' e' ∧ balanceOf e' = (balanceOf e -
         (if bool_decide (Function args = "claimMulti") || bool_decide (Function args = "reDelegateMulti")
          then 0 else valueOf args))%Z) as Hset.
  { intros e' (n' & d' & Hn' & [HD' Hb]). exists n, n', d'. split_and!; [lia..|by exists d|done|done]. }
  unfold handled, run, wp, exits in Hh.
  destruct (Execute (Some args) e) as [[c|c|] e']; [..|done]; exists c, e'; auto.
Qed.

(** C11: [createNewDelegationContract] deploys one new contract for its caller.
    It answers [Ok] only when the caller owns no contract and pays at least the
    minimum deposit; then the caller owns the contract at the next address, which
    is none of the addresses given before, no other account's contract has
    changed, and the manager has passed the whole value on. *)
Theorem createNewDelegationContract_deploys n d e args :
  Directory n d e → (Z.of_nat (S n) < 2 ^ 32)%Z → goodCall delegationMgrSCAddress args →
  handled (λ e', ownedBy (callerOf args) e = [] ∧
      (∃ minValue, MinDeposit d = Some minValue ∧ (minValue ≤ valueOf args)%Z) ∧
      ownedBy (callerOf args) e' = createNewAddress (LastAddress d) ∧
      (createNewAddress (LastAddress d) ∉ Addresses (listed n)) ∧
      (∀ a, isAddress a → a ≠ callerOf args → ownedBy a e' = ownedBy a e) ∧
      (∃ d', Directory (S n) d' e' ∧ MinDeposit d' = MinDeposit d ∧
         MinDelegationAmount d' = MinDelegationAmount d) ∧
      balanceOf e' = (balanceOf e - valueOf args)%Z)
    (createNewDelegationContract args) e.
Proof.
  intros HD Hn Hcall.
  eapply handled_mono; [by apply (createNewDelegationContract_deployed n d (balanceOf e))|].
  intros e' [Hmin [Hf (d' & [HD' Hb] & Hd') Ho Hoth]]. rewrite (di_last _ _ _ HD).
  change (createNewAddress (contractAddress n)) with (contractAddress (S n)).
  split_and!; [done..| |done|by exists d'|done].
  intros (i & Heq & Hi%elem_of_seq)%list_elem_of_fmap. apply contractAddress_inj in Heq. lia.
Qed.
End reachable.

(** ** A concrete host *)
Section concrete.
#[local] Instance contractList_fields : Fields DelegationContractList.
Proof.
  refine {| fieldsOf l := [encFields (Addresses l)];
    ofFields l := match l with [a] => Some (mkContractList (decFields a [])) | _ => None end |};
  [|by intros []].
  intros []; simpl. by rewrite decFields_enc.
Defined.
#[local] Instance manager_delegation : DelegationContract := demoDelegation false.
#[local] Instance demoManagerContract : ManagerContract := {|
  configChangeAddr := demoUser;
  gasDelegationMgrOps := 1;
  gasValidatorToDelegation := 1;
  minCreationDeposit := 1000;
  minDelegationAmount := 10;
  managerFlag _ := true;
  isSmartContractAddress _ := false;
  contractList_marshaller := fieldsMarshaller;
|}.
#[local] Instance demoManager_laws : ManagerLaws.
Proof. split; try apply fieldsMarshaller_laws; done. Qed.

(** deployments and calls succeed *)
#[local] Instance managerEI : SystemEI World := {|
  hookOf := wHook;
  GetStorage k w := wOwn w !! k;
  GetStorageFromAddress a k w := if bool_decide (a = wSelf w) then wOwn w !! k else wOthers w !! (a, k);
  SetStorage k v w := setOwn (<[k := v]> (wOwn w)) w;
  SetStorageForAddress a k v w := if bool_decide (a = wSelf w) then setOwn (<[k := v]> (wOwn w)) w
                                  else setOthers (<[(a, k) := v]> (wOthers w)) w;
  AddReturnMessage m w := setMessages (m :: wMessages w) w;
  Finish v w := setFinished (wFinished w ++ [v]) w;
  AddLogEntry l w := setLogs (wLogs w ++ [l]) w;
  GetLogs := wLogs;
  UseGas g w := if (wGas w <? g)%Z then None else Some (setGas (wGas w - g)%Z w);
  GasLeft := wGas;
  Transfer d s v _ _ w := Some (setPaid (wPaid w ++ [(d, v)]) (setBalance (wBalance w - v)%Z w));
  SetOwnerOperatingOnAccount _ w := inr w;
  IsValidator _ _ := false;
  CanUnJail _ _ := false;
  IsBadRating _ _ := false;
  ExecuteOnDestContext _ _ v _ w := (Ret (Build_CallOutput Ok "" [] []), w);
|}.
#[local] Instance manager_deploys : DeployEI World := {|
  DeploySystemSC _ _ _ _ v _ w := (Ret Ok, setBalance (wBalance w - v)%Z w);
  UpdateCodeDeployerAddress _ _ w := inr w;
  GetTotalSentToUser _ _ := Some 0%Z;
|}.
#[local] Instance managerEI_laws : SystemEILaws World.
Proof.
  split; try by intros; destruct e.
  - intros k v []. simpl. apply lookup_insert_eq.
  - intros k k' v []. simpl. intros. by rewrite lookup_insert_ne.
  - intros k g [] e'. simpl. case_match; by intros [= <-].
  - intros g [] e'. simpl. case_match; by intros [= <-].
Qed.
#[local] Instance managerWorld_laws : ContractHostLaws World.
Proof.
  split; [split|split]; try (intros; by destruct e).
  all: try (by intros ? []).
  all: try (intros a k v []; simpl; by case_bool_decide).
  - intros g [] e'. simpl. case_match; by intros [= <-].
  - intros a [] e' [= <-]. done.
  - intros k v a k' [] Ha. simpl in *. by rewrite bool_decide_false.
  - intros a k v k' [] Ha. simpl in *. by rewrite bool_decide_false.
  - intros a k v k' [] Ha Hk. simpl in *. rewrite !bool_decide_false // lookup_insert_ne //. congruence.
  - intros v [] e' _ [= <-]. done.
Qed.
#[local] Instance manager_promise : ManagerPromise (E := World).
Proof.
  split.
  - intros k []. simpl. by rewrite bool_decide_true.
  - intros k v []. simpl. by rewrite bool_decide_true.
  - intros a o f v input [] _ _. by split.
  - intros a s input [] _ _. split_and!; [done|done|by eexists].
  - intros a o w w' [= <-]. by split.
Qed.

(** ** The life of a manager *)
Definition emptyManager : World := mkWorld (hookAt 0) demoManager ∅ ∅ 1000 1000 [] [] [] [].
Definition managerInit : ContractCallInput := {|
  CallerAddr := Some demoOwner; Arguments := []; CallValue := Some 0%Z; ESDTTransfers := 0;
  GasProvided := 0; RecipientAddr := Some demoManager; Function := SCDeployInitFunctionName |}.
Definition managerCreate : ContractCallInput := {|
  CallerAddr := Some demoOwner; Arguments := [[x00]; [x00]]; CallValue := Some 1000%Z; ESDTTransfers := 0;
  GasProvided := 0; RecipientAddr := Some demoManager; Function := "createNewDelegationContract" |}.
Definition deployedManager : World := (Execute (Some managerInit) emptyManager).2.
Definition createdManager : World := (Execute (Some managerCreate) deployedManager).2.

Lemma managerCreate_good : goodCall demoManager managerCreate.
Proof. split; [by vm_compute|done|done|by vm_compute]. Qed.
Lemma managerBetween_refl (w : World) : managerBetween w w.
Proof. split; [done..|]. exists id. split; [done|]. intros a Ha. split; [done|by right]. Qed.
Lemma deployed_reachable : managerReachable 0 deployedManager.
Proof.
  eapply (managerReachable_init emptyManager managerInit); [done| |done|split; [by vm_compute|done]].
  intros a _. unfold ownedBy. simpl. by rewrite lookup_empty.
Qed.
Lemma created_reachable : managerReachable 1 createdManager.
Proof.
  eapply (managerReachable_call 0 managerCreate deployedManager deployedManager);
    [exact deployed_reachable|apply managerBetween_refl|exact managerCreate_good|done|].
  split; [by vm_compute|done].
Qed.

Lemma manager_directory_witness : managerReachable 1 createdManager ∧ ∃ d (l : list bytes),
  holds (Some d) (orEmpty (GetStorage delegationManagementKey createdManager)) ∧
  NumOfContracts d = Z.of_nat (length l).
Proof.
  split; [exact created_reachable|].
  destruct (manager_directory 1 createdManager created_reachable eq_refl)
    as (d & l & Hd & _ & _ & _ & Hn & _). by exists d, l.
Defined.
Lemma manager_call_safe_witness : ∃ code e',
  answer (Execute (Some managerCreate) deployedManager).1 = Some code ∧
  (Execute (Some managerCreate) deployedManager).2 = e' ∧ (code = Ok → balanceOf e' = 0%Z).
Proof.
  destruct (manager_call_safe 0 deployedManager deployedManager managerCreate deployed_reachable eq_refl
    (managerBetween_refl _) managerCreate_good ltac:(done)) as (code & e' & Hc & He & Hok).
  exists code, e'. split; [exact Hc|]. split; [exact He|]. intros H.
  destruct (Hok H) as (_ & _ & _ & _ & _ & _ & Hb). rewrite Hb. by vm_compute.
Defined.
Lemma createNewDelegationContract_deploys_witness : ∃ d,
  handled (λ e', ownedBy demoOwner e' = createNewAddress (LastAddress d) ∧ balanceOf e' = 0%Z)
    (createNewDelegationContract managerCreate) deployedManager.
Proof.
  destruct (managerReachable_directory 0 deployedManager deployed_reachable eq_refl) as (n & d & Hn & HD).
  exists d. eapply handled_mono;
    [apply (createNewDelegationContract_deploys n d deployedManager managerCreate HD)|].
  - lia.
  - exact managerCreate_good.
  - intros e' (_ & _ & Ho & _ & _ & _ & Hb). split; [exact Ho|]. rewrite Hb. by vm_compute.
Defined.
End concrete.
