(* ===== verification/EsdtData.v ===== *)
(** * EsdtData: the ESDT system smart contract, its data and configuration

    esdt.go manages the tokens of the chain: who issued and owns them, their
    properties and supply, and the addresses that hold special roles for them.
    This file has the stored records, loading and saving, and the checks that
    the functions share.  The names that mx-chain-core-go and mx-chain-vm-common-go
    give to token types, roles and built-in functions are parameters. *)
From Stdlib Require Import DecimalString.
From S2P Require Import Prelude SystemEI Eei StakingData DelegationData.
#[local] Open Scope go_scope.

(** ** Records (esdt.proto) *)
Record ESDTRoles : Type := mkRoles {
  RoleAddress : bytes;
  Roles : list bytes;
}.
Record ESDTDataV2 : Type := mkToken {
  OwnerAddress : bytes;
  TokenName : bytes;
  TickerName : bytes;
  TokenType : bytes;
  Mintable : bool;
  Burnable : bool;
  CanPause : bool;
  CanFreeze : bool;
  CanWipe : bool;
  Upgradable : bool;
  CanChangeOwner : bool;
  IsPaused : bool;
  MintedValue : option Z;
  BurntValue : option Z;
  NumDecimals : Z;
  CanAddSpecialRoles : bool;
  NFTCreateStopped : bool;
  CanTransferNFTCreateRole : bool;
  SpecialRoles : list ESDTRoles;
  NumWiped : Z;
  CanCreateMultiShard : bool;
}.
(** the fields of an [ESDTDataV1], which has no [CanCreateMultiShard] *)
Record ESDTDataV1 : Type := mkTokenV1 {
  v1OwnerAddress : bytes;
  v1TokenName : bytes;
  v1TickerName : bytes;
  v1TokenType : bytes;
  v1Mintable : bool;
  v1Burnable : bool;
  v1CanPause : bool;
  v1CanFreeze : bool;
  v1CanWipe : bool;
  v1Upgradable : bool;
  v1CanChangeOwner : bool;
  v1IsPaused : bool;
  v1MintedValue : option Z;
  v1BurntValue : option Z;
  v1NumDecimals : Z;
  v1CanAddSpecialRoles : bool;
  v1NFTCreateStopped : bool;
  v1CanTransferNFTCreateRole : bool;
  v1SpecialRoles : list ESDTRoles;
  v1NumWiped : Z;
}.
Record ESDTConfig : Type := mkESDTConfig {
  ConfigOwnerAddress : bytes;
  BaseIssuingCost : option Z;
  MinTokenNameLength : Z;
  MaxTokenNameLength : Z;
}.
Definition zeroToken : ESDTDataV2 :=
  mkToken [] [] [] [] false false false false false false false false None None 0 false false false [] 0 false.

Definition withTokenOwnerAddress v (t : ESDTDataV2) :=
  let 'mkToken ow na ti ty mi bu pa fr wi up co ip mv bv nd ar st tr sr nw ms := t in
  mkToken v na ti ty mi bu pa fr wi up co ip mv bv nd ar st tr sr nw ms.
Definition withTokenType v (t : ESDTDataV2) :=
  let 'mkToken ow na ti ty mi bu pa fr wi up co ip mv bv nd ar st tr sr nw ms := t in
  mkToken ow na ti v mi bu pa fr wi up co ip mv bv nd ar st tr sr nw ms.
Definition withMintable v (t : ESDTDataV2) :=
  let 'mkToken ow na ti ty mi bu pa fr wi up co ip mv bv nd ar st tr sr nw ms := t in
  mkToken ow na ti ty v bu pa fr wi up co ip mv bv nd ar st tr sr nw ms.
Definition withBurnable v (t : ESDTDataV2) :=
  let 'mkToken ow na ti ty mi bu pa fr wi up co ip mv bv nd ar st tr sr nw ms := t in
  mkToken ow na ti ty mi v pa fr wi up co ip mv bv nd ar st tr sr nw ms.
Definition withCanPause v (t : ESDTDataV2) :=
  let 'mkToken ow na ti ty mi bu pa fr wi up co ip mv bv nd ar st tr sr nw ms := t in
  mkToken ow na ti ty mi bu v fr wi up co ip mv bv nd ar st tr sr nw ms.
Definition withCanFreeze v (t : ESDTDataV2) :=
  let 'mkToken ow na ti ty mi bu pa fr wi up co ip mv bv nd ar st tr sr nw ms := t in
  mkToken ow na ti ty mi bu pa v wi up co ip mv bv nd ar st tr sr nw ms.
Definition withCanWipe v (t : ESDTDataV2) :=
  let 'mkToken ow na ti ty mi bu pa fr wi up co ip mv bv nd ar st tr sr nw ms := t in
  mkToken ow na ti ty mi bu pa fr v up co ip mv bv nd ar st tr sr nw ms.
Definition withUpgradable v (t : ESDTDataV2) :=
  let 'mkToken ow na ti ty mi bu pa fr wi up co ip mv bv nd ar st tr sr nw ms := t in
  mkToken ow na ti ty mi bu pa fr wi v co ip mv bv nd ar st tr sr nw ms.
Definition withCanChangeOwner v (t : ESDTDataV2) :=
  let 'mkToken ow na ti ty mi bu pa fr wi up co ip mv bv nd ar st tr sr nw ms := t in
  mkToken ow na ti ty mi bu pa fr wi up v ip mv bv nd ar st tr sr nw ms.
Definition withIsPaused v (t : ESDTDataV2) :=
  let 'mkToken ow na ti ty mi bu pa fr wi up co ip mv bv nd ar st tr sr nw ms := t in
  mkToken ow na ti ty mi bu pa fr wi up co v mv bv nd ar st tr sr nw ms.
Definition withMintedValue v (t : ESDTDataV2) :=
  let 'mkToken ow na ti ty mi bu pa fr wi up co ip mv bv nd ar st tr sr nw ms := t in
  mkToken ow na ti ty mi bu pa fr wi up co ip v bv nd ar st tr sr nw ms.
Definition withBurntValue v (t : ESDTDataV2) :=
  let 'mkToken ow na ti ty mi bu pa fr wi up co ip mv bv nd ar st tr sr nw ms := t in
  mkToken ow na ti ty mi bu pa fr wi up co ip mv v nd ar st tr sr nw ms.
Definition withNumDecimals v (t : ESDTDataV2) :=
  let 'mkToken ow na ti ty mi bu pa fr wi up co ip mv bv nd ar st tr sr nw ms := t in
  mkToken ow na ti ty mi bu pa fr wi up co ip mv bv v ar st tr sr nw ms.
Definition withCanAddSpecialRoles v (t : ESDTDataV2) :=
  let 'mkToken ow na ti ty mi bu pa fr wi up co ip mv bv nd ar st tr sr nw ms := t in
  mkToken ow na ti ty mi bu pa fr wi up co ip mv bv nd v st tr sr nw ms.
Definition withNFTCreateStopped v (t : ESDTDataV2) :=
  let 'mkToken ow na ti ty mi bu pa fr wi up co ip mv bv nd ar st tr sr nw ms := t in
  mkToken ow na ti ty mi bu pa fr wi up co ip mv bv nd ar v tr sr nw ms.
Definition withCanTransferNFTCreateRole v (t : ESDTDataV2) :=
  let 'mkToken ow na ti ty mi bu pa fr wi up co ip mv bv nd ar st tr sr nw ms := t in
  mkToken ow na ti ty mi bu pa fr wi up co ip mv bv nd ar st v sr nw ms.
Definition withSpecialRoles v (t : ESDTDataV2) :=
  let 'mkToken ow na ti ty mi bu pa fr wi up co ip mv bv nd ar st tr sr nw ms := t in
  mkToken ow na ti ty mi bu pa fr wi up co ip mv bv nd ar st tr v nw ms.
Definition withNumWiped v (t : ESDTDataV2) :=
  let 'mkToken ow na ti ty mi bu pa fr wi up co ip mv bv nd ar st tr sr nw ms := t in
  mkToken ow na ti ty mi bu pa fr wi up co ip mv bv nd ar st tr sr v ms.
Definition withCanCreateMultiShard v (t : ESDTDataV2) :=
  let 'mkToken ow na ti ty mi bu pa fr wi up co ip mv bv nd ar st tr sr nw ms := t in
  mkToken ow na ti ty mi bu pa fr wi up co ip mv bv nd ar st tr sr nw v.
(** ** Constants *)
Definition numOfRetriesForIdentifier : nat := 50.
Definition tickerSeparator : bytes := toBytes "-".
Definition tickerRandomSequenceLength : nat := 3.
Definition minLengthForTickerName : nat := 3.
Definition maxLengthForTickerName : nat := 10.
Definition minLengthForInitTokenName : Z := 10.
Definition minLengthForTokenName : nat := 3.
Definition maxLengthForTokenName : Z := 20.
Definition maxNumberOfDecimals : Z := 18.
Definition configKeyPrefix : bytes := toBytes "esdtConfig".
Definition burnable : bytes := toBytes "canBurn".
Definition mintable : bytes := toBytes "canMint".
Definition canPause : bytes := toBytes "canPause".
Definition canFreeze : bytes := toBytes "canFreeze".
Definition canWipe : bytes := toBytes "canWipe".
Definition canChangeOwner : bytes := toBytes "canChangeOwner".
Definition canAddSpecialRoles : bytes := toBytes "canAddSpecialRoles".
Definition canTransferNFTCreateRole : bytes := toBytes "canTransferNFTCreateRole".
Definition upgradable : bytes := toBytes "canUpgrade".
Definition canCreateMultiShard : bytes := toBytes "canCreateMultiShard".
Definition eGLD : bytes := toBytes "EGLD".

Definition ErrTokenNameNotHumanReadable : error := "token name is not human readable".
Definition ErrTickerNameNotValid : error := "ticker name is not valid".
Definition ErrCouldNotCreateNewTokenIdentifier : error := "token identifier could not be created".
Definition ErrNegativeOrZeroInitialSupply : error := "negative initial supply was provided".
Definition ErrInvalidNumberOfDecimals : error := "invalid number of decimals".
Definition ErrNoTickerWithGivenName : error := "no ticker with given name".
Definition ErrInvalidAddress : error := "invalid address".
Definition ErrInvalidArgument : error := "invalid argument".
Definition ErrNFTCreateRoleAlreadyExists : error := "NFT create role already exists".
Definition ErrElementNotFound : error := "element was not found".
Definition ErrCannotChangeToDynamic : error := "cannot change to dynamic because of duplicated roles".

(** [fmt.Sprintf] of an integer with %d *)
Definition decimalString (z : Z) : string := NilZero.string_of_int (Z.to_int z).

(** ** The contract's parameters *)
Inductive EsdtFlag : Type :=
  | EsdtMetadataContinuousCleanupFlag
  | EsdtGlobalMintBurnFlag
  | EsdtMultiClaimOnDelegationFlag
  | EsdtMetaESDTSetFlag
  | EsdtManagedCryptoAPIsFlag
  | EsdtFlagESDT
  | EsdtTransferRoleFlag
  | EsdtRegisterAndSetAllRolesFlag
  | EsdtNFTCreateOnMultiShardFlag
  | EsdtNFTStopCreateFlag
  | EsdtDynamicESDTFlag
  | EsdtEGLDInESDTMultiTransferFlag.
Class EsdtContract : Type := {
  gasESDTIssue : Z;
  gasESDTOperations : Z;
  baseIssuingCost : Z;
  ownerAddress : bytes;
  esdtSCAddress : bytes;
  endOfEpochSCAddress : bytes;
  esdtFlag : EsdtFlag → bool;
  esdt_hasher :: Hasher;
  (** core.PubkeyConverter: the encoded address with an error, its length, and the
      encoding that only logs its error *)
  EncodeAddress : bytes → string * option error;
  addressLength : nat;
  SilentEncode : bytes → string;
  token_marshaller :: Marshaller ESDTDataV2;
  tokenV1_marshaller :: Marshaller ESDTDataV1;
  esdtConfig_marshaller :: Marshaller ESDTConfig;
}.
(** constants of mx-chain-core-go and mx-chain-vm-common-go *)
Class CoreConstants : Type := {
  MaxLenForESDTIssueMint : nat;
  (** token types *)
  FungibleESDT : bytes;
  NonFungibleESDT : bytes;
  NonFungibleESDTv2 : bytes;
  SemiFungibleESDT : bytes;
  MetaESDT : bytes;
  Dynamic : bytes;
  DynamicNFTESDT : bytes;
  DynamicSFTESDT : bytes;
  DynamicMetaESDT : bytes;
  (** roles *)
  ESDTRoleLocalMint : bytes;
  ESDTRoleLocalBurn : bytes;
  ESDTRoleTransfer : bytes;
  ESDTRoleNFTCreate : bytes;
  ESDTRoleNFTCreateMultiShard : bytes;
  ESDTRoleNFTAddQuantity : bytes;
  ESDTRoleNFTBurn : bytes;
  ESDTRoleNFTUpdateAttributes : bytes;
  ESDTRoleNFTAddURI : bytes;
  ESDTRoleSetNewURI : bytes;
  ESDTRoleModifyCreator : bytes;
  ESDTRoleModifyRoyalties : bytes;
  ESDTRoleNFTRecreate : bytes;
  ESDTRoleNFTUpdate : bytes;
  ESDTRoleBurnForAll : bytes;
  (** built-in functions *)
  BuiltInFunctionESDTTransfer : string;
  BuiltInFunctionESDTBurn : string;
  BuiltInFunctionESDTFreeze : string;
  BuiltInFunctionESDTUnFreeze : string;
  BuiltInFunctionESDTWipe : string;
  BuiltInFunctionESDTPause : string;
  BuiltInFunctionESDTUnPause : string;
  BuiltInFunctionSetESDTRole : string;
  BuiltInFunctionUnSetESDTRole : string;
  BuiltInFunctionESDTSetLimitedTransfer : string;
  BuiltInFunctionESDTUnSetLimitedTransfer : string;
  BuiltInFunctionESDTNFTCreateRoleTransfer : string;
  BuiltInFunctionESDTSetBurnRoleForAll : string;
  BuiltInFunctionESDTUnSetBurnRoleForAll : string;
  BuiltInFunctionESDTTransferRoleAddAddress : string;
  BuiltInFunctionESDTTransferRoleDeleteAddress : string;
  ESDTSetTokenType : string;
}.
(** the rest of vm.SystemEI; [GetBalance] may dereference nil *)
Class TokenEI (E : Type) : Type := {
  CurrentRandomSeed : E → bytes;
  GetBalance : bytes → E → option Z;
  SendGlobalSettingToAll : bytes → E → E;
}.
#[export] Instance vmContext_TokenEI `{Host} (seed : bytes) : TokenEI vmContext := {
  CurrentRandomSeed _ := seed;
  GetBalance a host := match Eei.GetBalance (X:=error) a host with (Ret b, _) => Some b | _ => None end;
  SendGlobalSettingToAll input host := (Eei.SendGlobalSettingToAll (X:=error) input host).2;
}.

Section data.
Context {E : Type} {EI : SystemEI E} {TE : TokenEI E} {EC : EsdtContract} {CC : CoreConstants}.

(** [name@hex(argument)@...] *)
Definition builtInCall (name : string) (arguments : list bytes) : bytes :=
  toBytes (foldl (λ call a, call ++ ("@" ++ hexString a))%string name arguments).
(** [e.eei.Transfer(destination, e.esdtSCAddress, big.NewInt(0), []byte(input), 0)] *)
Definition sendToken {X} (destination input : bytes) : M E X unit := λ e,
  match Transfer destination esdtSCAddress 0 input 0 e with
  | None => (Panic, e)
  | Some e' => (Ret tt, e')
  end.
Definition sendToAll {X} (input : bytes) : M E X unit := modify (SendGlobalSettingToAll input).
Definition addLogEntry {X} (identifier address : bytes) (topics : list bytes) : M E X unit :=
  modify (AddLogEntry (mkLog identifier address topics [])).

(** ** Loading and saving *)
Definition saveTokenV1 (identifier : bytes) (token : ESDTDataV2) : M E error unit :=
  let tokenV1 := mkTokenV1 (OwnerAddress token) (TokenName token) (TickerName token)
    (TokenType token) (Mintable token) (Burnable token) (CanPause token) (CanFreeze token) (CanWipe token)
    (Upgradable token) (CanChangeOwner token) (IsPaused token) (MintedValue token)
    (BurntValue token) (NumDecimals token) (CanAddSpecialRoles token) (NFTCreateStopped token)
    (CanTransferNFTCreateRole token) (SpecialRoles token) (NumWiped token) in
  let! marshaledData := fromSum (Marshal tokenV1) in
  setStorage identifier marshaledData.
Definition saveToken (identifier : bytes) (token : ESDTDataV2) : M E error unit :=
  if negb (esdtFlag EsdtNFTCreateOnMultiShardFlag) then saveTokenV1 identifier token
  else
    let! marshaledData := fromSum (Marshal token) in
    setStorage identifier marshaledData.
Definition getExistingToken (tokenIdentifier : bytes) : M E error ESDTDataV2 :=
  let! marshaledData := readStorage tokenIdentifier in
  match marshaledData with
  | [] => throw ErrNoTickerWithGivenName
  | _ => fromSum (Unmarshal zeroToken marshaledData)
  end.

Definition initialConfig : ESDTConfig :=
  mkESDTConfig ownerAddress (Some baseIssuingCost) minLengthForInitTokenName maxLengthForTokenName.
Definition getESDTConfig : M E error ESDTConfig :=
  let! marshalledData := readStorage configKeyPrefix in
  match marshalledData with
  | [] => ret initialConfig
  | _ => fromSum (Unmarshal initialConfig marshalledData)
  end.
Definition getEsdtOwner : M E error bytes :=
  let! esdtConfig := getESDTConfig in
  ret (ConfigOwnerAddress esdtConfig).
Definition saveESDTConfig (esdtConfig : ESDTConfig) : M E error unit :=
  let! marshaledData := fromSum (Marshal esdtConfig) in
  setStorage configKeyPrefix marshaledData.

(** ** Checks *)
Definition isAddressValid (addressBytes : bytes) : bool :=
  (length addressBytes =? addressLength) && negb (bool_decide (SilentEncode addressBytes = "")).
Definition getTokenInfoAfterInputChecks (args : ContractCallInput) : M E ReturnCode ESDTDataV2 :=
  returnIf (negb (valueOf args =? 0)%Z) "callValue must be 0" OutOfFunds ;;;
  useGas gasESDTOperations ;;;
  returnIf (length (Arguments args) <? 1) "not enough arguments" UserError ;;;
  orReturn (getExistingToken (arg args 0)) "" UserError.
Definition basicOwnershipChecks (args : ContractCallInput) : M E ReturnCode ESDTDataV2 :=
  let! token := getTokenInfoAfterInputChecks args in
  returnIf (negb (bool_decide (OwnerAddress token = callerOf args))) "can be called by owner only"
    UserError ;;;
  ret token.
(** [err := e.saveToken(...); if err != nil { ...; return UserError }] *)
Definition saveOrReturn (identifier : bytes) (token : ESDTDataV2) : M E ReturnCode unit :=
  orReturn (saveToken identifier token) "" UserError.
End data.
