(* ===== verification/EsdtTokens.v ===== *)
(** * EsdtTokens: issuing tokens, their properties and their supply

    The first half of esdt.go: the identifiers and the creation of tokens, their
    properties, minting, burning, freezing, wiping and pausing.  The functions
    that also give roles are in [EsdtSC.v]. *)
From S2P Require Import Prelude SystemEI StakingData DelegationData EsdtData.
#[local] Open Scope go_scope.

Section tokens.
Context {E : Type} {EI : SystemEI E} {TE : TokenEI E} {EC : EsdtContract} {CC : CoreConstants}.

(** ** Arguments *)
Definition checkBasicCreateArguments (args : ContractCallInput) : M E ReturnCode unit :=
  useGas gasESDTIssue ;;;
  let! esdtConfig := orReturn getESDTConfig "" UserError in
  returnIf (length (Arguments args) <? 1) "not enough arguments" UserError ;;;
  returnIf ((length (arg args 0) <? minLengthForTokenName) ||
            (MaxTokenNameLength esdtConfig <? Z.of_nat (length (arg args 0)))%Z)
    "token name length not in parameters" FunctionWrongSignature ;;;
  let! issuingCost := deref (BaseIssuingCost esdtConfig) in
  returnIf (negb (valueOf args =? issuingCost)%Z) "callValue not equals with baseIssuingCost" OutOfFunds.

(** [uint32(big.NewInt(0).SetBytes(arg).Uint64())] *)
Definition argUint32 (a : bytes) : Z := u32 (bigUint64 (setBytes a)).
(** the number of decimals in an argument, with the check that follows *)
Definition decimalsOf (a : bytes) : M E ReturnCode Z :=
  let numOfDecimals := argUint32 a in
  returnIf (maxNumberOfDecimals <? numOfDecimals)%Z
    (ErrInvalidNumberOfDecimals ++ ", minimum: 0, maximum: 18, provided: " ++ decimalString numOfDecimals)
    UserError ;;;
  ret numOfDecimals.

(** ** Identifiers *)
Definition inRange (lo hi c : byte) : bool := (Byte.to_N lo <=? Byte.to_N c)%N && (Byte.to_N c <=? Byte.to_N hi)%N.
Definition isTickerValid (tickerName : bytes) : bool :=
  negb ((length tickerName <? minLengthForTickerName) || (maxLengthForTickerName <? length tickerName)) &&
  forallb (λ ch, inRange x41 x5a ch || inRange x30 x39 ch) tickerName.
Definition isTokenNameHumanReadable (tokenName : bytes) : bool :=
  forallb (λ ch, inRange x61 x7a ch || inRange x41 x5a ch || inRange x30 x39 ch) tokenName.

(** the digits of a number with %x, behind [acc] *)
Definition hexDigit (n : N) : byte :=
  default x00 (Byte.of_N (if n <? 10 then 48 + n else 87 + n)%N).
Fixpoint hexDigits (fuel : nat) (n : N) (acc : bytes) : bytes :=
  match fuel with
  | O => acc
  | S f => if (n =? 0)%N then acc else hexDigits f (n / 16)%N (hexDigit (n mod 16)%N :: acc)
  end.
(** [fmt.Sprintf("%06x", z)] of a number that is not negative *)
Definition hexPadded (z : Z) : bytes :=
  let n := Z.abs_N z in
  let digits := hexDigits (S (N.to_nat (N.log2 n))) n [] in
  replicate (6 - length digits) x30 ++ digits.

Fixpoint identifierLoop {X} (fuel : nat) (tickerPrefix : bytes) (newRandom : Z) : M E X (option bytes) :=
  match fuel with
  | O => ret None
  | S fuel =>
    let newIdentifier := tickerPrefix ++ hexPadded newRandom in
    let! buff := readStorage newIdentifier in
    match buff with
    | [] => ret (Some newIdentifier)
    | _ => identifierLoop fuel tickerPrefix (newRandom + 1)
    end
  end.
Definition createNewTokenIdentifier (caller ticker : bytes) : M E error bytes :=
  if esdtFlag EsdtEGLDInESDTMultiTransferFlag && bool_decide (ticker = eGLD)
  then throw ErrCouldNotCreateNewTokenIdentifier
  else
    let! seed := gets CurrentRandomSeed in
    let newRandom := Compute (caller ++ seed) in
    if length newRandom <? tickerRandomSequenceLength then panic
    else
      let newRandomForTicker := take tickerRandomSequenceLength newRandom in
      let! found := identifierLoop numOfRetriesForIdentifier (ticker ++ tickerSeparator)
                      (setBytes newRandomForTicker) in
      match found with
      | Some newIdentifier => ret newIdentifier
      | None => throw ErrCouldNotCreateNewTokenIdentifier
      end.

(** ** Properties *)
Definition checkAndGetSetting (a : bytes) : error + bool :=
  if bool_decide (a = toBytes "true") then inr true
  else if bool_decide (a = toBytes "false") then inr false
  else inl ErrInvalidArgument.
(** one argument of [upgradeProperties] with its value *)
Definition setProperty (isCreate mintBurnable : bool) (token : ESDTDataV2) (optionalArg : bytes) (val : bool) :
    error + ESDTDataV2 :=
  if bool_decide (optionalArg = burnable) then
    if negb mintBurnable then inl (ErrInvalidArgument ++ " only fungible tokens are burnable at system SC")%string
    else inr (withBurnable val token)
  else if bool_decide (optionalArg = mintable) then
    if negb mintBurnable then inl (ErrInvalidArgument ++ " only fungible tokens are mintable at system SC")%string
    else inr (withMintable val token)
  else if bool_decide (optionalArg = canPause) then inr (withCanPause val token)
  else if bool_decide (optionalArg = canFreeze) then inr (withCanFreeze val token)
  else if bool_decide (optionalArg = canWipe) then inr (withCanWipe val token)
  else if bool_decide (optionalArg = upgradable) then inr (withUpgradable val token)
  else if bool_decide (optionalArg = canChangeOwner) then inr (withCanChangeOwner val token)
  else if bool_decide (optionalArg = canAddSpecialRoles) then inr (withCanAddSpecialRoles val token)
  else if bool_decide (optionalArg = canTransferNFTCreateRole) then inr (withCanTransferNFTCreateRole val token)
  else if bool_decide (optionalArg = canCreateMultiShard) then
    if negb (esdtFlag EsdtNFTCreateOnMultiShardFlag) || mintBurnable || negb isCreate then inl ErrInvalidArgument
    else inr (withCanCreateMultiShard val token)
  else inl ErrInvalidArgument.
(** the arguments two by two; the slice has an even length *)
Fixpoint propertiesLoop (isCreate mintBurnable : bool) (token : ESDTDataV2) (args : list bytes) :
    error + ESDTDataV2 :=
  match args with
  | name :: value :: rest =>
    match checkAndGetSetting value with
    | inl err => inl err
    | inr val =>
      match setProperty isCreate mintBurnable token name val with
      | inl err => inl err
      | inr token' => propertiesLoop isCreate mintBurnable token' rest
      end
    end
  | _ => inr token
  end.
(** [name] at an even position *)
Fixpoint propertyInArgs (name : bytes) (args : list bytes) : bool :=
  match args with
  | n :: _ :: rest => bool_decide (n = name) || propertyInArgs name rest
  | _ => false
  end.
Definition upgradeProperties (tokenIdentifier : bytes) (token : ESDTDataV2) (args : list bytes)
    (isCreate : bool) (callerAddr : bytes) : M E error ESDTDataV2 :=
  let mintBurnable := bool_decide (TokenType token = FungibleESDT) in
  let topics := [tokenIdentifier; bigBytes 0] in
  let log := addLogEntry (toBytes "upgradeProperties") callerAddr in
  if length args =? 0 then
    log (topics ++ [upgradable; boolToSlice (Upgradable token);
                    canAddSpecialRoles; boolToSlice (CanAddSpecialRoles token)]) ;;;
    ret token
  else if Nat.odd (length args) then throw ErrInvalidNumOfArguments
  else
    let! token := fromSum (propertiesLoop isCreate mintBurnable token args) in
    log (topics ++ args ++
      (if propertyInArgs upgradable args then [] else [upgradable; boolToSlice (Upgradable token)]) ++
      (if propertyInArgs canAddSpecialRoles args then []
       else [canAddSpecialRoles; boolToSlice (CanAddSpecialRoles token)])) ;;;
    ret token.

(** ** Messages to all shards *)
Definition addBurnRoleAndSendToAllShards {X} (token : ESDTDataV2) (tokenID : bytes) : M E X ESDTDataV2 :=
  if negb (esdtFlag EsdtMetadataContinuousCleanupFlag) then ret token
  else
    let token := withSpecialRoles (SpecialRoles token ++ [mkRoles [] [ESDTRoleBurnForAll]]) token in
    addLogEntry (toBytes BuiltInFunctionESDTSetBurnRoleForAll) (OwnerAddress token)
      [tokenID; bigBytes 0; bigBytes 0; ESDTRoleBurnForAll] ;;;
    sendToAll (builtInCall BuiltInFunctionESDTSetBurnRoleForAll [tokenID]) ;;;
    ret token.
Definition sendTokenTypeToSystemAccounts {X} (caller tokenID : bytes) (token : ESDTDataV2) : M E X unit :=
  if negb (esdtFlag EsdtDynamicESDTFlag) then ret tt
  else
    sendToAll (builtInCall ESDTSetTokenType [tokenID; TokenType token]) ;;;
    addLogEntry (toBytes ESDTSetTokenType) caller [tokenID; TokenType token].

(** ** Creating tokens *)
Definition createNewToken (owner tokenName tickerName : bytes) (initialSupply numDecimals : Z)
    (properties : list bytes) (tokenType : bytes) : M E error (bytes * ESDTDataV2) :=
  if negb (isTokenNameHumanReadable tokenName) then throw ErrTokenNameNotHumanReadable
  else if negb (isTickerValid tickerName) then throw ErrTickerNameNotValid
  else
    let! tokenIdentifier := createNewTokenIdentifier owner tickerName in
    let newESDTToken := mkToken owner tokenName tickerName tokenType false false false false false true
      false false (Some initialSupply) (Some 0%Z) numDecimals true false false [] 0 false in
    let! token := upgradeProperties tokenIdentifier newESDTToken properties true owner in
    let! token := addBurnRoleAndSendToAllShards token tokenIdentifier in
    saveToken tokenIdentifier token ;;;
    sendTokenTypeToSystemAccounts owner tokenIdentifier token ;;;
    ret (tokenIdentifier, token).
Definition logCreated {X} (args : ContractCallInput) (tokenIdentifier tokenType : bytes)
    (numOfDecimals : Z) : M E X unit :=
  addLogEntry (toBytes (Function args)) (callerOf args)
    [tokenIdentifier; arg args 0; arg args 1; tokenType; bigBytes numOfDecimals].

Definition issue (args : ContractCallInput) : handler E :=
  returnIf (length (Arguments args) <? 4) "not enough arguments" FunctionWrongSignature ;;;
  checkBasicCreateArguments args ;;;
  returnIf (MaxLenForESDTIssueMint <? length (arg args 2))
    ("max length for esdt issue is " ++ decimalString (Z.of_nat MaxLenForESDTIssueMint)) UserError ;;;
  let initialSupply := setBytes (arg args 2) in
  returnIf ((initialSupply <? 0)%Z || (esdtFlag EsdtGlobalMintBurnFlag && (initialSupply =? 0)%Z))
    ErrNegativeOrZeroInitialSupply UserError ;;;
  let! numOfDecimals := decimalsOf (arg args 3) in
  let! ' (tokenIdentifier, _) := orReturn (createNewToken (callerOf args) (arg args 0) (arg args 1)
    initialSupply numOfDecimals (drop 4 (Arguments args)) FungibleESDT) "" UserError in
  (if (0 <? initialSupply)%Z then
     sendToken (callerOf args)
       (builtInCall BuiltInFunctionESDTTransfer [tokenIdentifier; bigBytes initialSupply])
   else finish tokenIdentifier) ;;;
  logCreated args tokenIdentifier FungibleESDT numOfDecimals ;;;
  ret Ok.
Definition registerNonFungible (args : ContractCallInput) : handler E :=
  checkBasicCreateArguments args ;;;
  returnIf (length (Arguments args) <? 2) "not enough arguments" UserError ;;;
  let tokenType := if esdtFlag EsdtDynamicESDTFlag then NonFungibleESDTv2 else NonFungibleESDT in
  let! ' (tokenIdentifier, _) := orReturn (createNewToken (callerOf args) (arg args 0) (arg args 1)
    0 0 (drop 2 (Arguments args)) tokenType) "" UserError in
  finish tokenIdentifier ;;;
  logCreated args tokenIdentifier tokenType 0 ;;;
  ret Ok.
Definition registerSemiFungible (args : ContractCallInput) : handler E :=
  checkBasicCreateArguments args ;;;
  returnIf (length (Arguments args) <? 2) "not enough arguments" UserError ;;;
  let! ' (tokenIdentifier, _) := orReturn (createNewToken (callerOf args) (arg args 0) (arg args 1)
    0 0 (drop 2 (Arguments args)) SemiFungibleESDT) "" UserError in
  finish tokenIdentifier ;;;
  logCreated args tokenIdentifier SemiFungibleESDT 0 ;;;
  ret Ok.
Definition registerMetaESDT (args : ContractCallInput) : handler E :=
  returnIf (negb (esdtFlag EsdtMetaESDTSetFlag)) "invalid method to call" UserError ;;;
  checkBasicCreateArguments args ;;;
  returnIf (length (Arguments args) <? 3) "not enough arguments" UserError ;;;
  let! numOfDecimals := decimalsOf (arg args 2) in
  let! ' (tokenIdentifier, _) := orReturn (createNewToken (callerOf args) (arg args 0) (arg args 1)
    0 numOfDecimals (drop 3 (Arguments args)) MetaESDT) "" UserError in
  finish tokenIdentifier ;;;
  logCreated args tokenIdentifier MetaESDT numOfDecimals ;;;
  ret Ok.
Definition changeSFTToMetaESDT (args : ContractCallInput) : handler E :=
  returnIf (negb (esdtFlag EsdtMetaESDTSetFlag)) "invalid method to call" UserError ;;;
  returnIf (length (Arguments args) <? 2) "not enough arguments" UserError ;;;
  let! numOfDecimals := decimalsOf (arg args 1) in
  let! token := basicOwnershipChecks args in
  returnIf (negb (bool_decide (TokenType token = SemiFungibleESDT)))
    "change can happen to semi fungible tokens only" UserError ;;;
  let token := withNumDecimals numOfDecimals (withTokenType MetaESDT token) in
  saveOrReturn (arg args 0) token ;;;
  addLogEntry (toBytes (Function args)) (callerOf args)
    [arg args 0; TokenName token; TickerName token; MetaESDT; arg args 1] ;;;
  sendTokenTypeToSystemAccounts (callerOf args) (arg args 0) token ;;;
  ret Ok.

(** ** The supply *)
Definition burn (args : ContractCallInput) : handler E :=
  returnIf (negb (esdtFlag EsdtGlobalMintBurnFlag)) "global burn is no more enabled, use local burn"
    UserError ;;;
  returnIf (negb (length (Arguments args) =? 2)) "number of arguments must be equal with 2"
    FunctionWrongSignature ;;;
  returnIf (negb (valueOf args =? 0)%Z) "callValue must be 0" OutOfFunds ;;;
  let burntValue := setBytes (arg args 1) in
  returnIf (burntValue <=? 0)%Z "negative or 0 value to burn" UserError ;;;
  let! token := orReturn (getExistingToken (arg args 0)) "" UserError in
  if negb (Burnable token) then
    sendToken (callerOf args) (builtInCall BuiltInFunctionESDTTransfer [arg args 0; arg args 1]) ;;;
    addReturnMessage "token is not burnable" ;;;
    ret (if esdtFlag EsdtMultiClaimOnDelegationFlag then UserError else Ok)
  else
    let! burnt := deref (BurntValue token) in
    saveOrReturn (arg args 0) (withBurntValue (Some (burnt + burntValue)%Z) token) ;;;
    useGas (GasProvided args) ;;;
    ret Ok.
Definition mint (args : ContractCallInput) : handler E :=
  returnIf (negb (esdtFlag EsdtGlobalMintBurnFlag)) "global mint is no more enabled, use local mint"
    UserError ;;;
  returnIf ((length (Arguments args) <? 2) || (3 <? length (Arguments args)))
    "accepted arguments number 2/3" FunctionWrongSignature ;;;
  let! token := basicOwnershipChecks args in
  returnIf (MaxLenForESDTIssueMint <? length (arg args 1))
    ("max length for esdt mint is " ++ decimalString (Z.of_nat MaxLenForESDTIssueMint)) UserError ;;;
  let mintValue := setBytes (arg args 1) in
  returnIf (mintValue <=? 0)%Z "negative or zero mint value" UserError ;;;
  returnIf (negb (Mintable token)) "token is not mintable" UserError ;;;
  let! minted := deref (MintedValue token) in
  let token := withMintedValue (Some (minted + mintValue)%Z) token in
  saveOrReturn (arg args 0) token ;;;
  returnIf ((length (Arguments args) =? 3) && negb (length (arg args 2) =? length (callerOf args)))
    "destination address of invalid length" UserError ;;;
  let destination := if length (Arguments args) =? 3 then arg args 2 else OwnerAddress token in
  sendToken destination (builtInCall BuiltInFunctionESDTTransfer [arg args 0; bigBytes mintValue]) ;;;
  ret Ok.

(** ** Freezing, wiping, pausing *)
Definition toggleFreeze (builtInFunc : string) (args : ContractCallInput) : handler E :=
  returnIf (negb (length (Arguments args) =? 2)) "invalid number of arguments, wanted 2"
    FunctionWrongSignature ;;;
  let! token := basicOwnershipChecks args in
  returnIf (negb (CanFreeze token)) "cannot freeze" UserError ;;;
  returnIf (negb (isAddressValid (arg args 1))) "invalid address to freeze/unfreeze" UserError ;;;
  sendToken (arg args 1) (builtInCall builtInFunc [arg args 0]) ;;;
  ret Ok.
Definition isArgumentsUint64 (a : bytes) : bool := (setBytes a <? 2 ^ 64)%Z.
Definition toggleFreezeSingleNFT (builtInFunc : string) (args : ContractCallInput) : handler E :=
  returnIf (negb (length (Arguments args) =? 3)) "invalid number of arguments, wanted 3"
    FunctionWrongSignature ;;;
  let! token := basicOwnershipChecks args in
  returnIf (negb (CanFreeze token)) "cannot freeze" UserError ;;;
  returnIf (bool_decide (TokenType token = FungibleESDT))
    "only non fungible tokens can be freezed per nonce" UserError ;;;
  returnIf (negb (isAddressValid (arg args 2))) "invalid address to freeze/unfreeze" UserError ;;;
  returnIf (negb (isArgumentsUint64 (arg args 1))) "invalid second argument, wanted nonce as bigInt"
    UserError ;;;
  sendToken (arg args 2) (builtInCall builtInFunc [arg args 0 ++ arg args 1]) ;;;
  ret Ok.
Definition wipeTokenFromAddress (address : bytes) (token : ESDTDataV2) (tokenID wipeArgument : bytes) :
    handler E :=
  returnIf (negb (CanWipe token)) "cannot wipe" UserError ;;;
  returnIf (negb (isAddressValid address)) "invalid address to wipe" UserError ;;;
  sendToken address (builtInCall BuiltInFunctionESDTWipe [wipeArgument]) ;;;
  saveOrReturn tokenID (withNumWiped (u32 (NumWiped token + 1)) token) ;;;
  ret Ok.
Definition wipe (args : ContractCallInput) : handler E :=
  returnIf (negb (length (Arguments args) =? 2)) "invalid number of arguments, wanted 2"
    FunctionWrongSignature ;;;
  let! token := basicOwnershipChecks args in
  wipeTokenFromAddress (arg args 1) token (arg args 0) (arg args 0).
Definition wipeSingleNFT (args : ContractCallInput) : handler E :=
  returnIf (negb (length (Arguments args) =? 3)) "invalid number of arguments, wanted 3"
    FunctionWrongSignature ;;;
  let! token := basicOwnershipChecks args in
  returnIf (bool_decide (TokenType token = FungibleESDT))
    "only non fungible tokens can be wiped per nonce" UserError ;;;
  returnIf (negb (isArgumentsUint64 (arg args 1))) "invalid second argument, wanted nonce as bigInt"
    UserError ;;;
  wipeTokenFromAddress (arg args 2) token (arg args 0) (arg args 0 ++ arg args 1).
Definition togglePause (builtInFunc : string) (args : ContractCallInput) : handler E :=
  returnIf (negb (length (Arguments args) =? 1)) "invalid number of arguments, wanted 1"
    FunctionWrongSignature ;;;
  let! token := basicOwnershipChecks args in
  returnIf (negb (CanPause token)) "cannot pause/un-pause" UserError ;;;
  returnIf (IsPaused token && bool_decide (builtInFunc = BuiltInFunctionESDTPause))
    "cannot pause an already paused contract" UserError ;;;
  returnIf (negb (IsPaused token) && bool_decide (builtInFunc = BuiltInFunctionESDTUnPause))
    "cannot unPause an already un-paused contract" UserError ;;;
  saveOrReturn (arg args 0) (withIsPaused (negb (IsPaused token)) token) ;;;
  sendToAll (builtInCall builtInFunc [arg args 0]) ;;;
  addLogEntry (toBytes builtInFunc) (callerOf args) [arg args 0] ;;;
  ret Ok.
End tokens.
