(* ===== verification/EsdtRoles.v ===== *)
(** * EsdtRoles: the special roles of a token

    The second half of esdt.go: which roles an address may get for a token, who
    holds them, and how they are given, taken and handed over.  A role entry is
    reached by the index of the first entry with its address, where the code
    holds a pointer into the token. *)
From S2P Require Import Prelude SystemEI StakingData DelegationData EsdtData EsdtTokens.
#[local] Open Scope go_scope.

Section roles.
Context {E : Type} {EI : SystemEI E} {TE : TokenEI E} {EC : EsdtContract} {CC : CoreConstants}.

(** ** Looking roles up *)
Fixpoint duplicatedArg (mapArgs : gset bytes) (arguments : list bytes) : bool :=
  match arguments with
  | [] => false
  | a :: t => if bool_decide (a ∈ mapArgs) then true else duplicatedArg ({[a]} ∪ mapArgs) t
  end.
Definition checkDuplicates (arguments : list bytes) : error + unit :=
  if duplicatedArg ∅ arguments then inl ErrDuplicatesFoundInArguments else inr tt.
Definition isDefinedRoleInArgs (args : list bytes) (definedRole : bytes) : bool :=
  existsb (λ a, bool_decide (a = definedRole)) args.
Definition checkIfDefinedRoleExistsInToken (token : ESDTDataV2) (definedRole : bytes) : bool :=
  existsb (λ esdtRole, isDefinedRoleInArgs (Roles esdtRole) definedRole) (SpecialRoles token).
Definition checkIfDefinedRoleExistsInArgsAndToken (args : list bytes) (token : ESDTDataV2)
    (definedRole : bytes) : bool :=
  isDefinedRoleInArgs args definedRole && checkIfDefinedRoleExistsInToken token definedRole.
Fixpoint roleIndex (roles : list bytes) (role : bytes) : option nat :=
  match roles with
  | [] => None
  | r :: t => if bool_decide (r = role) then Some 0 else S <$> roleIndex t role
  end.
(** [None] is the index -1 *)
Definition getRoleIndex (esdtRoles : ESDTRoles) (role : bytes) : option nat := roleIndex (Roles esdtRoles) role.
Fixpoint addressIndex (specialRoles : list ESDTRoles) (address : bytes) : option nat :=
  match specialRoles with
  | [] => None
  | r :: t => if bool_decide (address = RoleAddress r) then Some 0 else S <$> addressIndex t address
  end.
(** the index and the entry; [None] where the code makes a new entry *)
Definition getRolesForAddress (token : ESDTDataV2) (address : bytes) : option (nat * ESDTRoles) :=
  i ← addressIndex (SpecialRoles token) address; r ← SpecialRoles token !! i; Some (i, r).
Definition getFirstAddressWithGivenRole (token : ESDTDataV2) (definedRole : bytes) : error + bytes :=
  match List.find (λ r, isDefinedRoleInArgs (Roles r) definedRole) (SpecialRoles token) with
  | Some r => inr (RoleAddress r)
  | None => inl ErrElementNotFound
  end.
Definition withRoles (v : list bytes) (r : ESDTRoles) : ESDTRoles := mkRoles (RoleAddress r) v.
(** the entries without [definedRole], and without those that had no other role *)
Definition deleteRoleFromToken (token : ESDTDataV2) (definedRole : bytes) : ESDTDataV2 :=
  withSpecialRoles (foldr (λ esdtRole newRoles,
    match getRoleIndex esdtRole definedRole with
    | None => esdtRole :: newRoles
    | Some index =>
      match delete index (Roles esdtRole) with
      | [] => newRoles
      | roles => withRoles roles esdtRole :: newRoles
      end
    end) [] (SpecialRoles token)) token.

(** ** Which roles a token can have *)
Definition isSpecialRoleValidForFungible (argument : bytes) : bool :=
  bool_decide (argument = ESDTRoleLocalMint) || bool_decide (argument = ESDTRoleLocalBurn) ||
  (bool_decide (argument = ESDTRoleTransfer) && esdtFlag EsdtTransferRoleFlag).
Definition isSpecialRoleValidForSemiFungible (argument : bytes) : bool :=
  bool_decide (argument = ESDTRoleNFTBurn) || bool_decide (argument = ESDTRoleNFTAddQuantity) ||
  bool_decide (argument = ESDTRoleNFTCreate) ||
  (bool_decide (argument = ESDTRoleTransfer) && esdtFlag EsdtTransferRoleFlag).
Definition isSpecialRoleValidForNonFungible (argument : bytes) : bool :=
  bool_decide (argument = ESDTRoleNFTBurn) || bool_decide (argument = ESDTRoleNFTCreate) ||
  (bool_decide (argument ∈ [ESDTRoleTransfer; ESDTRoleNFTUpdateAttributes; ESDTRoleNFTAddURI]) &&
     esdtFlag EsdtTransferRoleFlag) ||
  (bool_decide (argument ∈ [ESDTRoleSetNewURI; ESDTRoleModifyCreator; ESDTRoleModifyRoyalties;
                            ESDTRoleNFTRecreate; ESDTRoleNFTUpdate]) && esdtFlag EsdtDynamicESDTFlag).
Definition isSpecialRoleValidForDynamicNFT (argument : bytes) : bool :=
  bool_decide (argument ∈ [ESDTRoleNFTBurn; ESDTRoleNFTCreate; ESDTRoleTransfer;
    ESDTRoleNFTUpdateAttributes; ESDTRoleNFTAddURI; ESDTRoleSetNewURI; ESDTRoleModifyCreator;
    ESDTRoleModifyRoyalties; ESDTRoleNFTRecreate; ESDTRoleNFTUpdate]).
Definition isSpecialRoleValidForDynamicSFT (argument : bytes) : bool :=
  isSpecialRoleValidForDynamicNFT argument || bool_decide (argument = ESDTRoleNFTAddQuantity).
Definition validateRoles (arguments : list bytes) (isSpecialRoleValid : bytes → bool) : error + unit :=
  if forallb isSpecialRoleValid arguments then inr tt else inl ErrInvalidArgument.
Definition checkSpecialRolesAccordingToTokenType (args : list bytes) (token : ESDTDataV2) : error + unit :=
  let t := TokenType token in
  if bool_decide (t = FungibleESDT) then validateRoles args isSpecialRoleValidForFungible
  else if bool_decide (t = NonFungibleESDT) || bool_decide (t = NonFungibleESDTv2)
  then validateRoles args isSpecialRoleValidForNonFungible
  else if bool_decide (t = SemiFungibleESDT) then validateRoles args isSpecialRoleValidForSemiFungible
  else if bool_decide (t = MetaESDT) then
    if esdtFlag EsdtManagedCryptoAPIsFlag then validateRoles args isSpecialRoleValidForSemiFungible
    else inr tt
  else if bool_decide (t = DynamicNFTESDT) then validateRoles args isSpecialRoleValidForDynamicNFT
  else if bool_decide (t = DynamicSFTESDT) || bool_decide (t = DynamicMetaESDT)
  then validateRoles args isSpecialRoleValidForDynamicSFT
  else inr tt.

Definition isDynamicTokenType (tokenType : bytes) : bool :=
  negb (length tokenType <? length Dynamic) && bool_decide (take (length Dynamic) tokenType = Dynamic).
Definition rolesForDynamicWhichHasToBeSingular : list bytes :=
  [ESDTRoleNFTCreate; ESDTRoleNFTUpdateAttributes; ESDTRoleNFTAddURI; ESDTRoleSetNewURI;
   ESDTRoleModifyCreator; ESDTRoleModifyRoyalties; ESDTRoleNFTRecreate; ESDTRoleNFTUpdate].
Definition checkRolesForDynamicTokens (token : ESDTDataV2) (roles : list bytes) : M E ReturnCode unit :=
  if negb (isDynamicTokenType (TokenType token)) then ret tt
  else forEach rolesForDynamicWhichHasToBeSingular (λ role,
    returnIf (checkIfDefinedRoleExistsInArgsAndToken roles token role)
      (ofBytes role ++ " already exists") UserError).

(** the last byte of every address that can create NFTs, each of them once *)
Fixpoint multiShardLoop {X} (mapLastBytes : list byte) (specialRoles : list ESDTRoles) : M E X (error + unit) :=
  match specialRoles with
  | [] => ret (inr tt)
  | esdtRole :: rest =>
    if negb (isDefinedRoleInArgs (Roles esdtRole) ESDTRoleNFTCreate) then multiShardLoop mapLastBytes rest
    else match last (RoleAddress esdtRole) with
         | None => panic
         | Some lastByte =>
           if bool_decide (lastByte ∈ mapLastBytes) then ret (inl ErrInvalidAddress)
           else multiShardLoop (lastByte :: mapLastBytes) rest
         end
  end.
Definition checkCorrectAddressForNFTCreateMultiShard (token : ESDTDataV2) : M E error unit :=
  let! r := multiShardLoop [] (SpecialRoles token) in
  fromSum r.

(** ** Giving roles *)
Record rolesProperties : Type := mkRolesProperties {
  transferRoleExists : bool;
  isMultiShardNFTCreateSet : bool;
}.
(** the roles of an entry with new ones, none of which it has *)
Definition appendRoles (roles newRoles : list bytes) : M E ReturnCode (list bytes) :=
  foldEach newRoles roles (λ roles a,
    match roleIndex roles a with
    | Some _ => addReturnMessage "special role already exists for given address" ;;; throw UserError
    | None => ret (roles ++ [a])
    end).
(** the entry of [address] gets [roles] *)
Definition addRolesForAddress (token : ESDTDataV2) (address : bytes) (roles : list bytes) :
    M E ReturnCode ESDTDataV2 :=
  match getRolesForAddress token address with
  | None => ret (withSpecialRoles (SpecialRoles token ++ [mkRoles address roles]) token)
  | Some (i, esdtRole) =>
    let! newRoles := appendRoles (Roles esdtRole) roles in
    ret (withSpecialRoles (<[i := withRoles newRoles esdtRole]> (SpecialRoles token)) token)
  end.
Definition setRolesForTokenAndAddress (token : ESDTDataV2) (address : bytes) (roles : list bytes) :
    M E ReturnCode (ESDTDataV2 * rolesProperties) :=
  returnIf (negb (CanAddSpecialRoles token)) "cannot add special roles" UserError ;;;
  returnIf (esdtFlag EsdtNFTStopCreateFlag && NFTCreateStopped token &&
            isDefinedRoleInArgs roles ESDTRoleNFTCreate)
    "cannot add NFT create role as NFT creation was stopped" UserError ;;;
  returnIf (negb (CanCreateMultiShard token) &&
            checkIfDefinedRoleExistsInArgsAndToken roles token ESDTRoleNFTCreate)
    ErrNFTCreateRoleAlreadyExists UserError ;;;
  orReturn (fromSum (checkSpecialRolesAccordingToTokenType roles token)) "" UserError ;;;
  checkRolesForDynamicTokens token roles ;;;
  let transferRoleExists := checkIfDefinedRoleExistsInArgsAndToken roles token ESDTRoleTransfer in
  let! token := addRolesForAddress token address roles in
  let isMultiShardNFTCreateSet :=
    CanCreateMultiShard token && isDefinedRoleInArgs roles ESDTRoleNFTCreate in
  (if isMultiShardNFTCreateSet
   then orReturn (checkCorrectAddressForNFTCreateMultiShard token) "" UserError else ret tt) ;;;
  ret (token, mkRolesProperties transferRoleExists isMultiShardNFTCreateSet).

Definition sendRoleChangeData {X} (tokenID destination : bytes) (roles : list bytes) (builtInFunc : string) :
    M E X unit := sendToken destination (builtInCall builtInFunc (tokenID :: roles)).
Definition sendNewTransferRoleAddressToSystemAccount {X} (token address : bytes) : M E X unit :=
  if negb (esdtFlag EsdtMetadataContinuousCleanupFlag) then ret tt
  else sendToAll (builtInCall BuiltInFunctionESDTTransferRoleAddAddress [token; address]).
Definition deleteTransferRoleAddressFromSystemAccount {X} (token address : bytes) : M E X unit :=
  if negb (esdtFlag EsdtMetadataContinuousCleanupFlag) then ret tt
  else sendToAll (builtInCall BuiltInFunctionESDTTransferRoleDeleteAddress [token; address]).
Definition prepareAndSendRoleChangeData {X} (tokenID address : bytes) (roles : list bytes)
    (properties : rolesProperties) : M E X unit :=
  let allRoles := if isMultiShardNFTCreateSet properties then roles ++ [ESDTRoleNFTCreateMultiShard]
                  else roles in
  sendRoleChangeData tokenID address allRoles BuiltInFunctionSetESDTRole ;;;
  let isTransferRoleDefinedInArgs := isDefinedRoleInArgs roles ESDTRoleTransfer in
  (if negb (transferRoleExists properties) && isTransferRoleDefinedInArgs
   then sendToAll (builtInCall BuiltInFunctionESDTSetLimitedTransfer [tokenID]) else ret tt) ;;;
  if isTransferRoleDefinedInArgs then sendNewTransferRoleAddressToSystemAccount tokenID address else ret tt.

Definition checkArgumentsForSpecialRoleChanges (args : ContractCallInput) : M E ReturnCode unit :=
  returnIf (length (Arguments args) <? 3) "not enough arguments" FunctionWrongSignature ;;;
  returnIf (negb (length (arg args 1) =? length (callerOf args))) "second argument must be an address"
    FunctionWrongSignature ;;;
  orReturn (fromSum (checkDuplicates (drop 2 (Arguments args)))) "" UserError.
Definition setSpecialRole (args : ContractCallInput) : handler E :=
  checkArgumentsForSpecialRoleChanges args ;;;
  let! token := basicOwnershipChecks args in
  let roles := drop 2 (Arguments args) in
  let! ' (token, properties) := setRolesForTokenAndAddress token (arg args 1) roles in
  prepareAndSendRoleChangeData (arg args 0) (arg args 1) roles properties ;;;
  saveOrReturn (arg args 0) token ;;;
  ret Ok.

(** ** Taking roles *)
Definition removeRoles (roles oldRoles : list bytes) : M E ReturnCode (list bytes) :=
  foldEach oldRoles roles (λ roles a,
    match roleIndex roles a with
    | None => addReturnMessage "special role does not exist for address" ;;; throw UserError
    | Some index => ret (delete index roles)
    end).
Definition unSetSpecialRole (args : ContractCallInput) : handler E :=
  checkArgumentsForSpecialRoleChanges args ;;;
  let! token := basicOwnershipChecks args in
  let oldRoles := drop 2 (Arguments args) in
  returnIf (isDefinedRoleInArgs oldRoles ESDTRoleNFTCreate) "cannot un set NFT create role" UserError ;;;
  let address := arg args 1 in
  match getRolesForAddress token address with
  | None => addReturnMessage "address does not have special role" ;;; ret UserError
  | Some (i, esdtRole) =>
    let! roles := removeRoles (Roles esdtRole) oldRoles in
    sendRoleChangeData (arg args 0) (arg args 1) oldRoles BuiltInFunctionUnSetESDTRole ;;;
    let token := withSpecialRoles
      (if length roles =? 0 then delete i (SpecialRoles token)
       else <[i := withRoles roles esdtRole]> (SpecialRoles token)) token in
    let isTransferRoleInArgs := isDefinedRoleInArgs oldRoles ESDTRoleTransfer in
    let transferRoleExists := checkIfDefinedRoleExistsInArgsAndToken oldRoles token ESDTRoleTransfer in
    (if isTransferRoleInArgs && negb transferRoleExists
     then sendToAll (builtInCall BuiltInFunctionESDTUnSetLimitedTransfer [arg args 0]) else ret tt) ;;;
    (if isTransferRoleInArgs then deleteTransferRoleAddressFromSystemAccount (arg args 0) address
     else ret tt) ;;;
    saveOrReturn (arg args 0) token ;;;
    ret Ok
  end.

(** ** The role to create NFTs *)
(** the entries without the role, and the addresses that had it; no current owner
    is an empty address *)
Fixpoint deleteCreateRole (currentNFTCreateOwner : bytes) (specialRoles : list ESDTRoles) :
    M E ReturnCode (list ESDTRoles * list bytes) :=
  match specialRoles with
  | [] => ret ([], [])
  | esdtRole :: rest =>
    match getRoleIndex esdtRole ESDTRoleNFTCreate with
    | None =>
      let! ' (rest', creators) := deleteCreateRole currentNFTCreateOwner rest in
      ret (esdtRole :: rest', creators)
    | Some index =>
      returnIf ((0 <? length currentNFTCreateOwner) &&
                negb (bool_decide (RoleAddress esdtRole = currentNFTCreateOwner)))
        "address mismatch, second argument must be the one holding the NFT create role" UserError ;;;
      let! ' (rest', creators) := deleteCreateRole currentNFTCreateOwner rest in
      ret (withRoles (delete index (Roles esdtRole)) esdtRole :: rest', RoleAddress esdtRole :: creators)
    end
  end.
Definition deleteNFTCreateRole (token : ESDTDataV2) (currentNFTCreateOwner : bytes) :
    M E ReturnCode (ESDTDataV2 * list bytes) :=
  let! ' (specialRoles, creatorAddresses) :=
    deleteCreateRole currentNFTCreateOwner (SpecialRoles token) in
  returnIf (length creatorAddresses =? 0) "no address is holding the NFT create role" UserError ;;;
  ret (withSpecialRoles specialRoles token, creatorAddresses).

Definition transferNFTCreateRole (args : ContractCallInput) : handler E :=
  checkArgumentsForSpecialRoleChanges args ;;;
  let! token := basicOwnershipChecks args in
  returnIf (negb (CanTransferNFTCreateRole token)) "NFT create role transfer is not allowed" UserError ;;;
  returnIf (bool_decide (TokenType token = FungibleESDT)) "invalid function call for fungible tokens"
    UserError ;;;
  returnIf (negb (length (arg args 2) =? length (callerOf args))) "third argument must be an address"
    FunctionWrongSignature ;;;
  returnIf (bool_decide (arg args 1 = arg args 2)) "second and third arguments must not be equal"
    FunctionWrongSignature ;;;
  (if CanCreateMultiShard token then
     match last (arg args 1), last (arg args 2) with
     | Some b1, Some b2 =>
       returnIf (negb (bool_decide (b1 = b2)))
         "transfer NFT create cannot happen for addresses that don't end in the same byte" UserError
     | _, _ => panic
     end
   else ret tt) ;;;
  let! ' (token, _) := deleteNFTCreateRole token (arg args 1) in
  let nextNFTCreateOwner := arg args 2 in
  let token :=
    match getRolesForAddress token nextNFTCreateOwner with
    | None => withSpecialRoles
        (SpecialRoles token ++ [mkRoles nextNFTCreateOwner [ESDTRoleNFTCreate]]) token
    | Some (i, esdtRole) => withSpecialRoles
        (<[i := withRoles (Roles esdtRole ++ [ESDTRoleNFTCreate]) esdtRole]> (SpecialRoles token)) token
    end in
  saveOrReturn (arg args 0) token ;;;
  sendToken (arg args 1)
    (builtInCall BuiltInFunctionESDTNFTCreateRoleTransfer [arg args 0; arg args 2]) ;;;
  ret Ok.
Definition stopNFTCreateForever (args : ContractCallInput) : handler E :=
  returnIf (negb (length (Arguments args) =? 1)) "number of arguments must be equal to 1"
    FunctionWrongSignature ;;;
  let! token := basicOwnershipChecks args in
  returnIf (NFTCreateStopped token) "NFT create was already stopped" UserError ;;;
  returnIf (bool_decide (TokenType token = FungibleESDT)) "invalid function call for fungible tokens"
    UserError ;;;
  let! ' (token, currentOwners) := deleteNFTCreateRole token [] in
  saveOrReturn (arg args 0) (withNFTCreateStopped true token) ;;;
  forEach currentOwners (λ currentOwner,
    sendRoleChangeData (arg args 0) currentOwner [ESDTRoleNFTCreate] BuiltInFunctionUnSetESDTRole) ;;;
  ret Ok.
Definition changeToMultiShardCreate (args : ContractCallInput) : handler E :=
  returnIf (negb (length (Arguments args) =? 1)) "invalid number of arguments" UserError ;;;
  let! token := basicOwnershipChecks args in
  returnIf (negb (CanAddSpecialRoles token)) "cannot add special roles" UserError ;;;
  returnIf (CanCreateMultiShard token) "it is already multi shard create" UserError ;;;
  let! addressWithCreateRole :=
    orReturn (fromSum (getFirstAddressWithGivenRole token ESDTRoleNFTCreate)) "" UserError in
  let token := withCanCreateMultiShard true token in
  (match last addressWithCreateRole with
   | None => panic
   | Some lastByte =>
     if negb (bool_decide (lastByte = x00)) then
       sendRoleChangeData (arg args 0) addressWithCreateRole [ESDTRoleNFTCreateMultiShard]
         BuiltInFunctionSetESDTRole
     else ret tt
   end) ;;;
  saveOrReturn (arg args 0) token ;;;
  ret Ok.

(** ** The role to burn *)
Definition checkInputReturnDataBurnForAll (args : ContractCallInput) : M E ReturnCode ESDTDataV2 :=
  returnIf (negb (esdtFlag EsdtMetadataContinuousCleanupFlag)) "invalid method to call"
    FunctionNotFound ;;;
  returnIf (negb (length (Arguments args) =? 1)) "invalid number of arguments, wanted 1"
    FunctionWrongSignature ;;;
  basicOwnershipChecks args.
Definition saveTokenAndSendForAll (token : ESDTDataV2) (tokenID : bytes) (builtInName : string) : handler E :=
  saveOrReturn tokenID token ;;;
  sendToAll (builtInCall builtInName [tokenID]) ;;;
  ret Ok.
Definition setBurnRoleGlobally (args : ContractCallInput) : handler E :=
  let! token := checkInputReturnDataBurnForAll args in
  returnIf (checkIfDefinedRoleExistsInToken token ESDTRoleBurnForAll)
    "cannot set burn role globally as it was already set" UserError ;;;
  let! token := addBurnRoleAndSendToAllShards token (arg args 0) in
  saveOrReturn (arg args 0) token ;;;
  ret Ok.
Definition unsetBurnRoleGlobally (args : ContractCallInput) : handler E :=
  let! token := checkInputReturnDataBurnForAll args in
  returnIf (negb (checkIfDefinedRoleExistsInToken token ESDTRoleBurnForAll))
    "cannot unset burn role globally as it was not set" UserError ;;;
  let token := deleteRoleFromToken token ESDTRoleBurnForAll in
  addLogEntry (toBytes BuiltInFunctionESDTUnSetBurnRoleForAll) (callerOf args)
    [arg args 0; bigBytes 0; bigBytes 0; ESDTRoleBurnForAll] ;;;
  saveTokenAndSendForAll token (arg args 0) BuiltInFunctionESDTUnSetBurnRoleForAll.

Definition sendAllTransferRoleAddresses (args : ContractCallInput) : handler E :=
  returnIf (negb (esdtFlag EsdtMetadataContinuousCleanupFlag)) "invalid method to call"
    FunctionNotFound ;;;
  returnIf (negb (length (Arguments args) =? 1)) "wrong number of arguments, expected 1" UserError ;;;
  let! token := basicOwnershipChecks args in
  let addresses := map RoleAddress
    (List.filter (λ role, isDefinedRoleInArgs (Roles role) ESDTRoleTransfer) (SpecialRoles token)) in
  returnIf (length addresses =? 0) "no address with transfer role" UserError ;;;
  sendToAll (builtInCall BuiltInFunctionESDTTransferRoleAddAddress (arg args 0 :: addresses)) ;;;
  ret Ok.
End roles.
