(* ===== verification/EsdtSC.v ===== *)
(** * EsdtSC: dynamic tokens, tokens issued with roles, ownership, views and the dispatcher

    The rest of esdt.go: the functions that issue a token and give its roles in
    one call, the change to dynamic tokens, the owners of tokens and of the
    contract, the views, and [Execute]. *)
From S2P Require Import Prelude SystemEI StakingData DelegationData EsdtData EsdtTokens EsdtRoles.
#[local] Open Scope go_scope.

Section contract.
Context {E : Type} {EI : SystemEI E} {TE : TokenEI E} {EC : EsdtContract} {CC : CoreConstants}.

(** ** Types of tokens *)
Definition getAllRolesForTokenType (tokenType : bytes) : error + list bytes :=
  let dynamicRoles := [ESDTRoleNFTRecreate; ESDTRoleModifyCreator; ESDTRoleModifyRoyalties;
                       ESDTRoleSetNewURI; ESDTRoleNFTUpdate] in
  if bool_decide (tokenType ∈ [NonFungibleESDT; NonFungibleESDTv2; DynamicNFTESDT]) then
    inr ([ESDTRoleNFTCreate; ESDTRoleNFTBurn; ESDTRoleNFTUpdateAttributes; ESDTRoleNFTAddURI] ++
         (if esdtFlag EsdtDynamicESDTFlag then dynamicRoles else []))
  else if bool_decide (tokenType ∈ [SemiFungibleESDT; MetaESDT]) then
    inr [ESDTRoleNFTCreate; ESDTRoleNFTBurn; ESDTRoleNFTAddQuantity]
  else if bool_decide (tokenType = FungibleESDT) then inr [ESDTRoleLocalMint; ESDTRoleLocalBurn]
  else if bool_decide (tokenType ∈ [DynamicSFTESDT; DynamicMetaESDT]) then
    inr ([ESDTRoleNFTCreate; ESDTRoleNFTBurn; ESDTRoleNFTAddQuantity; ESDTRoleNFTUpdateAttributes;
          ESDTRoleNFTAddURI] ++ dynamicRoles)
  else inl ErrInvalidArgument.
(** whether the type has decimals, and the type *)
Definition getTokenType (compressed : bytes) : error + (bool * bytes) :=
  if bool_decide (compressed = toBytes "NFT") then
    inr (false, if esdtFlag EsdtDynamicESDTFlag then NonFungibleESDTv2 else NonFungibleESDT)
  else if bool_decide (compressed = toBytes "SFT") then inr (false, SemiFungibleESDT)
  else if bool_decide (compressed = toBytes "META") then inr (true, MetaESDT)
  else if bool_decide (compressed = toBytes "FNG") then inr (true, FungibleESDT)
  else inl ErrInvalidArgument.
Definition getDynamicTokenType (tokenType : bytes) : bytes :=
  if bool_decide (tokenType = NonFungibleESDTv2) || bool_decide (tokenType = NonFungibleESDT)
  then DynamicNFTESDT else Dynamic ++ tokenType.
Definition isNotAllowed (tokenType : bytes) : bool :=
  existsb (λ notAllowedType, bool_decide (tokenType = notAllowedType))
    [FungibleESDT; NonFungibleESDT; NonFungibleESDTv2].
Definition isNotAllowedToCreateDynamicToken (tokenType : bytes) : bool :=
  bool_decide (tokenType = FungibleESDT).

(** ** Tokens with all their roles *)
(** the roles of [address] for a new token, which is saved again *)
Definition setAllRoles (tokenIdentifier address : bytes) (token : ESDTDataV2) (tokenType : bytes) :
    M E ReturnCode unit :=
  let! allRoles := orReturn (fromSum (getAllRolesForTokenType tokenType)) "" UserError in
  let! ' (token, properties) := setRolesForTokenAndAddress token address allRoles in
  prepareAndSendRoleChangeData tokenIdentifier address allRoles properties ;;;
  saveOrReturn tokenIdentifier token.
Definition registerAndSetRoles (args : ContractCallInput) : handler E :=
  returnIf (negb (esdtFlag EsdtRegisterAndSetAllRolesFlag)) "invalid method to call" FunctionNotFound ;;;
  checkBasicCreateArguments args ;;;
  returnIf (negb (length (Arguments args) =? 4)) "arguments length mismatch" UserError ;;;
  let! ' (isWithDecimals, tokenType) := orReturn (fromSum (getTokenType (arg args 2))) "" UserError in
  let! numOfDecimals := if isWithDecimals then decimalsOf (arg args 3) else ret 0%Z in
  let! ' (tokenIdentifier, token) := orReturn (createNewToken (callerOf args) (arg args 0) (arg args 1)
    0 numOfDecimals [] tokenType) "" UserError in
  setAllRoles tokenIdentifier (callerOf args) token tokenType ;;;
  finish tokenIdentifier ;;;
  logCreated args tokenIdentifier tokenType numOfDecimals ;;;
  ret Ok.
Definition createDynamicToken (args : ContractCallInput) : M E ReturnCode (bytes * ESDTDataV2) :=
  returnIf (negb (esdtFlag EsdtDynamicESDTFlag)) "invalid method to call" FunctionNotFound ;;;
  checkBasicCreateArguments args ;;;
  returnIf (length (Arguments args) <? 3) "not enough arguments" UserError ;;;
  let! ' (isWithDecimals, tokenType) := orReturn (fromSum (getTokenType (arg args 2))) "" UserError in
  returnIf (isNotAllowedToCreateDynamicToken tokenType)
    ("cannot create " ++ ofBytes tokenType ++ " tokens as dynamic") UserError ;;;
  let propertiesStart := if isWithDecimals then 4 else 3 in
  let! numOfDecimals :=
    if isWithDecimals then
      returnIf (length (Arguments args) <? propertiesStart) "not enough arguments" UserError ;;;
      decimalsOf (arg args 3)
    else ret 0%Z in
  let dynamicTokenType := getDynamicTokenType tokenType in
  let! ' (tokenIdentifier, token) := orReturn (createNewToken (callerOf args) (arg args 0) (arg args 1)
    0 numOfDecimals (drop propertiesStart (Arguments args)) dynamicTokenType) "" UserError in
  finish tokenIdentifier ;;;
  logCreated args tokenIdentifier dynamicTokenType numOfDecimals ;;;
  ret (tokenIdentifier, token).
Definition registerDynamic (args : ContractCallInput) : handler E :=
  createDynamicToken args ;;;
  ret Ok.
Definition registerAndSetAllRolesDynamic (args : ContractCallInput) : handler E :=
  let! ' (tokenIdentifier, token) := createDynamicToken args in
  setAllRoles tokenIdentifier (callerOf args) token (TokenType token) ;;;
  ret Ok.

(** ** Changing the type *)
Definition updateTokenID (args : ContractCallInput) : handler E :=
  returnIf (negb (esdtFlag EsdtDynamicESDTFlag)) "invalid method to call" FunctionNotFound ;;;
  returnIf (negb (length (Arguments args) =? 1)) "invalid number of arguments, wanted 1"
    FunctionWrongSignature ;;;
  let! token := getTokenInfoAfterInputChecks args in
  let! token :=
    if bool_decide (TokenType token = NonFungibleESDT) then
      let token := withTokenType NonFungibleESDTv2 token in
      saveOrReturn (arg args 0) token ;;;
      ret token
    else ret token in
  sendTokenTypeToSystemAccounts (callerOf args) (arg args 0) token ;;;
  ret Ok.
(** [mapOfRoles[role]], a uint32 *)
Definition roleCount (token : ESDTDataV2) (role : bytes) : Z :=
  u32 (Z.of_nat (length (List.filter (λ r, bool_decide (r = role)) (concat (map Roles (SpecialRoles token)))))).
Definition checkRolesAreCompatibleToChangeToDynamic (token : ESDTDataV2) : error + unit :=
  match List.find (λ role, 1 <? roleCount token role)%Z rolesForDynamicWhichHasToBeSingular with
  | Some role => inl (ErrCannotChangeToDynamic ++ ", role " ++ ofBytes role ++ " was found multiple times")%string
  | None => inr tt
  end.
Definition changeToDynamic (args : ContractCallInput) : handler E :=
  returnIf (negb (esdtFlag EsdtDynamicESDTFlag)) "invalid method to call" FunctionNotFound ;;;
  let! token := basicOwnershipChecks args in
  returnIf (isNotAllowed (TokenType token))
    ("cannot change " ++ ofBytes (TokenType token) ++ " tokens to dynamic") UserError ;;;
  returnIf (isDynamicTokenType (TokenType token)) "tokenID is already dynamic" UserError ;;;
  orReturn (fromSum (checkRolesAreCompatibleToChangeToDynamic token)) "" UserError ;;;
  let token := withTokenType (Dynamic ++ TokenType token) token in
  saveOrReturn (arg args 0) token ;;;
  addLogEntry (toBytes (Function args)) (callerOf args)
    [arg args 0; TokenName token; TickerName token; TokenType token] ;;;
  sendTokenTypeToSystemAccounts (callerOf args) (arg args 0) token ;;;
  ret Ok.

(** ** Owners *)
Definition transferOwnership (args : ContractCallInput) : handler E :=
  returnIf (negb (length (Arguments args) =? 2)) "expected num of arguments 2" FunctionWrongSignature ;;;
  let! token := basicOwnershipChecks args in
  returnIf (negb (CanChangeOwner token)) "cannot change owner of the token" UserError ;;;
  returnIf (negb (isAddressValid (arg args 1))) "destination address is invalid" UserError ;;;
  let token := withTokenOwnerAddress (arg args 1) token in
  saveOrReturn (arg args 0) token ;;;
  addLogEntry (toBytes (Function args)) (callerOf args)
    [arg args 0; TokenName token; TickerName token; TokenType token; arg args 1] ;;;
  ret Ok.
Definition controlChanges (args : ContractCallInput) : handler E :=
  returnIf (length (Arguments args) <? 2) "not enough arguments" FunctionWrongSignature ;;;
  let! token := basicOwnershipChecks args in
  returnIf (negb (Upgradable token)) "token is not upgradable" UserError ;;;
  let! token := orReturn (upgradeProperties (arg args 0) token (drop 1 (Arguments args)) false
    (callerOf args)) "" UserError in
  saveOrReturn (arg args 0) token ;;;
  ret Ok.

(** ** The contract *)
Definition init (args : ContractCallInput) : handler E :=
  catch (saveESDTConfig initialConfig) (λ _, throw UserError) ;;;
  ret Ok.
Definition configChange (args : ContractCallInput) : handler E :=
  let! owner := orReturn getEsdtOwner "could not get stored owner, error: " UserError in
  returnIf (negb (bool_decide (callerOf args = owner) || bool_decide (callerOf args = endOfEpochSCAddress)))
    "configChange can be called by whitelisted address only" UserError ;;;
  returnIf (negb (valueOf args =? 0)%Z) "callValue must be 0" UserError ;;;
  useGas gasESDTOperations ;;;
  returnIf (negb (length (Arguments args) =? 4)) ErrInvalidNumOfArguments UserError ;;;
  let newConfig := mkESDTConfig (arg args 0) (Some (setBytes (arg args 1))) (argUint32 (arg args 2))
    (argUint32 (arg args 3)) in
  returnIf (negb (length (ConfigOwnerAddress newConfig) =? length (recipientOf args)))
    "invalid arguments, first argument must be a valid address" UserError ;;;
  returnIf (setBytes (arg args 1) <? 0)%Z "invalid new base issueing cost" UserError ;;;
  returnIf (MaxTokenNameLength newConfig <? MinTokenNameLength newConfig)%Z
    "invalid min and max token name lengths" UserError ;;;
  orReturn (saveESDTConfig newConfig) "" UserError ;;;
  ret Ok.
Definition balance {X} (address : bytes) : M E X Z := λ e,
  match GetBalance address e with
  | None => (Panic, e)
  | Some v => (Ret v, e)
  end.
Definition claim (args : ContractCallInput) : handler E :=
  let! owner := orReturn getEsdtOwner "could not get stored owner, error: " UserError in
  returnIf (negb (bool_decide (callerOf args = owner))) "claim can be called by whitelisted address only"
    UserError ;;;
  returnIf (negb (valueOf args =? 0)%Z) "callValue must be 0" UserError ;;;
  useGas gasESDTOperations ;;;
  returnIf (negb (length (Arguments args) =? 0)) ErrInvalidNumOfArguments UserError ;;;
  let! scBalance := balance (recipientOf args) in
  transfer (callerOf args) (recipientOf args) scBalance ;;;
  ret Ok.

(** ** Views *)
Definition checkArgumentsForGeneralViewFunc (args : ContractCallInput) : M E ReturnCode unit :=
  returnIf (negb (valueOf args =? 0)%Z) ErrCallValueMustBeZero UserError ;;;
  useGas gasESDTOperations ;;;
  returnIf (negb (length (Arguments args) =? 0)) ErrInvalidNumOfArguments UserError.
Definition getContractConfig (args : ContractCallInput) : handler E :=
  checkArgumentsForGeneralViewFunc args ;;;
  let! esdtConfig := orReturn getESDTConfig "" UserError in
  finish (ConfigOwnerAddress esdtConfig) ;;;
  let! issuingCost := deref (BaseIssuingCost esdtConfig) in
  finish (bigBytes issuingCost) ;;;
  finish (bigBytes (MinTokenNameLength esdtConfig)) ;;;
  finish (bigBytes (MaxTokenNameLength esdtConfig)) ;;;
  ret Ok.
(** the checks of a view of one token *)
Definition viewedToken (args : ContractCallInput) : M E ReturnCode ESDTDataV2 :=
  returnIf (negb (valueOf args =? 0)%Z) "callValue must be 0" UserError ;;;
  returnIf (negb (length (Arguments args) =? 1)) ErrInvalidNumOfArguments UserError ;;;
  useGas gasESDTOperations ;;;
  orReturn (getExistingToken (arg args 0)) "" UserError.
Definition getStringFromBool (val : bool) : string := if val then "true" else "false".
(** [big.Int.String] *)
Definition bigString (v : option Z) : string :=
  match v with Some z => decimalString z | None => "<nil>" end.
Definition getTokenProperties (args : ContractCallInput) : handler E :=
  let! t := viewedToken args in
  let flag (name : string) (val : bool) := toBytes (name ++ getStringFromBool val) in
  forEach
    [TokenName t; TokenType t; OwnerAddress t; toBytes (bigString (MintedValue t));
     toBytes (bigString (BurntValue t)); toBytes ("NumDecimals-" ++ decimalString (NumDecimals t));
     flag "IsPaused-" (IsPaused t); flag "CanUpgrade-" (Upgradable t); flag "CanMint-" (Mintable t);
     flag "CanBurn-" (Burnable t); flag "CanChangeOwner-" (CanChangeOwner t);
     flag "CanPause-" (CanPause t); flag "CanFreeze-" (CanFreeze t); flag "CanWipe-" (CanWipe t);
     flag "CanAddSpecialRoles-" (CanAddSpecialRoles t);
     flag "CanTransferNFTCreateRole-" (CanTransferNFTCreateRole t);
     flag "NFTCreateStopped-" (NFTCreateStopped t);
     toBytes ("NumWiped-" ++ decimalString (NumWiped t))] finish ;;;
  ret Ok.
(** [strings.Join(roles, ",")] *)
Fixpoint joinRoles (roles : list bytes) : string :=
  match roles with
  | [] => ""
  | [r] => ofBytes r
  | r :: t => (ofBytes r ++ "," ++ joinRoles t)%string
  end.
(** an error of the encoding is only logged *)
Definition getSpecialRoles (args : ContractCallInput) : handler E :=
  let! t := viewedToken args in
  forEach (SpecialRoles t) (λ specialRole,
    finish (toBytes (fst (EncodeAddress (RoleAddress specialRole)) ++ ":" ++ joinRoles (Roles specialRole)))) ;;;
  ret Ok.
Definition getAllAddressesAndRoles (args : ContractCallInput) : handler E :=
  returnIf (negb (length (Arguments args) =? 1)) "needs 1 argument" UserError ;;;
  returnIf (negb (valueOf args =? 0)%Z) "callValue must be 0" UserError ;;;
  let! token := orReturn (getExistingToken (arg args 0)) "" UserError in
  forEach (SpecialRoles token) (λ esdtRole,
    finish (RoleAddress esdtRole) ;;;
    forEach (Roles esdtRole) finish) ;;;
  ret Ok.

(** ** The dispatcher *)
Definition dispatch (function : string) : option (ContractCallInput → handler E) :=
  let table : list (string * (ContractCallInput → handler E)) :=
    [ ("issue", issue);
      ("issueSemiFungible", registerSemiFungible);
      ("issueNonFungible", registerNonFungible);
      ("registerMetaESDT", registerMetaESDT);
      ("changeSFTToMetaESDT", changeSFTToMetaESDT);
      ("registerAndSetAllRoles", registerAndSetRoles);
      (BuiltInFunctionESDTBurn, burn);
      ("mint", mint);
      ("freeze", toggleFreeze BuiltInFunctionESDTFreeze);
      ("unFreeze", toggleFreeze BuiltInFunctionESDTUnFreeze);
      ("wipe", wipe);
      ("pause", togglePause BuiltInFunctionESDTPause);
      ("unPause", togglePause BuiltInFunctionESDTUnPause);
      ("freezeSingleNFT", toggleFreezeSingleNFT BuiltInFunctionESDTFreeze);
      ("unFreezeSingleNFT", toggleFreezeSingleNFT BuiltInFunctionESDTUnFreeze);
      ("wipeSingleNFT", wipeSingleNFT);
      ("claim", claim);
      ("configChange", configChange);
      ("controlChanges", controlChanges);
      ("transferOwnership", transferOwnership);
      ("getTokenProperties", getTokenProperties);
      ("getSpecialRoles", getSpecialRoles);
      ("setSpecialRole", setSpecialRole);
      ("unSetSpecialRole", unSetSpecialRole);
      ("transferNFTCreateRole", transferNFTCreateRole);
      ("stopNFTCreate", stopNFTCreateForever);
      ("getAllAddressesAndRoles", getAllAddressesAndRoles);
      ("getContractConfig", getContractConfig);
      ("changeToMultiShardCreate", changeToMultiShardCreate);
      ("setBurnRoleGlobally", setBurnRoleGlobally);
      ("unsetBurnRoleGlobally", unsetBurnRoleGlobally);
      ("sendAllTransferRoleAddresses", sendAllTransferRoleAddresses);
      ("updateTokenID", updateTokenID);
      ("registerDynamic", registerDynamic);
      ("registerAndSetAllRolesDynamic", registerAndSetAllRolesDynamic);
      ("changeToDynamic", changeToDynamic) ] in
  snd <$> List.find (λ entry, bool_decide (fst entry = function)) table.

Definition Execute (input : option ContractCallInput) : handler E :=
  match CheckIfNil input with
  | inl _ => ret UserError
  | inr args =>
    if bool_decide (Function args = SCDeployInitFunctionName) then init args
    else
      returnIf (negb (esdtFlag EsdtFlagESDT)) "ESDT SC disabled" UserError ;;;
      match dispatch (Function args) with
      | Some run => run args
      | None => addReturnMessage "invalid method to call" ;;; ret FunctionNotFound
      end
  end.
End contract.
