(* ===== verification/EsdtSpec.v ===== *)
(** * EsdtSpec: well-formed tokens, and what one call may do to them

    Who holds a role of a token, well-formed roles and tokens, the storage of the
    contract, the change of a token that a call can make ([tokenStep]), and how
    the functions that all handlers share load and save tokens. *)
From S2P Require Import Prelude SystemEI StakingData Sums DelegationData Contract EsdtData.
From S2P Require Import EsdtTokens EsdtRoles EsdtSC.
#[local] Open Scope go_scope.

(** The constants are different, and only the names of dynamic types begin with
    the dynamic prefix. *)
Class CoreLaws `{CoreConstants} : Prop := {
  roles_differ : NoDup [ESDTRoleNFTCreate; ESDTRoleNFTUpdateAttributes; ESDTRoleNFTAddURI; ESDTRoleSetNewURI;
    ESDTRoleModifyCreator; ESDTRoleModifyRoyalties; ESDTRoleNFTRecreate; ESDTRoleNFTUpdate;
    ESDTRoleBurnForAll; ESDTRoleLocalMint; ESDTRoleLocalBurn; ESDTRoleNFTAddQuantity; ESDTRoleNFTBurn];
  not_dynamic t : t ∈ [FungibleESDT; NonFungibleESDT; NonFungibleESDTv2; SemiFungibleESDT; MetaESDT] →
    isDynamicTokenType t = false;
}.

Section roles.
Context {EC : EsdtContract} {CC : CoreConstants} {CL : CoreLaws}.

(** ** Who holds a role *)
Definition holders (role : bytes) (rs : list ESDTRoles) : list bytes :=
  map RoleAddress (List.filter (λ r, isDefinedRoleInArgs (Roles r) role) rs).
Abbreviation creators := (holders ESDTRoleNFTCreate).

Lemma isDefinedRoleInArgs_spec args role : isDefinedRoleInArgs args role = bool_decide (role ∈ args).
Proof.
  induction args as [|a args IH]; [done|]. simpl. rewrite IH.
  apply eq_true_iff_eq. rewrite orb_true_iff !bool_decide_eq_true elem_of_cons. naive_solver.
Qed.
Lemma holders_app role rs rs' : holders role (rs ++ rs') = holders role rs ++ holders role rs'.
Proof. unfold holders. by rewrite List.filter_app map_app. Qed.
Lemma holders_cons role r rs :
  holders role (r :: rs) = if decide (role ∈ Roles r) then RoleAddress r :: holders role rs else holders role rs.
Proof.
  unfold holders. simpl. rewrite isDefinedRoleInArgs_spec. by case_decide; case_bool_decide.
Qed.
Lemma checkIfDefinedRoleExistsInToken_spec t role :
  checkIfDefinedRoleExistsInToken t role = negb (bool_decide (holders role (SpecialRoles t) = [])).
Proof.
  unfold checkIfDefinedRoleExistsInToken. induction (SpecialRoles t) as [|r rs IH]; [done|].
  simpl. rewrite holders_cons IH isDefinedRoleInArgs_spec. case_decide; [by rewrite bool_decide_true|].
  by rewrite bool_decide_false.
Qed.
Lemma holders_length role rs : length (holders role rs) ≤ length rs.
Proof. unfold holders. rewrite length_map. apply List.filter_length_le. Qed.
Lemma holders_nil role rs : holders role rs = [] ↔ ∀ r, r ∈ rs → role ∉ Roles r.
Proof.
  induction rs as [|r rs IH]; [set_solver|]. rewrite holders_cons. case_decide as Hr.
  - split; [done|]. intros Hn. exfalso. eapply Hn; [by left|done].
  - rewrite IH. split; [|set_solver]. intros Hn r' [->|Hin]%elem_of_cons; [done|by apply Hn].
Qed.

(** ** Well-formed roles *)
(** every role is held once; the entry of all accounts only has the role to burn *)
Definition goodEntry (r : ESDTRoles) : Prop :=
  NoDup (Roles r) ∧ (isAddress (RoleAddress r) ∨ RoleAddress r = [] ∧ Roles r = [ESDTRoleBurnForAll]).
Record rolesOk (multi stopped dynamic : bool) (rs : list ESDTRoles) : Prop := {
  ro_addresses : NoDup (map RoleAddress rs);
  ro_entries : Forall goodEntry rs;
  ro_single : multi = false → length (creators rs) ≤ 1;
  ro_multi : multi = true → NoDup (map last (creators rs));
  ro_stopped : stopped = true → creators rs = [];
  ro_dynamic : dynamic = true →
    ∀ role, role ∈ rolesForDynamicWhichHasToBeSingular → length (holders role rs) ≤ 1;
}.
Lemma burn_not_singular : ESDTRoleBurnForAll ∉ rolesForDynamicWhichHasToBeSingular.
Proof.
  pose proof roles_differ as Hd. unfold rolesForDynamicWhichHasToBeSingular.
  repeat apply NoDup_cons in Hd as [? Hd]. set_solver.
Qed.
Lemma burn_not_create : ESDTRoleBurnForAll ≠ ESDTRoleNFTCreate.
Proof. intros Heq. apply burn_not_singular. rewrite Heq. by left. Qed.

(** fewer holders *)
Lemma rolesOk_fewer multi stopped dynamic rs rs' :
  rolesOk multi stopped dynamic rs →
  NoDup (map RoleAddress rs') → Forall goodEntry rs' →
  (∀ role, holders role rs' `sublist_of` holders role rs) → rolesOk multi stopped dynamic rs'.
Proof.
  intros [_ _ H1 H2 H3 H4] Ha He Hs. split; [done|done|..].
  - intros Hm. etrans; [|by apply H1]. by apply sublist_length.
  - intros Hm. eapply sublist_NoDup; [by apply H2|]. by apply (fmap_sublist last).
  - intros Hst. specialize (Hs ESDTRoleNFTCreate). rewrite H3 // in Hs. by apply sublist_nil_r.
  - intros Hd role Hr. etrans; [|by apply H4]. by apply sublist_length.
Qed.
(** more holders: of each new role that must be held once, [address] is the only one *)
Lemma rolesOk_more multi stopped dynamic rs rs' (roles : list bytes) address :
  rolesOk multi stopped dynamic rs →
  NoDup (map RoleAddress rs') → Forall goodEntry rs' →
  (∀ role, role ∉ roles → holders role rs' = holders role rs) →
  (∀ role, role ∈ roles → holders role rs = [] → holders role rs' = [address]) →
  (ESDTRoleNFTCreate ∈ roles → stopped = false ∧ (multi = false → creators rs = []) ∧
     (multi = true → NoDup (map last (creators rs')))) →
  (dynamic = true → ∀ role, role ∈ rolesForDynamicWhichHasToBeSingular → role ∈ roles → holders role rs = []) →
  rolesOk multi stopped dynamic rs'.
Proof.
  intros [_ _ H1 H2 H3 H4] Ha He Hsame Hnew Hc Hdyn.
  split; [done|done|..]; (destruct (decide (ESDTRoleNFTCreate ∈ roles)) as [Hin|Hnin];
    [destruct (Hc Hin) as (Hst & Hs & Hm)|]).
  - intros Hmu. rewrite (Hnew _ Hin); [done|by apply Hs].
  - rewrite Hsame //.
  - done.
  - rewrite Hsame //.
  - by rewrite Hst.
  - rewrite Hsame //.
  - intros Hd role Hr. destruct (decide (role ∈ roles)); [|rewrite Hsame //; auto].
    rewrite Hnew; [done|done|auto].
  - intros Hd role Hr. destruct (decide (role ∈ roles)); [|rewrite Hsame //; auto].
    rewrite Hnew; [done|done|auto].
Qed.

(** ** The entry of an address *)
Lemma addressIndex_Some rs a i : addressIndex rs a = Some i →
  ∃ pre r post, rs = pre ++ r :: post ∧ length pre = i ∧ RoleAddress r = a.
Proof.
  revert i. induction rs as [|r rs IH]; intros i; [done|]. simpl. case_bool_decide as Ha.
  - intros [= <-]. by exists [], r, rs.
  - destruct (addressIndex rs a) as [j|]; [|done]. intros [= <-].
    destruct (IH j eq_refl) as (pre & r' & post & -> & <- & Hr). by exists (r :: pre), r', post.
Qed.
Lemma addressIndex_None rs a : addressIndex rs a = None → a ∉ map RoleAddress rs.
Proof.
  induction rs as [|r rs IH]; [set_solver|]. simpl. case_bool_decide; [done|].
  destruct (addressIndex rs a); [done|]. intros _ [?|?]%elem_of_cons; [done|by apply IH].
Qed.
Lemma getRolesForAddress_Some t a i r : getRolesForAddress t a = Some (i, r) →
  ∃ pre post, SpecialRoles t = pre ++ r :: post ∧ length pre = i ∧ RoleAddress r = a.
Proof.
  unfold getRolesForAddress. destruct (addressIndex _ a) as [j|] eqn:Hj; [|done].
  apply addressIndex_Some in Hj as (pre & r' & post & -> & <- & Hr). simpl.
  rewrite list_lookup_middle //. intros [= <- <-]. by exists pre, post.
Qed.
Lemma getRolesForAddress_None t a : getRolesForAddress t a = None → a ∉ map RoleAddress (SpecialRoles t).
Proof.
  unfold getRolesForAddress. destruct (addressIndex _ a) as [j|] eqn:Hj; [|by intros _; apply addressIndex_None].
  apply addressIndex_Some in Hj as (pre & r' & post & -> & <- & Hr). simpl. by rewrite list_lookup_middle.
Qed.
Lemma roleIndex_Some roles role i : roleIndex roles role = Some i → roles !! i = Some role.
Proof.
  revert i. induction roles as [|r roles IH]; intros i; [done|]. simpl. case_bool_decide as Hr.
  - intros [= <-]. by subst.
  - destruct (roleIndex roles role); [|done]. intros [= <-]. by apply IH.
Qed.
Lemma roleIndex_None roles role : roleIndex roles role = None ↔ role ∉ roles.
Proof.
  induction roles as [|r roles IH]; [set_solver|]. simpl. case_bool_decide as Hr; [set_solver|].
  destruct (roleIndex roles role); simpl; rewrite elem_of_cons; naive_solver.
Qed.
(** a role that is held once is gone when it is deleted *)
Lemma delete_role roles role i :
  NoDup roles → roleIndex roles role = Some i →
  NoDup (delete i roles) ∧ ∀ role', role' ∈ delete i roles ↔ role' ∈ roles ∧ role' ≠ role.
Proof.
  intros Hnd Hi%roleIndex_Some. pose proof (delete_Permutation _ _ _ Hi) as Hp.
  rewrite Hp in Hnd. apply NoDup_cons in Hnd as [Hn Hnd]. split; [done|]. intros role'.
  rewrite {2}Hp elem_of_cons. split; [|naive_solver]. intros Hr. split; [by right|]. by intros ->.
Qed.

(** an entry is replaced by one of the same address *)
Lemma holders_update pre r r' post role :
  RoleAddress r' = RoleAddress r → (role ∈ Roles r' ↔ role ∈ Roles r) →
  holders role (pre ++ r' :: post) = holders role (pre ++ r :: post).
Proof.
  intros Ha Hr. rewrite !holders_app !holders_cons Ha. destruct (decide (role ∈ Roles r)), (decide (role ∈ Roles r')); tauto.
Qed.
Lemma holders_update_fewer pre r r' post role :
  RoleAddress r' = RoleAddress r → (role ∈ Roles r' → role ∈ Roles r) →
  holders role (pre ++ r' :: post) `sublist_of` holders role (pre ++ r :: post).
Proof.
  intros Ha Hr. rewrite !holders_app !holders_cons Ha. apply sublist_app; [done|].
  destruct (decide (role ∈ Roles r)), (decide (role ∈ Roles r')); [done|by apply sublist_cons|tauto|done].
Qed.
Lemma holders_new pre r r' post role :
  RoleAddress r' = RoleAddress r → holders role (pre ++ r :: post) = [] → role ∈ Roles r' →
  holders role (pre ++ r' :: post) = [RoleAddress r].
Proof.
  intros Ha Hn Hr. rewrite holders_app holders_cons in Hn. rewrite holders_app holders_cons Ha.
  apply app_nil in Hn as [Hpre Hpost]. rewrite Hpre decide_True //. case_decide; [done|]. by rewrite Hpost.
Qed.
Lemma addresses_update pre r r' post :
  RoleAddress r' = RoleAddress r → map RoleAddress (pre ++ r' :: post) = map RoleAddress (pre ++ r :: post).
Proof. intros Ha. by rewrite !map_app /= Ha. Qed.

Lemma duplicatedArg_spec seen l : duplicatedArg seen l = false → NoDup l ∧ ∀ x, x ∈ l → x ∉ seen.
Proof.
  revert seen. induction l as [|a l IH]; intros seen; [intros _; split; [constructor|set_solver]|].
  simpl. case_bool_decide as Ha; [done|]. intros [Hnd Hs]%IH. split; [constructor; [|done]|]; set_solver.
Qed.
Lemma multiShardLoop_spec {E X} seen rs (e : E) :
  (∀ a, a ∈ creators rs → a ≠ []) →
  ∃ r, multiShardLoop (X:=X) seen rs e = (Ret r, e) ∧
    (r = inr tt → NoDup (map last (creators rs)) ∧ ∀ c, Some c ∈ map last (creators rs) → c ∉ seen).
Proof.
  revert seen. induction rs as [|r rs IH]; intros seen Hne; simpl.
  - eexists. split; [done|]. intros _. split; [constructor|set_solver].
  - rewrite holders_cons in Hne |- *. rewrite isDefinedRoleInArgs_spec.
    case_bool_decide as Hr; simpl; [|rewrite decide_False // in Hne |- *; by apply IH].
    rewrite decide_True // in Hne. rewrite decide_True //.
    destruct (last (RoleAddress r)) as [c|] eqn:Hl.
    + case_bool_decide as Hc; [by eexists|].
      destruct (IH (c :: seen)) as (res & Hres & Hok); [set_solver|]. exists res. split; [done|].
      intros (Hnd & Hs)%Hok. simpl. rewrite Hl. split.
      * constructor; [|done]. intros Hin. apply (Hs c Hin). by left.
      * intros c' [[= ->]|Hin]%elem_of_cons; [done|]. specialize (Hs c' Hin). set_solver.
    + exfalso. apply last_None in Hl. by apply (Hne (RoleAddress r)); [left|].
Qed.
End roles.

(** ** Assumptions *)
(** Messages to other shards touch nothing that the contract reads, and paying for
    gas changes no balance. *)
Class TokenHostLaws (E : Type) `{SystemEI E, ContractHost E, TokenEI E, EsdtContract} : Prop := {
  send_token d input (e : E) : ∃ e', Transfer d esdtSCAddress 0 input 0 e = Some e' ∧ same e e';
  send_all input (e : E) : same e (SendGlobalSettingToAll input e);
  balance_gas g a (e e' : E) : UseGas g e = Some e' → GetBalance a e' = GetBalance a e;
}.
Definition tokenRange (t : ESDTDataV2) : Prop := (0 ≤ NumDecimals t < 2 ^ 32)%Z ∧ (0 ≤ NumWiped t < 2 ^ 32)%Z.
Definition configRange (c : ESDTConfig) : Prop :=
  (0 ≤ MinTokenNameLength c < 2 ^ 32)%Z ∧ (0 ≤ MaxTokenNameLength c < 2 ^ 32)%Z.
Definition zeroESDTConfig : ESDTConfig := mkESDTConfig [] None 0 0.
(** The marshaller, addresses of 32 bytes, hashes of 3 bytes at least, and a chain
    on which the creation of NFTs on several shards and its end are enabled. *)
Class EsdtLaws `{EsdtContract} : Prop := {
  token_laws :: MarshallerLaws ESDTDataV2 tokenRange zeroToken;
  esdtConfig_laws :: MarshallerLaws ESDTConfig configRange zeroESDTConfig;
  address_length : addressLength = 32;
  hash_length b : tickerRandomSequenceLength ≤ length (Compute b);
  multi_shard : esdtFlag EsdtNFTCreateOnMultiShardFlag = true;
  stop_create : esdtFlag EsdtNFTStopCreateFlag = true;
  (** the fourth field is a number in a configuration and bytes in a token *)
  config_no_token c b : holds (Some c) b → MaxTokenNameLength c ≠ 0%Z →
    ∃ x, Unmarshal zeroToken b = inl x;
}.

(** ** Tokens *)
Section tokens.
Context {EC : EsdtContract} {CC : CoreConstants} {CL : CoreLaws}.

Record wfToken (bound : Z) (t : ESDTDataV2) : Prop := {
  wt_owner : isAddress (OwnerAddress t);
  wt_minted : ∃ v, MintedValue t = Some v ∧ (0 ≤ v)%Z;
  wt_burnt : ∃ v, BurntValue t = Some v ∧ (0 ≤ v)%Z;
  wt_decimals : (0 ≤ NumDecimals t ≤ 18)%Z;
  wt_wiped : (0 ≤ NumWiped t < 2 ^ 32)%Z;
  wt_length : (Z.of_nat (length (SpecialRoles t)) ≤ bound)%Z;
  wt_roles : rolesOk (CanCreateMultiShard t) (NFTCreateStopped t) (isDynamicTokenType (TokenType t))
               (SpecialRoles t);
}.
Lemma wfToken_mono b b' t : wfToken b t → (b ≤ b')%Z → wfToken b' t.
Proof. intros [] Hb. split; try done. lia. Qed.
Lemma wfToken_range b t : wfToken b t → tokenRange t.
Proof. intros []. split; [lia|done]. Qed.
Lemma wfToken_nonzero b t : wfToken b t → t ≠ zeroToken.
Proof. by intros [Ho _ _ _ _ _ _] ->. Qed.

(** what an issuer promises: the properties that a call can change only while the
    token is upgradable *)
Definition properties (t : ESDTDataV2) : list bool :=
  [Mintable t; Burnable t; CanPause t; CanFreeze t; CanWipe t; Upgradable t; CanChangeOwner t;
   CanAddSpecialRoles t; CanTransferNFTCreateRole t].
(** the call [args] turns the token [t] into [t'] *)
Record ownerStep (args : ContractCallInput) (t t' : ESDTDataV2) : Prop := {
  os_caller : OwnerAddress t = callerOf args;
  os_names : TokenName t' = TokenName t ∧ TickerName t' = TickerName t;
  os_burnt : BurntValue t' = BurntValue t;
  os_minted : MintedValue t' = MintedValue t ∨
    Function args = "mint" ∧ Mintable t = true ∧ (0 < setBytes (arg args 1))%Z ∧
    ∃ v, MintedValue t = Some v ∧ MintedValue t' = Some (v + setBytes (arg args 1))%Z;
  os_stopped : NFTCreateStopped t = true → NFTCreateStopped t' = true;
  os_properties : Upgradable t = false → properties t' = properties t;
  os_multi : CanCreateMultiShard t = true → CanCreateMultiShard t' = true;
}.
Inductive tokenStep (args : ContractCallInput) (t t' : ESDTDataV2) : Prop :=
  | tokenStep_owner : ownerStep args t t' → tokenStep args t t'
  | tokenStep_burn v :
      Function args = BuiltInFunctionESDTBurn → Burnable t = true → (0 < setBytes (arg args 1))%Z →
      BurntValue t = Some v → t' = withBurntValue (Some (v + setBytes (arg args 1))%Z) t →
      tokenStep args t t'
  | tokenStep_update :
      Function args = "updateTokenID" → TokenType t = NonFungibleESDT →
      t' = withTokenType NonFungibleESDTv2 t → tokenStep args t t'.
End tokens.

(** ** The storage *)
Section storage.
Context {E : Type} {EI : SystemEI E} {EIL : SystemEILaws E}.
Context {CH : ContractHost E} {CHL : ContractHostLaws E} {TE : TokenEI E}.
Context {EC : EsdtContract} {CC : CoreConstants} {CL : CoreLaws} {EL : EsdtLaws} {TL : TokenHostLaws E}.

Implicit Types (e : E) (t : ESDTDataV2).

Definition cell (id : bytes) e : bytes := orEmpty (GetStorage id e).
Definition stored (id : bytes) t e : Prop := holds (Some t) (cell id e).
(** a token that was loaded; the configuration is none *)
Definition loaded (id : bytes) t e : Prop := id ≠ configKeyPrefix ∧ stored id t e.
Definition goodConfig (b : bytes) : Prop :=
  b = [] ∨ ∃ c v, holds (Some c) b ∧ BaseIssuingCost c = Some v ∧ MaxTokenNameLength c ≠ 0%Z.
Record Tokens (bound : Z) e : Prop := {
  tk_tokens id : id ≠ configKeyPrefix → cell id e = [] ∨ ∃ t, stored id t e ∧ wfToken bound t;
  tk_config : goodConfig (cell configKeyPrefix e);
}.

(** what the call [args] may do to the storage [e0] *)
Record changed (bound : Z) (args : ContractCallInput) e0 e : Prop := {
  ch_tokens id : id ≠ configKeyPrefix →
    cell id e = cell id e0 ∨
    (∃ t t', stored id t e0 ∧ stored id t' e ∧ wfToken bound t' ∧ tokenStep args t t') ∨
    (cell id e0 = [] ∧ ∃ t', stored id t' e ∧ wfToken bound t' ∧ OwnerAddress t' = callerOf args);
  ch_config : goodConfig (cell configKeyPrefix e);
  ch_self : selfAddress e = selfAddress e0;
}.
Lemma changed_Tokens b b' args e0 e : Tokens b e0 → (b ≤ b')%Z → changed b' args e0 e → Tokens b' e.
Proof.
  intros [Ht Hc] Hb [Hct Hcc _]. split; [|done]. intros id Hid.
  destruct (Hct id Hid) as [Hs|[(t & t' & _ & Hs & Hwf & _)|(_ & t' & Hs & Hwf & _)]]; [|right; by exists t'..].
  unfold stored. rewrite Hs. destruct (Ht id Hid) as [Hn|(t & Hst & Hwf)]; [by left|right].
  exists t. split; [done|by eapply wfToken_mono].
Qed.

(** *** The state inside a call *)
(** all cells but that of [id] are those of [e0] *)
Record outside (id : bytes) e0 e : Prop := {
  ou_cells k : k ≠ id → cell k e = cell k e0;
  ou_self : selfAddress e = selfAddress e0;
}.
Definition saved (id : bytes) t e0 e : Prop := outside id e0 e ∧ stored id t e.
Lemma keptOwn_outside id e0 e : keptOwn e0 e → outside id e0 e.
Proof. intros [Hk Hs]. split; [|done]. intros k _. unfold cell. by rewrite Hk. Qed.
(** predicates on the state that only depend on the contract's own storage *)
Class Stable (K : E → Prop) : Prop := stable e e' : K e → keptOwn e e' → K e'.
#[export] Instance keptOwn_stable e0 : Stable (keptOwn e0).
Proof. intros e e' [H1 H2] [H3 H4]. split; [intros k; by rewrite H3|congruence]. Qed.
#[export] Instance saved_stable id t e0 : Stable (saved id t e0).
Proof.
  intros e e' [[H1 H2] Hs] [H3 H4]. unfold saved, stored, cell in *. rewrite H3. split; [|done].
  split; [|congruence]. intros k Hk. unfold cell. rewrite H3. by apply H1.
Qed.
(** the current state; a wrapper that automation can find *)
Record Now (K : E → Prop) e : Prop := { now : K e }.
Lemma Now_same (K : E → Prop) `{!Stable K} e e' : Now K e → same e e' → Now K e'.
Proof. intros [HK] Hs. split. eapply stable; [done|by apply same_keptOwn]. Qed.
Lemma Now_start e : Now (keptOwn e) e.
Proof. by split. Qed.

Section steps.
Context {X : Type} (free : X → E → Prop) (K : E → Prop) (e : E) (HK : Now K e) (HS : Stable K).
Lemma erun_message m (Q : unit → E → Prop) : (∀ e', Now K e' → Q tt e') → run free (addReturnMessage m) Q e.
Proof. intros HQ. apply HQ. eapply Now_same; [done..|apply same_msg]. Qed.
Lemma erun_finish v (Q : unit → E → Prop) : (∀ e', Now K e' → Q tt e') → run free (finish v) Q e.
Proof. intros HQ. apply HQ. eapply Now_same; [done..|apply same_finish]. Qed.
Lemma erun_log i a l (Q : unit → E → Prop) : (∀ e', Now K e' → Q tt e') → run free (addLogEntry i a l) Q e.
Proof. intros HQ. apply HQ. eapply Now_same; [done..|apply same_log]. Qed.
Lemma erun_all input (Q : unit → E → Prop) : (∀ e', Now K e' → Q tt e') → run free (sendToAll input) Q e.
Proof. intros HQ. apply HQ. eapply Now_same; [done..|apply send_all]. Qed.
Lemma erun_send d input (Q : unit → E → Prop) :
  (∀ e', Now K e' → Q tt e') → run free (sendToken d input) Q e.
Proof.
  intros HQ. unfold sendToken, run, wp. destruct (send_token d input e) as (e' & -> & Hs).
  apply HQ. by eapply Now_same.
Qed.
Lemma erun_useGas R g (Q : unit → E → Prop) : (∀ e', Now K e' → Q tt e') → run (exits R) (useGas g) Q e.
Proof.
  intros HQ. unfold useGas, run, wp. destruct (UseGas g e) as [e'|] eqn:Hg; [|done].
  apply same_gas in Hg. apply HQ. by eapply Now_same.
Qed.
End steps.
End storage.

(** one instruction of a handler, for the instructions that need no choice *)
Ltac estep :=
  lazymatch goal with
  | |- handled _ _ _ => unfold handled
  | |- exits _ Ok _ => intros _
  | |- exits _ _ _ => done
  | |- run _ (bind _ _) _ _ => apply run_bind
  | |- run _ (ret _) _ _ => apply run_ret
  | |- run _ (match (_, _) with _ => _ end) _ _ => cbv beta iota
  | |- run _ (throw _) _ _ => apply run_throw; done
  | |- run _ (returnIf _ _ _) _ _ => apply run_returnIf; [done|intros ?]
  | |- run _ (orReturn _ _ _) _ _ => apply run_orReturn; [done|]
  | |- run _ (useGas _) _ _ => eapply erun_useGas; [eassumption|exact _|intros ? ?]
  | |- run _ (finish _) _ _ => eapply erun_finish; [eassumption|exact _|intros ? ?]
  | |- run _ (addReturnMessage _) _ _ => eapply erun_message; [eassumption|exact _|intros ? ?]
  | |- run _ (addLogEntry _ _ _) _ _ => eapply erun_log; [eassumption|exact _|intros ? ?]
  | |- run _ (logCreated _ _ _ _) _ _ => unfold logCreated
  | |- run _ (sendToAll _) _ _ => eapply erun_all; [eassumption|exact _|intros ? ?]
  | |- run _ (sendToken _ _) _ _ => eapply erun_send; [eassumption|exact _|intros ? ?]
  | |- run _ (sendRoleChangeData _ _ _ _) _ _ => unfold sendRoleChangeData
  | |- run _ (deref _) _ _ => eapply run_deref; [first [reflexivity|eassumption]|]
  | |- run _ (gets _) _ _ => apply run_gets
  end.

Section loading.
Context {E : Type} {EI : SystemEI E} {EIL : SystemEILaws E}.
Context {CH : ContractHost E} {CHL : ContractHostLaws E} {TE : TokenEI E}.
Context {EC : EsdtContract} {CC : CoreConstants} {CL : CoreLaws} {EL : EsdtLaws} {TL : TokenHostLaws E}.

Implicit Types (e : E) (t : ESDTDataV2).
Context (bound : Z) (e0 : E) (HT : Tokens bound e0).

Lemma keptOwn_cell id e : keptOwn e0 e → cell id e = cell id e0.
Proof. intros [Hk _]. unfold cell. by rewrite Hk. Qed.
Lemma run_getExistingToken id e Q :
  Now (keptOwn e0) e → (∀ t, loaded id t e0 → wfToken bound t → Q t e) →
  run anyError (getExistingToken id) Q e.
Proof.
  intros [HK] HQ. unfold getExistingToken. apply run_bind, run_readStorage.
  fold (cell id e). rewrite (keptOwn_cell id e HK).
  destruct (decide (id = configKeyPrefix)) as [->|Hid].
  { destruct (tk_config _ _ HT) as [->|(c & v & Hc & _ & Hm)]; [done|]. destruct (config_no_token c _ Hc Hm) as [x Hx].
    destruct (cell configKeyPrefix e0); [done|]. by rewrite Hx. }
  destruct (tk_tokens _ _ HT id Hid) as [Hn|(t & Hst & Hwf)]; [by rewrite Hn|].
  pose proof Hst as [Hne Hu]. destruct (cell id e0); [done|]. rewrite Hu. by apply HQ.
Qed.
Lemma run_tokenInfo R args e Q :
  Now (keptOwn e0) e →
  (∀ t e', Now (keptOwn e0) e' → loaded (arg args 0) t e0 → wfToken bound t → Q t e') →
  run (exits R) (getTokenInfoAfterInputChecks args) Q e.
Proof.
  intros HK HQ. unfold getTokenInfoAfterInputChecks. repeat estep.
  eapply run_getExistingToken; [done..|]. intros t Hst Hwf. by eapply HQ.
Qed.
Lemma run_ownership R args e Q :
  Now (keptOwn e0) e →
  (∀ t e', Now (keptOwn e0) e' → loaded (arg args 0) t e0 → wfToken bound t →
     OwnerAddress t = callerOf args → Q t e') →
  run (exits R) (basicOwnershipChecks args) Q e.
Proof.
  intros HK HQ. unfold basicOwnershipChecks. estep. eapply run_tokenInfo; [done..|].
  intros t e' HK' Hst Hwf. repeat estep. apply negb_false_iff, bool_decide_eq_true in H. by apply HQ.
Qed.
Lemma run_saveToken id t b e (Q : unit → E → Prop) :
  outside id e0 e → wfToken b t → (∀ e', Now (saved id t e0) e' → Q tt e') →
  run anyError (saveToken id t) Q e.
Proof.
  intros [Hc Hs] Hwf HQ. unfold saveToken. rewrite multi_shard.
  eapply (run_save (T:=ESDTDataV2)); [by eapply wfToken_range|by eapply wfToken_nonzero|].
  intros d Hd. apply HQ. split. split; [split|].
  - intros k Hk. rewrite -(Hc k Hk). unfold cell. by rewrite get_set_ne.
  - by rewrite set_self.
  - unfold stored, cell. by rewrite get_set_eq.
Qed.
Lemma run_saveOrReturn R id t b e (Q : unit → E → Prop) :
  outside id e0 e → wfToken b t → (∀ e', Now (saved id t e0) e' → Q tt e') →
  run (exits R) (saveOrReturn id t) Q e.
Proof. intros Hc Hwf HQ. unfold saveOrReturn. estep. by eapply run_saveToken. Qed.
Lemma run_esdtConfig fr e Q :
  Now (keptOwn e0) e → (∀ c v, BaseIssuingCost c = Some v → Q c e) → run fr getESDTConfig Q e.
Proof.
  intros [HK] HQ. unfold getESDTConfig. apply run_bind, run_readStorage.
  fold (cell configKeyPrefix e). rewrite (keptOwn_cell _ e HK).
  destruct (tk_config _ _ HT) as [Hn|(c & v & [Hne Hu] & Hv & _)].
  - rewrite Hn. by eapply HQ.
  - destruct (cell configKeyPrefix e0); [done|]. rewrite Hu. by eapply HQ.
Qed.

(** *** What is left at the end of a call *)
Context (args : ContractCallInput) (b' : Z) (Hb : (bound ≤ b')%Z).
Lemma changed_kept e : keptOwn e0 e → changed b' args e0 e.
Proof.
  intros HK. split; [|rewrite keptOwn_cell //; by eapply tk_config|by eapply ko_self].
  intros id _. left. by apply keptOwn_cell.
Qed.
Lemma changed_saved id t t' e :
  loaded id t e0 → wfToken b' t' → tokenStep args t t' →
  saved id t' e0 e → changed b' args e0 e.
Proof.
  intros [Hid Hst] Hwf Hstep [[Hc Hs] Hst']. split; [|rewrite Hc; [by eapply tk_config|done]|done].
  intros k Hk. destruct (decide (k = id)) as [->|Hne]; [|left; by apply Hc].
  right. left. by exists t, t'.
Qed.
Lemma changed_created id t' e :
  id ≠ configKeyPrefix → cell id e0 = [] → wfToken b' t' → OwnerAddress t' = callerOf args →
  saved id t' e0 e → changed b' args e0 e.
Proof.
  intros Hid Hn Hwf Ho [[Hc Hs] Hst']. split; [|rewrite Hc; [by eapply tk_config|done]|done].
  intros k Hk. destruct (decide (k = id)) as [->|Hne]; [|left; by apply Hc].
  right. right. split; [done|]. by exists t'.
Qed.
End loading.
