(* ===== verification/EsdtHandlers.v ===== *)
(** * EsdtHandlers: issuing, properties and supply; giving and taking roles

    New identifiers are not in use, new tokens are well-formed, and the functions
    on properties, supply, freezing, wiping and pausing make a [tokenStep].  Roles
    that are given to an address, taken from it or handed over leave the list of
    roles well-formed. *)
From S2P Require Import Prelude SystemEI StakingData Sums DelegationData Contract EsdtData.
From S2P Require Import EsdtTokens EsdtRoles EsdtSC EsdtSpec.
#[local] Open Scope go_scope.

(** ** Pure facts *)
Section pure.
Context {EC : EsdtContract} {CC : CoreConstants} {CL : CoreLaws}.

(** what the properties do not touch *)
Record sameCore (t t' : ESDTDataV2) : Prop := {
  sc_owner : OwnerAddress t' = OwnerAddress t;
  sc_name : TokenName t' = TokenName t;
  sc_ticker : TickerName t' = TickerName t;
  sc_type : TokenType t' = TokenType t;
  sc_minted : MintedValue t' = MintedValue t;
  sc_burnt : BurntValue t' = BurntValue t;
  sc_decimals : NumDecimals t' = NumDecimals t;
  sc_stopped : NFTCreateStopped t' = NFTCreateStopped t;
  sc_roles : SpecialRoles t' = SpecialRoles t;
  sc_wiped : NumWiped t' = NumWiped t;
}.
Lemma sameCore_refl t : sameCore t t.
Proof. by split. Qed.
Lemma sameCore_trans t1 t2 t3 : sameCore t1 t2 → sameCore t2 t3 → sameCore t1 t3.
Proof. intros [] []. split; congruence. Qed.
Lemma setProperty_core isCreate m t name v t' :
  setProperty isCreate m t name v = inr t' →
  sameCore t t' ∧ (isCreate = false → CanCreateMultiShard t' = CanCreateMultiShard t).
Proof.
  unfold setProperty. intros Ht.
  repeat (case_match; simplify_eq; [try (by destruct t)|]); try done.
  all: repeat (case_match; simplify_eq); try (by destruct t).
  destruct isCreate; [by destruct t|]. by rewrite !orb_true_r in H9.
Qed.
Lemma propertiesLoop_core isCreate m args t t' :
  propertiesLoop isCreate m t args = inr t' →
  sameCore t t' ∧ (isCreate = false → CanCreateMultiShard t' = CanCreateMultiShard t).
Proof.
  revert t. remember (length args) as n eqn:Hn. revert args Hn.
  induction n as [n IH] using lt_wf_ind. intros [|name [|value rest]] -> t; simpl; try (by intros [= <-]).
  destruct (checkAndGetSetting value) as [x|val]; [done|].
  destruct (setProperty isCreate m t name val) as [x|t1] eqn:H1; [done|]. intros H2.
  apply setProperty_core in H1 as [H1 H1'].
  apply (IH (length rest)) in H2 as [H2 H2']; [|simpl; lia|done].
  split; [by eapply sameCore_trans|]. intros Hc. rewrite H2' // H1' //.
Qed.
Lemma wfToken_core b t t' :
  wfToken b t → sameCore t t' → CanCreateMultiShard t' = CanCreateMultiShard t → wfToken b t'.
Proof.
  intros [] [Ho _ _ Hty Hm Hb Hd Hst Hr Hw] Hms.
  split; by rewrite ?Ho ?Hm ?Hb ?Hd ?Hw ?Hr ?Hms ?Hst ?Hty.
Qed.

(** the identifiers of tokens *)
Lemma ticker_not_config ticker rest : isTickerValid ticker = true → ticker ++ rest ≠ configKeyPrefix.
Proof.
  unfold isTickerValid. intros [Hl Hc]%andb_true_iff Heq.
  destruct ticker as [|c ticker]; [done|]. simpl in Heq. injection Heq as -> _. simpl in Hc. done.
Qed.

(** a token without roles, but for that of all accounts to burn *)
Definition freshRoles (rs : list ESDTRoles) : Prop := rs = [] ∨ rs = [mkRoles [] [ESDTRoleBurnForAll]].
Lemma freshRoles_holders rs role :
  freshRoles rs → role ≠ ESDTRoleBurnForAll → holders role rs = [].
Proof.
  intros [-> | ->] Hr; [done|]. rewrite holders_cons decide_False //. simpl. set_solver.
Qed.
Lemma freshRoles_ok multi stopped dynamic rs : freshRoles rs → rolesOk multi stopped dynamic rs.
Proof.
  intros Hrs. assert (holders ESDTRoleNFTCreate rs = []) as Hc.
  { apply freshRoles_holders; [done|]. intros Heq. by apply burn_not_create. }
  split.
  - destruct Hrs as [-> | ->]; [constructor|apply NoDup_singleton].
  - destruct Hrs as [-> | ->]; [constructor|]. apply Forall_singleton. split; [apply NoDup_singleton|by right].
  - rewrite Hc. simpl. lia.
  - rewrite Hc. constructor.
  - done.
  - intros _ role Hr. rewrite freshRoles_holders //; [simpl; lia|].
    intros ->. by apply burn_not_singular.
Qed.
Lemma wf_withType b ty t :
  wfToken b t → isDynamicTokenType ty = isDynamicTokenType (TokenType t) → wfToken b (withTokenType ty t).
Proof. destruct t; simpl. intros [] Hd. split; simpl in *; try done. by rewrite Hd. Qed.
Lemma wf_withDecimals b n t : wfToken b t → (0 ≤ n ≤ 18)%Z → wfToken b (withNumDecimals n t).
Proof. destruct t; simpl. by intros [] Hd; split. Qed.
Lemma wf_withBurnt b v t : wfToken b t → (0 ≤ v)%Z → wfToken b (withBurntValue (Some v) t).
Proof. destruct t; simpl. intros [] Hv. split; try done. by exists v. Qed.
Lemma wf_withMinted b v t : wfToken b t → (0 ≤ v)%Z → wfToken b (withMintedValue (Some v) t).
Proof. destruct t; simpl. intros [] Hv. split; try done. by exists v. Qed.
Lemma wf_withWiped b n t : wfToken b t → (0 ≤ n < 2 ^ 32)%Z → wfToken b (withNumWiped n t).
Proof. destruct t; simpl. by intros [] Hd; split. Qed.
Lemma wf_withPaused b p t : wfToken b t → wfToken b (withIsPaused p t).
Proof. destruct t; simpl. by intros []; split. Qed.
Lemma wf_withOwner b a t : wfToken b t → isAddress a → wfToken b (withTokenOwnerAddress a t).
Proof. destruct t; simpl. by intros [] Ha; split. Qed.
(** the types that [changeSFTToMetaESDT] and [updateTokenID] change *)
Lemma not_dynamic_eq t1 t2 :
  t1 ∈ [FungibleESDT; NonFungibleESDT; NonFungibleESDTv2; SemiFungibleESDT; MetaESDT] →
  t2 ∈ [FungibleESDT; NonFungibleESDT; NonFungibleESDTv2; SemiFungibleESDT; MetaESDT] →
  isDynamicTokenType t1 = isDynamicTokenType t2.
Proof. intros. by rewrite !not_dynamic. Qed.
Lemma setters_owner t r : SpecialRoles (withSpecialRoles r t) = r.
Proof. by destruct t. Qed.
End pure.

Section handlers.
Context {E : Type} {EI : SystemEI E} {EIL : SystemEILaws E}.
Context {CH : ContractHost E} {CHL : ContractHostLaws E} {TE : TokenEI E}.
Context {EC : EsdtContract} {CC : CoreConstants} {CL : CoreLaws} {EL : EsdtLaws} {TL : TokenHostLaws E}.
Context (bound : Z) (e0 : E) (HT : Tokens bound e0) (Hbound : (0 ≤ bound)%Z).
Context (args : ContractCallInput) (Hcaller : isAddress (callerOf args)).

Implicit Types (e : E) (t : ESDTDataV2).
Abbreviation b' := (bound + 2)%Z.
Abbreviation keeps := (changed b' args e0).

(** ** Creating *)
Lemma run_checkBasic R e (Q : unit → E → Prop) :
  Now (keptOwn e0) e → (∀ e', Now (keptOwn e0) e' → Q tt e') →
  run (exits R) (checkBasicCreateArguments args) Q e.
Proof.
  intros HK HQ. unfold checkBasicCreateArguments. repeat estep.
  eapply run_esdtConfig; [done..|]. intros c v Hv. repeat estep. by apply HQ.
Qed.
Lemma run_decimals R a e Q :
  (∀ n, (0 ≤ n ≤ 18)%Z → Q n e) → run (exits R) (decimalsOf a) Q e.
Proof.
  intros HQ. unfold decimalsOf. repeat estep. apply HQ. apply Z.ltb_ge in H.
  change maxNumberOfDecimals with 18%Z in H. unfold argUint32, u32 in *.
  pose proof (Z.mod_pos_bound (bigUint64 (setBytes a)) (2 ^ 32) ltac:(lia)). lia.
Qed.
Lemma run_identifierLoop {X} (fr : X → E → Prop) fuel ticker n e Q :
  keptOwn e0 e → Q None e →
  (∀ i, i < fuel → cell (ticker ++ hexPadded (n + Z.of_nat i)) e0 = [] →
     (∀ j, j < i → cell (ticker ++ hexPadded (n + Z.of_nat j)) e0 ≠ []) →
     Q (Some (ticker ++ hexPadded (n + Z.of_nat i))) e) →
  run fr (identifierLoop fuel ticker n) Q e.
Proof.
  intros HK Hnone. revert n. induction fuel as [|fuel IH]; intros n HQ; [done|].
  simpl. apply run_bind, run_readStorage. fold (cell (ticker ++ hexPadded n) e). rewrite (keptOwn_cell e0) //.
  destruct (cell (ticker ++ hexPadded n) e0) as [|x d] eqn:Hc.
  - apply run_ret. specialize (HQ 0 ltac:(lia)). rewrite Z.add_0_r in HQ. apply HQ; [done|]. lia.
  - apply IH. intros i Hi He Hbefore. specialize (HQ (S i) ltac:(lia)).
    replace (n + Z.of_nat (S i))%Z with (n + 1 + Z.of_nat i)%Z in HQ by lia. apply HQ; [done|].
    intros [|j] Hj; [by rewrite Z.add_0_r Hc|]. replace (n + Z.of_nat (S j))%Z with (n + 1 + Z.of_nat j)%Z by lia.
    apply Hbefore. lia.
Qed.
Lemma run_createIdentifier caller ticker e Q :
  Now (keptOwn e0) e → isTickerValid ticker = true →
  (∀ id, id ≠ configKeyPrefix → cell id e0 = [] → Q id e) →
  run anyError (createNewTokenIdentifier caller ticker) Q e.
Proof.
  intros [HK] Hv HQ. unfold createNewTokenIdentifier. destruct (_ && _); [done|]. repeat estep.
  rewrite (proj2 (Nat.ltb_ge _ _)); [|apply hash_length]. estep.
  apply run_identifierLoop; [done|done|]. intros i _ Hc _. apply run_ret, HQ; [|done].
  rewrite -app_assoc. by apply ticker_not_config.
Qed.
Lemma run_upgrade id t props isCreate caller K e Q :
  Now K e → Stable K →
  (∀ t' e', Now K e' → sameCore t t' → (isCreate = false → CanCreateMultiShard t' = CanCreateMultiShard t) →
     Q t' e') →
  run anyError (upgradeProperties id t props isCreate caller) Q e.
Proof.
  intros HK HS HQ. unfold upgradeProperties. destruct (_ =? _).
  - repeat estep. apply HQ; [done|by split|done].
  - destruct (Nat.odd _); [done|]. estep.
    destruct (propertiesLoop _ _ t props) as [x|t'] eqn:Hp; [done|].
    apply propertiesLoop_core in Hp as [Hc Hm]. simpl. apply run_ret. repeat estep. by apply HQ.
Qed.
Lemma run_burnRole {X} (fr : X → E → Prop) t id K e Q :
  Now K e → Stable K →
  (∀ t' e', Now K e' → (t' = t ∨ t' = withSpecialRoles (SpecialRoles t ++ [mkRoles [] [ESDTRoleBurnForAll]]) t) →
     Q t' e') →
  run fr (addBurnRoleAndSendToAllShards t id) Q e.
Proof.
  intros HK HS HQ. unfold addBurnRoleAndSendToAllShards. destruct (negb _).
  - apply run_ret, HQ; [done|by left].
  - repeat estep. apply HQ; [done|by right].
Qed.
Lemma run_sendType {X} (fr : X → E → Prop) caller id t K e (Q : unit → E → Prop) :
  Now K e → Stable K → (∀ e', Now K e' → Q tt e') →
  run fr (sendTokenTypeToSystemAccounts caller id t) Q e.
Proof.
  intros HK HS HQ. unfold sendTokenTypeToSystemAccounts. destruct (negb _); [by apply HQ|].
  repeat estep. by apply HQ.
Qed.

(** a token that was created by this call *)
Record newToken (tokenType : bytes) t : Prop := {
  nt_wf : wfToken (bound + 1) t;
  nt_owner : OwnerAddress t = callerOf args;
  nt_type : TokenType t = tokenType;
  nt_stopped : NFTCreateStopped t = false;
  nt_roles : freshRoles (SpecialRoles t);
}.
Lemma run_createNewToken name ticker supply decimals props tokenType e Q :
  Now (keptOwn e0) e → (0 ≤ supply)%Z → (0 ≤ decimals ≤ 18)%Z →
  (∀ id t e', Now (saved id t e0) e' → id ≠ configKeyPrefix → cell id e0 = [] → newToken tokenType t →
     Q (id, t) e') →
  run anyError (createNewToken (callerOf args) name ticker supply decimals props tokenType) Q e.
Proof.
  intros HK Hs Hd HQ. unfold createNewToken. destruct (negb _); [done|].
  destruct (isTickerValid ticker) eqn:Hv; [|done]. simpl. estep.
  eapply run_createIdentifier; [done..|]. intros id Hid Hn. estep.
  set (t0 := mkToken _ _ _ _ _ _ _ _ _ _ _ _ _ _ _ _ _ _ _ _ _).
  eapply run_upgrade; [exact HK|exact _|]. intros t1 e1 HK1 Hcore _. estep.
  eapply run_burnRole; [exact HK1|exact _|]. intros t2 e2 HK2 Ht2. estep.
  assert (newToken tokenType t2) as Hnew.
  { destruct Hcore. assert (freshRoles (SpecialRoles t2)) as Hf.
    { destruct Ht2 as [->| ->]; [by left; rewrite sc_roles0|]. right. by rewrite setters_owner sc_roles0. }
    assert (OwnerAddress t2 = OwnerAddress t1 ∧ TokenType t2 = TokenType t1 ∧ MintedValue t2 = MintedValue t1 ∧
      BurntValue t2 = BurntValue t1 ∧ NumDecimals t2 = NumDecimals t1 ∧ NumWiped t2 = NumWiped t1 ∧
      NFTCreateStopped t2 = NFTCreateStopped t1) as (Ho & Hty & Hm & Hb & Hdc & Hw & Hst).
    { destruct Ht2 as [->| ->]; [done|]. by destruct t1. }
    split; [split|by rewrite Ho sc_owner0|by rewrite Hty sc_type0|by rewrite Hst sc_stopped0|done].
    - by rewrite Ho sc_owner0.
    - exists supply. by rewrite Hm sc_minted0.
    - exists 0%Z. by rewrite Hb sc_burnt0.
    - by rewrite Hdc sc_decimals0.
    - by rewrite Hw sc_wiped0.
    - destruct Hf as [-> | ->]; simpl; lia.
    - by apply freshRoles_ok. }
  eapply run_saveToken; [by apply keptOwn_outside, HK2|by apply Hnew|]. intros e3 HK3. estep.
  eapply run_sendType; [exact HK3|exact _|]. intros e4 HK4. estep. by apply HQ.
Qed.
Lemma keeps_new id t tokenType e :
  Now (saved id t e0) e → id ≠ configKeyPrefix → cell id e0 = [] → newToken tokenType t → keeps e.
Proof.
  intros [HK] Hid Hn [Hwf Ho _ _ _]. eapply changed_created; [done..| |exact Ho|exact HK].
  eapply wfToken_mono; [done|lia].
Qed.

(** *** The functions that issue tokens *)
Lemma issue_keeps : handled keeps (issue args) e0.
Proof.
  pose proof (Now_start e0) as HK. unfold issue. estep. estep. estep. estep.
  eapply run_checkBasic; [done|]. intros e1 HK1. repeat estep. cbv zeta. repeat estep.
  apply run_decimals. intros n Hn. repeat estep.
  eapply run_createNewToken; [done|apply setBytes_nonneg|done|]. intros id t e2 HK2 Hid Hc Hnew.
  cbv beta iota. estep. case_match; repeat estep; by eapply keeps_new.
Qed.
Lemma registerNonFungible_keeps : handled keeps (registerNonFungible args) e0.
Proof.
  pose proof (Now_start e0) as HK. unfold registerNonFungible. estep. estep.
  eapply run_checkBasic; [done|]. intros e1 HK1. repeat estep.
  eapply run_createNewToken; [done|lia|lia|]. intros id t e2 HK2 Hid Hc Hnew. repeat estep. by eapply keeps_new.
Qed.
Lemma registerSemiFungible_keeps : handled keeps (registerSemiFungible args) e0.
Proof.
  pose proof (Now_start e0) as HK. unfold registerSemiFungible. estep. estep.
  eapply run_checkBasic; [done|]. intros e1 HK1. repeat estep.
  eapply run_createNewToken; [done|lia|lia|]. intros id t e2 HK2 Hid Hc Hnew. repeat estep. by eapply keeps_new.
Qed.
Lemma registerMetaESDT_keeps : handled keeps (registerMetaESDT args) e0.
Proof.
  pose proof (Now_start e0) as HK. unfold registerMetaESDT. do 4 estep.
  eapply run_checkBasic; [done|]. intros e1 HK1. do 3 estep.
  apply run_decimals. intros n Hn. repeat estep.
  eapply run_createNewToken; [done|lia|lia|]. intros id t e2 HK2 Hid Hc Hnew. repeat estep. by eapply keeps_new.
Qed.

(** ** Changing tokens *)
Lemma unchanged_keeps e : Now (keptOwn e0) e → keeps e.
Proof. intros [HK]. by apply (changed_kept bound). Qed.
Lemma keeps_step t t' e :
  loaded (arg args 0) t e0 → Now (saved (arg args 0) t' e0) e → wfToken b' t' → tokenStep args t t' → keeps e.
Proof. intros Hst [HK] Hwf Hstep. by eapply changed_saved. Qed.
Lemma wider t : wfToken bound t → wfToken b' t.
Proof. intros Hwf. eapply wfToken_mono; [done|lia]. Qed.
(** a token is saved that its owner has changed *)
Lemma keeps_owned t t' e :
  loaded (arg args 0) t e0 → Now (saved (arg args 0) t' e0) e → wfToken bound t' → ownerStep args t t' → keeps e.
Proof. intros Hst HK Hwf Hstep. eapply keeps_step; [done..|by apply wider|by apply tokenStep_owner]. Qed.

(** a field changes that is no promise *)
Ltac changeField t := destruct t; simpl in *; split; simpl in *; auto.
Lemma changeSFTToMetaESDT_keeps : handled keeps (changeSFTToMetaESDT args) e0.
Proof.
  pose proof (Now_start e0) as HK. unfold changeSFTToMetaESDT. repeat estep.
  apply run_decimals. intros n Hn. repeat estep. eapply run_ownership; [done..|].
  intros t e1 HK1 Hst Hwf Ho. repeat estep. apply negb_false_iff, bool_decide_eq_true in H1.
  set (t' := withNumDecimals n (withTokenType MetaESDT t)).
  assert (wfToken bound t') as Hwf'.
  { apply wf_withDecimals; [|done]. apply wf_withType; [done|]. rewrite H1. apply not_dynamic_eq; set_solver. }
  eapply run_saveOrReturn; [by apply keptOwn_outside, HK1|done|]. intros e2 HK2. repeat estep.
  eapply run_sendType; [done|exact _|]. intros e3 HK3. repeat estep.
  eapply keeps_owned; [done..|]. unfold t'. changeField t.
Qed.
Lemma burn_keeps : Function args = BuiltInFunctionESDTBurn → handled keeps (burn args) e0.
Proof.
  intros Hf. pose proof (Now_start e0) as HK. unfold burn. repeat estep. cbv zeta. repeat estep.
  eapply run_getExistingToken; [done..|]. intros t Hst Hwf.
  destruct (Burnable t) eqn:Hbu; simpl.
  - destruct (wt_burnt _ _ Hwf) as (v & Hv & Hv0). repeat estep.
    apply Z.leb_gt in H2. set (t' := withBurntValue _ t).
    assert (wfToken bound t') as Hwf'.
    { apply wf_withBurnt; [done|lia]. }
    eapply run_saveOrReturn; [by apply keptOwn_outside, HK|done|]. intros e2 HK2. repeat estep.
    eapply keeps_step; [done..|by apply wider|]. by eapply tokenStep_burn.
  - repeat estep. case_match; repeat estep. by apply unchanged_keeps.
Qed.
Lemma mint_keeps : Function args = "mint" → handled keeps (mint args) e0.
Proof.
  intros Hf. pose proof (Now_start e0) as HK. unfold mint. repeat estep.
  eapply run_ownership; [done..|]. intros t e1 HK1 Hst Hwf Ho. repeat estep. cbv zeta. repeat estep.
  destruct (wt_minted _ _ Hwf) as (v & Hv & Hv0). repeat estep.
  apply Z.leb_gt in H2. apply negb_false_iff in H3. set (t' := withMintedValue _ t).
  assert (wfToken bound t') as Hwf'.
  { apply wf_withMinted; [done|lia]. }
  eapply run_saveOrReturn; [by apply keptOwn_outside, HK1|done|]. intros e2 HK2. repeat estep. cbv zeta. repeat estep.
  eapply keeps_owned; [done..|]. unfold t'. destruct t; simpl in *; split; simpl in *; auto.
  right. split_and!; [done..|]. by exists v.
Qed.

(** *** Freezing, wiping, pausing *)
Lemma toggleFreeze_keeps f : handled keeps (toggleFreeze f args) e0.
Proof.
  pose proof (Now_start e0) as HK. unfold toggleFreeze. repeat estep.
  eapply run_ownership; [done..|]. intros t e1 HK1 _ _ _. repeat estep. by apply unchanged_keeps.
Qed.
Lemma toggleFreezeSingleNFT_keeps f : handled keeps (toggleFreezeSingleNFT f args) e0.
Proof.
  pose proof (Now_start e0) as HK. unfold toggleFreezeSingleNFT. repeat estep.
  eapply run_ownership; [done..|]. intros t e1 HK1 _ _ _. repeat estep. by apply unchanged_keeps.
Qed.
Lemma wipeTokenFromAddress_keeps t a w e1 :
  Now (keptOwn e0) e1 → loaded (arg args 0) t e0 → wfToken bound t → OwnerAddress t = callerOf args →
  handled keeps (wipeTokenFromAddress a t (arg args 0) w) e1.
Proof.
  intros HK1 Hst Hwf Ho. unfold wipeTokenFromAddress. repeat estep. set (t' := withNumWiped _ t).
  assert (wfToken bound t') as Hwf'.
  { apply wf_withWiped; [done|]. apply Z.mod_pos_bound. lia. }
  eapply run_saveOrReturn; [by eapply keptOwn_outside, H1|done|]. intros e2 HK2. repeat estep.
  eapply keeps_owned; [done..|]. unfold t'. changeField t.
Qed.
Lemma wipe_keeps : handled keeps (wipe args) e0.
Proof.
  pose proof (Now_start e0) as HK. unfold wipe. repeat estep.
  eapply run_ownership; [done..|]. intros t e1 HK1 Hst Hwf Ho. by apply wipeTokenFromAddress_keeps.
Qed.
Lemma wipeSingleNFT_keeps : handled keeps (wipeSingleNFT args) e0.
Proof.
  pose proof (Now_start e0) as HK. unfold wipeSingleNFT. repeat estep.
  eapply run_ownership; [done..|]. intros t e1 HK1 Hst Hwf Ho. repeat estep. by apply wipeTokenFromAddress_keeps.
Qed.
Lemma togglePause_keeps f : handled keeps (togglePause f args) e0.
Proof.
  pose proof (Now_start e0) as HK. unfold togglePause. repeat estep.
  eapply run_ownership; [done..|]. intros t e1 HK1 Hst Hwf Ho. repeat estep. set (t' := withIsPaused _ t).
  assert (wfToken bound t') as Hwf' by by apply wf_withPaused.
  eapply run_saveOrReturn; [by eapply keptOwn_outside, HK1|done|]. intros e2 HK2. repeat estep.
  eapply keeps_owned; [done..|]. unfold t'. changeField t.
Qed.

(** *** Owners and properties *)
Lemma transferOwnership_keeps : handled keeps (transferOwnership args) e0.
Proof.
  pose proof (Now_start e0) as HK. unfold transferOwnership. repeat estep.
  eapply run_ownership; [done..|]. intros t e1 HK1 Hst Hwf Ho. repeat estep.
  set (t' := withTokenOwnerAddress _ t).
  apply negb_false_iff in H1. unfold isAddressValid in H1.
  apply andb_true_iff in H1 as [Hl%Nat.eqb_eq _]. rewrite address_length in Hl.
  assert (wfToken bound t') as Hwf' by by apply wf_withOwner.
  eapply run_saveOrReturn; [by eapply keptOwn_outside, HK1|done|]. intros e2 HK2. repeat estep.
  eapply keeps_owned; [done..|]. unfold t'. changeField t.
Qed.
Lemma controlChanges_keeps : handled keeps (controlChanges args) e0.
Proof.
  pose proof (Now_start e0) as HK. unfold controlChanges. repeat estep.
  eapply run_ownership; [done..|]. intros t e1 HK1 Hst Hwf Ho. repeat estep.
  eapply run_upgrade; [exact HK1|exact _|]. intros t' e2 HK2 Hcore Hm. specialize (Hm eq_refl).
  repeat estep. pose proof (wfToken_core _ _ _ Hwf Hcore Hm) as Hwf'.
  eapply run_saveOrReturn; [by eapply keptOwn_outside, HK2|done|]. intros e3 HK3. repeat estep.
  apply negb_false_iff in H0. destruct Hcore.
  eapply keeps_owned; [done..|]. split; [done|done|done|by left|congruence| |congruence].
  intros Hu. congruence.
Qed.
Lemma updateTokenID_keeps : Function args = "updateTokenID" → handled keeps (updateTokenID args) e0.
Proof.
  intros Hf. pose proof (Now_start e0) as HK. unfold updateTokenID. repeat estep.
  eapply run_tokenInfo; [done..|]. intros t e1 HK1 Hst Hwf. estep. case_bool_decide as Ht.
  - set (t' := withTokenType _ t).
    assert (wfToken bound t') as Hwf'.
    { apply wf_withType; [done|]. rewrite Ht. apply not_dynamic_eq; set_solver. }
    estep. eapply run_saveOrReturn; [by eapply keptOwn_outside, HK1|done|]. intros e2 HK2. repeat estep.
    eapply run_sendType; [exact HK2|exact _|]. intros e3 HK3. repeat estep.
    eapply keeps_step; [done..|by apply wider|]. by apply tokenStep_update.
  - repeat estep. eapply run_sendType; [exact HK1|exact _|]. intros e3 HK3. repeat estep. by apply unchanged_keeps.
Qed.

(** ** The contract's configuration and the views *)
Lemma configChange_keeps : argUint32 (arg args 3) ≠ 0%Z → handled keeps (configChange args) e0.
Proof.
  intros Hmax. pose proof (Now_start e0) as HK. unfold configChange. do 2 estep. unfold getEsdtOwner. do 2 estep.
  eapply run_esdtConfig; [done..|]. intros c v Hv. repeat estep. cbv zeta. repeat estep.
  unfold saveESDTConfig. set (c' := mkESDTConfig _ _ _ _).
  assert (configRange c') as Hr.
  { split; apply Z.mod_pos_bound; lia. }
  eapply (run_save (T:=ESDTConfig)); [done|done|]. intros d Hd. repeat estep. split.
  - intros id Hne. left. unfold cell. rewrite get_set_ne; [|done]. by apply (f_equal orEmpty), (now _ _ H1).
  - right. eexists c', _. split; [|by split]. unfold cell. by rewrite get_set_eq.
  - rewrite set_self. apply (now _ _ H1).
Qed.
Lemma run_balance {X} (fr : X → E → Prop) a e Q :
  is_Some (GetBalance a e) → (∀ s, Q s e) → run fr (balance a) Q e.
Proof. intros [s Hs] HQ. unfold run, wp, balance. rewrite Hs. apply HQ. Qed.
Lemma run_transferOwn {X} (fr : X → E → Prop) d v e (Q : unit → E → Prop) :
  Now (keptOwn e0) e → d ≠ selfAddress e0 → (∀ e', Now (keptOwn e0) e' → Q tt e') →
  run fr (transfer d (selfAddress e0) v) Q e.
Proof.
  intros [HK] Hd HQ. rewrite -(ko_self _ _ HK) in Hd |- *. unfold run, wp, transfer.
  destruct (transfer_total v e Hd) as [e' He]. rewrite He. apply transfer_same in He as [Hs _]; [|done].
  apply HQ. split. eapply keptOwn_stable; [done|by apply sameButBalance_keptOwn].
Qed.
Lemma run_useGasIs R g e (Q : unit → E → Prop) :
  (∀ e', UseGas g e = Some e' → Q tt e') → run (exits R) (useGas g) Q e.
Proof. intros HQ. unfold run, wp, useGas. destruct (UseGas g e) as [e'|]; [by apply HQ|done]. Qed.
Lemma claim_keeps :
  callerOf args ≠ selfAddress e0 → recipientOf args = selfAddress e0 →
  is_Some (GetBalance (selfAddress e0) e0) → handled keeps (claim args) e0.
Proof.
  intros Hne Hrec Hbal. pose proof (Now_start e0) as HK. unfold claim. do 2 estep. unfold getEsdtOwner. do 2 estep.
  eapply run_esdtConfig; [done..|]. intros c v Hv. do 6 estep. apply run_useGasIs. intros e1 Hg.
  assert (Now (keptOwn e0) e1) as HK1 by (eapply Now_same; [exact _|exact HK|by eapply same_gas]).
  do 2 estep. estep. apply run_balance; [by rewrite Hrec (balance_gas _ _ _ _ Hg)|]. intros s. estep. rewrite Hrec.
  apply run_transferOwn; [done..|]. intros e2 HK2. repeat estep. by apply unchanged_keeps.
Qed.
Lemma getContractConfig_keeps : handled keeps (getContractConfig args) e0.
Proof.
  pose proof (Now_start e0) as HK. unfold getContractConfig, checkArgumentsForGeneralViewFunc. repeat estep.
  eapply run_esdtConfig; [done..|]. intros c v Hv. repeat estep. by apply unchanged_keeps.
Qed.
Lemma run_viewedToken R (Q : ESDTDataV2 → E → Prop) :
  (∀ t e', Now (keptOwn e0) e' → Q t e') → run (exits R) (viewedToken args) Q e0.
Proof.
  intros HQ. pose proof (Now_start e0) as HK. unfold viewedToken. repeat estep.
  eapply run_getExistingToken; [done..|]. intros t _ _. by apply HQ.
Qed.
Lemma run_finishAll {X} (fr : X → E → Prop) l e (Q : unit → E → Prop) :
  Now (keptOwn e0) e → (∀ e', Now (keptOwn e0) e' → Q tt e') → run fr (forEach l finish) Q e.
Proof.
  intros HK HQ. eapply (run_forEach fr (Now (keptOwn e0))); [done| |done]. intros v e' HK'. by estep.
Qed.
Lemma getTokenProperties_keeps : handled keeps (getTokenProperties args) e0.
Proof.
  unfold getTokenProperties. estep. estep. apply run_viewedToken. intros t e1 HK1. cbv zeta. estep.
  apply run_finishAll; [done|]. intros e2 HK2. repeat estep. by apply unchanged_keeps.
Qed.
Lemma getSpecialRoles_keeps : handled keeps (getSpecialRoles args) e0.
Proof.
  unfold getSpecialRoles. estep. estep. apply run_viewedToken. intros t e1 HK1. estep.
  eapply (run_forEach _ (Now (keptOwn e0))); [done|intros; by estep|]. intros e2 HK2. repeat estep.
  by apply unchanged_keeps.
Qed.
Lemma getAllAddressesAndRoles_keeps : handled keeps (getAllAddressesAndRoles args) e0.
Proof.
  pose proof (Now_start e0) as HK. unfold getAllAddressesAndRoles. repeat estep.
  eapply run_getExistingToken; [done..|]. intros t _ _. repeat estep.
  eapply (run_forEach _ (Now (keptOwn e0))); [done| |].
  - intros r e1 HK1. repeat estep. by apply run_finishAll.
  - intros e2 HK2. repeat estep. by apply unchanged_keeps.
Qed.
End handlers.

Section pure.
Context {EC : EsdtContract} {CC : CoreConstants} {CL : CoreLaws}.

(** ** Giving *)
(** [rs'] is [rs] with [roles] for [a] *)
Record given (a : bytes) (roles : list bytes) (rs rs' : list ESDTRoles) : Prop := {
  gv_addresses : NoDup (map RoleAddress rs) → NoDup (map RoleAddress rs');
  gv_entries : Forall goodEntry rs → Forall goodEntry rs';
  gv_same role : role ∉ roles → holders role rs' = holders role rs;
  gv_new role : role ∈ roles → holders role rs = [] → holders role rs' = [a];
  gv_length : length rs' ≤ S (length rs);
}.
Lemma given_new a roles rs : a ∉ map RoleAddress rs → goodEntry (mkRoles a roles) →
  given a roles rs (rs ++ [mkRoles a roles]).
Proof.
  intros Ha Hg. split.
  - intros Hnd. rewrite map_app. apply NoDup_app. split_and!; [done|set_solver|apply NoDup_singleton].
  - intros Hf. apply Forall_app. by rewrite Forall_singleton.
  - intros role Hr. by rewrite holders_app holders_cons decide_False // app_nil_r.
  - intros role Hr Hn. by rewrite holders_app holders_cons decide_True // Hn.
  - rewrite length_app. simpl. lia.
Qed.
Lemma given_more a roles pre r post : RoleAddress r = a → isAddress a → NoDup (Roles r ++ roles) →
  given a roles (pre ++ r :: post) (pre ++ withRoles (Roles r ++ roles) r :: post).
Proof.
  intros <- Ha Hnd. split.
  - by rewrite (addresses_update pre r).
  - rewrite !Forall_app !Forall_cons. intros (? & _ & ?). split_and!; [done|split|done]; [done|by left].
  - intros role Hr. apply holders_update; [done|]. simpl. set_solver.
  - intros role Hr Hn. eapply holders_new; [done|exact Hn|]. simpl. set_solver.
  - rewrite !length_app. simpl. lia.
Qed.
Lemma rolesOk_given m s d a roles rs rs' :
  rolesOk m s d rs → given a roles rs rs' →
  (ESDTRoleNFTCreate ∈ roles → s = false ∧ (m = false → holders ESDTRoleNFTCreate rs = []) ∧
     (m = true → NoDup (map last (holders ESDTRoleNFTCreate rs')))) →
  (d = true → ∀ role, role ∈ rolesForDynamicWhichHasToBeSingular → role ∈ roles → holders role rs = []) →
  rolesOk m s d rs'.
Proof.
  intros Hok [Ha He Hs Hn _] Hc Hd.
  eapply rolesOk_more; [exact Hok|apply Ha, Hok|apply He, Hok|exact Hs|exact Hn|exact Hc|exact Hd].
Qed.
Lemma holder_address rs role a :
  Forall goodEntry rs → role ≠ ESDTRoleBurnForAll → a ∈ holders role rs → isAddress a.
Proof.
  intros Hf Hr.
  induction Hf as [|r rs [_ Hg] Hf IH]; [set_solver|]. rewrite holders_cons. case_decide as Hin; [|done].
  intros [->|Ha]%elem_of_cons; [|by apply IH]. destruct Hg as [Hg|[_ Hg]]; [done|].
  rewrite Hg in Hin. by apply list_elem_of_singleton in Hin.
Qed.
(** the entry of an address has only roles that are not of all accounts *)
Lemma entry_of_address m s d pre r post : rolesOk m s d (pre ++ r :: post) → goodEntry r.
Proof. intros Hok. pose proof (ro_entries _ _ _ _ Hok) as Hf. by apply Forall_app in Hf as [_ [? _]%Forall_cons]. Qed.
Lemma creator_nonempty rs a : Forall goodEntry rs → a ∈ holders ESDTRoleNFTCreate rs → a ≠ [].
Proof.
  intros Hf Ha ->. apply holder_address in Ha; [done..|]. intros Heq. by apply burn_not_create.
Qed.
Lemma NoDup_length_1 {A} (l : list A) (x : A) : NoDup l → (∀ y, y ∈ l → y = x) → length l ≤ 1.
Proof.
  destruct l as [|y [|z l]]; simpl; [lia..|]. intros [Hn _]%NoDup_cons Hx.
  exfalso. apply Hn. rewrite (Hx y); [|by left]. rewrite (Hx z); [by left|right; by left].
Qed.

(** ** Taking *)
(** the entries without a role: fewer holders *)
Record taken (rs rs' : list ESDTRoles) : Prop := {
  tk_addresses : map RoleAddress rs' `sublist_of` map RoleAddress rs;
  tk_entries : Forall goodEntry rs → Forall goodEntry rs';
  tk_fewer role : Forall goodEntry rs → holders role rs' `sublist_of` holders role rs;
}.
Lemma taken_length rs rs' : taken rs rs' → length rs' ≤ length rs.
Proof. intros [Hs _ _]. apply sublist_length in Hs. by rewrite !length_map in Hs. Qed.
Lemma rolesOk_taken m s d rs rs' : rolesOk m s d rs → taken rs rs' → rolesOk m s d rs'.
Proof.
  intros Hok [Ha He Hf]. pose proof (ro_entries _ _ _ _ Hok). eapply rolesOk_fewer; [done| |by auto|by auto].
  eapply sublist_NoDup; [|done]. apply Hok.
Qed.
Lemma taken_refl rs : taken rs rs.
Proof. by split. Qed.
Lemma taken_cons r rs rs' : taken rs rs' → taken (r :: rs) (r :: rs').
Proof.
  intros [Ha He Hf]. split.
  - by apply sublist_skip.
  - intros [? ?]%Forall_cons. apply Forall_cons. auto.
  - intros role [? ?]%Forall_cons. rewrite !holders_cons. case_decide; [apply sublist_skip|]; auto.
Qed.
Lemma taken_drop r rs rs' : taken rs rs' → taken (r :: rs) rs'.
Proof.
  intros [Ha He Hf]. split.
  - by apply sublist_cons.
  - intros [? ?]%Forall_cons. auto.
  - intros role [? ?]%Forall_cons. rewrite holders_cons. case_decide; [apply sublist_cons|]; auto.
Qed.
Lemma taken_update r roles rs rs' :
  (goodEntry r → goodEntry (withRoles roles r)) → (goodEntry r → ∀ role, role ∈ roles → role ∈ Roles r) →
  taken rs rs' → taken (r :: rs) (withRoles roles r :: rs').
Proof.
  intros Hg Hr [Ha He Hf]. split.
  - by apply sublist_skip.
  - intros [? ?]%Forall_cons. apply Forall_cons. auto.
  - intros role [Hgr ?]%Forall_cons. rewrite !holders_cons. simpl.
    specialize (Hf role ltac:(done)). specialize (Hr Hgr role).
    destruct (decide (role ∈ roles)), (decide (role ∈ Roles r)); [by apply sublist_skip|tauto| |done].
    by apply sublist_cons.
Qed.
Lemma taken_app pre rs rs' : taken rs rs' → taken (pre ++ rs) (pre ++ rs').
Proof. intros Ht. induction pre; [done|]. by apply taken_cons. Qed.
Lemma deleteRole_taken t :
  ∃ rs', deleteRoleFromToken t ESDTRoleBurnForAll = withSpecialRoles rs' t ∧ taken (SpecialRoles t) rs'.
Proof.
  eexists. split; [done|]. induction (SpecialRoles t) as [|r rs IH]; [apply taken_refl|]. simpl.
  destruct (getRoleIndex r ESDTRoleBurnForAll) as [i|] eqn:Hi; [|by apply taken_cons].
  unfold getRoleIndex in Hi. destruct (delete i (Roles r)) as [|x l] eqn:Hd; [by apply taken_drop|].
  rewrite -Hd. apply taken_update; [| |done].
  - intros [Hnd Ha]. destruct (delete_role _ _ _ Hnd Hi) as [Hnd' _]. split; [done|].
    destruct Ha as [Ha|[_ Hr]]; [by left|]. exfalso. apply roleIndex_Some in Hi. rewrite Hr in Hi Hd.
    destruct i; simpl in *; [done|]. done.
  - intros [Hnd _] role Hrole. by apply (delete_role _ _ _ Hnd Hi) in Hrole as [Hin _].
Qed.

(** ** The role to create NFTs *)
Record creatorsTaken (rs rs' : list ESDTRoles) : Prop := {
  ct_addresses : map RoleAddress rs' = map RoleAddress rs;
  ct_entries : Forall goodEntry rs';
  ct_same role : role ≠ ESDTRoleNFTCreate → holders role rs' = holders role rs;
  ct_none : holders ESDTRoleNFTCreate rs' = [];
}.
Lemma creatorsTaken_keep r rs rs' :
  goodEntry r → ESDTRoleNFTCreate ∉ Roles r → creatorsTaken rs rs' → creatorsTaken (r :: rs) (r :: rs').
Proof.
  intros Hg Hr [Ha He Hs Hn]. split; [by rewrite /= Ha|by apply Forall_cons| |].
  - intros role Hrole. rewrite !holders_cons Hs //.
  - by rewrite holders_cons decide_False.
Qed.
Lemma creatorsTaken_delete r i rs rs' :
  goodEntry r → roleIndex (Roles r) ESDTRoleNFTCreate = Some i → creatorsTaken rs rs' →
  creatorsTaken (r :: rs) (withRoles (delete i (Roles r)) r :: rs').
Proof.
  intros [Hnd Hg] Hi [Ha He Hs Hn]. destruct (delete_role _ _ _ Hnd Hi) as [Hnd' Hin].
  split; [by rewrite /= Ha| | |].
  - apply Forall_cons. split; [split|]; [done| |done]. destruct Hg as [Hg|[_ Hg]]; [by left|].
    apply roleIndex_Some, list_elem_of_lookup_2 in Hi. rewrite Hg in Hi.
    exfalso. apply burn_not_create. set_solver.
  - intros role Hrole. rewrite !holders_cons Hs //=. specialize (Hin role).
    destruct (decide (role ∈ delete i (Roles r))), (decide (role ∈ Roles r)); tauto.
  - rewrite holders_cons decide_False //=. rewrite Hin. tauto.
Qed.
Lemma creatorsTaken_taken rs rs' : creatorsTaken rs rs' → taken rs rs'.
Proof.
  intros [Ha He Hs Hn]. split; [by rewrite Ha|done|]. intros role _.
  destruct (decide (role = ESDTRoleNFTCreate)) as [->|Hr]; [rewrite Hn; apply sublist_nil_l|by rewrite Hs].
Qed.
Lemma rolesOk_stop m d rs : rolesOk m false d rs → holders ESDTRoleNFTCreate rs = [] → rolesOk m true d rs.
Proof. intros [] Hn. by split. Qed.
Lemma rolesOk_multi s d rs : rolesOk false s d rs → rolesOk true s d rs.
Proof.
  intros [H1 H2 H3 H4 H5 H6]. split; try done. intros _. specialize (H3 eq_refl).
  destruct (holders ESDTRoleNFTCreate rs) as [|a [|b l]]; simpl in *; [constructor|apply NoDup_singleton|lia].
Qed.

(** ** Dynamic types *)
Lemma roleCount_spec t role bound : wfToken bound t → (bound < 2 ^ 32)%Z →
  roleCount t role = Z.of_nat (length (holders role (SpecialRoles t))).
Proof.
  intros Hwf Hb. unfold roleCount.
  assert (length (List.filter (λ r, bool_decide (r = role)) (concat (map Roles (SpecialRoles t)))) =
          length (holders role (SpecialRoles t))) as ->.
  { pose proof (ro_entries _ _ _ _ (wt_roles _ _ Hwf)) as Hg. clear Hwf.
    induction (SpecialRoles t) as [|r rs IH]; [done|]. apply Forall_cons in Hg as [[Hnd _] Hg]. simpl.
    rewrite List.filter_app length_app IH // holders_cons. clear IH Hg.
    assert (length (List.filter (λ r, bool_decide (r = role)) (Roles r)) = if decide (role ∈ Roles r) then 1 else 0)
      as ->; [|by case_decide].
    induction (Roles r) as [|x l IH]; [done|]. apply NoDup_cons in Hnd as [Hn Hnd]. specialize (IH Hnd). simpl.
    case_bool_decide as Hx; simpl.
    - subst x. rewrite decide_True; [|by left]. rewrite IH decide_False //.
    - rewrite IH. destruct (decide (role ∈ l)); [rewrite decide_True; [done|by right]|].
      rewrite decide_False //. set_solver. }
  pose proof (holders_length role (SpecialRoles t)). pose proof (wt_length _ _ Hwf). unfold u32.
  rewrite Z.mod_small; lia.
Qed.
Lemma dynamic_prefix ty : isDynamicTokenType (Dynamic ++ ty) = true.
Proof.
  unfold isDynamicTokenType. rewrite length_app take_app_length bool_decide_true // andb_true_r.
  apply negb_true_iff, Nat.ltb_ge. lia.
Qed.
Lemma rolesOk_dynamic t bound :
  wfToken bound t → (bound < 2 ^ 32)%Z → checkRolesAreCompatibleToChangeToDynamic t = inr tt →
  rolesOk (CanCreateMultiShard t) (NFTCreateStopped t) true (SpecialRoles t).
Proof.
  intros Hwf Hb Hc. pose proof (wt_roles _ _ Hwf) as []. split; try done. intros _ role Hr.
  unfold checkRolesAreCompatibleToChangeToDynamic in Hc. case_match eqn:Hf; [done|].
  apply list_elem_of_In in Hr. pose proof (List.find_none _ _ Hf _ Hr) as Hn. simpl in Hn.
  rewrite (roleCount_spec t role bound) // in Hn. apply Z.ltb_ge in Hn. lia.
Qed.
End pure.
