(* ===== verification/EsdtRoleHandlers.v ===== *)
(** * EsdtRoleHandlers: the functions on roles keep all tokens well-formed

    Giving and taking roles, handing over and stopping the role to create NFTs,
    tokens that are issued with all their roles, and the change to dynamic tokens:
    each of them makes a [tokenStep] of a well-formed token. *)
From S2P Require Import Prelude Sums SystemEI StakingData Contract DelegationData EsdtData EsdtTokens.
From S2P Require Import EsdtRoles EsdtSC EsdtSpec EsdtHandlers.
#[local] Open Scope go_scope.

Section pure.
Context {EC : EsdtContract} {CC : CoreConstants} {CL : CoreLaws}.
Lemma wf_withRoles bound b t rs :
  wfToken bound t → length rs ≤ S (length (SpecialRoles t)) → (bound + 1 ≤ b)%Z →
  rolesOk (CanCreateMultiShard t) (NFTCreateStopped t) (isDynamicTokenType (TokenType t)) rs →
  wfToken b (withSpecialRoles rs t).
Proof. destruct t; simpl. intros [] Hl Hb Hr. split; simpl in *; try done. lia. Qed.
Lemma ownerStep_roles args t rs : OwnerAddress t = callerOf args → ownerStep args t (withSpecialRoles rs t).
Proof. destruct t; simpl. intros. split; simpl; auto. Qed.
(** the conditions under which roles can be given *)
Record mayGive (t : ESDTDataV2) (roles : list bytes) : Prop := {
  mg_create : ESDTRoleNFTCreate ∈ roles → NFTCreateStopped t = false ∧
    (CanCreateMultiShard t = false → holders ESDTRoleNFTCreate (SpecialRoles t) = []);
  mg_dynamic : isDynamicTokenType (TokenType t) = true → ∀ role,
    role ∈ rolesForDynamicWhichHasToBeSingular → role ∈ roles → holders role (SpecialRoles t) = [];
}.
Lemma exists_false t roles role :
  checkIfDefinedRoleExistsInArgsAndToken roles t role = false → role ∈ roles →
  holders role (SpecialRoles t) = [].
Proof.
  unfold checkIfDefinedRoleExistsInArgsAndToken.
  rewrite isDefinedRoleInArgs_spec checkIfDefinedRoleExistsInToken_spec. intros H Hr.
  rewrite bool_decide_true //= in H. by apply negb_false_iff, bool_decide_eq_true in H.
Qed.
Lemma allRoles_NoDup ty l : getAllRolesForTokenType ty = inr l → NoDup l.
Proof.
  pose proof roles_differ as Hd. unfold getAllRolesForTokenType.
  repeat apply NoDup_cons in Hd as [? Hd].
  repeat case_match; intros [= <-]; simpl; repeat (apply NoDup_cons; split); try apply NoDup_nil_2; set_solver.
Qed.
Lemma checkDuplicates_NoDup l : checkDuplicates l = inr tt → NoDup l.
Proof.
  unfold checkDuplicates. destruct (duplicatedArg ∅ l) eqn:Hd; [done|]. by intros _; apply duplicatedArg_spec in Hd as [? _].
Qed.
End pure.

Section handlers.
Context {E : Type} {EI : SystemEI E} {EIL : SystemEILaws E}.
Context {CH : ContractHost E} {CHL : ContractHostLaws E} {TE : TokenEI E}.
Context {EC : EsdtContract} {CC : CoreConstants} {CL : CoreLaws} {EL : EsdtLaws} {TL : TokenHostLaws E}.

Implicit Types (e : E) (t : ESDTDataV2).

(** ** Giving roles *)
Lemma run_fromSum {A X} (fr : X → E → Prop) (s : X + A) e Q :
  (∀ x, s = inl x → fr x e) → (∀ a, s = inr a → Q a e) → run fr (fromSum s) Q e.
Proof. destruct s; intros H1 H2; [by apply H1|by apply H2]. Qed.
Lemma run_checks {A} R (l : list A) (f : A → bool) msg c e (Q : unit → E → Prop) :
  c ≠ Ok → ((∀ x, x ∈ l → f x = false) → Q tt e) →
  run (exits R) (forEach l (λ x, returnIf (f x) (msg x) c)) Q e.
Proof.
  intros Hc. revert Q. induction l as [|x l IH]; intros Q HQ; simpl.
  - apply run_ret, HQ. set_solver.
  - apply run_bind, run_returnIf; [done|]. intros Hx. apply IH. intros Hl. apply HQ.
    intros y [->|Hy]%elem_of_cons; auto.
Qed.
Lemma run_appendRoles R K roles new e Q :
  Now K e → Stable K → NoDup roles → (∀ e', Now K e' → NoDup (roles ++ new) → Q (roles ++ new) e') →
  run (exits R) (appendRoles roles new) Q e.
Proof.
  intros HK HS. revert roles Q. unfold appendRoles. induction new as [|a new IH]; intros roles Q Hnd HQ; simpl.
  - apply run_ret. rewrite app_nil_r in HQ. by apply HQ.
  - apply run_bind. destruct (roleIndex roles a) eqn:Hi; [by repeat estep|]. apply run_ret.
    apply roleIndex_None in Hi. apply IH.
    + apply NoDup_app. split_and!; [done|set_solver|apply NoDup_singleton].
    + by rewrite -assoc.
Qed.
Lemma run_addRoles R K bound t a roles e Q :
  Now K e → Stable K → wfToken bound t → isAddress a → NoDup roles →
  (∀ rs e', Now K e' → given a roles (SpecialRoles t) rs → Q (withSpecialRoles rs t) e') →
  run (exits R) (addRolesForAddress t a roles) Q e.
Proof.
  intros HK HS Hwf Ha Hnd HQ. unfold addRolesForAddress. destruct (getRolesForAddress t a) as [[i r]|] eqn:Hg.
  - apply getRolesForAddress_Some in Hg as (pre & post & Hs & <- & Hr). estep.
    pose proof (wt_roles _ _ Hwf) as Hok. rewrite Hs in Hok. pose proof (entry_of_address _ _ _ _ _ _ Hok) as [Hndr _].
    eapply run_appendRoles; [done..|]. intros e' HK' Hall. estep. apply HQ; [done|]. rewrite Hs.
    rewrite insert_app_r_alt // Nat.sub_diag /=. by apply given_more.
  - apply getRolesForAddress_None in Hg. estep. apply HQ; [done|]. apply given_new; [done|]. split; [done|by left].
Qed.
Lemma setters_multi rs t : CanCreateMultiShard (withSpecialRoles rs t) = CanCreateMultiShard t.
Proof. by destruct t. Qed.
Lemma run_setRoles R K bound t a roles e Q :
  Now K e → Stable K → wfToken bound t → isAddress a → NoDup roles →
  (∀ rs p e', Now K e' → given a roles (SpecialRoles t) rs →
     wfToken (bound + 1) (withSpecialRoles rs t) → Q (withSpecialRoles rs t, p) e') →
  run (exits R) (setRolesForTokenAndAddress t a roles) Q e.
Proof.
  intros HK HS Hwf Ha Hnd HQ. unfold setRolesForTokenAndAddress. do 6 estep.
  rewrite stop_create isDefinedRoleInArgs_spec in H0. do 2 estep. apply run_fromSum; [done|]. intros _ _. estep.
  assert (∀ Q' : unit → E → Prop, (mayGive t roles → Q' tt e) → run (exits R) (checkRolesForDynamicTokens t roles) Q' e)
    as Hdyn.
  { intros Q' HQ'.
    assert (ESDTRoleNFTCreate ∈ roles → NFTCreateStopped t = false ∧
      (CanCreateMultiShard t = false → holders ESDTRoleNFTCreate (SpecialRoles t) = [])) as Hc.
    { intros Hin. rewrite bool_decide_true // andb_true_r /= in H0. split; [done|]. intros Hm.
      rewrite Hm /= in H1. by eapply exists_false. }
    unfold checkRolesForDynamicTokens. destruct (isDynamicTokenType _) eqn:Hd; cbn [negb].
    - apply (run_checks _ _ (λ role, checkIfDefinedRoleExistsInArgsAndToken roles t role)
        (λ role, (ofBytes role ++ " already exists")%string)); [done|]. intros Hs. apply HQ'. split; [done|]. intros _ role Hr Hin.
      eapply exists_false; [by apply Hs|done].
    - apply run_ret, HQ'. split; [done|by rewrite Hd]. }
  apply Hdyn. intros [Hc Hdy]. cbv zeta. estep. eapply run_addRoles; [done..|]. intros rs e1 HK1 Hgv.
  cbv zeta. rewrite setters_multi isDefinedRoleInArgs_spec. estep.
  assert ((CanCreateMultiShard t = true → ESDTRoleNFTCreate ∈ roles → NoDup (map last (holders ESDTRoleNFTCreate rs))) →
    rolesOk (CanCreateMultiShard t) (NFTCreateStopped t) (isDynamicTokenType (TokenType t)) rs) as Hok.
  { intros Hm. eapply rolesOk_given; [by eapply wt_roles|done| |done]. intros Hin. destruct (Hc Hin). auto. }
  destruct (CanCreateMultiShard t) eqn:Hm; simpl.
  - case_bool_decide as Hin.
    + estep. unfold checkCorrectAddressForNFTCreateMultiShard. estep. rewrite setters_owner.
      destruct (multiShardLoop_spec (X:=error) [] rs e1) as (r & Hr & Hrok).
      { intros b. apply creator_nonempty. eapply gv_entries; [done|]. eapply ro_entries. by eapply wt_roles. }
      unfold run at 1, wp. rewrite Hr. simpl. apply run_fromSum; [done|]. intros [] ->.
      estep. apply HQ; [done..|]. eapply wf_withRoles; [done|apply Hgv|lia|]. rewrite Hm. apply Hok. intros _ _.
      by apply Hrok.
    + repeat estep. apply HQ; [done..|]. eapply wf_withRoles; [done|apply Hgv|lia|]. rewrite Hm. by apply Hok.
  - repeat estep. apply HQ; [done..|]. eapply wf_withRoles; [done|apply Hgv|lia|]. rewrite Hm. by apply Hok.
Qed.
Lemma run_sendRoles {X} (fr : X → E → Prop) K id a roles p e (Q : unit → E → Prop) :
  Now K e → Stable K → (∀ e', Now K e' → Q tt e') → run fr (prepareAndSendRoleChangeData id a roles p) Q e.
Proof.
  intros HK HS HQ. unfold prepareAndSendRoleChangeData, sendNewTransferRoleAddressToSystemAccount. cbv zeta.
  repeat estep. destruct (_ && _); repeat estep; destruct (isDefinedRoleInArgs _ _); repeat estep; auto.
  all: destruct (negb _); repeat estep; auto.
Qed.

(** *** Deleting the role to create NFTs *)
Lemma run_deleteCreateRole R cur rs e Q :
  Forall goodEntry rs →
  (∀ rs', creatorsTaken rs rs' → (cur ≠ [] → ∀ a, a ∈ holders ESDTRoleNFTCreate rs → a = cur) →
     Q (rs', holders ESDTRoleNFTCreate rs) e) →
  run (exits R) (deleteCreateRole cur rs) Q e.
Proof.
  intros Hg. revert Q. induction Hg as [|r rs Hgr Hg IH]; intros Q HQ; simpl.
  - apply run_ret, HQ; [by split|]. intros _ a. set_solver.
  - unfold getRoleIndex. destruct (roleIndex (Roles r) ESDTRoleNFTCreate) as [i|] eqn:Hi.
    + pose proof (list_elem_of_lookup_2 _ _ _ (roleIndex_Some _ _ _ Hi)) as Hin.
      repeat estep. apply IH. intros rs' Ht Hcur. repeat estep.
      rewrite holders_cons decide_True // in HQ. apply HQ; [by apply creatorsTaken_delete|].
      intros Hne a [->|Ha]%elem_of_cons; [|auto]. destruct cur; [done|].
      by apply negb_false_iff, bool_decide_eq_true in H.
    + apply roleIndex_None in Hi. estep. apply IH. intros rs' Ht Hcur. repeat estep.
      rewrite holders_cons decide_False // in HQ. apply HQ; [|done]. by apply creatorsTaken_keep.
Qed.
(** a creator whose role is handed over is the only one *)
Lemma run_deleteNFTCreate R bound t cur e Q :
  wfToken bound t →
  (∀ rs, creatorsTaken (SpecialRoles t) rs → holders ESDTRoleNFTCreate (SpecialRoles t) ≠ [] →
     (cur ≠ [] → ∀ a, a ∈ holders ESDTRoleNFTCreate (SpecialRoles t) → a = cur) →
     Q (withSpecialRoles rs t, holders ESDTRoleNFTCreate (SpecialRoles t)) e) →
  run (exits R) (deleteNFTCreateRole t cur) Q e.
Proof.
  intros Hwf HQ. unfold deleteNFTCreateRole. estep. apply run_deleteCreateRole; [eapply ro_entries; by eapply wt_roles|].
  intros rs Ht Hcur. repeat estep. apply HQ; [done| |done]. intros Hn. by rewrite Hn in H.
Qed.

Context (bound : Z) (e0 : E) (HT : Tokens bound e0) (Hbound : (0 ≤ bound)%Z) (Hsmall : (bound + 2 < 2 ^ 32)%Z).
Context (args : ContractCallInput) (Hcaller : isAddress (callerOf args)).
Abbreviation b' := (bound + 2)%Z.
Abbreviation keeps := (changed b' args e0).

(** *** Tokens issued with all their roles *)
Lemma run_setAllRoles R id a t ty e (Q : unit → E → Prop) :
  Now (saved id t e0) e → isAddress a → wfToken (bound + 1) t →
  (∀ t' e', Now (saved id t' e0) e' → wfToken b' t' → OwnerAddress t' = OwnerAddress t → Q tt e') →
  run (exits R) (setAllRoles id a t ty) Q e.
Proof.
  intros HK Ha Hwf HQ. unfold setAllRoles. do 2 estep.
  apply run_fromSum; [done|]. intros roles Hroles%allRoles_NoDup. estep.
  eapply run_setRoles; [exact HK|exact _|exact Hwf|done..|]. intros rs p e1 HK1 _ Hwf1. repeat estep.
  eapply run_sendRoles; [exact HK1|exact _|]. intros e2 HK2.
  replace (bound + 1 + 1)%Z with b' in Hwf1 by lia.
  eapply run_saveOrReturn; [apply HK2|exact Hwf1|]. intros e3 HK3. eapply HQ; [done..|by destruct t].
Qed.
Lemma keeps_created id t e :
  Now (saved id t e0) e → id ≠ configKeyPrefix → cell id e0 = [] → wfToken b' t → OwnerAddress t = callerOf args →
  keeps e.
Proof. intros [HK] Hid Hn Hwf Ho. by eapply changed_created. Qed.
Lemma run_typeDecimals R (b : bool) a e Q :
  (∀ n, (0 ≤ n ≤ 18)%Z → Q n e) → run (exits R) (if b then decimalsOf a else ret 0%Z) Q e.
Proof. intros HQ. destruct b; [by apply run_decimals|]. apply run_ret, HQ. lia. Qed.
Lemma registerAndSetRoles_keeps : handled keeps (registerAndSetRoles args) e0.
Proof.
  pose proof (Now_start e0) as HK. unfold registerAndSetRoles. do 4 estep.
  eapply run_checkBasic; [done..|]. intros e1 HK1. do 4 estep.
  apply run_fromSum; [done|]. intros [isWithDecimals tokenType] _. cbv beta iota. estep.
  apply run_typeDecimals. intros n Hn. do 2 estep.
  eapply run_createNewToken; [done..|lia|done|]. intros id t e2 HK2 Hid Hn2 [Hwf Ho _ _ _]. cbv beta iota. estep.
  eapply run_setAllRoles; [done..|]. intros t' e3 HK3 Hwf' Ho'. repeat estep.
  eapply keeps_created; [done..|congruence].
Qed.
Lemma run_createDynamic R e (Q : bytes * ESDTDataV2 → E → Prop) :
  Now (keptOwn e0) e →
  (∀ id t e', Now (saved id t e0) e' → id ≠ configKeyPrefix → cell id e0 = [] → wfToken (bound + 1) t →
     OwnerAddress t = callerOf args → Q (id, t) e') →
  run (exits R) (createDynamicToken args) Q e.
Proof.
  intros HK HQ. unfold createDynamicToken. do 3 estep.
  eapply run_checkBasic; [done..|]. intros e1 HK1. do 4 estep.
  apply run_fromSum; [done|]. intros [isWithDecimals tokenType] _. cbv beta iota zeta. do 3 estep.
  apply (run_mono _ _ (λ n e', (0 ≤ n ≤ 18)%Z ∧ e' = e1)).
  { destruct isWithDecimals; [|by estep]. repeat estep. by apply run_decimals. }
  intros n _ [Hn ->]. do 2 estep.
  eapply run_createNewToken; [done..|lia|done|]. intros id t e2 HK2 Hid Hn2 [Hwf Ho _ _ _]. repeat estep.
  by apply HQ.
Qed.
Lemma registerDynamic_keeps : handled keeps (registerDynamic args) e0.
Proof.
  pose proof (Now_start e0) as HK. unfold registerDynamic. do 2 estep.
  eapply run_createDynamic; [done|]. intros id t e1 HK1 Hid Hn Hwf Ho. repeat estep.
  eapply keeps_created; [done..| |done]. eapply wfToken_mono; [done|lia].
Qed.
Lemma registerAndSetAllRolesDynamic_keeps : handled keeps (registerAndSetAllRolesDynamic args) e0.
Proof.
  pose proof (Now_start e0) as HK. unfold registerAndSetAllRolesDynamic. do 2 estep.
  eapply run_createDynamic; [done|]. intros id t e1 HK1 Hid Hn Hwf Ho. cbv beta iota. estep.
  eapply run_setAllRoles; [done..|]. intros t' e3 HK3 Hwf' Ho'. repeat estep.
  eapply keeps_created; [done..|congruence].
Qed.

(** ** Changing the roles of a token *)
Lemma keeps_changed t t' e :
  loaded (arg args 0) t e0 → Now (saved (arg args 0) t' e0) e → wfToken b' t' → ownerStep args t t' → keeps e.
Proof. intros Hst [HK] Hwf Hstep. eapply changed_saved; [done..|by apply tokenStep_owner|done]. Qed.
Lemma run_roleArguments R e (Q : unit → E → Prop) :
  Now (keptOwn e0) e →
  (NoDup (drop 2 (Arguments args)) → isAddress (arg args 1) → Q tt e) →
  run (exits R) (checkArgumentsForSpecialRoleChanges args) Q e.
Proof.
  intros HK HQ. unfold checkArgumentsForSpecialRoleChanges. repeat estep.
  apply run_fromSum; [done|]. intros [] Hd%checkDuplicates_NoDup.
  apply HQ; [done|]. apply negb_false_iff, Nat.eqb_eq in H0. unfold isAddress in *. lia.
Qed.
Lemma setSpecialRole_keeps : handled keeps (setSpecialRole args) e0.
Proof.
  pose proof (Now_start e0) as HK. unfold setSpecialRole. do 2 estep.
  eapply run_roleArguments; [done|]. intros Hnd Ha. estep.
  eapply run_ownership; [done..|]. intros t e1 HK1 Hst Hwf Ho. cbv zeta. estep.
  eapply run_setRoles; [exact HK1|exact _|done..|]. intros rs p e2 HK2 _ Hwf2. cbv beta iota. estep.
  eapply run_sendRoles; [exact HK2|exact _|]. intros e3 HK3. estep.
  eapply run_saveOrReturn; [by apply keptOwn_outside, HK3|done|]. intros e4 HK4. repeat estep.
  eapply keeps_changed; [done..| |by apply ownerStep_roles]. eapply wfToken_mono; [done|lia].
Qed.
Lemma run_removeRoles R K roles old e Q :
  Now K e → Stable K → NoDup roles →
  (∀ roles' e', Now K e' → NoDup roles' → (∀ r, r ∈ roles' → r ∈ roles) → Q roles' e') →
  run (exits R) (removeRoles roles old) Q e.
Proof.
  intros HK HS. revert roles Q. unfold removeRoles.
  induction old as [|a old IH]; intros roles Q Hnd HQ; simpl; [by apply run_ret, HQ|].
  apply run_bind. destruct (roleIndex roles a) as [i|] eqn:Hi; [|by repeat estep]. apply run_ret.
  destruct (delete_role _ _ _ Hnd Hi) as [Hnd' Hin]. apply IH; [done|].
  intros roles' e' HK' Hnd'' Hsub. apply HQ; [done..|]. intros r Hr. by apply Hin, Hsub.
Qed.
Lemma unSetSpecialRole_keeps : handled keeps (unSetSpecialRole args) e0.
Proof.
  pose proof (Now_start e0) as HK. unfold unSetSpecialRole. do 2 estep.
  eapply run_roleArguments; [done|]. intros Hnd Ha. estep.
  eapply run_ownership; [done..|]. intros t e1 HK1 Hst Hwf Ho. cbv zeta. do 2 estep.
  destruct (getRolesForAddress t (arg args 1)) as [[i r]|] eqn:Hg; [|by repeat estep].
  apply getRolesForAddress_Some in Hg as (pre & post & Hs & <- & Hr). estep.
  pose proof (wt_roles _ _ Hwf) as Hok. rewrite Hs in Hok. pose proof (entry_of_address _ _ _ _ _ _ Hok) as [Hndr _].
  eapply run_removeRoles; [exact HK1|exact _|done|]. intros roles e2 HK2 Hnd2 Hsub. repeat estep.
  set (rs := if length roles =? 0 then _ else _).
  assert (taken (SpecialRoles t) rs) as Htk.
  { unfold rs. rewrite Hs. destruct (length roles =? 0).
    - rewrite delete_middle. by apply taken_app, taken_drop.
    - rewrite insert_app_r_alt // Nat.sub_diag /=. apply taken_app, taken_update; [|done|done].
      intros _. split; [done|left]. by rewrite /= Hr. }
  rewrite -Hs in Hok.
  assert (wfToken b' (withSpecialRoles rs t)) as Hwf'.
  { eapply wf_withRoles; [done| |lia|by eapply rolesOk_taken]. pose proof (taken_length _ _ Htk). lia. }
  assert (∀ e', Now (keptOwn e0) e' → run (exits keeps)
    (saveOrReturn (arg args 0) (withSpecialRoles rs t)) (λ _, run (exits keeps) (ret Ok) (exits keeps)) e') as Hend.
  { intros e3 HK3. eapply run_saveOrReturn; [by apply keptOwn_outside, HK3|done|]. intros e4 HK4.
    repeat estep. eapply keeps_changed; [done..|by apply ownerStep_roles]. }
  unfold deleteTransferRoleAddressFromSystemAccount.
  destruct (isDefinedRoleInArgs _ ESDTRoleTransfer && _), (isDefinedRoleInArgs _ ESDTRoleTransfer),
    (negb (esdtFlag EsdtMetadataContinuousCleanupFlag)); repeat estep; by apply Hend.
Qed.

(** *** The role to create NFTs *)
Lemma wf_creatorsTaken t rs :
  wfToken bound t → creatorsTaken (SpecialRoles t) rs →
  rolesOk (CanCreateMultiShard t) (NFTCreateStopped t) (isDynamicTokenType (TokenType t)) rs ∧
  length rs = length (SpecialRoles t).
Proof.
  intros Hwf Ht. split; [eapply rolesOk_taken; [by eapply wt_roles|by apply creatorsTaken_taken]|].
  by rewrite -!(length_map RoleAddress) (ct_addresses _ _ Ht).
Qed.
Lemma address_last a : isAddress a → ∃ c, last a = Some c.
Proof.
  unfold isAddress. intros Ha. destruct (last a) as [c|] eqn:Hl; [by exists c|].
  apply last_None in Hl. by rewrite Hl in Ha.
Qed.
(** the next creator's entry *)
Definition withCreator t next : ESDTDataV2 :=
  match getRolesForAddress t next with
  | None => withSpecialRoles (SpecialRoles t ++ [mkRoles next [ESDTRoleNFTCreate]]) t
  | Some (i, r) => withSpecialRoles (<[i := withRoles (Roles r ++ [ESDTRoleNFTCreate]) r]> (SpecialRoles t)) t
  end.
Lemma next_creator t rs next :
  wfToken bound t → creatorsTaken (SpecialRoles t) rs → holders ESDTRoleNFTCreate (SpecialRoles t) ≠ [] →
  isAddress next →
  ∃ rs', withCreator (withSpecialRoles rs t) next = withSpecialRoles rs' t ∧ wfToken b' (withSpecialRoles rs' t).
Proof.
  intros Hwf Ht Hsome Ha. destruct (wf_creatorsTaken t rs Hwf Ht) as [Hok Hlen].
  assert (∃ rs', withCreator (withSpecialRoles rs t) next = withSpecialRoles rs' t ∧
    given next [ESDTRoleNFTCreate] rs rs') as (rs' & Hrs & Hgv).
  { unfold withCreator. destruct (getRolesForAddress _ next) as [[i r]|] eqn:Hg.
    - apply getRolesForAddress_Some in Hg as (pre & post & Hs & <- & Hr). rewrite setters_owner in Hs |- *.
      subst rs. eexists. split; [by destruct t|]. rewrite insert_app_r_alt // Nat.sub_diag /=.
      apply given_more; [done..|]. pose proof (entry_of_address _ _ _ _ _ _ Hok) as [Hndr _].
      apply NoDup_app. split_and!; [done| |apply NoDup_singleton]. intros x Hx ->%list_elem_of_singleton.
      pose proof (ct_none _ _ Ht) as Hn. rewrite holders_nil in Hn. eapply (Hn r); [set_solver|done].
    - apply getRolesForAddress_None in Hg. rewrite setters_owner in Hg |- *. eexists. split; [by destruct t|].
      apply given_new; [done|]. split; [apply NoDup_singleton|by left]. }
  exists rs'. split; [done|]. eapply wf_withRoles; [done|rewrite -Hlen; apply Hgv|lia|].
  eapply rolesOk_given; [done|done| |].
  - intros Hin. pose proof (wt_roles _ _ Hwf) as Hok0. split_and!.
    + destruct (NFTCreateStopped t) eqn:Hst; [|done]. by specialize (ro_stopped _ _ _ _ Hok0 eq_refl).
    + intros _. apply Ht.
    + intros _. rewrite (gv_new _ _ _ _ Hgv _ Hin (ct_none _ _ Ht)). apply NoDup_singleton.
  - intros _ role _ ->%list_elem_of_singleton. apply Ht.
Qed.
Lemma transferNFTCreateRole_keeps : handled keeps (transferNFTCreateRole args) e0.
Proof.
  pose proof (Now_start e0) as HK. unfold transferNFTCreateRole. do 2 estep.
  eapply run_roleArguments; [done|]. intros Hnd Ha. estep.
  eapply run_ownership; [done..|]. intros t e1 HK1 Hst Hwf Ho. do 8 estep.
  assert (isAddress (arg args 2)) as Ha2.
  { apply negb_false_iff, Nat.eqb_eq in H1. unfold isAddress in *. lia. }
  estep. eapply (run_mono _ _ (λ _ e, e = e1)).
  { destruct (CanCreateMultiShard t); [|by estep].
    destruct (address_last _ Ha) as [c1 ->], (address_last _ Ha2) as [c2 ->]. by estep. }
  intros _ _ ->. estep. eapply run_deleteNFTCreate; [done|]. intros rs Ht Hsome _. cbv beta iota zeta.
  fold (withCreator (withSpecialRoles rs t) (arg args 2)).
  destruct (next_creator t rs (arg args 2)) as (rs' & -> & Hwf'); [done..|]. estep.
  eapply run_saveOrReturn; [by apply keptOwn_outside, HK1|done|]. intros e2 HK2. repeat estep.
  eapply keeps_changed; [done..|by apply ownerStep_roles].
Qed.
Lemma stopNFTCreateForever_keeps : handled keeps (stopNFTCreateForever args) e0.
Proof.
  pose proof (Now_start e0) as HK. unfold stopNFTCreateForever. do 4 estep.
  eapply run_ownership; [done..|]. intros t e1 HK1 Hst Hwf Ho. do 5 estep.
  eapply run_deleteNFTCreate; [done|]. intros rs Ht Hsome _. cbv beta iota. estep.
  destruct (wf_creatorsTaken t rs Hwf Ht) as [Hok Hlen].
  assert (wfToken b' (withNFTCreateStopped true (withSpecialRoles rs t))) as Hwf'.
  { destruct t; simpl in *. destruct Hwf. split; simpl in *; try done; [lia|]. rewrite H0 in Hok.
    apply rolesOk_stop; [done|apply Ht]. }
  eapply run_saveOrReturn; [by apply keptOwn_outside, HK1|done|]. intros e2 HK2. estep.
  eapply (run_forEach _ (Now (saved (arg args 0) _ e0))); [exact HK2|intros; by repeat estep|].
  intros e3 HK3. repeat estep. eapply keeps_changed; [done..|]. destruct t; split; simpl in *; auto.
Qed.
Lemma changeToMultiShardCreate_keeps : handled keeps (changeToMultiShardCreate args) e0.
Proof.
  pose proof (Now_start e0) as HK. unfold changeToMultiShardCreate. do 4 estep.
  eapply run_ownership; [done..|]. intros t e1 HK1 Hst Hwf Ho. do 6 estep.
  apply run_fromSum; [done|]. intros a Ha. cbv zeta.
  assert (a ∈ holders ESDTRoleNFTCreate (SpecialRoles t)) as Hin.
  { unfold getFirstAddressWithGivenRole in Ha. destruct (List.find _ _) as [r|] eqn:Hf; [|done].
    injection Ha as <-. apply List.find_some in Hf as [Hr Hd]. apply list_elem_of_In, in_map, filter_In.
    by split. }
  apply creator_nonempty in Hin; [|eapply ro_entries; by eapply wt_roles].
  assert (wfToken b' (withCanCreateMultiShard true t)) as Hwf'.
  { destruct t; simpl in *. destruct Hwf. split; simpl in *; try done; [lia|]. simplify_eq. by apply rolesOk_multi. }
  destruct (last a) eqn:Hl; [|by apply last_None in Hl]. estep.
  eapply (run_mono _ _ (λ _, Now (keptOwn e0))); [case_match; by repeat estep|]. intros _ e2 HK2. estep.
  eapply run_saveOrReturn; [by apply keptOwn_outside, HK2|done|]. intros e3 HK3. repeat estep.
  eapply keeps_changed; [done..|]. destruct t; split; simpl in *; auto.
Qed.

(** *** The role to burn *)
Lemma run_burnForAll R e Q :
  Now (keptOwn e0) e →
  (∀ t e', Now (keptOwn e0) e' → loaded (arg args 0) t e0 → wfToken bound t →
     OwnerAddress t = callerOf args → Q t e') →
  run (exits R) (checkInputReturnDataBurnForAll args) Q e.
Proof. intros HK HQ. unfold checkInputReturnDataBurnForAll. repeat estep. by eapply run_ownership. Qed.
Lemma setBurnRoleGlobally_keeps : handled keeps (setBurnRoleGlobally args) e0.
Proof.
  pose proof (Now_start e0) as HK. unfold setBurnRoleGlobally. do 2 estep.
  eapply run_burnForAll; [done..|]. intros t e1 HK1 Hst Hwf Ho. do 3 estep.
  rewrite checkIfDefinedRoleExistsInToken_spec in H. apply negb_false_iff, bool_decide_eq_true in H.
  eapply run_burnRole; [done|exact _|]. intros t' e2 HK2 Ht'. estep.
  pose proof (wt_roles _ _ Hwf) as Hok.
  assert (∃ rs, t' = withSpecialRoles rs t ∧ length rs ≤ S (length (SpecialRoles t)) ∧
    rolesOk (CanCreateMultiShard t) (NFTCreateStopped t) (isDynamicTokenType (TokenType t)) rs)
    as (rs & -> & Hlen & Hok').
  { destruct Ht' as [->| ->]; [exists (SpecialRoles t); split_and!; [by destruct t|lia|done]|].
    assert (given [] [ESDTRoleBurnForAll] (SpecialRoles t) (SpecialRoles t ++ [mkRoles [] [ESDTRoleBurnForAll]]))
      as Hgv.
    { apply given_new; [|split; [apply NoDup_singleton|by right]]. intros Hin.
      apply list_elem_of_fmap in Hin as (r & Hr & Hin). rewrite holders_nil in H. apply (H r Hin).
      pose proof (ro_entries _ _ _ _ Hok) as Hg. rewrite Forall_forall in Hg.
      destruct (Hg r Hin) as [_ [Ha|[_ ->]]]; [by rewrite -Hr in Ha|by left]. }
    eexists. split_and!; [done|apply Hgv|]. eapply rolesOk_given; [done..| |].
    - intros Heq%list_elem_of_singleton. by destruct burn_not_create.
    - intros _ role Hr ->%list_elem_of_singleton. by destruct burn_not_singular. }
  assert (wfToken b' (withSpecialRoles rs t)) as Hwf' by by apply (wf_withRoles bound); [..|lia|].
  eapply run_saveOrReturn; [by apply keptOwn_outside, HK2|done|]. intros e3 HK3. repeat estep.
  eapply keeps_changed; [done..|by apply ownerStep_roles].
Qed.
Lemma unsetBurnRoleGlobally_keeps : handled keeps (unsetBurnRoleGlobally args) e0.
Proof.
  pose proof (Now_start e0) as HK. unfold unsetBurnRoleGlobally, saveTokenAndSendForAll. do 2 estep.
  eapply run_burnForAll; [done..|]. intros t e1 HK1 Hst Hwf Ho. cbv zeta. repeat estep.
  destruct (deleteRole_taken t) as (rs & -> & Htk).
  assert (wfToken b' (withSpecialRoles rs t)) as Hwf'.
  { eapply wf_withRoles; [done| |lia|]; [pose proof (taken_length _ _ Htk); lia|].
    eapply rolesOk_taken; [by eapply wt_roles|done]. }
  eapply run_saveOrReturn; [apply keptOwn_outside, H0|done|]. intros e3 HK3. repeat estep.
  eapply keeps_changed; [done..|by apply ownerStep_roles].
Qed.
Lemma sendAllTransferRoleAddresses_keeps : handled keeps (sendAllTransferRoleAddresses args) e0.
Proof.
  pose proof (Now_start e0) as HK. unfold sendAllTransferRoleAddresses. do 6 estep.
  eapply run_ownership; [done..|]. intros t e1 HK1 _ _ _. cbv zeta. repeat estep. by apply unchanged_keeps.
Qed.

(** *** Dynamic tokens *)
Lemma changeToDynamic_keeps : handled keeps (changeToDynamic args) e0.
Proof.
  pose proof (Now_start e0) as HK. unfold changeToDynamic. do 4 estep.
  eapply run_ownership; [done..|]. intros t e1 HK1 Hst Hwf Ho. do 6 estep.
  apply run_fromSum; [done|]. intros [] Hc. cbv zeta. estep.
  assert (wfToken b' (withTokenType (Dynamic ++ TokenType t) t)) as Hwf'.
  { pose proof (rolesOk_dynamic t bound Hwf ltac:(lia) Hc) as Hd. destruct t; simpl in *. destruct Hwf.
    split; simpl in *; try done; [lia|]. by rewrite dynamic_prefix. }
  eapply run_saveOrReturn; [by apply keptOwn_outside, HK1|done|]. intros e2 HK2. do 2 estep. estep.
  eapply run_sendType; [done|exact _|]. intros e3 HK3. repeat estep.
  eapply keeps_changed; [done..|]. destruct t; split; simpl in *; auto.
Qed.
End handlers.
