(* ===== verification/EsdtTheorems.v ===== *)
(** * EsdtTheorems: the properties of the ESDT contract

    The dispatcher, the states the contract reaches, the properties, and a
    concrete host on which they are applied. *)
From S2P Require Import Prelude Sums SystemEI StakingData Contract Concrete DelegationData DelegationConcrete.
From S2P Require Import EsdtData EsdtTokens EsdtRoles EsdtSC EsdtSpec EsdtHandlers EsdtRoleHandlers.
#[local] Open Scope go_scope.

Section reachable.
Context {E : Type} {EI : SystemEI E} {EIL : SystemEILaws E}.
Context {CH : ContractHost E} {CHL : ContractHostLaws E} {TE : TokenEI E}.
Context {EC : EsdtContract} {CC : CoreConstants} {CL : CoreLaws} {EL : EsdtLaws} {TL : TokenHostLaws E}.

Implicit Types (e : E) (t : ESDTDataV2).

(** ** The dispatcher *)
(** calls of other accounts; the configuration's maximal length of names does not
    become 0, and a claim is only called where the contract's own account has a
    balance, since [GetBalance] dereferences nil for an account without one *)
Record goodEsdtCall e (args : ContractCallInput) : Prop := {
  gc_call : goodCall (selfAddress e) args;
  gc_config : Function args = "configChange" → argUint32 (arg args 3) ≠ 0%Z;
  gc_claim : Function args = "claim" → is_Some (GetBalance (selfAddress e) e);
}.
Lemma save_config c e v (Q : unit → E → Prop) :
  configRange c → BaseIssuingCost c = Some v → MaxTokenNameLength c ≠ 0%Z →
  (∀ e', (∀ id, id ≠ configKeyPrefix → cell id e' = cell id e) → goodConfig (cell configKeyPrefix e') →
     selfAddress e' = selfAddress e → Q tt e') →
  run anyError (saveESDTConfig c) Q e.
Proof.
  intros Hr Hv Hm HQ. unfold saveESDTConfig.
  eapply (run_save (T:=ESDTConfig)); [done| |].
  { intros ->. done. }
  intros d Hd. apply HQ.
  - intros id Hid. unfold cell. by rewrite get_set_ne.
  - right. exists c, v. split; [|done]. unfold cell. by rewrite get_set_eq.
  - by rewrite set_self.
Qed.
Lemma run_catchError {A} R (m : M E error A) c Q e :
  c ≠ Ok → run anyError m Q e → run (exits R) (catch m (λ _, throw c)) Q e.
Proof.
  unfold run. intros Hc Hm. apply wp_catch. eapply wp_mono; [exact Hm|]. intros [a|x|] e'; [done|by intros _ ?|done].
Qed.
Section calls.
Context (bound : Z) (e0 : E) (HT : Tokens bound e0) (Hbound : (0 ≤ bound)%Z) (Hsmall : (bound + 2 < 2 ^ 32)%Z).
Context (args : ContractCallInput) (Hcall : goodEsdtCall e0 args).
Abbreviation keeps := (changed (bound + 2) args e0).
Lemma init_keeps : handled keeps (init args) e0.
Proof.
  unfold init. do 2 estep. apply run_catchError; [done|].
  eapply (save_config initialConfig e0 baseIssuingCost); [by split|done|done|]. intros e' Hc Hg Hs. estep. intros _. split; [|done|done]. intros id Hid. left. by apply Hc.
Qed.
Lemma dispatch_keeps f handle :
  dispatch f = Some handle → Function args = f → handled keeps (handle args) e0.
Proof.
  destruct Hcall as [[Hc Hne Hrec _] Hconf Hclaim]. unfold dispatch. cbv zeta. intros Hd Hf.
  apply fmap_Some in Hd as ([g h] & Hfind & ->). apply List.find_some in Hfind as [Hin Hg].
  simpl in *. apply bool_decide_eq_true in Hg. subst g f.
  repeat (destruct Hin as [Heq|Hin]; [injection Heq as Hname <-; symmetry in Hname|]); [..|done].
  all: try (first [apply issue_keeps|apply registerSemiFungible_keeps|apply registerNonFungible_keeps
    |apply registerMetaESDT_keeps|apply changeSFTToMetaESDT_keeps|apply registerAndSetRoles_keeps
    |apply burn_keeps|apply mint_keeps|apply toggleFreeze_keeps|apply wipe_keeps|apply togglePause_keeps
    |apply toggleFreezeSingleNFT_keeps|apply wipeSingleNFT_keeps]; by auto).
  all: try (first [apply controlChanges_keeps|apply transferOwnership_keeps|apply getTokenProperties_keeps
    |apply getSpecialRoles_keeps|apply setSpecialRole_keeps|apply unSetSpecialRole_keeps
    |apply transferNFTCreateRole_keeps|apply stopNFTCreateForever_keeps|apply getAllAddressesAndRoles_keeps
    |apply getContractConfig_keeps|apply changeToMultiShardCreate_keeps|apply setBurnRoleGlobally_keeps
    |apply unsetBurnRoleGlobally_keeps|apply sendAllTransferRoleAddresses_keeps|apply updateTokenID_keeps
    |apply registerDynamic_keeps|apply registerAndSetAllRolesDynamic_keeps|apply changeToDynamic_keeps]; by auto).
  - apply claim_keeps; auto.
  - apply configChange_keeps; auto.
Qed.
Lemma Execute_keeps : handled keeps (Execute (Some args)) e0.
Proof.
  unfold Execute. destruct (CheckIfNil _) as [x|args'] eqn:Hnil; [by repeat estep|].
  apply CheckIfNil_args in Hnil as ->. case_bool_decide; [apply init_keeps|]. repeat estep.
  destruct (dispatch (Function args)) as [handle|] eqn:Hd; [by eapply dispatch_keeps|].
  pose proof (Now_start e0) as HK. by repeat estep.
Qed.
End calls.

(** ** The states of the contract *)
(** calls that were answered [Ok]; between them nobody writes to the contract *)
Inductive calls : Z → E → E → Prop :=
  | calls_none e e' : keptOwn e e' → calls 0 e e'
  | calls_more k e e1 args e2 e3 :
      calls k e e1 → goodEsdtCall e1 args → answersOk (Execute (Some args)) e1 e2 → keptOwn e2 e3 →
      calls (k + 1) e e3.
Definition esdtReachable k e : Prop := ∃ e0, (∀ id, cell id e0 = []) ∧ calls k e0 e.

Lemma Tokens_kept bound e e' : Tokens bound e → keptOwn e e' → Tokens bound e'.
Proof.
  intros [Ht Hc] Hk. split; [|by rewrite (keptOwn_cell e)]. intros id Hid. unfold stored.
  rewrite (keptOwn_cell e _ _ Hk). by apply Ht.
Qed.
Lemma calls_nonneg k e e' : calls k e e' → (0 ≤ k)%Z.
Proof. induction 1; lia. Qed.
Lemma calls_Tokens bound k e e' :
  calls k e e' → Tokens bound e → (0 ≤ bound)%Z → (bound + 2 * k < 2 ^ 32)%Z → Tokens (bound + 2 * k) e'.
Proof.
  induction 1 as [e e' Hk|k e e1 args e2 e3 Hr IH Hcall Hans Hk]; intros HT Hb Hs.
  - rewrite Z.add_0_r. by eapply Tokens_kept.
  - pose proof (calls_nonneg _ _ _ Hr). specialize (IH HT Hb ltac:(lia)).
    pose proof (Execute_keeps (bound + 2 * k) e1 IH ltac:(lia) ltac:(lia) args Hcall) as Hh.
    apply (handled_answer _ _ _ _ Hh) in Hans. eapply Tokens_kept; [|exact Hk].
    eapply changed_Tokens; [exact IH| |]; last (by replace (bound + 2 * (k + 1))%Z with (bound + 2 * k + 2)%Z by lia).
    lia.
Qed.
Lemma reachable_Tokens k e : esdtReachable k e → (2 * k < 2 ^ 32)%Z → Tokens (2 * k) e.
Proof.
  intros (e0 & Hn & Hr) Hk. apply (calls_Tokens 0 k e0); [done| |lia..].
  split; [intros id _; by left|by left].
Qed.


(** C14: a call ([goodEsdtCall]) of the reachable ESDT contract never panics, and
    when it is answered [Ok] every stored token is as before, or was changed by
    its owner within its promises ([ownerStep]), or is a burnable token of which
    the call burnt a positive amount, or is an NFT whose type [updateTokenID] made
    the new one; a new token is stored under an unused identifier, and its owner
    is the caller.  A call of [claim] where the contract's own account has no
    balance is left out: there [GetBalance] dereferences nil. *)
Theorem esdt_call_safe k e args :
  esdtReachable k e → (2 * k + 2 < 2 ^ 32)%Z → goodEsdtCall e args →
  ∃ code e', answer (Execute (Some args) e).1 = Some code ∧ (Execute (Some args) e).2 = e' ∧
    (code = Ok → ∀ id, id ≠ configKeyPrefix →
       cell id e' = cell id e ∨
       (∃ t t', stored id t e ∧ stored id t' e' ∧ tokenStep args t t') ∨
       (cell id e = [] ∧ ∃ t', stored id t' e' ∧ OwnerAddress t' = callerOf args)).
Proof.
  intros Hr Hk Hcall. destruct Hr as (e0 & Hn & Hr). pose proof (calls_nonneg _ _ _ Hr).
  assert (Tokens (2 * k) e) as HT by (apply reachable_Tokens; [by exists e0|lia]).
  pose proof (Execute_keeps (2 * k) e HT ltac:(lia) ltac:(lia) args Hcall) as Hh.
  assert (∀ e', changed (2 * k + 2) args e e' → ∀ id, id ≠ configKeyPrefix → cell id e' = cell id e ∨
    (∃ t t', stored id t e ∧ stored id t' e' ∧ tokenStep args t t') ∨
    (cell id e = [] ∧ ∃ t', stored id t' e' ∧ OwnerAddress t' = callerOf args)) as Hch.
  { intros e' [Hc _ _] id Hid.
    destruct (Hc id Hid) as [?|[(t & t' & H1 & H2 & _ & H3)|(H1 & t' & H2 & _ & H3)]]; eauto 8. }
  unfold handled, run, wp, exits in Hh.
  destruct (Execute (Some args) e) as [[c|c|] e']; [..|done]; exists c, e'; auto.
Qed.

Lemma stored_unique id t t' e : stored id t e → stored id t' e → t = t'.
Proof. intros [_ H1] [_ H2]. specialize (H1 zeroToken). specialize (H2 zeroToken). congruence. Qed.


(** ** Identifiers *)
Lemma identifierLoop_spec {X} fuel prefix m e :
  let identifier i := prefix ++ hexPadded (m + Z.of_nat i) in
  (∃ i, i < fuel ∧ identifierLoop (X:=X) fuel prefix m e = (Ret (Some (identifier i)), e) ∧
     cell (identifier i) e = [] ∧ ∀ j, j < i → cell (identifier j) e ≠ []) ∨
  (identifierLoop (X:=X) fuel prefix m e = (Ret None, e) ∧ ∀ i, i < fuel → cell (identifier i) e ≠ []).
Proof.
  cbv zeta. revert m. induction fuel as [|fuel IH]; intros m; [right; split; [done|lia]|]. simpl.
  unfold bind, readStorage, gets. fold (cell (prefix ++ hexPadded m) e).
  destruct (cell (prefix ++ hexPadded m) e) as [|x d] eqn:Hc.
  - left. exists 0. rewrite Z.add_0_r. split_and!; [lia|done|done|lia].
  - assert (∀ i, (m + Z.of_nat (S i) = m + 1 + Z.of_nat i)%Z) as Hshift by lia.
    destruct (IH (m + 1)%Z) as [(i & Hi & Heq & He & Hb)|[Heq Hall]]; [left|right].
    + exists (S i). rewrite Hshift. split_and!; [lia|done|done|]. intros [|j] Hj; [by rewrite Z.add_0_r Hc|].
      rewrite Hshift. apply Hb. lia.
    + split; [done|]. intros [|i] Hi; [by rewrite Z.add_0_r Hc|]. rewrite Hshift. apply Hall. lia.
Qed.
(** C16: a new token's identifier is not in use: it is the ticker, a dash and the
    first of the 50 numbers from the hash of the caller and the random seed whose
    identifier is free, with at least six hexadecimal digits; the function fails
    only when all 50 are in use (or for the ticker EGLD), and changes nothing. *)
Theorem createNewTokenIdentifier_unused caller ticker e :
  let n := setBytes (take tickerRandomSequenceLength (Compute (caller ++ CurrentRandomSeed e))) in
  let identifier i := ticker ++ toBytes "-" ++ hexPadded (n + Z.of_nat i) in
  ∃ r, createNewTokenIdentifier caller ticker e = (r, e) ∧
    ((∃ i, i < 50 ∧ r = Ret (identifier i) ∧ cell (identifier i) e = [] ∧
        ∀ j, j < i → cell (identifier j) e ≠ []) ∨
     r = Throw ErrCouldNotCreateNewTokenIdentifier ∧
        (ticker = eGLD ∨ ∀ i, i < 50 → cell (identifier i) e ≠ [])).
Proof.
  cbv zeta. unfold createNewTokenIdentifier. destruct (_ && _) eqn:Hegld.
  { eexists. split; [done|]. right. split; [done|left].
    apply andb_true_iff in Hegld as [_ Ht]. by apply bool_decide_eq_true in Ht. }
  unfold bind, gets. rewrite (proj2 (Nat.ltb_ge _ _)); [|apply hash_length].
  set (n := setBytes _).
  destruct (identifierLoop_spec (X:=error) numOfRetriesForIdentifier (ticker ++ tickerSeparator) n e)
    as [(i & Hi & Hl & Hc & Hb)|[Hl Hall]]; rewrite Hl.
  - eexists. split; [done|]. left. exists i. rewrite -!app_assoc in Hc |- *. split_and!; [done..|].
    intros j Hj. specialize (Hb j Hj). by rewrite -app_assoc in Hb.
  - eexists. split; [done|]. right. split; [done|right]. intros i Hi. specialize (Hall i Hi).
    by rewrite -app_assoc in Hall.
Qed.

(** ** The role to create NFTs *)
(** The role to create NFTs of a token that is created on several shards can
    only be handed over while one address has it: with two or more creators,
    [transferNFTCreateRole] never answers [Ok], whichever of them is named,
    although it has a check of its own for such tokens. *)
Lemma transferNFTCreateRole_one_creator bound e args t :
  Tokens bound e → isAddress (callerOf args) → loaded (arg args 0) t e →
  CanCreateMultiShard t = true → 2 ≤ length (holders ESDTRoleNFTCreate (SpecialRoles t)) →
  handled (λ _, False) (transferNFTCreateRole args) e.
Proof.
  intros HT Hcaller [Hid Hst] Hm Hl. pose proof (Now_start e) as HK. unfold transferNFTCreateRole. do 2 estep.
  eapply (run_roleArguments e); [done..|]. intros _ Ha. estep.
  eapply run_ownership; [done..|]. intros t' e1 HK1 [_ Hst'] Hwf Ho.
  pose proof (stored_unique _ _ _ _ Hst Hst') as <-. do 8 estep. rewrite Hm.
  assert (isAddress (arg args 2)) as Ha2.
  { apply negb_false_iff, Nat.eqb_eq in H1. unfold isAddress in *. lia. }
  estep. eapply (run_mono _ _ (λ _ _, True)).
  { destruct (address_last _ Ha) as [c1 ->], (address_last _ Ha2) as [c2 ->]. by estep. }
  intros _ e2 _. estep. eapply run_deleteNFTCreate; [done|]. intros rs _ _ Hcur. exfalso.
  pose proof (ro_multi _ _ _ _ (wt_roles _ _ Hwf) Hm) as Hnd. apply NoDup_fmap_1 in Hnd.
  eapply NoDup_length_1 in Hnd; [|apply Hcur]; [lia|]. intros Hn. by rewrite Hn in Ha.
Qed.
End reachable.

(** ** A concrete host *)
Section concrete.
Definition encRole (r : ESDTRoles) : bytes := encFields (RoleAddress r :: Roles r).
Definition decRole (b : bytes) : ESDTRoles :=
  match decFields b [] with a :: l => mkRoles a l | [] => mkRoles [] [] end.
Lemma decRole_enc r : decRole (encRole r) = r.
Proof. unfold decRole, encRole. rewrite decFields_enc. by destruct r. Qed.
#[local] Instance token_fields : Fields ESDTDataV2.
Proof.
  refine {| fieldsOf t := [OwnerAddress t; TokenName t; TickerName t; TokenType t; encB (Mintable t);
      encB (Burnable t); encB (CanPause t); encB (CanFreeze t); encB (CanWipe t); encB (Upgradable t);
      encB (CanChangeOwner t); encB (IsPaused t); encOZ (MintedValue t); encOZ (BurntValue t);
      encZ (NumDecimals t); encB (CanAddSpecialRoles t); encB (NFTCreateStopped t);
      encB (CanTransferNFTCreateRole t); encFields (map encRole (SpecialRoles t)); encZ (NumWiped t);
      encB (CanCreateMultiShard t)];
    ofFields l := match l with
      | [ow; na; ti; ty; mi; bu; pa; fr; wi; up; co; ip; mv; bv; nd; ar; st; tr; sr; nw; ms] =>
        Some (mkToken ow na ti ty (decB mi) (decB bu) (decB pa) (decB fr) (decB wi) (decB up) (decB co)
          (decB ip) (decOZ mv) (decOZ bv) (decZ nd) (decB ar) (decB st) (decB tr)
          (map decRole (decFields sr [])) (decZ nw) (decB ms))
      | _ => None end |}; [|by intros []].
  intros []; simpl. rewrite !decB_enc !decOZ_enc !decZ_enc decFields_enc map_map.
  repeat f_equal. rewrite -{2}(map_id SpecialRoles). apply map_ext, decRole_enc.
Defined.
#[local] Instance esdtConfig_fields : Fields ESDTConfig.
Proof.
  refine {| fieldsOf c := [ConfigOwnerAddress c; encOZ (BaseIssuingCost c); encZ (MinTokenNameLength c);
      encZ (MaxTokenNameLength c)];
    ofFields l := match l with
      | [a; b; c; d] => Some (mkESDTConfig a (decOZ b) (decZ c) (decZ d)) | _ => None end |}; [|by intros []].
  intros []; simpl. by rewrite decOZ_enc !decZ_enc.
Defined.
Definition demoEsdt : bytes := replicate 32 x05.
#[local] Instance demoEsdtContract : EsdtContract := {|
  gasESDTIssue := 1;
  gasESDTOperations := 1;
  baseIssuingCost := 5;
  ownerAddress := demoOwner;
  esdtSCAddress := demoEsdt;
  endOfEpochSCAddress := replicate 32 x02;
  esdtFlag f := match f with EsdtEGLDInESDTMultiTransferFlag => false | _ => true end;
  esdt_hasher := {| Compute b := [x0a; x0b; x0c] |};
  EncodeAddress a := (hexString a, None);
  addressLength := 32;
  SilentEncode := hexString;
  token_marshaller := fieldsMarshaller;
  tokenV1_marshaller := opaqueMarshaller;
  esdtConfig_marshaller := fieldsMarshaller;
|}.
#[local] Instance demoConstants : CoreConstants := {|
  MaxLenForESDTIssueMint := 100;
  FungibleESDT := toBytes "FungibleESDT";
  NonFungibleESDT := toBytes "NonFungibleESDT";
  NonFungibleESDTv2 := toBytes "NonFungibleESDTv2";
  SemiFungibleESDT := toBytes "SemiFungibleESDT";
  MetaESDT := toBytes "MetaESDT";
  Dynamic := toBytes "Dynamic";
  DynamicNFTESDT := toBytes "DynamicNonFungibleESDT";
  DynamicSFTESDT := toBytes "DynamicSemiFungibleESDT";
  DynamicMetaESDT := toBytes "DynamicMetaESDT";
  ESDTRoleLocalMint := toBytes "ESDTRoleLocalMint";
  ESDTRoleLocalBurn := toBytes "ESDTRoleLocalBurn";
  ESDTRoleTransfer := toBytes "ESDTTransferRole";
  ESDTRoleNFTCreate := toBytes "ESDTRoleNFTCreate";
  ESDTRoleNFTCreateMultiShard := toBytes "ESDTRoleNFTCreateMultiShard";
  ESDTRoleNFTAddQuantity := toBytes "ESDTRoleNFTAddQuantity";
  ESDTRoleNFTBurn := toBytes "ESDTRoleNFTBurn";
  ESDTRoleNFTUpdateAttributes := toBytes "ESDTRoleNFTUpdateAttributes";
  ESDTRoleNFTAddURI := toBytes "ESDTRoleNFTAddURI";
  ESDTRoleSetNewURI := toBytes "ESDTRoleSetNewURI";
  ESDTRoleModifyCreator := toBytes "ESDTRoleModifyCreator";
  ESDTRoleModifyRoyalties := toBytes "ESDTRoleModifyRoyalties";
  ESDTRoleNFTRecreate := toBytes "ESDTRoleNFTRecreate";
  ESDTRoleNFTUpdate := toBytes "ESDTRoleNFTUpdate";
  ESDTRoleBurnForAll := toBytes "ESDTRoleBurnForAll";
  BuiltInFunctionESDTTransfer := "ESDTTransfer";
  BuiltInFunctionESDTBurn := "ESDTBurn";
  BuiltInFunctionESDTFreeze := "ESDTFreeze";
  BuiltInFunctionESDTUnFreeze := "ESDTUnFreeze";
  BuiltInFunctionESDTWipe := "ESDTWipe";
  BuiltInFunctionESDTPause := "ESDTPause";
  BuiltInFunctionESDTUnPause := "ESDTUnPause";
  BuiltInFunctionSetESDTRole := "ESDTSetRole";
  BuiltInFunctionUnSetESDTRole := "ESDTUnSetRole";
  BuiltInFunctionESDTSetLimitedTransfer := "ESDTSetLimitedTransfer";
  BuiltInFunctionESDTUnSetLimitedTransfer := "ESDTUnSetLimitedTransfer";
  BuiltInFunctionESDTNFTCreateRoleTransfer := "ESDTNFTCreateRoleTransfer";
  BuiltInFunctionESDTSetBurnRoleForAll := "ESDTSetBurnRoleForAll";
  BuiltInFunctionESDTUnSetBurnRoleForAll := "ESDTUnSetBurnRoleForAll";
  BuiltInFunctionESDTTransferRoleAddAddress := "ESDTTransferRoleAddAddress";
  BuiltInFunctionESDTTransferRoleDeleteAddress := "ESDTTransferRoleDeleteAddress";
  ESDTSetTokenType := "ESDTSetTokenType";
|}.
#[local] Instance demoCore_laws : CoreLaws.
Proof.
  split; [by apply (bool_decide_unpack _); vm_compute|].
  intros t Ht. repeat (apply elem_of_cons in Ht as [->|Ht]; [by vm_compute|]). by apply not_elem_of_nil in Ht.
Qed.
#[local] Instance esdtWorldEI : SystemEI World := worldEI honestValidator.
#[local] Instance esdtTokenEI : TokenEI World := {|
  CurrentRandomSeed _ := [];
  GetBalance _ w := Some (wBalance w);
  SendGlobalSettingToAll _ w := w;
|}.
#[local] Instance demoEsdt_laws : EsdtLaws.
Proof.
  split; try apply fieldsMarshaller_laws; [done|by intros b; apply Nat.leb_le|done|done|].
  intros c b [Hne Hc] _. specialize (Hc zeroESDTConfig). simpl in *.
  destruct (decFields b []) as [|f1 [|f2 [|f3 [|f4 [|f5 l]]]]]; simpl in Hc; try done. by eexists.
Qed.
#[local] Instance demoTokenHost_laws : TokenHostLaws World.
Proof.
  split.
  - intros d input w. eexists. split; [done|]. destruct w; simpl. split; [done|]. simpl. lia.
  - done.
  - intros g a [] e'. simpl. case_match; by intros [= <-].
Qed.

(** *** The life of a token *)
Definition esdtCall (caller : bytes) (f : string) (arguments : list bytes) (v : Z) : ContractCallInput := {|
  CallerAddr := Some caller; Arguments := arguments; CallValue := Some v; ESDTTransfers := 0;
  GasProvided := 0; RecipientAddr := Some demoEsdt; Function := f |}.
Definition deployEsdt : ContractCallInput := esdtCall demoOwner SCDeployInitFunctionName [] 0.
Definition issueCall : ContractCallInput :=
  esdtCall demoUser "issue" [toBytes "Gold"; toBytes "GLD"; [x64]; [x02]; toBytes "canMint"; toBytes "true"] 5.
Definition gold : bytes := toBytes "GLD-0a0b0c".
Definition mintCall : ContractCallInput := esdtCall demoUser "mint" [gold; [x07]] 0.
Definition nftCall : ContractCallInput :=
  esdtCall demoUser "issueNonFungible" [toBytes "Art"; toBytes "ART"; toBytes "canCreateMultiShard"; toBytes "true"] 5.
Definition art : bytes := toBytes "ART-0a0b0c".
Definition creatorCall (a : bytes) : ContractCallInput :=
  esdtCall demoUser "setSpecialRole" [art; a; toBytes "ESDTRoleNFTCreate"] 0.
Definition answered (args : ContractCallInput) (w : World) : World := (Execute (Some args) w).2.
Definition emptyEsdt : World := mkWorld (hookAt 0) demoEsdt ∅ ∅ 1000 1000 [] [] [] [].
Definition issuedWorld : World := answered issueCall (answered deployEsdt emptyEsdt).
Definition artWorld : World :=
  answered (creatorCall demoUser) (answered (creatorCall demoOwner) (answered nftCall (answered deployEsdt emptyEsdt))).
Definition tokenAt (id : bytes) (w : World) : ESDTDataV2 :=
  match Unmarshal zeroToken (cell id w) with inr t => t | inl _ => zeroToken end.

Example issued : tokenAt gold (answered mintCall issuedWorld) = mkToken demoUser (toBytes "Gold") (toBytes "GLD")
  FungibleESDT true false false false false true false false (Some 107%Z) (Some 0%Z) 2 true false false
  [mkRoles [] [ESDTRoleBurnForAll]] 0 false.
Proof. by vm_compute. Qed.

Lemma good_call a f l v w :
  isAddress a → a ≠ demoEsdt → wSelf w = demoEsdt → (0 ≤ v)%Z → f ≠ "configChange" →
  goodEsdtCall w (esdtCall a f l v).
Proof. intros Ha Hne Hw Hv Hf. split; [split; [exact Ha|by rewrite /= Hw|by rewrite /= Hw|by split]|done|by eexists]. Qed.
Lemma calls_answered k w args w' :
  calls k w w' → goodEsdtCall w' args → answer (Execute (Some args) w').1 = Some Ok →
  calls (k + 1) w (answered args w').
Proof. intros Hr Hc Ha. by eapply calls_more; [exact Hr|exact Hc|split; [exact Ha|done]|split]. Qed.
Lemma stored_tokenAt id w : bool_decide (cell id w = []) = false →
  Unmarshal zeroToken (cell id w) = inr (tokenAt id w) → stored id (tokenAt id w) w.
Proof. intros Hn Hu. split; [by apply bool_decide_eq_false in Hn|]. intros x. exact Hu. Qed.
Lemma deployed_calls : calls 1 emptyEsdt (answered deployEsdt emptyEsdt).
Proof.
  apply (calls_answered 0 emptyEsdt deployEsdt); [by apply calls_none|by apply good_call|by vm_compute].
Qed.
Lemma issued_calls : calls 2 emptyEsdt issuedWorld.
Proof. apply (calls_answered 1); [exact deployed_calls|by apply good_call|by vm_compute]. Qed.
Lemma art_calls : calls 4 emptyEsdt artWorld.
Proof.
  apply (calls_answered 3); [|by apply good_call|by vm_compute].
  apply (calls_answered 2); [|by apply good_call|by vm_compute].
  apply (calls_answered 1); [exact deployed_calls|by apply good_call|by vm_compute].
Qed.
Lemma from_empty k w : calls k emptyEsdt w → esdtReachable k w.
Proof. intros Hr. exists emptyEsdt. split; [|exact Hr]. intros id. unfold cell. simpl. by rewrite lookup_empty. Qed.
Lemma gold_stored : stored gold (tokenAt gold issuedWorld) issuedWorld.
Proof. apply stored_tokenAt; by vm_compute. Qed.
Lemma art_stored : stored art (tokenAt art artWorld) artWorld.
Proof. apply stored_tokenAt; by vm_compute. Qed.

Lemma esdt_call_safe_witness : ∃ code e', answer (Execute (Some mintCall) issuedWorld).1 = Some code ∧
  (Execute (Some mintCall) issuedWorld).2 = e' ∧ (code = Ok → cell gold e' ≠ []).
Proof.
  destruct (esdt_call_safe 2 issuedWorld mintCall (from_empty _ _ issued_calls) eq_refl
    (good_call demoUser "mint" [gold; [x07]] 0 issuedWorld ltac:(done) ltac:(done)
       eq_refl ltac:(done) ltac:(done))) as (code & e' & Hc & He & Hok).
  exists code, e'. split; [exact Hc|]. split; [exact He|]. intros H. destruct gold_stored as [Hne _].
  destruct (Hok H gold ltac:(done)) as [Heq|[(t & t' & _ & [Hn _] & _)|(Hn & _)]]; [by rewrite Heq|exact Hn|done].
Defined.
Lemma createNewTokenIdentifier_unused_witness : ∃ r,
  createNewTokenIdentifier demoUser (toBytes "GLD") issuedWorld = (r, issuedWorld) ∧
  r = Ret (toBytes "GLD-0a0b0d").
Proof.
  destruct (createNewTokenIdentifier_unused demoUser (toBytes "GLD") issuedWorld) as (r & Hr & _).
  exists r. split; [exact Hr|]. assert ((createNewTokenIdentifier demoUser (toBytes "GLD") issuedWorld).1 = r) as <-
    by by rewrite Hr. by vm_compute.
Defined.
Lemma transferNFTCreateRole_one_creator_witness :
  handled (λ _, False) (transferNFTCreateRole
    (esdtCall demoUser "transferNFTCreateRole" [art; demoUser; replicate 31 x01 ++ [xdd]] 0)) artWorld.
Proof.
  apply (transferNFTCreateRole_one_creator (2 * 4) artWorld _ (tokenAt art artWorld)).
  - apply reachable_Tokens; [exact (from_empty _ _ art_calls)|done].
  - done.
  - split; [done|exact art_stored].
  - by vm_compute.
  - apply Nat.leb_le. by vm_compute.
Defined.
End concrete.
