(* ===== verification/TrieNode.v ===== *)
(** * TrieNode: the nodes of the Patricia Merkle trie (src/trie/node.go)

    A node is what a [node] interface of the code points to; a nil child is
    [None].  Nodes are updated in place: a method is a computation whose state
    is its receiver, and a call on a child ([onChild]) leaves the changed child
    in its slot, also when it fails.  No node is referenced from two places, so
    nodes are values.  The marshaller and the hasher of a node never change and
    are parameters, as is the storage.  Slices that are only compared by length
    and content are bytes; the hash and the value of a leaf may be nil. *)
From S2P Require Import Prelude.
#[local] Set Warnings "-register-all".
#[local] Open Scope go_scope.

(** ** Data *)
Record CollapsedBn : Type := mkBn { EncodedChildren : list bytes; ChildrenVersion : bytes }.
Record CollapsedEn : Type := mkEn { enKey : bytes; EncodedChild : bytes; ChildVersion : Z }.
Record CollapsedLn : Type := mkLn { lnKey : bytes; lnValue : option bytes; lnVersion : Z }.
Record baseNode : Type := mkBase { hash : option bytes; dirty : bool }.

Inductive node : Type :=
  | branchNode (bn : CollapsedBn) (children : list (option node)) (base : baseNode)
  | extensionNode (en : CollapsedEn) (child : option node) (base : baseNode)
  | leafNode (ln : CollapsedLn) (base : baseNode).

(** core.TrieData *)
Record TrieData : Type := mkData { Key : bytes; Value : option bytes; Version : Z }.

(** what the trie uses of its environment: the storage of encoded nodes
    (common.TrieStorageInteractor), the marshaller, the hasher, the constant
    core.NotSpecified and the error of core.NewGetNodeFromDBErrWithKey *)
Class TrieEnvironment : Type := {
  Storage : Type;
  Get : bytes → Storage → error + bytes;
  Put : bytes → bytes → Storage → error + Storage;
  branch_marshaller :: Marshaller CollapsedBn;
  extension_marshaller :: Marshaller CollapsedEn;
  leaf_marshaller :: Marshaller CollapsedLn;
  trie_hasher :: Hasher;
  NotSpecified : Z;
  GetNodeFromDBErr : bytes → error → error;
}.

Definition ErrInvalidNode : error := "invalid node".
Definition ErrInvalidEncoding : error := "cannot decode this invalid encoding".
Definition ErrValueTooShort : error :=
  "cannot remove bytes from value because value is too short".
Definition ErrChildPosOutOfRange : error := "the position of the child is out of range".
Definition ErrNodeNotFound : error := "the node is not present in the trie".
Definition ErrEmptyBranchNode : error := "the branch node is empty".
Definition ErrEmptyExtensionNode : error := "the extension node is empty".
Definition ErrEmptyLeafNode : error := "the leaf node is empty".
Definition ErrNilNode : error := "the node is nil".
Definition ErrInvalidNodeVersion : error := "invalid node version provided".
Definition ErrInvalidLength : error := "invalid array length".

Definition nrOfChildren : nat := 17.
Definition hexTerminator : byte := x10.
(** the types of encoded nodes *)
Definition extension : byte := x00.
Definition leaf : byte := x01.
Definition branch : byte := x02.

(** ** Bytes as numbers *)
Definition byteZ (b : byte) : Z := Z.of_N (Byte.to_N b).
Definition toByte (z : Z) : byte := default x00 (Byte.of_N (Z.to_N (z mod 256))).
Definition index (b : byte) : nat := Z.to_nat (byteZ b).

(** the key is reversed, so the last nibble of the key comes first *)
Definition nibblesOf (b : byte) : bytes :=
  [toByte (Z.land (byteZ b) 15); toByte (Z.shiftr (byteZ b) 4)].
Definition keyBytesToHex (str : bytes) : bytes :=
  concat (nibblesOf <$> rev str) ++ [hexTerminator].

(** the inverse in keyBuilder.go: slicing off the terminator panics on nothing *)
Fixpoint pairNibbles (hex : bytes) : bytes :=
  match hex with
  | lo :: hi :: t =>
    pairNibbles t ++ [toByte (Z.lor (u8 (Z.shiftl (byteZ hi) 4)) (byteZ lo))]
  | _ => []
  end.
Definition hexToTrieKeyBytes (hex : bytes) : outcome error bytes :=
  match hex with
  | [] => Panic
  | _ =>
    let hex := take (length hex - 1) hex in
    if (length hex mod 2 =? 0)%nat then Ret (pairNibbles hex) else Throw ErrInvalidLength
  end.

Fixpoint prefixLen (a b : bytes) : nat :=
  match a, b with
  | x :: a', y :: b' => if bool_decide (x = y) then S (prefixLen a' b') else O
  | _, _ => O
  end.

Definition childPosOutOfRange (pos : byte) : bool := (Z.of_nat nrOfChildren <=? byteZ pos)%Z.

(** ** Fields *)
Definition baseOf (n : node) : baseNode :=
  match n with branchNode _ _ b | extensionNode _ _ b | leafNode _ b => b end.
Definition withBase (n : node) (b : baseNode) : node :=
  match n with
  | branchNode bn children _ => branchNode bn children b
  | extensionNode en child _ => extensionNode en child b
  | leafNode ln _ => leafNode ln b
  end.
Definition getHash (n : node) : option bytes := hash (baseOf n).
Definition isDirty (n : node) : bool := dirty (baseOf n).
Definition setGivenHash (h : bytes) (n : node) : node := withBase n (mkBase (Some h) (isDirty n)).
Definition setDirty (d : bool) (n : node) : node := withBase n (mkBase (getHash n) d).
Definition fresh : baseNode := mkBase None true.

(** a child by its position; an extension has one *)
Definition childAt (n : node) (pos : nat) : option node :=
  match n with
  | branchNode _ children _ => mjoin (children !! pos)
  | extensionNode _ child _ => child
  | leafNode _ _ => None
  end.
Definition setChild (pos : nat) (c : option node) (n : node) : node :=
  match n with
  | branchNode bn children b => branchNode bn (<[pos := c]> children) b
  | extensionNode en _ b => extensionNode en c b
  | leafNode _ _ => n
  end.

Definition wrapO {A} (prefix : string) (o : outcome error A) : outcome error A :=
  match o with Throw err => Throw (prefix ++ err)%string | _ => o end.

(** a method call on the child at a position, nil children panic *)
Definition onChild {X A} (pos : nat) (m : M node X A) : M node X A := λ n,
  match childAt n pos with
  | Some c => let '(r, c') := m c in (r, setChild pos (Some c') n)
  | None => (Panic, n)
  end.

(** ** Emptiness and versions *)

(** is there a child at the position, in memory or as a hash?  Indexing
    [EncodedChildren] out of range panics. *)
Definition hasChild (bn : CollapsedBn) (children : list (option node)) (i : nat) :
    outcome error bool :=
  match children !! i with
  | Some (Some _) => Ret true
  | Some None => let? e := at_index (EncodedChildren bn) i in Ret (negb (length e =? 0)%nat)
  | None => Panic
  end.

Fixpoint bn_isEmptyLoop (bn : CollapsedBn) (children : list (option node)) (range : list nat) :
    outcome error unit :=
  match range with
  | [] => Throw ErrEmptyBranchNode
  | i :: range =>
    let? present := hasChild bn children i in
    if (present : bool) then Ret tt else bn_isEmptyLoop bn children range
  end.

Definition isEmptyOrNil (n : node) : outcome error unit :=
  match n with
  | branchNode bn children _ => bn_isEmptyLoop bn children (seq 0 nrOfChildren)
  | extensionNode en child _ =>
    match child, EncodedChild en with
    | None, [] => Throw ErrEmptyExtensionNode
    | _, _ => Ret tt
    end
  | leafNode ln _ => match lnValue ln with None => Throw ErrEmptyLeafNode | Some _ => Ret tt end
  end.

(** [err := n.isEmptyOrNil(); if err != nil { return fmt.Errorf(prefix + "%w", err) }] *)
Definition checkNode (prefix : string) : M node error unit :=
  λ n, (wrapO prefix (isEmptyOrNil n), n).

Definition isCollapsed (n : node) : bool :=
  match n with
  | branchNode _ children _ => forallb (λ c, bool_decide (c = None)) children
  | extensionNode en child _ =>
    match child, EncodedChild en with None, _ :: _ => true | _, _ => false end
  | leafNode _ _ => false
  end.
Definition isPosCollapsed (n : node) (pos : nat) : outcome error bool :=
  match n with
  | branchNode bn children _ =>
    let? child := at_index children pos in
    match child with None => hasChild bn children pos | Some _ => Ret false end
  | _ => Ret (isCollapsed n)
  end.

Definition maxUint8 : Z := 255.

(** the version of the first child, and the positions after it *)
Fixpoint firstVersion (bn : CollapsedBn) (children : list (option node)) (range : list nat) :
    outcome error (byte * list nat) :=
  match range with
  | [] => Ret (x00, [])
  | i :: range =>
    let? present := hasChild bn children i in
    if (present : bool) then let? v := at_index (ChildrenVersion bn) i in Ret (v, range)
    else firstVersion bn children range
  end.

Section node.
Context {TE : TrieEnvironment}.

Fixpoint sameVersion (bn : CollapsedBn) (children : list (option node)) (nodeVersion : byte)
    (range : list nat) : outcome error Z :=
  match range with
  | [] => Ret (byteZ nodeVersion)
  | i :: range =>
    let? present := hasChild bn children i in
    if (present : bool) then
      let? v := at_index (ChildrenVersion bn) i in
      if bool_decide (v = nodeVersion) then sameVersion bn children nodeVersion range
      else Ret NotSpecified
    else sameVersion bn children nodeVersion range
  end.

Definition getVersion (n : node) : outcome error Z :=
  match n with
  | branchNode bn children _ =>
    if (length (ChildrenVersion bn) =? 0)%nat then Ret NotSpecified
    else
      let? ' (nodeVersion, range) := firstVersion bn children (seq 0 nrOfChildren) in
      sameVersion bn children nodeVersion range
  | extensionNode en _ _ =>
    if (maxUint8 <? ChildVersion en)%Z then Throw ErrInvalidNodeVersion
    else Ret (u8 (ChildVersion en))
  | leafNode ln _ =>
    if (maxUint8 <? lnVersion ln)%Z then Throw ErrInvalidNodeVersion else Ret (u8 (lnVersion ln))
  end.

Definition revertChildrenVersionSliceIfNeeded (versions : bytes) : bytes :=
  if forallb (λ v, bool_decide (v = toByte NotSpecified)) versions then [] else versions.

(** assigning out of range panics *)
Definition setVersionForChild (version : Z) (childPos : nat) (bn : CollapsedBn) :
    outcome error CollapsedBn :=
  let sliceNotInitialized := (length (ChildrenVersion bn) =? 0)%nat in
  if (version =? NotSpecified)%Z && sliceNotInitialized then Ret bn
  else
    let versions := if sliceNotInitialized then replicate nrOfChildren x00 else ChildrenVersion bn in
    if (length versions <=? childPos)%nat then Panic
    else
      let versions := <[childPos := toByte version]> versions in
      Ret (mkBn (EncodedChildren bn)
        (if (version =? NotSpecified)%Z then revertChildrenVersionSliceIfNeeded versions
         else versions)).

(** ** New nodes *)
Definition newLeafNode (newData : TrieData) : node :=
  leafNode (mkLn (Key newData) (Value newData) (u32 (Version newData))) fresh.
Definition newExtensionNode (key : bytes) (child : option node) : outcome error node :=
  match child with
  | None => Throw ErrNilNode
  | Some c =>
    let? childVersion := getVersion c in
    Ret (extensionNode (mkEn key [] (u32 childVersion)) child fresh)
  end.
Definition newBranchNode : node :=
  branchNode (mkBn (replicate nrOfChildren []) []) (replicate nrOfChildren None) fresh.

(** ** Encoding and hashing *)
Definition marshalNode (n : node) : error + bytes :=
  match n with
  | branchNode bn _ _ => Marshal bn
  | extensionNode en _ _ => Marshal en
  | leafNode ln _ => Marshal ln
  end.
Definition nodeType (n : node) : byte :=
  match n with branchNode _ _ _ => branch | extensionNode _ _ _ => extension | leafNode _ _ => leaf end.
Definition getEncodedNode (n : node) : outcome error bytes :=
  let? _ := wrapO "getEncodedNode error " (isEmptyOrNil n) in
  let? marshaledNode := ofSum (marshalNode n) in
  Ret (marshaledNode ++ [nodeType n]).
Definition encodeNodeAndGetHash (n : node) : outcome error bytes :=
  let? encNode := getEncodedNode n in Ret (Compute encNode).

(** the children's hashes; the ones already assigned stay on an error *)
Fixpoint hashEncoded (children : list (option node)) (encoded : list bytes) :
    outcome error unit * list bytes :=
  match encoded, children with
  | [], _ => (Ret tt, [])
  | _ :: _, [] => (Panic, encoded)
  | e :: encoded', None :: children =>
    let '(r, encoded') := hashEncoded children encoded' in (r, e :: encoded')
  | e :: encoded', Some c :: children =>
    match encodeNodeAndGetHash c with
    | Ret encChild =>
      let '(r, encoded') := hashEncoded children encoded' in (r, encChild :: encoded')
    | Throw err => (Throw err, encoded)
    | Panic => (Panic, encoded)
    end
  end.
Definition encodeChildren : M node error unit := λ n,
  match n with
  | branchNode bn children b =>
    let '(r, encoded) := hashEncoded children (EncodedChildren bn) in
    (r, branchNode (mkBn encoded (ChildrenVersion bn)) children b)
  | extensionNode en (Some c) b =>
    match encodeNodeAndGetHash c with
    | Ret encChild => (Ret tt, extensionNode (mkEn (enKey en) encChild (ChildVersion en)) (Some c) b)
    | Throw err => (Throw err, n)
    | Panic => (Panic, n)
    end
  | _ => (Ret tt, n)
  end.
Definition hashNode : M node error bytes :=
  checkNode "hashNode error " ;;;
  encodeChildren ;;;
  let! n := gets id in liftO (encodeNodeAndGetHash n).

(** runs a method on every child in memory, in order, until one fails *)
Definition eachChild {D} (f : node → D → outcome error unit * (node * D)) :
    list (option node) → D → outcome error unit * (list (option node) * D) :=
  fix go children d :=
    match children with
    | [] => (Ret tt, ([], d))
    | None :: children => let '(r, (children, d)) := go children d in (r, (None :: children, d))
    | Some c :: children =>
      match f c d with
      | (Ret _, (c, d)) =>
        let '(r, (children, d)) := go children d in (r, (Some c :: children, d))
      | (r, (c, d)) => (r, (Some c :: children, d))
      end
    end.
(** the same for both kinds of inner nodes *)
Definition overChildren {D} (f : node → D → outcome error unit * (node * D)) (n : node) (d : D) :
    outcome error unit * (node * D) :=
  match n with
  | branchNode bn children b =>
    let '(r, (children, d)) := eachChild f children d in (r, (branchNode bn children b, d))
  | extensionNode en (Some c) b =>
    let '(r, (c, d)) := f c d in (r, (extensionNode en (Some c) b, d))
  | _ => (Ret tt, (n, d))
  end.
Definition withoutState (f : node → outcome error unit * node) (n : node) (u : unit) :
    outcome error unit * (node * unit) := let '(r, n) := f n in (r, (n, u)).

(** [setHash] and [setHashConcurrent], given what [setHash] does to the children *)
Definition setHashBody (prefix : string) (setChildrenHashes : outcome error unit * node) :
    M node error unit :=
  checkNode prefix ;;;
  let! n := gets id in
  match getHash n with
  | Some _ => ret tt
  | None =>
    let! h :=
      if isCollapsed n then liftO (encodeNodeAndGetHash n)
      else
        (checkNode "hashChildren error " ;;; λ _, setChildrenHashes) ;;;
        hashNode in
    modify (setGivenHash h)
  end.

Fixpoint setHash (n : node) : outcome error unit * node :=
  setHashBody "setHash error "
    (let '(r, (n, _)) := overChildren (λ c u, let '(r, c) := setHash c in (r, (c, u))) n tt in (r, n))
    n.
Definition setChildrenHashes (n : node) : outcome error unit * node :=
  let '(r, (n, _)) := overChildren (withoutState setHash) n tt in (r, n).
Definition setHashConcurrent (n : node) : outcome error unit * node :=
  match n with
  | branchNode _ _ _ => setHashBody "setHashConcurrent error " (setChildrenHashes n) n
  | _ => setHash n
  end.

(** the children of the root are hashed concurrently: all of them are, and one
    of their errors is returned, here that of the first child *)
Fixpoint hashConcurrently (children : list (option node)) : outcome error unit * list (option node) :=
  match children with
  | [] => (Ret tt, [])
  | None :: children => let '(r, children) := hashConcurrently children in (r, None :: children)
  | Some c :: children =>
    let '(r1, c) := setHashConcurrent c in
    let '(r2, children) := hashConcurrently children in
    (match r1, r2 with Panic, _ | _, Panic => Panic | Ret _, _ => r2 | _, _ => r1 end,
     Some c :: children)
  end.
Definition setRootHash : M node error unit := λ n,
  match n with
  | branchNode _ _ _ =>
    (checkNode "setRootHash error " ;;;
     let! n := gets id in
     match getHash n with
     | Some _ => ret tt
     | None =>
       let! h :=
         if isCollapsed n then liftO (encodeNodeAndGetHash n)
         else
           (λ n, match n with
                 | branchNode bn children b =>
                   let '(r, children) := hashConcurrently children in (r, branchNode bn children b)
                 | _ => (Ret tt, n)
                 end) ;;;
           hashNode in
       modify (setGivenHash h)
     end) n
  | _ => setHash n
  end.

(** ** Collapsing *)
Definition hasValidHash (n : node) : outcome error bool :=
  let? _ := isEmptyOrNil n in
  Ret (match getHash n with Some _ => negb (isDirty n) | None => false end).
(** [child.setHash()] unless it has a valid hash *)
Definition ensureHash (c : node) : outcome error unit * node :=
  match hasValidHash c with
  | Ret true => (Ret tt, c)
  | Ret false => setHash c
  | Throw err => (Throw err, c)
  | Panic => (Panic, c)
  end.
Definition hashBytes (c : node) : bytes := orEmpty (getHash c).

(** the children's hashes are written to the array that the clone shares with
    the node: the hashes of both *)
Fixpoint collapseChildren (children : list (option node)) (encoded : list bytes) :
    outcome error unit * (list (option node) * list bytes) :=
  match children with
  | [] => (Ret tt, ([], encoded))
  | None :: children =>
    let '(r, (children, encoded')) := collapseChildren children (tail encoded) in
    (r, (None :: children, take 1 encoded ++ encoded'))
  | Some c :: children =>
    match ensureHash c with
    | (Ret _, c) =>
      match encoded with
      | [] => (Panic, (Some c :: children, encoded))
      | _ :: encoded =>
        let '(r, (children, encoded)) := collapseChildren children encoded in
        (r, (Some c :: children, hashBytes c :: encoded))
      end
    | (r, c) => (r, (Some c :: children, encoded))
    end
  end.

(** returns the collapsed node and leaves the receiver, with its children hashed *)
Definition getCollapsed : M node error node := λ n,
  match n with
  | leafNode _ _ => (Ret n, n)
  | _ =>
    (checkNode "getCollapsed error " ;;;
     if isCollapsed n then ret n
     else
       λ n, match n with
            | branchNode bn children b =>
              let '(r, (children', encoded)) := collapseChildren children (EncodedChildren bn) in
              let bn' := mkBn encoded (ChildrenVersion bn) in
              (let? _ := r in Ret (branchNode bn' (replicate (length children) None) b),
               branchNode bn' children' b)
            | extensionNode en (Some c) b =>
              let '(r, c) := ensureHash c in
              (let? _ := r in Ret (extensionNode (mkEn (enKey en) (hashBytes c) (ChildVersion en)) None b),
               extensionNode en (Some c) b)
            | _ => (Ret n, n)
            end) n
  end.

(** ** Storage *)
Definition decodeNode (encNode : bytes) : outcome error node :=
  match last encNode with
  | None => Throw ErrInvalidEncoding
  | Some nodeType =>
    let encNode := take (length encNode - 1) encNode in
    let base := mkBase None false in
    if bool_decide (nodeType = extension) then
      let? en := ofSum (Unmarshal (mkEn [] [] 0) encNode) in Ret (extensionNode en None base)
    else if bool_decide (nodeType = leaf) then
      let? ln := ofSum (Unmarshal (mkLn [] None 0) encNode) in Ret (leafNode ln base)
    else if bool_decide (nodeType = branch) then
      let? bn := ofSum (Unmarshal (mkBn [] []) encNode) in
      Ret (branchNode bn (replicate nrOfChildren None) base)
    else Throw ErrInvalidNode
  end.
Definition getNodeFromDBAndDecode (n : bytes) (db : Storage) : outcome error node :=
  match Get n db with
  | inl err => Throw (GetNodeFromDBErr n err)
  | inr encChild => decodeNode encChild
  end.

Definition resolveCollapsed (pos : nat) (db : Storage) : M node error unit :=
  let! n := gets id in
  match n with
  | branchNode bn _ _ =>
    checkNode "resolveCollapsed error " ;;;
    if (nrOfChildren <=? pos)%nat then throw ErrChildPosOutOfRange
    else
      let! enc := liftO (at_index (EncodedChildren bn) pos) in
      if (length enc =? 0)%nat then ret tt
      else
        let! child := liftO (getNodeFromDBAndDecode enc db) in
        modify (setChild pos (Some (setGivenHash enc child)))
  | extensionNode en _ _ =>
    checkNode "resolveCollapsed error " ;;;
    let! child := liftO (getNodeFromDBAndDecode (EncodedChild en) db) in
    modify (setChild 0 (Some (setGivenHash (EncodedChild en) child)))
  | leafNode _ _ => ret tt
  end.
Definition resolveIfCollapsed (pos : nat) (db : Storage) : M node error unit :=
  checkNode "" ;;;
  let! n := gets id in
  let! collapsed := liftO (isPosCollapsed n pos) in
  if (collapsed : bool) then resolveCollapsed pos db else ret tt.

(** ** Committing

    The state is the receiver and the storage. *)
Definition onNode {W A} (m : M node error A) : M (node * W) error A := λ '(n, w),
  let '(r, n) := m n in (r, (n, w)).

Definition computeAndSetNodeHash : M node error bytes :=
  let! n := gets id in
  match getHash n with
  | Some (x :: key) => ret (x :: key)
  | _ => setHash ;;; let! n := gets id in ret (hashBytes n)
  end.
Definition collapseAndEncodeNode : M node error bytes :=
  let! n := getCollapsed in liftO (getEncodedNode n).
Definition encodeNodeAndCommitToDB : M (node * Storage) error Z :=
  let! key := onNode computeAndSetNodeHash in
  let! val := onNode collapseAndEncodeNode in
  let! db := gets snd in
  let! db := fromSum (Put key val db) in
  modify (λ '(n, _), (n, db)) ;;;
  ret (Z.of_nat (length val)).

Definition commitBody (level maxTrieLevelInMemory : Z)
    (commitChildren : Storage → outcome error unit * (node * Storage)) :
    M (node * Storage) error unit :=
  onNode (checkNode "commit error ") ;;;
  let! n := gets fst in
  if negb (isDirty n) then ret tt
  else
    (λ '(_, db), commitChildren db) ;;;
    modify (λ '(n, db), (setDirty false n, db)) ;;;
    encodeNodeAndCommitToDB ;;;
    match n with
    | leafNode _ _ => ret tt
    | _ =>
      if (level =? maxTrieLevelInMemory)%Z then
        let! collapsed := onNode getCollapsed in modify (λ '(_, db), (collapsed, db))
      else ret tt
    end.

(** the level is a byte *)
Fixpoint commitDirty (maxTrieLevelInMemory : Z) (n : node) (level : Z) (db : Storage) :
    outcome error unit * (node * Storage) :=
  let level := u8 (level + 1) in
  commitBody level maxTrieLevelInMemory
    (λ db, overChildren (λ c db, commitDirty maxTrieLevelInMemory c level db) n db) (n, db).
End node.
