(* ===== verification/TrieOps.v ===== *)
(** * TrieOps: reading and changing the trie (leafNode.go, extensionNode.go, branchNode.go)

    The methods of the three kinds of nodes, named after the kind ([ln_],
    [en_], [bn_]); [node_tryGet], [node_insert], [node_delete] and
    [node_getProof] dispatch on it as the interface does.  A method whose
    recursion goes through a child takes the recursive call as an argument.
    Every step down consumes a part of the key, unless an extension has an
    empty key: the recursion is fuelled by the length of the key, and running
    out of fuel, which takes such an extension, is a [Panic]. *)
From S2P Require Import Prelude TrieNode.
#[local] Open Scope go_scope.

Section operations.
Context {TE : TrieEnvironment}.

(** [key[firstByte]] and [key[1:]], if the key is not empty *)
Definition firstByte (key : bytes) : option (byte * bytes) :=
  match key with [] => None | x :: key => Some (x, key) end.

(** ** tryGet *)

(** errors come with the depth they occurred at *)
Definition withDepth {A} (depth : Z) (m : M node error A) : M node (error * Z) A :=
  catch m (λ err, throw (err, depth)).

Definition ln_tryGet (key : bytes) (currentDepth : Z) (ln : CollapsedLn) :
    M node (error * Z) (option bytes * Z) :=
  withDepth currentDepth (checkNode "tryGet error ") ;;;
  if bool_decide (key = lnKey ln) then ret (lnValue ln, currentDepth) else ret (None, currentDepth).

Definition en_tryGet (tryGet : bytes → Z → M node (error * Z) (option bytes * Z))
    (key : bytes) (currentDepth : Z) (db : Storage) (en : CollapsedEn) :
    M node (error * Z) (option bytes * Z) :=
  withDepth currentDepth (checkNode "tryGet error ") ;;;
  if (length key <? length (enKey en))%nat then ret (None, currentDepth)
  else if negb (bool_decide (enKey en = take (length (enKey en)) key)) then ret (None, currentDepth)
  else
    let key := drop (length (enKey en)) key in
    withDepth currentDepth (resolveIfCollapsed 0 db) ;;;
    onChild 0 (tryGet key (u32 (currentDepth + 1))).

Definition bn_tryGet (tryGet : bytes → Z → M node (error * Z) (option bytes * Z))
    (key : bytes) (currentDepth : Z) (db : Storage) : M node (error * Z) (option bytes * Z) :=
  withDepth currentDepth (checkNode "tryGet error ") ;;;
  match firstByte key with
  | None => ret (None, currentDepth)
  | Some (childPos, key) =>
    if childPosOutOfRange childPos then throw (ErrChildPosOutOfRange, currentDepth)
    else
      withDepth currentDepth (resolveIfCollapsed (index childPos) db) ;;;
      let! n := gets id in
      match childAt n (index childPos) with
      | None => ret (None, currentDepth)
      | Some _ => onChild (index childPos) (tryGet key (u32 (currentDepth + 1)))
      end
  end.

Fixpoint node_tryGet (fuel : nat) (db : Storage) (key : bytes) (currentDepth : Z) :
    M node (error * Z) (option bytes * Z) :=
  match fuel with
  | O => panic
  | S fuel =>
    let! n := gets id in
    match n with
    | leafNode ln _ => ln_tryGet key currentDepth ln
    | extensionNode en _ _ => en_tryGet (node_tryGet fuel db) key currentDepth db en
    | branchNode _ _ _ => bn_tryGet (node_tryGet fuel db) key currentDepth db
    end
  end.

(** ** insert

    The result is the node that takes the receiver's place, or nil if nothing
    changed, and the hashes of the nodes that were replaced. *)
Definition oldHashesOf (b : baseNode) : list bytes :=
  if dirty b then [] else [orEmpty (hash b)].

(** on a new branch node: a child and its version *)
Definition bn_withChild (bn : node) (childPos : nat) (child : node) (version : Z) :
    outcome error node :=
  match setChild childPos (Some child) bn with
  | branchNode c children b =>
    let? c := setVersionForChild version childPos c in Ret (branchNode c children b)
  | n => Ret n
  end.

Definition ln_insertInSameLn (newData : TrieData) (oldHashes : list bytes) (ln : CollapsedLn) :
    M node error (option node * list bytes) :=
  if bool_decide (orEmpty (lnValue ln) = orEmpty (Value newData)) then ret (None, [])
  else
    modify (λ _, leafNode (mkLn (lnKey ln) (Value newData) (u32 (Version newData))) fresh) ;;;
    let! n := gets id in ret (Some n, oldHashes).

Definition ln_insertInNewBn (newData : TrieData) (keyMatchLen : nat) (ln : CollapsedLn)
    (b : baseNode) : outcome error node :=
  let? oldChildPos := at_index (lnKey ln) keyMatchLen in
  let? newChildPos := at_index (Key newData) keyMatchLen in
  if childPosOutOfRange oldChildPos || childPosOutOfRange newChildPos then
    Throw ErrChildPosOutOfRange
  else
    let? oldLnVersion := getVersion (leafNode ln b) in
    let newLnOldChildPos :=
      newLeafNode (mkData (drop (keyMatchLen + 1) (lnKey ln)) (lnValue ln) oldLnVersion) in
    let? bn := bn_withChild newBranchNode (index oldChildPos) newLnOldChildPos oldLnVersion in
    let newLnNewChildPos :=
      newLeafNode (mkData (drop (keyMatchLen + 1) (Key newData)) (Value newData) (Version newData)) in
    bn_withChild bn (index newChildPos) newLnNewChildPos (Version newData).

Definition ln_insert (newData : TrieData) (ln : CollapsedLn) (b : baseNode) :
    M node error (option node * list bytes) :=
  checkNode "insert error " ;;;
  let oldHash := oldHashesOf b in
  if bool_decide (Key newData = lnKey ln) then ln_insertInSameLn newData oldHash ln
  else
    let keyMatchLen := prefixLen (Key newData) (lnKey ln) in
    let! bn := liftO (ln_insertInNewBn newData keyMatchLen ln b) in
    if (keyMatchLen =? 0)%nat then ret (Some bn, oldHash)
    else
      let! newEn := liftO (newExtensionNode (take keyMatchLen (lnKey ln)) (Some bn)) in
      ret (Some newEn, oldHash).

Definition en_insertInSameEn (insert : TrieData → M node error (option node * list bytes))
    (newData : TrieData) (keyMatchLen : nat) (en : CollapsedEn) (b : baseNode) :
    M node error (option node * list bytes) :=
  let newData := mkData (drop keyMatchLen (Key newData)) (Value newData) (Version newData) in
  let! ' (newNode, oldHashes) := onChild 0 (insert newData) in
  match newNode with
  | None => ret (None, [])
  | Some _ =>
    let! newEn := liftO (newExtensionNode (enKey en) newNode) in
    ret (Some newEn, oldHashes ++ oldHashesOf b)
  end.

Definition en_insertOldChildInBn (bn : node) (oldChildPos keyMatchLen : nat) (en : CollapsedEn)
    (child : node) : outcome error node :=
  let keyReminder := drop (keyMatchLen + 1) (enKey en) in
  let? childVersion := getVersion child in
  if (length keyReminder <? 1)%nat then bn_withChild bn oldChildPos child childVersion
  else
    let? followingExtensionNode := newExtensionNode keyReminder (Some child) in
    bn_withChild bn oldChildPos followingExtensionNode childVersion.

Definition en_insertNewChildInBn (bn : node) (newData : TrieData) (newChildPos keyMatchLen : nat) :
    outcome error node :=
  let newLeaf :=
    newLeafNode (mkData (drop (keyMatchLen + 1) (Key newData)) (Value newData) (Version newData)) in
  bn_withChild bn newChildPos newLeaf (Version newData).

Definition en_insertInNewBn (newData : TrieData) (keyMatchLen : nat) (en : CollapsedEn)
    (child : option node) (b : baseNode) : outcome error (option node * list bytes) :=
  let oldHash := oldHashesOf b in
  let? oldChildPos := at_index (enKey en) keyMatchLen in
  let? newChildPos := at_index (Key newData) keyMatchLen in
  if childPosOutOfRange oldChildPos || childPosOutOfRange newChildPos then
    Throw ErrChildPosOutOfRange
  else
    match child with
    | None => Panic
    | Some child =>
      let? bn := en_insertOldChildInBn newBranchNode (index oldChildPos) keyMatchLen en child in
      let? bn := en_insertNewChildInBn bn newData (index newChildPos) keyMatchLen in
      if (keyMatchLen =? 0)%nat then Ret (Some bn, oldHash)
      else
        let? newEn := newExtensionNode (take keyMatchLen (enKey en)) (Some bn) in
        Ret (Some newEn, oldHash)
    end.

Definition en_insert (insert : TrieData → M node error (option node * list bytes))
    (newData : TrieData) (db : Storage) (en : CollapsedEn) (b : baseNode) :
    M node error (option node * list bytes) :=
  checkNode "insert error " ;;;
  resolveIfCollapsed 0 db ;;;
  let keyMatchLen := prefixLen (Key newData) (enKey en) in
  if (keyMatchLen =? length (enKey en))%nat then en_insertInSameEn insert newData keyMatchLen en b
  else
    let! n := gets id in
    liftO (en_insertInNewBn newData keyMatchLen en (childAt n 0) b).

(** the hash is dropped and the node marked dirty *)
Definition bn_modifyNodeAfterInsert (modifiedHashes : list bytes) (childPos : nat)
    (newNode : node) : M node error (list bytes) := λ n,
  match n with
  | branchNode bn children b =>
    match getVersion newNode with
    | Ret childVersion =>
      let children := <[childPos := Some newNode]> children in
      match setVersionForChild childVersion childPos bn with
      | Ret bn => (Ret (modifiedHashes ++ oldHashesOf b), branchNode bn children fresh)
      | Throw err => (Throw err, branchNode bn children b)
      | Panic => (Panic, branchNode bn children b)
      end
    | Throw err => (Throw err, n)
    | Panic => (Panic, n)
    end
  | _ => (Panic, n)
  end.

Definition bn_insertOnNilChild (newData : TrieData) (childPos : nat) :
    M node error (option node * list bytes) :=
  let newLn := newLeafNode newData in
  let! modifiedHashes := bn_modifyNodeAfterInsert [] childPos newLn in
  let! bn := gets id in ret (Some bn, modifiedHashes).

Definition bn_insertOnExistingChild (insert : TrieData → M node error (option node * list bytes))
    (newData : TrieData) (childPos : nat) : M node error (option node * list bytes) :=
  let! ' (newNode, modifiedHashes) := onChild childPos (insert newData) in
  match newNode with
  | None => ret (None, [])
  | Some newNode =>
    let! modifiedHashes := bn_modifyNodeAfterInsert modifiedHashes childPos newNode in
    let! bn := gets id in ret (Some bn, modifiedHashes)
  end.

Definition bn_insert (insert : TrieData → M node error (option node * list bytes))
    (newData : TrieData) (db : Storage) : M node error (option node * list bytes) :=
  checkNode "insert error " ;;;
  match firstByte (Key newData) with
  | None => throw ErrValueTooShort
  | Some (childPos, key) =>
    if childPosOutOfRange childPos then throw ErrChildPosOutOfRange
    else
      let newData := mkData key (Value newData) (Version newData) in
      resolveIfCollapsed (index childPos) db ;;;
      let! n := gets id in
      match childAt n (index childPos) with
      | None => bn_insertOnNilChild newData (index childPos)
      | Some _ => bn_insertOnExistingChild insert newData (index childPos)
      end
  end.

Fixpoint node_insert (fuel : nat) (db : Storage) (newData : TrieData) :
    M node error (option node * list bytes) :=
  match fuel with
  | O => panic
  | S fuel =>
    let! n := gets id in
    match n with
    | leafNode ln b => ln_insert newData ln b
    | extensionNode en _ b => en_insert (node_insert fuel db) newData db en b
    | branchNode _ _ _ => bn_insert (node_insert fuel db) newData db
    end
  end.

(** ** delete

    The result says whether the node changed, and is the node that takes its
    place (nil for none) with the hashes of the replaced nodes. *)
Definition ln_delete (key : bytes) (ln : CollapsedLn) (b : baseNode) :
    M node error (bool * option node * list bytes) :=
  if bool_decide (key = lnKey ln) then ret (true, None, oldHashesOf b)
  else let! n := gets id in ret (false, Some n, []).

Definition ln_reduceNode (pos : nat) (ln : CollapsedLn) (b : baseNode) : outcome error (node * bool) :=
  let k := toByte (Z.of_nat pos) :: lnKey ln in
  let? oldLnVersion := getVersion (leafNode ln b) in
  Ret (newLeafNode (mkData k (lnValue ln) oldLnVersion), true).
Definition en_reduceNode (pos : nat) (en : CollapsedEn) (child : option node) :
    outcome error (node * bool) :=
  let k := toByte (Z.of_nat pos) :: enKey en in
  let? newEn := newExtensionNode k child in Ret (newEn, true).
Definition bn_reduceNode (pos : nat) (n : node) : outcome error (node * bool) :=
  let? newEn := newExtensionNode [toByte (Z.of_nat pos)] (Some n) in Ret (newEn, false).
Definition reduceNode (pos : nat) (n : node) : outcome error (node * bool) :=
  match n with
  | leafNode ln b => ln_reduceNode pos ln b
  | extensionNode en child _ => en_reduceNode pos en child
  | branchNode _ _ _ => bn_reduceNode pos n
  end.

Definition en_delete (delete : bytes → M node error (bool * option node * list bytes))
    (key : bytes) (db : Storage) (en : CollapsedEn) (b : baseNode) :
    M node error (bool * option node * list bytes) :=
  checkNode "delete error " ;;;
  if (length key =? 0)%nat then throw ErrValueTooShort
  else
    let keyMatchLen := prefixLen key (enKey en) in
    if (keyMatchLen <? length (enKey en))%nat then let! n := gets id in ret (false, Some n, [])
    else
      resolveIfCollapsed 0 db ;;;
      let! ' (changed, newNode, oldHashes) := onChild 0 (delete (drop (length (enKey en)) key)) in
      if negb changed then let! n := gets id in ret (false, Some n, [])
      else
        let oldHashes := oldHashes ++ oldHashesOf b in
        match newNode with
        | Some (leafNode ln' _) =>
          let n := newLeafNode (mkData (enKey en ++ lnKey ln') (lnValue ln') (u8 (lnVersion ln'))) in
          ret (true, Some n, oldHashes)
        | Some (extensionNode en' child' _) =>
          let! n := liftO (newExtensionNode (enKey en ++ enKey en') child') in
          ret (true, Some n, oldHashes)
        | Some (branchNode _ _ _) =>
          let! n := liftO (newExtensionNode (enKey en) newNode) in
          ret (true, Some n, oldHashes)
        | None => ret (true, None, oldHashes)
        end.

Definition bn_setNewChild (childPos : nat) (newNode : option node) : M node error unit := λ n,
  match n with
  | branchNode bn children b =>
    let children := <[childPos := newNode]> children in
    let b := mkBase None (dirty b) in
    match newNode with
    | None =>
      match setVersionForChild NotSpecified childPos bn with
      | Ret bn =>
        if (length (EncodedChildren bn) <=? childPos)%nat then (Panic, branchNode bn children b)
        else (Ret tt, branchNode (mkBn (<[childPos := []]> (EncodedChildren bn)) (ChildrenVersion bn))
                        children b)
      | Throw err => (Throw err, branchNode bn children b)
      | Panic => (Panic, branchNode bn children b)
      end
    | Some c =>
      match (let? childVersion := getVersion c in setVersionForChild childVersion childPos bn) with
      | Ret bn => (Ret tt, branchNode bn children b)
      | Throw err => (Throw err, branchNode bn children b)
      | Panic => (Panic, branchNode bn children b)
      end
    end
  | _ => (Panic, n)
  end.

(** the number of children and the position of the last one *)
Fixpoint countChildren (bn : CollapsedBn) (children : list (option node)) (range : list nat)
    (nrOfChildren childPos : nat) : outcome error (nat * nat) :=
  match range with
  | [] => Ret (nrOfChildren, childPos)
  | i :: range =>
    let? present := hasChild bn children i in
    if (present : bool) then countChildren bn children range (S nrOfChildren) i
    else countChildren bn children range nrOfChildren childPos
  end.
Definition getChildPosition (n : node) : outcome error (nat * nat) :=
  match n with
  | branchNode bn children _ => countChildren bn children (seq 0 nrOfChildren) 0 0
  | _ => Panic
  end.

(** a branch node with one child left is replaced by the child *)
Definition bn_reduceLast (pos : nat) (db : Storage) (oldHashes : list bytes) :
    M node error (bool * option node * list bytes) :=
  resolveIfCollapsed pos db ;;;
  onChild pos (resolveIfCollapsed pos db) ;;;
  let! ' ((newNode, newChildHash), child) :=
    onChild pos (let! child := gets id in
                 let! r := liftO (reduceNode pos child) in ret (r, child)) in
  ret (true, Some newNode,
       if newChildHash && negb (isDirty child) then oldHashes ++ [orEmpty (getHash child)]
       else oldHashes).

Definition bn_delete (delete : bytes → M node error (bool * option node * list bytes))
    (key : bytes) (db : Storage) : M node error (bool * option node * list bytes) :=
  checkNode "delete error " ;;;
  match firstByte key with
  | None => throw ErrValueTooShort
  | Some (childPos, key) =>
    if childPosOutOfRange childPos then throw ErrChildPosOutOfRange
    else
      resolveIfCollapsed (index childPos) db ;;;
      let! n := gets id in
      match childAt n (index childPos) with
      | None => ret (false, Some n, [])
      | Some _ =>
        let! ' (changed, newNode, oldHashes) := onChild (index childPos) (delete key) in
        let! n := gets id in
        if negb changed then ret (false, Some n, [])
        else
          let oldHashes := oldHashes ++ oldHashesOf (baseOf n) in
          bn_setNewChild (index childPos) newNode ;;;
          let! n := gets id in
          let! ' (numChildren, pos) := liftO (getChildPosition n) in
          if (numChildren =? 1)%nat then bn_reduceLast pos db oldHashes
          else
            modify (setDirty true) ;;;
            let! n := gets id in ret (true, Some n, oldHashes)
      end
  end.

Fixpoint node_delete (fuel : nat) (db : Storage) (key : bytes) :
    M node error (bool * option node * list bytes) :=
  match fuel with
  | O => panic
  | S fuel =>
    let! n := gets id in
    match n with
    | leafNode ln b => ln_delete key ln b
    | extensionNode en _ b => en_delete (node_delete fuel db) key db en b
    | branchNode _ _ _ => bn_delete (node_delete fuel db) key db
    end
  end.
End operations.
