(* ===== verification/Trie.v ===== *)
(** * Trie: the Patricia Merkle trie (src/trie/patriciaMerkleTrie.go)

    The state of an operation is the trie and the storage, which other tries
    may share; the mutex of the trie serialises its operations.  Iteration over
    channels, snapshots, statistics and migration are left out. *)
From S2P Require Import Prelude TrieNode TrieOps.
#[local] Open Scope go_scope.

Section trie.
Context {TE : TrieEnvironment}.

Record patriciaMerkleTrie : Type := mkTrie {
  root : option node;
  oldHashes : list bytes;
  oldRoot : bytes;
  maxTrieLevelInMemory : Z;
}.
Definition trieM (A : Type) : Type := M (patriciaMerkleTrie * Storage) error A.

Definition withRoot (r : option node) (tr : patriciaMerkleTrie) : patriciaMerkleTrie :=
  mkTrie r (oldHashes tr) (oldRoot tr) (maxTrieLevelInMemory tr).
Definition withOld (hashes : list bytes) (r : bytes) (tr : patriciaMerkleTrie) : patriciaMerkleTrie :=
  mkTrie (root tr) hashes r (maxTrieLevelInMemory tr).

(** a method call on the root *)
Definition onRoot {X A} (m : Storage → M node X A) : M (patriciaMerkleTrie * Storage) X A :=
  λ '(tr, db),
  match root tr with
  | None => (Panic, (tr, db))
  | Some n => let '(r, n) := m db n in (r, (withRoot (Some n) tr, db))
  end.

(** common.EmptyTrieHash *)
Definition EmptyTrieHash : bytes := replicate 32 x00.
Definition IsEmptyTrie (rootHash : bytes) : bool :=
  (length rootHash =? 0)%nat || bool_decide (rootHash = EmptyTrieHash).

Definition ErrInvalidLevelValue : error := "invalid trie level in memory value".
Definition NewTrie (maxLevel : Z) : error + patriciaMerkleTrie :=
  if (maxLevel =? 0)%Z then inl ErrInvalidLevelValue else inr (mkTrie None [] [] maxLevel).

(** enough for any trie that has no extension with an empty key *)
Definition fuelFor (hexKey : bytes) : nat := S (length hexKey).

(** ** Reading and writing; errors of [trie_Get] come with the depth *)
Definition trie_Get (key : bytes) : M (patriciaMerkleTrie * Storage) (error * Z) (option bytes * Z) :=
  let! tr := gets fst in
  match root tr with
  | None => ret (None, 0%Z)
  | Some _ =>
    let hexKey := keyBytesToHex key in
    catch (onRoot (λ db, node_tryGet (fuelFor hexKey) db hexKey 0))
      (λ '(err, depth),
        throw ("trie get error: " ++ err ++ ", for key " ++ hexString key, depth)%string)
  end.

(** the hash of the root before the first change since it was committed *)
Definition rememberRoot : trieM unit :=
  modify (λ '(tr, db),
    (match root tr with
     | Some n => if isDirty n then tr else withOld (oldHashes tr) (hashBytes n) tr
     | None => tr
     end, db)).
Definition replaceRoot (newRoot : option node) (hashes : list bytes) : trieM unit :=
  modify (λ '(tr, db), (withOld (oldHashes tr ++ hashes) (oldRoot tr) (withRoot newRoot tr), db)).

Definition trie_delete (hexKey : bytes) : trieM unit :=
  let! tr := gets fst in
  match root tr with
  | None => ret tt
  | Some _ =>
    rememberRoot ;;;
    let! ' (_, newRoot, hashes) := onRoot (λ db, node_delete (fuelFor hexKey) db hexKey) in
    replaceRoot newRoot hashes
  end.

Definition trie_update (key value : bytes) (version : Z) : trieM unit :=
  let hexKey := keyBytesToHex key in
  if negb (length value =? 0)%nat then
    let newData := mkData hexKey (Some value) version in
    let! tr := gets fst in
    match root tr with
    | None => modify (λ '(tr, db), (withRoot (Some (newLeafNode newData)) tr, db))
    | Some _ =>
      rememberRoot ;;;
      let! ' (newRoot, hashes) := onRoot (λ db, node_insert (fuelFor hexKey) db newData) in
      match newRoot with
      | None => ret tt
      | Some _ => replaceRoot newRoot hashes
      end
    end
  else trie_delete hexKey.

Definition Update (key value : bytes) : trieM unit := trie_update key value NotSpecified.
Definition UpdateWithVersion (key value : bytes) (version : Z) : trieM unit :=
  trie_update key value version.
Definition Delete (key : bytes) : trieM unit := trie_delete (keyBytesToHex key).

(** ** Hashing and committing *)
Definition getRootHash : trieM bytes :=
  let! tr := gets fst in
  match root tr with
  | None => ret EmptyTrieHash
  | Some n =>
    match getHash n with
    | Some h => ret h
    | None => onRoot (λ _, setRootHash ;;; let! n := gets id in ret (hashBytes n))
    end
  end.
Definition RootHash : trieM bytes := getRootHash.

Definition Commit : trieM unit :=
  let! tr := gets fst in
  match root tr with
  | None => ret tt
  | Some n =>
    if negb (isDirty n) then ret tt
    else
      onRoot (λ _, setRootHash) ;;;
      modify (λ '(tr, db), (withOld [] [] tr, db)) ;;;
      λ '(tr, db),
        match root tr with
        | None => (Panic, (tr, db))
        | Some n =>
          let '(r, (n, db)) := commitDirty (maxTrieLevelInMemory tr) n 0 db in
          (r, (withRoot (Some n) tr, db))
        end
  end.

Definition recreateFromDb (rootHash : bytes) (tr : patriciaMerkleTrie) (db : Storage) :
    outcome error patriciaMerkleTrie :=
  let? newTr := ofSum (NewTrie (maxTrieLevelInMemory tr)) in
  let? newRoot := getNodeFromDBAndDecode rootHash db in
  Ret (withRoot (Some (setGivenHash rootHash newRoot)) newTr).
Definition recreate (rootHash : bytes) (tr : patriciaMerkleTrie) (db : Storage) :
    outcome error patriciaMerkleTrie :=
  if IsEmptyTrie rootHash then ofSum (NewTrie (maxTrieLevelInMemory tr))
  else recreateFromDb rootHash tr db.

Definition GetSerializedNode (h : bytes) (db : Storage) : error + bytes := Get h db.
Definition GetObsoleteHashes (tr : patriciaMerkleTrie) : list bytes := oldHashes tr.
Definition GetOldRoot (tr : patriciaMerkleTrie) : bytes := oldRoot tr.

(** the hashes of the changed nodes in memory *)
Fixpoint getDirtyHashes (n : node) (hashes : gset bytes) : outcome error (gset bytes) :=
  let? _ := wrapO "getDirtyHashes error " (isEmptyOrNil n) in
  let add hashes := Ret ({[ hashBytes n ]} ∪ hashes) in
  if negb (isDirty n) then Ret hashes
  else
    match n with
    | branchNode _ children _ =>
      let? hashes :=
        (fix go children hashes :=
           match children with
           | [] => Ret hashes
           | None :: children => go children hashes
           | Some c :: children => let? hashes := getDirtyHashes c hashes in go children hashes
           end) children hashes in
      add hashes
    | extensionNode _ (Some c) _ => let? hashes := getDirtyHashes c hashes in add hashes
    | extensionNode _ None _ => Ret hashes
    | leafNode _ _ => add hashes
    end.
(** [None] is a nil map *)
Definition GetDirtyHashes : trieM (option (gset bytes)) :=
  let! tr := gets fst in
  match root tr with
  | None => ret None
  | Some _ =>
    onRoot (λ _, setRootHash) ;;;
    onRoot (λ _, let! n := gets id in let! hashes := liftO (getDirtyHashes n ∅) in ret (Some hashes))
  end.

Definition IsMigratedToLatestVersion (versionForNewlyAddedData : Z) (tr : patriciaMerkleTrie) :
    outcome error bool :=
  match root tr with
  | None => Ret true
  | Some n => let? version := getVersion n in Ret (version =? versionForNewlyAddedData)%Z
  end.

(** ** Proofs *)
Definition getValue (n : node) : option bytes :=
  match n with leafNode ln _ => lnValue ln | _ => Some [] end.

(** the position of the next node and the rest of the key; [None] at the leaf *)
Definition ln_getNext (key : bytes) (ln : CollapsedLn) : M node error (option (nat * bytes)) :=
  checkNode "getNext error " ;;;
  if bool_decide (key = lnKey ln) then ret None else throw ErrNodeNotFound.
Definition en_getNext (key : bytes) (db : Storage) (en : CollapsedEn) :
    M node error (option (nat * bytes)) :=
  checkNode "getNext error " ;;;
  if (length key <? length (enKey en))%nat then throw ErrNodeNotFound
  else if negb (bool_decide (enKey en = take (length (enKey en)) key)) then throw ErrNodeNotFound
  else
    resolveIfCollapsed 0 db ;;;
    ret (Some (0%nat, drop (length (enKey en)) key)).
Definition bn_getNext (key : bytes) (db : Storage) : M node error (option (nat * bytes)) :=
  checkNode "getNext error " ;;;
  match firstByte key with
  | None => throw ErrValueTooShort
  | Some (childPos, key) =>
    if childPosOutOfRange childPos then throw ErrChildPosOutOfRange
    else
      resolveIfCollapsed (index childPos) db ;;;
      let! n := gets id in
      match childAt n (index childPos) with
      | None => throw ErrNodeNotFound
      | Some _ => ret (Some (index childPos, key))
      end
  end.
Definition getNext (key : bytes) (db : Storage) : M node error (option (nat * bytes)) :=
  let! n := gets id in
  match n with
  | leafNode ln _ => ln_getNext key ln
  | extensionNode en _ _ => en_getNext key db en
  | branchNode _ _ _ => bn_getNext key db
  end.

(** the loop of [GetProof]; the current node is the receiver *)
Fixpoint proofLoop (fuel : nat) (db : Storage) (hexKey : bytes) :
    M node error (list bytes * option bytes) :=
  match fuel with
  | O => panic
  | S fuel =>
    let! n := gets id in
    let! encodedNode := liftO (getEncodedNode n) in
    let value := getValue n in
    let! next := getNext hexKey db in
    match next with
    | None => ret ([encodedNode], value)
    | Some (pos, hexKey) =>
      let! ' (proof, value) := onChild pos (proofLoop fuel db hexKey) in
      ret (encodedNode :: proof, value)
    end
  end.
Definition GetProof (key : bytes) : trieM (list bytes * option bytes) :=
  let! tr := gets fst in
  match root tr with
  | None => throw ErrNilNode
  | Some _ =>
    let hexKey := keyBytesToHex key in
    onRoot (λ db, setRootHash ;;; proofLoop (fuelFor hexKey) db hexKey)
  end.

(** is the proof complete, the wanted hash and the rest of the key; slicing or
    indexing out of range panics *)
Definition getNextHashAndKey (n : node) (key : bytes) : outcome error (bool * bytes * bytes) :=
  match n with
  | leafNode ln _ => Ret (bool_decide (key = lnKey ln), [], [])
  | extensionNode en _ _ =>
    if (length key =? 0)%nat then Ret (false, [], [])
    else if (length key <? length (enKey en))%nat then Panic
    else Ret (false, EncodedChild en, drop (length (enKey en)) key)
  | branchNode bn _ _ =>
    match firstByte key with
    | None => Ret (false, [], [])
    | Some (childPos, nextKey) =>
      let? wantHash := at_index (EncodedChildren bn) (index childPos) in
      Ret (false, wantHash, nextKey)
    end
  end.
(** a nil element of the proof is [None] *)
Fixpoint verifyProofLoop (wantHash key : bytes) (proof : list (option bytes)) : outcome error bool :=
  match proof with
  | [] => Ret false
  | None :: _ => Ret false
  | Some encodedNode :: proof =>
    if negb (bool_decide (wantHash = Compute encodedNode)) then Ret false
    else
      let? n := decodeNode encodedNode in
      let? ' (proofVerified, wantHash, key) := getNextHashAndKey n key in
      if (proofVerified : bool) then Ret true else verifyProofLoop wantHash key proof
  end.
Definition verifyProof (rootHash key : bytes) (proof : list (option bytes)) : outcome error bool :=
  verifyProofLoop rootHash (keyBytesToHex key) proof.
Definition VerifyProof (rootHash key : bytes) (proof : list (option bytes)) : outcome error bool :=
  let? ok := verifyProof rootHash (Compute key) proof in
  if (ok : bool) then Ret true else verifyProof rootHash key proof.
End trie.
