(* ===== verification/TrieWalk.v ===== *)
(** * TrieWalk: iterating over the trie (getAllLeavesOnChannel, getAllHashes, keyBuilder.go)

    The keys of the leaves are built up in Go slices that the builders of
    siblings share: the memory is a list of arrays, a builder is an array with
    a length, and [append] writes to the array while there is room.  The
    channel is the list of what was sent; the iteration is not interrupted.
    The nodes below a node may only be in the storage, so the recursion is
    fuelled by the depth. *)
From S2P Require Import Prelude TrieNode TrieOps Trie.
#[local] Open Scope go_scope.

(** ** Slices *)
Definition memory : Type := list bytes.
Record slice : Type := mkSlice { sliceArray : nat; sliceLength : nat }.
(** how much [append] allocates, given the old capacity and what is needed *)
Class SliceGrowth : Type := { newCapacity : nat → nat → nat }.

Definition arrayAt (mem : memory) (a : nat) : bytes := default [] (mem !! a).
Definition sliceBytes (mem : memory) (s : slice) : bytes := take (sliceLength s) (arrayAt mem (sliceArray s)).
Definition goAppend `{SliceGrowth} (s : slice) (part : bytes) (mem : memory) : slice * memory :=
  let array := arrayAt mem (sliceArray s) in
  let needed := (sliceLength s + length part)%nat in
  if (needed <=? length array)%nat then
    (mkSlice (sliceArray s) needed,
     <[sliceArray s := sliceBytes mem s ++ part ++ drop needed array]> mem)
  else
    (mkSlice (length mem) needed,
     mem ++ [sliceBytes mem s ++ part ++ replicate (newCapacity (length array) needed - needed) x00]).

(** ** keyBuilder.go

    A builder is used by one node at a time, so it is its slice;
    [ShallowClone] is the slice itself. *)
Definition keyLength : nat := 32.
Definition NewKeyBuilder (mem : memory) : slice * memory :=
  (mkSlice (length mem) 0, mem ++ [replicate keyLength x00]).
Definition BuildKey `{SliceGrowth} (kb : slice) (keyPart : bytes) (mem : memory) : slice * memory :=
  goAppend kb keyPart mem.
Definition GetKey (kb : slice) (mem : memory) : outcome error bytes :=
  hexToTrieKeyBytes (sliceBytes mem kb).

(** common.TrieLeafParser *)
Class TrieLeafParser (L : Type) : Type := { ParseLeaf : bytes → option bytes → Z → error + L }.

Section walk.
Context {TE : TrieEnvironment} {SG : SliceGrowth} {L : Type} {TP : TrieLeafParser L}.

(** ** Leaves: the state is the node, the memory and what was sent *)
Definition walkM (A : Type) : Type := M (node * (memory * list L)) error A.
Definition onChildWith {W A} (pos : nat) (m : M (node * W) error A) : M (node * W) error A := λ '(n, w),
  match childAt n pos with
  | Some c => let '(r, (c', w)) := m (c, w) in (r, (setChild pos (Some c') n, w))
  | None => (Panic, (n, w))
  end.
Definition buildKey (kb : slice) (keyPart : bytes) : walkM slice := λ '(n, (mem, sent)),
  let '(kb, mem) := BuildKey kb keyPart mem in (Ret kb, (n, (mem, sent))).
Definition send (leaf : L) : walkM unit := modify (λ '(n, (mem, sent)), (n, (mem, sent ++ [leaf]))).
Definition dropChild (pos : nat) : walkM unit := modify (λ '(n, w), (setChild pos None n, w)).

Definition ln_getAllLeavesOnChannel (kb : slice) (ln : CollapsedLn) (b : baseNode) : walkM unit :=
  onNode (checkNode "getAllLeavesOnChannel error: ") ;;;
  let! kb := buildKey kb (lnKey ln) in
  let! mem := gets (λ s, s.2.1) in
  let! nodeKey := liftO (GetKey kb mem) in
  let! version := liftO (getVersion (leafNode ln b)) in
  let! trieLeaf := fromSum (ParseLeaf nodeKey (lnValue ln) version) in
  send trieLeaf.
Definition en_getAllLeavesOnChannel (walk : slice → walkM unit) (kb : slice) (db : Storage)
    (en : CollapsedEn) : walkM unit :=
  onNode (checkNode "getAllLeavesOnChannel error: ") ;;;
  onNode (resolveIfCollapsed 0 db) ;;;
  let! kb := buildKey kb (enKey en) in
  onChildWith 0 (walk kb) ;;;
  dropChild 0.
Definition bn_getAllLeavesOnChannel (walk : slice → walkM unit) (kb : slice) (db : Storage) : walkM unit :=
  onNode (checkNode "getAllLeavesOnChannel error: ") ;;;
  forEach (seq 0 nrOfChildren) (λ i,
    onNode (resolveIfCollapsed i db) ;;;
    let! n := gets fst in
    match childAt n i with
    | None => ret tt
    | Some _ =>
      let! clonedKeyBuilder := buildKey kb [toByte (Z.of_nat i)] in
      onChildWith i (walk clonedKeyBuilder) ;;;
      dropChild i
    end).
Fixpoint getAllLeavesOnChannel (fuel : nat) (db : Storage) (kb : slice) : walkM unit :=
  match fuel with
  | O => panic
  | S fuel =>
    let! n := gets fst in
    match n with
    | leafNode ln b => ln_getAllLeavesOnChannel kb ln b
    | extensionNode en _ _ => en_getAllLeavesOnChannel (getAllLeavesOnChannel fuel db) kb db en
    | branchNode _ _ _ => bn_getAllLeavesOnChannel (getAllLeavesOnChannel fuel db) kb db
    end
  end.

(** what is sent on the two channels before they are closed; the tree that is
    walked is recreated and not that of the receiver *)
Definition GetAllLeavesOnChannel (fuel : nat) (rootHash : bytes) (kb : slice)
    (tr : patriciaMerkleTrie) (db : Storage) (mem : memory) : outcome error (list L * option error) :=
  let? newTrie := recreate rootHash tr db in
  match root newTrie with
  | None => Ret ([], None)
  | Some n =>
    match getAllLeavesOnChannel fuel db kb (n, (mem, [])) with
    | (Ret _, (_, (_, sent))) => Ret (sent, None)
    | (Throw err, (_, (_, sent))) => Ret (sent, Some err)
    | (Panic, _) => Panic
    end
  end.

(** ** Hashes *)
Definition en_getAllHashes (walk : M node error (list bytes)) (db : Storage) : M node error (list bytes) :=
  checkNode "getAllHashes error: " ;;;
  resolveIfCollapsed 0 db ;;;
  let! hashes := onChild 0 walk in
  let! n := gets id in ret (hashes ++ [hashBytes n]).
Definition bn_getAllHashes (walk : M node error (list bytes)) (db : Storage) : M node error (list bytes) :=
  checkNode "getAllHashes error: " ;;;
  let! hashes := foldEach (seq 0 nrOfChildren) [] (λ hashes i,
    resolveIfCollapsed i db ;;;
    let! n := gets id in
    match childAt n i with
    | None => ret hashes
    | Some _ => let! childrenHashes := onChild i walk in ret (hashes ++ childrenHashes)
    end) in
  let! n := gets id in ret (hashes ++ [hashBytes n]).
Fixpoint getAllHashes (fuel : nat) (db : Storage) : M node error (list bytes) :=
  match fuel with
  | O => panic
  | S fuel =>
    let! n := gets id in
    match n with
    | leafNode _ _ => checkNode "getAllHashes error: " ;;; ret [hashBytes n]
    | extensionNode _ _ _ => en_getAllHashes (getAllHashes fuel db) db
    | branchNode _ _ _ => bn_getAllHashes (getAllHashes fuel db) db
    end
  end.
Definition GetAllHashes (fuel : nat) : trieM (list bytes) :=
  let! tr := gets fst in
  match root tr with
  | None => ret []
  | Some _ => onRoot (λ _, setRootHash) ;;; onRoot (getAllHashes fuel)
  end.
End walk.
