(* ===== verification/TriePure.v ===== *)
(** * TriePure: the canonical trie of a set of keys

    A trie without hashes, flags and storage: what a trie node stands for.
    [pget] is its content, [pinsert] and [pdelete] the effect of the code's
    [insert] and [delete].  A well-formed trie is canonical: it is determined
    by its content ([trie_ext]), and inserting and deleting keep it so. *)
From S2P Require Import Prelude TrieNode.
#[local] Set Warnings "-register-all".
#[local] Open Scope go_scope.

Inductive ptrie : Type :=
  | PLeaf (k v : bytes) (ver : Z)
  | PExt (p : bytes) (c : ptrie)
  | PBranch (cs : list (option ptrie)).

Lemma ptrie_induction (P : ptrie → Prop) :
  (∀ k v ver, P (PLeaf k v ver)) → (∀ p c, P c → P (PExt p c)) →
  (∀ cs, (∀ i c, cs !! i = Some (Some c) → P c) → P (PBranch cs)) → ∀ t, P t.
Proof.
  intros HL HE HB. fix IH 1. intros [k v ver|p c|cs]; [apply HL|apply HE, IH|].
  apply HB. induction cs as [|[c'|] cs IHcs]; intros [|i] c; simpl; try discriminate.
  - intros [= <-]. apply IH.
  - apply IHcs.
  - apply IHcs.
Qed.

(** ** Keys *)

(** the rest of [k] after the prefix [p] *)
Fixpoint strip (p k : bytes) : option bytes :=
  match p, k with
  | [], _ => Some k
  | x :: p, y :: k => if bool_decide (x = y) then strip p k else None
  | _ :: _, [] => None
  end.
Lemma strip_app p k : strip p (p ++ k) = Some k.
Proof. induction p as [|x p IH]; [done|]. simpl. by rewrite bool_decide_true. Qed.
Lemma strip_Some p k r : strip p k = Some r ↔ k = p ++ r.
Proof.
  split; [|intros ->; apply strip_app].
  revert k. induction p as [|x p IH]; intros k; simpl; [congruence|].
  destruct k as [|y k]; [done|]. case_bool_decide as Hxy; [|done]. intros ->%IH. by subst.
Qed.
Lemma strip_app_l p q k : strip (p ++ q) k = match strip p k with Some r => strip q r | None => None end.
Proof.
  revert k. induction p as [|x p IH]; intros k; [done|]. destruct k as [|y k]; [done|].
  simpl. by case_bool_decide.
Qed.

Lemma byteZ_inj x y : byteZ x = byteZ y → x = y.
Proof. unfold byteZ. intros H. apply to_N_inj. lia. Qed.
Lemma byteZ_bound x : (0 ≤ byteZ x < 256)%Z.
Proof. unfold byteZ. pose proof (Byte.to_N_bounded x). lia. Qed.
Lemma toByte_byteZ x : toByte (byteZ x) = x.
Proof.
  unfold toByte. pose proof (byteZ_bound x). rewrite Z.mod_small; [|lia].
  unfold byteZ. by rewrite N2Z.id Byte.of_to_N.
Qed.
Lemma byteZ_toByte z : (0 ≤ z < 256)%Z → byteZ (toByte z) = z.
Proof.
  intros Hz. unfold toByte. rewrite Z.mod_small; [|lia]. unfold byteZ.
  destruct (Byte.of_N (Z.to_N z)) as [b|] eqn:Hb; simpl.
  - apply Byte.to_of_N in Hb. lia.
  - apply Byte.of_N_None_iff in Hb. lia.
Qed.
Lemma index_inj x y : index x = index y → x = y.
Proof. unfold index. pose proof (byteZ_bound x). pose proof (byteZ_bound y). intros. apply byteZ_inj. lia. Qed.
Lemma index_toByte i : i < 17 → index (toByte (Z.of_nat i)) = i.
Proof. intros. unfold index. rewrite byteZ_toByte; lia. Qed.
Lemma toByte_index x : toByte (Z.of_nat (index x)) = x.
Proof.
  unfold index. pose proof (byteZ_bound x). rewrite Z2Nat.id; [|lia]. apply toByte_byteZ.
Qed.
Lemma inRange_index x : childPosOutOfRange x = false ↔ index x < 17.
Proof.
  unfold childPosOutOfRange, index, nrOfChildren. pose proof (byteZ_bound x).
  rewrite Z.leb_gt. lia.
Qed.

(** the position below which a key has ended *)
Definition atEnd (i : nat) : bool := bool_decide (i = 16).
Fixpoint termKey (k : bytes) : Prop :=
  match k with
  | [] => False
  | x :: k => index x < 17 ∧ if atEnd (index x) then k = [] else termKey k
  end.
(** the keys of a trie at depth 0, and below the terminator *)
Definition keyFor (e : bool) (k : bytes) : Prop := if e then k = [] else termKey k.
#[global] Arguments keyFor : simpl never.
Definition nibble (x : byte) : Prop := index x < 16.
Definition path (p : bytes) : Prop := Forall nibble p.

Lemma keyFor_cons x k : keyFor false (x :: k) ↔ index x < 17 ∧ keyFor (atEnd (index x)) k.
Proof. unfold keyFor. simpl. by destruct (atEnd (index x)). Qed.
Lemma nibble_not_end x : nibble x → atEnd (index x) = false.
Proof. unfold nibble, atEnd. intros. rewrite bool_decide_false; lia. Qed.
Lemma not_end_nibble x : index x < 17 → atEnd (index x) = false → nibble x.
Proof. unfold nibble, atEnd. intros ? ?%bool_decide_eq_false. lia. Qed.
Lemma keyFor_path p k : path p → keyFor false (p ++ k) ↔ keyFor false k.
Proof.
  intros Hp. induction Hp as [|x p Hx Hp IH]; [done|].
  change ((x :: p) ++ k) with (x :: (p ++ k)). rewrite keyFor_cons nibble_not_end // IH.
  unfold nibble in Hx. intuition lia.
Qed.
Lemma keyFor_split p x k :
  keyFor false (p ++ x :: k) → path p ∧ index x < 17 ∧ keyFor (atEnd (index x)) k.
Proof.
  induction p as [|y p IH].
  - intros [??]%keyFor_cons. split; [apply Forall_nil_2|done].
  - change ((y :: p) ++ x :: k) with (y :: (p ++ x :: k)). intros [Hy Hk]%keyFor_cons.
    destruct (atEnd (index y)) eqn:He; [by destruct p|].
    destruct (IH Hk) as (? & ? & ?). split; [|done].
    apply Forall_cons_2; [by apply not_end_nibble|done].
Qed.

(** no key is a proper prefix of another *)
Lemma prefixLen_app p a b : prefixLen (p ++ a) (p ++ b) = length p + prefixLen a b.
Proof. induction p as [|x p IH]; [done|]. simpl. by rewrite bool_decide_true // IH. Qed.
Lemma prefixLen_split a b :
  ∃ p a' b', a = p ++ a' ∧ b = p ++ b' ∧ prefixLen a b = length p ∧
    (a' = [] ∨ b' = [] ∨ ∃ x y a1 b1, a' = x :: a1 ∧ b' = y :: b1 ∧ x ≠ y).
Proof.
  revert b. induction a as [|x a IH]; intros b.
  { exists [], [], b. split_and!; try done. by left. }
  destruct b as [|y b].
  { exists [], (x :: a), []. split_and!; try done. by right; left. }
  simpl. case_bool_decide as Hxy.
  - subst y. destruct (IH b) as (p & a' & b' & -> & -> & -> & H). by exists (x :: p), a', b'.
  - exists [], (x :: a), (y :: b). split_and!; try done. right; right. by exists x, y, a, b.
Qed.
Lemma keys_differ k k' :
  keyFor false k → keyFor false k' → k ≠ k' →
  ∃ p x y a b, k = p ++ x :: a ∧ k' = p ++ y :: b ∧ x ≠ y ∧ prefixLen k k' = length p.
Proof.
  intros Hk Hk' Hne. destruct (prefixLen_split k k') as (p & a' & b' & -> & -> & -> & H).
  assert (∀ l l', keyFor false (p ++ l) → keyFor false (p ++ l') → l = [] → l' = []) as Hnil.
  { clear. intros l l' Hl Hl' ->. rewrite app_nil_r in Hl. destruct l' as [|x l']; [done|].
    apply keyFor_split in Hl' as (Hp & _). rewrite -(app_nil_r p) in Hl.
    by apply keyFor_path in Hl. }
  destruct H as [->|[->|(x & y & a & b & -> & -> & ?)]].
  - by rewrite (Hnil [] b') in Hne.
  - by rewrite (Hnil [] a') in Hne.
  - by exists p, x, y, a, b.
Qed.

(** ** Content *)
Definition on_child {A} (f : ptrie → A) (d : A) : list (option ptrie) → nat → A :=
  fix go cs i :=
    match cs, i with
    | [], _ => d
    | None :: _, O => d
    | Some c :: _, O => f c
    | _ :: cs, S i => go cs i
    end.
Definition pchild (cs : list (option ptrie)) (i : nat) : option ptrie := mjoin (cs !! i).
Lemma on_child_eq {A} (f : ptrie → A) d cs i :
  on_child f d cs i = match pchild cs i with Some c => f c | None => d end.
Proof.
  unfold pchild. revert i. induction cs as [|[c|] cs IH]; intros [|i]; simpl; try done; apply IH.
Qed.
Lemma pchild_Some cs i c : pchild cs i = Some c ↔ cs !! i = Some (Some c).
Proof. unfold pchild. destruct (cs !! i) as [[c'|]|]; simpl; split; congruence. Qed.
Lemma pchild_insert_eq cs i o : i < length cs → pchild (<[i := o]> cs) i = o.
Proof. intros. unfold pchild. by rewrite list_lookup_insert_eq. Qed.
Lemma pchild_insert_ne cs i j o : i ≠ j → pchild (<[i := o]> cs) j = pchild cs j.
Proof. intros. unfold pchild. by rewrite list_lookup_insert_ne. Qed.
Lemma pchild_lt cs i c : pchild cs i = Some c → i < length cs.
Proof. rewrite pchild_Some. apply lookup_lt_Some. Qed.
Lemma pchild_ext cs1 cs2 :
  length cs1 = length cs2 → (∀ i, pchild cs1 i = pchild cs2 i) → cs1 = cs2.
Proof.
  intros Hlen H. apply list_eq. intros i. specialize (H i). unfold pchild in H.
  destruct (cs1 !! i) as [o1|] eqn:H1, (cs2 !! i) as [o2|] eqn:H2; simpl in H; [congruence| | |done].
  - apply lookup_lt_Some in H1. apply lookup_ge_None in H2. lia.
  - apply lookup_lt_Some in H2. apply lookup_ge_None in H1. lia.
Qed.

Fixpoint pget (t : ptrie) (k : bytes) : option (bytes * Z) :=
  match t with
  | PLeaf k' v ver => if bool_decide (k = k') then Some (v, ver) else None
  | PExt p c => match strip p k with Some k' => pget c k' | None => None end
  | PBranch cs =>
    match k with
    | [] => None
    | x :: k' => on_child (λ c, pget c k') None cs (index x)
    end
  end.
Lemma get_branch cs x k :
  pget (PBranch cs) (x :: k) = match pchild cs (index x) with Some c => pget c k | None => None end.
Proof. apply on_child_eq. Qed.

(** ** Well-formed tries *)
Definition isBranch (t : ptrie) : Prop := match t with PBranch _ => True | _ => False end.
Definition present (cs : list (option ptrie)) (i : nat) : Prop := is_Some (pchild cs i).
#[global] Instance present_dec cs i : Decision (present cs i).
Proof. unfold present. apply _. Defined.
(** the positions of the children *)
Definition positions (cs : list (option ptrie)) : list nat := filter (present cs) (seq 0 17).

Inductive wf : bool → ptrie → Prop :=
  | wf_leaf e k v ver : keyFor e k → v ≠ [] → (0 ≤ ver < 256)%Z → wf e (PLeaf k v ver)
  | wf_ext p c : path p → p ≠ [] → isBranch c → wf false c → wf false (PExt p c)
  | wf_branch cs : length cs = 17 → 2 ≤ length (positions cs) →
      (∀ i c, pchild cs i = Some c → wf (atEnd i) c) → wf false (PBranch cs).

Lemma elem_of_positions cs i : i ∈ positions cs ↔ present cs i ∧ i < 17.
Proof. unfold positions. rewrite list_elem_of_filter elem_of_seq. intuition lia. Qed.
Lemma NoDup_positions cs : NoDup (positions cs).
Proof. apply NoDup_filter, NoDup_seq. Qed.
Lemma two_positions cs :
  2 ≤ length (positions cs) ↔
  ∃ i j, i ≠ j ∧ i < 17 ∧ j < 17 ∧ present cs i ∧ present cs j.
Proof.
  split.
  - intros H. pose proof (NoDup_positions cs) as Hnd. pose proof (elem_of_positions cs) as Hin.
    destruct (positions cs) as [|i [|j l]]; simpl in H; [lia..|].
    apply NoDup_cons in Hnd as [Hij _]. exists i, j.
    destruct (proj1 (Hin i)) as [??]; [left|]. destruct (proj1 (Hin j)) as [??]; [right; left|].
    split_and!; try done. intros ->. apply Hij. left.
  - intros (i & j & Hne & Hi & Hj & Hpi & Hpj). change 2 with (length [i; j]).
    apply submseteq_length, NoDup_submseteq.
    + apply NoDup_cons. split; [by intros ->%list_elem_of_singleton|apply NoDup_singleton].
    + intros x [->|[->|[]%elem_of_nil]%elem_of_cons]%elem_of_cons; by apply elem_of_positions.
Qed.

(** every trie has a key, a branch has two that start differently *)
Lemma wf_key e t : wf e t → ∃ k, keyFor e k ∧ is_Some (pget t k).
Proof.
  intros H. induction H as [e k v ver Hk _ _|p c Hp _ _ _ (k & Hk & Hg)|cs Hlen H2 _ IH].
  - exists k. simpl. by rewrite bool_decide_true.
  - exists (p ++ k). split; [by apply keyFor_path|]. simpl. by rewrite strip_app.
  - apply two_positions in H2 as (i & _ & _ & Hi & _ & [c Hc] & _).
    destruct (IH i c Hc) as (k & Hk & Hg). exists (toByte (Z.of_nat i) :: k).
    rewrite keyFor_cons get_branch index_toByte // Hc. done.
Qed.
Lemma branch_keys cs i :
  wf false (PBranch cs) → present cs i → i < 17 →
  ∃ x k, index x = i ∧ keyFor false (x :: k) ∧ is_Some (pget (PBranch cs) (x :: k)).
Proof.
  intros Hwf [c Hc] Hi. inversion Hwf as [| |? _ _ Hcs]; subst.
  destruct (wf_key _ _ (Hcs i c Hc)) as (k & Hk & Hg).
  exists (toByte (Z.of_nat i)), k. rewrite keyFor_cons get_branch index_toByte // Hc. done.
Qed.
Lemma branch_two_keys c :
  isBranch c → wf false c →
  ∃ x y k1 k2, x ≠ y ∧ keyFor false (x :: k1) ∧ keyFor false (y :: k2) ∧
    is_Some (pget c (x :: k1)) ∧ is_Some (pget c (y :: k2)).
Proof.
  intros Hb Hwf. destruct c as [| |cs]; try done.
  inversion Hwf as [| |? _ H2 _]; subst. apply two_positions in H2 as (i & j & Hne & Hi & Hj & Hpi & Hpj).
  destruct (branch_keys cs i Hwf Hpi Hi) as (x & k1 & Hx & Hk1 & Hg1).
  destruct (branch_keys cs j Hwf Hpj Hj) as (y & k2 & Hy & Hk2 & Hg2).
  exists x, y, k1, k2. split; [congruence|done].
Qed.

(** ** Canonicity *)
Lemma prefix_of_two (p q k1 k2 : bytes) x y r1 r2 :
  p ++ x :: k1 = q ++ r1 → p ++ y :: k2 = q ++ r2 → x ≠ y → ∃ p', p = q ++ p'.
Proof.
  revert q. induction p as [|z p IH]; intros [|w q]; simpl; intros H1 H2 Hne.
  - by exists [].
  - simplify_eq.
  - by exists (z :: p).
  - injection H1 as -> H1. injection H2 as H2. destruct (IH q H1 H2 Hne) as [p' ->]. by exists p'.
Qed.
Lemma ext_key p c k : is_Some (pget (PExt p c) k) → ∃ r, k = p ++ r ∧ is_Some (pget c r).
Proof.
  simpl. destruct (strip p k) as [r|] eqn:Hs; [|by intros []].
  apply strip_Some in Hs. eauto.
Qed.
Lemma ext_prefix p1 c1 p2 c2 :
  wf false (PExt p1 c1) → wf false (PExt p2 c2) →
  (∀ k, keyFor false k → pget (PExt p1 c1) k = pget (PExt p2 c2) k) → ∃ p', p1 = p2 ++ p'.
Proof.
  intros H1 H2 Hext. inversion H1 as [|? ? Hp Hne Hb Hc|]; subst.
  destruct (branch_two_keys c1 Hb Hc) as (x & y & k1 & k2 & Hxy & Hk1 & Hk2 & Hg1 & Hg2).
  assert (∀ k, keyFor false k → is_Some (pget c1 k) → ∃ r, p1 ++ k = p2 ++ r) as H.
  { intros k Hk Hg. destruct (ext_key p2 c2 (p1 ++ k)) as (r & -> & _); [|by exists r].
    rewrite -Hext; [|by apply keyFor_path]. simpl. by rewrite strip_app. }
  destruct (H _ Hk1 Hg1) as [r1 ?], (H _ Hk2 Hg2) as [r2 ?]. by apply (prefix_of_two p1 p2 k1 k2 x y r1 r2).
Qed.

Definition sameContent (e : bool) (t1 t2 : ptrie) : Prop := ∀ k, keyFor e k → pget t1 k = pget t2 k.

(** a leaf has one key *)
Lemma leaf_alone e k v ver t k1 k2 :
  sameContent e (PLeaf k v ver) t → keyFor e k1 → keyFor e k2 →
  is_Some (pget t k1) → is_Some (pget t k2) → k1 = k2.
Proof.
  intros Hs Hk1 Hk2. rewrite -(Hs k1) // -(Hs k2) //=.
  case_bool_decide; [|by intros []]. case_bool_decide; [|by intros _ []]. congruence.
Qed.
Lemma leaf_not_branch_below e k v ver p c t :
  path p → isBranch c → wf false c → e = false → (∀ k, pget t (p ++ k) = pget c k) →
  ¬ sameContent e (PLeaf k v ver) t.
Proof.
  intros Hp Hb Hc -> Hg Hs.
  destruct (branch_two_keys c Hb Hc) as (x & y & k1 & k2 & Hxy & Hk1 & Hk2 & Hg1 & Hg2).
  assert (p ++ x :: k1 = p ++ y :: k2) as E.
  { eapply leaf_alone; [exact Hs|..]; rewrite ?keyFor_path ?Hg //. }
  apply app_inv_head in E. congruence.
Qed.
Lemma ext_not_branch p c cs :
  wf false (PExt p c) → wf false (PBranch cs) → ¬ sameContent false (PExt p c) (PBranch cs).
Proof.
  intros Hwf Hwf' Hs. inversion Hwf as [|? ? _ Hne _ _|]; subst.
  destruct (branch_two_keys (PBranch cs) I Hwf') as (x & y & k1 & k2 & Hxy & Hk1 & Hk2 & Hg1 & Hg2).
  rewrite -(Hs _ Hk1) in Hg1. rewrite -(Hs _ Hk2) in Hg2.
  apply ext_key in Hg1 as (r1 & E1 & _), Hg2 as (r2 & E2 & _).
  destruct p as [|z p]; [done|]. by simplify_eq/=.
Qed.

Lemma branch_ext cs1 cs2 :
  wf false (PBranch cs1) → wf false (PBranch cs2) → sameContent false (PBranch cs1) (PBranch cs2) →
  (∀ i c1 c2, pchild cs1 i = Some c1 → wf (atEnd i) c1 → wf (atEnd i) c2 → sameContent (atEnd i) c1 c2 → c1 = c2) →
  cs1 = cs2.
Proof.
  intros H1 H2 Hs IH. inversion H1 as [| |? Hl1 _ Hc1]; inversion H2 as [| |? Hl2 _ Hc2]; subst.
  apply pchild_ext; [congruence|]. intros i. destruct (decide (i < 17)) as [Hi|Hi].
  2:{ unfold pchild. rewrite !lookup_ge_None_2 //; lia. }
  assert (∀ k, keyFor (atEnd i) k →
    match pchild cs1 i with Some c => pget c k | None => None end =
    match pchild cs2 i with Some c => pget c k | None => None end) as Hg.
  { intros k Hk. specialize (Hs (toByte (Z.of_nat i) :: k)).
    rewrite !get_branch index_toByte // in Hs. apply Hs. by rewrite keyFor_cons index_toByte. }
  destruct (pchild cs1 i) as [c1|] eqn:E1, (pchild cs2 i) as [c2|] eqn:E2; [| | |done].
  - f_equal. apply (IH i c1 c2 E1); [by apply Hc1|by apply Hc2|done].
  - destruct (wf_key _ _ (Hc1 i c1 E1)) as (k & Hk & Hg'). rewrite Hg // in Hg'.
  - destruct (wf_key _ _ (Hc2 i c2 E2)) as (k & Hk & Hg'). rewrite -Hg // in Hg'.
Qed.

(** a well-formed trie is determined by its content *)
Lemma trie_ext e t1 t2 : wf e t1 → wf e t2 → sameContent e t1 t2 → t1 = t2.
Proof.
  revert e t2. induction t1 as [k1 v1 ver1|p1 c1 IH|cs1 IH] using ptrie_induction;
    intros e t2 H1 H2 Hs.
  - destruct t2 as [k2 v2 ver2|p2 c2|cs2].
    + inversion H1 as [? ? ? ? Hk1 _ _| |]; inversion H2 as [? ? ? ? Hk2 _ _| |]; subst.
      pose proof (Hs k1 Hk1) as E. simpl in E. rewrite bool_decide_true // in E.
      case_bool_decide; [|done]. congruence.
    + exfalso. inversion H2 as [|? ? Hp _ Hb Hc|]; subst.
      eapply (leaf_not_branch_below false k1 v1 ver1 p2 c2 (PExt p2 c2)); try done.
      intros k. simpl. by rewrite strip_app.
    + exfalso. inversion H2; subst.
      eapply (leaf_not_branch_below false k1 v1 ver1 [] (PBranch cs2) (PBranch cs2)); try done.
      apply Forall_nil_2.
  - inversion H1 as [|? ? Hp1 Hne1 Hb1 Hc1|]; subst. destruct t2 as [k2 v2 ver2|p2 c2|cs2].
    + exfalso. eapply (leaf_not_branch_below false k2 v2 ver2 p1 c1 (PExt p1 c1)); try done.
      * intros k. simpl. by rewrite strip_app.
      * intros k Hk. by rewrite Hs.
    + inversion H2 as [|? ? Hp2 Hne2 Hb2 Hc2|]; subst.
      destruct (ext_prefix p1 c1 p2 c2 H1 H2 Hs) as [q Hq].
      destruct (ext_prefix p2 c2 p1 c1 H2 H1) as [q' Hq'].
      { intros k Hk. by rewrite Hs. }
      assert (p1 = p2) as ->.
      { rewrite Hq' -app_assoc in Hq. apply (f_equal length) in Hq as Hl. rewrite !length_app in Hl.
        destruct q' as [|]; [by rewrite app_nil_r in Hq'|simpl in Hl; lia]. }
      f_equal. apply (IH false); [done..|]. intros k Hk.
      specialize (Hs (p2 ++ k)). simpl in Hs. rewrite !strip_app in Hs. apply Hs.
      by apply keyFor_path.
    + exfalso. by apply (ext_not_branch p1 c1 cs2).
  - inversion H1 as [| |? Hl1 _ Hc1]; subst. destruct t2 as [k2 v2 ver2|p2 c2|cs2].
    + exfalso. eapply (leaf_not_branch_below false k2 v2 ver2 [] (PBranch cs1) (PBranch cs1)); try done.
      * apply Forall_nil_2.
      * intros k Hk. by rewrite Hs.
    + exfalso. apply (ext_not_branch p2 c2 cs1); try done. intros k Hk. by rewrite Hs.
    + f_equal. apply branch_ext; try done. intros i c1 c2 Hc. by apply (IH i), pchild_Some.
Qed.

(** ** Building blocks *)
Definition pext (p : bytes) (t : ptrie) : ptrie := match p with [] => t | _ => PExt p t end.
Definition noChildren : list (option ptrie) := replicate 17 None.
Definition fork (x : byte) (a : ptrie) (y : byte) (b : ptrie) : ptrie :=
  PBranch (<[index y := Some b]> (<[index x := Some a]> noChildren)).
(** a path in front of a trie, merged with the one it starts with *)
Definition prefixed (p : bytes) (t : ptrie) : ptrie :=
  match t with
  | PLeaf k v ver => PLeaf (p ++ k) v ver
  | PExt p' c => PExt (p ++ p') c
  | PBranch _ => PExt p t
  end.

Lemma pext_nonempty p t : p ≠ [] → pext p t = PExt p t.
Proof. by destruct p. Qed.
Lemma get_pext p t k :
  pget (pext p t) k = match strip p k with Some r => pget t r | None => None end.
Proof. by destruct p. Qed.
Lemma get_prefixed p t k :
  pget (prefixed p t) k = match strip p k with Some r => pget t r | None => None end.
Proof.
  destruct t as [k' v ver|p' c|cs]; simpl; [|by rewrite strip_app_l; destruct (strip p k)|done].
  destruct (strip p k) as [r|] eqn:Hs.
  - apply strip_Some in Hs as ->.
    case_bool_decide as H1; case_bool_decide as H2; try done.
    + by apply app_inv_head in H1.
    + by subst.
  - rewrite bool_decide_false //. intros ->. by rewrite strip_app in Hs.
Qed.

Lemma pchild_none i : pchild noChildren i = None.
Proof.
  unfold pchild, noChildren. destruct (replicate 17 None !! i) as [o|] eqn:H; [|done].
  apply lookup_replicate in H as [-> _]. done.
Qed.
Lemma pchild_fork x a y b i :
  index x < 17 → index y < 17 → x ≠ y →
  pchild (<[index y := Some b]> (<[index x := Some a]> noChildren)) i =
    if bool_decide (i = index y) then Some b else if bool_decide (i = index x) then Some a else None.
Proof.
  intros Hx Hy Hne. case_bool_decide as Hiy; [subst|].
  { rewrite pchild_insert_eq // length_insert. by unfold noChildren. }
  rewrite pchild_insert_ne; [|congruence]. case_bool_decide as Hix; [subst|].
  { by rewrite pchild_insert_eq. }
  rewrite pchild_insert_ne; [|congruence]. apply pchild_none.
Qed.
Lemma get_fork x a y b z k :
  index x < 17 → index y < 17 → x ≠ y →
  pget (fork x a y b) (z :: k) =
    if bool_decide (z = y) then pget b k else if bool_decide (z = x) then pget a k else None.
Proof.
  intros Hx Hy Hne. unfold fork. rewrite get_branch pchild_fork //.
  rewrite (bool_decide_ext (index z = index y) (z = y)); [|split; [apply index_inj|congruence]].
  rewrite (bool_decide_ext (index z = index x) (z = x)); [|split; [apply index_inj|congruence]].
  by repeat case_bool_decide.
Qed.
Lemma wf_fork x a y b :
  index x < 17 → index y < 17 → x ≠ y → wf (atEnd (index x)) a → wf (atEnd (index y)) b →
  wf false (fork x a y b).
Proof.
  intros Hx Hy Hne Ha Hb. apply wf_branch.
  - by rewrite !length_insert.
  - apply two_positions. exists (index x), (index y). unfold present. rewrite !pchild_fork //.
    split; [by intros ?%index_inj|]. do 2 (split; [done|]).
    split; repeat case_bool_decide; eauto; congruence.
  - intros i c. rewrite pchild_fork //. case_bool_decide; [by intros [= <-]; subst|].
    case_bool_decide; [by intros [= <-]; subst|done].
Qed.
Lemma wf_pext p t : path p → isBranch t → wf false t → wf false (pext p t).
Proof. intros Hp Hb Ht. destruct p; [done|]. by apply wf_ext. Qed.
Lemma wf_prefixed p t : path p → p ≠ [] → wf false t → wf false (prefixed p t).
Proof.
  intros Hp Hne Ht. inversion Ht as [? k v ver Hk Hv Hver|p' c Hp' _ Hb Hc|cs]; subst; simpl.
  - apply wf_leaf; [|done..]. by apply keyFor_path.
  - apply wf_ext; [by apply Forall_app| |done..]. destruct p; done.
  - by apply wf_ext.
Qed.
(** the last child of a branch *)
Lemma wf_prefixed_one i t : i < 17 → wf (atEnd i) t → wf false (prefixed [toByte (Z.of_nat i)] t).
Proof.
  intros Hi Ht. destruct (atEnd i) eqn:He.
  - inversion Ht as [? k v ver Hk Hv Hver| |]; subst. simpl. apply wf_leaf; [|done..].
    change (keyFor false (toByte (Z.of_nat i) :: k)). rewrite keyFor_cons index_toByte // He. done.
  - apply wf_prefixed; [|done..]. apply Forall_singleton, not_end_nibble; rewrite index_toByte //.
Qed.

(** ** Insertion *)
Fixpoint pinsert (t : ptrie) (k v : bytes) (ver : Z) : option ptrie :=
  match t with
  | PLeaf k' v' ver' =>
    if bool_decide (k = k') then if bool_decide (v' = v) then None else Some (PLeaf k' v ver)
    else
      let m := prefixLen k k' in
      Some (pext (take m k') (fork (nth m k' x00) (PLeaf (drop (m + 1) k') v' ver')
                                   (nth m k x00) (PLeaf (drop (m + 1) k) v ver)))
  | PExt p c =>
    let m := prefixLen k p in
    if (m =? length p)%nat then PExt p <$> pinsert c (drop m k) v ver
    else
      Some (pext (take m p) (fork (nth m p x00) (pext (drop (m + 1) p) c)
                                  (nth m k x00) (PLeaf (drop (m + 1) k) v ver)))
  | PBranch cs =>
    match k with
    | [] => None
    | x :: k =>
      on_child (λ c, (λ c', PBranch (<[index x := Some c']> cs)) <$> pinsert c k v ver)
        (Some (PBranch (<[index x := Some (PLeaf k v ver)]> cs))) cs (index x)
    end
  end.
Lemma pinsert_branch cs x k v ver :
  pinsert (PBranch cs) (x :: k) v ver =
    match pchild cs (index x) with
    | Some c => (λ c', PBranch (<[index x := Some c']> cs)) <$> pinsert c k v ver
    | None => Some (PBranch (<[index x := Some (PLeaf k v ver)]> cs))
    end.
Proof. apply on_child_eq. Qed.

(** [t'] is [t] with a new value for [k]; [None] if the value is the old one *)
Definition inserted (e : bool) (t : ptrie) (k v : bytes) (ver : Z) (r : option ptrie) : Prop :=
  match r with
  | None => ∃ ver', pget t k = Some (v, ver')
  | Some t' => (∀ ver', pget t k ≠ Some (v, ver')) ∧ wf e t' ∧
      ∀ k', keyFor e k' → pget t' k' = if bool_decide (k' = k) then Some (v, ver) else pget t k'
  end.

(** an old and a new subtrie side by side *)
Lemma fork_inserted p x y a b k v ver old t :
  path p → index x < 17 → index y < 17 → x ≠ y → wf (atEnd (index x)) a →
  keyFor (atEnd (index y)) b → v ≠ [] → (0 ≤ ver < 256)%Z → k = p ++ y :: b →
  (∀ k', pget t k' = match strip (p ++ [x]) k' with Some r => pget a r | None => None end) →
  old = fork x a y (PLeaf b v ver) →
  inserted false t k v ver (Some (pext p old)).
Proof.
  intros Hp Hx Hy Hne Ha Hb Hv Hver -> Ht ->. split; [|split].
  - intros ver'. rewrite Ht strip_app_l strip_app /=. by rewrite bool_decide_false.
  - apply wf_pext; [done|done|]. apply wf_fork; try done. by apply wf_leaf.
  - intros k' Hk'. rewrite get_pext Ht strip_app_l.
    destruct (strip p k') as [r|] eqn:Hs.
    2:{ rewrite bool_decide_false //. intros ->. by rewrite strip_app in Hs. }
    apply strip_Some in Hs as ->. rewrite keyFor_path // in Hk'. destruct r as [|z r]; [done|].
    rewrite get_fork // (bool_decide_ext (p ++ z :: r = p ++ y :: b) (z = y ∧ r = b)).
    2:{ split; [by intros [= -> ->]%app_inv_head|by intros [-> ->]]. }
    simpl. destruct (decide (z = y)) as [->|Hzy].
    + rewrite (bool_decide_true (y = y)) // (bool_decide_false (x = y)) //.
      repeat case_bool_decide; naive_solver.
    + rewrite (bool_decide_false (z = y)) // (bool_decide_false (z = y ∧ r = b)); [|naive_solver].
      repeat case_bool_decide; naive_solver.
Qed.

Lemma take_split (p : bytes) x r : take (length p) (p ++ x :: r) = p.
Proof. apply take_app_length. Qed.
Lemma nth_split (p : bytes) x r : nth (length p) (p ++ x :: r) x00 = x.
Proof. rewrite app_nth2; [|lia]. by rewrite Nat.sub_diag. Qed.
Lemma drop_split (p : bytes) x r : drop (length p + 1) (p ++ x :: r) = r.
Proof. rewrite (cons_middle x p r) app_assoc. apply drop_app_length'. by rewrite length_app. Qed.

Lemma path_not_term p : path p → ¬ keyFor false p.
Proof. intros Hp Hk. rewrite -(app_nil_r p) in Hk. by apply keyFor_path in Hk. Qed.

(** a key meets a path: it goes through it or leaves it *)
Lemma key_path k p :
  keyFor false k → path p →
  (prefixLen k p = length p ∧ k = p ++ drop (length p) k) ∨
  ∃ q x y p' k', p = q ++ x :: p' ∧ k = q ++ y :: k' ∧ x ≠ y ∧ prefixLen k p = length q.
Proof.
  intros Hk Hp. destruct (prefixLen_split k p) as (q & k' & p' & -> & -> & -> & H).
  destruct p' as [|x p'].
  { left. rewrite app_nil_r. split; [done|]. by rewrite drop_app_length. }
  destruct H as [->|[?|(y & x' & a1 & b1 & -> & [= -> ->] & ?)]]; [|done|].
  - exfalso. rewrite app_nil_r in Hk. apply Forall_app in Hp as [Hp _]. by eapply path_not_term.
  - right. by exists q, x', y, b1, a1.
Qed.

(** what the recursive call has to provide *)
Definition insertsInto (c : ptrie) : Prop := ∀ e k v ver,
  wf e c → keyFor e k → v ≠ [] → (0 ≤ ver < 256)%Z → inserted e c k v ver (pinsert c k v ver).

Lemma pinsert_leaf k0 v0 ver0 : insertsInto (PLeaf k0 v0 ver0).
Proof.
  intros e k v ver Hwf Hk Hv Hver.
  inversion Hwf as [? ? ? ? Hk0 Hv0 Hver0| |]; subst. simpl.
  destruct (decide (k = k0)) as [<-|Hne].
  - rewrite bool_decide_true //. case_bool_decide as Hvv.
    + exists ver0. simpl. by rewrite bool_decide_true // Hvv.
    + split; [simpl; rewrite bool_decide_true //; naive_solver|]. split; [by apply wf_leaf|].
      intros k' Hk'. simpl. by case_bool_decide.
  - rewrite bool_decide_false //. destruct e; [by unfold keyFor in Hk, Hk0; subst|].
    destruct (keys_differ k k0 Hk Hk0 Hne) as (p & x & y & a & b & -> & -> & Hxy & ->).
    destruct (keyFor_split p x a Hk) as (Hp & Hx & Ha).
    destruct (keyFor_split p y b Hk0) as (_ & Hy & Hb).
    rewrite take_split !nth_split !drop_split.
    apply (fork_inserted p y x (PLeaf b v0 ver0) a _ v ver
             (fork y (PLeaf b v0 ver0) x (PLeaf a v ver))); try done.
    + by apply wf_leaf.
    + intros k'. simpl. destruct (strip (p ++ [y]) k') as [r|] eqn:Hs.
      * apply strip_Some in Hs as ->. rewrite -app_assoc /=.
        repeat case_bool_decide; naive_solver.
      * rewrite bool_decide_false //. intros ->.
        by rewrite (cons_middle y p b) app_assoc strip_app in Hs.
Qed.

(** inserting into a branch gives a branch *)
Lemma pinsert_isBranch c k v ver c' : isBranch c → pinsert c k v ver = Some c' → isBranch c'.
Proof.
  destruct c as [| |cs]; [done|done|]. intros _. destruct k as [|z r]; [done|].
  rewrite pinsert_branch. destruct (pchild cs (index z)) as [cz|]; [|by intros [= <-]].
  destruct (pinsert cz r v ver); simpl; [by intros [= <-]|done].
Qed.

Lemma pinsert_ext p c : insertsInto c → insertsInto (PExt p c).
Proof.
  intros IH e k v ver Hwf Hk Hv Hver. inversion Hwf as [|? ? Hp Hne Hb Hc|]; subst. simpl.
  destruct (key_path k p Hk Hp) as [[Hm Hkp]|(q & x & y & p' & k' & -> & -> & Hxy & Hm)].
  - rewrite Hm Nat.eqb_refl. rewrite Hkp in Hk. rewrite keyFor_path // in Hk.
    specialize (IH false (drop (length p) k) v ver Hc Hk Hv Hver).
    assert (pget (PExt p c) k = pget c (drop (length p) k)) as Hg.
    { simpl. by rewrite {1}Hkp strip_app. }
    destruct (pinsert c (drop (length p) k) v ver) as [c'|] eqn:Hi; simpl.
    2:{ destruct IH as [ver' Hver']. exists ver'. by rewrite -Hver' -Hg. }
    destruct IH as (Hno & Hwf' & Hget). split; [intros ver' E; apply (Hno ver'); by rewrite -Hg|].
    split; [apply wf_ext; try done; by eapply pinsert_isBranch|].
    intros k' Hk'. simpl. destruct (strip p k') as [r|] eqn:Hs.
    + apply strip_Some in Hs as ->. rewrite keyFor_path // in Hk'. rewrite Hget //.
      rewrite (bool_decide_ext (p ++ r = k) (r = drop (length p) k)) //.
      split; [intros <-; by rewrite drop_app_length|intros ->; done].
    + rewrite bool_decide_false //. intros ->. by rewrite Hkp strip_app in Hs.
  - rewrite Hm. assert (length q ≠ length (q ++ x :: p')) as Hlen.
    { rewrite length_app /=. lia. }
    apply Nat.eqb_neq in Hlen as ->. apply Forall_app in Hp as [Hq Hp].
    apply Forall_cons in Hp as [Hx Hp']. destruct (keyFor_split q y k' Hk) as (_ & Hy & Hk').
    rewrite take_split !nth_split !drop_split.
    apply (fork_inserted q x y (pext p' c) k' _ v ver (fork x (pext p' c) y (PLeaf k' v ver))); try done.
    + unfold nibble in Hx. lia.
    + rewrite nibble_not_end //. by apply wf_pext.
    + intros r. cbn [pget]. rewrite (cons_middle x q p') app_assoc strip_app_l.
      destruct (strip (q ++ [x]) r) as [r'|]; [|done]. by rewrite get_pext.
Qed.

Definition getO (o : option ptrie) (k : bytes) : option (bytes * Z) :=
  match o with Some t => pget t k | None => None end.
(** replacing a child of a branch *)
Lemma get_branch_insert cs x o k :
  length cs = 17 → index x < 17 →
  pget (PBranch (<[index x := o]> cs)) k =
    match k with
    | [] => None
    | z :: r => if bool_decide (z = x) then getO o r else pget (PBranch cs) k
    end.
Proof.
  intros Hlen Hx. destruct k as [|z r]; [done|]. rewrite !get_branch. case_bool_decide as Hzx.
  - subst. rewrite pchild_insert_eq; [done|lia].
  - rewrite pchild_insert_ne; [done|]. by intros ?%index_inj.
Qed.
Lemma wf_branch_insert cs i c :
  wf false (PBranch cs) → i < 17 → wf (atEnd i) c → wf false (PBranch (<[i := Some c]> cs)).
Proof.
  intros Hwf Hi Hc. inversion Hwf as [| |? Hlen H2 Hcs]; subst. apply wf_branch.
  - by rewrite length_insert.
  - apply two_positions in H2 as (n & m & Hnm & Hn & Hm & Hpn & Hpm).
    assert (∀ j, present cs j → present (<[i := Some c]> cs) j) as Hpr.
    { intros j Hj. unfold present. destruct (decide (j = i)) as [->|].
      - rewrite pchild_insert_eq; [done|lia].
      - by rewrite pchild_insert_ne. }
    apply two_positions. exists n, m. split_and!; auto.
  - intros j d. destruct (decide (j = i)) as [->|].
    + rewrite pchild_insert_eq; [by intros [= <-]|lia].
    + rewrite pchild_insert_ne //. apply Hcs.
Qed.

Lemma pinsert_branch_spec cs :
  (∀ i c, cs !! i = Some (Some c) → insertsInto c) → insertsInto (PBranch cs).
Proof.
  intros IH e k v ver Hwf Hk Hv Hver. inversion Hwf as [| |? Hlen H2 Hcs]; subst.
  destruct k as [|x k]; [done|]. apply keyFor_cons in Hk as [Hx Hk]. rewrite pinsert_branch.
  destruct (pchild cs (index x)) as [c|] eqn:Hc.
  - specialize (IH (index x) c ltac:(by apply pchild_Some) _ k v ver (Hcs _ _ Hc) Hk Hv Hver).
    assert (pget (PBranch cs) (x :: k) = pget c k) as Hg by (by rewrite get_branch Hc).
    destruct (pinsert c k v ver) as [c'|]; cbn [fmap option_fmap option_map inserted].
    2:{ destruct IH as [ver' Hver']. exists ver'. by rewrite -Hver' -Hg. }
    destruct IH as (Hno & Hwf' & Hget). split; [intros ver' E; apply (Hno ver'); by rewrite -Hg|].
    split; [by apply wf_branch_insert|]. intros k' Hk'. rewrite get_branch_insert //.
    destruct k' as [|z r]; [done|]. apply keyFor_cons in Hk' as [Hz Hr]. case_bool_decide as Hzx.
    + subst z. cbn [getO]. rewrite Hget // get_branch Hc. repeat case_bool_decide; naive_solver.
    + rewrite (bool_decide_false (z :: r = x :: k)) //. congruence.
  - cbn [inserted]. split; [intros ver'; by rewrite get_branch Hc|].
    split; [apply wf_branch_insert; [done..|by apply wf_leaf]|].
    intros k' Hk'. rewrite get_branch_insert //. destruct k' as [|z r]; [done|].
    case_bool_decide as Hzx.
    + subst z. rewrite get_branch Hc /=. repeat case_bool_decide; naive_solver.
    + rewrite (bool_decide_false (z :: r = x :: k)) //. congruence.
Qed.

Lemma pinsert_spec t : insertsInto t.
Proof.
  induction t using ptrie_induction;
    [apply pinsert_leaf|by apply pinsert_ext|by apply pinsert_branch_spec].
Qed.

(** ** Deletion *)

(** a branch whose children have changed *)
Definition normalised (cs : list (option ptrie)) : ptrie :=
  match positions cs with
  | [pos] => match pchild cs pos with
             | Some c => prefixed [toByte (Z.of_nat pos)] c
             | None => PBranch cs
             end
  | _ => PBranch cs
  end.
(** [None] if the key is absent, [Some None] if nothing is left *)
Fixpoint pdelete (t : ptrie) (k : bytes) : option (option ptrie) :=
  match t with
  | PLeaf k' _ _ => if bool_decide (k = k') then Some None else None
  | PExt p c =>
    if (prefixLen k p <? length p)%nat then None
    else (λ o : option ptrie, prefixed p <$> o) <$> pdelete c (drop (length p) k)
  | PBranch cs =>
    match k with
    | [] => None
    | x :: k => on_child (λ c, (λ o, Some (normalised (<[index x := o]> cs))) <$> pdelete c k)
                  None cs (index x)
    end
  end.
Lemma pdelete_branch cs x k :
  pdelete (PBranch cs) (x :: k) =
    match pchild cs (index x) with
    | Some c => (λ o, Some (normalised (<[index x := o]> cs))) <$> pdelete c k
    | None => None
    end.
Proof. apply on_child_eq. Qed.

(** [r] is [t] without [k] *)
Definition deleted (e : bool) (t : ptrie) (k : bytes) (r : option (option ptrie)) : Prop :=
  match r with
  | None => pget t k = None
  | Some o => is_Some (pget t k) ∧ (∀ t', o = Some t' → wf e t') ∧
      ∀ k', keyFor e k' → getO o k' = if bool_decide (k' = k) then None else pget t k'
  end.
Definition deletesFrom (c : ptrie) : Prop := ∀ e k,
  wf e c → keyFor e k → deleted e c k (pdelete c k).

Lemma pdelete_leaf k0 v0 ver0 : deletesFrom (PLeaf k0 v0 ver0).
Proof.
  intros e k Hwf Hk. simpl. case_bool_decide as Hkk; simpl; [|by rewrite bool_decide_false].
  subst. rewrite bool_decide_true //. split; [done|]. split; [done|].
  intros k' _. simpl. by case_bool_decide.
Qed.

Lemma pdelete_ext p c : deletesFrom c → deletesFrom (PExt p c).
Proof.
  intros IH e k Hwf Hk. inversion Hwf as [|? ? Hp Hne Hb Hc|]; subst. cbn [pdelete].
  destruct (key_path k p Hk Hp) as [[Hm Hkp]|(q & x & y & p' & k' & -> & -> & Hxy & Hm)].
  - rewrite Hm Nat.ltb_irrefl. rewrite Hkp in Hk. rewrite keyFor_path // in Hk.
    specialize (IH false (drop (length p) k) Hc Hk).
    assert (pget (PExt p c) k = pget c (drop (length p) k)) as Hg.
    { simpl. by rewrite {1}Hkp strip_app. }
    destruct (pdelete c (drop (length p) k)) as [o|]; cbn [fmap option_fmap option_map deleted];
      [|by rewrite Hg].
    destruct IH as (Hin & Hwf' & Hget). split; [by rewrite Hg|]. split.
    + intros t' Ht'. apply fmap_Some in Ht' as (t & -> & ->). by apply wf_prefixed, Hwf'.
    + intros k' Hk'. transitivity (match strip p k' with Some r => getO o r | None => None end).
      { destruct o as [t|]; simpl; [apply get_prefixed|by destruct (strip p k')]. }
      cbn [pget]. destruct (strip p k') as [r|] eqn:Hs; [|by case_bool_decide].
      apply strip_Some in Hs as ->. rewrite keyFor_path // in Hk'. rewrite Hget //.
      rewrite (bool_decide_ext (p ++ r = k) (r = drop (length p) k)) //.
      split; [intros <-; by rewrite drop_app_length|intros ->; done].
  - rewrite Hm. assert (length q < length (q ++ x :: p')) as Hlen by (rewrite length_app /=; lia).
    apply Nat.ltb_lt in Hlen as ->. simpl. rewrite strip_app_l strip_app /=.
    by rewrite bool_decide_false.
Qed.

Lemma normalised_spec cs :
  length cs = 17 → (∀ i c, pchild cs i = Some c → wf (atEnd i) c) → (∃ i, present cs i ∧ i < 17) →
  wf false (normalised cs) ∧ ∀ k, keyFor false k → pget (normalised cs) k = pget (PBranch cs) k.
Proof.
  intros Hlen Hcs (i0 & Hi0 & Hlt0). unfold normalised.
  pose proof (elem_of_positions cs) as Hin.
  destruct (positions cs) as [|pos [|pos2 l]] eqn:Hpos.
  - exfalso. apply (not_elem_of_nil i0). by apply Hin.
  - destruct (proj1 (Hin pos)) as [[c Hc] Hlt]; [left|]. rewrite Hc.
    split; [by apply wf_prefixed_one, Hcs|]. intros [|z r] Hk; [done|].
    apply keyFor_cons in Hk as [Hz Hk]. rewrite get_prefixed get_branch /=.
    case_bool_decide as Hzp.
    + by rewrite -Hzp index_toByte // Hc.
    + destruct (pchild cs (index z)) as [d|] eqn:Hd; [|done]. exfalso. apply Hzp.
      assert (index z ∈ [pos]) as <-%list_elem_of_singleton; [|apply toByte_index].
      apply Hin. split; [by exists d|done].
  - split; [|done]. apply wf_branch; [done| |done]. rewrite Hpos /=. lia.
Qed.

Lemma pdelete_branch_spec cs :
  (∀ i c, cs !! i = Some (Some c) → deletesFrom c) → deletesFrom (PBranch cs).
Proof.
  intros IH e k Hwf Hk. inversion Hwf as [| |? Hlen H2 Hcs]; subst.
  destruct k as [|x k]; [done|]. apply keyFor_cons in Hk as [Hx Hk]. rewrite pdelete_branch.
  destruct (pchild cs (index x)) as [c|] eqn:Hc; [|by rewrite /deleted get_branch Hc].
  specialize (IH (index x) c ltac:(by apply pchild_Some) _ k (Hcs _ _ Hc) Hk).
  assert (pget (PBranch cs) (x :: k) = pget c k) as Hg by (by rewrite get_branch Hc).
  destruct (pdelete c k) as [o|]; cbn [fmap option_fmap option_map deleted]; [|by rewrite Hg].
  destruct IH as (Hin & Hwf' & Hget).
  destruct (normalised_spec (<[index x := o]> cs)) as [Hwfn Hgetn].
  - by rewrite length_insert.
  - intros j d. destruct (decide (j = index x)) as [->|].
    + rewrite pchild_insert_eq; [apply Hwf'|lia].
    + rewrite pchild_insert_ne //. apply Hcs.
  - apply two_positions in H2 as (n & m & Hnm & Hn & Hm & Hpn & Hpm).
    destruct (decide (n = index x)) as [->|].
    + exists m. unfold present. by rewrite pchild_insert_ne.
    + exists n. unfold present. by rewrite pchild_insert_ne.
  - split; [by rewrite Hg|]. split; [by intros t' [= <-]|]. intros k' Hk'. cbn [getO].
    rewrite Hgetn // get_branch_insert //. destruct k' as [|z r]; [done|].
    apply keyFor_cons in Hk' as [Hz Hr]. case_bool_decide as Hzx.
    + subst z. rewrite Hget // get_branch Hc. repeat case_bool_decide; naive_solver.
    + rewrite (bool_decide_false (z :: r = x :: k)) //. congruence.
Qed.

Lemma pdelete_spec t : deletesFrom t.
Proof.
  induction t using ptrie_induction;
    [apply pdelete_leaf|by apply pdelete_ext|by apply pdelete_branch_spec].
Qed.
