(* ===== verification/TrieSpec.v ===== *)
(** * TrieSpec: the nodes represent a canonical trie

    [Rep db n t] says that the node [n], whose missing children are in the
    storage [db], stands for the trie [t]: a cached hash is the hash of [t], a
    node that is not dirty is stored with everything below it.  [phash] is the
    Merkle hash of a canonical trie. *)
From S2P Require Import Prelude TrieNode TriePure.
#[local] Set Warnings "-register-all".
#[local] Open Scope go_scope.

(** the documented behaviour of the storage, the marshaller and the hasher *)
Class TrieLaws {TE : TrieEnvironment} : Prop := {
  branch_laws :: MarshallerLaws CollapsedBn (λ _, True) (mkBn [] []);
  extension_laws :: MarshallerLaws CollapsedEn (λ en, 0 ≤ ChildVersion en < 2 ^ 32)%Z (mkEn [] [] 0);
  leaf_laws :: MarshallerLaws CollapsedLn
    (λ ln, lnValue ln ≠ Some [] ∧ (0 ≤ lnVersion ln < 2 ^ 32)%Z) (mkLn [] None 0);
  NotSpecified_zero : NotSpecified = 0%Z;
  Compute_nonempty b : Compute b ≠ [];
  Put_total k v db : ∃ db', Put k v db = inr db';
  Get_Put k v db db' : Put k v db = inr db' → Get k db' = inr v;
  Get_Put_ne k k' v db db' : k ≠ k' → Put k v db = inr db' → Get k' db' = Get k' db;
}.
(** no two encodings have the same hash, and none has that of the empty trie *)
Class CollisionFree {TE : TrieEnvironment} : Prop := {
  Compute_inj : Inj (=) (=) Compute;
  Compute_nonzero b : Compute b ≠ replicate 32 x00;
}.

Section spec.
Context {TE : TrieEnvironment}.

(** ** Versions, encoding and hash of a canonical trie *)
Definition agreed (vs : list Z) : Z :=
  match vs with
  | [] => NotSpecified
  | v :: vs => if forallb (Z.eqb v) vs then v else NotSpecified
  end.
Fixpoint pversion (t : ptrie) : Z :=
  match t with
  | PLeaf _ _ ver => ver
  | PExt _ c => pversion c
  | PBranch cs =>
    agreed ((fix go cs := match cs with
                          | [] => []
                          | Some c :: cs => pversion c :: go cs
                          | None :: cs => go cs
                          end) cs)
  end.
Definition versionByte (o : option ptrie) : byte :=
  match o with Some c => toByte (pversion c) | None => x00 end.
Definition versionBytes (cs : list (option ptrie)) : bytes :=
  if forallb (λ v, bool_decide (v = x00)) (versionByte <$> cs) then [] else versionByte <$> cs.

Definition marshalled {T} `{Marshaller T} (x : T) : bytes :=
  match Marshal x with inr b => b | inl _ => [] end.
Definition encLeaf (k v : bytes) (ver : Z) : bytes := marshalled (mkLn k (Some v) ver) ++ [leaf].
Definition encExt (p h : bytes) (ver : Z) : bytes := marshalled (mkEn p h ver) ++ [extension].
Definition encBranch (hs : list bytes) (vs : bytes) : bytes := marshalled (mkBn hs vs) ++ [branch].
Fixpoint phash (t : ptrie) : bytes :=
  match t with
  | PLeaf k v ver => Compute (encLeaf k v ver)
  | PExt p c => Compute (encExt p (phash c) (pversion c))
  | PBranch cs =>
    Compute (encBranch (map (λ o, match o with Some c => phash c | None => [] end) cs) (versionBytes cs))
  end.
Definition phashO (o : option ptrie) : bytes := match o with Some c => phash c | None => [] end.
Definition penc (t : ptrie) : bytes :=
  match t with
  | PLeaf k v ver => encLeaf k v ver
  | PExt p c => encExt p (phash c) (pversion c)
  | PBranch cs => encBranch (phashO <$> cs) (versionBytes cs)
  end.
Lemma phash_penc t : phash t = Compute (penc t).
Proof. by destruct t. Qed.

(** the node and everything below it is in the storage *)
Inductive stored (db : Storage) : ptrie → Prop :=
  | stored_leaf k v ver : Get (phash (PLeaf k v ver)) db = inr (penc (PLeaf k v ver)) →
      stored db (PLeaf k v ver)
  | stored_ext p c : Get (phash (PExt p c)) db = inr (penc (PExt p c)) → stored db c →
      stored db (PExt p c)
  | stored_branch cs : Get (phash (PBranch cs)) db = inr (penc (PBranch cs)) →
      (∀ i c, pchild cs i = Some c → stored db c) → stored db (PBranch cs).
Lemma stored_get db t : stored db t → Get (phash t) db = inr (penc t).
Proof. by destruct 1. Qed.

(** ** Representation *)
Record baseOk (db : Storage) (b : baseNode) (t : ptrie) : Prop := {
  base_hash h : hash b = Some h → h = phash t;
  base_clean : dirty b = false → is_Some (hash b) ∧ stored db t;
}.
(** a child: absent, only in the storage, or in memory; [hashed] if the hash of
    the parent is known *)
Inductive slot (R : node → ptrie → Prop) (db : Storage) (hashed : Prop) :
    bytes → option node → option ptrie → Prop :=
  | slot_absent : slot R db hashed [] None None
  | slot_stored c : stored db c → slot R db hashed (phash c) None (Some c)
  | slot_loaded e n c : R n c → (hashed → e = phash c ∧ is_Some (getHash n)) →
      slot R db hashed e (Some n) (Some c).
Record slots (R : node → ptrie → Prop) (db : Storage) (hashed : Prop) (encs : list bytes)
    (chs : list (option node)) (cs : list (option ptrie)) : Prop := {
  slots_encs : length encs = 17;
  slots_chs : length chs = 17;
  slots_cs : length cs = 17;
  slots_at i e ch : encs !! i = Some e → chs !! i = Some ch → slot R db hashed e ch (pchild cs i);
}.
Inductive Rep (db : Storage) : node → ptrie → Prop :=
  | Rep_leaf k v ver b : baseOk db b (PLeaf k v ver) →
      Rep db (leafNode (mkLn k (Some v) ver) b) (PLeaf k v ver)
  | Rep_ext p e ch c b : baseOk db b (PExt p c) →
      slot (Rep db) db (is_Some (hash b)) e ch (Some c) →
      Rep db (extensionNode (mkEn p e (pversion c)) ch b) (PExt p c)
  | Rep_branch encs chs cs b : baseOk db b (PBranch cs) →
      slots (Rep db) db (is_Some (hash b)) encs chs cs →
      Rep db (branchNode (mkBn encs (versionBytes cs)) chs b) (PBranch cs).

Lemma fresh_ok db t : baseOk db fresh t.
Proof. by split. Qed.
Lemma base_of_Rep db n t : Rep db n t → baseOk db (baseOf n) t.
Proof. by destruct 1. Qed.
Lemma slots_lookup R db hashed encs chs cs i :
  slots R db hashed encs chs cs → i < 17 →
  ∃ e ch, encs !! i = Some e ∧ chs !! i = Some ch ∧ slot R db hashed e ch (pchild cs i).
Proof.
  intros H Hi. destruct (lookup_lt_is_Some_2 encs i) as [e He]; [by rewrite (slots_encs _ _ _ _ _ _ H)|].
  destruct (lookup_lt_is_Some_2 chs i) as [ch Hch]; [by rewrite (slots_chs _ _ _ _ _ _ H)|].
  exists e, ch. split; [done|]. split; [done|]. by eapply slots_at.
Qed.
Lemma slot_hashed (R : node → ptrie → Prop) db (h h' : Prop) e ch o : (h' → h) → slot R db h e ch o → slot R db h' e ch o.
Proof. intros Hh []; [constructor|by constructor|]. constructor; auto. Qed.
Lemma slots_hashed (R : node → ptrie → Prop) db (h h' : Prop) encs chs cs : (h' → h) → slots R db h encs chs cs → slots R db h' encs chs cs.
Proof. intros Hh []. split; try done. intros. eapply slot_hashed; eauto. Qed.
(** replacing one slot *)
Lemma slots_insert R db h encs chs cs i e ch o :
  slots R db h encs chs cs → i < 17 → slot R db h e ch o →
  slots R db h (<[i := e]> encs) (<[i := ch]> chs) (<[i := o]> cs).
Proof.
  intros [He Hc Hs Hat] Hi Hnew. split; [by rewrite length_insert..|].
  intros j e' ch'. destruct (decide (j = i)) as [->|Hne].
  - rewrite !list_lookup_insert_eq; [|lia..]. intros [= <-] [= <-]. by rewrite pchild_insert_eq; [|lia].
  - rewrite !list_lookup_insert_ne // pchild_insert_ne //. apply Hat.
Qed.

(** ** Versions *)
Section laws.
Context {TL : TrieLaws}.

Lemma agreed_bound vs : (∀ v, v ∈ vs → 0 ≤ v < 256)%Z → (0 ≤ agreed vs < 256)%Z.
Proof.
  intros H. pose proof NotSpecified_zero. destruct vs as [|v vs]; simpl; [lia|].
  destruct (forallb _ vs); [|lia]. apply H. left.
Qed.
Definition childVersions (cs : list (option ptrie)) : list Z := omap (fmap pversion) cs.
Lemma pversion_branch cs : pversion (PBranch cs) = agreed (childVersions cs).
Proof.
  simpl. f_equal. induction cs as [|[c|] cs IH]; simpl; [done|by rewrite IH|done].
Qed.
Lemma pversion_bound e t : wf e t → (0 ≤ pversion t < 256)%Z.
Proof.
  induction 1 as [| |cs Hlen _ _ IH]; [done|done|]. rewrite pversion_branch. apply agreed_bound.
  intros v (o & Hin & Ho)%list_elem_of_omap. apply fmap_Some in Ho as (c & -> & ->).
  apply list_elem_of_lookup in Hin as [i Hi]. apply (IH i c). by apply pchild_Some.
Qed.

Lemma toByte_inj v w : (0 ≤ v < 256)%Z → (0 ≤ w < 256)%Z → toByte v = toByte w → v = w.
Proof. intros Hv Hw E. rewrite -(byteZ_toByte v) // -(byteZ_toByte w) //. by rewrite E. Qed.
Lemma toByte_zero v : (0 ≤ v < 256)%Z → toByte v = x00 ↔ v = 0%Z.
Proof.
  intros Hv. split; [|by intros ->]. change x00 with (toByte 0). intros E. by apply toByte_inj in E.
Qed.
Lemma phash_nonempty t : phash t ≠ [].
Proof. rewrite phash_penc. apply Compute_nonempty. Qed.

(** [versionBytes] is [nil] or all of the versions *)
Definition trimmed (l : bytes) : bytes :=
  if forallb (λ v, bool_decide (v = x00)) l then [] else l.
Lemma all_zero (l : bytes) :
  forallb (λ v, bool_decide (v = x00)) l = true ↔ l = replicate (length l) x00.
Proof.
  induction l as [|x l IH]; [done|]. simpl. rewrite andb_true_iff bool_decide_eq_true IH.
  split; [intros [-> <-]; done|intros [= -> Hl]; by rewrite -Hl].
Qed.

Lemma setVersion_spec encs cs i v o :
  i < 17 → length cs = 17 → (0 ≤ v < 256)%Z → versionByte o = toByte v →
  setVersionForChild v i (mkBn encs (versionBytes cs)) = Ret (mkBn encs (versionBytes (<[i := o]> cs))).
Proof.
  intros Hi Hlen Hv Ho. unfold setVersionForChild, versionBytes.
  cbn [ChildrenVersion EncodedChildren]. rewrite list_fmap_insert Ho.
  set (l := versionByte <$> cs). assert (length l = 17) as Hl by by rewrite length_fmap.
  clearbody l. clear o Ho cs Hlen. fold (trimmed l) (trimmed (<[i := toByte v]> l)).
  rewrite NotSpecified_zero /revertChildrenVersionSliceIfNeeded NotSpecified_zero.
  change (toByte 0) with x00. fold (trimmed (<[i := toByte v]> l)).
  assert (trimmed l = [] ∧ l = replicate 17 x00 ∨ trimmed l = l ∧ l ≠ replicate 17 x00)
    as [[-> ->]|[-> Hnz]].
  { unfold trimmed. destruct (forallb _ l) eqn:Hz.
    - left. split; [done|]. rewrite -Hl. by apply all_zero.
    - right. split; [done|]. rewrite -Hl. intros Hz'%all_zero. congruence. }
  - change (length []) with 0. cbn [Nat.eqb]. rewrite andb_true_r length_replicate.
    destruct (Z.eqb_spec v 0) as [->|Hv0].
    { do 2 f_equal. rewrite list_insert_id; [done|]. by apply lookup_replicate. }
    destruct (Nat.leb_spec nrOfChildren i); [unfold nrOfChildren in *; lia|].
    do 2 f_equal. unfold trimmed. destruct (forallb _ _) eqn:Hz; [|done].
    exfalso. apply all_zero in Hz. apply (f_equal (lookup i)) in Hz.
    rewrite list_lookup_insert_eq in Hz; [|by rewrite length_replicate].
    rewrite length_insert length_replicate lookup_replicate_2 // in Hz.
    injection Hz as Hz. apply Hv0. by apply toByte_zero.
  - rewrite Hl. cbn [Nat.eqb]. rewrite andb_false_r Hl.
    destruct (Nat.leb_spec 17 i); [lia|]. do 2 f_equal.
    destruct (Z.eqb_spec v 0) as [->|Hv0]; [done|]. unfold trimmed.
    destruct (forallb _ _) eqn:Hz; [|done]. exfalso. apply all_zero in Hz.
    apply (f_equal (lookup i)) in Hz. rewrite list_lookup_insert_eq in Hz; [|lia].
    rewrite length_insert Hl lookup_replicate_2 // in Hz.
    injection Hz as Hz. apply Hv0. by apply toByte_zero.
Qed.

(** ** Children *)
Lemma present_bool cs i :
  bool_decide (present cs i) = match pchild cs i with Some _ => true | None => false end.
Proof. unfold present. case_bool_decide as H; destruct (pchild cs i); [done|by destruct H|by destruct H|done]. Qed.
Lemma hasChild_spec R db h encs vs chs cs i :
  slots R db h encs chs cs → i < 17 →
  hasChild (mkBn encs vs) chs i = Ret (bool_decide (present cs i)).
Proof.
  intros Hs Hi. destruct (slots_lookup _ _ _ _ _ _ i Hs Hi) as (e & ch & He & Hch & Hslot).
  unfold hasChild, at_index. rewrite Hch present_bool. cbn [EncodedChildren]. rewrite He.
  destruct Hslot as [|c _|e n c _ _]; simpl; [done| |done].
  pose proof (phash_nonempty c). by destruct (phash c).
Qed.

Lemma isEmptyLoop_spec R db h encs vs chs cs range :
  slots R db h encs chs cs → (∀ i, i ∈ range → i < 17) → (∃ i, i ∈ range ∧ present cs i) →
  bn_isEmptyLoop (mkBn encs vs) chs range = Ret tt.
Proof.
  intros Hs. induction range as [|i range IH]; intros Hlt (j & Hj & Hp).
  { by apply elem_of_nil in Hj. }
  cbn [bn_isEmptyLoop]. rewrite (hasChild_spec R db h encs vs chs cs) //; [|apply Hlt; left].
  simpl. case_bool_decide; [done|]. apply IH.
  - intros k ?. apply Hlt. by right.
  - exists j. split; [|done]. apply elem_of_cons in Hj as [->|]; done.
Qed.
Lemma isEmpty_branch R db h encs vs chs cs b :
  slots R db h encs chs cs → (∃ i, i < 17 ∧ present cs i) →
  isEmptyOrNil (branchNode (mkBn encs vs) chs b) = Ret tt.
Proof.
  intros Hs (i & Hi & Hp). eapply isEmptyLoop_spec; [done|..].
  - intros j Hj. apply elem_of_seq in Hj. unfold nrOfChildren in Hj. lia.
  - exists i. split; [|done]. apply elem_of_seq. unfold nrOfChildren. lia.
Qed.
Lemma wf_present cs : wf false (PBranch cs) → ∃ i, i < 17 ∧ present cs i.
Proof.
  intros H. inversion H as [| |? _ H2 _]; subst. apply two_positions in H2 as (i & _ & _ & Hi & _ & Hp & _).
  eauto.
Qed.
Lemma isEmpty_spec db n t e : Rep db n t → wf e t → isEmptyOrNil n = Ret tt.
Proof.
  intros HR Hwf. destruct HR as [k v ver b _|p en ch c b _ Hs|encs chs cs b _ Hs]; [done| |].
  - simpl. inversion Hs as [|? _|]; subst; [|done]. pose proof (phash_nonempty c).
    by destruct (phash c).
  - eapply isEmpty_branch; [done|]. apply wf_present. by inversion Hwf; subst.
Qed.
Lemma checkNode_spec db n t e s : Rep db n t → wf e t → checkNode s n = (Ret tt, n).
Proof. intros HR Hwf. unfold checkNode. by rewrite (isEmpty_spec db n t e). Qed.

Lemma childVersions_range cs :
  childVersions cs = omap (λ i, pversion <$> pchild cs i) (seq 0 (length cs)).
Proof.
  induction cs as [|o cs IH] using rev_ind; [done|].
  unfold childVersions. rewrite omap_app length_app seq_app omap_app. f_equal.
  - fold (childVersions cs). rewrite IH.
    assert (∀ i, i ∈ seq 0 (length cs) → pchild (cs ++ [o]) i = pchild cs i) as H.
    { intros i Hi%elem_of_seq. unfold pchild. rewrite lookup_app_l //. lia. }
    clear IH. induction (seq 0 (length cs)) as [|i range IHr]; [done|].
    cbn [omap list_omap]. rewrite H; [|left].
    assert (∀ j, j ∈ range → pchild (cs ++ [o]) j = pchild cs j) as H' by (intros j ?; apply H; by right).
    by rewrite -(IHr H').
  - simpl. unfold pchild. rewrite lookup_app_r // Nat.sub_diag /=. by destruct o.
Qed.

Lemma sameVersion_spec R db h encs chs cs v range :
  slots R db h encs chs cs → (∀ i, i ∈ range → i < 17) → versionBytes cs = versionByte <$> cs →
  (0 ≤ v < 256)%Z → (∀ i c, pchild cs i = Some c → 0 ≤ pversion c < 256)%Z →
  sameVersion (mkBn encs (versionBytes cs)) chs (toByte v) range =
    Ret (if forallb (Z.eqb v) (omap (λ i, pversion <$> pchild cs i) range) then v else NotSpecified).
Proof.
  intros Hs Hlt Hvs Hv Hcs. induction range as [|i range IH]; [by rewrite /= byteZ_toByte|].
  cbn [sameVersion]. rewrite (hasChild_spec R db h encs _ chs cs) //; [|apply Hlt; left].
  rewrite present_bool. cbn [bindO omap list_omap].
  destruct (pchild cs i) as [c|] eqn:Hc; cbn [fmap option_fmap option_map];
    [|apply IH; intros j ?; apply Hlt; by right].
  unfold at_index. cbn [ChildrenVersion]. rewrite Hvs list_lookup_fmap.
  pose proof Hc as Hc'. apply pchild_Some in Hc' as ->. cbn [fmap option_fmap option_map bindO versionByte forallb].
  rewrite -Hvs. destruct (Z.eqb_spec v (pversion c)) as [<-|Hne].
  - rewrite bool_decide_true //=. apply IH. intros j ?. apply Hlt. by right.
  - rewrite bool_decide_false //. intros E%toByte_inj; [done|by apply (Hcs i)|done].
Qed.
Lemma firstVersion_spec R db h encs chs cs range :
  slots R db h encs chs cs → (∀ i, i ∈ range → i < 17) → versionBytes cs = versionByte <$> cs →
  (∃ i, i ∈ range ∧ present cs i) →
  ∃ v range', firstVersion (mkBn encs (versionBytes cs)) chs range = Ret (toByte v, range') ∧
    omap (λ i, pversion <$> pchild cs i) range = v :: omap (λ i, pversion <$> pchild cs i) range' ∧
    (∀ i, i ∈ range' → i ∈ range) ∧ ∃ i c, pchild cs i = Some c ∧ v = pversion c.
Proof.
  intros Hs Hlt Hvs. induction range as [|i range IH]; intros (j & Hj & Hp); [by apply elem_of_nil in Hj|].
  cbn [firstVersion]. rewrite (hasChild_spec R db h encs _ chs cs) //; [|apply Hlt; left].
  rewrite present_bool. cbn [bindO omap list_omap].
  destruct (pchild cs i) as [c|] eqn:Hc; cbn [fmap option_fmap option_map].
  - exists (pversion c), range. unfold at_index. cbn [ChildrenVersion]. rewrite {1}Hvs list_lookup_fmap.
    pose proof Hc as Hc'. apply pchild_Some in Hc' as ->. split; [done|]. split; [done|].
    split; [intros k ?; by right|]. by exists i, c.
  - destruct IH as (v & range' & -> & Hom & Hsub & Hex).
    + intros k ?. apply Hlt. by right.
    + exists j. split; [|done]. apply elem_of_cons in Hj as [->|]; [|done].
      unfold present in Hp. rewrite Hc in Hp. by destruct Hp.
    + exists v, range'. split; [done|]. split; [done|]. split; [intros k ?; right; by apply Hsub|done].
Qed.

(** the version of a branch node is that of the trie *)
Lemma getVersion_branch R db h encs chs cs b :
  slots R db h encs chs cs → (∃ i, i < 17 ∧ present cs i) →
  (∀ i c, pchild cs i = Some c → 0 ≤ pversion c < 256)%Z →
  getVersion (branchNode (mkBn encs (versionBytes cs)) chs b) = Ret (pversion (PBranch cs)).
Proof.
  intros Hs Hex Hcs. pose proof (slots_cs _ _ _ _ _ _ Hs) as Hlen.
  rewrite pversion_branch childVersions_range Hlen. cbn [getVersion ChildrenVersion].
  unfold versionBytes at 1. destruct (forallb _ (versionByte <$> cs)) eqn:Hz.
  - cbn [length Nat.eqb]. f_equal. apply all_zero in Hz.
    assert (∀ v, v ∈ omap (λ i, pversion <$> pchild cs i) (seq 0 17) → v = NotSpecified) as Hall.
    { intros v (i & _ & (c & Hc & ->)%fmap_Some)%list_elem_of_omap. rewrite NotSpecified_zero.
      apply toByte_zero; [by apply (Hcs i)|]. apply (f_equal (lookup i)) in Hz.
      rewrite list_lookup_fmap in Hz. apply pchild_Some in Hc. rewrite Hc in Hz. simpl in Hz.
      symmetry in Hz. apply lookup_replicate in Hz as [? _]. congruence. }
    destruct (omap _ _) as [|v vs]; [done|]. simpl. destruct (forallb _ vs); [|done].
    symmetry. apply Hall. left.
  - rewrite length_fmap Hlen. cbn [Nat.eqb].
    assert (versionBytes cs = versionByte <$> cs) as Hvs by (unfold versionBytes; by rewrite Hz).
    destruct (firstVersion_spec R db h encs chs cs (seq 0 17) Hs) as (v & range' & Hf & Hom & Hsub & Hv).
    + intros i ?%elem_of_seq. lia.
    + done.
    + destruct Hex as (i & ? & ?). exists i. split; [apply elem_of_seq; lia|done].
    + unfold nrOfChildren. rewrite Hf Hom. cbn [bindO agreed].
      destruct Hv as (i & c & Hc & ->). eapply sameVersion_spec; try done.
      * intros j Hj%Hsub%elem_of_seq. lia.
      * by apply (Hcs i).
Qed.
Lemma getVersion_spec db n t e : Rep db n t → wf e t → getVersion n = Ret (pversion t).
Proof.
  intros HR Hwf. pose proof (pversion_bound e t Hwf) as Hb.
  destruct HR as [k v ver b _|p en ch c b _ Hs|encs chs cs b _ Hs].
  - simpl in *. unfold maxUint8. destruct (Z.ltb_spec 255 ver); [lia|]. unfold u8.
    by rewrite Z.mod_small; [|lia].
  - simpl in *. unfold maxUint8. destruct (Z.ltb_spec 255 (pversion c)); [lia|]. unfold u8.
    by rewrite Z.mod_small; [|lia].
  - inversion Hwf as [| |? _ _ Hcs]; subst. eapply getVersion_branch; [done|by apply wf_present|].
    intros i c Hc. eapply pversion_bound. by apply (Hcs i).
Qed.
End laws.
End spec.
