(* ===== verification/TrieRefine.v ===== *)
(** * TrieRefine: loading children, reading and inserting refine the canonical trie

    A stored trie decodes to a node that represents it; [resolveIfCollapsed]
    loads the child at a position and changes nothing else.  [node_tryGet] returns
    what [pget] finds and [node_insert] does what [pinsert] does, loading from the
    storage what they need. *)
From S2P Require Import Prelude TrieNode TrieOps TriePure TrieSpec.
#[local] Open Scope go_scope.

Section resolve.
Context {TE : TrieEnvironment} {TL : TrieLaws}.

(** ** Decoding *)
Lemma marshalled_spec {T} `{Marshaller T} (ok : T → Prop) zero `{!MarshallerLaws T ok zero} x x0 :
  ok x → Marshal x = inr (marshalled x) ∧ Unmarshal x0 (marshalled x) = inr x.
Proof.
  intros Hx. destruct (marshal_total x Hx) as [b Hb]. unfold marshalled. rewrite Hb.
  split; [done|]. by eapply unmarshal_marshal.
Qed.
Lemma decode_snoc enc ty :
  decodeNode (enc ++ [ty]) =
    let base := mkBase None false in
    if bool_decide (ty = extension) then
      let? en := ofSum (Unmarshal (mkEn [] [] 0) enc) in Ret (extensionNode en None base)
    else if bool_decide (ty = leaf) then
      let? ln := ofSum (Unmarshal (mkLn [] None 0) enc) in Ret (leafNode ln base)
    else if bool_decide (ty = branch) then
      let? bn := ofSum (Unmarshal (mkBn [] []) enc) in
      Ret (branchNode bn (replicate nrOfChildren None) base)
    else Throw ErrInvalidNode.
Proof.
  unfold decodeNode. rewrite last_snoc length_app /= Nat.add_sub take_app_length. done.
Qed.

(** the node a trie decodes to *)
Definition collapsedNode (t : ptrie) (b : baseNode) : node :=
  match t with
  | PLeaf k v ver => leafNode (mkLn k (Some v) ver) b
  | PExt p c => extensionNode (mkEn p (phash c) (pversion c)) None b
  | PBranch cs => branchNode (mkBn (phashO <$> cs) (versionBytes cs)) (replicate nrOfChildren None) b
  end.
Lemma decode_penc e t : wf e t → decodeNode (penc t) = Ret (collapsedNode t (mkBase None false)).
Proof.
  intros Hwf. pose proof (pversion_bound e t Hwf) as Hb.
  destruct Hwf as [e k v ver _ Hv Hver|p c _ _ _ Hc|cs _ _ _]; simpl;
    unfold encLeaf, encExt, encBranch; rewrite decode_snoc; cbv zeta.
  - rewrite bool_decide_false // bool_decide_true //.
    destruct (marshalled_spec _ _ (mkLn k (Some v) ver) (mkLn [] None 0)) as [_ ->]; [|done].
    simpl. split; [congruence|lia].
  - rewrite bool_decide_true //.
    destruct (marshalled_spec _ _ (mkEn p (phash c) (pversion c)) (mkEn [] [] 0)) as [_ ->]; [|done].
    simpl in *. lia.
  - rewrite bool_decide_false // bool_decide_false // bool_decide_true //.
    by destruct (marshalled_spec _ _ (mkBn (phashO <$> cs) (versionBytes cs)) (mkBn [] [])) as [_ ->].
Qed.

(** a stored trie, loaded *)
Lemma Rep_collapsed db e t d :
  wf e t → stored db t → Rep db (collapsedNode t (mkBase (Some (phash t)) d)) t.
Proof.
  intros Hwf Hst. assert (baseOk db (mkBase (Some (phash t)) d) t) as Hb.
  { split; [by intros h [= <-]|done]. }
  destruct t as [k v ver|p c|cs]; cbn [collapsedNode].
  - by constructor.
  - constructor; [done|]. constructor. by inversion Hst.
  - constructor; [done|]. inversion Hwf as [| |? Hlen _ _]; inversion Hst as [| |? _ Hcs]; subst.
    split; [by rewrite length_fmap|done|done|].
    intros i e' ch He Hch. apply lookup_replicate in Hch as [-> _].
    rewrite list_lookup_fmap in He. apply fmap_Some in He as (o & Ho & ->).
    assert (pchild cs i = o) as Hpc by (unfold pchild; by rewrite Ho). rewrite Hpc.
    destruct o as [c|]; constructor. by apply (Hcs i).
Qed.
Lemma load_spec db e t :
  wf e t → stored db t →
  ∃ n, getNodeFromDBAndDecode (phash t) db = Ret n ∧ Rep db (setGivenHash (phash t) n) t ∧
       is_Some (getHash (setGivenHash (phash t) n)).
Proof.
  intros Hwf Hst. exists (collapsedNode t (mkBase None false)). split; [|split].
  - unfold getNodeFromDBAndDecode. rewrite (stored_get _ _ Hst). by eapply decode_penc.
  - pose proof (Rep_collapsed db e t false Hwf Hst). by destruct t.
  - by destruct t.
Qed.

(** ** Resolving *)
Lemma slot_absent_inv R db h e ch : slot R db h e ch None → e = [] ∧ ch = None.
Proof. by inversion 1. Qed.
Lemma slots_setChild R db h encs chs cs i e ch :
  slots R db h encs chs cs → encs !! i = Some e → slot R db h e ch (pchild cs i) →
  slots R db h encs (<[i := ch]> chs) cs.
Proof.
  intros [He Hc Hs Hat] Hi Hnew. split; [done|by rewrite length_insert|done|].
  intros j e' ch' Hj. destruct (decide (j = i)) as [->|Hne].
  - apply lookup_lt_Some in Hi as Hlt. rewrite list_lookup_insert_eq; [|lia]. intros [= <-].
    congruence.
  - rewrite list_lookup_insert_ne //. by apply Hat.
Qed.

Lemma resolve_ext db h p e v ch b c pos :
  wf false c → slot (Rep db) db h e ch (Some c) →
  ∃ cn, resolveIfCollapsed pos db (extensionNode (mkEn p e v) ch b) =
          (Ret tt, extensionNode (mkEn p e v) (Some cn) b) ∧
    Rep db cn c ∧ slot (Rep db) db h e (Some cn) (Some c).
Proof.
  intros Hwf Hs. inversion Hs as [|c' Hst|e' cn c' HR Hh]; subst.
  - destruct (load_spec db false c Hwf Hst) as (n & Hload & HR & Hhash).
    exists (setGivenHash (phash c) n). split; [|split; [done|by constructor]].
    pose proof (phash_nonempty c). destruct (phash c) as [|x ph] eqn:Hph; [done|].
    unfold resolveIfCollapsed, resolveCollapsed, checkNode, bind, gets, liftO, modify.
    simpl. by rewrite Hload.
  - exists cn. by split.
Qed.

Lemma resolve_branch db h encs vs chs cs b i :
  slots (Rep db) db h encs chs cs → (∃ j, j < 17 ∧ present cs j) → i < 17 →
  (∀ c, pchild cs i = Some c → wf (atEnd i) c) →
  ∃ chs', resolveIfCollapsed i db (branchNode (mkBn encs vs) chs b) =
            (Ret tt, branchNode (mkBn encs vs) chs' b) ∧
    slots (Rep db) db h encs chs' cs ∧
    match pchild cs i with
    | None => chs' !! i = Some None
    | Some c => ∃ cn, chs' !! i = Some (Some cn) ∧ Rep db cn c
    end.
Proof.
  intros Hs Hex Hi Hwf. pose proof (isEmpty_branch _ _ _ _ vs _ _ b Hs Hex) as Hne.
  destruct (slots_lookup _ _ _ _ _ _ i Hs Hi) as (e & ch & He & Hch & Hslot).
  unfold resolveIfCollapsed, checkNode. rewrite {1}/bind Hne. cbn [wrapO].
  unfold bind at 1, gets. cbn [id]. unfold isPosCollapsed, at_index. rewrite Hch. cbn [bindO].
  rewrite (hasChild_spec _ _ _ _ vs _ _ _ Hs Hi) present_bool.
  remember (pchild cs i) as o eqn:Ho. destruct Hslot as [|c Hst|e cn c HR Hh].
  - exists chs. done.
  - destruct (load_spec db _ c (Hwf c eq_refl) Hst) as (n & Hload & HR & Hhash).
    exists (<[i := Some (setGivenHash (phash c) n)]> chs). split; [|split].
    + unfold resolveCollapsed, bind, liftO, gets, checkNode. cbn [id]. rewrite Hne. cbn [wrapO].
      destruct (Nat.leb_spec nrOfChildren i); [unfold nrOfChildren in *; lia|].
      unfold at_index. cbn [EncodedChildren]. rewrite He. pose proof (phash_nonempty c).
      destruct (phash c) as [|x ph] eqn:Hph; [done|]. simpl. by rewrite Hload.
    + eapply slots_setChild; [done|exact He|]. rewrite -Ho. by constructor.
    + eexists. split; [|done]. apply list_lookup_insert_eq. by rewrite (slots_chs _ _ _ _ _ _ Hs).
  - exists chs. split; [done|]. split; [done|]. by exists cn.
Qed.
End resolve.

Section refine.
Context {TE : TrieEnvironment} {TL : TrieLaws}.

(** ** Steps *)
Lemma bind_checkNode {A} db n t e s (k : unit → M node error A) :
  Rep db n t → wf e t → bind (checkNode s) k n = k tt n.
Proof. intros HR Hwf. apply bind_Ret. by eapply checkNode_spec. Qed.
Lemma withDepth_Ret {A} depth (m : M node error A) a n n' :
  m n = (Ret a, n') → withDepth depth m n = (Ret a, n').
Proof. unfold withDepth, catch. by intros ->. Qed.
Lemma bind_withDepth {A B} depth (m : M node error A) (k : A → M node (error * Z) B) a n n' :
  m n = (Ret a, n') → bind (withDepth depth m) k n = k a n'.
Proof. intros. by apply bind_Ret, withDepth_Ret. Qed.
Lemma bind_liftO_Ret {S X A B} (o : outcome X A) (k : A → M S X B) a s :
  o = Ret a → bind (liftO o) k s = k a s.
Proof. by intros ->. Qed.
Lemma onChild_run {X A} pos (m : M node X A) n c r c' :
  childAt n pos = Some c → m c = (r, c') → onChild pos m n = (r, setChild pos (Some c') n).
Proof. unfold onChild. by intros -> ->. Qed.

Lemma slots_child (R : node → ptrie → Prop) db h encs chs cs i c cn cn' :
  slots R db h encs chs cs → pchild cs i = Some c → chs !! i = Some (Some cn) → R cn' c →
  baseOf cn' = baseOf cn → slots R db h encs (<[i := Some cn']> chs) cs.
Proof.
  intros Hs Hc Hcn HR Hbase.
  assert (i < 17) as Hi by (rewrite -(slots_cs _ _ _ _ _ _ Hs); by eapply pchild_lt).
  destruct (slots_lookup _ _ _ _ _ _ i Hs Hi) as (e & ch & He & Hch & Hslot).
  eapply slots_setChild; [done|exact He|]. rewrite Hc. rewrite Hcn in Hch. injection Hch as <-.
  rewrite Hc in Hslot. inversion Hslot as [| |? ? ? _ Hh]; subst. constructor; [done|].
  unfold getHash in *. by rewrite Hbase.
Qed.
Lemma slot_child (R : node → ptrie → Prop) db h e c cn cn' :
  slot R db h e (Some cn) (Some c) → R cn' c → baseOf cn' = baseOf cn →
  slot R db h e (Some cn') (Some c).
Proof.
  intros Hslot HR Hbase. inversion Hslot as [| |? ? ? _ Hh]; subst. constructor; [done|].
  unfold getHash in *. by rewrite Hbase.
Qed.

(** ** tryGet *)
Lemma node_tryGet_spec fuel db : ∀ n t e key depth,
  Rep db n t → wf e t → keyFor e key → length key < fuel →
  ∃ n' depth', node_tryGet fuel db key depth n = (Ret (fst <$> pget t key, depth'), n') ∧
    Rep db n' t ∧ baseOf n' = baseOf n.
Proof.
  induction fuel as [|fuel IH]; intros n t e key depth HR Hwf Hkey Hfuel; [lia|].
  cbn [node_tryGet]. rewrite bind_gets. cbn [id].
  pose proof (λ s, checkNode_spec db n t e s HR Hwf) as Hcheck.
  destruct HR as [k v ver b Hb|p en ch c b Hb Hslot|encs chs cs b Hb Hslots].
  - unfold ln_tryGet. rewrite (bind_withDepth _ _ _ _ _ _ (Hcheck _)). cbn [lnKey lnValue pget].
    case_bool_decide; eexists _, depth; (split; [done|]); split; try done; by constructor.
  - inversion Hwf as [|? ? Hp Hne Hbr Hc|]; subst. unfold en_tryGet.
    rewrite (bind_withDepth _ _ _ _ _ _ (Hcheck _)). cbn [enKey pget].
    destruct (Nat.ltb_spec (length key) (length p)) as [Hlt|Hge].
    { rewrite (_ : strip p key = None); [eexists _, depth; split; [done|]; split; [by constructor|done]|].
      destruct (strip p key) as [r|] eqn:Hs; [|done]. apply strip_Some in Hs as ->.
      rewrite length_app in Hlt. lia. }
    case_bool_decide as Htake; cbn [negb].
    2:{ rewrite (_ : strip p key = None); [eexists _, depth; split; [done|]; split; [by constructor|done]|].
        destruct (strip p key) as [r|] eqn:Hs; [|done]. apply strip_Some in Hs as ->.
        by rewrite take_app_length in Htake. }
    assert (key = p ++ drop (length p) key) as Hk by (rewrite {1}Htake; symmetry; apply take_drop).
    set (r := drop (length p) key) in *. rewrite Hk strip_app.
    assert (keyFor false r) as Hr by (rewrite Hk keyFor_path // in Hkey).
    destruct (resolve_ext db _ p en (pversion c) ch b c 0 Hc Hslot) as (cn & Hres & HRc & Hslot').
    rewrite (bind_withDepth _ _ _ _ _ _ Hres).
    destruct (IH cn c false r (u32 (depth + 1)) HRc Hc Hr) as (cn' & depth' & Hget & HRc' & Hbase).
    { rewrite Hk length_app in Hfuel. destruct p; [done|]. simpl in Hfuel. lia. }
    rewrite (onChild_run _ _ _ _ _ _ _ Hget); [|done]. eexists _, depth'. split; [done|]. split; [|done].
    constructor; [done|]. by eapply slot_child.
  - inversion Hwf as [| |? Hlen H2 Hcs]; subst. unfold bn_tryGet.
    rewrite (bind_withDepth _ _ _ _ _ _ (Hcheck _)).
    destruct key as [|x key]; [done|]. cbn [firstByte]. apply keyFor_cons in Hkey as [Hx Hkey].
    rewrite (proj2 (inRange_index x) Hx) get_branch.
    destruct (resolve_branch db _ encs (versionBytes cs) chs cs b (index x) Hslots) as (chs' & Hres & Hslots' & Hat);
      [by apply wf_present|done|by intros; apply Hcs|].
    rewrite (bind_withDepth _ _ _ _ _ _ Hres) bind_gets. cbn [id childAt].
    destruct (pchild cs (index x)) as [c|] eqn:Hc.
    2:{ rewrite Hat. eexists _, depth. split; [done|]. split; [by constructor|done]. }
    destruct Hat as (cn & Hcn & HRc). rewrite Hcn. cbn [mjoin option_join].
    destruct (IH cn c _ key (u32 (depth + 1)) HRc (Hcs _ _ Hc) Hkey) as (cn' & depth' & Hget & HRc' & Hbase).
    { simpl in Hfuel. lia. }
    eexists _, depth'. rewrite (onChild_run _ _ _ _ _ _ _ Hget); [|by rewrite /= Hcn].
    split; [done|]. split; [|done]. constructor; [done|]. by eapply slots_child.
Qed.

(** ** New nodes *)
Lemma newLeaf_Rep db k v ver d :
  (0 ≤ ver < 256)%Z → d = mkData k (Some v) ver → Rep db (newLeafNode d) (PLeaf k v ver).
Proof.
  intros Hver ->. unfold newLeafNode. cbn [Key Value Version]. unfold u32.
  rewrite Z.mod_small; [|lia]. constructor. apply fresh_ok.
Qed.
(** an extension whose child is in memory *)
Definition loaded (n : node) : Prop := match n with extensionNode _ None _ => False | _ => True end.
Lemma newExtension_Rep db p n t e :
  Rep db n t → wf e t →
  ∃ m, newExtensionNode p (Some n) = Ret m ∧ Rep db m (PExt p t) ∧ loaded m.
Proof.
  intros HR Hwf. unfold newExtensionNode. rewrite (getVersion_spec db n t e HR Hwf). cbn [bindO].
  pose proof (pversion_bound e t Hwf). unfold u32. rewrite Z.mod_small; [|lia].
  eexists. split; [done|]. split; [|done]. constructor; [apply fresh_ok|].
  constructor; [done|]. by intros [].
Qed.
Lemma newBranch_slots (db : Storage) (h : Prop) :
  slots (Rep db) db h (replicate nrOfChildren []) (replicate nrOfChildren None) noChildren.
Proof.
  split; [done..|]. intros i e ch He Hch. apply lookup_replicate in He as [-> _].
  apply lookup_replicate in Hch as [-> _]. rewrite pchild_none. constructor.
Qed.
Lemma slots_set (R : node → ptrie → Prop) (db : Storage) (h : Prop) encs chs cs i n t :
  slots R db h encs chs cs → ¬ h → i < 17 → R n t →
  slots R db h encs (<[i := Some n]> chs) (<[i := Some t]> cs).
Proof.
  intros Hs Hh Hi HR. destruct (slots_lookup _ _ _ _ _ _ i Hs Hi) as (e & ch & He & _ & _).
  rewrite -(list_insert_id encs i e He). apply slots_insert; [done..|]. by constructor.
Qed.
Lemma bn_withChild_spec encs chs cs b i n t v :
  length cs = 17 → i < 17 → (0 ≤ v < 256)%Z → pversion t = v →
  bn_withChild (branchNode (mkBn encs (versionBytes cs)) chs b) i n v =
    Ret (branchNode (mkBn encs (versionBytes (<[i := Some t]> cs))) (<[i := Some n]> chs) b).
Proof.
  intros Hlen Hi Hv Ht. unfold bn_withChild. cbn [setChild].
  rewrite (setVersion_spec encs cs i v (Some t)) //. by rewrite /= Ht.
Qed.

(** two subtries side by side, given what makes the node of the first *)
Definition twoChildren (db : Storage) (x y : byte) (a b : ptrie) (bn : outcome error node) : Prop :=
  ∃ m, bn = Ret m ∧ Rep db m (fork x a y b).
Lemma bn_withTwo db x y na a nb b va vb :
  index x < 17 → index y < 17 → (0 ≤ va < 256)%Z → (0 ≤ vb < 256)%Z → pversion a = va →
  pversion b = vb → Rep db na a → Rep db nb b →
  twoChildren db x y a b
    (let? bn := bn_withChild newBranchNode (index x) na va in bn_withChild bn (index y) nb vb).
Proof.
  intros Hx Hy Hva Hvb Ha Hb HRa HRb. unfold newBranchNode.
  change (mkBn (replicate nrOfChildren []) []) with
    (mkBn (replicate nrOfChildren []) (versionBytes noChildren)).
  rewrite (bn_withChild_spec _ _ _ _ _ na a va) // /bindO (bn_withChild_spec _ _ _ _ _ nb b vb) //;
    [|by rewrite length_insert].
  eexists. split; [done|]. constructor; [apply fresh_ok|].
  assert (¬ is_Some (hash fresh)) by by intros [].
  apply slots_set; [|done..]. apply slots_set; [|done..]. apply newBranch_slots.
Qed.
(** ... below an extension, if there is a path in front *)
Lemma below_path {X} db p n t (hs : X) :
  Rep db n t → wf false t →
  ∃ m, (if (length p =? 0)%nat then Ret (Some n, hs)
        else let? newEn := newExtensionNode p (Some n) in Ret (Some newEn, hs))
        = (Ret (Some m, hs) : outcome error (option node * X)) ∧ Rep db m (pext p t).
Proof.
  intros HR Hwf. destruct p as [|z p]; [by exists n|].
  destruct (newExtension_Rep db (z :: p) n t false HR Hwf) as (m & Hm & HRm & _).
  exists m. split; [|done]. cbn [length Nat.eqb]. by rewrite Hm.
Qed.

(** ** insert *)
Definition insertResult (db : Storage) (t : ptrie) (b : baseNode) (t' : option ptrie)
    (res : outcome error (option node * list bytes) * node) : Prop :=
  match t' with
  | None => ∃ n', res = (Ret (None, []), n') ∧ Rep db n' t ∧ baseOf n' = b
  | Some t' => ∃ m hs n', res = (Ret (Some m, hs), n') ∧ Rep db m t'
  end.
Lemma insert_changed db t b t' m hs res :
  res.1 = Ret (Some m, hs) → Rep db m t' → insertResult db t b (Some t') res.
Proof. destruct res as [o n']. simpl. intros ->. by exists m, hs, n'. Qed.

Lemma at_index_middle {X} (p : bytes) x r : at_index (X:=X) (p ++ x :: r) (length p) = Ret x.
Proof. unfold at_index. by rewrite list_lookup_middle. Qed.
Lemma in_range x : index x < 17 → childPosOutOfRange x = false.
Proof. by intros ?%inRange_index. Qed.

Lemma ln_insert_spec db k0 v0 ver0 b e k v ver :
  wf e (PLeaf k0 v0 ver0) → keyFor e k → v ≠ [] → (0 ≤ ver < 256)%Z →
  baseOk db b (PLeaf k0 v0 ver0) →
  insertResult db (PLeaf k0 v0 ver0) b (pinsert (PLeaf k0 v0 ver0) k v ver)
    (ln_insert (mkData k (Some v) ver) (mkLn k0 (Some v0) ver0) b
       (leafNode (mkLn k0 (Some v0) ver0) b)).
Proof.
  intros Hwf Hk Hv Hver Hb. pose proof (Rep_leaf db k0 v0 ver0 b Hb) as HR.
  inversion Hwf as [? ? ? ? Hk0 Hv0 Hver0| |]; subst.
  unfold ln_insert. rewrite (bind_checkNode db _ _ e _ _ HR Hwf). cbn [Key lnKey pinsert].
  case_bool_decide as Hkk.
  - unfold ln_insertInSameLn. cbn [lnValue Value orEmpty default id]. case_bool_decide as Hvv.
    + eexists. split; [done|]. by split.
    + do 3 eexists. split; [done|]. exact (newLeaf_Rep db k0 v ver _ Hver eq_refl).
  - destruct e; [by unfold keyFor in *; subst|].
    destruct (keys_differ k k0 Hk Hk0 Hkk) as (p & x & y & r & r0 & -> & -> & Hxy & Hm).
    rewrite Hm take_split !nth_split !drop_split.
    destruct (keyFor_split p x r Hk) as (Hp & Hx & Hr). destruct (keyFor_split p y r0 Hk0) as (_ & Hy & Hr0).
    assert (twoChildren db y x (PLeaf r0 v0 ver0) (PLeaf r v ver)
      (ln_insertInNewBn (mkData (p ++ x :: r) (Some v) ver) (length p) (mkLn (p ++ y :: r0) (Some v0) ver0) b))
      as (m & Hm' & HRm).
    { unfold ln_insertInNewBn. cbn [lnKey Key lnValue Value Version]. rewrite !at_index_middle. cbn [bindO].
      rewrite !in_range // (getVersion_spec _ _ _ _ HR Hwf). cbn [orb bindO pversion].
      rewrite !drop_split. apply bn_withTwo; try done; by apply newLeaf_Rep. }
    rewrite (bind_liftO_Ret _ _ _ _ Hm'). cbn [lnKey].
    destruct (below_path db p m _ (oldHashesOf b) HRm) as (m' & Hm'' & HRm').
    { apply wf_fork; try done; by apply wf_leaf. }
    eapply insert_changed; [|exact HRm'].
    destruct (length p =? 0)%nat; [exact Hm''|].
    unfold bind, liftO. destruct (newExtensionNode p (Some m)); [|done..]. exact Hm''.
Qed.

Lemma getVersion_ext_child db n t e : Rep db n t → wf e t → getVersion n = Ret (pversion t) ∧ (0 ≤ pversion t < 256)%Z.
Proof. intros HR Hwf. split; [by eapply getVersion_spec|by eapply pversion_bound]. Qed.

Lemma en_insertInNewBn_spec db q x p' y k' v ver en cv b cn c :
  wf false c → isBranch c → Rep db cn c → path p' → index x < 17 → index y < 17 → x ≠ y →
  keyFor (atEnd (index y)) k' → v ≠ [] → (0 ≤ ver < 256)%Z → atEnd (index x) = false →
  ∃ m hs, en_insertInNewBn (mkData (q ++ y :: k') (Some v) ver) (length q)
            (mkEn (q ++ x :: p') en cv) (Some cn) b = Ret (Some m, hs) ∧
    Rep db m (pext q (fork x (pext p' c) y (PLeaf k' v ver))).
Proof.
  intros Hc Hbr HRc Hp' Hx Hy Hxy Hk' Hv Hver Hend. unfold en_insertInNewBn. cbn [enKey Key].
  rewrite !at_index_middle. cbn [bindO]. rewrite !in_range //. cbn [orb].
  destruct (getVersion_ext_child db cn c false HRc Hc) as [Hcv Hcb].
  assert (∃ m, (let? bn := en_insertOldChildInBn newBranchNode (index x) (length q)
                  (mkEn (q ++ x :: p') en cv) cn in
                en_insertNewChildInBn bn (mkData (q ++ y :: k') (Some v) ver) (index y) (length q)) = Ret m ∧
            Rep db m (fork x (pext p' c) y (PLeaf k' v ver))) as (m & Hm & HRm).
  { unfold en_insertOldChildInBn, en_insertNewChildInBn. cbn [enKey Key Value Version].
    rewrite !drop_split Hcv. cbn [bindO].
    assert (Rep db (newLeafNode (mkData k' (Some v) ver)) (PLeaf k' v ver)) by by apply newLeaf_Rep.
    destruct p' as [|z p']; [by apply bn_withTwo|].
    destruct (newExtension_Rep db (z :: p') cn c false HRc Hc) as (me & Hme & HRme & _).
    cbn [length Nat.ltb Nat.leb]. rewrite Hme. cbn [bindO]. by apply bn_withTwo. }
  destruct (en_insertOldChildInBn _ _ _ _ _) as [bn| |]; try done. cbn [bindO] in *. rewrite Hm. cbn [bindO].
  assert (wf false (fork x (pext p' c) y (PLeaf k' v ver))) as Hwf.
  { apply wf_fork; try done; [rewrite Hend; by apply wf_pext|by apply wf_leaf]. }
  rewrite take_split. destruct (below_path db q m _ (oldHashesOf b) HRm Hwf) as (m' & Hm' & HRm').
  by exists m', (oldHashesOf b).
Qed.

(** the specification of the recursive call *)
Definition insertsAs (db : Storage) (fuel : nat)
    (insert : TrieData → M node error (option node * list bytes)) : Prop := ∀ n t e k v ver,
  Rep db n t → wf e t → keyFor e k → v ≠ [] → (0 ≤ ver < 256)%Z → length k < fuel →
  insertResult db t (baseOf n) (pinsert t k v ver) (insert (mkData k (Some v) ver) n).

Lemma en_insert_spec db fuel insert p en ch c b k v ver :
  insertsAs db fuel insert → baseOk db b (PExt p c) → wf false (PExt p c) → keyFor false k → v ≠ [] →
  (0 ≤ ver < 256)%Z → length k < S fuel → slot (Rep db) db (is_Some (hash b)) en ch (Some c) →
  insertResult db (PExt p c) b (pinsert (PExt p c) k v ver)
    (en_insert insert (mkData k (Some v) ver) db (mkEn p en (pversion c)) b
       (extensionNode (mkEn p en (pversion c)) ch b)).
Proof.
  intros IH Hb Hwf Hk Hv Hver Hfuel Hslot. pose proof (Rep_ext db p en ch c b Hb Hslot) as HR.
  inversion Hwf as [|? ? Hp Hne Hbr Hc|]; subst.
  unfold en_insert. rewrite (bind_checkNode db _ _ _ _ _ HR Hwf).
  destruct (resolve_ext db _ p en (pversion c) ch b c 0 Hc Hslot) as (cn & Hres & HRc & Hslot').
  rewrite (bind_Ret _ _ _ _ _ Hres). cbn [Key enKey pinsert].
  destruct (key_path k p Hk Hp) as [[Hm Hkp]|(q & x & y & p' & k' & -> & -> & Hxy & Hm)]; rewrite Hm.
  - rewrite Nat.eqb_refl. unfold en_insertInSameEn. cbn [Key Value Version enKey].
    rewrite Hkp keyFor_path // in Hk. set (r := drop (length p) k) in *.
    assert (length r < fuel) as Hlr.
    { rewrite Hkp length_app in Hfuel. destruct p; [done|]. simpl in Hfuel. lia. }
    specialize (IH cn c false r v ver HRc Hc Hk Hv Hver Hlr).
    destruct (pinsert c r v ver) as [c'|] eqn:Hins; cbn [fmap option_fmap option_map insertResult] in IH |- *.
    + destruct IH as (m & hs & cn' & Hrun & HRm).
      erewrite bind_Ret; [|by eapply onChild_run]. cbn beta iota.
      assert (wf false c') as Hc'.
      { pose proof (pinsert_spec c false r v ver Hc Hk Hv Hver) as Hspec. rewrite Hins in Hspec. apply Hspec. }
      destruct (newExtension_Rep db p m c' false HRm Hc') as (m' & Hm' & HRm' & _).
      rewrite (bind_liftO_Ret _ _ _ _ Hm'). by do 3 eexists.
    + destruct IH as (cn' & Hrun & HRm & Hbase).
      erewrite bind_Ret; [|by eapply onChild_run]. eexists. split; [done|]. split; [|done].
      constructor; [done|]. by eapply slot_child.
  - assert (length q ≠ length (q ++ x :: p')) as Hlen%Nat.eqb_neq by (rewrite length_app /=; lia).
    rewrite Hlen bind_gets. cbn [id childAt]. apply Forall_app in Hp as [Hq Hp].
    apply Forall_cons in Hp as [Hx Hp']. destruct (keyFor_split q y k' Hk) as (_ & Hy & Hk').
    assert (index x < 17) as Hx' by (unfold nibble in Hx; lia).
    destruct (en_insertInNewBn_spec db q x p' y k' v ver en (pversion c) b cn c) as (m & hs & Hrun & HRm);
      try done; [by apply nibble_not_end|].
    rewrite take_split !nth_split !drop_split. by eapply insert_changed; [rewrite /liftO Hrun|].
Qed.

(** a branch node with a new child *)
Lemma bn_modify_spec db encs chs cs b i hs m c' e o :
  slots (Rep db) db (is_Some (hash b)) encs chs cs → i < 17 → Rep db m c' → wf e c' →
  ∃ hs' n', bn_modifyNodeAfterInsert hs i m (branchNode (mkBn encs (versionBytes cs)) (<[i := o]> chs) b) = (Ret hs', n') ∧
    Rep db n' (PBranch (<[i := Some c']> cs)).
Proof.
  intros Hs Hi HRm Hwf. unfold bn_modifyNodeAfterInsert.
  destruct (getVersion_ext_child db m c' e HRm Hwf) as [-> Hb].
  rewrite (setVersion_spec encs cs i (pversion c') (Some c')) //; [|by eapply slots_cs].
  do 2 eexists. split; [done|]. rewrite list_insert_insert_eq. constructor; [apply fresh_ok|].
  apply slots_set; [|by intros []|done..]. eapply slots_hashed; [|done]. by intros [].
Qed.
Lemma bn_insert_spec db fuel insert encs chs cs b k v ver :
  insertsAs db fuel insert → baseOk db b (PBranch cs) → wf false (PBranch cs) → keyFor false k → v ≠ [] →
  (0 ≤ ver < 256)%Z → length k < S fuel → slots (Rep db) db (is_Some (hash b)) encs chs cs →
  insertResult db (PBranch cs) b (pinsert (PBranch cs) k v ver)
    (bn_insert insert (mkData k (Some v) ver) db (branchNode (mkBn encs (versionBytes cs)) chs b)).
Proof.
  intros IH Hb Hwf Hk Hv Hver Hfuel Hs. pose proof (Rep_branch db encs chs cs b Hb Hs) as HR.
  pose proof Hwf as Hwf'. inversion Hwf' as [| |? Hlen H2 Hcs]; subst. unfold bn_insert.
  rewrite (bind_checkNode db _ _ _ _ _ HR Hwf). destruct k as [|x k]; [done|]. cbn [Key firstByte Value Version].
  apply keyFor_cons in Hk as [Hx Hk]. rewrite in_range // pinsert_branch.
  destruct (resolve_branch db _ encs (versionBytes cs) chs cs b (index x) Hs) as (chs' & Hres & Hs' & Hat);
    [by apply wf_present|done|by intros; apply Hcs|].
  rewrite (bind_Ret _ _ _ _ _ Hres) bind_gets. cbn [id childAt].
  destruct (pchild cs (index x)) as [c|] eqn:Hc.
  - destruct Hat as (cn & Hcn & HRc). rewrite Hcn. cbn [mjoin option_join]. unfold bn_insertOnExistingChild.
    assert (length k < fuel) as Hlk by (simpl in Hfuel; lia).
    specialize (IH cn c _ k v ver HRc (Hcs _ _ Hc) Hk Hv Hver Hlk).
    destruct (pinsert c k v ver) as [c'|] eqn:Hins; cbn [fmap option_fmap option_map insertResult] in IH |- *.
    + destruct IH as (m & hs & cn' & Hrun & HRm).
      erewrite bind_Ret; [|eapply onChild_run; [by rewrite /= Hcn|done]]. cbn [setChild].
      pose proof (pinsert_spec c _ k v ver (Hcs _ _ Hc) Hk Hv Hver) as Hspec. rewrite Hins in Hspec.
      destruct Hspec as (_ & Hc' & _).
      destruct (bn_modify_spec db encs chs' cs b (index x) hs m c' _ (Some cn') Hs' Hx HRm Hc')
        as (hs' & n' & Hmod & HRn').
      cbn beta iota. rewrite (bind_Ret _ _ _ _ _ Hmod) bind_gets. by do 3 eexists.
    + destruct IH as (cn' & Hrun & HRm & Hbase).
      erewrite bind_Ret; [|eapply onChild_run; [by rewrite /= Hcn|done]]. eexists. split; [done|]. split; [|done].
      constructor; [done|]. by eapply slots_child.
  - rewrite Hat. cbn [mjoin option_join]. unfold bn_insertOnNilChild.
    destruct (bn_modify_spec db encs chs' cs b (index x) [] (newLeafNode (mkData k (Some v) ver)) (PLeaf k v ver)
      (atEnd (index x)) None Hs' Hx) as (hs' & n' & Hmod & HRn'); [by apply newLeaf_Rep|by apply wf_leaf|].
    rewrite list_insert_id // in Hmod. rewrite (bind_Ret _ _ _ _ _ Hmod) bind_gets. by do 3 eexists.
Qed.
Lemma node_insert_spec db fuel : insertsAs db fuel (node_insert fuel db).
Proof.
  induction fuel as [|fuel IH]; intros n t e k v ver HR Hwf Hk Hv Hver Hfuel; [lia|].
  cbn [node_insert]. rewrite bind_gets. cbn [id].
  destruct HR as [k0 v0 ver0 b Hb|p en ch c b Hb Hslot|encs chs cs b Hb Hslots].
  - by eapply ln_insert_spec.
  - assert (e = false) as -> by by inversion Hwf. by eapply en_insert_spec.
  - assert (e = false) as -> by by inversion Hwf. by eapply bn_insert_spec.
Qed.
End refine.
