(* ===== verification/TrieDelete.v ===== *)
(** * TrieDelete: deleting refines the canonical trie

    [node_delete] does what [pdelete] does: a branch node that is left with one
    child becomes that child, with the position in front of its key. *)
From S2P Require Import Prelude TrieNode TrieOps TriePure TrieSpec TrieRefine.
#[local] Open Scope go_scope.

Section delete.
Context {TE : TrieEnvironment} {TL : TrieLaws}.

(** ** Counting children *)
Lemma last_cons {A} (x : A) l d : List.last (x :: l) d = List.last l x.
Proof.
  revert x d. induction l as [|y l IH]; intros x d; [done|].
  change (List.last (y :: l) d = List.last (y :: l) x). by rewrite !IH.
Qed.
Lemma countChildren_spec (R : node → ptrie → Prop) (db : Storage) (h : Prop) encs vs chs cs range count pos :
  slots R db h encs chs cs → (∀ i, i ∈ range → i < 17) →
  countChildren (mkBn encs vs) chs range count pos =
    Ret (count + length (filter (present cs) range), List.last (filter (present cs) range) pos).
Proof.
  intros Hs. revert count pos. induction range as [|i range IH]; intros count pos Hlt.
  { by rewrite /= Nat.add_0_r. }
  assert (∀ j, j ∈ range → j < 17) as Hlt' by (intros j ?; apply Hlt; by right).
  cbn [countChildren]. rewrite (hasChild_spec R db h encs vs chs cs) //; [|apply Hlt; left].
  cbn [bindO]. case_bool_decide as Hp.
  - rewrite (IH _ _ Hlt') filter_cons_True //. f_equal. f_equal; [simpl; lia|].
    by rewrite last_cons.
  - by rewrite (IH _ _ Hlt') filter_cons_False.
Qed.
Lemma getChildPosition_spec (R : node → ptrie → Prop) (db : Storage) (h : Prop) encs vs chs cs b :
  slots R db h encs chs cs →
  getChildPosition (branchNode (mkBn encs vs) chs b) =
    Ret (length (positions cs), List.last (positions cs) 0).
Proof.
  intros Hs. cbn [getChildPosition]. erewrite countChildren_spec; [done|done|].
  intros i ?%elem_of_seq. unfold nrOfChildren in *. lia.
Qed.

(** ** Reducing *)
Lemma resolve_any db n t e pos :
  Rep db n t → wf e t → pos < 17 →
  ∃ n', resolveIfCollapsed pos db n = (Ret tt, n') ∧ Rep db n' t ∧ baseOf n' = baseOf n ∧ loaded n'.
Proof.
  intros HR Hwf Hpos. destruct HR as [k0 v0 ver0 b Hb|p en ch c b Hb Hslot|encs chs cs b Hb Hslots].
  - eexists. split; [|split; [by constructor|done]]. done.
  - inversion Hwf as [|? ? _ _ _ Hc|]; subst.
    destruct (resolve_ext db _ p en (pversion c) ch b c pos Hc Hslot) as (cn & Hres & _ & Hslot').
    eexists. split; [done|]. split; [by constructor|done].
  - assert (e = false) as -> by by inversion Hwf. pose proof (wf_present _ Hwf).
    inversion Hwf as [| |? _ _ Hcs]; subst.
    destruct (resolve_branch db _ encs (versionBytes cs) chs cs b pos Hslots) as (chs' & Hres & Hs' & _);
      [done|done|by intros; apply Hcs|].
    eexists. split; [done|]. split; [by constructor|done].
Qed.
Lemma reduceNode_spec db pos n t e :
  Rep db n t → wf e t → loaded n →
  ∃ m h, reduceNode pos n = Ret (m, h) ∧ Rep db m (prefixed [toByte (Z.of_nat pos)] t) ∧ loaded m.
Proof.
  intros HR Hwf Hl. pose proof (getVersion_ext_child db n t e HR Hwf) as [Hv Hvb].
  destruct HR as [k0 v0 ver0 b Hb|p en ch c b Hb Hslot|encs chs cs b Hb Hslots].
  - unfold reduceNode, ln_reduceNode. rewrite Hv. cbn [bindO]. do 2 eexists. split; [done|].
    split; [|done]. by apply newLeaf_Rep.
  - inversion Hwf as [|? ? _ _ _ Hc|]; subst. destruct ch as [cn|]; [|done].
    inversion Hslot as [| |? ? ? HRc _]; subst.
    destruct (newExtension_Rep db (toByte (Z.of_nat pos) :: p) cn c false HRc Hc) as (m & Hm & HRm & Hlm).
    exists m, true. split; [|done]. unfold reduceNode, en_reduceNode. cbn [enKey]. by rewrite Hm.
  - destruct (newExtension_Rep db [toByte (Z.of_nat pos)]
      (branchNode (mkBn encs (versionBytes cs)) chs b) (PBranch cs) e) as (m & Hm & HRm & Hlm); [by constructor|done|].
    exists m, false. split; [|done]. unfold reduceNode, bn_reduceNode. by rewrite Hm.
Qed.

Lemma bn_reduceLast_spec db encs chs cs b pos hs c :
  slots (Rep db) db False encs chs cs → (∀ i d, pchild cs i = Some d → wf (atEnd i) d) →
  pchild cs pos = Some c → pos < 17 →
  ∃ m hs' n', bn_reduceLast pos db hs (branchNode (mkBn encs (versionBytes cs)) chs b) =
      (Ret (true, Some m, hs'), n') ∧
    Rep db m (prefixed [toByte (Z.of_nat pos)] c) ∧ loaded m.
Proof.
  intros Hs Hcs Hc Hpos. unfold bn_reduceLast.
  destruct (resolve_branch db _ encs (versionBytes cs) chs cs b pos Hs) as (chs' & Hres & Hs' & Hat);
    [by exists pos; split; [|exists c]|done|by intros; apply Hcs|].
  rewrite (bind_Ret _ _ _ _ _ Hres). rewrite Hc in Hat. destruct Hat as (cn & Hcn & HRc).
  destruct (resolve_any db cn c _ pos HRc (Hcs _ _ Hc) Hpos) as (cn' & Hres' & HRc' & _ & Hl).
  erewrite bind_Ret; [|eapply onChild_run; [by rewrite /= Hcn|done]]. cbn [setChild].
  destruct (reduceNode_spec db pos cn' c _ HRc' (Hcs _ _ Hc) Hl) as (m & h & Hred & HRm & Hlm).
  erewrite bind_Ret.
  2:{ eapply onChild_run.
      - cbn [childAt]. rewrite list_lookup_insert_eq; [done|]. by rewrite (slots_chs _ _ _ _ _ _ Hs').
      - rewrite bind_gets. cbn [id]. by rewrite (bind_liftO_Ret _ _ _ _ Hred). }
  cbn beta iota. by do 3 eexists.
Qed.

(** ** delete *)
Definition RepO (db : Storage) (n : option node) (t : option ptrie) : Prop :=
  match n, t with
  | Some n, Some t => Rep db n t ∧ loaded n
  | None, None => True
  | _, _ => False
  end.
Definition deleteResult (db : Storage) (t : ptrie) (b : baseNode) (r : option (option ptrie))
    (res : outcome error (bool * option node * list bytes) * node) : Prop :=
  match r with
  | None => ∃ n', res = (Ret (false, Some n', []), n') ∧ Rep db n' t ∧ baseOf n' = b
  | Some o => ∃ m hs n', res = (Ret (true, m, hs), n') ∧ RepO db m o
  end.
Definition deletesAs (db : Storage) (fuel : nat)
    (delete : bytes → M node error (bool * option node * list bytes)) : Prop := ∀ n t e k,
  Rep db n t → wf e t → keyFor e k → length k < fuel →
  deleteResult db t (baseOf n) (pdelete t k) (delete k n).

Lemma merge_spec db p m hs b n' c' :
  Rep db m c' → loaded m → wf false c' →
  let hs := hs ++ oldHashesOf b in
  ∃ m' hs', (match Some m with
    | Some (leafNode ln' _) =>
      let n := newLeafNode (mkData (p ++ lnKey ln') (lnValue ln') (u8 (lnVersion ln'))) in
      ret (true, Some n, hs)
    | Some (extensionNode en' child' _) =>
      let! n := liftO (newExtensionNode (p ++ enKey en') child') in ret (true, Some n, hs)
    | Some (branchNode _ _ _) =>
      let! n := liftO (newExtensionNode p (Some m)) in ret (true, Some n, hs)
    | None => ret (true, None, hs)
    end : M node error (bool * option node * list bytes)) n' = (Ret (true, Some m', hs'), n') ∧
  RepO db (Some m') (Some (prefixed p c')).
Proof.
  intros HR Hl Hwf hs1. destruct HR as [k0 v0 ver0 b0 Hb|q en ch c b0 Hb Hslot|encs chs cs b0 Hb Hslots].
  - inversion Hwf; subst. do 2 eexists. split; [done|]. split; [|done].
    apply newLeaf_Rep; [done|]. cbn [lnVersion lnKey lnValue]. unfold u8. by rewrite Z.mod_small.
  - inversion Hwf as [|? ? _ _ _ Hc|]; subst. destruct ch as [cn|]; [|done].
    inversion Hslot as [| |? ? ? HRc _]; subst.
    destruct (newExtension_Rep db (p ++ q) cn c false HRc Hc) as (m' & Hm' & HRm' & Hlm').
    cbn [enKey]. rewrite (bind_liftO_Ret _ _ _ _ Hm'). by do 2 eexists.
  - destruct (newExtension_Rep db p (branchNode (mkBn encs (versionBytes cs)) chs b0) (PBranch cs) false)
      as (m' & Hm' & HRm' & Hlm'); [by constructor|done|].
    rewrite (bind_liftO_Ret _ _ _ _ Hm'). by do 2 eexists.
Qed.

Lemma en_delete_spec db fuel delete p en ch c b k :
  deletesAs db fuel delete → baseOk db b (PExt p c) → wf false (PExt p c) → keyFor false k →
  length k < S fuel → slot (Rep db) db (is_Some (hash b)) en ch (Some c) →
  deleteResult db (PExt p c) b (pdelete (PExt p c) k)
    (en_delete delete k db (mkEn p en (pversion c)) b (extensionNode (mkEn p en (pversion c)) ch b)).
Proof.
  intros IH Hb Hwf Hk Hfuel Hslot. pose proof (Rep_ext db p en ch c b Hb Hslot) as HR.
  inversion Hwf as [|? ? Hp Hne Hbr Hc|]; subst.
  unfold en_delete. rewrite (bind_checkNode db _ _ _ _ _ HR Hwf).
  assert (length k ≠ 0) as Hk0%Nat.eqb_neq by by destruct k. rewrite Hk0. cbn [enKey pdelete].
  destruct (key_path k p Hk Hp) as [[Hm Hkp]|(q & x & y & p' & k' & -> & -> & Hxy & Hm)]; rewrite Hm.
  - rewrite Nat.ltb_irrefl. rewrite Hkp keyFor_path // in Hk. set (r := drop (length p) k) in *.
    assert (length r < fuel) as Hlr.
    { rewrite Hkp length_app in Hfuel. destruct p; [done|]. simpl in Hfuel. lia. }
    destruct (resolve_ext db _ p en (pversion c) ch b c 0 Hc Hslot) as (cn & Hres & HRc & Hslot').
    rewrite (bind_Ret _ _ _ _ _ Hres). specialize (IH cn c false r HRc Hc Hk Hlr).
    pose proof (pdelete_spec c false r Hc Hk) as Hspec.
    destruct (pdelete c r) as [o|]; cbn [fmap option_fmap option_map deleteResult] in IH |- *.
    + destruct IH as (m & hs & cn' & Hrun & HRm). erewrite bind_Ret; [|by eapply onChild_run].
      cbn beta iota delta [negb].
      destruct m as [m|], o as [c'|]; try done; [|by do 3 eexists].
      destruct HRm as [HRm Hl]. destruct Hspec as (_ & Hc' & _).
      destruct (merge_spec db p m hs b (setChild 0 (Some cn') (extensionNode (mkEn p en (pversion c)) (Some cn) b))
        c' HRm Hl (Hc' _ eq_refl)) as (m' & hs' & Hrun' & HRm').
      exists (Some m'), hs'. eexists. split; [|exact HRm']. exact Hrun'.
    + destruct IH as (cn' & Hrun & HRm & Hbase). erewrite bind_Ret; [|by eapply onChild_run].
      eexists. split; [done|]. split; [|done]. constructor; [done|]. by eapply slot_child.
  - assert (length q < length (q ++ x :: p')) as Hlen%Nat.ltb_lt by (rewrite length_app /=; lia).
    rewrite Hlen. by eexists.
Qed.

Lemma bn_setNewChild_spec db h encs chs cs b i x m o e :
  slots (Rep db) db h encs chs cs → i < 17 → RepO db m o → (∀ c, o = Some c → wf e c) →
  ∃ encs', bn_setNewChild i m (branchNode (mkBn encs (versionBytes cs)) (<[i := x]> chs) b) =
      (Ret tt, branchNode (mkBn encs' (versionBytes (<[i := o]> cs))) (<[i := m]> chs) (mkBase None (dirty b))) ∧
    slots (Rep db) db False encs' (<[i := m]> chs) (<[i := o]> cs).
Proof.
  intros Hs Hi HRm Hwf. unfold bn_setNewChild. rewrite list_insert_insert_eq.
  pose proof (slots_cs _ _ _ _ _ _ Hs) as Hlen. apply (slots_hashed _ _ _ False) in Hs; [|done].
  destruct m as [m|], o as [c|]; try done.
  - destruct HRm as [HRm _]. destruct (getVersion_ext_child db m c e HRm (Hwf _ eq_refl)) as [-> Hb].
    cbn [bindO]. rewrite (setVersion_spec encs cs i (pversion c) (Some c)) //.
    eexists. split; [done|]. apply slots_set; try done. tauto.
  - rewrite NotSpecified_zero (setVersion_spec encs cs i 0 None) //. cbn [EncodedChildren ChildrenVersion].
    rewrite (slots_encs _ _ _ _ _ _ Hs). destruct (Nat.leb_spec 17 i); [lia|].
    eexists. split; [done|]. apply slots_insert; [done..|]. constructor.
Qed.

(** what is left of a branch node *)
Lemma bn_finish db encs chs cs b hs :
  slots (Rep db) db False encs chs cs → (∀ i c, pchild cs i = Some c → wf (atEnd i) c) →
  ∃ m hs' n',
    (let! n := gets id in
     let! ' (numChildren, pos) := liftO (getChildPosition n) in
     if (numChildren =? 1)%nat then bn_reduceLast pos db hs
     else modify (setDirty true) ;;; let! n := gets id in ret (true, Some n, hs))
      (branchNode (mkBn encs (versionBytes cs)) chs (mkBase None b)) = (Ret (true, m, hs'), n') ∧
    RepO db m (Some (normalised cs)).
Proof.
  intros Hs Hcs. rewrite bind_gets. cbn [id].
  rewrite (bind_liftO_Ret _ _ _ _ (getChildPosition_spec _ _ _ _ (versionBytes cs) _ _ _ Hs)).
  cbn beta iota. unfold normalised. pose proof (elem_of_positions cs) as Hin.
  assert (Rep db (branchNode (mkBn encs (versionBytes cs)) chs fresh) (PBranch cs)) as HR.
  { constructor; [apply fresh_ok|]. eapply slots_hashed; [|done]. by intros []. }
  destruct (positions cs) as [|pos [|pos2 l]]; [by do 3 eexists| |by do 3 eexists].
  destruct (proj1 (Hin pos)) as [[c Hc] Hlt]; [left|]. cbn [length Nat.eqb List.last]. rewrite Hc.
  destruct (bn_reduceLast_spec db encs chs cs (mkBase None b) pos hs c Hs Hcs Hc Hlt)
    as (m & hs' & n' & Hrun & HRm & Hl). by exists (Some m), hs', n'.
Qed.

Lemma bn_delete_spec db fuel delete encs chs cs b k :
  deletesAs db fuel delete → baseOk db b (PBranch cs) → wf false (PBranch cs) → keyFor false k →
  length k < S fuel → slots (Rep db) db (is_Some (hash b)) encs chs cs →
  deleteResult db (PBranch cs) b (pdelete (PBranch cs) k)
    (bn_delete delete k db (branchNode (mkBn encs (versionBytes cs)) chs b)).
Proof.
  intros IH Hb Hwf Hk Hfuel Hs. pose proof (Rep_branch db encs chs cs b Hb Hs) as HR.
  pose proof Hwf as Hwf'. inversion Hwf' as [| |? Hlen H2 Hcs]; subst. unfold bn_delete.
  rewrite (bind_checkNode db _ _ _ _ _ HR Hwf). destruct k as [|x k]; [done|]. cbn [firstByte].
  apply keyFor_cons in Hk as [Hx Hk]. rewrite in_range // pdelete_branch.
  destruct (resolve_branch db _ encs (versionBytes cs) chs cs b (index x) Hs) as (chs' & Hres & Hs' & Hat);
    [by apply wf_present|done|by intros; apply Hcs|].
  rewrite (bind_Ret _ _ _ _ _ Hres) bind_gets. cbn [id childAt].
  destruct (pchild cs (index x)) as [c|] eqn:Hc.
  2:{ rewrite Hat. cbn [mjoin option_join]. eexists. split; [done|]. split; [by constructor|done]. }
  destruct Hat as (cn & Hcn & HRc). rewrite Hcn. cbn [mjoin option_join].
  assert (length k < fuel) as Hlk by (simpl in Hfuel; lia).
  specialize (IH cn c _ k HRc (Hcs _ _ Hc) Hk Hlk). pose proof (pdelete_spec c _ k (Hcs _ _ Hc) Hk) as Hspec.
  destruct (pdelete c k) as [o|]; cbn [fmap option_fmap option_map deleteResult] in IH |- *.
  - destruct IH as (m & hs & cn' & Hrun & HRm). destruct Hspec as (_ & Hc' & _).
    erewrite bind_Ret; [|eapply onChild_run; [by rewrite /= Hcn|done]].
    cbn beta iota delta [setChild]. rewrite bind_gets. cbn [id negb baseOf].
    destruct (bn_setNewChild_spec db _ encs chs' cs b (index x) (Some cn') m o (atEnd (index x)) Hs' Hx HRm Hc')
      as (encs' & Hset & Hs'').
    rewrite (bind_Ret _ _ _ _ _ Hset). apply bn_finish; [done|].
    intros i d. destruct (decide (i = index x)) as [->|].
    + rewrite pchild_insert_eq; [apply Hc'|lia].
    + rewrite pchild_insert_ne //. apply Hcs.
  - destruct IH as (cn' & Hrun & HRm & Hbase).
    erewrite bind_Ret; [|eapply onChild_run; [by rewrite /= Hcn|done]]. eexists. split; [done|]. split; [|done].
    constructor; [done|]. by eapply slots_child.
Qed.
Lemma node_delete_spec db fuel : deletesAs db fuel (node_delete fuel db).
Proof.
  induction fuel as [|fuel IH]; intros n t e k HR Hwf Hk Hfuel; [lia|].
  cbn [node_delete]. rewrite bind_gets. cbn [id].
  destruct HR as [k0 v0 ver0 b Hb|p en ch c b Hb Hslot|encs chs cs b Hb Hslots].
  - unfold ln_delete. cbn [lnKey pdelete]. case_bool_decide; [by do 3 eexists|].
    eexists. split; [done|]. split; [by constructor|done].
  - assert (e = false) as -> by by inversion Hwf. by eapply en_delete_spec.
  - assert (e = false) as -> by by inversion Hwf. by eapply bn_delete_spec.
Qed.
End delete.
