(* ===== verification/TrieCommit.v ===== *)
(** * TrieCommit: hashing and committing

    [setHash] gives every node in memory the Merkle hash of the trie it stands
    for; [commitDirty] stores the changed nodes, below a node before the node
    itself, and leaves a node that stands for the same trie, clean, with the
    whole trie in the storage, whatever the level at which nodes are kept in
    memory. *)
From S2P Require Import Prelude TrieNode TriePure TrieSpec TrieRefine.
#[local] Open Scope go_scope.

Section hash.
Context {TE : TrieEnvironment} {TL : TrieLaws}.

Lemma Forall3_lookup_2 {A B C} (P : A → B → C → Prop) l1 l2 l3 :
  length l1 = length l3 → length l2 = length l3 →
  (∀ i x y z, l1 !! i = Some x → l2 !! i = Some y → l3 !! i = Some z → P x y z) → Forall3 P l1 l2 l3.
Proof.
  revert l1 l2. induction l3 as [|z l3 IH]; intros [|x l1] [|y l2] H1 H2 H; try done; constructor.
  - by apply (H 0).
  - apply IH; [by injection H1|by injection H2|]. intros i. apply (H (S i)).
Qed.

(** ** Slots, from the first to the last *)
Lemma slots_Forall3 (R : node → ptrie → Prop) db (h : Prop) encs chs cs :
  slots R db h encs chs cs ↔ length cs = 17 ∧ Forall3 (slot R db h) encs chs cs.
Proof.
  split.
  - intros Hs. pose proof Hs as [He Hc Hcs Hat]. split; [done|].
    apply Forall3_lookup_2; [congruence..|]. intros i e ch o Hi1 Hi2 Hi3.
    specialize (Hat i e ch Hi1 Hi2). unfold pchild in Hat. by rewrite Hi3 in Hat.
  - intros [Hlen HF]. pose proof (Forall3_length_lm _ _ _ _ HF). pose proof (Forall3_length_lr _ _ _ _ HF).
    split; [congruence|congruence|done|].
    intros i e ch He Hch. destruct (lookup_lt_is_Some_2 cs i) as [o Ho].
    { apply lookup_lt_Some in He. congruence. }
    unfold pchild. rewrite Ho. by eapply Forall3_lookup_lmr.
Qed.

(** a method on every child in memory takes the slots from [S1] to [S2] *)
Lemma eachChild_spec {D} (f : node → D → outcome error unit * (node * D)) (le : D → D → Prop)
    (S1 S2 : D → bytes → option node → option ptrie → Prop) encs chs cs d :
  PreOrder le →
  (∀ d d' e ch o, le d d' → S1 d e ch o → S1 d' e ch o) →
  (∀ d d' e ch o, le d d' → S2 d e ch o → S2 d' e ch o) →
  (∀ d e o, S1 d e None o → S2 d e None o) →
  (∀ d e n o, o ∈ cs → S1 d e (Some n) o →
     ∃ n' d', f n d = (Ret tt, (n', d')) ∧ le d d' ∧ S2 d' e (Some n') o) →
  Forall3 (S1 d) encs chs cs →
  ∃ chs' d', eachChild f chs d = (Ret tt, (chs', d')) ∧ le d d' ∧ Forall3 (S2 d') encs chs' cs.
Proof.
  intros Hpre Hm1 Hm2 Hnone Hf HF. revert d chs encs HF.
  induction cs as [|o cs IH]; intros d chs encs HF; inversion HF as [|e ch ? encs' chs1 ? Hs HF']; subst.
  { exists [], d. split; [done|]. split; [done|constructor]. }
  assert (∀ d e n o, o ∈ cs → S1 d e (Some n) o →
     ∃ n' d', f n d = (Ret tt, (n', d')) ∧ le d d' ∧ S2 d' e (Some n') o) as Hf'.
  { intros ????? . apply Hf. by right. }
  destruct ch as [n|]; cbn [eachChild].
  - destruct (Hf d e n o) as (n' & d1 & Hrun & Hle & Hs2); [left|done|]. rewrite Hrun.
    destruct (IH Hf' d1 chs1 encs') as (chs' & d' & Hrun' & Hle' & HF2).
    { eapply Forall3_impl; [done|]. intros ???. by apply Hm1. }
    rewrite Hrun'. exists (Some n' :: chs'), d'. split; [done|]. split; [by etrans|].
    constructor; [by eapply Hm2|done].
  - destruct (IH Hf' d chs1 encs' HF') as (chs' & d' & Hrun' & Hle' & HF2).
    rewrite Hrun'. exists (None :: chs'), d'. split; [done|]. split; [done|].
    constructor; [|done]. eapply Hm2; [done|]. by apply Hnone.
Qed.

(** ** Encoding a node whose children's hashes are known *)
Lemma slots_encs_hashed (R : node → ptrie → Prop) db (h : Prop) encs chs cs :
  slots R db h encs chs cs → h → encs = phashO <$> cs.
Proof.
  intros [_ HF]%slots_Forall3 Hh. induction HF as [|e ch o encs chs cs Hs HF IH]; [done|].
  rewrite fmap_cons -IH. f_equal. destruct Hs as [|c|e n c _ Hl]; [done..|]. by apply Hl.
Qed.
Lemma slot_enc_hashed (R : node → ptrie → Prop) db (h : Prop) e ch c :
  slot R db h e ch (Some c) → h → e = phash c.
Proof. intros Hs Hh. inversion Hs as [| |? ? ? _ Hl]; subst; [done|]. by apply Hl. Qed.

Lemma getEncodedNode_spec db n t e :
  Rep db n t → wf e t → is_Some (getHash n) → getEncodedNode n = Ret (penc t).
Proof.
  intros HR Hwf Hh. unfold getEncodedNode. rewrite (isEmpty_spec db n t e HR Hwf). cbn [wrapO bindO].
  pose proof (pversion_bound e t Hwf) as Hb.
  destruct HR as [k v ver b _|p en ch c b _ Hs|encs chs cs b _ Hs]; cbn [marshalNode nodeType penc].
  - inversion Hwf; subst.
    destruct (marshalled_spec _ _ (mkLn k (Some v) ver) (mkLn [] None 0)) as [-> _]; [|done].
    simpl. split; [congruence|lia].
  - rewrite (slot_enc_hashed _ _ _ _ _ _ Hs Hh).
    destruct (marshalled_spec _ _ (mkEn p (phash c) (pversion c)) (mkEn [] [] 0)) as [-> _]; [|done].
    simpl in *. lia.
  - rewrite (slots_encs_hashed _ _ _ _ _ _ Hs Hh).
    by destruct (marshalled_spec _ _ (mkBn (phashO <$> cs) (versionBytes cs)) (mkBn [] [])) as [-> _].
Qed.
Lemma encodeNodeAndGetHash_spec db n t e :
  Rep db n t → wf e t → is_Some (getHash n) → encodeNodeAndGetHash n = Ret (phash t).
Proof. intros. unfold encodeNodeAndGetHash. erewrite getEncodedNode_spec; [|done..]. by rewrite phash_penc. Qed.

(** a node without a hash whose children have theirs, once it gets it *)
Definition hashedNode (n : node) (t : ptrie) : node := withBase n (mkBase (Some (phash t)) (isDirty n)).
Lemma encode_hashed db n t e :
  Rep db (hashedNode n t) t → wf e t → encodeNodeAndGetHash n = Ret (phash t).
Proof.
  intros HR Hwf. rewrite -(encodeNodeAndGetHash_spec db _ t e HR Hwf); [|by destruct n].
  unfold encodeNodeAndGetHash, getEncodedNode. by destruct n.
Qed.
(** the children are hashed *)
Definition hashedSlot (db : Storage) : bytes → option node → option ptrie → Prop :=
  slot (λ n c, Rep db n c ∧ is_Some (getHash n)) db False.
Lemma hashEncoded_spec db encs chs cs :
  (∀ c, Some c ∈ cs → ∃ e, wf e c) → Forall3 (hashedSlot db) encs chs cs →
  hashEncoded chs encs = (Ret tt, phashO <$> cs) ∧ Forall3 (slot (Rep db) db True) (phashO <$> cs) chs cs.
Proof.
  intros Hwf HF. induction HF as [|e ch o encs chs cs Hs HF IH]; [split; [done|constructor]|].
  destruct IH as [IH1 IH2]; [intros c ?; apply Hwf; by right|].
  rewrite fmap_cons. destruct Hs as [|c Hst|e n c [HR Hh] _]; cbn [hashEncoded phashO].
  - rewrite IH1. split; [done|]. constructor; [constructor|done].
  - rewrite IH1. split; [done|]. constructor; [by constructor|done].
  - destruct (Hwf c) as [e' Hc]; [left|]. rewrite (encodeNodeAndGetHash_spec db n c e' HR Hc Hh) IH1.
    split; [done|]. constructor; [by constructor|done].
Qed.

Lemma hashedSlot_weaken db e ch o : hashedSlot db e ch o → slot (Rep db) db False e ch o.
Proof. intros [|c Hc|e' n c [HR _] _]; [constructor|by constructor|by constructor]. Qed.
Lemma Forall3_hashed_slots db encs chs cs :
  length cs = 17 → Forall3 (hashedSlot db) encs chs cs → slots (Rep db) db False encs chs cs.
Proof.
  intros Hlen HF. apply slots_Forall3. split; [done|]. eapply Forall3_impl; [done|].
  intros ???. apply hashedSlot_weaken.
Qed.

(** a node without a hash, children hashed *)
Inductive childrenHashed (db : Storage) : node → ptrie → Prop :=
  | ch_leaf k v ver b : childrenHashed db (leafNode (mkLn k (Some v) ver) b) (PLeaf k v ver)
  | ch_ext p e ch c b : hashedSlot db e ch (Some c) →
      childrenHashed db (extensionNode (mkEn p e (pversion c)) ch b) (PExt p c)
  | ch_branch encs chs cs b : length cs = 17 → Forall3 (hashedSlot db) encs chs cs →
      childrenHashed db (branchNode (mkBn encs (versionBytes cs)) chs b) (PBranch cs).
Definition noHash (b : baseNode) : Prop := hash b = None.

Lemma childrenHashed_Rep db n t :
  childrenHashed db n t → baseOk db (baseOf n) t → noHash (baseOf n) → Rep db n t.
Proof.
  intros [] Hb Hno; constructor; try done.
  - eapply slot_hashed; [|by eapply hashedSlot_weaken]. rewrite Hno. by intros [].
  - eapply slots_hashed; [|by eapply Forall3_hashed_slots]. rewrite Hno. by intros [].
Qed.
Lemma baseOk_hashed db b t : baseOk db b t → baseOk db (mkBase (Some (phash t)) (dirty b)) t.
Proof. intros [_ Hc]. split; [by intros h [= <-]|]. intros Hd. split; [done|]. by apply Hc. Qed.

Lemma wf_children cs c : wf false (PBranch cs) → Some c ∈ cs → ∃ e, wf e c.
Proof.
  intros Hwf [i Hi]%list_elem_of_lookup. inversion Hwf as [| |? _ _ Hcs]; subst.
  exists (atEnd i). apply Hcs. by apply pchild_Some.
Qed.
Lemma hashNode_spec db n t e :
  childrenHashed db n t → wf e t → baseOk db (baseOf n) t → noHash (baseOf n) →
  ∃ n', hashNode n = (Ret (phash t), n') ∧ Rep db (hashedNode n' t) t ∧ isDirty n' = isDirty n.
Proof.
  intros Hch Hwf Hb Hno. unfold hashNode.
  rewrite (bind_checkNode db n t e _ _ (childrenHashed_Rep _ _ _ Hch Hb Hno) Hwf).
  assert (∃ n', encodeChildren n = (Ret tt, n') ∧ Rep db (hashedNode n' t) t ∧ isDirty n' = isDirty n)
    as (n' & Hrun & HR & Hd).
  { pose proof (baseOk_hashed db _ _ Hb) as Hb'.
    destruct Hch as [k v ver b|p en ch c b Hs|encs chs cs b Hlen HF]; cbn [encodeChildren baseOf] in *.
    - eexists. split; [done|]. split; [by constructor|done].
    - inversion Hs as [|? Hst|? cn ? [HR Hh] _]; subst.
      + eexists. split; [done|]. split; [|done]. constructor; [done|by constructor].
      + inversion Hwf as [|? ? _ _ _ Hc|]; subst. rewrite (encodeNodeAndGetHash_spec db cn c false HR Hc Hh).
        eexists. split; [done|]. split; [|done]. constructor; [done|by constructor].
    - assert (e = false) as -> by by inversion Hwf.
      destruct (hashEncoded_spec db encs chs cs) as [Hrun HF']; [by intros; eapply wf_children|done|].
      cbn [EncodedChildren]. rewrite Hrun. eexists. split; [done|]. split; [|done].
      constructor; [done|]. eapply slots_hashed; [|by apply slots_Forall3]. done. }
  exists n'. rewrite (bind_Ret _ _ _ _ _ Hrun) bind_gets. cbn [id]. unfold liftO.
  by rewrite (encode_hashed db n' t e HR Hwf).
Qed.

Lemma isCollapsed_Rep db n t :
  Rep db n t → isCollapsed n = true → Rep db (hashedNode n t) t.
Proof.
  intros HR Hcol. pose proof (baseOk_hashed db _ _ (base_of_Rep _ _ _ HR)) as Hb.
  destruct HR as [k v ver b _|p en ch c b _ Hs|encs chs cs b _ Hs]; [done| |]; cbn [isCollapsed] in Hcol.
  - constructor; [done|]. destruct ch; [done|]. inversion Hs; subst. by constructor.
  - constructor; [done|]. destruct Hs as [He Hc Hcs Hat]. split; [done..|].
    intros i e ch Hi Hci. specialize (Hat i e ch Hi Hci).
    assert (ch = None) as ->.
    { rewrite forallb_forall in Hcol. apply list_elem_of_lookup_2, list_elem_of_In in Hci.
      by apply Hcol, bool_decide_eq_true in Hci. }
    inversion Hat; subst; by constructor.
Qed.

(** what a hashing method does *)
Definition hashesTo (db : Storage) (f : node → outcome error unit * node) (n : node) (t : ptrie) : Prop :=
  ∃ n', f n = (Ret tt, n') ∧ Rep db n' t ∧ getHash n' = Some (phash t) ∧ isDirty n' = isDirty n.
Lemma hashesTo_hash db f n t n' :
  f n = (Ret tt, n') → Rep db n' t → getHash n' = Some (phash t) → isDirty n' = isDirty n → hashesTo db f n t.
Proof. intros. by exists n'. Qed.

Lemma setHashBody_spec db n t e s children :
  Rep db n t → wf e t →
  (noHash (baseOf n) → isCollapsed n = false →
     ∃ n', children = (Ret tt, n') ∧ childrenHashed db n' t ∧ baseOf n' = baseOf n) →
  hashesTo db (setHashBody s children) n t.
Proof.
  intros HR Hwf Hch. unfold hashesTo, setHashBody. rewrite (bind_checkNode db n t e _ _ HR Hwf) bind_gets.
  cbn [id]. destruct (getHash n) as [h|] eqn:Hh.
  { exists n. split; [done|]. split; [done|]. split; [|done]. rewrite Hh. f_equal.
    by eapply base_hash; [by apply base_of_Rep|]. }
  destruct (isCollapsed n) eqn:Hcol.
  - pose proof (isCollapsed_Rep db n t HR Hcol) as HR'.
    rewrite (bind_liftO_Ret _ _ _ _ (encode_hashed db n t e HR' Hwf)).
    exists (hashedNode n t). split; [done|]. split; [done|]. by destruct n.
  - destruct (Hch Hh eq_refl) as (n1 & -> & Hch1 & Hbase).
    destruct (hashNode_spec db n1 t e Hch1 Hwf) as (n' & Hrun & HR' & Hd);
      [rewrite Hbase; by apply base_of_Rep|by rewrite Hbase|].
    exists (hashedNode n' t). split; [|split; [done|]].
    + rewrite {1}/bind {1}/bind (bind_checkNode db n t e _ _ HR Hwf) Hrun. done.
    + split; [by destruct n'|]. transitivity (isDirty n'); [by destruct n'|].
      rewrite Hd. unfold isDirty. by rewrite Hbase.
Qed.

(** ** setHash and setRootHash *)

(** the children of a trie *)
Definition below (t c : ptrie) : Prop :=
  match t with PLeaf _ _ _ => False | PExt _ c' => c = c' | PBranch cs => Some c ∈ cs end.
Lemma below_induction (P : ptrie → Prop) : (∀ t, (∀ c, below t c → P c) → P t) → ∀ t, P t.
Proof.
  intros H t. induction t as [k v ver|p c IH|cs IH] using ptrie_induction; apply H; simpl; [done| |].
  - by intros d ->.
  - intros c [i Hi]%list_elem_of_lookup. by eapply IH.
Qed.
Definition trueLe {D} (_ _ : D) : Prop := True.
#[local] Instance trueLe_pre {D} : PreOrder (@trueLe D).
Proof. by split. Qed.

Lemma getHash_Some db f n t :
  hashesTo db f n t → ∃ n', f n = (Ret tt, n') ∧ Rep db n' t ∧ is_Some (getHash n').
Proof. intros (n' & ? & ? & ? & ?). by exists n'. Qed.

(** hashing the children *)
Lemma eachChild_hash db f encs chs cs :
  (∀ c n e, Some c ∈ cs → Rep db n c → wf e c → hashesTo db f n c) →
  (∀ c, Some c ∈ cs → ∃ e, wf e c) →
  Forall3 (slot (Rep db) db False) encs chs cs →
  ∃ chs', eachChild (withoutState f) chs tt = (Ret tt, (chs', tt)) ∧ Forall3 (hashedSlot db) encs chs' cs.
Proof.
  intros Hf Hwf HF.
  destruct (eachChild_spec (withoutState f) trueLe (λ _, slot (Rep db) db False) (λ _, hashedSlot db)
    encs chs cs tt) as (chs' & [] & Hrun & _ & HF'); try done.
  - intros _ e o Hs. inversion Hs; subst; by constructor.
  - intros [] e n o Ho Hs. inversion Hs as [| |? ? c HR _]; subst.
    destruct (Hwf c Ho) as [e' Hc].
    destruct (getHash_Some db f n c) as (n' & Hn' & HR' & Hh); [by eapply Hf|].
    exists n', tt. unfold withoutState. rewrite Hn'. split; [done|]. split; [done|]. by constructor.
  - by exists chs'.
Qed.
Lemma overChildren_hash db f n t e :
  Rep db n t → wf e t →
  (∀ c m e, Rep db m c → wf e c →
     below t c →
     hashesTo db f m c) →
  ∃ n', overChildren (withoutState f) n tt = (Ret tt, (n', tt)) ∧ childrenHashed db n' t ∧ baseOf n' = baseOf n.
Proof.
  intros HR Hwf Hf. destruct HR as [k v ver b _|p en ch c b _ Hs|encs chs cs b _ Hs]; cbn [overChildren].
  - eexists. split; [done|]. split; [constructor|done].
  - inversion Hwf as [|? ? _ _ _ Hc|]; subst. inversion Hs as [|? Hst|? cn ? HR _]; subst.
    + eexists. split; [done|]. split; [|done]. constructor. by constructor.
    + destruct (getHash_Some db f cn c) as (n' & Hn' & HR' & Hh); [by eapply Hf|].
      unfold withoutState. rewrite Hn'. eexists. split; [done|]. split; [|done]. constructor. by constructor.
  - assert (e = false) as -> by by inversion Hwf.
    apply (slots_hashed _ _ _ False) in Hs; [|done]. apply slots_Forall3 in Hs as [Hlen HF].
    destruct (eachChild_hash db f encs chs cs) as (chs' & -> & HF');
      [by intros; eapply Hf|by intros; eapply wf_children|done|].
    eexists. split; [done|]. split; [|done]. by constructor.
Qed.

Lemma setHash_eq n : setHash n = setHashBody "setHash error " (setChildrenHashes n) n.
Proof. by destruct n. Qed.
Lemma setHash_spec db t : ∀ n e, Rep db n t → wf e t → hashesTo db setHash n t.
Proof.
  induction t as [t IH] using below_induction; intros n e HR Hwf.
  unfold hashesTo. rewrite setHash_eq. eapply setHashBody_spec; [done..|]. intros _ _.
  destruct (overChildren_hash db setHash n t e HR Hwf) as (n' & Hrun & Hch & Hbase).
  - intros c m e' HRm Hm Hc. by eapply IH.
  - exists n'. split; [|done]. unfold setChildrenHashes. by rewrite Hrun.
Qed.
Lemma setHashConcurrent_spec db t n e : Rep db n t → wf e t → hashesTo db setHashConcurrent n t.
Proof.
  intros HR Hwf. destruct n as [bn chs b|en ch b|ln b]; [|by eapply setHash_spec..].
  unfold hashesTo, setHashConcurrent. eapply setHashBody_spec; [done..|]. intros _ _.
  destruct (overChildren_hash db setHash (branchNode bn chs b) t e HR Hwf) as (n' & Hrun & Hch & Hbase).
  - intros c m e' HRm Hm Hc. by eapply setHash_spec.
  - exists n'. split; [|done]. unfold setChildrenHashes. by rewrite Hrun.
Qed.

Lemma hashConcurrently_eq chs chs' :
  eachChild (withoutState setHashConcurrent) chs tt = (Ret tt, (chs', tt)) →
  hashConcurrently chs = (Ret tt, chs').
Proof.
  revert chs'. induction chs as [|[c|] chs IH]; intros chs'; cbn [eachChild hashConcurrently].
  - by intros [= <-].
  - unfold withoutState at 1. destruct (setHashConcurrent c) as [[[]|err|] c']; [|done..].
    destruct (eachChild _ chs tt) as [r [chs1 []]]. intros [= -> <-]. by rewrite (IH chs1 eq_refl).
  - destruct (eachChild _ chs tt) as [r [chs1 []]]. intros [= -> <-]. by rewrite (IH chs1 eq_refl).
Qed.
(** at the root the loop is the same *)
Lemma setRootHash_eq db t bn chs b chs' e :
  let n := branchNode bn chs b in
  Rep db n t → wf e t → eachChild (withoutState setHashConcurrent) chs tt = (Ret tt, (chs', tt)) →
  setRootHash n = setHashBody "setRootHash error " (Ret tt, branchNode bn chs' b) n.
Proof.
  intros n HR Hwf Hrun. unfold setRootHash, setHashBody, n.
  rewrite !(bind_checkNode db _ t e _ _ HR Hwf) !bind_gets. cbn [id].
  destruct (getHash _); [done|]. destruct (isCollapsed _); [done|].
  apply hashConcurrently_eq in Hrun. rewrite /bind (checkNode_spec db n t e _ HR Hwf) /n Hrun. done.
Qed.
Lemma setRootHash_spec db t n e : Rep db n t → wf e t → hashesTo db setRootHash n t.
Proof.
  intros HR Hwf. destruct n as [bn chs b|en ch b|ln b]; [|by eapply setHash_spec..].
  destruct (overChildren_hash db setHashConcurrent _ t e HR Hwf) as (n' & Hrun & Hch & Hbase).
  { intros c m e' HRm Hm Hc. by eapply setHashConcurrent_spec. }
  cbn [overChildren] in Hrun. destruct (eachChild _ chs tt) as [r [chs' []]] eqn:Hrun'.
  injection Hrun as -> <-. unfold hashesTo. rewrite (setRootHash_eq db t bn chs b chs' e HR Hwf Hrun').
  eapply setHashBody_spec; [done..|]. intros _ _. by eexists.
Qed.
End hash.

Section commit.
Context {TE : TrieEnvironment} {TL : TrieLaws} {CF : CollisionFree}.

(** ** The storage grows *)
Definition grows (db db' : Storage) : Prop := ∀ t,
  Get (phash t) db = inr (penc t) → Get (phash t) db' = inr (penc t).
#[local] Instance grows_pre : PreOrder grows.
Proof. split; [by intros db t|]. intros db1 db2 db3 H1 H2 t Ht. by apply H2, H1. Qed.

Lemma penc_inj t t' : phash t = phash t' → penc t = penc t'.
Proof. rewrite !phash_penc. apply Compute_inj. Qed.
Lemma Put_grows t db db' : Put (phash t) (penc t) db = inr db' → grows db db'.
Proof.
  intros Hput t' Ht'. destruct (decide (phash t = phash t')) as [E|Hne].
  - rewrite -E. rewrite (penc_inj t' t) //. by eapply Get_Put.
  - by rewrite (Get_Put_ne _ _ _ _ _ Hne Hput).
Qed.
Lemma stored_grows db db' t : grows db db' → stored db t → stored db' t.
Proof.
  intros Hg. induction 1 as [k v ver H|p c H Hc IH|cs H Hcs IH]; constructor; auto; by apply Hg.
Qed.
Lemma baseOk_grows db db' b t : grows db db' → baseOk db b t → baseOk db' b t.
Proof.
  intros Hg [Hh Hc]. split; [done|]. intros Hd. destruct (Hc Hd). split; [done|]. by eapply stored_grows.
Qed.
Lemma slot_grows (R R' : node → ptrie → Prop) db db' (h : Prop) e ch o :
  grows db db' → (∀ n c, o = Some c → R n c → R' n c) → slot R db h e ch o → slot R' db' h e ch o.
Proof.
  intros Hg HR Hs. destruct Hs as [|c Hc|e n c Hn Hl]; constructor; auto. by eapply stored_grows.
Qed.
Lemma Rep_grows db db' t : ∀ n, grows db db' → Rep db n t → Rep db' n t.
Proof.
  induction t as [t IH] using below_induction; intros n Hg HR.
  destruct HR as [k v ver b Hb|p en ch c b Hb Hs|encs chs cs b Hb Hs];
    constructor; try by eapply baseOk_grows.
  - eapply slot_grows; [done| |done]. intros m d [= <-]. by apply IH.
  - destruct Hs as [He Hc Hcs Hat]. split; [done..|]. intros i e ch Hi Hci.
    eapply slot_grows; [done| |by apply Hat]. intros m d Hd. apply IH; [|done].
    simpl. apply list_elem_of_lookup. exists i. by apply pchild_Some.
Qed.

(** ** Collapsing *)
Lemma ensureHash_hashed db n t e :
  Rep db n t → wf e t → is_Some (getHash n) → ensureHash n = (Ret tt, n) ∧ hashBytes n = phash t.
Proof.
  intros HR Hwf [h Hh]. unfold ensureHash, hasValidHash. rewrite (isEmpty_spec db n t e HR Hwf) Hh. cbn [bindO].
  unfold hashBytes. rewrite Hh. split; [|simpl; by eapply base_hash; [by apply base_of_Rep|]].
  destruct (negb (isDirty n)); [done|]. rewrite setHash_eq. unfold setHashBody.
  by rewrite (bind_checkNode db n t e _ _ HR Hwf) bind_gets /= Hh.
Qed.
Lemma collapseChildren_spec db encs chs cs :
  (∀ c, Some c ∈ cs → ∃ e, wf e c) → Forall3 (slot (Rep db) db True) encs chs cs →
  collapseChildren chs encs = (Ret tt, (chs, encs)).
Proof.
  intros Hwf HF. induction HF as [|e ch o encs chs cs Hs HF IH]; [done|].
  assert (∀ c, Some c ∈ cs → ∃ e, wf e c) as Hwf' by (intros c ?; apply Hwf; by right).
  destruct Hs as [|c _|e n c HR Hl]; cbn [collapseChildren tail take app].
  - by rewrite (IH Hwf').
  - by rewrite (IH Hwf').
  - destruct (Hwf c) as [e' Hc]; [left|]. destruct (Hl I) as [-> Hh].
    destruct (ensureHash_hashed db n c e' HR Hc Hh) as [-> ->]. by rewrite (IH Hwf').
Qed.

(** a node without the children in memory *)
Definition shrink (n : node) : node :=
  match n with
  | branchNode bn _ b => branchNode bn (replicate nrOfChildren None) b
  | extensionNode en _ b => extensionNode en None b
  | leafNode _ _ => n
  end.
Lemma getCollapsed_spec db n t e b :
  Rep db (withBase n b) t → wf e t → is_Some (hash b) → getCollapsed n = (Ret (shrink n), n).
Proof.
  intros HR Hwf Hh.
  assert (isEmptyOrNil n = Ret tt) as Hne.
  { pose proof (isEmpty_spec db _ t e HR Hwf). by destruct n. }
  destruct n as [bn chs b0|en ch b0|ln b0]; [| |done]; cbn [withBase] in HR; unfold getCollapsed, checkNode.
  - rewrite {1}/bind Hne. cbn [wrapO]. inversion HR as [| |encs ? cs ? _ Hs]; subst.
    assert (e = false) as -> by by inversion Hwf. cbn [shrink].
    pose proof (slots_chs _ _ _ _ _ _ Hs) as Hlen. destruct (isCollapsed _) eqn:Hcol.
    + assert (chs = replicate nrOfChildren None) as Hall.
      { unfold nrOfChildren. rewrite -Hlen. cbn [isCollapsed] in Hcol. rewrite forallb_forall in Hcol. clear -Hcol.
        induction chs as [|ch chs IH]; [done|]. simpl. f_equal.
        - apply (bool_decide_eq_true_1 _ (Hcol ch (or_introl eq_refl))).
        - apply IH. intros x Hx. apply Hcol. by right. }
      by rewrite -Hall.
    + apply (slots_hashed _ _ _ True) in Hs; [|done]. apply slots_Forall3 in Hs as [_ HF].
      cbn [EncodedChildren ChildrenVersion].
      rewrite (collapseChildren_spec db _ _ cs); [|by intros; eapply wf_children|done].
      by rewrite Hlen.
  - rewrite {1}/bind Hne. cbn [wrapO]. inversion HR as [|p enc ? c ? _ Hs|]; subst. cbn [shrink].
    inversion Hwf as [|? ? _ _ _ Hc|]; subst.
    destruct ch as [cn|].
    + inversion Hs as [| |? ? ? HRc Hl]; subst. destruct (Hl Hh) as [-> Hch].
      cbn [isCollapsed]. by destruct (ensureHash_hashed db cn c false HRc Hc Hch) as [-> ->].
    + inversion Hs; subst. cbn [isCollapsed EncodedChild]. pose proof (phash_nonempty c).
      by destruct (phash c).
Qed.

(** ** commitDirty *)
Record committed (db : Storage) (n : node) (t : ptrie) (res : outcome error unit * (node * Storage)) : Prop := {
  com_ok : res.1 = Ret tt;
  com_grows : grows db res.2.2;
  com_Rep : Rep res.2.2 res.2.1 t;
  com_stored : stored res.2.2 t;
  com_hash : is_Some (getHash res.2.1);
  com_clean : isDirty res.2.1 = false;
}.
(** after the children have been committed *)
Lemma eachChild_commit f encs chs cs db :
  (∀ c n e db, Some c ∈ cs → Rep db n c → wf e c → is_Some (getHash n) → committed db n c (f n db)) →
  (∀ c, Some c ∈ cs → ∃ e, wf e c) →
  Forall3 (slot (Rep db) db True) encs chs cs →
  ∃ chs' db', eachChild f chs db = (Ret tt, (chs', db')) ∧ grows db db' ∧
    Forall3 (slot (λ n c, Rep db' n c ∧ stored db' c) db' True) encs chs' cs.
Proof.
  intros Hf Hwf HF.
  eapply (eachChild_spec f grows (λ d, slot (Rep d) d True)
    (λ d, slot (λ n c, Rep d n c ∧ stored d c) d True) encs chs cs db); [apply _|..|done].
  - intros d d' e ch o Hg Hs. eapply slot_grows; [done| |done]. intros n c _. by apply Rep_grows.
  - intros d d' e ch o Hg Hs. eapply slot_grows; [done| |done]. intros n c _ [??].
    split; [by eapply Rep_grows|by eapply stored_grows].
  - intros d e o Hs. inversion Hs; subst; by constructor.
  - intros d e n o Ho Hs. inversion Hs as [| |? ? c HR Hl]; subst. destruct (Hwf c Ho) as [e' Hc].
    destruct (Hl I) as [-> Hh]. pose proof (Hf c n e' d Ho HR Hc Hh) as Hcom.
    destruct (f n d) as [r [n' d']]. destruct Hcom as [Hok Hg HRn Hst Hhn _]; simpl in *; subst.
    exists n', d'. split; [done|]. split; [done|]. by constructor.
Qed.
Lemma slot_drop d h e ch o : slot (λ n c, Rep d n c ∧ stored d c) d h e ch o → slot (Rep d) d h e ch o.
Proof. intros []; constructor; try done; tauto. Qed.
Lemma slot_stored_child d h e ch c : slot (λ n c, Rep d n c ∧ stored d c) d h e ch (Some c) → stored d c.
Proof. inversion 1; subst; [done|tauto]. Qed.
Lemma overChildren_commit f n t e db :
  Rep db n t → wf e t → is_Some (getHash n) →
  (∀ c m e db, Rep db m c → wf e c → is_Some (getHash m) → below t c → committed db m c (f m db)) →
  ∃ n' db', overChildren f n db = (Ret tt, (n', db')) ∧ grows db db' ∧ Rep db' n' t ∧
    baseOf n' = baseOf n ∧ ∀ c, below t c → stored db' c.
Proof.
  intros HR Hwf Hh Hf. destruct HR as [k v ver b Hb|p en ch c b Hb Hs|encs chs cs b Hb Hs]; cbn [overChildren].
  - exists (leafNode (mkLn k (Some v) ver) b), db. split; [done|]. split; [done|]. split; [by constructor|done].
  - inversion Hwf as [|? ? _ _ _ Hc|]; subst. inversion Hs as [|? Hst|? cn ? HR Hl]; subst.
    + eexists _, db. split; [done|]. split; [done|]. split; [by constructor|]. split; [done|]. by intros d ->.
    + destruct (Hl Hh) as [-> Hch]. pose proof (Hf c cn false db HR Hc Hch eq_refl) as Hcom.
      destruct (f cn db) as [r [cn' db']]. destruct Hcom as [Hok Hg HRn Hst Hhn _]; simpl in *; subst.
      eexists _, db'. split; [done|]. split; [done|]. split; [|split; [done|by intros d ->]].
      constructor; [by eapply baseOk_grows|]. by constructor.
  - assert (e = false) as -> by by inversion Hwf.
    apply (slots_hashed _ _ _ True) in Hs; [|done]. apply slots_Forall3 in Hs as [Hlen HF].
    destruct (eachChild_commit f encs chs cs db) as (chs' & db' & -> & Hg & HF');
      [by intros; eapply Hf|by intros; eapply wf_children|done|].
    eexists _, db'. split; [done|]. split; [done|]. split; [|split; [done|]].
    + constructor; [by eapply baseOk_grows|]. apply (slots_hashed _ _ True); [done|]. apply slots_Forall3.
      split; [done|]. eapply Forall3_impl; [done|]. intros ???. apply slot_drop.
    + intros c [i Hi]%list_elem_of_lookup.
      destruct (Forall3_lookup_r _ _ _ _ _ _ HF' Hi) as (? & ? & _ & _ & Hs). by eapply slot_stored_child.
Qed.

Lemma stored_intro db t :
  Get (phash t) db = inr (penc t) → (∀ c, below t c → stored db c) → stored db t.
Proof.
  intros Hg Hc. destruct t as [k v ver|p c|cs]; constructor; try done.
  - by apply Hc.
  - intros i c Hi. apply Hc. simpl. apply list_elem_of_lookup. exists i. by apply pchild_Some.
Qed.
Lemma Rep_shrink db n t :
  Rep db n t → is_Some (getHash n) → (∀ c, below t c → stored db c) → Rep db (shrink n) t.
Proof.
  intros HR Hh Hst. destruct HR as [k v ver b Hb|p en ch c b Hb Hs|encs chs cs b Hb Hs]; constructor; try done.
  - rewrite (slot_enc_hashed _ _ _ _ _ _ Hs Hh). constructor. by apply Hst.
  - rewrite (slots_encs_hashed _ _ _ _ _ _ Hs Hh). apply slots_Forall3.
    pose proof (slots_cs _ _ _ _ _ _ Hs) as Hlen. split; [done|].
    apply Forall3_lookup_2; [by rewrite length_fmap|by rewrite Hlen|].
    intros i e ch o He Hch Ho. apply lookup_replicate in Hch as [-> _].
    rewrite list_lookup_fmap Ho in He. injection He as <-.
    destruct o as [c|]; constructor. apply Hst. simpl. apply list_elem_of_lookup. by exists i.
Qed.

Lemma encodeAndPut_spec db n t e b :
  Rep db (withBase n b) t → wf e t → hash b = getHash n → is_Some (getHash n) →
  (∀ c, below t c → stored db c) →
  ∃ z db', encodeNodeAndCommitToDB (n, db) = (Ret z, (n, db')) ∧ grows db db' ∧ stored db' t.
Proof.
  intros HR Hwf Hb Hh Hst.
  assert (getHash n = Some (phash t)) as Hht.
  { destruct Hh as [h Hh]. rewrite Hh. f_equal. apply (base_hash db b t); [|congruence].
    pose proof (base_of_Rep _ _ _ HR) as Hok. by destruct n. }
  destruct (Put_total (phash t) (penc t) db) as [db' Hput].
  exists (Z.of_nat (length (penc t))), db'. split; [|split].
  - unfold encodeNodeAndCommitToDB, onNode.
    assert (computeAndSetNodeHash n = (Ret (phash t), n)) as Hkey.
    { unfold computeAndSetNodeHash. rewrite bind_gets. cbn [id]. rewrite Hht.
      pose proof (phash_nonempty t). by destruct (phash t). }
    assert (collapseAndEncodeNode n = (Ret (penc t), n)) as Henc.
    { unfold collapseAndEncodeNode.
      rewrite (bind_Ret _ _ _ _ _ (getCollapsed_spec db n t e b HR Hwf ltac:(by rewrite Hb))).
      unfold liftO. rewrite -(getEncodedNode_spec db (shrink (withBase n b)) t e); [by destruct n| |done|].
      - apply Rep_shrink; [done| |done]. destruct n; unfold getHash in *; simpl in *; by rewrite Hb.
      - destruct n; unfold getHash in *; simpl in *; by rewrite Hb. }
    unfold bind at 1. rewrite Hkey. unfold bind at 1. rewrite Henc.
    rewrite bind_gets bind_fromSum Hput bind_modify. done.
  - by eapply Put_grows.
  - apply stored_intro; [by eapply Get_Put|]. intros c Hc. eapply stored_grows; [by eapply Put_grows|by apply Hst].
Qed.

Lemma setDirty_Rep db n t :
  Rep db n t → is_Some (getHash n) → stored db t → Rep db (setDirty false n) t.
Proof.
  intros HR Hh Hst.
  assert (baseOk db (mkBase (getHash n) false) t) as Hb.
  { split; [|by split]. intros h Hht. by eapply base_hash; [by apply base_of_Rep|]. }
  destruct HR as [k v ver b _|p en ch c b _ Hs|encs chs cs b _ Hs]; by constructor.
Qed.

Lemma commitBody_spec db n t e level ml children :
  Rep db n t → wf e t → is_Some (getHash n) →
  (isDirty n = true → ∃ n1 db1, children db = (Ret tt, (n1, db1)) ∧ grows db db1 ∧ Rep db1 n1 t ∧
    baseOf n1 = baseOf n ∧ ∀ c, below t c → stored db1 c) →
  committed db n t (commitBody level ml children (n, db)).
Proof.
  intros HR Hwf Hh Hch. unfold commitBody, onNode. rewrite {1}/bind.
  rewrite (checkNode_spec db n t e _ HR Hwf) bind_gets. cbn [fst].
  destruct (isDirty n) eqn:Hd; cbn [negb].
  2:{ pose proof (base_clean _ _ _ (base_of_Rep _ _ _ HR) Hd) as [_ Hst]. by split. }
  destruct (Hch eq_refl) as (n1 & db1 & Hrun & Hg & HR1 & Hbase & Hst).
  assert (is_Some (getHash n1)) as Hh1 by (unfold getHash; by rewrite Hbase).
  rewrite {1}/bind Hrun bind_modify. set (n2 := setDirty false n1).
  assert (withBase n2 (baseOf n1) = n1) as Hn1 by by destruct n1.
  destruct (encodeAndPut_spec db1 n2 t e (baseOf n1)) as (z & db2 & Hput & Hg2 & Hst2);
    [by rewrite Hn1|done|by destruct n1|by destruct n1|done|].
  rewrite (bind_Ret _ _ _ _ _ Hput).
  assert (Rep db2 n2 t) as HR2 by (apply setDirty_Rep; [by eapply Rep_grows|done|done]).
  assert (is_Some (getHash n2)) as Hh2 by by destruct n1.
  assert (∀ n', Rep db2 n' t → baseOf n' = baseOf n2 → committed db n t (Ret tt, (n', db2))) as Hdone.
  { intros n' HRn' Hb'. split; simpl; try done; [by etrans| |]; unfold getHash, isDirty in *; rewrite Hb'; try done.
    by destruct n1. }
  assert (committed db n t
    ((if (level =? ml)%Z then
        let! collapsed := onNode getCollapsed in modify (λ '(_, db), (collapsed, db))
      else ret tt) (n2, db2))) as Hshrink.
  { destruct (level =? ml)%Z; [|by apply Hdone]. unfold bind, onNode.
    rewrite (getCollapsed_spec db2 n2 t e (baseOf n2)); [|by destruct n2|done|by destruct n2].
    apply Hdone; [|by destruct n2]. apply Rep_shrink; [done..|].
    intros c Hc. eapply stored_grows; [done|by apply Hst]. }
  destruct n; [exact Hshrink|exact Hshrink|by apply Hdone].
Qed.

Lemma commitDirty_eq ml n level db :
  commitDirty ml n level db =
    commitBody (u8 (level + 1)) ml
      (λ db, overChildren (λ c db, commitDirty ml c (u8 (level + 1)) db) n db) (n, db).
Proof. by destruct n. Qed.
Lemma commitDirty_spec ml t : ∀ n e level db,
  Rep db n t → wf e t → is_Some (getHash n) → committed db n t (commitDirty ml n level db).
Proof.
  induction t as [t IH] using below_induction; intros n e level db HR Hwf Hh.
  rewrite commitDirty_eq. eapply commitBody_spec; [done..|]. intros _.
  eapply overChildren_commit; [done..|]. intros c m e' db' HRm Hc Hhm Hbelow. by eapply IH.
Qed.
End commit.
