(* ===== verification/TrieMap.v ===== *)
(** * TrieMap: a trie is a map from keys to values and versions

    [TrieIs (tr, db) m]: the trie [tr] over the storage [db] holds the map [m].
    The operations keep it, and the root hash is that of the canonical trie. *)
From S2P Require Import Prelude TrieNode TrieOps Trie TriePure TrieSpec TrieRefine TrieDelete TrieCommit.
#[local] Open Scope go_scope.

(** ** Hex keys *)
Lemma nibbles_back b :
  toByte (Z.lor (u8 (Z.shiftl (byteZ (toByte (Z.shiftr (byteZ b) 4))) 4))
                (byteZ (toByte (Z.land (byteZ b) 15)))) = b.
Proof. by destruct b. Qed.
Lemma pairNibbles_spec l : pairNibbles (concat (nibblesOf <$> l)) = rev l.
Proof.
  induction l as [|b l IH]; [done|]. cbn [fmap list_fmap concat nibblesOf app pairNibbles rev].
  by rewrite IH nibbles_back.
Qed.
Lemma length_nibbles l : length (concat (nibblesOf <$> l)) = length l * 2.
Proof. induction l as [|b l IH]; [done|]. cbn [fmap list_fmap concat nibblesOf app length]. rewrite IH. lia. Qed.
Lemma hex_roundtrip k : hexToTrieKeyBytes (keyBytesToHex k) = Ret k.
Proof.
  unfold keyBytesToHex, hexToTrieKeyBytes. set (l := concat (nibblesOf <$> rev k)).
  assert (take (length (l ++ [hexTerminator]) - 1) (l ++ [hexTerminator]) = l) as ->.
  { rewrite length_app /= Nat.add_sub. apply take_app_length. }
  assert (length l mod 2 = 0) as ->. { unfold l. rewrite length_nibbles. apply Nat.Div0.mod_mul. }
  unfold l. rewrite Nat.eqb_refl pairNibbles_spec rev_involutive. by destruct (concat _).
Qed.
#[global] Instance keyBytesToHex_inj : Inj (=) (=) keyBytesToHex.
Proof. intros k k' E. pose proof (hex_roundtrip k) as H. rewrite E hex_roundtrip in H. congruence. Qed.
Lemma nibble_low b : nibble (toByte (Z.land (byteZ b) 15)) ∧ nibble (toByte (Z.shiftr (byteZ b) 4)).
Proof. unfold nibble, index. split; destruct b; vm_compute; lia. Qed.
Lemma hex_path l : path (concat (nibblesOf <$> l)).
Proof.
  induction l as [|b l IH]; [apply Forall_nil_2|]. destruct (nibble_low b).
  by repeat apply Forall_cons_2.
Qed.
Lemma hex_keyFor k : keyFor false (keyBytesToHex k).
Proof. unfold keyBytesToHex. apply keyFor_path; [apply hex_path|]. apply keyFor_cons. split; [vm_compute; lia|done]. Qed.
Lemma hex_length k : length (keyBytesToHex k) = 2 * length k + 1.
Proof. unfold keyBytesToHex. rewrite length_app length_nibbles length_rev /=. lia. Qed.

Section trieMap.
Context {TE : TrieEnvironment}.

Abbreviation contents := (gmap bytes (bytes * Z)).
(** the keys of [t] are the hex keys of [m] *)
Definition holds (t : ptrie) (m : contents) : Prop := ∀ hk, keyFor false hk →
  (∀ k, hk = keyBytesToHex k → pget t hk = m !! k) ∧ (is_Some (pget t hk) → ∃ k, hk = keyBytesToHex k).
Definition rootIs (db : Storage) (r : option node) (m : contents) : Prop :=
  match r with
  | None => m = ∅
  | Some n => ∃ t, Rep db n t ∧ wf false t ∧ holds t m
  end.
Definition TrieIs (st : patriciaMerkleTrie * Storage) (m : contents) : Prop :=
  rootIs st.2 (root st.1) m ∧ maxTrieLevelInMemory st.1 ≠ 0%Z.
(** the hash of a map: that of its canonical trie *)
Definition rootHashOf (m : contents) (h : bytes) : Prop :=
  (m = ∅ ∧ h = EmptyTrieHash) ∨ ∃ t, wf false t ∧ holds t m ∧ h = phash t.

Lemma holds_get t m k : holds t m → pget t (keyBytesToHex k) = m !! k.
Proof. intros H. by apply (H _ (hex_keyFor k)). Qed.
Lemma holds_iff t m :
  (∀ k, pget t (keyBytesToHex k) = m !! k) →
  (∀ hk, keyFor false hk → is_Some (pget t hk) → ∃ k, hk = keyBytesToHex k) → holds t m.
Proof. intros H1 H2 hk Hhk. split; [by intros k ->|by apply H2]. Qed.
Lemma holds_sameContent t1 t2 m : holds t1 m → holds t2 m → sameContent false t1 t2.
Proof.
  intros H1 H2 hk Hhk. destruct (H1 hk Hhk) as [Hg1 Hk1], (H2 hk Hhk) as [Hg2 Hk2].
  destruct (pget t1 hk) as [v|] eqn:E1.
  - destruct Hk1 as [k ->]; [done|]. by rewrite (Hg1 k) // (Hg2 k).
  - destruct (pget t2 hk) as [v|] eqn:E2; [|done]. destruct Hk2 as [k ->]; [done|].
    by rewrite (Hg1 k) // -(Hg2 k).
Qed.
Lemma holds_inj t m1 m2 : holds t m1 → holds t m2 → m1 = m2.
Proof. intros H1 H2. apply map_eq. intros k. by rewrite -(holds_get t m1) // -(holds_get t m2). Qed.
Lemma holds_nonempty t m : wf false t → holds t m → m ≠ ∅.
Proof.
  intros Hwf H ->. destruct (wf_key _ _ Hwf) as (hk & Hhk & Hg). destruct (H hk Hhk) as [Hget Hex].
  destruct (Hex Hg) as [k ->]. rewrite (Hget k) // lookup_empty in Hg. by destruct Hg.
Qed.
Lemma rootHashOf_fun m h1 h2 : rootHashOf m h1 → rootHashOf m h2 → h1 = h2.
Proof.
  intros [[-> ->]|(t1 & Hw1 & H1 & ->)] [[? ->]|(t2 & Hw2 & H2 & ->)]; try done.
  - by destruct (holds_nonempty _ _ Hw2 H2).
  - subst. by destruct (holds_nonempty _ _ Hw1 H1).
  - f_equal. eapply trie_ext; [done..|]. by eapply holds_sameContent.
Qed.

(** ** Changing the contents *)
Lemma holds_inserted t m k v ver t' :
  holds t m → inserted false t (keyBytesToHex k) v ver (Some t') → holds t' (<[k := (v, ver)]> m).
Proof.
  intros H (_ & _ & Hget). apply holds_iff.
  - intros k'. rewrite Hget; [|apply hex_keyFor]. case_bool_decide as E.
    + apply keyBytesToHex_inj in E as ->. by rewrite lookup_insert_eq.
    + rewrite lookup_insert_ne; [|congruence]. by apply holds_get.
  - intros hk Hhk. rewrite Hget //. case_bool_decide as E; [by eauto|]. by apply (H hk Hhk).
Qed.
Lemma holds_leaf k v ver : holds (PLeaf (keyBytesToHex k) v ver) {[ k := (v, ver) ]}.
Proof.
  apply holds_iff.
  - intros k'. simpl. case_bool_decide as E.
    + apply keyBytesToHex_inj in E as ->. by rewrite lookup_singleton_eq.
    + rewrite lookup_singleton_ne; [done|congruence].
  - intros hk _. simpl. case_bool_decide as E; [by eauto|by intros []].
Qed.
Lemma holds_deleted t m k o :
  holds t m → deleted false t (keyBytesToHex k) (Some o) →
  match o with Some t' => holds t' (delete k m) | None => delete k m = ∅ end.
Proof.
  intros H (_ & _ & Hget).
  assert (∀ k', getO o (keyBytesToHex k') = delete k m !! k') as Hg.
  { intros k'. rewrite Hget; [|apply hex_keyFor]. case_bool_decide as E.
    - apply keyBytesToHex_inj in E as ->. by rewrite lookup_delete_eq.
    - rewrite lookup_delete_ne; [|congruence]. by apply holds_get. }
  destruct o as [t'|].
  - apply holds_iff; [done|]. intros hk Hhk. specialize (Hget hk Hhk). cbn [getO] in Hget. rewrite Hget.
    case_bool_decide; [by intros []|]. by apply (H hk Hhk).
  - apply map_eq. intros k'. by rewrite -Hg lookup_empty.
Qed.

(** a value that is the old one changes nothing, its version included *)
Definition updated (m : contents) (k v : bytes) (ver : Z) : contents :=
  if (length v =? 0)%nat then delete k m
  else
    match m !! k with
    | Some (v', _) => if bool_decide (v' = v) then m else <[k := (v, ver)]> m
    | None => <[k := (v, ver)]> m
    end.

Section laws.
Context {TL : TrieLaws}.

(** ** The operations *)
Lemma onRoot_run {X A} (m : Storage → M node X A) (tr : patriciaMerkleTrie) db n r n' :
  root tr = Some n → m db n = (r, n') → onRoot m (tr, db) = (r, (withRoot (Some n') tr, db)).
Proof. intros Hr Hm. unfold onRoot. by rewrite Hr Hm. Qed.
Lemma rememberRoot_run tr db :
  ∃ tr', rememberRoot (tr, db) = (Ret tt, (tr', db)) ∧ root tr' = root tr ∧
    maxTrieLevelInMemory tr' = maxTrieLevelInMemory tr.
Proof.
  unfold rememberRoot, modify. destruct (root tr) as [n|] eqn:Hr; [destruct (isDirty n)|];
    by eexists.
Qed.
Lemma fuel_enough k : length (keyBytesToHex k) < fuelFor (keyBytesToHex k).
Proof. unfold fuelFor. lia. Qed.

Lemma trie_Get_spec tr db m k :
  TrieIs (tr, db) m →
  ∃ depth tr', trie_Get k (tr, db) = (Ret (fst <$> m !! k, depth), (tr', db)) ∧ TrieIs (tr', db) m.
Proof.
  intros [Hroot Hmax]. unfold trie_Get. rewrite bind_gets. cbn [fst].
  unfold rootIs in Hroot. cbn [fst snd] in Hroot. destruct (root tr) as [n|] eqn:Hr.
  2:{ subst. exists 0%Z, tr. split; [done|]. split; [|done]. by rewrite /rootIs /= Hr. }
  destruct Hroot as (t & HR & Hwf & Hholds).
  destruct (node_tryGet_spec _ db n t false _ 0%Z HR Hwf (hex_keyFor k) (fuel_enough k))
    as (n' & depth & Hrun & HR' & _).
  rewrite (holds_get _ _ _ Hholds) in Hrun. exists depth, (withRoot (Some n') tr). split.
  - unfold catch. by rewrite (onRoot_run _ _ _ _ _ _ Hr Hrun).
  - split; [|done]. by exists t.
Qed.

Lemma trie_delete_spec tr db m k :
  TrieIs (tr, db) m →
  ∃ tr', trie_delete (keyBytesToHex k) (tr, db) = (Ret tt, (tr', db)) ∧ TrieIs (tr', db) (delete k m).
Proof.
  intros [Hroot Hmax]. unfold trie_delete. rewrite bind_gets. cbn [fst].
  unfold rootIs in Hroot. cbn [fst snd] in Hroot. destruct (root tr) as [n|] eqn:Hr.
  2:{ subst. exists tr. split; [done|]. split; [|done]. by rewrite /rootIs /= Hr delete_empty. }
  destruct Hroot as (t & HR & Hwf & Hholds).
  destruct (rememberRoot_run tr db) as (tr1 & Hrem & Hr1 & Hmax1). rewrite (bind_Ret _ _ _ _ _ Hrem).
  rewrite Hr in Hr1.
  pose proof (node_delete_spec db _ n t false _ HR Hwf (hex_keyFor k) (fuel_enough k)) as Hdel.
  pose proof (pdelete_spec t false _ Hwf (hex_keyFor k)) as Hspec.
  destruct (pdelete t (keyBytesToHex k)) as [o|]; cbn [deleteResult] in Hdel.
  - destruct Hdel as (r & hs & n' & Hrun & HRr). erewrite bind_Ret; [|by eapply onRoot_run].
    eexists. split; [done|]. split; [|simpl in *; congruence]. pose proof (holds_deleted _ _ _ _ Hholds Hspec) as Hh.
    unfold rootIs. cbn [root fst snd withOld withRoot]. destruct r as [r|], o as [t'|]; try done.
    destruct HRr as [HRr _]. destruct Hspec as (_ & Hwf' & _). exists t'. split_and!; auto.
  - destruct Hdel as (n' & Hrun & HR' & _). erewrite bind_Ret; [|by eapply onRoot_run].
    eexists. split; [done|]. split; [|simpl in *; congruence]. cbn [deleted] in Hspec.
    rewrite (holds_get _ _ _ Hholds) in Hspec. exists t. split; [done|]. split; [done|].
    by rewrite delete_id.
Qed.

Lemma trie_update_spec tr db m k v ver :
  TrieIs (tr, db) m → (0 ≤ ver < 256)%Z →
  ∃ tr', trie_update k v ver (tr, db) = (Ret tt, (tr', db)) ∧ TrieIs (tr', db) (updated m k v ver).
Proof.
  intros His Hver. unfold trie_update, updated.
  destruct (Nat.eqb_spec (length v) 0) as [|Hv]; cbn [negb]; [by apply trie_delete_spec|].
  assert (v ≠ []) as Hv' by by intros ->.
  destruct His as [Hroot Hmax]. rewrite bind_gets. cbn [fst].
  unfold rootIs in Hroot. cbn [fst snd] in Hroot. destruct (root tr) as [n|] eqn:Hr.
  2:{ subst. rewrite lookup_empty. eexists. split; [done|]. split; [|done].
      exists (PLeaf (keyBytesToHex k) v ver). split; [by apply newLeaf_Rep|].
      split; [apply wf_leaf; [apply hex_keyFor|done..]|]. rewrite insert_empty. apply holds_leaf. }
  destruct Hroot as (t & HR & Hwf & Hholds).
  destruct (rememberRoot_run tr db) as (tr1 & Hrem & Hr1 & Hmax1). rewrite (bind_Ret _ _ _ _ _ Hrem).
  rewrite Hr in Hr1.
  pose proof (node_insert_spec db _ n t false _ v ver HR Hwf (hex_keyFor k) Hv' Hver (fuel_enough k)) as Hins.
  pose proof (pinsert_spec t false _ v ver Hwf (hex_keyFor k) Hv' Hver) as Hspec.
  destruct (pinsert t (keyBytesToHex k) v ver) as [t'|]; cbn [insertResult] in Hins.
  - destruct Hins as (r & hs & n' & Hrun & HRr). erewrite bind_Ret; [|by eapply onRoot_run].
    eexists. split; [done|]. split; [|simpl in *; congruence]. exists t'. split; [done|].
    pose proof (holds_inserted _ _ _ _ _ _ Hholds Hspec) as Hh. destruct Hspec as (Hno & Hwf' & _).
    split; [done|]. rewrite (holds_get _ _ _ Hholds) in Hno.
    destruct (m !! k) as [[v0 ver0]|]; [|done]. case_bool_decide; [|done]. subst. by destruct (Hno ver0).
  - destruct Hins as (n' & Hrun & HR' & _). erewrite bind_Ret; [|by eapply onRoot_run].
    eexists. split; [done|]. split; [|simpl in *; congruence]. exists t. split; [done|]. split; [done|].
    destruct Hspec as [ver' Hg]. rewrite (holds_get _ _ _ Hholds) in Hg. rewrite Hg.
    by rewrite bool_decide_true.
Qed.

Lemma RootHash_spec tr db m :
  TrieIs (tr, db) m →
  ∃ h tr', RootHash (tr, db) = (Ret h, (tr', db)) ∧ TrieIs (tr', db) m ∧ rootHashOf m h.
Proof.
  intros [Hroot Hmax]. unfold RootHash, getRootHash. rewrite bind_gets. cbn [fst].
  unfold rootIs in Hroot. cbn [fst snd] in Hroot. destruct (root tr) as [n|] eqn:Hr.
  2:{ exists EmptyTrieHash, tr. split; [done|]. split; [|by left]. split; [|done]. by rewrite /rootIs /= Hr. }
  destruct Hroot as (t & HR & Hwf & Hholds). destruct (getHash n) as [h|] eqn:Hh.
  - exists h, tr. split; [done|]. split.
    + split; [|done]. rewrite /rootIs /= Hr. by exists t.
    + right. exists t. split_and!; try done. by eapply base_hash; [by apply base_of_Rep|].
  - destruct (setRootHash_spec db t n false HR Hwf) as (n' & Hrun & HR' & Hh' & _).
    exists (phash t), (withRoot (Some n') tr). split.
    + eapply onRoot_run; [done|]. rewrite (bind_Ret _ _ _ _ _ Hrun) bind_gets. cbn [id].
      unfold hashBytes. by rewrite Hh'.
    + split; [|right; by exists t]. split; [|done]. by exists t.
Qed.

(** ** Committing and recreating *)
Definition committedRoot (r : option node) : Prop :=
  match r with Some n => isDirty n = false | None => True end.

Lemma Commit_spec {CF : CollisionFree} tr db m :
  TrieIs (tr, db) m →
  ∃ tr' db', Commit (tr, db) = (Ret tt, (tr', db')) ∧ TrieIs (tr', db') m ∧
    committedRoot (root tr') ∧ grows db db'.
Proof.
  intros [Hroot Hmax]. unfold Commit. rewrite bind_gets. cbn [fst].
  unfold rootIs in Hroot. cbn [fst snd] in Hroot. destruct (root tr) as [n|] eqn:Hr.
  2:{ exists tr, db. split; [done|]. rewrite /TrieIs /rootIs /= Hr. split_and!; [done..|by intros t]. }
  destruct Hroot as (t & HR & Hwf & Hholds). destruct (isDirty n) eqn:Hd; cbn [negb].
  2:{ exists tr, db. split; [done|]. rewrite /TrieIs /rootIs /= Hr. split_and!; [by exists t|done|done|by intros t0]. }
  destruct (setRootHash_spec db t n false HR Hwf) as (n1 & Hrun & HR1 & Hh & _).
  erewrite bind_Ret; [|by eapply onRoot_run]. rewrite bind_modify. cbn [root withOld withRoot].
  pose proof (commitDirty_spec (maxTrieLevelInMemory tr) t n1 false 0%Z db HR1 Hwf ltac:(by rewrite Hh)) as Hcom.
  cbn [maxTrieLevelInMemory withOld withRoot]. destruct (commitDirty _ n1 0 db) as [r [n2 db2]].
  destruct Hcom as [Hok Hg HR2 Hst _ Hclean]; cbn [fst snd] in *; subst r.
  eexists _, db2. split; [done|]. split; [|done]. split; [|done]. by exists t.
Qed.

(** a clean trie is stored *)
Lemma committed_stored tr db m h :
  TrieIs (tr, db) m → committedRoot (root tr) → rootHashOf m h →
  (m = ∅ ∧ h = EmptyTrieHash) ∨ ∃ t, wf false t ∧ holds t m ∧ stored db t ∧ h = phash t.
Proof.
  intros [Hroot _] Hclean [?|(t & Hwf & Hholds & ->)]; [by left|right].
  unfold rootIs in Hroot. cbn [fst snd] in *. destruct (root tr) as [n|].
  2:{ subst. by destruct (holds_nonempty _ _ Hwf Hholds). }
  destruct Hroot as (t' & HR & Hwf' & Hholds').
  assert (t' = t) as -> by (eapply trie_ext; [done..|by eapply holds_sameContent]).
  pose proof (base_clean _ _ _ (base_of_Rep _ _ _ HR) Hclean) as [_ Hst]. by exists t.
Qed.
(** it can be read back from its storage, or any that grew from it *)
Lemma recreate_spec {CF : CollisionFree} tr tr0 db db' m h :
  TrieIs (tr, db) m → committedRoot (root tr) → rootHashOf m h → grows db db' →
  maxTrieLevelInMemory tr0 ≠ 0%Z →
  ∃ tr', recreate h tr0 db' = Ret tr' ∧ TrieIs (tr', db') m.
Proof.
  intros His Hclean Hh Hg Hmax. unfold recreate, recreateFromDb, NewTrie.
  destruct (Z.eqb_spec (maxTrieLevelInMemory tr0) 0) as [|_]; [done|]. cbn [ofSum bindO].
  destruct (committed_stored tr db m h His Hclean Hh) as [[-> ->]|(t & Hwf & Hholds & Hst & ->)].
  - rewrite /IsEmptyTrie (bool_decide_true (EmptyTrieHash = EmptyTrieHash)) // orb_true_r.
    eexists. split; [done|]. by split.
  - assert (IsEmptyTrie (phash t) = false) as ->.
    { unfold IsEmptyTrie. rewrite bool_decide_false; [|rewrite phash_penc; apply Compute_nonzero].
      pose proof (phash_nonempty t). by destruct (phash t). }
    destruct (load_spec db' false t Hwf) as (n' & -> & HR' & _); [by eapply stored_grows|].
    eexists. split; [done|]. split; [|done]. by exists t.
Qed.

(** ** Equal hashes *)
Lemma marshal_inj {T} `{Marshaller T} ok zero `{!MarshallerLaws T ok zero} (x y : T) :
  ok x → ok y → marshalled x = marshalled y → x = y.
Proof.
  intros Hx Hy E. destruct (marshalled_spec ok zero x x Hx) as [_ Hux].
  destruct (marshalled_spec ok zero y x Hy) as [_ Huy]. rewrite E in Hux. congruence.
Qed.
Lemma phash_inj {CF : CollisionFree} t1 : ∀ t2 e1 e2, wf e1 t1 → wf e2 t2 → phash t1 = phash t2 → t1 = t2.
Proof.
  induction t1 as [t1 IH] using below_induction; intros t2 e1 e2 H1 H2 E.
  apply penc_inj in E. pose proof (pversion_bound e1 t1 H1) as B1. pose proof (pversion_bound e2 t2 H2) as B2.
  destruct t1 as [k1 v1 ver1|p1 c1|cs1], t2 as [k2 v2 ver2|p2 c2|cs2]; cbn [penc] in E;
    unfold encLeaf, encExt, encBranch in E; apply app_inj_2 in E as [E Ety]; try done.
  - inversion H1; inversion H2; subst. apply (marshal_inj (T:=CollapsedLn) _ _) in E; [congruence|simpl; split; [congruence|lia]..].
  - inversion H1; inversion H2; subst. cbn [pversion] in *.
    apply (marshal_inj (T:=CollapsedEn) _ _) in E; [|simpl; lia..]. injection E as -> Ec _. f_equal. by eapply IH.
  - apply (marshal_inj (T:=CollapsedBn) _ _) in E; [|done..]. injection E as Ecs _.
    inversion H1 as [| |? Hl1 _ Hc1]; inversion H2 as [| |? Hl2 _ Hc2]; subst.
    f_equal. apply pchild_ext; [congruence|]. intros i.
    destruct (decide (i < 17)) as [Hi|Hi].
    2:{ unfold pchild. rewrite !lookup_ge_None_2 //; lia. }
    destruct (lookup_lt_is_Some_2 cs1 i) as [o1 Ho1]; [lia|].
    destruct (lookup_lt_is_Some_2 cs2 i) as [o2 Ho2]; [lia|].
    apply (f_equal (lookup i)) in Ecs. rewrite !list_lookup_fmap Ho1 Ho2 in Ecs. injection Ecs as Eh.
    unfold pchild. rewrite Ho1 Ho2. cbn [mjoin option_join].
    destruct o1 as [c1|], o2 as [c2|]; cbn [phashO] in Eh; [| | |done].
    + f_equal. eapply IH; [|by apply (Hc1 i), pchild_Some|by apply (Hc2 i), pchild_Some|done].
      simpl. apply list_elem_of_lookup. by exists i.
    + by destruct (phash_nonempty c1).
    + by destruct (phash_nonempty c2).
Qed.
Lemma rootHashOf_inj {CF : CollisionFree} m1 m2 h : rootHashOf m1 h → rootHashOf m2 h → m1 = m2.
Proof.
  intros [[-> ->]|(t1 & Hw1 & H1 & ->)] [[-> Eh]|(t2 & Hw2 & H2 & Eh)]; [done| | |].
  - rewrite phash_penc in Eh. symmetry in Eh. by apply Compute_nonzero in Eh.
  - rewrite phash_penc in Eh. by apply Compute_nonzero in Eh.
  - apply (phash_inj t1 t2 false false Hw1 Hw2) in Eh as ->. by eapply holds_inj.
Qed.
End laws.
End trieMap.
