(* ===== verification/TrieProofs.v ===== *)
(** * TrieProofs: Merkle proofs

    [GetProof] returns the encodings of the nodes on the way to a key; the
    verifier accepts them for every key that takes the same children of the
    branch nodes, since an extension only drops as many nibbles as it has. *)
From S2P Require Import Prelude TrieNode TrieOps Trie TriePure TrieSpec TrieRefine TrieCommit TrieMap.
#[local] Open Scope go_scope.

Section proofs.
Context {TE : TrieEnvironment} {TL : TrieLaws}.

(** the encodings on the way to a key *)
Fixpoint pproof (t : ptrie) (k : bytes) : list bytes :=
  match t with
  | PLeaf _ _ _ => [penc t]
  | PExt p c => penc t :: pproof c (drop (length p) k)
  | PBranch cs =>
    match k with
    | [] => [penc t]
    | x :: k => penc t :: on_child (λ c, pproof c k) [] cs (index x)
    end
  end.
(** the verifier takes the key [k'] the same way as [k] *)
Fixpoint sameRoute (t : ptrie) (k k' : bytes) : Prop :=
  match t with
  | PLeaf k0 _ _ => k' = k0
  | PExt p c => length p ≤ length k' ∧ sameRoute c (drop (length p) k) (drop (length p) k')
  | PBranch cs =>
    match k, k' with
    | x :: k, x' :: k' => x' = x ∧ on_child (λ c, sameRoute c k k') False cs (index x)
    | _, _ => False
    end
  end.
Lemma sameRoute_refl t k : is_Some (pget t k) → sameRoute t k k.
Proof.
  revert k. induction t as [k0 v ver|p c IH|cs IH] using ptrie_induction; intros k.
  - simpl. case_bool_decide; [done|by intros []].
  - intros (r & -> & Hr)%ext_key. simpl. rewrite drop_app_length length_app. split; [lia|by apply IH].
  - destruct k as [|x k]; [by intros []|]. rewrite get_branch. simpl. rewrite on_child_eq.
    destruct (pchild cs (index x)) as [c|] eqn:Hc; [|by intros []]. intros Hg. split; [done|].
    apply (IH (index x)); [by apply pchild_Some|done].
Qed.

(** ** The verifier *)
Lemma verify_route t : ∀ e k k',
  wf e t → sameRoute t k k' →
  verifyProofLoop (phash t) k' (Some <$> pproof t k) = Ret true.
Proof.
  assert (∀ e t k' rest, wf e t →
    verifyProofLoop (phash t) k' (Some (penc t) :: rest) =
      let? ' (ok, w, k) := getNextHashAndKey (collapsedNode t (mkBase None false)) k' in
      if (ok : bool) then Ret true else verifyProofLoop w k rest) as Hstep.
  { intros e t' k' rest Hwf. cbn [verifyProofLoop]. rewrite bool_decide_true; [|apply phash_penc].
    cbn [negb]. by rewrite (decode_penc e t' Hwf). }
  induction t as [k0 v ver|p c IH|cs IH] using ptrie_induction; intros e k k' Hwf Hroute;
    cbn [pproof sameRoute] in *.
  - rewrite fmap_cons (Hstep e) //. cbn [collapsedNode getNextHashAndKey lnKey bindO].
    by rewrite bool_decide_true.
  - inversion Hwf as [|? ? Hp Hne Hb Hc|]; subst. destruct Hroute as [Hlen Hroute].
    rewrite fmap_cons (Hstep false) //. cbn [collapsedNode getNextHashAndKey enKey EncodedChild].
    assert (length k' ≠ 0) as ->%Nat.eqb_neq by (destruct p; [done|simpl in *; lia]).
    destruct (Nat.ltb_spec (length k') (length p)); [lia|]. cbn [bindO].
    by eapply IH.
  - inversion Hwf as [| |? Hlen _ Hcs]; subst. destruct k as [|x k], k' as [|x' k']; try done.
    destruct Hroute as [-> Hroute]. rewrite on_child_eq in Hroute. rewrite on_child_eq.
    destruct (pchild cs (index x)) as [c|] eqn:Hc; [|done].
    rewrite fmap_cons (Hstep false) //. cbn [collapsedNode getNextHashAndKey firstByte EncodedChildren].
    unfold at_index. rewrite list_lookup_fmap. apply pchild_Some in Hc as Hc'. rewrite Hc'.
    cbn [fmap option_fmap option_map bindO phashO]. by eapply (IH (index x) c); [|by apply Hcs|].
Qed.

(** on any other key it says no or yes: it does not fail *)
Lemma verify_total t : ∀ e k w k',
  wf e t → is_Some (pget t k) → length k ≤ length k' → Forall (λ x, index x < 17) k' →
  ∃ b, verifyProofLoop w k' (Some <$> pproof t k) = Ret b.
Proof.
  assert (∀ e t w k' rest, wf e t →
    (∃ b, (let? ' (ok, w, k) := getNextHashAndKey (collapsedNode t (mkBase None false)) k' in
           if (ok : bool) then Ret true else verifyProofLoop w k rest) = Ret b) →
    ∃ b, verifyProofLoop w k' (Some (penc t) :: rest) = Ret b) as Hstep.
  { intros e t' w k' rest Hwf H. cbn [verifyProofLoop]. case_bool_decide; cbn [negb]; [|by exists false].
    by rewrite (decode_penc e t' Hwf). }
  induction t as [k0 v ver|p c IH|cs IH] using ptrie_induction; intros e k w k' Hwf Hk Hlen Hk';
    cbn [pproof].
  - rewrite fmap_cons. apply (Hstep e); [done|]. cbn [collapsedNode getNextHashAndKey lnKey bindO].
    destruct (bool_decide _); [by exists true|by exists false].
  - inversion Hwf as [|? ? Hp Hne Hb Hc|]; subst. rewrite fmap_cons. apply (Hstep false); [done|].
    cbn [collapsedNode getNextHashAndKey enKey EncodedChild].
    apply ext_key in Hk as (r & -> & Hr). rewrite length_app in Hlen.
    assert (length k' ≠ 0) as ->%Nat.eqb_neq by (destruct p; [done|simpl in *; lia]).
    destruct (Nat.ltb_spec (length k') (length p)); [lia|]. cbn [bindO]. rewrite drop_app_length.
    eapply IH; [done..| |by apply Forall_drop]. rewrite length_drop. lia.
  - inversion Hwf as [| |? Hlen17 _ Hcs]; subst. destruct k as [|x k]; [by destruct Hk|].
    rewrite get_branch in Hk. destruct (pchild cs (index x)) as [c|] eqn:Hc; [|by destruct Hk].
    rewrite fmap_cons. apply (Hstep false); [done|]. destruct k' as [|x' k']; [simpl in Hlen; lia|].
    apply Forall_cons in Hk' as [Hx' Hk']. cbn [collapsedNode getNextHashAndKey firstByte EncodedChildren].
    unfold at_index. destruct (lookup_lt_is_Some_2 (phashO <$> cs) (index x')) as [w' ->]; [rewrite length_fmap; lia|].
    cbn [bindO]. rewrite on_child_eq Hc. apply pchild_Some in Hc as Hc'.
    eapply (IH (index x) c); [done|by apply Hcs|done| |done]. simpl in Hlen. lia.
Qed.

(** a key shorter than the path of an extension: slicing it panics *)
Lemma verify_short p c k k' :
  wf false (PExt p c) → 0 < length k' < length p →
  verifyProofLoop (phash (PExt p c)) k' (Some <$> pproof (PExt p c) k) = Panic.
Proof.
  intros Hwf Hlen. cbn [pproof]. rewrite fmap_cons. cbn [verifyProofLoop].
  rewrite bool_decide_true; [|apply phash_penc]. cbn [negb]. rewrite (decode_penc _ _ Hwf).
  cbn [collapsedNode getNextHashAndKey enKey EncodedChild bindO].
  destruct (Nat.eqb_spec (length k') 0); [lia|]. destruct (Nat.ltb_spec (length k') (length p)); [done|lia].
Qed.

Lemma hex_inRange k : Forall (λ x, index x < 17) (keyBytesToHex k).
Proof.
  unfold keyBytesToHex. apply Forall_app. split.
  - eapply Forall_impl; [apply hex_path|]. unfold nibble. intros. lia.
  - apply Forall_singleton. vm_compute. lia.
Qed.
(** ** The prover *)

(** the ways [getNext] ends: no such key, the key's leaf, a step to a child *)
Inductive next (db : Storage) (n : node) (t : ptrie) (k : bytes) : outcome error (option (nat * bytes)) * node → Prop :=
  | next_absent n' : pget t k = None → Rep db n' t → baseOf n' = baseOf n →
      next db n t k (Throw ErrNodeNotFound, n')
  | next_leaf v ver : pget t k = Some (v, ver) → getValue n = Some v → pproof t k = [penc t] →
      next db n t k (Ret None, n)
  | next_child pos r c cn n' e : pget t k = pget c r → pproof t k = penc t :: pproof c r →
      wf e c → keyFor e r → length r < length k → childAt n' pos = Some cn → Rep db cn c →
      is_Some (getHash cn) →
      (∀ cn', Rep db cn' c → baseOf cn' = baseOf cn →
         Rep db (setChild pos (Some cn') n') t ∧ baseOf (setChild pos (Some cn') n') = baseOf n) →
      next db n t k (Ret (Some (pos, r)), n').

Lemma ln_next db k0 v ver b k e :
  let n := leafNode (mkLn k0 (Some v) ver) b in
  Rep db n (PLeaf k0 v ver) → wf e (PLeaf k0 v ver) → next db n (PLeaf k0 v ver) k (getNext k db n).
Proof.
  intros n HR Hwf. unfold getNext. rewrite bind_gets. cbn [id]. unfold n at 2, ln_getNext.
  rewrite (bind_checkNode db n _ e _ _ HR Hwf). cbn [lnKey]. case_bool_decide as E.
  - eapply next_leaf; [simpl; by rewrite bool_decide_true|done|done].
  - apply next_absent; [simpl; by rewrite bool_decide_false|done|done].
Qed.
Lemma en_next db p en ch c b k :
  let n := extensionNode (mkEn p en (pversion c)) ch b in
  Rep db n (PExt p c) → wf false (PExt p c) → keyFor false k → is_Some (hash b) →
  next db n (PExt p c) k (getNext k db n).
Proof.
  intros n HR Hwf Hk Hh. unfold getNext. rewrite bind_gets. cbn [id]. unfold n at 2, en_getNext.
  rewrite (bind_checkNode db n _ false _ _ HR Hwf). cbn [enKey].
  inversion Hwf as [|? ? Hp Hne Hbr Hc|]; subst. inversion HR as [|? ? ? ? ? Hb Hslot|]; subst.
  assert (∀ n', strip p k = None → n' = n → next db n (PExt p c) k (Throw ErrNodeNotFound, n')) as Habs.
  { intros n' Hs ->. apply next_absent; [simpl; by rewrite Hs|done|done]. }
  destruct (Nat.ltb_spec (length k) (length p)) as [Hlt|Hge].
  { apply Habs; [|done]. destruct (strip p k) as [r|] eqn:Hs; [|done]. apply strip_Some in Hs as ->.
    rewrite length_app in Hlt. lia. }
  case_bool_decide as Htake; cbn [negb].
  2:{ apply Habs; [|done]. destruct (strip p k) as [r|] eqn:Hs; [|done]. apply strip_Some in Hs as ->.
      by rewrite take_app_length in Htake. }
  assert (k = p ++ drop (length p) k) as Hkr by (rewrite {1}Htake; symmetry; apply take_drop).
  destruct (resolve_ext db _ p en (pversion c) ch b c 0 Hc Hslot) as (cn & Hres & HRc & Hslot').
  rewrite (bind_Ret _ _ _ _ _ Hres).
  eapply (next_child _ _ _ _ _ _ c cn _ false); try done.
  - simpl. by rewrite {1}Hkr strip_app.
  - rewrite Hkr keyFor_path // in Hk.
  - rewrite length_drop. destruct p; [done|]. destruct k; [done|]. simpl. lia.
  - inversion Hslot' as [| |? ? ? _ Hl]; subst. by apply Hl.
  - intros cn' HRc' Hbase. split; [|done]. constructor; [done|]. by eapply slot_child.
Qed.
Lemma bn_next db encs chs cs b k :
  let n := branchNode (mkBn encs (versionBytes cs)) chs b in
  Rep db n (PBranch cs) → wf false (PBranch cs) → keyFor false k → is_Some (hash b) →
  next db n (PBranch cs) k (getNext k db n).
Proof.
  intros n HR Hwf Hk Hh. unfold getNext. rewrite bind_gets. cbn [id]. unfold n at 2, bn_getNext.
  rewrite (bind_checkNode db n _ false _ _ HR Hwf).
  inversion Hwf as [| |? Hlen H2 Hcs]; subst. inversion HR as [| |? ? ? ? Hb Hslots]; subst.
  destruct k as [|x k]; [done|]. cbn [firstByte]. apply keyFor_cons in Hk as [Hx Hk].
  rewrite (proj2 (inRange_index x) Hx).
  destruct (resolve_branch db _ encs (versionBytes cs) chs cs b (index x) Hslots) as (chs' & Hres & Hslots' & Hat);
    [by apply wf_present|done|by intros; apply Hcs|].
  rewrite (bind_Ret _ _ _ _ _ Hres) bind_gets. cbn [id childAt].
  destruct (pchild cs (index x)) as [c|] eqn:Hc.
  - destruct Hat as (cn & Hcn & HRc). rewrite Hcn. cbn [mjoin option_join].
    eapply (next_child _ _ _ _ _ _ c cn _ (atEnd (index x))); try done.
    + by rewrite get_branch Hc.
    + cbn [pproof]. by rewrite on_child_eq Hc.
    + by apply Hcs.
    + simpl. lia.
    + by rewrite /= Hcn.
    + destruct (slots_lookup _ _ _ _ _ _ (index x) Hslots' Hx) as (e & ch & _ & Hch & Hslot).
      rewrite Hcn in Hch. injection Hch as <-. rewrite Hc in Hslot.
      inversion Hslot as [| |? ? ? _ Hl]; subst. by apply Hl.
    + intros cn' HRc' Hbase. split; [|done]. constructor; [done|]. by eapply slots_child.
  - rewrite Hat. cbn [mjoin option_join]. apply next_absent; [by rewrite get_branch Hc|by constructor|done].
Qed.
Lemma getNext_spec db n t e k :
  Rep db n t → wf e t → keyFor e k → is_Some (getHash n) → next db n t k (getNext k db n).
Proof.
  intros HR Hwf Hk Hh. pose proof HR as HR'. destruct HR' as [k0 v ver b _|p en ch c b _ _|encs chs cs b _ _].
  - by eapply ln_next.
  - assert (e = false) as -> by by inversion Hwf. by apply en_next.
  - assert (e = false) as -> by by inversion Hwf. by apply bn_next.
Qed.

(** what [proofLoop] does *)
Definition proves (db : Storage) (t : ptrie) (b : baseNode) (k : bytes)
    (res : outcome error (list bytes * option bytes) * node) : Prop :=
  ∃ n', Rep db n' t ∧ baseOf n' = b ∧
    res = (match pget t k with
           | Some (v, _) => Ret (pproof t k, Some v)
           | None => Throw ErrNodeNotFound
           end, n').
Lemma proofLoop_spec db fuel : ∀ n t e k,
  Rep db n t → wf e t → keyFor e k → length k < fuel → is_Some (getHash n) →
  proves db t (baseOf n) k (proofLoop fuel db k n).
Proof.
  induction fuel as [|fuel IH]; intros n t e k HR Hwf Hk Hfuel Hh; [lia|].
  cbn [proofLoop]. rewrite bind_gets. cbn [id].
  rewrite (bind_liftO_Ret _ _ _ _ (getEncodedNode_spec db n t e HR Hwf Hh)). unfold bind at 1.
  destruct (getNext_spec db n t e k HR Hwf Hk Hh)
    as [n' Hg HR' Hbase|v ver Hg Hv Hpr|pos r c cn n' e' Hg Hpr Hwfc Hr Hlt Hcn HRc Hhc Hset].
  - exists n'. split; [done|]. split; [done|]. by rewrite Hg.
  - exists n. split; [done|]. split; [done|]. by rewrite Hg Hv Hpr.
  - destruct (IH cn c e' r HRc Hwfc Hr ltac:(lia) Hhc) as (cn' & HRc' & Hbase & Hrun).
    destruct (Hset cn' HRc' Hbase) as [HR' Hbase']. rewrite /bind (onChild_run _ _ _ _ _ _ Hcn Hrun).
    exists (setChild pos (Some cn') n'). split; [done|]. split; [done|]. rewrite Hg Hpr.
    by destruct (pget c r) as [[v ver]|].
Qed.

(** ** GetProof and VerifyProof *)
Lemma GetProof_spec tr db m k :
  TrieIs (tr, db) m → m ≠ ∅ →
  ∃ t tr', wf false t ∧ holds t m ∧ TrieIs (tr', db) m ∧
    GetProof k (tr, db) =
      (match m !! k with
       | Some (v, _) => Ret (pproof t (keyBytesToHex k), Some v)
       | None => Throw ErrNodeNotFound
       end, (tr', db)).
Proof.
  intros [Hroot Hmax] Hne. unfold GetProof. rewrite bind_gets. cbn [fst].
  unfold rootIs in Hroot. cbn [fst snd] in Hroot. destruct (root tr) as [n|] eqn:Hr; [|done].
  destruct Hroot as (t & HR & Hwf & Hholds).
  destruct (setRootHash_spec db t n false HR Hwf) as (n1 & Hrun & HR1 & Hh & _).
  destruct (proofLoop_spec db _ n1 t false (keyBytesToHex k) HR1 Hwf (hex_keyFor k) (fuel_enough k))
    as (n' & HR' & _ & Hloop); [by rewrite Hh|].
  rewrite (holds_get _ _ _ Hholds) in Hloop.
  exists t, (withRoot (Some n') tr). split; [done|]. split; [done|]. split.
  - split; [|done]. by exists t.
  - eapply onRoot_run; [done|]. by rewrite (bind_Ret _ _ _ _ _ Hrun).
Qed.
Lemma VerifyProof_spec t k k' :
  wf false t → is_Some (pget t k) → sameRoute t k (keyBytesToHex k') →
  length k ≤ length (keyBytesToHex (Compute k')) →
  VerifyProof (phash t) k' (Some <$> pproof t k) = Ret true.
Proof.
  intros Hwf Hk Hroute Hlen. unfold VerifyProof, verifyProof.
  destruct (verify_total t false k (phash t) (keyBytesToHex (Compute k')) Hwf Hk Hlen (hex_inRange _)) as [ok ->].
  cbn [bindO]. destruct ok; [done|]. by eapply verify_route.
Qed.

(** ** Keys with a common ending *)
Lemma hex_app x s : keyBytesToHex (x ++ s) = concat (nibblesOf <$> rev s) ++ keyBytesToHex x.
Proof. unfold keyBytesToHex. by rewrite rev_app_distr fmap_app concat_app -app_assoc. Qed.

(** all keys of a trie start with [q]: so does its path, if it has two keys *)
Lemma common_path t q k1 k2 :
  wf false t → path q → q ≠ [] → (∀ k, keyFor false k → is_Some (pget t k) → ∃ r, k = q ++ r) →
  k1 ≠ k2 → is_Some (pget t k1) → is_Some (pget t k2) →
  ∃ p' c, t = PExt (q ++ p') c.
Proof.
  intros Hwf Hq Hne Hall Hk Hg1 Hg2. destruct t as [k0 v ver|p c|cs].
  - exfalso. simpl in *. case_bool_decide; [|by destruct Hg1]. case_bool_decide; [|by destruct Hg2]. congruence.
  - inversion Hwf as [|? ? Hp Hpne Hb Hc|]; subst.
    destruct (branch_two_keys c Hb Hc) as (x & y & r1 & r2 & Hxy & Hkf1 & Hkf2 & Hr1 & Hr2).
    destruct (Hall (p ++ x :: r1)) as [s1 E1]; [by apply keyFor_path|simpl; by rewrite strip_app|].
    destruct (Hall (p ++ y :: r2)) as [s2 E2]; [by apply keyFor_path|simpl; by rewrite strip_app|].
    destruct (prefix_of_two p q r1 r2 x y s1 s2 E1 E2 Hxy) as [p' ->]. by exists p', c.
  - exfalso. destruct (branch_two_keys (PBranch cs) I Hwf) as (x & y & r1 & r2 & Hxy & Hkf1 & Hkf2 & Hr1 & Hr2).
    destruct (Hall _ Hkf1 Hr1) as [s1 E1], (Hall _ Hkf2 Hr2) as [s2 E2].
    destruct q as [|z q]; [done|]. by simplify_eq/=.
Qed.
(** the common part can be replaced *)
Lemma sameRoute_common p' c q q' r :
  is_Some (pget (PExt (q ++ p') c) (q ++ r)) → length q' = length q →
  sameRoute (PExt (q ++ p') c) (q ++ r) (q' ++ r).
Proof.
  intros Hg Hlen. apply sameRoute_refl in Hg as [H1 H2]. split.
  - rewrite !length_app Hlen. by rewrite !length_app in H1.
  - assert (∀ l, length l = length q → drop (length (q ++ p')) (l ++ r) = drop (length p') r) as Hd.
    { intros l Hl. rewrite length_app -drop_drop -Hl drop_app_length. done. }
    rewrite (Hd q) // in H2. by rewrite (Hd q) // (Hd q').
Qed.
End proofs.
