(* ===== verification/TrieLeaves.v ===== *)
(** * TrieLeaves: what an iteration over the trie sends

    The builders of siblings share an array; what one appends lies behind the
    length of the other, or in an array of its own ([keeps]).  The iteration
    sends every key with its value and version once. *)
From S2P Require Import Prelude TrieNode TrieOps Trie TrieWalk TriePure TrieSpec TrieRefine TrieCommit TrieMap.
#[local] Open Scope go_scope.

(** ** Shared slices *)
Section slices.
Context {SG : SliceGrowth}.

Definition validSlice (mem : memory) (s : slice) : Prop :=
  sliceArray s < length mem ∧ sliceLength s ≤ length (arrayAt mem (sliceArray s)).
(** appending to [kb] does not touch [s] *)
Definition apart (kb s : slice) : Prop := sliceArray s ≠ sliceArray kb ∨ sliceLength s ≤ sliceLength kb.
Definition keeps (kb : slice) (mem mem' : memory) : Prop := ∀ s,
  validSlice mem s → apart kb s → validSlice mem' s ∧ sliceBytes mem' s = sliceBytes mem s.

Lemma keeps_refl kb mem : keeps kb mem mem.
Proof. by intros s. Qed.
Lemma keeps_trans kb mem1 mem2 mem3 : keeps kb mem1 mem2 → keeps kb mem2 mem3 → keeps kb mem1 mem3.
Proof. intros H1 H2 s Hs Ha. destruct (H1 s Hs Ha) as [Hs2 <-]. by apply H2. Qed.
Lemma apart_self kb : apart kb kb.
Proof. by right. Qed.

Lemma goAppend_spec kb part mem :
  validSlice mem kb →
  let '(kb', mem') := goAppend kb part mem in
  validSlice mem' kb' ∧ sliceBytes mem' kb' = sliceBytes mem kb ++ part ∧ keeps kb mem mem' ∧
  ∀ s, validSlice mem s → apart kb s → apart kb' s.
Proof.
  intros [Ha Hl]. unfold goAppend. set (array := arrayAt mem (sliceArray kb)) in *.
  assert (length (sliceBytes mem kb) = sliceLength kb) as Hlen.
  { unfold sliceBytes. rewrite length_take. fold array. lia. }
  destruct (Nat.leb_spec (sliceLength kb + length part) (length array)) as [Hfit|Hfull].
  - set (array' := sliceBytes mem kb ++ part ++ drop (sliceLength kb + length part) array).
    assert (length array' = length array) as Hlen'.
    { unfold array'. rewrite !length_app length_drop. lia. }
    assert (arrayAt (<[sliceArray kb := array']> mem) (sliceArray kb) = array') as Hat.
    { unfold arrayAt. by rewrite list_lookup_insert_eq. }
    split; [|split; [|split]].
    + split; cbn [sliceArray sliceLength]; [by rewrite length_insert|]. rewrite Hat. lia.
    + unfold sliceBytes at 1. cbn [sliceArray sliceLength]. rewrite Hat. unfold array'.
      rewrite app_assoc take_app_length' //. rewrite length_app. lia.
    + intros s [Hs Hsl] Hap. unfold validSlice, sliceBytes. rewrite length_insert.
      destruct (decide (sliceArray s = sliceArray kb)) as [E|Hne].
      * rewrite E Hat. rewrite E in Hsl. fold array in Hsl. destruct Hap as [|Hle]; [done|].
        split; [split; [by rewrite -E|lia]|]. unfold array'. rewrite take_app_le; [|lia].
        unfold sliceBytes. rewrite take_take. fold array. f_equal. lia.
      * unfold arrayAt. rewrite list_lookup_insert_ne //.
    + intros s _ [?|?]; [by left|right; cbn [sliceLength]; lia].
  - set (array' := sliceBytes mem kb ++ part ++ _).
    assert (sliceLength kb + length part ≤ length array') as Hlen'.
    { unfold array'. rewrite !length_app. lia. }
    split; [|split; [|split]].
    + split; cbn [sliceArray sliceLength]; [rewrite length_app /=; lia|].
      unfold arrayAt. by rewrite lookup_app_r // Nat.sub_diag.
    + unfold sliceBytes at 1, arrayAt. cbn [sliceArray sliceLength].
      rewrite lookup_app_r // Nat.sub_diag. cbn [lookup list_lookup default from_option id]. unfold array'.
      rewrite app_assoc take_app_length' //. rewrite length_app. lia.
    + intros s [Hs Hsl] _. unfold validSlice, sliceBytes, arrayAt. rewrite length_app lookup_app_l //.
      split; [|done]. split; [lia|done].
    + intros s [Hs _] _. left. cbn [sliceArray]. lia.
Qed.
End slices.

(** ** The entries of a trie, in the order of the keys *)
Definition entry : Type := bytes * (bytes * Z).
Definition prefixedBy (p : bytes) (l : list entry) : list entry := (λ '(k, x), (p ++ k, x)) <$> l.
Fixpoint entries (t : ptrie) : list entry :=
  match t with
  | PLeaf k v ver => [(k, (v, ver))]
  | PExt p c => prefixedBy p (entries c)
  | PBranch cs =>
    (fix go (i : nat) cs :=
       match cs with
       | [] => []
       | Some c :: cs => prefixedBy [toByte (Z.of_nat i)] (entries c) ++ go (S i) cs
       | None :: cs => go (S i) cs
       end) 0%nat cs
  end.
Definition entriesAt (cs : list (option ptrie)) (i : nat) : list entry :=
  match pchild cs i with Some c => prefixedBy [toByte (Z.of_nat i)] (entries c) | None => [] end.
Lemma entries_branch cs : entries (PBranch cs) = concat (entriesAt cs <$> seq 0 (length cs)).
Proof.
  assert (∀ i,
    (fix go (i : nat) cs :=
       match cs with
       | [] => []
       | Some c :: cs => prefixedBy [toByte (Z.of_nat i)] (entries c) ++ go (S i) cs
       | None :: cs => go (S i) cs
       end) i cs =
    concat ((λ j, match pchild cs j with
                  | Some c => prefixedBy [toByte (Z.of_nat (i + j))] (entries c) | None => [] end)
            <$> seq 0 (length cs))) as H; [|exact (H 0)].
  induction cs as [|o cs IH]; intros i; [done|]. rewrite IH. cbn [length seq].
  rewrite fmap_cons. cbn [concat]. rewrite -fmap_S_seq -list_fmap_compose Nat.add_0_r.
  assert (∀ j, i + S j = S i + j) as Hs by lia.
  destruct o as [c|]; cbn [pchild lookup list_lookup mjoin option_join app].
  - unfold pchild at 2. cbn [lookup list_lookup mjoin option_join]. f_equal. f_equal.
    apply list_fmap_ext. intros j x _. unfold compose. by rewrite -Hs.
  - f_equal. apply list_fmap_ext. intros j x _. unfold compose. by rewrite -Hs.
Qed.

Lemma elem_of_prefixedBy p l k x : (k, x) ∈ prefixedBy p l ↔ ∃ r, k = p ++ r ∧ (r, x) ∈ l.
Proof.
  unfold prefixedBy. rewrite list_elem_of_fmap. split.
  - intros ([r y] & [= -> ->] & Hin). by exists r.
  - intros (r & -> & Hin). by exists (r, x).
Qed.
Lemma elem_of_entries t k x : ∀ e, wf e t → (k, x) ∈ entries t ↔ pget t k = Some x.
Proof.
  revert k. induction t as [k0 v ver|p c IH|cs IH] using ptrie_induction; intros k e Hwf.
  - simpl. rewrite list_elem_of_singleton. case_bool_decide; naive_solver.
  - inversion Hwf; subst. cbn [entries]. rewrite elem_of_prefixedBy. simpl. split.
    + intros (r & -> & Hr). rewrite strip_app. by apply (IH r false).
    + destruct (strip p k) as [r|] eqn:Hs; [|done]. apply strip_Some in Hs as ->.
      intros Hg. exists r. split; [done|]. by apply (IH r false).
  - inversion Hwf as [| |? Hlen _ Hcs]; subst. rewrite entries_branch list_elem_of_In in_concat. split.
    + intros (l & Hl & Hk). apply list_elem_of_In in Hl, Hk.
      apply list_elem_of_fmap in Hl as (i & -> & Hi%elem_of_seq). unfold entriesAt in Hk.
      destruct (pchild cs i) as [c|] eqn:Hc; [|by apply elem_of_nil in Hk].
      apply elem_of_prefixedBy in Hk as (r & -> & Hr). cbn [app]. rewrite get_branch index_toByte; [|lia].
      rewrite Hc. eapply (IH i c); [by apply pchild_Some|by apply Hcs|done].
    + destruct k as [|z r]; [done|]. rewrite get_branch. destruct (pchild cs (index z)) as [c|] eqn:Hc; [|done].
      intros Hg. exists (entriesAt cs (index z)). rewrite -!list_elem_of_In list_elem_of_fmap. split.
      * exists (index z). split; [done|]. apply elem_of_seq. apply pchild_lt in Hc. lia.
      * unfold entriesAt. rewrite Hc. apply elem_of_prefixedBy. exists r. rewrite toByte_index.
        split; [done|]. eapply (IH (index z) c); [by apply pchild_Some|by apply Hcs|done].
Qed.
Lemma get_keyFor t k : ∀ e, wf e t → is_Some (pget t k) → keyFor e k.
Proof.
  revert k. induction t as [k0 v ver|p c IH|cs IH] using ptrie_induction; intros k e Hwf.
  - inversion Hwf; subst. simpl. case_bool_decide; [by subst|by intros []].
  - inversion Hwf; subst. intros (r & -> & Hr)%ext_key. apply keyFor_path; [done|]. by apply (IH r false).
  - inversion Hwf as [| |? Hlen _ Hcs]; subst. destruct k as [|z r]; [by intros []|]. rewrite get_branch.
    destruct (pchild cs (index z)) as [c|] eqn:Hc; [|by intros []]. intros Hg. apply keyFor_cons.
    split; [apply pchild_lt in Hc; lia|]. eapply (IH (index z) c); [by apply pchild_Some|by apply Hcs|done].
Qed.
Lemma NoDup_entries t : ∀ e, wf e t → NoDup (entries t).
Proof.
  assert (∀ p l, NoDup l → NoDup (prefixedBy p l)) as Hpre.
  { intros p l Hl. apply NoDup_fmap_2; [|done]. by intros [k x] [k' x'] [= ->%app_inv_head ->]. }
  induction t as [k0 v ver|p c IH|cs IH] using ptrie_induction; intros e Hwf.
  - apply NoDup_singleton.
  - inversion Hwf; subst. by apply Hpre, (IH false).
  - inversion Hwf as [| |? Hlen _ Hcs]; subst. rewrite entries_branch Hlen.
    assert (∀ l, NoDup l → (∀ i, i ∈ l → i < 17) → NoDup (concat (entriesAt cs <$> l))) as H.
    2:{ apply H; [apply NoDup_seq|]. intros i ?%elem_of_seq. lia. }
    intros l Hnd Hlt. induction Hnd as [|i l Hi Hnd IHl]; [apply NoDup_nil_2|].
    rewrite fmap_cons. cbn [concat]. apply NoDup_app. split; [|split].
    + unfold entriesAt. destruct (pchild cs i) as [c|] eqn:Hc; [|apply NoDup_nil_2].
      apply Hpre. by eapply (IH i c); [apply pchild_Some|apply Hcs].
    + intros [k x] Hk1 Hk2. rewrite list_elem_of_In in_concat in Hk2. destruct Hk2 as (l' & Hl' & Hk2).
      apply list_elem_of_In in Hl', Hk2. apply list_elem_of_fmap in Hl' as (j & -> & Hj).
      unfold entriesAt in Hk1, Hk2. destruct (pchild cs i) as [c|]; [|by apply elem_of_nil in Hk1].
      destruct (pchild cs j) as [d|]; [|by apply elem_of_nil in Hk2].
      apply elem_of_prefixedBy in Hk1 as (r & -> & _), Hk2 as (r' & [= E _] & _).
      apply (f_equal index) in E. rewrite !index_toByte in E; [by subst|apply Hlt..]; [by right|left].
    + apply IHl. intros j ?. apply Hlt. by right.
Qed.

(** ** The iteration *)
Section leaves.
Context {TE : TrieEnvironment} {TL : TrieLaws} {SG : SliceGrowth} {L : Type} {TP : TrieLeafParser L}.

(** the leaf that is sent for an entry below the path [p] *)
Definition sentFor (p : bytes) (y : entry) (x : L) : Prop :=
  ∃ key, p ++ y.1 = keyBytesToHex key ∧ ParseLeaf key (Some y.2.1) y.2.2 = inr x.
Lemma sentFor_prefixed p q l :
  Forall (λ y, ∃ x, sentFor p y x) (prefixedBy q l) → Forall (λ y, ∃ x, sentFor (p ++ q) y x) l.
Proof.
  unfold prefixedBy. rewrite Forall_fmap. intros H. eapply Forall_impl; [exact H|].
  intros [k v] (x & key & Hk & Hp).
  exists x, key. by rewrite -app_assoc.
Qed.
Lemma sentFor_all p q l xs :
  Forall2 (sentFor (p ++ q)) l xs → Forall2 (sentFor p) (prefixedBy q l) xs.
Proof.
  unfold prefixedBy. rewrite Forall2_fmap_l. intros H. eapply Forall2_impl; [exact H|].
  intros [k v] x (key & Hk & Hp).
  exists key. by rewrite app_assoc.
Qed.

Definition walks (fuel : nat) (walk : slice → walkM unit) (db : Storage) : Prop := ∀ n t e kb mem sent,
  Rep db n t → wf e t → stored db t → is_Some (getHash n) →
  (∀ k, keyFor e k → is_Some (pget t k) → length k < fuel) →
  validSlice mem kb → Forall (λ y, ∃ x, sentFor (sliceBytes mem kb) y x) (entries t) →
  ∃ n' mem' l, walk kb (n, (mem, sent)) = (Ret tt, (n', (mem', sent ++ l))) ∧
    keeps kb mem mem' ∧ Forall2 (sentFor (sliceBytes mem kb)) (entries t) l.

Lemma onNode_run {W A} (m : M node error A) n r n' (w : W) : m n = (r, n') → onNode m (n, w) = (r, (n', w)).
Proof. unfold onNode. by intros ->. Qed.
Lemma onChildWith_run {W A} pos (m : M (node * W) error A) n c w r c' w' :
  childAt n pos = Some c → m (c, w) = (r, (c', w')) → onChildWith pos m (n, w) = (r, (setChild pos (Some c') n, w')).
Proof. unfold onChildWith. by intros -> ->. Qed.
Lemma buildKey_spec kb part n mem (sent : list L) :
  validSlice mem kb →
  ∃ kb' mem', buildKey kb part (n, (mem, sent)) = (Ret kb', (n, (mem', sent))) ∧
    validSlice mem' kb' ∧ sliceBytes mem' kb' = sliceBytes mem kb ++ part ∧ keeps kb mem mem' ∧
    ∀ s, validSlice mem s → apart kb s → apart kb' s.
Proof.
  intros Hv. pose proof (goAppend_spec kb part mem Hv) as H. unfold buildKey, BuildKey.
  destruct (goAppend kb part mem) as [kb' mem']. by exists kb', mem'.
Qed.
(** what the child keeps, its parent keeps *)
Lemma keeps_child kb kb' mem mem1 mem2 :
  keeps kb mem mem1 → (∀ s, validSlice mem s → apart kb s → apart kb' s) → keeps kb' mem1 mem2 →
  keeps kb mem mem2.
Proof.
  intros H1 Hap H2 s Hs Ha. destruct (H1 s Hs Ha) as [Hs1 <-]. apply H2; [done|by apply Hap].
Qed.

Lemma ln_walks fuel db k v ver b e kb mem sent :
  let n := leafNode (mkLn k (Some v) ver) b in
  Rep db n (PLeaf k v ver) → wf e (PLeaf k v ver) → validSlice mem kb →
  Forall (λ y, ∃ x, sentFor (sliceBytes mem kb) y x) (entries (PLeaf k v ver)) →
  ∃ n' mem' l, getAllLeavesOnChannel (S fuel) db kb (n, (mem, sent)) = (Ret tt, (n', (mem', sent ++ l))) ∧
    keeps kb mem mem' ∧ Forall2 (sentFor (sliceBytes mem kb)) (entries (PLeaf k v ver)) l.
Proof.
  intros n HR Hwf Hv Hp. apply Forall_singleton in Hp as (x & key & Hk & Hx). cbn [fst snd] in *.
  destruct (buildKey_spec kb k n mem sent Hv) as (kb' & mem' & Hb & Hv' & Hs' & Hkeep & _).
  exists n, mem', [x]. split; [|split; [done|]].
  - cbn [getAllLeavesOnChannel]. rewrite bind_gets. cbn [fst]. unfold n at 1, ln_getAllLeavesOnChannel.
    rewrite (bind_Ret _ _ _ _ _ (onNode_run _ _ _ _ _ (checkNode_spec db n _ e _ HR Hwf))).
    cbn [lnKey]. rewrite (bind_Ret _ _ _ _ _ Hb) bind_gets. cbn [fst snd].
    erewrite bind_liftO_Ret; [|unfold GetKey; rewrite Hs' Hk; apply hex_roundtrip].
    erewrite bind_liftO_Ret; [|by eapply (getVersion_spec db n)]. cbn [lnValue pversion].
    by rewrite bind_fromSum Hx.
  - apply Forall2_cons. split; [|apply Forall2_nil_2]. by exists key.
Qed.

Lemma en_walks fuel db p en ch c b kb mem sent :
  let n := extensionNode (mkEn p en (pversion c)) ch b in
  walks fuel (getAllLeavesOnChannel fuel db) db →
  Rep db n (PExt p c) → wf false (PExt p c) → stored db (PExt p c) → is_Some (hash b) →
  (∀ k, keyFor false k → is_Some (pget (PExt p c) k) → length k < S fuel) → validSlice mem kb →
  Forall (λ y, ∃ x, sentFor (sliceBytes mem kb) y x) (entries (PExt p c)) →
  ∃ n' mem' l, getAllLeavesOnChannel (S fuel) db kb (n, (mem, sent)) = (Ret tt, (n', (mem', sent ++ l))) ∧
    keeps kb mem mem' ∧ Forall2 (sentFor (sliceBytes mem kb)) (entries (PExt p c)) l.
Proof.
  intros n IH HR Hwf Hst Hh Hfuel Hv Hp. inversion Hwf as [|? ? Hpath Hne Hbr Hc|]; subst.
  inversion HR as [|? ? ? ? ? Hb Hslot|]; subst. inversion Hst as [|? ? _ Hstc|]; subst.
  cbn [getAllLeavesOnChannel]. rewrite bind_gets. cbn [fst]. unfold n at 1, en_getAllLeavesOnChannel.
  rewrite (bind_Ret _ _ _ _ _ (onNode_run _ _ _ _ _ (checkNode_spec db n _ false _ HR Hwf))).
  destruct (resolve_ext db _ p en (pversion c) ch b c 0 Hc Hslot) as (cn & Hres & HRc & Hslot').
  rewrite (bind_Ret _ _ _ _ _ (onNode_run _ _ _ _ _ Hres)). cbn [enKey entries].
  destruct (buildKey_spec kb p (extensionNode (mkEn p en (pversion c)) (Some cn) b) mem sent Hv)
    as (kb' & mem' & Hrun & Hv' & Hs' & Hkeep & Hap).
  rewrite (bind_Ret _ _ _ _ _ Hrun).
  destruct (IH cn c false kb' mem' sent HRc Hc Hstc) as (cn' & mem2 & l & Hwalk & Hkeep2 & Hl).
  - inversion Hslot' as [| |? ? ? _ Hl']; subst. by apply Hl'.
  - intros k Hk Hg. specialize (Hfuel (p ++ k)). rewrite keyFor_path // in Hfuel. cbn [pget] in Hfuel.
    rewrite strip_app length_app in Hfuel. specialize (Hfuel Hk Hg). destruct p; [done|]. simpl in Hfuel. lia.
  - done.
  - rewrite Hs'. by apply sentFor_prefixed.
  - erewrite bind_Ret; [|by eapply onChildWith_run]. eexists _, mem2, l. split; [done|].
    split; [by eapply keeps_child|]. apply sentFor_all. by rewrite -Hs'.
Qed.

(** the children at some positions *)
Lemma bn_walksLoop fuel db encs cs b vs kb range : ∀ chs mem sent,
  walks fuel (getAllLeavesOnChannel fuel db) db →
  wf false (PBranch cs) → (∀ i c, pchild cs i = Some c → stored db c) → 
  slots (Rep db) db True encs chs cs → (∀ i, i ∈ range → i < 17) →
  (∀ k, keyFor false k → is_Some (pget (PBranch cs) k) → length k < S fuel) → validSlice mem kb →
  Forall (λ y, ∃ x, sentFor (sliceBytes mem kb) y x) (concat (entriesAt cs <$> range)) →
  ∃ chs' mem' l,
    forEach range (λ i,
      onNode (resolveIfCollapsed i db) ;;;
      let! n := gets fst in
      match childAt n i with
      | None => ret tt
      | Some _ =>
        let! clonedKeyBuilder := buildKey kb [toByte (Z.of_nat i)] in
        onChildWith i (getAllLeavesOnChannel fuel db clonedKeyBuilder) ;;;
        dropChild i
      end) (branchNode (mkBn encs vs) chs b, (mem, sent)) =
      (Ret tt, (branchNode (mkBn encs vs) chs' b, (mem', sent ++ l))) ∧
    keeps kb mem mem' ∧ Forall2 (sentFor (sliceBytes mem kb)) (concat (entriesAt cs <$> range)) l.
Proof.
  induction range as [|i range IHr]; intros chs mem sent IH Hwf Hst Hs Hlt Hfuel Hv Hp.
  { exists chs, mem, []. rewrite app_nil_r. split; [done|]. split; [apply keeps_refl|apply Forall2_nil_2]. }
  cbn [forEach]. rewrite fmap_cons in Hp |- *. cbn [concat] in *. apply Forall_app in Hp as [Hp1 Hp2].
  assert (i < 17) as Hi by (apply Hlt; left). assert (∀ j, j ∈ range → j < 17) as Hlt' by (intros j ?; apply Hlt; by right).
  inversion Hwf as [| |? Hlen _ Hcs]; subst.
  destruct (resolve_branch db _ encs vs chs cs b i Hs) as (chs' & Hres & Hs' & Hat);
    [by apply wf_present|done|by intros; apply Hcs|].
  unfold bind at 1. rewrite (bind_Ret _ _ _ _ _ (onNode_run _ _ _ _ _ Hres)) bind_gets. cbn [fst childAt].
  unfold entriesAt at 1 in Hp1. unfold entriesAt at 1. destruct (pchild cs i) as [c|] eqn:Hc.
  2:{ rewrite Hat. cbn [mjoin option_join]. by apply IHr. }
  destruct Hat as (cn & Hcn & HRc). rewrite Hcn. cbn [mjoin option_join].
  destruct (buildKey_spec kb [toByte (Z.of_nat i)] (branchNode (mkBn encs vs) chs' b) mem sent Hv)
    as (kb' & mem1 & Hrun & Hv' & Hsb & Hkeep & Hap).
  rewrite (bind_Ret _ _ _ _ _ Hrun).
  destruct (slots_lookup _ _ _ _ _ _ i Hs' Hi) as (e & ch & He & Hch & Hslot).
  rewrite Hcn in Hch. injection Hch as <-. rewrite Hc in Hslot. inversion Hslot as [| |? ? ? _ Hl]; subst.
  destruct (Hl I) as [-> Hhc].
  destruct (IH cn c (atEnd i) kb' mem1 sent HRc (Hcs _ _ Hc) (Hst _ _ Hc) Hhc) as (cn' & mem2 & l1 & Hwalk & Hkeep1 & Hl1).
  { intros k Hk Hg. specialize (Hfuel (toByte (Z.of_nat i) :: k)). rewrite keyFor_cons get_branch in Hfuel.
    rewrite !index_toByte // Hc in Hfuel. specialize (Hfuel (conj Hi Hk) Hg). simpl in Hfuel. lia. }
  { done. }
  { rewrite Hsb. by apply sentFor_prefixed. }
  erewrite bind_Ret; [|eapply onChildWith_run; [by rewrite /= Hcn|exact Hwalk]].
  unfold dropChild, modify. cbn [setChild]. rewrite list_insert_insert_eq.
  destruct (keeps_child _ _ _ _ _ Hkeep Hap Hkeep1 kb Hv (apart_self kb)) as [Hv2 Hsb2].
  destruct (IHr (<[i := None]> chs') mem2 (sent ++ l1) IH Hwf Hst) as (chs2 & mem3 & l2 & Hrest & Hkeep2 & Hl2);
    [|done|done|done|by rewrite Hsb2|].
  { eapply slots_setChild; [done|done|]. rewrite Hc. constructor. by apply (Hst i). }
  exists chs2, mem3, (l1 ++ l2). rewrite Hrest app_assoc. split; [done|]. split.
  - eapply keeps_trans; [by eapply keeps_child|done].
  - apply Forall2_app; [|by rewrite -Hsb2]. apply sentFor_all. by rewrite -Hsb.
Qed.
Lemma walks_all fuel db : walks fuel (getAllLeavesOnChannel fuel db) db.
Proof.
  induction fuel as [|fuel IH]; intros n t e kb mem sent HR Hwf Hst Hh Hfuel Hv Hp.
  { destruct (wf_key e t Hwf) as (k & Hk & Hg). specialize (Hfuel k Hk Hg). lia. }
  pose proof HR as HR'. destruct HR' as [k v ver b _|p en ch c b _ _|encs chs cs b _ Hs].
  - by apply (ln_walks fuel db k v ver b e).
  - assert (e = false) as -> by by inversion Hwf. by apply en_walks.
  - assert (e = false) as -> by by inversion Hwf. cbn [getAllLeavesOnChannel]. rewrite bind_gets. cbn [fst].
    unfold bn_getAllLeavesOnChannel.
    rewrite (bind_Ret _ _ _ _ _ (onNode_run _ _ _ _ _ (checkNode_spec db _ _ false _ HR Hwf))).
    inversion Hwf as [| |? Hlen _ _]; inversion Hst as [| |? _ Hstc]; subst.
    rewrite entries_branch Hlen in Hp |- *.
    destruct (bn_walksLoop fuel db encs cs b (versionBytes cs) kb (seq 0 17) chs mem sent IH Hwf Hstc)
      as (chs' & mem' & l & Hrun & Hkeep & Hl); try done.
    + eapply (slots_hashed _ _ _ True); [|exact Hs]. by intros _.
    + intros i ?%elem_of_seq. lia.
    + by exists (branchNode (mkBn encs (versionBytes cs)) chs' b), mem', l.
Qed.

(** ** The leaves of a committed trie *)
Lemma entries_map t m :
  wf false t → holds t m →
  entries t ≡ₚ (λ '(k, x), (keyBytesToHex k, x)) <$> map_to_list m.
Proof.
  intros Hwf Hh. apply NoDup_Permutation.
  - by eapply NoDup_entries.
  - apply NoDup_fmap_2; [|apply NoDup_map_to_list]. by intros [k x] [k' x'] [= ->%keyBytesToHex_inj ->].
  - intros [hk x]. rewrite (elem_of_entries t hk x false Hwf) list_elem_of_fmap. split.
    + intros Hg. pose proof (get_keyFor t hk false Hwf ltac:(by exists x)) as Hhk.
      destruct (Hh hk Hhk) as [Hget Hex]. destruct (Hex ltac:(by exists x)) as [k ->].
      exists (k, x). split; [done|]. apply elem_of_map_to_list. by rewrite -Hg (Hget k).
    + intros ([k y] & [= -> ->] & Hin%elem_of_map_to_list). by rewrite (holds_get _ _ _ Hh).
Qed.

Lemma GetAllLeaves_spec {CF : CollisionFree} fuel tr0 db t m mem kb :
  wf false t → holds t m → stored db t → maxTrieLevelInMemory tr0 ≠ 0%Z →
  validSlice mem kb → sliceBytes mem kb = [] →
  (∀ k, is_Some (m !! k) → 2 * length k + 1 < fuel) →
  (∀ k v ver, m !! k = Some (v, ver) → ∃ x, ParseLeaf k (Some v) ver = inr x) →
  ∃ l, GetAllLeavesOnChannel fuel (phash t) kb tr0 db mem = Ret (l, None) ∧
    Forall2 (sentFor []) (entries t) l.
Proof.
  intros Hwf Hh Hst Hmax Hv Hkb Hfuel Hparse.
  unfold GetAllLeavesOnChannel, recreate, recreateFromDb, NewTrie.
  assert (IsEmptyTrie (phash t) = false) as ->.
  { unfold IsEmptyTrie. rewrite bool_decide_false; [|rewrite phash_penc; apply Compute_nonzero].
    pose proof (phash_nonempty t). by destruct (phash t). }
  destruct (Z.eqb_spec (maxTrieLevelInMemory tr0) 0) as [|_]; [done|]. cbn [ofSum bindO].
  destruct (load_spec db false t Hwf Hst) as (n & -> & HR & Hhash). cbn [bindO root withRoot].
  destruct (walks_all fuel db _ t false kb mem [] HR Hwf Hst Hhash) as (n' & mem' & l & -> & _ & Hl); try done.
  - intros hk Hhk Hg. destruct (Hh hk Hhk) as [Hget Hex]. destruct (Hex Hg) as [k ->].
    rewrite hex_length. apply Hfuel. by rewrite -(Hget k).
  - rewrite Hkb. apply Forall_forall. intros [hk [v ver]] Hin.
    apply (elem_of_entries t hk _ false Hwf) in Hin.
    pose proof (get_keyFor t hk false Hwf ltac:(by exists (v, ver))) as Hhk.
    destruct (Hh hk Hhk) as [Hget Hex]. destruct (Hex ltac:(by exists (v, ver))) as [k ->].
    rewrite (Hget k) // in Hin. destruct (Hparse k v ver Hin) as [x Hx]. by exists x, k.
  - exists l. split; [done|]. by rewrite Hkb in Hl.
Qed.

Lemma GetAllLeaves_empty fuel tr0 db mem kb :
  maxTrieLevelInMemory tr0 ≠ 0%Z → GetAllLeavesOnChannel fuel EmptyTrieHash kb tr0 db mem = Ret ([], None).
Proof.
  intros Hmax. unfold GetAllLeavesOnChannel, recreate, NewTrie.
  rewrite /IsEmptyTrie (bool_decide_true (EmptyTrieHash = EmptyTrieHash)) // orb_true_r.
  by destruct (Z.eqb_spec (maxTrieLevelInMemory tr0) 0).
Qed.
Lemma newBuilder_valid mem : validSlice (NewKeyBuilder mem).2 (NewKeyBuilder mem).1.
Proof. split; simpl; [rewrite length_app /=; lia|lia]. Qed.
Lemma leaves_perm t m l (leafOf : bytes → bytes → Z → L) :
  wf false t → holds t m → Forall2 (sentFor []) (entries t) l →
  (∀ k v ver, m !! k = Some (v, ver) → ParseLeaf k (Some v) ver = inr (leafOf k v ver)) →
  l ≡ₚ (λ '(k, (v, ver)), leafOf k v ver) <$> map_to_list m.
Proof.
  intros Hwf Hh Hl Hparse. destruct (Permutation_Forall2 (entries_map t m Hwf Hh) Hl) as (l' & -> & Hl').
  assert (∀ k x, (k, x) ∈ map_to_list m → m !! k = Some x) as Hin by by intros k x ?%elem_of_map_to_list.
  revert l' Hl' Hin. induction (map_to_list m) as [|[k [v ver]] l0 IH]; intros l' Hl' Hin.
  { by inversion Hl'. }
  inversion Hl' as [|? x ? l1 (key & Hk & Hx) Hl1]; subst. cbn [fst snd app] in *.
  apply keyBytesToHex_inj in Hk as <-. rewrite fmap_cons.
  rewrite Hparse in Hx; [|apply Hin; left]. injection Hx as <-. f_equiv.
  apply IH; [done|]. intros k' x' ?. apply Hin. by right.
Qed.
End leaves.
