(* ===== verification/TrieConcrete.v ===== *)
(** * TrieConcrete: an executable trie

    A storage, a marshaller and a hash function that satisfy the laws, and a
    trie with three keys, two of which end in the same bytes. *)
From S2P Require Import Prelude Concrete TrieNode TrieOps Trie TrieWalk TrieSpec TrieCommit TrieMap.
#[local] Open Scope go_scope.

#[export, refine] Instance branch_fields : Fields CollapsedBn := {
  fieldsOf bn := ChildrenVersion bn :: EncodedChildren bn;
  ofFields l := match l with v :: encs => Some (mkBn encs v) | [] => None end;
}.
Proof. all: by intros []. Defined.
#[export, refine] Instance extension_fields : Fields CollapsedEn := {
  fieldsOf en := [ enKey en; EncodedChild en; encZ (ChildVersion en) ];
  ofFields l := match l with [k; c; v] => Some (mkEn k c (decZ v)) | _ => None end;
}.
Proof. - intros []; simpl. by rewrite decZ_enc. - by intros []. Defined.
#[export, refine] Instance leaf_fields : Fields CollapsedLn := {
  fieldsOf ln := [ lnKey ln; match lnValue ln with Some v => x01 :: v | None => [] end; encZ (lnVersion ln) ];
  ofFields l := match l with
    | [k; v; ver] => Some (mkLn k (match v with _ :: v => Some v | [] => None end) (decZ ver))
    | _ => None
    end;
}.
Proof. - intros [? [v|] ?]; simpl; by rewrite decZ_enc. - by intros []. Defined.

#[export] Instance demoTrie : TrieEnvironment := {|
  Storage := gmap bytes bytes;
  Get k db := match db !! k with Some v => inr v | None => inl "key not found"%string end;
  Put k v db := inr (<[k := v]> db);
  branch_marshaller := fieldsMarshaller;
  extension_marshaller := fieldsMarshaller;
  leaf_marshaller := fieldsMarshaller;
  trie_hasher := {| Compute b := x01 :: b |};
  NotSpecified := 0;
  GetNodeFromDBErr _ err := err;
|}.
#[export] Instance demoTrie_laws : TrieLaws.
Proof.
  split; try apply fieldsMarshaller_laws.
  - done.
  - done.
  - intros k v db. by eexists.
  - intros k v db db' [= <-]. simpl. by rewrite lookup_insert_eq.
  - intros k k' v db db' Hne [= <-]. simpl. by rewrite lookup_insert_ne.
Qed.
#[export] Instance demoTrie_collisionFree : CollisionFree.
Proof. split; [by intros b b' [=]|done]. Qed.

(** the empty trie *)
Definition emptyTrie : patriciaMerkleTrie * Storage := (mkTrie None [] [] 2, ∅).
Lemma emptyTrie_is : TrieIs emptyTrie ∅.
Proof. by split. Qed.

(** keys with a common ending *)
Definition ending : bytes := [x61; x62].
Definition key1 : bytes := x01 :: ending.
Definition key2 : bytes := x02 :: ending.
Definition demoContents : gmap bytes (bytes * Z) := {[ key1 := ([x31], 0%Z); key2 := ([x32], 1%Z) ]}.
Definition demoState : patriciaMerkleTrie * Storage :=
  ((Update key1 [x31] ;;; UpdateWithVersion key2 [x32] 1 ;;; RootHash) emptyTrie).2.
Lemma demoState_is : TrieIs demoState demoContents.
Proof.
  destruct (trie_update_spec _ _ _ key1 [x31] 0%Z emptyTrie_is) as (tr1 & H1 & Hm1); [lia|].
  destruct (trie_update_spec _ _ _ key2 [x32] 1%Z Hm1) as (tr2 & H2 & Hm2); [lia|].
  destruct (RootHash_spec _ _ _ Hm2) as (h & tr3 & H3 & Hm3 & _).
  assert (demoState = (tr3, emptyTrie.2)) as ->.
  { unfold demoState, emptyTrie. cbn [snd] in *. 
    rewrite (bind_Ret _ _ _ _ _ H1) (bind_Ret _ _ _ _ _ H2) H3. done. }
  exact Hm3.
Qed.

(** slices that double, a parser that keeps everything *)
#[export] Instance doubling : SliceGrowth := {| newCapacity old _ := 2 * old |}.
#[export] Instance plainParser : TrieLeafParser (bytes * bytes * Z) := {|
  ParseLeaf key value version := inr (key, orEmpty value, version) |}.
