(* ===== verification/TrieTheorems.v ===== *)
(** * TrieTheorems: the properties of the trie *)
From S2P Require Import Prelude TrieNode TrieOps Trie TrieWalk TriePure TrieSpec TrieRefine TrieCommit TrieMap TrieProofs TrieLeaves TrieConcrete.
#[local] Open Scope go_scope.

(** ** Sequences of operations *)
Inductive trieOp : Type :=
  | OpGet (key : bytes)
  | OpUpdate (key value : bytes)
  | OpUpdateWithVersion (key value : bytes) (version : Z)
  | OpDelete (key : bytes)
  | OpRootHash
  | OpCommit.
Inductive trieAnswer : Type :=
  | Found (value : option bytes)
  | Hashed (rootHash : bytes)
  | Done.

Section theorems.
Context {TE : TrieEnvironment}.

Definition perform (op : trieOp) : trieM trieAnswer :=
  match op with
  | OpGet key => let! ' (value, _) := catch (trie_Get key) (λ '(err, _), throw err) in ret (Found value)
  | OpUpdate key value => Update key value ;;; ret Done
  | OpUpdateWithVersion key value version => UpdateWithVersion key value version ;;; ret Done
  | OpDelete key => Delete key ;;; ret Done
  | OpRootHash => let! h := RootHash in ret (Hashed h)
  | OpCommit => Commit ;;; ret Done
  end.
Fixpoint performAll (ops : list trieOp) : trieM (list trieAnswer) :=
  match ops with
  | [] => ret []
  | op :: ops => let! a := perform op in let! answers := performAll ops in ret (a :: answers)
  end.

(** the same on a map *)
Definition after (m : gmap bytes (bytes * Z)) (op : trieOp) : gmap bytes (bytes * Z) :=
  match op with
  | OpUpdate key value => updated m key value NotSpecified
  | OpUpdateWithVersion key value version => updated m key value version
  | OpDelete key => delete key m
  | _ => m
  end.
Definition answers (m : gmap bytes (bytes * Z)) (op : trieOp) (a : trieAnswer) : Prop :=
  match op, a with
  | OpGet key, Found value => value = fst <$> m !! key
  | OpRootHash, Hashed h => rootHashOf m h
  | (OpUpdate _ _ | OpUpdateWithVersion _ _ _ | OpDelete _ | OpCommit), Done => True
  | _, _ => False
  end.
Fixpoint allAnswers (m : gmap bytes (bytes * Z)) (ops : list trieOp) (l : list trieAnswer) : Prop :=
  match ops, l with
  | [], [] => True
  | op :: ops, a :: l => answers m op a ∧ allAnswers (after m op) ops l
  | _, _ => False
  end.
(** core.TrieNodeVersion is a byte *)
Definition versionInRange (op : trieOp) : Prop :=
  match op with OpUpdateWithVersion _ _ version => (0 ≤ version < 256)%Z | _ => True end.

Section laws.
Context {TL : TrieLaws} {CF : CollisionFree}.

(** the operations only add to the storage *)
Lemma perform_refines op tr db m :
  TrieIs (tr, db) m → versionInRange op →
  ∃ a tr' db', perform op (tr, db) = (Ret a, (tr', db')) ∧ TrieIs (tr', db') (after m op) ∧
    answers m op a ∧ grows db db'.
Proof.
  intros His Hver. pose proof NotSpecified_zero as Hns.
  assert (grows db db) as Hg by by intros t.
  destruct op as [k|k v|k v ver|k| |]; cbn [perform after answers].
  - destruct (trie_Get_spec tr db m k His) as (depth & tr' & Hrun & His').
    unfold catch, bind. rewrite Hrun. by do 3 eexists.
  - destruct (trie_update_spec tr db m k v NotSpecified His) as (tr' & Hrun & His'); [lia|].
    unfold Update. rewrite (bind_Ret _ _ _ _ _ Hrun). by do 3 eexists.
  - destruct (trie_update_spec tr db m k v ver His Hver) as (tr' & Hrun & His').
    unfold UpdateWithVersion. rewrite (bind_Ret _ _ _ _ _ Hrun). by do 3 eexists.
  - destruct (trie_delete_spec tr db m k His) as (tr' & Hrun & His').
    unfold Delete. rewrite (bind_Ret _ _ _ _ _ Hrun). by do 3 eexists.
  - destruct (RootHash_spec tr db m His) as (h & tr' & Hrun & His' & Hh).
    rewrite (bind_Ret _ _ _ _ _ Hrun). by do 3 eexists.
  - destruct (Commit_spec tr db m His) as (tr' & db' & Hrun & His' & _ & Hg').
    rewrite (bind_Ret _ _ _ _ _ Hrun). by do 3 eexists.
Qed.
Lemma performAll_refines ops : ∀ tr db m,
  TrieIs (tr, db) m → Forall versionInRange ops →
  ∃ l tr' db', performAll ops (tr, db) = (Ret l, (tr', db')) ∧ TrieIs (tr', db') (foldl after m ops) ∧
    allAnswers m ops l ∧ grows db db'.
Proof.
  induction ops as [|op ops IH]; intros tr db m His Hops.
  { exists [], tr, db. split; [done|]. split; [done|]. split; [done|]. by intros t. }
  apply Forall_cons in Hops as [Hop Hops].
  destruct (perform_refines op tr db m His Hop) as (a & tr1 & db1 & Hrun & His1 & Ha & Hg1).
  destruct (IH tr1 db1 _ His1 Hops) as (l & tr2 & db2 & Hrun' & His' & Hl & Hg2).
  exists (a :: l), tr2, db2. cbn [performAll allAnswers].
  rewrite (bind_Ret _ _ _ _ _ Hrun) (bind_Ret _ _ _ _ _ Hrun'). split_and!; try done.
  intros t Ht. by apply Hg2, Hg1.
Qed.

(** C32: a trie is a map: any sequence of Get, Update, UpdateWithVersion,
    Delete, RootHash and Commit on a trie that holds a map succeeds, answers
    what the map answers - a value written, found or deleted; the hash of the
    current contents - and leaves a trie that holds the changed map, whether
    its nodes are in memory or only in the storage.  Updating a key with the
    value it has changes nothing, not even its version; updating with no bytes
    deletes. *)
Theorem trie_refines_map ops tr db m :
  TrieIs (tr, db) m → Forall versionInRange ops →
  ∃ l st', performAll ops (tr, db) = (Ret l, st') ∧ TrieIs st' (foldl after m ops) ∧ allAnswers m ops l.
Proof.
  intros His Hops. destruct (performAll_refines ops tr db m His Hops) as (l & tr' & db' & ? & ? & ? & _).
  by exists l, (tr', db').
Qed.

(** C33: the root hash identifies the contents: two tries, whatever their
    histories, storages and the nodes they have in memory, have the same root
    hash exactly when they hold the same keys with the same values and
    versions; the empty trie has the hash of 32 zeros. *)
Theorem RootHash_canonical tr1 db1 m1 tr2 db2 m2 :
  TrieIs (tr1, db1) m1 → TrieIs (tr2, db2) m2 →
  ∃ h1 h2 tr1' tr2', RootHash (tr1, db1) = (Ret h1, (tr1', db1)) ∧ RootHash (tr2, db2) = (Ret h2, (tr2', db2)) ∧
    (h1 = h2 ↔ m1 = m2) ∧ (m1 = ∅ ↔ h1 = EmptyTrieHash).
Proof.
  intros H1 H2. destruct (RootHash_spec _ _ _ H1) as (h1 & tr1' & Hr1 & _ & Hh1).
  destruct (RootHash_spec _ _ _ H2) as (h2 & tr2' & Hr2 & _ & Hh2).
  exists h1, h2, tr1', tr2'. split; [done|]. split; [done|]. split; split.
  - intros ->. by eapply rootHashOf_inj.
  - intros ->. by eapply rootHashOf_fun.
  - intros ->. eapply rootHashOf_fun; [done|by left].
  - intros ->. eapply rootHashOf_inj; [done|by left].
Qed.

(** C34: what is committed can be read back: after Commit the root hash alone
    recreates, from the storage, a trie with the committed contents, whatever
    the trie goes through afterwards - updates, deletions, further commits of
    other contents. *)
Theorem Commit_recreate tr db m ops tr0 :
  TrieIs (tr, db) m → Forall versionInRange ops → maxTrieLevelInMemory tr0 ≠ 0%Z →
  ∃ h tr1 db1, (Commit ;;; RootHash) (tr, db) = (Ret h, (tr1, db1)) ∧ TrieIs (tr1, db1) m ∧
    ∃ l tr2 db2, performAll ops (tr1, db1) = (Ret l, (tr2, db2)) ∧
      ∃ tr', recreate h tr0 db2 = Ret tr' ∧ TrieIs (tr', db2) m.
Proof.
  intros His Hops Hmax. destruct (Commit_spec tr db m His) as (tr1 & db1 & Hcom & His1 & Hclean & _).
  destruct (RootHash_spec tr1 db1 m His1) as (h & tr2 & Hroot & His2 & Hh).
  exists h, tr2, db1. rewrite (bind_Ret _ _ _ _ _ Hcom). split; [done|]. split; [done|].
  destruct (performAll_refines ops tr2 db1 m His2 Hops) as (l & tr3 & db2 & Hrun & _ & _ & Hg).
  exists l, tr3, db2. split; [done|]. by eapply (recreate_spec tr1 tr0 db1).
Qed.

(** C35: iterating over a committed trie sends each of its keys, with its value
    and version, exactly once, whatever the trie that iterates holds itself and
    however the slices of the key builders grow, which nodes share while they
    append to them.  Steps of recursion as many as a key has nibbles, and two
    more, are enough. *)
Theorem GetAllLeaves_exact `{SliceGrowth} {L} `{TrieLeafParser L} tr db m tr0 mem fuel
    (leafOf : bytes → bytes → Z → L) :
  TrieIs (tr, db) m → maxTrieLevelInMemory tr0 ≠ 0%Z →
  (∀ k, is_Some (m !! k) → 2 * length k + 1 < fuel) →
  (∀ k v ver, m !! k = Some (v, ver) → ParseLeaf k (Some v) ver = inr (leafOf k v ver)) →
  ∃ h tr' db', (Commit ;;; RootHash) (tr, db) = (Ret h, (tr', db')) ∧
    ∃ l, GetAllLeavesOnChannel fuel h (NewKeyBuilder mem).1 tr0 db' (NewKeyBuilder mem).2 = Ret (l, None) ∧
      l ≡ₚ (λ '(k, (v, ver)), leafOf k v ver) <$> map_to_list m.
Proof.
  intros His Hmax Hfuel Hparse. destruct (Commit_spec tr db m His) as (tr1 & db1 & Hcom & His1 & Hclean & _).
  destruct (RootHash_spec tr1 db1 m His1) as (h & tr2 & Hroot & _ & Hh).
  exists h, tr2, db1. rewrite (bind_Ret _ _ _ _ _ Hcom). split; [done|].
  destruct (committed_stored tr1 db1 m h His1 Hclean Hh) as [[-> ->]|(t & Hwf & Hholds & Hst & ->)].
  { exists []. split; [|done]. by apply GetAllLeaves_empty. }
  destruct (GetAllLeaves_spec fuel tr0 db1 t m (NewKeyBuilder mem).2 (NewKeyBuilder mem).1) as (l & Hrun & Hl);
    try done; [apply newBuilder_valid|by intros k v ver ?%Hparse; eexists|].
  exists l. split; [done|]. by eapply leaves_perm.
Qed.

(** C36: a proof exists exactly for the keys of the trie: GetProof returns for
    each of them its value and a proof that VerifyProof accepts against the
    root hash, provided the key is not longer than a hash; for any other key it
    says that there is no such node. *)
Theorem GetProof_verifies tr db m k :
  TrieIs (tr, db) m → m ≠ ∅ →
  ∃ h tr', rootHashOf m h ∧ TrieIs (tr', db) m ∧
    match m !! k with
    | Some (v, _) => ∃ proof, GetProof k (tr, db) = (Ret (proof, Some v), (tr', db)) ∧
        verifyProof h k (Some <$> proof) = Ret true ∧
        (length k ≤ length (Compute k) → VerifyProof h k (Some <$> proof) = Ret true)
    | None => GetProof k (tr, db) = (Throw ErrNodeNotFound, (tr', db))
    end.
Proof.
  intros His Hne. destruct (GetProof_spec tr db m k His Hne) as (t & tr' & Hwf & Hholds & His' & Hrun).
  exists (phash t), tr'. split; [right; by exists t|]. split; [done|].
  destruct (m !! k) as [[v ver]|] eqn:Hk; [|done].
  assert (is_Some (pget t (keyBytesToHex k))) as Hg by by rewrite (holds_get _ _ _ Hholds) Hk.
  exists (pproof t (keyBytesToHex k)). split; [done|]. split.
  - eapply verify_route; [done|]. by apply sameRoute_refl.
  - intros Hlen. apply VerifyProof_spec; [done..|by apply sameRoute_refl|]. rewrite !hex_length. lia.
Qed.

(** the keys of [m] have a common ending, and [k] and another are among them *)
Record endsIn (m : gmap bytes (bytes * Z)) (s x : bytes) : Prop := {
  ends_all k : is_Some (m !! k) → ∃ y, k = y ++ s;
  ends_in : is_Some (m !! (x ++ s));
  ends_other : ∃ y, y ≠ x ∧ is_Some (m !! (y ++ s));
}.
Lemma endsIn_root t m s x :
  wf false t → holds t m → endsIn m s x → s ≠ [] →
  ∃ p c, t = PExt (concat (nibblesOf <$> rev s) ++ p) c.
Proof.
  intros Hwf Hholds [Hall [v Hx] (y & Hxy & [v' Hy])] Hs.
  eapply (common_path t _ (keyBytesToHex (x ++ s)) (keyBytesToHex (y ++ s))); [done|apply hex_path|..].
  - intros E. apply (f_equal length) in E. rewrite length_nibbles length_rev in E. by destruct s.
  - intros hk Hhk Hg. destruct (Hholds hk Hhk) as [Hget Hex]. destruct (Hex Hg) as [k ->].
    rewrite (Hget k) // in Hg. destruct (Hall k Hg) as [z ->]. eexists. apply hex_app.
  - intros E%keyBytesToHex_inj%app_inv_tail. congruence.
  - by rewrite (holds_get _ _ _ Hholds) Hx.
  - by rewrite (holds_get _ _ _ Hholds) Hy.
Qed.

(** C39: a proof can be accepted for a key that is not in the trie: if the keys
    have a common ending, the verifier drops it without looking at it, and the
    proof of a key is accepted for the key with the ending replaced by other
    bytes, although the trie holds no such key. *)
Theorem VerifyProof_accepts_absent_key tr db m x s s' :
  TrieIs (tr, db) m → endsIn m s x → length s' = length s → s' ≠ s →
  length (x ++ s') ≤ length (Compute (x ++ s')) →
  m !! (x ++ s') = None ∧
  ∃ h v proof tr', rootHashOf m h ∧ GetProof (x ++ s) (tr, db) = (Ret (proof, Some v), (tr', db)) ∧
    VerifyProof h (x ++ s') (Some <$> proof) = Ret true.
Proof.
  intros His Hend Hlen Hne Hhash.
  assert (s ≠ []) as Hs by (intros ->; by destruct s').
  destruct (m !! (x ++ s)) as [[v ver]|] eqn:Hx; [|destruct (ends_in _ _ _ Hend); congruence].
  assert (m ≠ ∅) as Hm by by intros ->.
  destruct (GetProof_spec tr db m (x ++ s) His Hm) as (t & tr' & Hwf & Hholds & _ & Hrun). rewrite Hx in Hrun.
  assert (is_Some (pget t (keyBytesToHex (x ++ s)))) as Hg by by rewrite (holds_get _ _ _ Hholds) Hx.
  split.
  - destruct (m !! (x ++ s')) as [w|] eqn:Hx'; [|done].
    destruct (ends_all _ _ _ Hend (x ++ s')) as [y E]; [done|].
    apply app_inj_2 in E as [_ E]; [|done]. congruence.
  - exists (phash t), v, (pproof t (keyBytesToHex (x ++ s))), tr'. split; [right; by exists t|]. split; [done|].
    apply VerifyProof_spec; [done..| |rewrite !hex_length !length_app in Hhash |- *; lia].
    destruct (endsIn_root t m s x Hwf Hholds Hend Hs) as (p & c & ->). rewrite hex_app in Hg |- *. rewrite hex_app.
    apply sameRoute_common; [done|]. rewrite !length_nibbles !length_rev. lia.
Qed.

(** C40: and it can crash: if the common ending of the keys is longer than a
    hash, VerifyProof panics on every proof of the trie, for every key. *)
Theorem VerifyProof_panics tr db m x s k :
  TrieIs (tr, db) m → endsIn m s x → length (Compute k) < length s →
  ∃ h v proof tr', rootHashOf m h ∧ GetProof (x ++ s) (tr, db) = (Ret (proof, Some v), (tr', db)) ∧
    VerifyProof h k (Some <$> proof) = Panic.
Proof.
  intros His Hend Hlen. assert (s ≠ []) as Hs by (intros ->; simpl in Hlen; lia).
  destruct (m !! (x ++ s)) as [[v ver]|] eqn:Hx; [|destruct (ends_in _ _ _ Hend); congruence].
  assert (m ≠ ∅) as Hm by by intros ->.
  destruct (GetProof_spec tr db m (x ++ s) His Hm) as (t & tr' & Hwf & Hholds & _ & Hrun). rewrite Hx in Hrun.
  exists (phash t), v, (pproof t (keyBytesToHex (x ++ s))), tr'. split; [right; by exists t|]. split; [done|].
  destruct (endsIn_root t m s x Hwf Hholds Hend Hs) as (p & c & ->).
  unfold VerifyProof, verifyProof. rewrite verify_short; [done|done|].
  rewrite hex_length length_app length_nibbles length_rev. lia.
Qed.
End laws.
End theorems.

(** ** Examples *)
Definition demoOps : list trieOp :=
  [ OpUpdate key1 [x31]; OpUpdateWithVersion key2 [x32] 1; OpCommit; OpGet key1; OpDelete key1;
    OpGet key1; OpUpdate key2 [x32]; OpGet key2 ].
Lemma demoOps_valid : Forall versionInRange demoOps.
Proof. repeat apply Forall_cons_2; simpl; try done; apply Forall_nil_2. Qed.
Lemma demo_endsIn : endsIn demoContents ending [x01].
Proof.
  split.
  - intros k [v Hk]. unfold demoContents in Hk. apply lookup_insert_Some in Hk as [[<- _]|[_ Hk]]; [by exists [x01]|].
    apply lookup_singleton_Some in Hk as [<- _]. by exists [x02].
  - by exists ([x31], 0%Z).
  - exists [x02]. split; [done|]. by exists ([x32], 1%Z).
Qed.

Lemma trie_refines_map_witness :
  (performAll demoOps emptyTrie).1 =
    Ret [Done; Done; Done; Found (Some [x31]); Done; Found None; Done; Found (Some [x32])] ∧
  ∃ l st', performAll demoOps emptyTrie = (Ret l, st') ∧ TrieIs st' (foldl after ∅ demoOps) ∧
    allAnswers ∅ demoOps l.
Proof.
  split; [by vm_compute|]. exact (trie_refines_map demoOps _ _ ∅ emptyTrie_is demoOps_valid).
Defined.
Lemma RootHash_canonical_witness : ∃ h1 h2 tr1' tr2',
  RootHash demoState = (Ret h1, (tr1', demoState.2)) ∧ RootHash emptyTrie = (Ret h2, (tr2', emptyTrie.2)) ∧
  (h1 = h2 ↔ demoContents = ∅) ∧ (demoContents = ∅ ↔ h1 = EmptyTrieHash).
Proof. exact (RootHash_canonical demoState.1 demoState.2 _ _ _ _ demoState_is emptyTrie_is). Defined.
Lemma Commit_recreate_witness : ∃ h tr1 db1,
  (Commit ;;; RootHash) demoState = (Ret h, (tr1, db1)) ∧ TrieIs (tr1, db1) demoContents ∧
  ∃ l tr2 db2, performAll demoOps (tr1, db1) = (Ret l, (tr2, db2)) ∧
    ∃ tr', recreate h emptyTrie.1 db2 = Ret tr' ∧ TrieIs (tr', db2) demoContents.
Proof.
  apply (Commit_recreate demoState.1 demoState.2 demoContents demoOps emptyTrie.1 demoState_is demoOps_valid). done.
Defined.
Lemma GetAllLeaves_exact_witness : ∃ h tr' db', (Commit ;;; RootHash) demoState = (Ret h, (tr', db')) ∧
  ∃ l, GetAllLeavesOnChannel 8 h (NewKeyBuilder []).1 emptyTrie.1 db' (NewKeyBuilder []).2 = Ret (l, None) ∧
    l ≡ₚ (λ '(k, (v, ver)), (k, v, ver)) <$> map_to_list demoContents.
Proof.
  apply (GetAllLeaves_exact demoState.1 demoState.2 demoContents emptyTrie.1 [] 8 (λ k v ver, (k, v, ver)) demoState_is);
    [done| |done].
  intros k [v Hk]. unfold demoContents in Hk. apply lookup_insert_Some in Hk as [[<- _]|[_ Hk]]; [simpl; lia|].
  apply lookup_singleton_Some in Hk as [<- _]. simpl. lia.
Defined.
Lemma GetProof_verifies_witness : ∃ h tr', rootHashOf demoContents h ∧ TrieIs (tr', demoState.2) demoContents ∧
  ∃ proof, GetProof key1 demoState = (Ret (proof, Some [x31]), (tr', demoState.2)) ∧
    verifyProof h key1 (Some <$> proof) = Ret true ∧
    (length key1 ≤ length (Compute key1) → VerifyProof h key1 (Some <$> proof) = Ret true).
Proof. exact (GetProof_verifies demoState.1 demoState.2 demoContents key1 demoState_is ltac:(done)). Defined.
Lemma VerifyProof_accepts_absent_key_witness :
  demoContents !! ([x01] ++ [x63; x64]) = None ∧
  ∃ h v proof tr', rootHashOf demoContents h ∧
    GetProof ([x01] ++ ending) demoState = (Ret (proof, Some v), (tr', demoState.2)) ∧
    VerifyProof h ([x01] ++ [x63; x64]) (Some <$> proof) = Ret true.
Proof.
  apply (VerifyProof_accepts_absent_key demoState.1 demoState.2 demoContents [x01] ending [x63; x64]
    demoState_is demo_endsIn); [done|done|]. simpl. lia.
Defined.
(** the hash of no bytes has one byte *)
Lemma VerifyProof_panics_witness : ∃ h v proof tr',
  rootHashOf demoContents h ∧ GetProof ([x01] ++ ending) demoState = (Ret (proof, Some v), (tr', demoState.2)) ∧
  VerifyProof h [] (Some <$> proof) = Panic.
Proof.
  apply (VerifyProof_panics demoState.1 demoState.2 demoContents [x01] ending [] demoState_is demo_endsIn).
  simpl. lia.
Defined.
